(* ===== verification/_CoqProject ===== *)
-Q . S2P
Prelude.v
JsString.v
OrderedMap.v
Sums.v
Sorting.v
Bytes.v
Json.v
WatchRows.v
WatchProblems.v
ListStatus.v
WatchMux.v
Permissions.v
Time.v
WorkloadRows.v
ObjectRows.v
NetworkRows.v
ChatText.v
ToolAccess.v
ChatStream.v
Auth.v
Calendar.v
Cron.v
CronNext.v
ResourceLink.v
Conversation.v
ChatScreen.v
Rbac.v
InferTypes.v
Traffic.v
Follower.v
SecretYaml.v
ObjectActions.v
ToolExport.v
OwnedResources.v
Optimization.v
AiRoutes.v
AiContext.v
AiSummaries.v
FloatingChat.v
Bindings.v
Setup.v
ListPage.v
ListWorkloads.v
ListNetwork.v
ListGateway.v
ListCluster.v
ListStorage.v
ListKinds.v
ListPages.v
PodsPage.v
Sessions.v
Gpu.v
NodeQueries.v
Drawer.v
Alerts.v
Modals.v
BulkCsv.v
AdminUsers.v
ModelForm.v
AuditPages.v
GraphView.v
Issues.v
SavedSearches.v
Scrolling.v
RoleForm.v
SessionTitle.v
ClusterMap.v
ClusterView.v
Logs.v
