(* ===== verification/Prelude.v ===== *)
(** * Verification of the Kubeast web client

    Kubeast is a console for Kubernetes clusters with an AI assistant.  Its web
    client (src/frontend, TypeScript) keeps lists of objects live over watches,
    signs people in and shows them what they may do, streams the assistant's
    answers, and computes what its pages show.  This library models that code:
    each file is one part of it, with the code's names, and the theorems that make
    the part correct.  The servers (Go, Python), the React markup and the
    libraries the client calls are outside; what the code relies on of them is an
    argument or a named hypothesis.

    ** The parts, and the files of src/frontend/src they model

    The live lists.
    - [WatchMux]: services/watchMultiplexer.ts.  One WebSocket carries every watch
      of the page.  The class's fields, the sockets it made and the calls that
      wait are a state; each turn of the code is a step.
    - [WatchRows]: services/useKubeWatchList.ts, applyRowEvent.ts,
      useHelmWatchList.ts.  What a frame does to the rows on screen; the class
      [RowFeed] is what a page promises of its apply function.
    - [WorkloadRows], [ObjectRows], [NetworkRows]: the [*WatchNormalize.ts] of the
      pages, the apply functions themselves; each is an instance of [RowFeed].
    - [WatchProblems], [ListStatus]: services/watchProblemStore.ts,
      listStatusStore.ts, forbiddenStore.ts, utils/forbiddenResource.ts and the
      response interceptor of services/api/client.ts.  Why a list is not live or
      not shown.
    - [Follower]: components/resource-detail/useDrawerFollowsObject.ts.  The
      window of one object, which reads it again as its frames come.
    A frame goes from the socket of [WatchMux] (which also records it in
    [WatchProblems]) to the listeners of its watch, which are the pages' feeds of
    [WatchRows] and the windows of [Follower].

    The session and its rights.
    - [Auth]: services/auth.ts.  Being signed in, the notice of a lost session,
      the one reaction to a 401, the refresh loop.
    - [Permissions]: utils/permissions.ts.  What the person may do.
    - [Rbac]: pages/cluster-view/rbacUtils.ts.  What a pod's account may do.
    - [Bindings]: resource-detail/role-info, service-account-info.  The bindings
      that grant a role, and those that apply to an account.
    - [Setup]: pages/setup/useClusterSubmit.ts.  Connecting a cluster: the request,
      the polling effect and its timers.

    The administration.
    - [BulkCsv], [AdminUsers]: pages/admin-users/bulkCreate.ts, bulkRole.ts,
      AdminUsers.tsx, UserDetailModal.tsx.  The CSV of an upload and its template; the
      selection, the roles given to many, the rows of an upload that were not created.
    - [ModelForm]: constants/modelCatalog.ts, pages/admin-ai-models.  The form of an AI
      model, its options and limits, its test.
    - [AuditPages]: pages/adminAuditPages.ts, pages/AdminAudit.tsx.  The pages of the
      audit log, over the list of the server.
    - [RoleForm]: pages/AdminRoles.tsx, utils/roleGroup.ts.  The form of a role: its
      tree of permissions, saving, the group a name suggests.

    The assistant.
    - [ChatText]: services/chatTextUtils.ts.  Fenced code blocks in an answer.
    - [ToolAccess]: services/toolAccess.ts.  Who a tool call ran as.
    - [ChatStream]: services/chatStreamManager.ts.  One answer being written: the
      server's events, the typewriter, the tool blocks, stop and failures.
    - [Conversation]: services/sessionMessages.ts, hooks/useEarlierMessages.ts.
      The pages of a saved conversation.
    - [ChatScreen]: the hooks of pages/ai-chat, which bring the two together on
      the page.
    - [Sessions]: pages/ai-chat/useChatSessions.ts, hooks/useSessionMutations.ts and the
      list part of hooks/useChatHandlers.ts.  The conversations of the sidebar.
    - [SessionTitle]: ai-chat/hooks/useSessionEditing.ts, useContextMenuDismiss.ts.  The
      title of a conversation while it is edited, and its menu.
    - [Scrolling]: hooks/useStickToBottom.ts, useAdaptiveRowsPerPage.ts,
      useSessionsScrollViewport.ts, SessionSidebar.tsx.  A reader at the bottom stays
      there; the rows of a table and of the sidebar that are in view.
    - [ResourceLink]: utils/resourceLink.ts.  The links of an answer.
    - [ToolExport]: pages/ai-chat/exportToolCalls.ts.  The download of an answer's
      tool results.
    - [Optimization]: pages/dashboard/hooks/useOptimizationStream.ts and the reader
      of services/api/ai.ts.  The suggestions typed in a window of the dashboard.
    - [AiRoutes], [AiContext], [AiSummaries]: utils/aiContext, hooks/useAIContext.ts,
      components/PageContext.  What the floating assistant is told of the screen:
      the page of an address, the layers of its components with their throttle and
      budget, the counts and short lists that go in them.
    - [FloatingChat]: FloatingAIChat/turnsOnScreen.ts.  The list of the floating chat
      over the state of [ChatStream].

    The pages' computations.
    - [Calendar], [Cron], [CronNext]: utils/cron.ts on the language's [Date].
    - [Time]: utils/time.ts.
    - [SecretYaml]: components/resource-detail/utils.ts, the YAML of a Secret.
    - [InferTypes]: components/search/inferTypes.ts.
    - [Traffic], [GraphView]: pages/resource-graph/traffic.ts, constants.ts, counts.ts,
      useResourceGraphLayout.tsx, pages/ResourceGraph.tsx.  The lines of the network
      flows, then all that is drawn of the graph: boxes, relationships, focus, layout.
    - [Gpu]: pages/gpu/gpuNumbers.ts, utils/nodeStatus.ts.  GPUs by node, company,
      model and pod.
    - [NodeQueries]: utils/nodeMetrics.ts.  The Prometheus selectors of a node.
    - [Alerts]: utils/alertInbox.ts, pages/AlertInbox.tsx.  The rows of the inbox,
      what silences them, and the notice of a refused investigation.
    - [Issues]: pages/dashboard/issues.ts.  The issues of the dashboard, in groups.
    - [SavedSearches]: components/search/savedSearchStore.ts, SavedSearches.tsx.  The
      searches a browser keeps.
    - [ClusterMap]: pages/cluster-view/podHealth.tsx, nodeMapLayout.ts,
      useClusterDerived.ts, ClusterNodeMap.tsx, useClusterPodsQuery.ts.  The map of the
      nodes: what a pod's state is worth, the grid, the dots, a click.
    - [ClusterView]: the deletion of a pod in the same page, resource-detail/systemObject.ts and the
      container a window opens with.
    - [Logs]: components LogFilesView.tsx, PodLogsTab.tsx, LogSearchView.tsx, logSearch.ts.
      The files of a container, its output, the search in stored logs.

    The list pages.
    - [ListPage]: what the list pages share: search, columns, sorting, cards, the rows
      that fit and the effects on the page number.  A page is a record of type
      [ListPage.ListPage] over its rows.
    - [ListWorkloads], [ListNetwork], [ListGateway], [ListCluster], [ListStorage]: the
      records of 45 pages under pages/ (workloads, network, gateway, dra, cluster and
      configuration, storage), each with its own columns, helpers and cards.
    - [ListKinds]: gateway/Policies.tsx, custom-resources/CustomResourceInstances.tsx and
      readNotice.ts, the pages of GPUs and of device classes.  Tables of objects of any
      kind, their filters, and what could not be listed.
    - [ListPages]: what holds of each of them.
    - [PodsPage]: pages/workloads/Pods.tsx, which the server sorts and pages.

    The window of one object.
    - [Drawer]: components/ResourceDetailProvider.tsx, detailParam.ts,
      resource-detail/crDetail.ts.  The window and its address, the way back, the
      versions of a custom resource.
    - [Modals]: hooks/useModalStack.ts.  The windows over one another: order, focus
      and the scrolling of the page.
    - [OwnedResources]: resource-detail/workload-info/useOwnedWatchedResources.ts.
      The Pods, ReplicaSets and Jobs of a workload, over [WatchRows] and
      [WorkloadRows].
    - [ObjectActions]: useResourceDelete.ts, useResourceYaml.ts, the drawer of custom
      resources and the requests of services/api.  Deleting and editing an object.

    Shared: this file (notations, array methods, bounded loops), [JsString]
    (strings, in two representations), [OrderedMap] ([Map], [Set], stable sort),
    [Sums] and [Sorting] (sums over lists, sorted lists), [Bytes] (base64 and UTF-8),
    [Json] (JavaScript values).  [Drawer] is used by [Alerts], [BulkCsv] by
    [AdminUsers], [Traffic] by [GraphView], [ListPage] by the list pages and by
    [AuditPages].

    ** What the theorems show

    - The rows on screen converge: after the answer of a list and any frames since,
      a feed's rows are the server's objects (refinement to a finite map, order
      kept); an open socket mirrors what the page subscribed to; a watch comes back
      after every failure; a frame reaches its own watch and no other.
    - The rows a page holds are those of its own objects, whether a frame brought
      them raw or already normalized.
    - A change of the object in an open window is read, and reads are apart.
    - A page signs out once, keeps the session of an active tab, and shows the
      notice only when a session was lost.
    - An answer completes, never loses a letter, and each tool's result stays in
      its block, however the body is cut and the typewriter runs; what the screen
      shows of a conversation has no gap, and a turn of one that is loaded is on
      screen from the question to the saved answer.
    - A link opens only names the cluster can have; round trips of links,
      permissions and the YAML of a Secret.
    - The assistant is told the last thing each part of the screen showed, within
      the budget, and never the content of an admin page; every saved message is in
      the floating chat once and in order.
    - The bindings a role's window shows are those the server then has whose [roleRef] is
      the role; those listed for an account are those the API server applies to it, but
      by the group of every signed-in user.
    - A list page shows each row its search matches on one page and once, in the order
      of the column asked for; a name finds its row; the cards add up to the rows; the
      Pods page shows its own rows of the server's list, and a poll keeps it current.
    - The sidebar lists a conversation once, and the conversation the server made takes
      the place of its temporary row.
    - Connecting a cluster never hangs and its polling ends.
    - The CSV of an upload reads back the accounts that can be written in it, which has no
      quotes; every row is created or listed as refused, with its reason.
    - A model saved as it was opened is unchanged on the server, and the limits saved
      are the numbers typed, in their ranges.
    - The pages of the audit log are bound to its first read, by the highest id it
      counted: rows of higher ids do not shift them, rows committed late do.
    - The address and the window agree however the two change; a link opens the same
      window again.
    - What is drawn of the graph goes down and ends on boxes that are drawn; a line in
      focus is lit to its end; the layout on screen is that of the last input.
    - The issues of the dashboard are each in one group, the worst first; a reload brings
      back the searches the storage took last; text that comes never scrolls a reader up, and
      the rows in view are drawn.
    - A role is saved as it was ticked, and a save is of the role that is open; the titles
      saved are those shown.
    - A click on the map opens its node, and every pod has its dot there; the pod deleted
      is the one that was confirmed.
    - The lines of a log search are those of the last search, without a gap; a followed
      file shows its last five thousand lines; the marks of a line are the line.
    - GPUs add up over companies, models and nodes; a selector names its node and no
      other; the live line of an alert is exact.
    - The next run of a CronJob is the least instant its fields allow, the search
      ends, and a schedule is refused exactly as the code's errors say.
    - The declared types hold of the loaded objects, their literals when the strings are
      short and few; the table of an account is its rules; the rows of ports add up to the lines.
    - The children a window shows are the server's objects that are the workload's; what a
      window deletes is the object it shows, under the right to delete its kind, and what it edits is what it read; a download holds
      every result, each its own; a run of suggestions shows what its events said.
    - Some theorems show where the code does not do what it means to: a search can
      leave a list on its last page, the next block of the Pods page shows the rows of
      page one, a question asked too soon drops the one before, a question asked before
      its conversation is loaded leaves the screen, a failed creation
      leaves its row, a delete can hit another object; and, beside the properties of
      the manifest, a listener dropped during a dispatch starves another, the close of
      an old socket orphans its successor, a reader who returns to a conversation
      misses messages, the reads after an answer stop too early, a cut answer's
      download is another's, an edit leaves the window on what it was, letters are
      typed in the next window, a window opened again misses its way back, a silence of
      a custom resource is too wide, a stale selection gets a role, a stale draft takes
      a role back, a model moved to another provider keeps the old address, the test of
      one provider is shown for another, a search with the filter shown reads nothing,
      another tab's saved searches are forgotten, a small scroll up is undone, edits made
      while a role is saved are lost, a renamed title closes the editing of another,
      Escape leaves the dialog of one pod to the answer of another, a mark outlives its
      pod, a name typed for one object counts for its namesake, the output of a container
      that ended is written again, and a change of container reads the old path.

    ** Loops, fuel and numbers

    Recursion over text is structural where it can be; [closingLoop],
    [codeBlocksLoop] and [closeFrom] of [ChatText] take one more than the length of
    the text, and each round moves on by a line; [setBits] of [Cron] takes the
    number of values of its range, [durationLoop] the length of the text; [readBlocks] of
    [Optimization] the length of the buffer, each block taking some.  The search of [CronNext] runs its loops with [iterate ROUNDS], [2 ^ 32] rounds at
    most: the search is proved to end before (its measure is the seconds left to
    the last year looked at).  Numbers of the API are integers below [2 ^ 53],
    where a double is exact; sizes of volumes and ratios are rationals; lengths and
    offsets are UTF-16 code units.

    ** Not modelled

    The React markup (the .tsx files), its effects as a scheduler, translations and styles;
    the modules that only send a request (services/api); the code that draws; what
    reads the viewer's time zone; floating point.  The end-to-end tests, the
    charts and the servers are other programs; of the servers' lists only the audit
    log's is written out ([AuditPages]), since its pages depend on it.  Left out of the
    client's own code are the display texts of single objects, the widths of the tables
    and the pages whose markup holds their whole logic. *)

From Stdlib Require Export ZArith Ascii.
From stdpp Require Export base list strings gmap sets pretty.
From stdpp Require Import options.

#[global] Set Default Proof Using "Type".
#[global] Set Warnings "-clear-no-such-hyp,-register-all".

(** ** Notations of the development *)

Declare Scope js_scope.
Delimit Scope js_scope with js.

(** Strict equality of two identifiers, as a boolean. *)
Notation "a === b" := (bool_decide (a = b)) (at level 70, no associativity) : js_scope.
#[global] Open Scope js_scope.

(** ** Lists, as JavaScript's array methods use them *)

Section lists.
Context {A B : Type}.
Implicit Types (l : list A) (P : A → bool).

(** [Array.prototype.findIndex]: the first index whose element satisfies [P]. *)
Fixpoint findIndex P l : option nat :=
  match l with
  | [] => None
  | x :: l' => if P x then Some 0 else S <$> findIndex P l'
  end.

(** [Array.prototype.find]. *)
Fixpoint find P l : option A :=
  match l with
  | [] => None
  | x :: l' => if P x then Some x else find P l'
  end.

(** [Array.prototype.some], [every], [filter] with a boolean callback. *)
Definition some P l : bool := existsb P l.
Definition every P l : bool := forallb P l.
Definition filterb P l : list A := List.filter P l.

(** [a.slice(0, n)]. *)
Definition slice0 (n : nat) l : list A := take n l.

Lemma findIndex_Some P l i :
  findIndex P l = Some i →
  ∃ x, l !! i = Some x ∧ P x = true ∧ ∀ j y, j < i → l !! j = Some y → P y = false.
Proof.
  revert i. induction l as [|x l IH]; intros i H; simpl in *; [done|].
  destruct (P x) eqn:E; simplify_eq.
  - exists x. split_and!; [done|done|lia].
  - destruct (findIndex P l) as [k|] eqn:Ek; simplify_eq/=.
    destruct (IH k eq_refl) as (y & ? & ? & Hlt). exists y. split_and!; [done..|].
    intros [|j] z Hj Hz; simplify_eq/=; [done|]. apply (Hlt j z); [lia|done].
Qed.

Lemma findIndex_None P l : findIndex P l = None ↔ Forall (λ x, P x = false) l.
Proof.
  induction l as [|x l IH]; simpl; [by split|].
  rewrite Forall_cons, <-IH. destruct (P x), (findIndex P l); naive_solver.
Qed.

Lemma findIndex_lt P l i : findIndex P l = Some i → i < length l.
Proof. intros (x & ? & _)%findIndex_Some. by eapply lookup_lt_Some. Qed.

Lemma find_Some P l x : find P l = Some x → x ∈ l ∧ P x = true.
Proof.
  induction l as [|y l IH]; simpl; [done|]. destruct (P y) eqn:E; intros ?; simplify_eq.
  - split; [left|done].
  - destruct IH; [done|]. split; [by right|done].
Qed.

Lemma find_None P l : find P l = None ↔ Forall (λ x, P x = false) l.
Proof.
  induction l as [|y l IH]; simpl; [by split|].
  rewrite Forall_cons, <-IH. destruct (P y); naive_solver.
Qed.

Lemma filterb_nodup P l : NoDup l → NoDup (filterb P l).
Proof.
  unfold filterb. induction 1 as [|x l Hx Hl IH]; cbn; [constructor|]. destruct (P x); [|done]. constructor; [|done].
  intros [Hin _]%list_elem_of_In%filter_In. by apply Hx, list_elem_of_In.
Qed.

Lemma elem_of_filterb P l x : x ∈ filterb P l ↔ x ∈ l ∧ P x = true.
Proof. unfold filterb. rewrite !list_elem_of_In, filter_In. done. Qed.

Lemma some_true P l : some P l = true ↔ ∃ x, x ∈ l ∧ P x = true.
Proof. unfold some. rewrite existsb_exists. by setoid_rewrite list_elem_of_In. Qed.

Lemma every_true P l : every P l = true ↔ ∀ x, x ∈ l → P x = true.
Proof. unfold every. rewrite forallb_forall. by setoid_rewrite list_elem_of_In. Qed.

(** A filter nothing fails keeps the list. *)
Lemma filter_id (Q : A → Prop) `{!∀ x, Decision (Q x)} l : Forall Q l → filter Q l = l.
Proof.
  induction 1 as [|x l Hx Hl IH]; [done|]. by rewrite filter_cons_True, IH.
Qed.
End lists.

(** An element of a list whose keys are apart is found by its key. *)
Lemma fmap_one {A B} (f : A → B) l x y : NoDup (f <$> l) → x ∈ l → y ∈ l → f x = f y → x = y.
Proof.
  intros Hnd [j Hj]%list_elem_of_lookup [k Hk]%list_elem_of_lookup E. assert (j = k) as -> by (eapply NoDup_lookup; [done|by rewrite list_lookup_fmap, Hj|by rewrite list_lookup_fmap, Hk, E]).
  congruence.
Qed.

(** ** Loops

    A loop whose body either goes on with a new state or ends with a result.
    [iterate n] runs it for at most [2 ^ n] rounds. *)

Fixpoint iterate {S R} (n : nat) (body : S → S + R) (s : S) : S + R :=
  match n with
  | O => body s
  | S n => match iterate n body s with inl s' => iterate n body s' | inr r => inr r end
  end.

(** Total correctness: an invariant and a measure that every round lowers. *)
Lemma iterate_total {S R} (body : S → S + R) (I : S → Prop) (Q : R → Prop) (μ : S → Z) :
  (∀ s, I s → 0 ≤ μ s)%Z →
  (∀ s, I s → match body s with inl s' => I s' ∧ (μ s' < μ s)%Z | inr r => Q r end) →
  ∀ n s, I s → (μ s < 2 ^ Z.of_nat n)%Z → ∃ r, iterate n body s = inr r ∧ Q r.
Proof.
  intros Hpos Hstep. assert (∀ n s, I s → match iterate n body s with
    | inl s' => I s' ∧ (μ s' ≤ μ s - 2 ^ Z.of_nat n)%Z | inr r => Q r end) as H.
  { induction n as [|n IH]; intros s Hs; cbn [iterate].
    - specialize (Hstep s Hs). destruct (body s); [|done]. change (2 ^ Z.of_nat 0)%Z with 1%Z.
      split; [tauto|]. destruct Hstep. lia.
    - specialize (IH s Hs) as H1. destruct (iterate n body s) as [s1|]; [|done]. destruct H1 as [Hs1 H1].
      specialize (IH s1 Hs1) as H2. destruct (iterate n body s1) as [s2|]; [|done]. destruct H2 as [Hs2 H2].
      split; [done|]. rewrite Nat2Z.inj_succ, Z.pow_succ_r by lia. lia. }
  intros n s Hs Hn. specialize (H n s Hs). destruct (iterate n body s) as [s'|r]; [|by exists r].
  destruct H as [Hs' ?]. specialize (Hpos s' Hs'). lia.
Qed.

(** Proves a decidable closed fact by computing its decision procedure. *)
Ltac by_decide :=
  match goal with |- ?P => refine (bool_decide_unpack P _); vm_compute; exact I end.

Create HintDb kubeast.
Create Rewrite HintDb kubeast_rw.
#[export] Hint Resolve findIndex_lt : kubeast.
