(* ===== verification/JsString.v ===== *)
(** * JavaScript strings

    Two representations are used.  Identifiers the cluster names (DNS-1123
    names, kinds, API paths, status words, permission keys) are ASCII, and a
    [string] of the library stands for the same sequence of UTF-16 code units.
    The chat's texts (Module [ChatText] on) hold any character and are [text],
    the list of UTF-16 code units itself, so that lengths and offsets are the
    ones the code computes. *)

From S2P Require Import Prelude.


(** ** Operations on ASCII strings *)

Definition eqs (a b : string) : bool := bool_decide (a = b).

Lemma eqs_true a b : eqs a b = true ↔ a = b.
Proof. apply bool_decide_eq_true. Qed.
Lemma eqs_false a b : eqs a b = false ↔ a ≠ b.
Proof. apply bool_decide_eq_false. Qed.
Lemma eqs_refl a : eqs a a = true.
Proof. by apply eqs_true. Qed.

(** [s !== ''], the truthiness of a string. *)
Definition nonempty (s : string) : bool := negb (eqs s "").

Lemma nonempty_true s : nonempty s = true ↔ s ≠ "".
Proof. unfold nonempty. by rewrite negb_true_iff, eqs_false. Qed.

(** [s.slice(n)] and [s.slice(0, n)]. *)
Fixpoint sdrop (n : nat) (s : string) : string :=
  match n, s with
  | 0, _ => s
  | S n', String _ s' => sdrop n' s'
  | S _, EmptyString => ""
  end.

Fixpoint stake (n : nat) (s : string) : string :=
  match n, s with
  | 0, _ => ""
  | S n', String c s' => String c (stake n' s')
  | S _, EmptyString => ""
  end.

(** [s.startsWith(p)]. *)
Fixpoint startsWith (p s : string) : bool :=
  match p, s with
  | "", _ => true
  | String a p', String b s' => bool_decide (a = b) && startsWith p' s'
  | _, _ => false
  end.

(** [s.indexOf(p)]: the first offset at which [p] occurs. *)
Fixpoint indexOf (p s : string) : option nat :=
  if startsWith p s then Some 0 else
  match s with
  | "" => None
  | String _ s' => S <$> indexOf p s'
  end.

Definition includes (p s : string) : bool := bool_decide (is_Some (indexOf p s)).

(** [s.lastIndexOf(c)] for a one-character [c]. *)
Fixpoint lastIndexOf (c : ascii) (s : string) : option nat :=
  match s with
  | "" => None
  | String a s' =>
      match lastIndexOf c s' with
      | Some i => Some (S i)
      | None => if bool_decide (a = c) then Some 0 else None
      end
  end.

(** [s.split(c)] for a one-character separator: never empty. *)
Fixpoint split (c : ascii) (s : string) : list string :=
  match s with
  | "" => [""]
  | String a s' =>
      if bool_decide (a = c) then "" :: split c s'
      else match split c s' with
           | w :: ws => String a w :: ws
           | [] => [String a ""]
           end
  end.

(** [l.join(sep)]. *)
Fixpoint join (sep : string) (l : list string) : string :=
  match l with
  | [] => ""
  | [x] => x
  | x :: l' => x +:+ sep +:+ join sep l'
  end.

(** [s.toLowerCase()] on ASCII. *)
Definition lower_ascii (c : ascii) : ascii :=
  let n := nat_of_ascii c in
  if (65 <=? n)%nat && (n <=? 90)%nat then ascii_of_nat (n + 32) else c.

Fixpoint toLowerCase (s : string) : string :=
  match s with
  | "" => ""
  | String c s' => String (lower_ascii c) (toLowerCase s')
  end.

(** White space of [trim] and [\s] within ASCII: tab to carriage return, space. *)
Definition is_space (c : ascii) : bool :=
  let n := nat_of_ascii c in ((9 <=? n) && (n <=? 13) || (n =? 32))%nat.

Fixpoint trimStart (s : string) : string :=
  match s with
  | String c s' => if is_space c then trimStart s' else s
  | "" => ""
  end.

Fixpoint trimEnd (s : string) : string :=
  match s with
  | "" => ""
  | String c s' =>
      match trimEnd s' with
      | "" => if is_space c then "" else String c ""
      | t => String c t
      end
  end.

Definition trim (s : string) : string := trimEnd (trimStart s).

(** [all p s]: every character satisfies [p]. *)
Fixpoint sall (p : ascii → bool) (s : string) : bool :=
  match s with "" => true | String c s' => p c && sall p s' end.

Definition is_digit (c : ascii) : bool :=
  let n := nat_of_ascii c in ((48 <=? n) && (n <=? 57))%nat.

(** [c] does not occur in [s]. *)
Definition free_of (c : ascii) (s : string) : Prop := sall (λ a, negb (bool_decide (a = c))) s = true.

(** ** Lemmas *)

Lemma app_nil_l_s s : "" +:+ s = s.
Proof. done. Qed.
Lemma app_cons_s c s t : String c s +:+ t = String c (s +:+ t).
Proof. done. Qed.
Lemma app_nil_r_s s : s +:+ "" = s.
Proof. induction s as [|c s IH]; [done|]. by rewrite app_cons_s, IH. Qed.
Lemma app_assoc_s s t u : (s +:+ t) +:+ u = s +:+ (t +:+ u).
Proof. induction s as [|c s IH]; [done|]. by rewrite !app_cons_s, IH. Qed.
Lemma length_app_s s t : String.length (s +:+ t) = String.length s + String.length t.
Proof. induction s as [|c s IH]; [done|]. rewrite app_cons_s. simpl. by rewrite IH. Qed.

Lemma sdrop_app s t : sdrop (String.length s) (s +:+ t) = t.
Proof. induction s as [|c s IH]; [done|]. rewrite app_cons_s. done. Qed.
Lemma stake_app s t : stake (String.length s) (s +:+ t) = s.
Proof.
  induction s as [|c s IH]; [by destruct t|]. rewrite app_cons_s. simpl. by rewrite IH.
Qed.
Lemma sall_impl (p q : ascii → bool) s : (∀ c, p c = true → q c = true) → sall p s = true → sall q s = true.
Proof. intros Hpq. induction s as [|c s IH]; [done|]. simpl. rewrite !andb_true_iff. naive_solver. Qed.

Lemma sall_app p s t : sall p (s +:+ t) = sall p s && sall p t.
Proof. induction s as [|c s IH]; [done|]. rewrite app_cons_s. cbn. by rewrite IH, andb_assoc. Qed.

Lemma sdrop_0 s : sdrop 0 s = s.
Proof. by destruct s. Qed.

Lemma startsWith_spec p s : startsWith p s = true ↔ ∃ t, s = p +:+ t.
Proof.
  revert s. induction p as [|a p IH]; intros s; simpl.
  { split; [|done]. intros _. by exists s. }
  destruct s as [|b s]; [split; [done|by intros [??]]|].
  rewrite andb_true_iff, bool_decide_eq_true, IH. split.
  - intros [-> [t ->]]. by exists t.
  - intros [t Ht]. rewrite app_cons_s in Ht. injection Ht as -> ->. eauto.
Qed.

Lemma startsWith_app p t : startsWith p (p +:+ t) = true.
Proof. apply startsWith_spec. eauto. Qed.

Lemma indexOf_Some p s i : indexOf p s = Some i → ∃ u v, s = u +:+ p +:+ v ∧ String.length u = i.
Proof.
  revert i. induction s as [|c s IH]; intros i; simpl.
  - destruct (startsWith p "") eqn:E; [|done]. intros [= <-].
    apply startsWith_spec in E as [t Ht]. exists "", t. done.
  - destruct (startsWith p (String c s)) eqn:E.
    + intros [= <-]. apply startsWith_spec in E as [t Ht]. by exists "", t.
    + intros (k & Hk & ->)%fmap_Some. destruct (IH _ Hk) as (u & v & -> & <-).
      by exists (String c u), v.
Qed.

Lemma indexOf_app p u v : is_Some (indexOf p (u +:+ p +:+ v)).
Proof.
  induction u as [|c u IH].
  - rewrite app_nil_l_s. assert (H := startsWith_app p v).
    destruct (p +:+ v); simpl; rewrite H; by eexists.
  - rewrite app_cons_s. simpl. destruct (startsWith _ _); [by eexists|].
    destruct IH as [k ->]. by eexists.
Qed.

Lemma includes_spec p s : includes p s = true ↔ ∃ u v, s = u +:+ p +:+ v.
Proof.
  unfold includes. rewrite bool_decide_eq_true. split.
  - intros [i Hi]. destruct (indexOf_Some _ _ _ Hi) as (u & v & ? & _). eauto.
  - intros (u & v & ->). apply indexOf_app.
Qed.

Lemma free_of_cons c a s : free_of c (String a s) ↔ a ≠ c ∧ free_of c s.
Proof.
  unfold free_of. simpl. by rewrite andb_true_iff, negb_true_iff, bool_decide_eq_false.
Qed.
Lemma free_of_app c s t : free_of c (s +:+ t) ↔ free_of c s ∧ free_of c t.
Proof.
  induction s as [|a s IH]; [rewrite app_nil_l_s; unfold free_of at 2; naive_solver|].
  rewrite app_cons_s, !free_of_cons, IH. naive_solver.
Qed.

Lemma sall_free (p : ascii → bool) c s : p c = false → sall p s = true → free_of c s.
Proof.
  intros Hc. induction s as [|a s IH]; [done|]. simpl. rewrite andb_true_iff. intros [Ha Hs].
  apply free_of_cons. split; [congruence|by apply IH].
Qed.

Lemma indexOf_char c s t : free_of c s → indexOf (String c "") (s +:+ String c t) = Some (String.length s).
Proof.
  induction s as [|a s IH]; intros H.
  - rewrite app_nil_l_s. simpl. by rewrite bool_decide_true.
  - apply free_of_cons in H as [Hne H]. rewrite app_cons_s. simpl.
    rewrite bool_decide_false by congruence. simpl. by rewrite IH.
Qed.

Lemma lastIndexOf_free c s : free_of c s → lastIndexOf c s = None.
Proof.
  induction s as [|a s IH]; [done|]. intros [Hne H]%free_of_cons. simpl.
  rewrite IH by done. by rewrite bool_decide_false.
Qed.

Lemma lastIndexOf_app c s t : free_of c t → lastIndexOf c (s +:+ String c t) = Some (String.length s).
Proof.
  intros Ht. induction s as [|a s IH].
  - rewrite app_nil_l_s. simpl. by rewrite lastIndexOf_free, bool_decide_true.
  - rewrite app_cons_s. simpl. by rewrite IH.
Qed.

Lemma split_ne c s : split c s ≠ [].
Proof.
  destruct s as [|a s]; simpl; [done|]. case_bool_decide; [done|]. by destruct (split c s).
Qed.

Lemma split_free c s : free_of c s → split c s = [s].
Proof.
  induction s as [|a s IH]; [done|]. intros [Hne H]%free_of_cons. simpl.
  rewrite bool_decide_false by done. by rewrite IH.
Qed.

Lemma split_app c s t : free_of c s → split c (s +:+ String c t) = s :: split c t.
Proof.
  induction s as [|a s IH]; intros H.
  - rewrite app_nil_l_s. simpl. by rewrite bool_decide_true.
  - apply free_of_cons in H as [Hne H]. rewrite app_cons_s. simpl.
    rewrite bool_decide_false by done. by rewrite IH.
Qed.

Lemma split_pieces_free c s : Forall (free_of c) (split c s).
Proof.
  induction s as [|a s IH]; simpl; [by repeat constructor|].
  case_bool_decide as E; [by constructor|].
  destruct (split c s) as [|w ws]; [repeat constructor; by apply free_of_cons|].
  apply Forall_cons in IH as [Hw Hws]. constructor; [by apply free_of_cons|done].
Qed.

(** Splitting is undone by joining with the same separator. *)
Lemma join_split c s : join (String c "") (split c s) = s.
Proof.
  induction s as [|a s IH]; [done|]. simpl. case_bool_decide as E.
  - subst. destruct (split c s) as [|w ws] eqn:Es; [by apply split_ne in Es|].
    change (join (String c "") ("" :: w :: ws)) with ("" +:+ String c "" +:+ join (String c "") (w :: ws)).
    by rewrite IH.
  - destruct (split c s) as [|w ws] eqn:Es; [by apply split_ne in Es|].
    rewrite <-IH. by destruct ws.
Qed.

Lemma split_app_any c s t : split c (s +:+ String c t) = split c s ++ split c t.
Proof.
  induction s as [|a s IH].
  - change ("" +:+ String c t) with (String c t). cbn [split]. by rewrite bool_decide_true by done.
  - rewrite app_cons_s. cbn [split]. case_bool_decide; [by rewrite IH|]. rewrite IH.
    pose proof (split_ne c s). by destruct (split c s).
Qed.

Lemma join_app sep l k : l ≠ [] → k ≠ [] → join sep (l ++ k) = join sep l +:+ sep +:+ join sep k.
Proof.
  intros Hl Hk. induction l as [|x l IH]; [done|]. destruct l as [|y l].
  - cbn [app join]. by destruct k.
  - cbn [app join] in *. rewrite IH by done. by rewrite !app_assoc_s.
Qed.

(** Joining pieces free of the separator is undone by splitting. *)
Lemma split_join c l : l ≠ [] → Forall (free_of c) l → split c (join (String c "") l) = l.
Proof.
  induction l as [|x l IH]; [done|]. intros _ [Hx Hl]%Forall_cons.
  destruct l as [|y l]; [by apply split_free|].
  change (join (String c "") (x :: y :: l)) with (x +:+ (String c "" +:+ join (String c "") (y :: l))).
  rewrite app_cons_s, app_nil_l_s, split_app by done. by rewrite IH.
Qed.

Lemma free_prefix_inj c a a' b b' : free_of c a → free_of c a' → a +:+ String c b = a' +:+ String c b' → a = a' ∧ b = b'.
Proof.
  intros Ha Ha' E. pose proof (f_equal (split c) E) as Es. rewrite !split_app in Es by done. injection Es as -> Es. split; [done|].
  by rewrite <-(join_split c b), <-(join_split c b'), Es.
Qed.

Lemma app_inj_r_s a b t : a +:+ t = b +:+ t → a = b.
Proof.
  revert b. induction a as [|c a IH]; intros [|d b] E; [done|..].
  - apply (f_equal String.length) in E. rewrite !length_app_s in E. cbn in E. lia.
  - apply (f_equal String.length) in E. rewrite !length_app_s in E. cbn in E. lia.
  - rewrite !app_cons_s in E. injection E as -> E. by rewrite (IH b).
Qed.

(** ** Trimming *)

Lemma trimStart_suffix s : ∃ a, s = a +:+ trimStart s.
Proof. induction s as [|c s [a IH]]; [by exists ""|]. cbn [trimStart]. destruct (is_space c); [|by exists ""]. exists (String c a). by rewrite app_cons_s, <-IH. Qed.

Lemma trimEnd_prefix s : ∃ b, s = trimEnd s +:+ b.
Proof.
  induction s as [|c s [b IH]]; [by exists ""|]. cbn [trimEnd]. destruct (trimEnd s) as [|d t] eqn:E.
  - destruct (is_space c); [by eexists|]. exists b. rewrite app_cons_s. by f_equal.
  - exists b. rewrite app_cons_s. by f_equal.
Qed.

(** A text is trimmed when neither end is. *)
Lemma trim_fixed s : trim s = s ↔ trimStart s = s ∧ trimEnd s = s.
Proof.
  split; [|intros [E1 E2]; unfold trim; by rewrite E1]. intros E. destruct (trimStart_suffix s) as [a Ha]. destruct (trimEnd_prefix (trimStart s)) as [b Hb].
  change (trimEnd (trimStart s)) with (trim s) in Hb. rewrite E in Hb. assert (a = "" ∧ b = "") as [-> ->].
  { pose proof (f_equal String.length Ha) as L1. pose proof (f_equal String.length Hb) as L2. rewrite length_app_s in L1, L2.
    destruct a, b; cbn in L1, L2; done || lia. }
  rewrite app_nil_l_s in Ha. split; [done|]. unfold trim in E. by rewrite <-Ha in E.
Qed.

Lemma trimStart_app s t : trimStart s = s → s ≠ "" → trimStart (s +:+ t) = s +:+ t.
Proof.
  destruct s as [|c s]; [done|]. intros E _. rewrite app_cons_s. cbn [trimStart] in *. destruct (is_space c); [|done].
  destruct (trimStart_suffix s) as [a Ha]. apply (f_equal String.length) in Ha. rewrite length_app_s, E in Ha. cbn in Ha. lia.
Qed.

Lemma trimEnd_app s t : trimEnd t = t → t ≠ "" → trimEnd (s +:+ t) = s +:+ t.
Proof.
  intros Et Ht. induction s as [|c s IH]; [by rewrite !app_nil_l_s|]. rewrite !app_cons_s. cbn [trimEnd]. rewrite IH.
  destruct (s +:+ t) eqn:E; [|done]. apply (f_equal String.length) in E. rewrite length_app_s in E. destruct t; [done|cbn in E; lia].
Qed.

Lemma trimEnd_solid c s : is_space c = false → trimEnd s = s → trimEnd (String c s) = String c s.
Proof. intros Hc E. cbn [trimEnd]. rewrite E, Hc. by destruct s. Qed.

Lemma trimStart_idem s : trimStart (trimStart s) = trimStart s.
Proof. induction s as [|c s IH]; [done|]. cbn [trimStart]. destruct (is_space c) eqn:E; [done|]. cbn [trimStart]. by rewrite E. Qed.

Lemma trimEnd_idem s : trimEnd (trimEnd s) = trimEnd s.
Proof.
  induction s as [|c s IH]; [done|]. cbn [trimEnd]. destruct (trimEnd s) as [|d t] eqn:E.
  - destruct (is_space c) eqn:Ec; [done|]. cbn [trimEnd]. by rewrite Ec.
  - cbn [trimEnd] in *. by rewrite IH.
Qed.

Lemma trimStart_trimEnd s : trimStart s = s → trimStart (trimEnd s) = trimEnd s.
Proof.
  intros Hs. destruct s as [|c s]; [done|]. cbn [trimStart] in Hs. destruct (is_space c) eqn:Ec.
  - destruct (trimStart_suffix s) as [a Ha]. apply (f_equal String.length) in Ha. rewrite length_app_s, Hs in Ha. cbn in Ha. lia.
  - cbn [trimEnd]. destruct (trimEnd s); rewrite ?Ec; cbn [trimStart]; by rewrite Ec.
Qed.

Lemma trim_idem s : trim (trim s) = trim s.
Proof. apply trim_fixed. unfold trim. split; [by apply trimStart_trimEnd, trimStart_idem|apply trimEnd_idem]. Qed.

(** ** Numbers as they are written *)

Lemma pretty_go_digits (n : N) s : sall is_digit s = true → sall is_digit (pretty_N_go n s) = true.
Proof.
  revert s. induction (N.lt_wf_0 n) as [x _ IH]. intros s Hs.
  assert (x = 0 ∨ 0 < x)%N as [->|Hx] by lia; [by rewrite pretty_N_go_0|]. rewrite pretty_N_go_step by done. apply IH.
  - by apply N.div_lt.
  - cbn [sall]. rewrite Hs, andb_true_r. unfold pretty_N_char. assert (x mod 10 < 10)%N by (by apply N.mod_lt).
    repeat case_match; done.
Qed.

Lemma number_string (n : N) : sall is_digit (pretty n) = true.
Proof. unfold pretty, pretty_N. case_decide; [done|]. by apply pretty_go_digits. Qed.

Lemma pretty_Z_N (z : Z) : (0 ≤ z)%Z → pretty z = pretty (Z.to_N z).
Proof. by destruct z. Qed.

#[export] Hint Rewrite eqs_true eqs_false nonempty_true : kubeast_rw.
#[export] Hint Resolve split_ne startsWith_app eqs_refl : kubeast.

(** ** UTF-16 texts *)

(** A JavaScript string with any character: its UTF-16 code units. *)
Abbreviation text := (list N).

(** The code units of a UTF-8 literal; astral characters become surrogate pairs. *)
Fixpoint utf16 (s : string) : text :=
  match s with
  | "" => []
  | String c0 s0 =>
      let b0 := N_of_ascii c0 in
      if (b0 <? 128)%N then b0 :: utf16 s0
      else match s0 with
      | "" => []
      | String c1 s1 =>
          let b1 := N.land (N_of_ascii c1) 63 in
          if (b0 <? 224)%N then (N.land b0 31 * 64 + b1)%N :: utf16 s1
          else match s1 with
          | "" => []
          | String c2 s2 =>
              let b2 := N.land (N_of_ascii c2) 63 in
              if (b0 <? 240)%N then (N.land b0 15 * 4096 + b1 * 64 + b2)%N :: utf16 s2
              else match s2 with
              | "" => []
              | String c3 s3 =>
                  let b3 := N.land (N_of_ascii c3) 63 in
                  let p := (N.land b0 7 * 262144 + b1 * 4096 + b2 * 64 + b3 - 65536)%N in
                  (55296 + N.shiftr p 10)%N :: (56320 + N.land p 1023)%N :: utf16 s3
              end
          end
      end
  end.

Example utf16_ascii : utf16 "ab" = [97; 98]%N.
Proof. reflexivity. Qed.
Example utf16_astral : utf16 "🔧" = [0xD83D; 0xDD27]%N.
Proof. reflexivity. Qed.
