(* ===== verification/OrderedMap.v ===== *)
(** * Maps in insertion order

    JavaScript's [Map] with string keys: a list of entries, a new key at the end;
    its [Set] of texts.
    And [Array.prototype.sort] with a comparison, which is stable. *)

From S2P Require Import Prelude JsString.

Section maps.
Context {A : Type}.
Implicit Types (l : list (string * A)) (k : string).

(** [m.get(k)], [m.has(k)]. *)
Fixpoint assoc k l : option A :=
  match l with [] => None | (k', x) :: l' => if eqs k k' then Some x else assoc k l' end.

Definition hasKey k l : bool := some (λ f, eqs k f.1) l.

(** [m.set(k, f(m.get(k) ?? d))]. *)
Fixpoint upsert (d : A) k (f : A → A) l : list (string * A) :=
  match l with
  | [] => [(k, f d)]
  | (k', x) :: l' => if eqs k k' then (k', f x) :: l' else (k', x) :: upsert d k f l'
  end.

Lemma assoc_elem k l x : assoc k l = Some x → (k, x) ∈ l.
Proof.
  induction l as [|[k' y] l IH]; [done|]. cbn [assoc]. destruct (eqs k k') eqn:E.
  - apply eqs_true in E as ->. intros [= ->]. left.
  - intros H. right. by apply IH.
Qed.

Lemma elem_assoc k l x : NoDup l.*1 → (k, x) ∈ l → assoc k l = Some x.
Proof.
  induction l as [|[k' y] l IH]; [by intros _ ?%elem_of_nil|]. cbn. intros [Hn Hnd]%NoDup_cons [[= -> ->]|Hin]%elem_of_cons.
  - by rewrite eqs_refl.
  - destruct (eqs k k') eqn:E; [|by apply IH]. apply eqs_true in E as ->. destruct Hn. apply list_elem_of_fmap. by exists (k', x).
Qed.

Lemma assoc_None k l : assoc k l = None ↔ k ∉ l.*1.
Proof.
  induction l as [|[k' y] l IH]; cbn [assoc fmap list_fmap fst]; [set_solver|]. destruct (eqs k k') eqn:E.
  - apply eqs_true in E as ->. set_solver.
  - apply eqs_false in E. rewrite IH, not_elem_of_cons. naive_solver.
Qed.

Lemma assoc_is_Some k l : is_Some (assoc k l) ↔ k ∈ l.*1.
Proof.
  rewrite <-not_eq_None_Some, assoc_None. split; [|tauto]. intros H. destruct (decide (k ∈ l.*1)); [done|by destruct H].
Qed.

Lemma hasKey_assoc k l : hasKey k l = bool_decide (is_Some (assoc k l)).
Proof.
  induction l as [|[k' y] l IH]; [done|]. unfold hasKey, some in *. cbn [existsb assoc fst]. destruct (eqs k k'); [done|]. apply IH.
Qed.

Lemma hasKey_true k l : hasKey k l = true ↔ k ∈ l.*1.
Proof. rewrite hasKey_assoc, bool_decide_eq_true. apply assoc_is_Some. Qed.

Lemma assoc_upsert d k k' f l :
  assoc k' (upsert d k f l) = if eqs k' k then Some (f (default d (assoc k l))) else assoc k' l.
Proof.
  induction l as [|[k2 n] l IH]; cbn [upsert assoc]; [by destruct (eqs k' k)|].
  destruct (eqs k k2) eqn:E; cbn [assoc].
  - apply eqs_true in E as <-. by destruct (eqs k' k).
  - rewrite IH. destruct (eqs k' k2) eqn:E2; [|done]. destruct (eqs k' k) eqn:E3; [|done].
    apply eqs_true in E2, E3. apply eqs_false in E. congruence.
Qed.

Lemma upsert_keys d k f l : (upsert d k f l).*1 = if hasKey k l then l.*1 else l.*1 ++ [k].
Proof.
  unfold hasKey, some. induction l as [|[k2 n] l IH]; [done|]. cbn. destruct (eqs k k2); [done|]. cbn. rewrite IH. by case_match.
Qed.

Lemma upsert_new d k f l : hasKey k l = false → upsert d k f l = l ++ [(k, f d)].
Proof.
  unfold hasKey, some. induction l as [|[k2 n] l IH]; [done|]. cbn. destruct (eqs k k2); [done|]. intros H. by rewrite IH.
Qed.

Lemma elem_upsert_keys d k f l k' : k' ∈ (upsert d k f l).*1 ↔ k' ∈ l.*1 ∨ k' = k.
Proof.
  rewrite upsert_keys. destruct (hasKey k l) eqn:E; [apply hasKey_true in E|rewrite elem_of_app, list_elem_of_singleton; tauto].
  split; [tauto|]. by intros [| ->].
Qed.

Lemma upsert_nodup d k f l : NoDup l.*1 → NoDup (upsert d k f l).*1.
Proof.
  intros H. rewrite upsert_keys. destruct (hasKey k l) eqn:E; [done|]. rewrite hasKey_assoc in E. apply bool_decide_eq_false in E.
  apply NoDup_app. split; [done|]. split; [|by apply NoDup_singleton]. intros x Hx ->%list_elem_of_singleton.
  apply eq_None_not_Some, assoc_None in E. done.
Qed.
End maps.

(** [set.add(x)] on a set of texts in insertion order. *)
Definition setAdd (x : string) (s : list string) : list string := if bool_decide (x ∈ s) then s else s ++ [x].

Lemma elem_setAdd x y s : x ∈ setAdd y s ↔ x ∈ s ∨ x = y.
Proof. unfold setAdd. case_bool_decide; [|rewrite elem_of_app, list_elem_of_singleton]; naive_solver. Qed.

Lemma setAdd_nodup y s : NoDup s → NoDup (setAdd y s).
Proof.
  intros H. unfold setAdd. case_bool_decide; [done|]. apply NoDup_app. split; [done|]. split; [|by apply NoDup_singleton].
  by intros x Hx ->%list_elem_of_singleton.
Qed.

(** [new Set(l)]: each text once, in the order it first comes. *)
Definition setOf (l : list string) : list string := foldl (λ s x, setAdd x s) [] l.

Lemma elem_setOf x l : x ∈ setOf l ↔ x ∈ l.
Proof.
  unfold setOf. assert (∀ acc : list string, x ∈ foldl (λ s x, setAdd x s) acc l ↔ x ∈ acc ∨ x ∈ l) as H; [|rewrite H, elem_of_nil; tauto].
  induction l as [|y l IH]; intros acc; cbn; [rewrite elem_of_nil; tauto|]. rewrite IH, elem_setAdd, elem_of_cons. tauto.
Qed.

Lemma setOf_nodup l : NoDup (setOf l).
Proof.
  unfold setOf. assert (∀ acc : list string, NoDup acc → NoDup (foldl (λ s x, setAdd x s) acc l)) as H; [|apply H; constructor].
  induction l as [|x l IH]; intros acc Hacc; [done|]. apply IH. by apply setAdd_nodup.
Qed.

Lemma setOf_from acc l : NoDup (acc ++ l) → foldl (λ s x, setAdd x s) acc l = acc ++ l.
Proof.
  revert acc. induction l as [|x l IH]; intros acc H; cbn; [by rewrite app_nil_r|]. unfold setAdd at 2. rewrite bool_decide_false.
  - rewrite IH; rewrite <-(assoc_L (++)); done.
  - intros Hin. apply NoDup_app in H as (_ & H & _). apply (H _ Hin). left.
Qed.

Lemma setOf_fixed l : NoDup l → setOf l = l.
Proof. apply (setOf_from []). Qed.

Section sorting.
Context {A : Type} (cmp : A → A → Z).

Fixpoint insertBy (x : A) (l : list A) : list A :=
  match l with
  | [] => [x]
  | y :: l' => if (cmp x y <=? 0)%Z then x :: y :: l' else y :: insertBy x l'
  end.

Definition sortBy (l : list A) : list A := foldr insertBy [] l.

Lemma insertBy_permutation x l : insertBy x l ≡ₚ x :: l.
Proof. induction l as [|y l IH]; [done|]. cbn [insertBy]. case_match; [done|]. rewrite IH. apply Permutation_swap. Qed.

Lemma sortBy_permutation l : sortBy l ≡ₚ l.
Proof. induction l as [|y l IH]; [done|]. cbn [sortBy foldr]. unfold sortBy in IH. by rewrite insertBy_permutation, IH. Qed.
End sorting.
