(* ===== verification/Sums.v ===== *)
(** * Sums and tallies

    Sums over lists, and the loops that count into a [Map]: an entry per key, made
    from a start value at the key's first element. *)

From S2P Require Import Prelude JsString OrderedMap.

Fixpoint sumOf {A} (f : A → Z) (l : list A) : Z := match l with [] => 0 | x :: l' => f x + sumOf f l' end.

Lemma sumOf_app {A} (f : A → Z) l k : sumOf f (l ++ k) = (sumOf f l + sumOf f k)%Z.
Proof. induction l as [|x l IH]; cbn [sumOf app]; lia. Qed.

Lemma sumOf_bind {A B} (f : B → Z) (g : A → list B) l : sumOf f (l ≫= g) = sumOf (λ x, sumOf f (g x)) l.
Proof. induction l as [|x l IH]; [done|]. cbn [mbind list_bind sumOf]. rewrite sumOf_app. f_equal. apply IH. Qed.

Lemma sumOf_fmap {A B} (f : B → Z) (g : A → B) l : sumOf f (g <$> l) = sumOf (λ x, f (g x)) l.
Proof. induction l as [|x l IH]; [done|]. cbn. by rewrite <-IH. Qed.

Lemma sumOf_ext {A} (f g : A → Z) l : (∀ x, x ∈ l → f x = g x) → sumOf f l = sumOf g l.
Proof.
  induction l as [|x l IH]; intros H; [done|]. cbn [sumOf]. rewrite (H x) by left. f_equal. apply IH. intros y Hy. apply H. by right.
Qed.

Lemma sumOf_permutation {A} (f : A → Z) l k : l ≡ₚ k → sumOf f l = sumOf f k.
Proof. induction 1; cbn [sumOf]; lia. Qed.

Lemma sumOf_zero {A} (f : A → Z) l : (∀ x, x ∈ l → f x = 0%Z) → sumOf f l = 0%Z.
Proof. intros H. rewrite (sumOf_ext _ (λ _, 0%Z)) by done. clear. by induction l. Qed.

Definition cond (b : bool) (z : Z) : Z := if b then z else 0.

Lemma sumOf_filterb {A} (f : A → Z) p l : sumOf f (filterb p l) = sumOf (λ x, cond (p x) (f x)) l.
Proof. unfold filterb. induction l as [|x l IH]; [done|]. cbn. destruct (p x); cbn; by rewrite <-IH. Qed.

(** One of a list without repetition. *)
Lemma sumOf_only {A} (f : A → Z) (k : A → string) l x :
  NoDup (k <$> l) → x ∈ l → sumOf (λ y, cond (eqs (k y) (k x)) (f y)) l = f x.
Proof.
  induction l as [|y l IH]; [by intros _ ?%elem_of_nil|]. cbn. intros [Hn Hnd]%NoDup_cons [->|Hin]%elem_of_cons.
  - rewrite eqs_refl. cbn. rewrite sumOf_zero; [lia|]. intros z Hz. destruct (eqs (k z) (k y)) eqn:E; [|done].
    apply eqs_true in E. destruct Hn. rewrite <-E. by apply list_elem_of_fmap_2.
  - rewrite IH by done. destruct (eqs (k y) (k x)) eqn:E; [|done]. apply eqs_true in E. destruct Hn. rewrite E. by apply list_elem_of_fmap_2.
Qed.

(** Entries whose key is in [P], when one is changed by [w]. *)
Lemma sumOf_upsert {A} (μ : A → Z) (P : string → bool) d k f l w :
  μ d = 0%Z → (∀ x, μ (f x) = μ x + w)%Z →
  sumOf (λ e, cond (P e.1) (μ e.2)) (upsert d k f l) = (sumOf (λ e, cond (P e.1) (μ e.2)) l + cond (P k) w)%Z.
Proof.
  intros Hd Hf. induction l as [|[k' x] l IH]; cbn [upsert sumOf fst snd].
  - rewrite Hf, Hd. destruct (P k); cbn; lia.
  - destruct (eqs k k') eqn:E; cbn [sumOf fst snd].
    + apply eqs_true in E as <-. rewrite Hf. destruct (P k); cbn; lia.
    + rewrite IH. lia.
Qed.

(** ** Tallies *)

Section tallies.
Context {A B : Type} (key : A → string) (start : B) (add : A → B → B).

(** [for (const x of l) map.set(key(x), add(x, map.get(key(x)) ?? start))]. *)
Definition tallyFrom (m : list (string * B)) (l : list A) : list (string * B) := foldl (λ m x, upsert start (key x) (add x) m) m l.
Definition tally (l : list A) : list (string * B) := tallyFrom [] l.

Lemma tallyFrom_nodup m l : NoDup m.*1 → NoDup (tallyFrom m l).*1.
Proof. revert m. induction l as [|x l IH]; intros m H; [done|]. apply IH. by apply upsert_nodup. Qed.

Lemma tally_nodup l : NoDup (tally l).*1.
Proof. apply tallyFrom_nodup. by apply NoDup_nil. Qed.

Lemma tallyFrom_lookup m l k :
  assoc k (tallyFrom m l) =
  match filterb (λ x, eqs k (key x)) l with [] => assoc k m | xs => Some (foldl (λ b x, add x b) (default start (assoc k m)) xs) end.
Proof.
  revert m. induction l as [|x l IH]; intros m; [done|]. cbn [tallyFrom foldl]. fold (tallyFrom (upsert start (key x) (add x) m) l).
  rewrite IH, assoc_upsert. unfold filterb. cbn [List.filter]. destruct (eqs k (key x)) eqn:E; [|by destruct (List.filter _ l)].
  apply eqs_true in E as ->. destruct (List.filter _ l) eqn:El; cbn; by destruct (assoc (key x) m).
Qed.

(** The entry of a key: what its elements add up to, in their order. *)
Lemma tally_lookup l k :
  assoc k (tally l) = match filterb (λ x, eqs k (key x)) l with [] => None | xs => Some (foldl (λ b x, add x b) start xs) end.
Proof. unfold tally. by rewrite tallyFrom_lookup. Qed.

Lemma tally_keys l k : k ∈ (tally l).*1 ↔ k ∈ key <$> l.
Proof.
  rewrite <-assoc_is_Some, tally_lookup. destruct (filterb _ l) as [|x xs] eqn:E.
  - split; [by intros []|]. intros (y & -> & Hy)%list_elem_of_fmap. assert (y ∈ filterb (λ x, eqs (key y) (key x)) l) as H.
    { apply elem_of_filterb. by rewrite eqs_refl. } rewrite E in H. by apply elem_of_nil in H.
  - split; [|by eexists]. intros _. assert (x ∈ filterb (λ x, eqs k (key x)) l) as [Hx Hk]%elem_of_filterb by (rewrite E; left).
    apply eqs_true in Hk as ->. by apply list_elem_of_fmap_2.
Qed.

(** A measure that each element adds [w] to: the entries add up to the elements. *)
Lemma tally_sum (μ : B → Z) (w : A → Z) l :
  μ start = 0%Z → (∀ x b, μ (add x b) = μ b + w x)%Z → sumOf (λ e, μ e.2) (tally l) = sumOf w l.
Proof.
  intros H0 Ha. unfold tally. enough (∀ m, sumOf (λ e, μ e.2) (tallyFrom m l) = (sumOf (λ e, μ e.2) m + sumOf w l)%Z) as H by (rewrite H; cbn; lia).
  induction l as [|x l IH]; intros m; cbn [tallyFrom foldl sumOf]; [lia|]. rewrite IH.
  pose proof (sumOf_upsert μ (λ _, true) start (key x) (add x) m (w x) H0 (Ha x)) as H. cbn [cond] in H. lia.
Qed.
End tallies.

(** The elements of each key, in lists: an element is in the list of its key, and in
    that only. *)
Section grouped.
Context {A : Type} (key : A → string).
Local Notation grouped l := (tally key [] (λ x xs, xs ++ [x]) l).

Lemma upsert_grouped_permutation x (m : list (string * list A)) :
  (upsert [] (key x) (λ xs, xs ++ [x]) m ≫= snd) ≡ₚ x :: (m ≫= snd).
Proof.
  induction m as [|[k xs] m IH]; [done|]. cbn [upsert]. destruct (eqs (key x) k); cbn [mbind list_bind snd].
  - rewrite <-app_assoc. symmetry. apply Permutation_middle.
  - rewrite IH. symmetry. apply Permutation_middle.
Qed.

Lemma grouped_permutation l : (grouped l ≫= snd) ≡ₚ l.
Proof.
  induction l as [|x l IH] using rev_ind; [done|]. unfold tally, tallyFrom in *. rewrite foldl_app. cbn [foldl].
  rewrite upsert_grouped_permutation, IH. by rewrite Permutation_app_comm.
Qed.

Lemma grouped_of l g : g ∈ grouped l → g.2 ≠ [] ∧ ∀ x, x ∈ g.2 ↔ x ∈ l ∧ key x = g.1.
Proof.
  intros Hg. destruct g as [k xs]. apply elem_assoc in Hg; [|apply tally_nodup]. rewrite tally_lookup in Hg.
  assert (∀ ys acc : list A, foldl (λ b x, b ++ [x]) acc ys = acc ++ ys) as Hf.
  { induction ys as [|y ys IH]; intros acc; cbn [foldl]; [by rewrite app_nil_r|]. by rewrite IH, <-app_assoc. }
  destruct (filterb (λ x, eqs k (key x)) l) as [|y ys] eqn:E; [done|]. assert (xs = y :: ys) as -> by (injection Hg as <-; apply (Hf (y :: ys) [])). split; [done|].
  intros x. cbn [fst snd]. rewrite <-E, elem_of_filterb, eqs_true. split; intros [? ?]; by split.
Qed.
End grouped.

(** [Math.ceil(a / b)] of whole numbers, [b] positive. *)
Definition ceilDiv (a b : Z) : Z := (- ((- a) / b))%Z.

Lemma ceilDiv_bounds a b : (0 < b)%Z → (a ≤ ceilDiv a b * b < a + b)%Z.
Proof. intros H. unfold ceilDiv. pose proof (Z.div_mod (- a) b ltac:(lia)). pose proof (Z.mod_pos_bound (- a) b H). nia. Qed.
