(* ===== verification/Sorting.v ===== *)
(** * Sorting with a comparator

    [Array.prototype.sort] is given a comparator.  With one that is consistent, the
    result is sorted, and what the comparator does not tell apart keeps its order. *)

From Stdlib Require Import Sorted.
From S2P Require Import Prelude JsString OrderedMap.

#[local] Open Scope Z_scope.

(** What [Array.prototype.sort] asks of a comparator. *)
Record Consistent {A} (cmp : A → A → Z) : Prop := {
  cmp_flip a b : Z.sgn (cmp a b) = - Z.sgn (cmp b a);
  cmp_trans a b c : cmp a b ≤ 0 → cmp b c ≤ 0 → cmp a c ≤ 0
}.
#[global] Arguments cmp_flip {_ _}.
#[global] Arguments cmp_trans {_ _}.

Section sorting.
Context {A : Type} (cmp : A → A → Z) (C : Consistent cmp).

Lemma cmp_total a b : ¬ cmp a b ≤ 0 → cmp b a ≤ 0.
Proof using C. pose proof (cmp_flip C a b). destruct (cmp a b), (cmp b a); cbn in *; lia. Qed.

Lemma cmp_tie a b : cmp a b = 0 → cmp b a = 0.
Proof using C. pose proof (cmp_flip C a b). intros H0. rewrite H0 in H. cbn in H. destruct (cmp b a); cbn in *; lia. Qed.

Lemma insertBy_sorted x l : StronglySorted (λ a b, cmp a b ≤ 0) l → StronglySorted (λ a b, cmp a b ≤ 0) (insertBy cmp x l).
Proof using C.
  induction 1 as [|y l Hs IH Hf]; cbn [insertBy]; [by repeat constructor|]. destruct (cmp x y <=? 0)%Z eqn:E.
  - apply Z.leb_le in E. constructor; [by constructor|]. constructor; [done|]. eapply Forall_impl; [apply Hf|]. intros z Hz. by eapply (cmp_trans C).
  - apply Z.leb_gt in E. constructor; [done|]. rewrite insertBy_permutation. constructor; [|done]. apply cmp_total. lia.
Qed.

Lemma sortBy_sorted l : StronglySorted (λ a b, cmp a b ≤ 0) (sortBy cmp l).
Proof using C. unfold sortBy. induction l as [|x l IH]; cbn; [constructor|]. by apply insertBy_sorted. Qed.

(** The rows a column does not tell apart. *)
Definition tied (x : A) (l : list A) : list A := filterb (λ y, cmp x y =? 0) l.

Lemma insertBy_tied x y l :
  StronglySorted (λ a b, cmp a b ≤ 0) l → tied x (insertBy cmp y l) = tied x (y :: l).
Proof using C.
  unfold tied, filterb. induction 1 as [|z l Hs IH Hf]; cbn [insertBy]; [done|]. destruct (cmp y z <=? 0)%Z eqn:E; [done|].
  cbn [List.filter] in *. rewrite IH. destruct (cmp x z =? 0) eqn:Ez, (cmp x y =? 0) eqn:Ey; try done.
  exfalso. apply Z.leb_gt in E. apply Z.eqb_eq in Ez, Ey.
  assert (cmp y x = 0) by (by apply cmp_tie). assert (cmp y z ≤ 0); [|lia]. eapply (cmp_trans C y x z); lia.
Qed.

Lemma sortBy_tied x l : tied x (sortBy cmp l) = tied x l.
Proof using C.
  unfold sortBy. induction l as [|y l IH]; [done|]. cbn [foldr]. rewrite insertBy_tied by (apply sortBy_sorted).
  unfold tied, filterb in *. cbn [List.filter]. by rewrite IH.
Qed.
End sorting.

(** Comparing by a number, and the other way round. *)
Lemma minus_consistent {A} (f : A → Z) : Consistent (λ a b, f a - f b).
Proof. split; intros; lia. Qed.

Lemma minus_back_consistent {A} (f : A → Z) : Consistent (λ a b, f b - f a).
Proof. split; intros; lia. Qed.

(** One comparator, then another for what it does not tell apart: [c(a, b) || d(a, b)]. *)
Definition thenBy {A} (c d : A → A → Z) (a b : A) : Z := if c a b =? 0 then d a b else c a b.

Lemma thenBy_consistent {A} (c d : A → A → Z) : Consistent c → Consistent d → Consistent (thenBy c d).
Proof.
  intros C D. split; unfold thenBy.
  - intros a b. pose proof (cmp_flip C a b). pose proof (cmp_flip D a b). destruct (Z.eqb_spec (c a b) 0), (Z.eqb_spec (c b a) 0); lia.
  - intros a b x. pose proof (cmp_flip C a b). pose proof (cmp_flip C b x). pose proof (cmp_flip C a x).
    pose proof (cmp_trans C a b x). pose proof (cmp_trans C x a b). pose proof (cmp_trans C b x a). pose proof (cmp_trans D a b x).
    destruct (Z.eqb_spec (c a b) 0), (Z.eqb_spec (c b x) 0), (Z.eqb_spec (c a x) 0); lia.
Qed.

Lemma on_consistent {A B} (f : A → B) (c : B → B → Z) : Consistent c → Consistent (λ a b, c (f a) (f b)).
Proof. intros C. split; intros; [apply (cmp_flip C)|by eapply (cmp_trans C)]. Qed.

Lemma thenBy_le {A} (c d : A → A → Z) a b : thenBy c d a b ≤ 0 → c a b ≤ 0.
Proof. unfold thenBy. destruct (Z.eqb_spec (c a b) 0); lia. Qed.

Lemma sorted_impl {A} (R S : A → A → Prop) l : (∀ a b, R a b → S a b) → StronglySorted R l → StronglySorted S l.
Proof. intros H. induction 1 as [|x l Hl IH Hx]; constructor; [done|]. eapply Forall_impl; [done|]. intros y. apply H. Qed.

(** Comparators that agree on the distinct elements of a list sort it alike. *)
Lemma sortBy_ext_on {A} (c d : A → A → Z) l :
  NoDup l → (∀ a b, a ∈ l → b ∈ l → a ≠ b → c a b ≤ 0 ↔ d a b ≤ 0) → sortBy c l = sortBy d l.
Proof.
  unfold sortBy. induction l as [|x l IH]; intros Hnd H; [done|]. apply NoDup_cons in Hnd as [Hx Hnd]. cbn [foldr].
  rewrite <-IH; [|done|intros a b Ha Hb; apply H; by right]. change (foldr (insertBy c) [] l) with (sortBy c l).
  assert (∀ y, y ∈ sortBy c l → c x y ≤ 0 ↔ d x y ≤ 0) as Hxy.
  { intros y Hy. rewrite sortBy_permutation in Hy. apply H; [left|by right|congruence]. }
  revert Hxy. generalize (sortBy c l) as k. induction k as [|y k IHk]; intros Hxy; [done|]. cbn [insertBy].
  rewrite IHk by (intros z Hz; apply Hxy; by right). assert ((c x y <=? 0) = (d x y <=? 0)) as ->; [|done].
  apply eq_bool_prop_intro. rewrite !Is_true_true, !Z.leb_le. apply Hxy. left.
Qed.

(** Texts by code unit. *)
Definition unitsLe (a b : string) : Prop := String.leb a b = true.

Lemma unitsLe_cons a b s t : unitsLe (String a s) (String b t) ↔ (N_of_ascii a < N_of_ascii b)%N ∨ (a = b ∧ unitsLe s t).
Proof.
  unfold unitsLe, String.leb. simpl. unfold Ascii.compare. destruct (N.compare_spec (N_of_ascii a) (N_of_ascii b)) as [E|E|E].
  - assert (a = b) as -> by (rewrite <-(ascii_N_embedding a), E; apply ascii_N_embedding). split; [by right|].
    intros [?|[_ ?]]; [lia|done].
  - split; [by left|done].
  - split; [done|]. intros [?|[-> _]]; lia.
Qed.

Lemma leb_trans : Transitive unitsLe.
Proof.
  intros s. induction s as [|a s IH]; intros t u.
  - intros _ _. by destruct u.
  - destruct t as [|b t]; [by unfold unitsLe|]. destruct u as [|c u]; [by unfold unitsLe|].
    rewrite !unitsLe_cons. intros [?|[-> ?]] [?|[-> ?]]; [left; lia|by left|by left|right]. split; [done|by eapply IH].
Qed.

Definition byUnits (a b : string) : Z := if eqs a b then 0 else if String.leb a b then -1 else 1.

Lemma byUnits_le a b : byUnits a b ≤ 0 ↔ unitsLe a b.
Proof.
  unfold byUnits, unitsLe. destruct (eqs a b) eqn:E.
  - apply eqs_true in E as ->. split; [|done]. intros _. destruct (String.leb_total b b); done.
  - destruct (String.leb a b); split; done || lia.
Qed.

Lemma byUnits_consistent : Consistent byUnits.
Proof.
  split.
  - intros a b. unfold byUnits. destruct (eqs a b) eqn:E.
    + apply eqs_true in E as ->. by rewrite eqs_refl.
    + rewrite (proj2 (eqs_false b a)) by (intros ->; by rewrite eqs_refl in E).
      destruct (String.leb a b) eqn:E1, (String.leb b a) eqn:E2; try done.
      * exfalso. apply eqs_false in E. apply E. by apply String.leb_antisym.
      * by destruct (String.leb_total a b); congruence.
  - intros a b c. rewrite !byUnits_le. apply leb_trans.
Qed.

(** ** Arranged by an order

    The elements of a list in an order, those it does not tell apart as they were. *)

Definition Arranged {A} (R : relation A) `{Rdec : !RelDecision R} (l l' : list A) : Prop :=
  l' ≡ₚ l ∧ StronglySorted R l' ∧ ∀ x, filter (λ y, R x y ∧ R y x) l' = filter (λ y, R x y ∧ R y x) l.

Lemma filterb_filter {A} (P : A → bool) (Q : A → Prop) `{Qdec : !∀ x, Decision (Q x)} l : (∀ x, P x = true ↔ Q x) → filterb P l = filter Q l.
Proof.
  intros H. unfold filterb. induction l as [|x l IH]; [done|]. cbn [List.filter]. rewrite filter_cons, IH. specialize (H x).
  destruct (P x), (decide (Q x)); naive_solver.
Qed.

Lemma sortBy_arranged {A} (cmp : A → A → Z) (R : relation A) `{Rdec : !RelDecision R} l :
  Consistent cmp → (∀ a b, cmp a b ≤ 0 ↔ R a b) → Arranged R l (sortBy cmp l).
Proof.
  intros C H. split_and!; [apply sortBy_permutation| |].
  - eapply sorted_impl; [|by apply sortBy_sorted]. intros a b. apply H.
  - intros x. assert (∀ l, tied cmp x l = filter (λ y, R x y ∧ R y x) l) as E; [|by rewrite <-!E; apply sortBy_tied].
    intros l'. apply filterb_filter. intros y. rewrite Z.eqb_eq, <-!H. split; [intros E0; rewrite (cmp_tie _ C x y E0); lia|].
    intros [H1 H2]. pose proof (cmp_flip C x y) as Hflip. destruct (cmp x y), (cmp y x); cbn in *; lia.
Qed.
