(* ===== verification/Bytes.v ===== *)
(** * Bytes: base64 and UTF-8

    What the windows use of the platform: [btoa] and [atob] (the HTML standard's
    forgiving base64), [TextEncoder] and [TextDecoder] with [fatal] and
    [ignoreBOM] (the Encoding standard's UTF-8).  A byte is an [N] below 256, a
    text its UTF-16 code units. *)

From S2P Require Import Prelude JsString.

#[local] Open Scope N_scope.
#[export] Ltac Zify.zify_post_hook ::= Z.to_euclidean_division_equations.

(** ** Base64 *)

(** The letter of six bits. *)
Definition b64letter (n : N) : N :=
  if n <? 26 then 65 + n else if n <? 52 then 71 + n else if n <? 62 then n - 4 else if n =? 62 then 43 else 47.

Definition b64value (c : N) : option N :=
  if (65 <=? c) && (c <=? 90) then Some (c - 65)
  else if (97 <=? c) && (c <=? 122) then Some (c - 71)
  else if (48 <=? c) && (c <=? 57) then Some (c + 4)
  else if c =? 43 then Some 62 else if c =? 47 then Some 63 else None.

(** [btoa] of the bytes. *)
Fixpoint toBase64 (bytes : list N) : text :=
  match bytes with
  | [] => []
  | [a] => [b64letter (a / 4); b64letter (a mod 4 * 16); 61; 61]
  | [a; b] => [b64letter (a / 4); b64letter (a mod 4 * 16 + b / 16); b64letter (b mod 16 * 4); 61]
  | a :: b :: c :: bytes' =>
      b64letter (a / 4) :: b64letter (a mod 4 * 16 + b / 16) :: b64letter (b mod 16 * 4 + c / 64) :: b64letter (c mod 64) ::
      toBase64 bytes'
  end.

(** The bytes of a sequence of six-bit values; what is left over is dropped, and
    one value alone is an error. *)
Fixpoint sextets (vs : list N) : option (list N) :=
  match vs with
  | [] => Some []
  | [_] => None
  | [p; q] => Some [p * 4 + q / 16]
  | [p; q; r] => Some [p * 4 + q / 16; q mod 16 * 16 + r / 4]
  | p :: q :: r :: s :: vs' =>
      rest ← sextets vs';
      Some (p * 4 + q / 16 :: q mod 16 * 16 + r / 4 :: r mod 4 * 64 + s :: rest)
  end.

Definition asciiSpace (c : N) : bool := bool_decide (c ∈ [9; 10; 12; 13; 32]).

(** Up to two padding signs at the end of a multiple of four. *)
Definition unpad (t : text) : text :=
  if (N.of_nat (length t) mod 4 =? 0) then
    match rev t with
    | 61 :: 61 :: t' => rev t'
    | 61 :: t' => rev t'
    | _ => t
    end
  else t.

(** [atob]: [None] is the error. *)
Definition fromBase64 (t : text) : option (list N) :=
  vs ← mapM b64value (unpad (filterb (λ c, negb (asciiSpace c)) t));
  sextets vs.

(** ** UTF-8 *)

Definition isLead (c : N) : bool := (0xD800 <=? c) && (c <=? 0xDBFF).
Definition isTrail (c : N) : bool := (0xDC00 <=? c) && (c <=? 0xDFFF).

(** The bytes of a code point. *)
Definition utf8Bytes (p : N) : list N :=
  if p <? 0x80 then [p]
  else if p <? 0x800 then [0xC0 + p / 64; 0x80 + p mod 64]
  else if p <? 0x10000 then [0xE0 + p / 4096; 0x80 + p / 64 mod 64; 0x80 + p mod 64]
  else [0xF0 + p / 262144; 0x80 + p / 4096 mod 64; 0x80 + p / 64 mod 64; 0x80 + p mod 64].

(** The code units of a code point. *)
Definition units (p : N) : text :=
  if p <? 0x10000 then [p] else [0xD800 + (p - 0x10000) / 1024; 0xDC00 + (p - 0x10000) mod 1024].

(** [new TextEncoder().encode(text)]: half a pair is the replacement character. *)
Fixpoint utf8Encode (t : text) : list N :=
  match t with
  | [] => []
  | c :: t' =>
      if isLead c then
        match t' with
        | d :: t'' => if isTrail d then utf8Bytes (0x10000 + (c - 0xD800) * 1024 + (d - 0xDC00)) ++ utf8Encode t'' else utf8Bytes 0xFFFD ++ utf8Encode t'
        | [] => utf8Bytes 0xFFFD
        end
      else if isTrail c then utf8Bytes 0xFFFD ++ utf8Encode t'
      else utf8Bytes c ++ utf8Encode t'
  end.

Definition between (lo hi b : N) : bool := (lo <=? b) && (b <=? hi).

(** [decode(bytes)]: [None] for bytes that are not UTF-8. *)
Fixpoint utf8Decode (bytes : list N) : option text :=
  match bytes with
  | [] => Some []
  | b0 :: r0 =>
      if b0 <? 0x80 then cons b0 <$> utf8Decode r0
      else match r0 with
      | [] => None
      | b1 :: r1 =>
          if between 0xC2 0xDF b0 then
            if between 0x80 0xBF b1 then app (units ((b0 - 0xC0) * 64 + (b1 - 0x80))) <$> utf8Decode r1 else None
          else match r1 with
          | [] => None
          | b2 :: r2 =>
              if between 0xE0 0xEF b0 then
                if between (if b0 =? 0xE0 then 0xA0 else 0x80) (if b0 =? 0xED then 0x9F else 0xBF) b1 && between 0x80 0xBF b2
                then app (units ((b0 - 0xE0) * 4096 + (b1 - 0x80) * 64 + (b2 - 0x80))) <$> utf8Decode r2 else None
              else match r2 with
              | [] => None
              | b3 :: r3 =>
                  if between 0xF0 0xF4 b0 && between (if b0 =? 0xF0 then 0x90 else 0x80) (if b0 =? 0xF4 then 0x8F else 0xBF) b1
                     && between 0x80 0xBF b2 && between 0x80 0xBF b3
                  then app (units ((b0 - 0xF0) * 262144 + (b1 - 0x80) * 4096 + (b2 - 0x80) * 64 + (b3 - 0x80))) <$> utf8Decode r3
                  else None
              end
          end
      end
  end.

(** A code point that is no half of a pair. *)
Definition scalar (p : N) : Prop := p < 0xD800 ∨ 0xE000 <= p < 0x110000.

Lemma utf8Encode_units p t : scalar p → utf8Encode (units p ++ t) = utf8Bytes p ++ utf8Encode t.
Proof.
  intros Hp. unfold units. destruct (p <? 0x10000) eqn:E; [apply N.ltb_lt in E|apply N.ltb_ge in E]; cbn [app utf8Encode].
  - unfold isLead, isTrail.
    assert ((0xD800 <=? p) && (p <=? 0xDBFF) = false) as -> by (apply andb_false_iff; rewrite !N.leb_gt; unfold scalar in Hp; lia).
    assert ((0xDC00 <=? p) && (p <=? 0xDFFF) = false) as -> by (apply andb_false_iff; rewrite !N.leb_gt; unfold scalar in Hp; lia).
    done.
  - assert (p < 0x110000) as Hlt by (unfold scalar in Hp; lia). unfold isLead, isTrail.
    assert ((0xD800 <=? 0xD800 + (p - 0x10000) / 1024) && (0xD800 + (p - 0x10000) / 1024 <=? 0xDBFF) = true) as ->
      by (apply andb_true_iff; rewrite !N.leb_le; lia).
    assert ((0xDC00 <=? 0xDC00 + (p - 0x10000) mod 1024) && (0xDC00 + (p - 0x10000) mod 1024 <=? 0xDFFF) = true) as ->
      by (apply andb_true_iff; rewrite !N.leb_le; lia).
    do 2 f_equal. lia.
Qed.

Lemma between_true lo hi b : between lo hi b = true ↔ lo <= b <= hi.
Proof. unfold between. rewrite andb_true_iff, !N.leb_le. done. Qed.

Lemma utf8Bytes_2 b0 b1 :
  0xC2 <= b0 <= 0xDF → 0x80 <= b1 <= 0xBF →
  scalar ((b0 - 0xC0) * 64 + (b1 - 0x80)) ∧ utf8Bytes ((b0 - 0xC0) * 64 + (b1 - 0x80)) = [b0; b1].
Proof.
  intros H0 H1. set (p := (b0 - 0xC0) * 64 + (b1 - 0x80)). assert (0x80 <= p < 0x800) as Hp by lia. split; [unfold scalar; lia|].
  unfold utf8Bytes. rewrite (proj2 (N.ltb_ge _ _)), (proj2 (N.ltb_lt _ _)) by lia.
  assert (p / 64 = b0 - 0xC0) as -> by lia. assert (p mod 64 = b1 - 0x80) as -> by lia. f_equal; [lia|]. f_equal. lia.
Qed.

Lemma utf8Bytes_3 b0 b1 b2 :
  0xE0 <= b0 <= 0xEF → 0x80 <= b1 <= 0xBF → 0x80 <= b2 <= 0xBF → (b0 = 0xE0 → 0xA0 <= b1) → (b0 = 0xED → b1 <= 0x9F) →
  scalar ((b0 - 0xE0) * 4096 + (b1 - 0x80) * 64 + (b2 - 0x80)) ∧
  utf8Bytes ((b0 - 0xE0) * 4096 + (b1 - 0x80) * 64 + (b2 - 0x80)) = [b0; b1; b2].
Proof.
  intros H0 H1 H2 Ha Hb. set (p := (b0 - 0xE0) * 4096 + (b1 - 0x80) * 64 + (b2 - 0x80)).
  assert (p / 4096 = b0 - 0xE0) as E0 by lia. assert (p / 64 = (b0 - 0xE0) * 64 + (b1 - 0x80)) as E1 by lia.
  assert (p mod 64 = b2 - 0x80) as E2 by lia.
  assert (0x800 <= p < 0x10000) as Hp by (destruct (N.eq_dec b0 0xE0); [specialize (Ha e)|]; lia). split.
  - unfold scalar. destruct (N.eq_dec b0 0xED) as [e|]; [specialize (Hb e)|]; lia.
  - unfold utf8Bytes. rewrite !(proj2 (N.ltb_ge p _)), (proj2 (N.ltb_lt _ _)) by lia.
    rewrite E0, E1, E2. assert (((b0 - 0xE0) * 64 + (b1 - 0x80)) mod 64 = b1 - 0x80) as -> by lia.
    f_equal; [lia|]. f_equal; [lia|]. f_equal. lia.
Qed.

Lemma utf8Bytes_4 b0 b1 b2 b3 :
  0xF0 <= b0 <= 0xF4 → 0x80 <= b1 <= 0xBF → 0x80 <= b2 <= 0xBF → 0x80 <= b3 <= 0xBF → (b0 = 0xF0 → 0x90 <= b1) → (b0 = 0xF4 → b1 <= 0x8F) →
  scalar ((b0 - 0xF0) * 262144 + (b1 - 0x80) * 4096 + (b2 - 0x80) * 64 + (b3 - 0x80)) ∧
  utf8Bytes ((b0 - 0xF0) * 262144 + (b1 - 0x80) * 4096 + (b2 - 0x80) * 64 + (b3 - 0x80)) = [b0; b1; b2; b3].
Proof.
  intros H0 H1 H2 H3 Ha Hb. set (p := (b0 - 0xF0) * 262144 + (b1 - 0x80) * 4096 + (b2 - 0x80) * 64 + (b3 - 0x80)).
  assert (p / 262144 = b0 - 0xF0) as E0 by lia. assert (p / 4096 = (b0 - 0xF0) * 64 + (b1 - 0x80)) as E1 by lia.
  assert (p / 64 = ((b0 - 0xF0) * 64 + (b1 - 0x80)) * 64 + (b2 - 0x80)) as E2 by lia.
  assert (p mod 64 = b3 - 0x80) as E3 by lia.
  assert (0x10000 <= p) as Hlo by (destruct (N.eq_dec b0 0xF0); [specialize (Ha e)|]; lia).
  assert (p < 0x110000) as Hhi by (destruct (N.eq_dec b0 0xF4); [specialize (Hb e)|]; lia).
  split; [unfold scalar; lia|]. unfold utf8Bytes. rewrite !(proj2 (N.ltb_ge p _)) by lia.
  rewrite E0, E1, E2, E3. assert (((b0 - 0xF0) * 64 + (b1 - 0x80)) mod 64 = b1 - 0x80) as -> by lia.
  assert ((((b0 - 0xF0) * 64 + (b1 - 0x80)) * 64 + (b2 - 0x80)) mod 64 = b2 - 0x80) as -> by lia.
  f_equal; [lia|]. f_equal; [lia|]. f_equal; [lia|]. f_equal. lia.
Qed.

(** The first character of what was decoded, its bytes, and the rest. *)
Lemma utf8Decode_first bytes t :
  utf8Decode bytes = Some t → bytes ≠ [] →
  ∃ p rest t', scalar p ∧ bytes = utf8Bytes p ++ rest ∧ t = units p ++ t' ∧ utf8Decode rest = Some t' ∧ (length rest < length bytes)%nat.
Proof.
  destruct bytes as [|b0 r0]; [done|]. cbn [utf8Decode]. intros H _. destruct (b0 <? 0x80) eqn:E0.
  { apply N.ltb_lt in E0. apply fmap_Some in H as (t' & Ht & ->). exists b0, r0, t'. unfold scalar, utf8Bytes, units.
    rewrite !(proj2 (N.ltb_lt b0 _)) by lia. split_and!; [lia|done..|cbn; lia]. }
  destruct r0 as [|b1 r1]; [done|]. destruct (between 0xC2 0xDF b0) eqn:E1.
  { destruct (between 0x80 0xBF b1) eqn:F1; [|done]. apply fmap_Some in H as (t' & Ht & ->). apply between_true in E1, F1.
    destruct (utf8Bytes_2 b0 b1 E1 F1) as [Hs Hb]. eexists _, r1, t'. split_and!; [exact Hs|by rewrite Hb|done..|cbn; lia]. }
  destruct r1 as [|b2 r2]; [done|]. destruct (between 0xE0 0xEF b0) eqn:E2.
  { match type of H with (if ?c then _ else _) = _ => destruct c eqn:F end; [|done]. apply fmap_Some in H as (t' & Ht & ->).
    apply andb_true_iff in F as [F1 F2]. apply between_true in E2, F1, F2.
    destruct (utf8Bytes_3 b0 b1 b2) as [Hs Hb]; [lia|destruct (b0 =? 0xE0), (b0 =? 0xED); lia|lia|..].
    { intros ->. exact (proj1 F1). }
    { intros ->. exact (proj2 F1). }
    eexists _, r2, t'. split_and!; [exact Hs|by rewrite Hb|done..|cbn; lia]. }
  destruct r2 as [|b3 r3]; [done|].
  match type of H with (if ?c then _ else _) = _ => destruct c eqn:F end; [|done]. apply fmap_Some in H as (t' & Ht & ->).
  apply andb_true_iff in F as [[[F0 F1]%andb_true_iff F2]%andb_true_iff F3]. apply between_true in F0, F1, F2, F3.
  destruct (utf8Bytes_4 b0 b1 b2 b3) as [Hs Hb]; [lia|destruct (b0 =? 0xF0), (b0 =? 0xF4); lia|lia|lia|..].
  { intros ->. exact (proj1 F1). }
  { intros ->. exact (proj2 F1). }
  eexists _, r3, t'. split_and!; [exact Hs|by rewrite Hb|done..|cbn; lia].
Qed.

(** What was decoded encodes to the bytes it came from. *)
Lemma utf8_decoded bytes t : utf8Decode bytes = Some t → utf8Encode t = bytes.
Proof.
  cut (∀ n bytes t, (length bytes ≤ n)%nat → utf8Decode bytes = Some t → utf8Encode t = bytes); [intros H; by eapply H|].
  clear. induction n as [|n IH]; intros bytes t Hn H; (destruct bytes as [|b bytes]; [by injection H as <-|]); [cbn in Hn; lia|].
  destruct (utf8Decode_first _ _ H) as (p & rest & t' & Hs & E & -> & Hr & Hl); [done|].
  rewrite utf8Encode_units, E by done. f_equal. apply IH; [cbn in *; lia|done].
Qed.

(** And holds no half of a pair. *)
Fixpoint paired (t : text) : bool :=
  match t with
  | [] => true
  | c :: t' => if isLead c then match t' with d :: t'' => isTrail d && paired t'' | [] => false end else negb (isTrail c) && paired t'
  end.

Lemma paired_units p t : scalar p → paired (units p ++ t) = paired t ∧ Forall (λ c, c < 65536) (units p).
Proof.
  intros Hp. unfold units. destruct (p <? 0x10000) eqn:E; [apply N.ltb_lt in E|apply N.ltb_ge in E]; cbn [app paired].
  - unfold isLead, isTrail.
    assert ((0xD800 <=? p) && (p <=? 0xDBFF) = false) as -> by (apply andb_false_iff; rewrite !N.leb_gt; unfold scalar in Hp; lia).
    assert ((0xDC00 <=? p) && (p <=? 0xDFFF) = false) as -> by (apply andb_false_iff; rewrite !N.leb_gt; unfold scalar in Hp; lia).
    split; [done|]. by repeat constructor.
  - assert (p < 0x110000) as Hlt by (unfold scalar in Hp; lia). unfold isLead, isTrail.
    assert ((0xD800 <=? 0xD800 + (p - 0x10000) / 1024) && (0xD800 + (p - 0x10000) / 1024 <=? 0xDBFF) = true) as ->
      by (apply andb_true_iff; rewrite !N.leb_le; lia).
    assert ((0xDC00 <=? 0xDC00 + (p - 0x10000) mod 1024) && (0xDC00 + (p - 0x10000) mod 1024 <=? 0xDFFF) = true) as ->
      by (apply andb_true_iff; rewrite !N.leb_le; lia).
    split; [done|]. repeat constructor; lia.
Qed.

Lemma utf8_paired bytes t : utf8Decode bytes = Some t → paired t = true ∧ Forall (λ c, c < 65536) t.
Proof.
  cut (∀ n bytes t, (length bytes ≤ n)%nat → utf8Decode bytes = Some t → paired t = true ∧ Forall (λ c, c < 65536) t);
    [intros H; by eapply H|].
  clear. induction n as [|n IH]; intros bytes t Hn H; (destruct bytes as [|b bytes]; [injection H as <-; by split|]); [cbn in Hn; lia|].
  destruct (utf8Decode_first _ _ H) as (p & rest & t' & Hs & E & -> & Hr & Hl); [done|].
  destruct (paired_units p t' Hs) as [-> Hu]. destruct (IH rest t') as [Hp Hf]; [cbn in *; lia|done|]. split; [done|].
  by apply Forall_app.
Qed.
