(* ===== verification/Json.v ===== *)
(** * JavaScript values

    The values the client reads from the server: what [JSON.parse] gives, with
    [undefined] for what is missing.  Numbers are the integers of the Kubernetes
    API (counts, ports, codes and generations, all below 2^53, where a double is
    exact), and NaN where the client computes one.  An object keeps its keys in insertion order. *)

From S2P Require Import Prelude JsString.

Inductive value : Type :=
  | VUndef
  | VNull
  | VBool (b : bool)
  | VNum (z : Z)
  | VNaN
  | VStr (s : string)
  | VArr (l : list value)
  | VObj (fields : list (string * value)).

(** The value of a key in an object's fields. *)
Fixpoint field (k : string) (fs : list (string * value)) : value :=
  match fs with
  | [] => VUndef
  | (k', v) :: fs' => if eqs k k' then v else field k fs'
  end.

(** [o?.k]: the property of an object, [undefined] for anything else. *)
Definition get (o : value) (k : string) : value :=
  match o with VObj fs => field k fs | _ => VUndef end.

Notation "o .@ k" := (get o k) (at level 18, left associativity) : js_scope.

(** [Object.prototype.hasOwnProperty.call(o, k)]. *)
Definition hasOwn (o : value) (k : string) : bool :=
  match o with VObj fs => existsb (λ f, eqs k f.1) fs | _ => false end.

(** [Boolean(v)]. *)
Definition truthy (v : value) : bool :=
  match v with
  | VUndef | VNull | VNaN => false
  | VBool b => b
  | VNum z => negb (z =? 0)%Z
  | VStr s => nonempty s
  | VArr _ | VObj _ => true
  end.

(** [v == null]. *)
Definition nullish (v : value) : bool :=
  match v with VUndef | VNull => true | _ => false end.

(** [a ?? b] and [a || b]. *)
Definition coalesce (a b : value) : value := if nullish a then b else a.
Definition or_else (a b : value) : value := if truthy a then a else b.

Notation "a ?? b" := (coalesce a b) (at level 60, right associativity) : js_scope.
Notation "a |? b" := (or_else a b) (at level 60, right associativity) : js_scope.

(** [typeof v === 'string'], [typeof v === 'number'], [typeof v === 'object'],
    [Array.isArray(v)]. *)
Definition isString (v : value) : bool := match v with VStr _ => true | _ => false end.
Definition isNumber (v : value) : bool := match v with VNum _ | VNaN => true | _ => false end.
Definition isObject (v : value) : bool := match v with VNull | VArr _ | VObj _ => true | _ => false end.
Definition isArray (v : value) : bool := match v with VArr _ => true | _ => false end.

(** [v === s] for a string [s]. *)
Definition isStr (v : value) (s : string) : bool := match v with VStr t => eqs t s | _ => false end.

(** [Array.isArray(v) ? v : []]. *)
Definition asArray (v : value) : list value := match v with VArr l => l | _ => [] end.

(** [v.length] of an array. *)
Definition vlength (l : list value) : Z := Z.of_nat (length l).

(** [String(v)], also what [`${v}`] writes. *)
Fixpoint toString (v : value) : string :=
  match v with
  | VUndef => "undefined"
  | VNull => "null"
  | VBool true => "true"
  | VBool false => "false"
  | VNum z => pretty z
  | VNaN => "NaN"
  | VStr s => s
  | VArr l =>
      join "," ((fix go l := match l with
                 | [] => []
                 | x :: l' => (if nullish x then "" else toString x) :: go l'
                 end) l)
  | VObj _ => "[object Object]"
  end.

(** The value of a string of decimal digits. *)
Fixpoint digitsValue (acc : Z) (s : string) : option Z :=
  match s with
  | "" => Some acc
  | String c s' =>
      if is_digit c then digitsValue (acc * 10 + Z.of_nat (nat_of_ascii c - 48)) s' else None
  end.

(** [Number(s)] of a string that writes an integer ([None] is NaN); the empty
    string is 0.  The numbers of the API have no fraction. *)
Definition parseNumber (s : string) : option Z :=
  match trim s with
  | "" => Some 0%Z
  | String "-" "" | String "+" "" => None
  | String "-" r => Z.opp <$> digitsValue 0 r
  | String "+" r => digitsValue 0 r
  | r => digitsValue 0 r
  end.

(** [Number(v)]. *)
Definition toNumber (v : value) : option Z :=
  match v with
  | VUndef | VNaN => None
  | VNull => Some 0%Z
  | VBool b => Some (if b then 1 else 0)%Z
  | VNum z => Some z
  | VStr s => parseNumber s
  | VArr _ | VObj _ => None
  end.

(** A written number is read back. *)
Lemma digitsValue_go (n : N) s : digitsValue 0 (pretty_N_go n s) = digitsValue (Z.of_N n) s.
Proof.
  revert s. induction (N.lt_wf_0 n) as [x _ IH]. intros s.
  assert (x = 0 ∨ 0 < x)%N as [->|Hx] by lia; [by rewrite pretty_N_go_0|]. rewrite pretty_N_go_step, IH by (done || by apply N.div_lt).
  cbn [digitsValue]. pose proof (N.mod_lt x 10 ltac:(done)) as Hm. pose proof (N.div_mod x 10 ltac:(done)) as Hd.
  revert Hm Hd. generalize (x mod 10)%N as d. intros d Hm Hd.
  assert (d = 0 ∨ d = 1 ∨ d = 2 ∨ d = 3 ∨ d = 4 ∨ d = 5 ∨ d = 6 ∨ d = 7 ∨ d = 8 ∨ d = 9)%N as Hc by lia.
  assert (is_digit (pretty_N_char d) = true ∧ Z.of_nat (nat_of_ascii (pretty_N_char d) - 48) = Z.of_N d) as [-> ->] by naive_solver.
  f_equal. lia.
Qed.

Lemma digitsValue_pretty (z : Z) : (0 ≤ z)%Z → digitsValue 0 (pretty z) = Some z.
Proof.
  intros Hz. rewrite pretty_Z_N by done. unfold pretty, pretty_N. case_decide as E; [by assert (z = 0%Z) as -> by lia|]. rewrite digitsValue_go. cbn. by rewrite Z2N.id.
Qed.

(** [{ ...o, k: v }] on an object's fields. *)
Fixpoint setField (k : string) (v : value) (fs : list (string * value)) : list (string * value) :=
  match fs with
  | [] => [(k, v)]
  | (k', v') :: fs' => if eqs k k' then (k', v) :: fs' else (k', v') :: setField k v fs'
  end.

Definition withField (k : string) (v : value) (o : value) : value :=
  match o with VObj fs => VObj (setField k v fs) | _ => VObj [(k, v)] end.

(** [a === b].  Two objects or arrays read from JSON are never one. *)
Definition strictEq (a b : value) : bool :=
  match a, b with
  | VUndef, VUndef | VNull, VNull => true
  | VBool x, VBool y => Bool.eqb x y
  | VNum x, VNum y => Z.eqb x y
  | VStr x, VStr y => eqs x y
  | _, _ => false
  end.

(** A number of the client's arithmetic. *)
Definition numv (n : option Z) : value := match n with Some z => VNum z | None => VNaN end.

(** [a + b] (a text as soon as one side is a text or an object), [a - b] and
    [Math.max(a, b)]. *)
Definition jsAdd (a b : value) : value :=
  match a, b with
  | VStr _, _ | _, VStr _ | VArr _, _ | _, VArr _ | VObj _, _ | _, VObj _ => VStr (toString a +:+ toString b)
  | _, _ => numv (x ← toNumber a; y ← toNumber b; Some (x + y)%Z)
  end.

Definition jsSub (a b : value) : value := numv (x ← toNumber a; y ← toNumber b; Some (x - y)%Z).
Definition jsMax (a b : value) : value := numv (x ← toNumber a; y ← toNumber b; Some (x `max` y)%Z).

(** [a < b] of numbers. *)
Definition jsLt (a b : value) : bool :=
  match toNumber a, toNumber b with Some x, Some y => (x <? y)%Z | _, _ => false end.

(** [Object.keys(o)]. *)
Definition keysOf (o : value) : list string := match o with VObj fs => fs.*1 | _ => [] end.

(** [l.find(P)], [l[0]], [l.map((x) => x?.k)]. *)
Definition findv (P : value → bool) (l : list value) : value := default VUndef (find P l).
Definition at0 (l : list value) : value := default VUndef (head l).
Definition pluck (k : string) (l : list value) : list value := (λ x, x .@ k) <$> l.

(** [Set.prototype.add] on a set in insertion order. *)
Definition addTo (x : value) (l : list value) : list value := if existsb (strictEq x) l then l else l ++ [x].

(** [Boolean(v)] as a value, and [Array.isArray(v) ? v : []]. *)
Definition boolv (v : value) : value := VBool (truthy v).
Definition arrayOr (v : value) : value := VArr (asArray v).

(** [l.filter(Boolean)]. *)
Definition compact (l : list value) : list value := filterb truthy l.

(** ** Lemmas *)

Lemma nullish_truthy v : nullish v = true → truthy v = false.
Proof. by destruct v. Qed.

Lemma coalesce_str s v : VStr s ?? v = VStr s.
Proof. done. Qed.

Lemma coalesce_undef v : VUndef ?? v = v.
Proof. done. Qed.

Lemma isString_true v : isString v = true ↔ ∃ s, v = VStr s.
Proof. destruct v; simpl; naive_solver. Qed.

Lemma isArray_true v : isArray v = true ↔ ∃ l, v = VArr l.
Proof. destruct v; simpl; naive_solver. Qed.

Lemma isStr_true v s : isStr v s = true ↔ v = VStr s.
Proof. destruct v; simpl; rewrite ?eqs_true; naive_solver. Qed.

Lemma get_setField_eq k v o : withField k v o .@ k = v.
Proof.
  destruct o as [| | | | | | |fs]; simpl; rewrite ?eqs_refl; try done.
  induction fs as [|[k' v'] fs IH]; simpl; [by rewrite eqs_refl|].
  destruct (eqs k k') eqn:E; simpl; by rewrite E.
Qed.

Lemma get_setField_ne k k' v fs : k ≠ k' → withField k v (VObj fs) .@ k' = VObj fs .@ k'.
Proof.
  intros Hne. simpl. induction fs as [|[k2 v2] fs IH]; simpl.
  - by rewrite (proj2 (eqs_false k' k)).
  - destruct (eqs k k2) eqn:E; simpl.
    + apply eqs_true in E as <-. by rewrite (proj2 (eqs_false k' k)).
    + destruct (eqs k' k2); [done|]. apply IH.
Qed.

Lemma elem_of_compact l x : x ∈ compact l ↔ x ∈ l ∧ truthy x = true.
Proof. apply elem_of_filterb. Qed.

Lemma truthy_boolv v : boolv (boolv v) = boolv v.
Proof. done. Qed.

Lemma arrayOr_idem v : arrayOr (arrayOr v) = arrayOr v.
Proof. done. Qed.

Lemma strictEq_str x y : strictEq (VStr x) (VStr y) = eqs x y.
Proof. done. Qed.

Lemma isNumber_true v : isNumber v = true ↔ v = VNaN ∨ ∃ z, v = VNum z.
Proof. destruct v; simpl; naive_solver. Qed.

(** A set built by [addTo] holds each text once. *)
Lemma addTo_strings x l :
  Forall (λ v, isString v = true) (x :: l) → NoDup l →
  NoDup (addTo x l) ∧ (∀ y, y ∈ addTo x l ↔ y = x ∨ y ∈ l) ∧ Forall (λ v, isString v = true) (addTo x l).
Proof.
  intros Hs Hnd. unfold addTo. destruct (existsb (strictEq x) l) eqn:E.
  - apply existsb_exists in E as (y & Hy & Heq). apply list_elem_of_In in Hy.
    inversion Hs as [| ? ? Hx Hl]; subst. apply isString_true in Hx as [s ->].
    pose proof (proj1 (Forall_forall _ l) Hl y Hy) as Hys. apply isString_true in Hys as [t ->].
    simpl in Heq. apply eqs_true in Heq as ->. split_and!; [done| |done]. intros z. split; [tauto|intros [->|]; done].
  - inversion Hs as [| ? ? Hx Hl]; subst. split_and!.
    + apply NoDup_app. split_and!; [done| |apply NoDup_singleton]. intros y Hy ->%list_elem_of_singleton.
      apply isString_true in Hx as [s ->]. apply not_true_iff_false in E. destruct E. apply existsb_exists.
      exists (VStr s). split; [by apply list_elem_of_In|]. simpl. apply eqs_refl.
    + intros y. rewrite elem_of_app, list_elem_of_singleton. tauto.
    + apply Forall_app. split; [done|]. by apply Forall_singleton.
Qed.

Lemma setField_same k v fs : existsb (λ f, eqs k f.1) fs = true → field k fs = v → setField k v fs = fs.
Proof.
  induction fs as [|[k' v'] fs IH]; simpl; [done|]. destruct (eqs k k') eqn:E; simpl.
  - by intros _ ->.
  - intros H Hf. by rewrite IH.
Qed.

(** Setting a property to what it is. *)
Lemma withField_same k o : hasOwn o k = true → withField k (o .@ k) o = o.
Proof. destruct o as [| | | | | | |fs]; try done. simpl. intros H. by rewrite setField_same. Qed.

Lemma get_withField_ne k k' v o : isObject o = true → isArray o = false → o ≠ VNull → k ≠ k' → withField k v o .@ k' = o .@ k'.
Proof. destruct o; try done. intros _ _ _. apply get_setField_ne. Qed.

Lemma setField_hasOwn k k' v fs :
  existsb (λ f, eqs k f.1) (setField k' v fs) = eqs k k' || existsb (λ f, eqs k f.1) fs.
Proof.
  induction fs as [|[k2 v2] fs IH]; simpl; [done|]. destruct (eqs k' k2) eqn:E; simpl.
  - apply eqs_true in E as ->. by destruct (eqs k k2).
  - rewrite IH. by destruct (eqs k k2), (eqs k k').
Qed.

(** [{ ...o, k1: v1, ... }]: the properties in turn. *)
Definition spread (o : value) (kvs : list (string * value)) : value := foldl (λ o kv, withField kv.1 kv.2 o) o kvs.

Lemma spread_obj fs kvs : ∃ fs', spread (VObj fs) kvs = VObj fs'.
Proof. revert fs. induction kvs as [|[k v] kvs IH]; intros fs; [by exists fs|]. apply IH. Qed.

Lemma spread_own fs kvs k : hasOwn (spread (VObj fs) kvs) k = existsb (λ f, eqs k f.1) kvs || existsb (λ f, eqs k f.1) fs.
Proof.
  revert fs. induction kvs as [|[k' v] kvs IH]; intros fs; [done|]. change (spread (VObj fs) ((k', v) :: kvs)) with (spread (VObj (setField k' v fs)) kvs).
  rewrite IH, setField_hasOwn. simpl. by destruct (eqs k k'), (existsb _ kvs).
Qed.

Lemma spread_get_ne fs kvs k : existsb (λ f, eqs k f.1) kvs = false → spread (VObj fs) kvs .@ k = field k fs.
Proof.
  revert fs. induction kvs as [|[k' v] kvs IH]; intros fs; [done|]. simpl. intros [E H]%orb_false_iff.
  change (spread (VObj (setField k' v fs)) kvs .@ k = field k fs). rewrite IH by done.
  apply eqs_false in E. apply (get_setField_ne k' k v fs). done.
Qed.

Lemma spread_get fs kvs k v : NoDup kvs.*1 → (k, v) ∈ kvs → spread (VObj fs) kvs .@ k = v.
Proof.
  revert fs. induction kvs as [|[k' v'] kvs IH]; intros fs Hnd Hin; [by apply not_elem_of_nil in Hin|].
  csimpl in Hnd. apply NoDup_cons in Hnd as [Hk Hnd].
  change (spread (VObj (setField k' v' fs)) kvs .@ k = v). apply elem_of_cons in Hin as [[= -> ->]|Hin]; [|by apply IH].
  rewrite spread_get_ne; [apply (get_setField_eq k' v' (VObj fs))|].
  apply not_true_iff_false. intros ([k2 v2] & Hin & E)%existsb_exists. simpl in E. apply eqs_true in E as ->.
  apply Hk. apply list_elem_of_In in Hin. apply list_elem_of_fmap. by exists (k2, v2).
Qed.

(** Spreading what is there already changes nothing. *)
Lemma spread_same o kvs : (∀ k v, (k, v) ∈ kvs → hasOwn o k = true ∧ o .@ k = v) → spread o kvs = o.
Proof.
  induction kvs as [|[k v] kvs IH]; intros H; [done|]. change (spread (withField k v o) kvs = o).
  destruct (H k v) as [Ho <-]; [left|]. rewrite withField_same by done. apply IH. intros. apply H. by right.
Qed.

(** A spread of properties whose values the object's own properties determine is
    the same the second time. *)
Lemma spread_idem fs (g : value → list (string * value)) :
  NoDup (g (VObj fs)).*1 → g (spread (VObj fs) (g (VObj fs))) = g (VObj fs) →
  spread (spread (VObj fs) (g (VObj fs))) (g (spread (VObj fs) (g (VObj fs)))) = spread (VObj fs) (g (VObj fs)).
Proof.
  intros Hnd Hg. rewrite Hg. apply spread_same. intros k v Hin. split; [|by apply spread_get].
  rewrite spread_own. apply orb_true_iff. left. apply existsb_exists. exists (k, v).
  split; [by apply list_elem_of_In|]. apply eqs_refl.
Qed.
