(* ===== verification/WatchRows.v ===== *)
(** * The rows of a live list

    [applyRowEvent] (services/applyRowEvent.ts), [applyWatchEvent],
    [applyWatchMessage], [scopedPaths] and [frameHolder]
    (services/useKubeWatchList.ts) and [applyHelmWatchEvent]
    (services/useHelmWatchList.ts): what one frame of a watch does to the rows
    on screen.  The abstract state of a list is the finite map from a row's key
    to the row; the class [RowFeed] states that an apply function implements a
    map operation, and the theorems on a subscription are proved against it. *)

From S2P Require Import Prelude JsString Json.

(** ** Rows as a finite map *)

Section rows.
Context {T K : Type} `{Countable K} (key : T → K).
Implicit Types (items : list T) (row : T) (k : K).

Definition sameKey k (item : T) : bool := bool_decide (key item = k).

(** [if (index >= 0) items[index] = row; else items.push(row)] *)
Definition putRow (index : option nat) row items : list T :=
  match index with Some i => <[i:=row]> items | None => items ++ [row] end.

(** [if (index >= 0) items.splice(index, 1)] *)
Definition dropRow (index : option nat) items : list T :=
  match index with Some i => delete i items | None => items end.

Definition rowsMap items : gmap K T := list_to_map ((λ r, (key r, r)) <$> items).

Definition keysNoDup items : Prop := NoDup (key <$> items).

Lemma rowsMap_cons row items : rowsMap (row :: items) = <[key row := row]> (rowsMap items).
Proof. done. Qed.

Lemma rowsMap_None k items : rowsMap items !! k = None ↔ k ∉ (key <$> items).
Proof.
  unfold rowsMap. rewrite <-not_elem_of_list_to_map.
  rewrite <-list_fmap_compose. done.
Qed.

Lemma findIndex_key_None k items : findIndex (sameKey k) items = None ↔ k ∉ (key <$> items).
Proof.
  rewrite findIndex_None, Forall_forall, list_elem_of_fmap. unfold sameKey.
  setoid_rewrite bool_decide_eq_false. naive_solver.
Qed.

Lemma putRow_map row items :
  rowsMap (putRow (findIndex (sameKey (key row)) items) row items) = <[key row := row]> (rowsMap items).
Proof.
  induction items as [|r items IH]; [done|]. simpl. unfold sameKey at 1.
  case_bool_decide as E; simpl.
  - rewrite !rowsMap_cons, E. by rewrite insert_insert_eq.
  - destruct (findIndex _ items) as [i|]; simpl in *;
      rewrite !rowsMap_cons, IH; by apply insert_insert_ne.
Qed.

Lemma putRow_keys row items :
  key <$> putRow (findIndex (sameKey (key row)) items) row items =
    if findIndex (sameKey (key row)) items is Some _ then key <$> items else (key <$> items) ++ [key row].
Proof.
  destruct (findIndex _ items) as [i|] eqn:E; simpl.
  - apply findIndex_Some in E as (x & Hx & Hk%bool_decide_eq_true & _).
    rewrite list_fmap_insert. apply list_insert_id.
    by rewrite list_lookup_fmap, Hx, <-Hk.
  - by rewrite fmap_app.
Qed.

Lemma putRow_NoDup row items :
  keysNoDup items → keysNoDup (putRow (findIndex (sameKey (key row)) items) row items).
Proof.
  unfold keysNoDup. rewrite putRow_keys. destruct (findIndex _ items) eqn:E; [done|].
  apply findIndex_key_None in E. intros ?. apply NoDup_app. split_and!; [done| |apply NoDup_singleton].
  intros k Hk ->%list_elem_of_singleton. done.
Qed.

Lemma dropRow_NoDup k items :
  keysNoDup items → keysNoDup (dropRow (findIndex (sameKey k) items) items).
Proof.
  unfold keysNoDup. destruct (findIndex _ items) as [i|]; [|done]; simpl. intros Hnd.
  rewrite list_fmap_delete. eapply sublist_NoDup; [done|apply sublist_delete].
Qed.

Lemma dropRow_map k items :
  keysNoDup items →
  rowsMap (dropRow (findIndex (sameKey k) items) items) = delete k (rowsMap items).
Proof.
  unfold keysNoDup. induction items as [|r items IH]; simpl.
  { intros _. symmetry. apply delete_empty. }
  intros [Hr Hnd]%NoDup_cons. unfold sameKey at 1. case_bool_decide as E; simpl.
  - subst k. rewrite rowsMap_cons, delete_insert_id; [done|]. by apply rowsMap_None.
  - specialize (IH Hnd). destruct (findIndex _ items) as [i|]; simpl in *;
      rewrite !rowsMap_cons, delete_insert_ne by congruence; by f_equal.
Qed.
End rows.

#[export] Hint Resolve putRow_NoDup dropRow_NoDup : kubeast.

(** ** The contract between a list and its watch

    [applyEvent] is the callback the list passes to its watch, [specEvent] the
    operation on the map of rows it implements.  [applyEvent_refines] is the
    refinement: on rows whose keys are unique the callback keeps them unique
    and computes [specEvent]. *)
Class RowFeed (E T K : Type) `{Countable K} := {
  rowKey : T → K;
  applyEvent : option (list T) → E → list T;
  specEvent : E → gmap K T → gmap K T;
  applyEvent_none e : applyEvent None e = applyEvent (Some []) e;
  applyEvent_refines items e :
    keysNoDup rowKey items →
    keysNoDup rowKey (applyEvent (Some items) e) ∧
    rowsMap rowKey (applyEvent (Some items) e) = specEvent e (rowsMap rowKey items)
}.
#[global] Hint Mode RowFeed - ! - - - : typeclass_instances.

(** What a frame asks of the rows: nothing, a row in its place, a row's end. *)
Inductive rowOp (T K : Type) : Type := OpSkip | OpPut (row : T) | OpDel (k : K).
Arguments OpSkip {T K}.
Arguments OpPut {T K} row.
Arguments OpDel {T K} k.

Section ops.
Context {T K : Type} `{Countable K} (key : T → K).

Definition applyOp (op : rowOp T K) (items : list T) : list T :=
  match op with
  | OpSkip => items
  | OpPut row => putRow (findIndex (sameKey key (key row)) items) row items
  | OpDel k => dropRow (findIndex (sameKey key k) items) items
  end.

Definition specOp (op : rowOp T K) (m : gmap K T) : gmap K T :=
  match op with
  | OpSkip => m
  | OpPut row => <[key row := row]> m
  | OpDel k => delete k m
  end.

Lemma applyOp_refines op items :
  keysNoDup key items →
  keysNoDup key (applyOp op items) ∧ rowsMap key (applyOp op items) = specOp op (rowsMap key items).
Proof.
  intros ?. destruct op; simpl; split; auto using putRow_map, dropRow_map with kubeast.
Qed.
End ops.

(** ** services/applyRowEvent.ts *)

(** The rows [applyRowEvent] takes: typed rows with a name and a namespace that
    may be missing or null. *)
Class NamedRow (T : Type) := { nameOf : T → string; namespaceOf : T → option string }.

(** [item.name === row.name && (item.namespace ?? '') === (row.namespace ?? '')] compares this pair. *)
Definition namedKey {T} `{NamedRow T} (r : T) : string * string := (default "" (namespaceOf r), nameOf r).

Definition applyRowEvent {T} `{NamedRow T} (prev : option (list T)) (event : value) (normalize : value → T) : list T :=
  let items := default [] prev in
  let obj := event .@ "object" in
  if negb (truthy obj) then items else
  let row := normalize obj in
  if negb (nonempty (nameOf row)) then items else
  let index := findIndex (λ item, eqs (nameOf item) (nameOf row) &&
                                  eqs (default "" (namespaceOf item)) (default "" (namespaceOf row))) items in
  if isStr (event .@ "type") "DELETED" then dropRow index items
  else putRow index row items.

(** The operation a frame asks for, by the guards of [applyRowEvent]. *)
Definition rowEventOp {T} `{NamedRow T} (normalize : value → T) (event : value) : rowOp T (string * string) :=
  let obj := event .@ "object" in
  if negb (truthy obj) then OpSkip else
  let row := normalize obj in
  if negb (nonempty (nameOf row)) then OpSkip else
  if isStr (event .@ "type") "DELETED" then OpDel (namedKey row) else OpPut row.

Lemma findIndex_ext {A} (P Q : A → bool) l : (∀ x, P x = Q x) → findIndex P l = findIndex Q l.
Proof. intros HPQ. induction l as [|x l IH]; simpl; [done|]. by rewrite HPQ, IH. Qed.

Lemma applyRowEvent_op {T} `{NamedRow T} prev event normalize :
  applyRowEvent prev event normalize = applyOp namedKey (rowEventOp normalize event) (default [] prev).
Proof.
  unfold applyRowEvent, rowEventOp. destruct (truthy _); [|done]. destruct (nonempty _); [|done]. simpl.
  assert (Hf : ∀ row items, findIndex (λ item : T, eqs (nameOf item) (nameOf row) &&
      eqs (default "" (namespaceOf item)) (default "" (namespaceOf row))) items
      = findIndex (sameKey namedKey (namedKey row)) items).
  { intros row items. apply findIndex_ext. intros x. unfold sameKey, namedKey.
    apply eq_true_iff_eq. rewrite andb_true_iff, !eqs_true, bool_decide_eq_true.
    split; [intros []; congruence|intros [=]; done]. }
  rewrite Hf. by destruct (isStr _ _).
Qed.

#[global] Program Instance RowEventFeed {T} `{NamedRow T} (normalize : value → T) :
  RowFeed value T (string * string) := {
  rowKey := namedKey;
  applyEvent prev e := applyRowEvent prev e normalize;
  specEvent e := specOp namedKey (rowEventOp normalize e)
}.
Next Obligation. intros. cbv beta. by rewrite !applyRowEvent_op. Qed.
Next Obligation. intros. cbv beta. rewrite applyRowEvent_op. by apply applyOp_refines. Qed.

(** ** Rows kept as the values they came in

    The list pages' own apply functions (applyPodWatchEvent and its like, one
    body repeated per kind) key a row by [`${namespace}/${name}`]. *)
Definition pathKey (item : value) : string :=
  toString (item .@ "namespace") +:+ "/" +:+ toString (item .@ "name").

Definition applyNormalized (normalize : value → value) (prev : option (list value)) (event : value) : list value :=
  let items := default [] prev in
  let obj := event .@ "object" in
  if negb (truthy obj) then items else
  let normalized := normalize obj in
  if negb (truthy (normalized .@ "name")) || negb (truthy (normalized .@ "namespace")) then items else
  let index := findIndex (λ item, eqs (pathKey item) (pathKey normalized)) items in
  if isStr (event .@ "type") "DELETED" then dropRow index items
  else putRow index normalized items.

Definition normalizedOp (normalize : value → value) (event : value) : rowOp value string :=
  let obj := event .@ "object" in
  if negb (truthy obj) then OpSkip else
  let normalized := normalize obj in
  if negb (truthy (normalized .@ "name")) || negb (truthy (normalized .@ "namespace")) then OpSkip else
  if isStr (event .@ "type") "DELETED" then OpDel (pathKey normalized) else OpPut normalized.

Lemma applyNormalized_op normalize prev event :
  applyNormalized normalize prev event = applyOp pathKey (normalizedOp normalize event) (default [] prev).
Proof.
  unfold applyNormalized, normalizedOp. destruct (truthy _); [|done].
  destruct (negb _ || negb _); [done|]. simpl. by destruct (isStr _ _).
Qed.

#[global] Program Instance NormalizedFeed (normalize : value → value) : RowFeed value value string := {
  rowKey := pathKey;
  applyEvent := applyNormalized normalize;
  specEvent e := specOp pathKey (normalizedOp normalize e)
}.
Next Obligation. intros. cbv beta. by rewrite !applyNormalized_op. Qed.
Next Obligation. intros. cbv beta. rewrite applyNormalized_op. by apply applyOp_refines. Qed.

(** ** services/useKubeWatchList.ts: [applyWatchEvent]

    The default callback: rows as the API or the object writes them, a name at
    the top or under [metadata], keyed by namespace and name, or by the name
    alone for a row without a namespace. *)
Definition itemKey (obj : value) : string :=
  let name := (obj .@ "name") |? (obj .@ "metadata" .@ "name") in
  let namespace := (obj .@ "namespace") |? (obj .@ "metadata" .@ "namespace") in
  if truthy namespace then toString namespace +:+ "/" +:+ toString name else toString name.

Definition applyWatchEvent (prev : option (list value)) (event : value) : list value :=
  let items := default [] prev in
  let obj := event .@ "object" in
  if negb (truthy obj) then items else
  let name := (obj .@ "name") |? (obj .@ "metadata" .@ "name") in
  if negb (truthy name) then items else
  let index := findIndex (λ item, eqs (itemKey item) (itemKey obj)) items in
  if isStr (event .@ "type") "DELETED" then dropRow index items
  else putRow index obj items.

Definition watchOp (event : value) : rowOp value string :=
  let obj := event .@ "object" in
  if negb (truthy obj) then OpSkip else
  if negb (truthy ((obj .@ "name") |? (obj .@ "metadata" .@ "name"))) then OpSkip else
  if isStr (event .@ "type") "DELETED" then OpDel (itemKey obj) else OpPut obj.

Lemma applyWatchEvent_op prev event :
  applyWatchEvent prev event = applyOp itemKey (watchOp event) (default [] prev).
Proof.
  unfold applyWatchEvent, watchOp. destruct (truthy _); [|done]. destruct (truthy _); [|done].
  simpl. by destruct (isStr _ _).
Qed.

#[global] Program Instance WatchFeed : RowFeed value value string := {
  rowKey := itemKey;
  applyEvent := applyWatchEvent;
  specEvent e := specOp itemKey (watchOp e)
}.
Next Obligation. intros. cbv beta. by rewrite !applyWatchEvent_op. Qed.
Next Obligation. intros. cbv beta. rewrite applyWatchEvent_op. by apply applyOp_refines. Qed.

(** ** services/useHelmWatchList.ts: [applyHelmWatchEvent] *)

Module Helm.
Record HelmReleaseSummary := {
  name : string; namespace : string; revision : Z; status : string;
  chart : string; chartVersion : string; appVersion : string; updated : string
}.

Inductive HelmWatchEventType := ADDED | MODIFIED | DELETED.
Record HelmWatchEvent := { type : HelmWatchEventType; object : HelmReleaseSummary }.

Definition releaseKey (rel : HelmReleaseSummary) : string := namespace rel +:+ "/" +:+ name rel.

Definition applyHelmWatchEvent (prev : option (list HelmReleaseSummary)) (event : HelmWatchEvent) :
    list HelmReleaseSummary :=
  let items := default [] prev in
  let obj := object event in
  if negb (nonempty (name obj)) || negb (nonempty (namespace obj)) then items else
  let idx := findIndex (λ item, eqs (releaseKey item) (releaseKey obj)) items in
  match type event with
  | DELETED =>
      match idx ≫= (λ i, items !! i) with
      | Some existing => if (revision existing <=? revision obj)%Z then dropRow idx items else items
      | None => items
      end
  | ADDED | MODIFIED =>
      match idx ≫= (λ i, items !! i) with
      | Some existing => if (revision obj <? revision existing)%Z then items else putRow idx obj items
      | None => putRow None obj items
      end
  end.

(** What the stream means for the map of releases: a revision replaces only
    revisions not above it, and only the end of the revision on screen or a
    later one ends the release. *)
Definition specHelm (event : HelmWatchEvent) (m : gmap string HelmReleaseSummary) : gmap string HelmReleaseSummary :=
  let obj := object event in
  if negb (nonempty (name obj)) || negb (nonempty (namespace obj)) then m else
  let newest := match m !! releaseKey obj with
                | Some existing => (revision existing <=? revision obj)%Z
                | None => true
                end in
  if newest then
    match type event with
    | DELETED => delete (releaseKey obj) m
    | ADDED | MODIFIED => <[releaseKey obj := obj]> m
    end
  else m.

(** The row an index of the code points at is the map's row at that key. *)
Lemma found_row (k : string) (items : list HelmReleaseSummary) :
  (findIndex (sameKey releaseKey k) items ≫= λ i, items !! i) = rowsMap releaseKey items !! k.
Proof.
  induction items as [|r items IH]; [done|]. simpl. rewrite rowsMap_cons. unfold sameKey at 1.
  case_bool_decide as E; simpl.
  - by rewrite E, lookup_insert_eq.
  - rewrite lookup_insert_ne by done. rewrite <-IH. by destruct (findIndex _ items).
Qed.

#[global] Program Instance HelmFeed : RowFeed HelmWatchEvent HelmReleaseSummary string := {
  rowKey := releaseKey;
  applyEvent := applyHelmWatchEvent;
  specEvent := specHelm
}.
Next Obligation. done. Qed.
Next Obligation.
  intros items e Hnd. unfold applyHelmWatchEvent, specHelm.
  destruct (negb _ || negb _); [done|]. simpl.
  change (λ item, eqs (releaseKey item) (releaseKey (object e))) with (sameKey releaseKey (releaseKey (object e))).
  rewrite found_row. destruct (rowsMap releaseKey items !! releaseKey (object e)) as [x|] eqn:E.
  - rewrite (Z.ltb_antisym (revision x)). destruct (type e), (revision x <=? revision (object e))%Z; simpl;
      split; auto using putRow_map, dropRow_map with kubeast.
  - assert (Hn : findIndex (sameKey releaseKey (releaseKey (object e))) items = None)
      by (by apply findIndex_key_None, rowsMap_None).
    pose proof (putRow_map releaseKey (object e) items) as Hp.
    pose proof (putRow_NoDup releaseKey (object e) items Hnd) as Hq. rewrite Hn in Hp, Hq.
    destruct (type e); split; try done. by rewrite delete_id.
Qed.
End Helm.

(** ** services/useKubeWatchList.ts: [applyWatchMessage]

    A frame of a subscription (ServerMessage of services/watchMultiplexer.ts,
    without the path it names).  The query cache is TanStack Query's: an entry
    is the list or nothing yet, [setQueryData] stores what the updater returns
    and [invalidateQueries] marks it to be read again. *)
Inductive frame (E : Type) : Type :=
  | DATA (data : E)
  | ERROR (reason : string)
  | COMPLETE
  | RESYNC.
Arguments DATA {E} data.
Arguments ERROR {E} reason.
Arguments COMPLETE {E}.
Arguments RESYNC {E}.

Section subscription.
Context {E T K : Type} `{RowFeed E T K}.

(** The cache entry of the list and what its callbacks were told. *)
Record Feed := {
  cache : option (list T);
  invalidated : nat;       (* invalidateQueries calls *)
  onResync : nat;          (* onResync callbacks *)
  onEvent : list E         (* onEvent callbacks, oldest first *)
}.

Definition applyWatchMessage (s : Feed) (message : frame E) : Feed :=
  match message with
  | RESYNC => {| cache := cache s; invalidated := S (invalidated s); onResync := S (onResync s); onEvent := onEvent s |}
  | DATA event =>
      {| cache := match cache s with None => None | Some prev => Some (applyEvent (Some prev) event) end;
         invalidated := invalidated s; onResync := onResync s; onEvent := onEvent s ++ [event] |}
  | ERROR _ | COMPLETE => s
  end.

(** The list's answer arrives. *)
Definition listAnswered (rows : list T) (s : Feed) : Feed :=
  {| cache := Some rows; invalidated := invalidated s; onResync := onResync s; onEvent := onEvent s |}.

Definition applyFrames (s : Feed) (ms : list (frame E)) : Feed := foldl applyWatchMessage s ms.

(** The events of a sequence of frames, and the map the server reaches by them. *)
Definition dataOf (ms : list (frame E)) : list E :=
  omap (λ m, match m with DATA e => Some e | _ => None end) ms.
Definition serverRows (m : gmap K T) (events : list E) : gmap K T := foldl (λ m e, specEvent e m) m events.

Lemma applyFrames_none ms s : cache s = None → cache (applyFrames s ms) = None.
Proof.
  revert s. induction ms as [|m ms IH]; intros s Hs; simpl; [done|]. apply IH.
  destruct m; simpl; try done. by rewrite Hs.
Qed.

Lemma applyFrames_some ms s rows :
  cache s = Some rows → keysNoDup rowKey rows →
  ∃ rows', cache (applyFrames s ms) = Some rows' ∧ keysNoDup rowKey rows' ∧
    rowsMap rowKey rows' = serverRows (rowsMap rowKey rows) (dataOf ms).
Proof.
  revert s rows. induction ms as [|m ms IH]; intros s rows Hs Hnd; simpl; [by exists rows|].
  destruct m as [e|r| |]; simpl; try (by apply IH).
  destruct (applyEvent_refines rows e Hnd) as [Hnd' Hmap].
  destruct (IH (applyWatchMessage s (DATA e)) (applyEvent (Some rows) e)) as (rows' & ? & ? & Heq);
    [by simpl; rewrite Hs|done|].
  exists rows'. split_and!; [done..|]. by rewrite Heq, Hmap.
Qed.
End subscription.
Arguments Feed : clear implicits.

(** ** services/useKubeWatchList.ts: [scopedPaths] *)
Definition scopedPaths (path : string) (scope : option (list string)) : list string :=
  match scope with
  | None | Some [] => [path]
  | Some scope =>
      if includes "/namespaces/" path then [path] else
      match lastIndexOf "/" path with
      | None | Some 0 => [path]
      | Some cut => (λ ns, stake cut path +:+ "/namespaces/" +:+ ns +:+ sdrop cut path) <$> scope
      end
  end.

(** ** services/useKubeWatchList.ts: [frameHolder]

    Frames gathered until the timer fires; [delivered] is what [deliver] was
    called with. *)
Section holder.
Context {M : Type}.

Record Holder := { held : list M; timer : bool; delivered : list M }.
Definition holder0 : Holder := {| held := []; timer := false; delivered := [] |}.

Definition push (message : M) (h : Holder) : Holder :=
  {| held := held h ++ [message]; timer := true; delivered := delivered h |}.
Definition fire (h : Holder) : Holder :=
  if timer h then {| held := []; timer := false; delivered := delivered h ++ held h |} else h.
Definition stop (h : Holder) : Holder := {| held := []; timer := false; delivered := delivered h |}.

Inductive holderCall := Push (m : M) | Fire | Stop.
Definition holderStep (h : Holder) (c : holderCall) : Holder :=
  match c with Push m => push m h | Fire => fire h | Stop => stop h end.
Definition holderRun (h : Holder) (cs : list holderCall) : Holder := foldl holderStep h cs.

(** The messages pushed, and those pushed since the last [stop]. *)
Definition pushed (cs : list holderCall) : list M :=
  omap (λ c, match c with Push m => Some m | _ => None end) cs.

Lemma holderRun_app h cs ds : holderRun h (cs ++ ds) = holderRun (holderRun h cs) ds.
Proof. apply foldl_app. Qed.

Lemma holderRun_inv cs h :
  (held h = [] ∨ timer h = true) → held (holderRun h cs) = [] ∨ timer (holderRun h cs) = true.
Proof.
  revert h. induction cs as [|c cs IH]; intros h Hh; simpl; [done|]. apply IH.
  destruct c; simpl; [by right| |by left]. unfold fire. destruct (timer h) eqn:E; simpl; [by left|naive_solver].
Qed.

Lemma holderRun_order cs h :
  (held h = [] ∨ timer h = true) → Forall (λ c, c ≠ Stop) cs →
  delivered (holderRun h cs) ++ held (holderRun h cs) = delivered h ++ held h ++ pushed cs.
Proof.
  revert h. induction cs as [|c cs IH]; intros h Hh Hns; simpl; [by rewrite app_nil_r|].
  apply Forall_cons in Hns as [Hc Hns]. rewrite IH; [|by apply (holderRun_inv [c])|done].
  destruct c as [m| |]; simpl; [by rewrite <-!app_assoc| |done].
  unfold fire. destruct (timer h) eqn:E; simpl; by rewrite <-?app_assoc.
Qed.
End holder.
Arguments Holder : clear implicits.
Arguments holderCall : clear implicits.

(** * Properties *)

(** C1. A live list converges to the server's rows: frames that come before the
    list has answered leave it without rows, and from the list's answer on,
    every sequence of frames (data, errors, completions and resyncs) leaves the
    screen with unique keys and exactly the map the server reaches by the same
    events — for every apply function that implements [RowFeed]. *)
Theorem watch_list_converges {E T K} `{RowFeed E T K} (s : Feed E T) early listing later :
  cache s = None → keysNoDup rowKey listing →
  cache (applyFrames s early) = None ∧
  ∃ rows, cache (applyFrames (listAnswered listing (applyFrames s early)) later) = Some rows ∧
    keysNoDup rowKey rows ∧
    rowsMap rowKey rows = serverRows (rowsMap rowKey listing) (dataOf later).
Proof.
  intros Hs Hnd. split; [by apply applyFrames_none|]. by apply applyFrames_some.
Qed.

Definition releaseA (n : Z) : Helm.HelmReleaseSummary :=
  Helm.Build_HelmReleaseSummary "web" "prod" n "deployed" "chart" "1" "1" "t".

Lemma watch_list_converges_witness :
  ∃ rows, cache (applyFrames (listAnswered [releaseA 2]
      (applyFrames {| cache := None; invalidated := 0; onResync := 0; onEvent := [] |}
         [DATA (Helm.Build_HelmWatchEvent Helm.ADDED (releaseA 9))]))
      [DATA (Helm.Build_HelmWatchEvent Helm.MODIFIED (releaseA 3)); RESYNC]) = Some rows ∧
    rowsMap rowKey rows !! "prod/web" = Some (releaseA 3).
Proof.
  destruct (watch_list_converges {| cache := None; invalidated := 0; onResync := 0; onEvent := [] |}
     [DATA (Helm.Build_HelmWatchEvent Helm.ADDED (releaseA 9))] [releaseA 2]
     [DATA (Helm.Build_HelmWatchEvent Helm.MODIFIED (releaseA 3)); RESYNC]) as (_ & rows & Hc & _ & Hm).
  - reflexivity.
  - apply NoDup_singleton.
  - exists rows. split; [exact Hc|]. rewrite Hm. vm_compute. reflexivity.
Defined.

(** [applyRowEvent] keeps every row where it is: an event about a row on
    screen replaces it in place, one about a new row puts it last, and a
    deletion only takes that row out, the others keeping their order. *)
Theorem applyRowEvent_keeps_order {T} `{NamedRow T} (items : list T) event normalize :
  keysNoDup namedKey items →
  let row := normalize (event .@ "object") in
  truthy (event .@ "object") = true → nameOf row ≠ "" →
  namedKey <$> applyRowEvent (Some items) event normalize =
    if isStr (event .@ "type") "DELETED" then filter (λ k, k ≠ namedKey row) (namedKey <$> items)
    else if bool_decide (namedKey row ∈ namedKey <$> items) then namedKey <$> items
    else (namedKey <$> items) ++ [namedKey row].
Proof.
  intros Hnd row Ho Hn. rewrite applyRowEvent_op. unfold rowEventOp.
  rewrite Ho. change (normalize (event .@ "object")) with row.
  rewrite (proj2 (nonempty_true _) Hn). simpl.
  destruct (isStr (event .@ "type") "DELETED"); simpl.
  - clear Hn Ho. revert Hnd. unfold keysNoDup. induction items as [|r items IH]; [done|].
    simpl. intros [Hr Hnd]%NoDup_cons. unfold sameKey at 1. case_bool_decide as E.
    + rewrite E, filter_cons_False by naive_solver. simpl. symmetry. apply filter_id.
      apply Forall_forall. intros k Hk ->. by rewrite <-E in Hk.
    + rewrite filter_cons_True by done. specialize (IH Hnd). simpl in IH |- *.
      destruct (findIndex _ items); simpl in IH |- *; by f_equal.
  - rewrite putRow_keys. case_bool_decide as E.
    + destruct (findIndex _ items) eqn:Ef; [done|]. by apply findIndex_key_None in Ef.
    + by apply findIndex_key_None in E as ->.
Qed.

#[global] Instance valueNamed : NamedRow value := {
  nameOf v := toString (v .@ "name");
  namespaceOf v := match v .@ "namespace" with VStr s => Some s | _ => None end
}.
Definition rowNamed (n : string) : value := VObj [("name", VStr n); ("namespace", VStr "ns")].

Lemma applyRowEvent_keeps_order_witness :
  namedKey <$> applyRowEvent (Some [rowNamed "a"; rowNamed "b"; rowNamed "c"])
    (VObj [("type", VStr "DELETED"); ("object", rowNamed "b")]) id = [("ns", "a"); ("ns", "c")].
Proof.
  rewrite (applyRowEvent_keeps_order [rowNamed "a"; rowNamed "b"; rowNamed "c"]).
  - vm_compute. reflexivity.
  - unfold keysNoDup. by_decide.
  - reflexivity.
  - vm_compute. discriminate.
Defined.

(** Out-of-order frames never rewind a Helm release: whatever events come,
    as long as none ends it, a release on screen stays there and its revision
    does not decrease. *)
Theorem helm_revision_monotone (items : list Helm.HelmReleaseSummary) events k r :
  keysNoDup Helm.releaseKey items → rowsMap Helm.releaseKey items !! k = Some r →
  Forall (λ e, Helm.type e ≠ Helm.DELETED) events →
  ∃ r', rowsMap Helm.releaseKey (foldl (λ rows e, Helm.applyHelmWatchEvent (Some rows) e) items events) !! k = Some r'
    ∧ (Helm.revision r <= Helm.revision r')%Z.
Proof.
  revert items r. induction events as [|e events IH]; intros items r Hnd Hr Hev; simpl; [by exists r|].
  apply Forall_cons in Hev as [He Hev].
  destruct (applyEvent_refines (RowFeed := Helm.HelmFeed) items e Hnd) as [Hnd' Hm].
  simpl in Hnd', Hm.
  assert (∃ r1, rowsMap Helm.releaseKey (Helm.applyHelmWatchEvent (Some items) e) !! k = Some r1 ∧
    (Helm.revision r <= Helm.revision r1)%Z) as (r1 & Hr1 & Hle).
  { rewrite Hm. unfold Helm.specHelm. destruct (negb _ || negb _); [by exists r|].
    destruct (decide (Helm.releaseKey (Helm.object e) = k)) as [<-|Hk].
    - rewrite Hr. destruct (Helm.revision r <=? _)%Z eqn:El; [|by exists r].
      destruct (Helm.type e); [| |done]; rewrite lookup_insert_eq; eexists; split; try done; lia.
    - destruct (match _ with Some _ => _ | None => _ end); [|by exists r].
      destruct (Helm.type e); [| |done]; rewrite lookup_insert_ne by done; by exists r. }
  destruct (IH _ r1 Hnd' Hr1 Hev) as (r' & ? & ?). exists r'. split; [done|lia].
Qed.

Lemma helm_revision_monotone_witness :
  ∃ r', rowsMap Helm.releaseKey (foldl (λ rows e, Helm.applyHelmWatchEvent (Some rows) e) [releaseA 4]
     [Helm.Build_HelmWatchEvent Helm.MODIFIED (releaseA 3)]) !! "prod/web" = Some r' ∧ (4 <= Helm.revision r')%Z.
Proof.
  apply (helm_revision_monotone [releaseA 4] _ "prod/web" (releaseA 4)).
  - apply NoDup_singleton.
  - vm_compute. reflexivity.
  - repeat constructor. discriminate.
Defined.

(** A namespace-scoped watch asks one path per granted namespace: the path
    of a kind becomes the path of that kind in each namespace, in the grant's
    order, and a path that names a namespace already is left as it is. *)
Theorem scopedPaths_correct prefix kind ns scope :
  prefix ≠ "" → free_of "/" kind → includes "/namespaces/" (prefix +:+ "/" +:+ kind) = false →
  scopedPaths (prefix +:+ "/" +:+ kind) (Some (ns :: scope)) =
    (λ n, prefix +:+ "/namespaces/" +:+ n +:+ "/" +:+ kind) <$> (ns :: scope) ∧
  ∀ p scope', p ∈ scopedPaths (prefix +:+ "/" +:+ kind) (Some (ns :: scope)) → scopedPaths p scope' = [p].
Proof.
  intros Hp Hk Hinc.
  assert (Heq : scopedPaths (prefix +:+ "/" +:+ kind) (Some (ns :: scope)) =
    (λ n, prefix +:+ "/namespaces/" +:+ n +:+ "/" +:+ kind) <$> (ns :: scope)).
  { unfold scopedPaths. rewrite Hinc. change ("/" +:+ kind) with (String "/" kind).
    rewrite lastIndexOf_app, stake_app, sdrop_app by done.
    by destruct prefix. }
  split; [done|]. rewrite Heq. intros p scope' Hin. apply list_elem_of_fmap in Hin as (n & -> & _).
  unfold scopedPaths. destruct scope' as [[|n' scope']|]; try done.
  rewrite (proj2 (includes_spec _ _)); [done|]. by exists prefix, (n +:+ "/" +:+ kind).
Qed.

Lemma scopedPaths_correct_witness :
  scopedPaths "/apis/apps/v1/deployments" (Some ["a"; "b"]) =
    ["/apis/apps/v1/namespaces/a/deployments"; "/apis/apps/v1/namespaces/b/deployments"].
Proof.
  apply (scopedPaths_correct "/apis/apps/v1" "deployments" "a" ["b"]); [discriminate|reflexivity|reflexivity].
Defined.

(** Gathering frames loses and reorders none of them: until the holder is
    stopped, what was delivered followed by what is held is what was pushed, a
    held frame always has its timer, and the timer delivers all of it. *)
Theorem frameHolder_in_order {M} (cs : list (holderCall M)) :
  Forall (λ c, c ≠ Stop) cs →
  let h := holderRun holder0 cs in
  delivered h ++ held h = pushed cs ∧ (held h = [] ∨ timer h = true) ∧
  delivered (fire h) = pushed cs ∧ held (fire h) = [].
Proof.
  intros Hns h.
  pose proof (holderRun_order cs holder0 (or_introl eq_refl) Hns) as Ho.
  pose proof (holderRun_inv cs holder0 (or_introl eq_refl)) as Hi. fold h in Ho, Hi. simpl in Ho.
  unfold fire. destruct (timer h) eqn:Et; simpl; [by split_and!; auto|].
  destruct Hi as [Hh|]; [|done]. rewrite Hh, app_nil_r in Ho |- *. split_and!; auto.
Qed.

Lemma frameHolder_in_order_witness :
  delivered (fire (holderRun holder0 [Push 1; Push 2; Fire; Push 3])) = [1; 2; 3].
Proof.
  refine (proj1 (proj2 (proj2 (frameHolder_in_order [Push 1; Push 2; Fire; Push 3] _)))).
  repeat constructor; discriminate.
Defined.
