(* ===== verification/WatchProblems.v ===== *)
(** * Why a list's live updates stopped

    services/watchProblemStore.ts: the problem each watch of the page reports,
    kept per subscription key, and the most serious one a page shows.  The store
    is a record passed from call to call; [version] is what the screen
    subscribes to, so it must move exactly when the problems do. *)

From S2P Require Import Prelude JsString WatchRows.

Inductive WatchProblem := forbidden | limit | unreachable | failed | scope.
#[global] Instance WatchProblem_eq_dec : EqDecision WatchProblem.
Proof. solve_decision. Defined.

Definition SERIOUS_FIRST : list WatchProblem := [forbidden; limit; unreachable; failed; scope].
Definition SILENT : list string := ["not_served"; "unsupported"].

(** The reason an ERROR frame carries for each problem. *)
Definition reasonOf (p : WatchProblem) : string :=
  match p with
  | forbidden => "forbidden" | limit => "limit" | unreachable => "unreachable"
  | failed => "failed" | scope => "scope"
  end.

(** The kinds a watch names otherwise than the REST list it feeds does. *)
Definition LIST_OF_KIND : list (string * string) :=
  [("customresourcedefinitions", "crds"); ("persistentvolumes", "pvs"); ("persistentvolumeclaims", "pvcs");
   ("horizontalpodautoscalers", "hpas"); ("verticalpodautoscalers", "vpas"); ("poddisruptionbudgets", "pdbs")].

Definition assoc {A} (k : string) (l : list (string * A)) : option A := snd <$> find (λ kv, eqs k kv.1) l.

Definition nl : string := String "010" "".

Definition listOfWatch (key : string) : string :=
  let after := sdrop (match indexOf nl key with Some i => S i | None => 0 end) key in
  let path := default "" (head (split "?" after)) in
  let kind := sdrop (match lastIndexOf "/" path with Some i => S i | None => 0 end) path in
  default kind (assoc kind LIST_OF_KIND).

Record ProblemStore := { problems : gmap string WatchProblem; version : nat }.
Definition problems0 : ProblemStore := {| problems := ∅; version := 0 |}.

Definition notify (ps : gmap string WatchProblem) (st : ProblemStore) : ProblemStore :=
  {| problems := ps; version := S (version st) |}.

Definition set (key : string) (problem : WatchProblem) (st : ProblemStore) : ProblemStore :=
  if bool_decide (problems st !! key = Some problem) then st
  else notify (<[key := problem]> (problems st)) st.

Definition clearWatchProblem (key : string) (st : ProblemStore) : ProblemStore :=
  if bool_decide (is_Some (problems st !! key)) then notify (delete key (problems st)) st else st.

Definition resetWatchProblems (st : ProblemStore) : ProblemStore :=
  if bool_decide (problems st = ∅) then st else notify ∅ st.

(** The problem an ERROR frame's reason stands for; [None] when it is silent. *)
Definition problemOf (reason : string) : option WatchProblem :=
  if existsb (eqs reason) SILENT then None
  else Some (default failed (find (λ p, eqs reason (reasonOf p)) SERIOUS_FIRST)).

Definition recordWatchFrame {E} (key : string) (f : frame E) (st : ProblemStore) : ProblemStore :=
  match f with
  | ERROR reason => match problemOf reason with None => st | Some p => set key p st end
  | _ => clearWatchProblem key st
  end.

Definition refused (refusedLists : option (gset string)) (key : string) : bool :=
  match refusedLists with Some r => bool_decide (listOfWatch key ∈ r) | None => false end.

Definition getWatchProblem (refusedLists : option (gset string)) (st : ProblemStore) : option WatchProblem :=
  let present := snd <$> filter (λ kp : string * WatchProblem, refused refusedLists kp.1 = false) (map_to_list (problems st)) in
  find (λ p, bool_decide (p ∈ present)) SERIOUS_FIRST.

(** ** Lemmas *)

(** How serious a problem is: its place in [SERIOUS_FIRST]. *)
Definition rank (p : WatchProblem) : nat :=
  match p with forbidden => 0 | limit => 1 | unreachable => 2 | failed => 3 | scope => 4 end.

Lemma find_serious (P : WatchProblem → bool) p :
  find P SERIOUS_FIRST = Some p ↔ P p = true ∧ ∀ q, rank q < rank p → P q = false.
Proof.
  split.
  - intros H. split; [by apply find_Some in H as []|]. unfold SERIOUS_FIRST in H. simpl in H.
    intros q Hq. repeat case_match; simplify_eq; destruct q; simpl in Hq; try lia; done.
  - intros [Hp Hq]. unfold SERIOUS_FIRST. simpl.
    pose proof (Hq forbidden). pose proof (Hq limit). pose proof (Hq unreachable). pose proof (Hq failed).
    destruct p; simpl in *; rewrite ?H, ?H0, ?H1, ?H2, ?Hp by lia; done.
Qed.

Lemma find_serious_none (P : WatchProblem → bool) : find P SERIOUS_FIRST = None ↔ ∀ p, P p = false.
Proof.
  rewrite find_None, Forall_forall. split; intros H p; [apply H; destruct p; set_solver|done].
Qed.

Lemma set_problems key p st : problems (set key p st) = <[key := p]> (problems st).
Proof.
  unfold set. case_bool_decide as E; [|done]. by rewrite insert_id.
Qed.

Lemma clear_problems key st : problems (clearWatchProblem key st) = delete key (problems st).
Proof.
  unfold clearWatchProblem. case_bool_decide as E; [done|].
  rewrite delete_id; [done|]. by apply eq_None_not_Some.
Qed.

Lemma record_problems {E} key (f : frame E) st :
  problems (recordWatchFrame key f st) =
    match f with
    | ERROR reason => match problemOf reason with None => problems st | Some p => <[key := p]> (problems st) end
    | _ => delete key (problems st)
    end.
Proof.
  destruct f as [e|r| |]; simpl; rewrite ?clear_problems; try done.
  destruct (problemOf r); [apply set_problems|done].
Qed.

(** An operation moves [version] by one when it changed the problems and leaves
    the whole store as it was otherwise. *)
Definition exact (st st' : ProblemStore) : Prop :=
  (problems st' = problems st ∧ st' = st) ∨ (problems st' ≠ problems st ∧ version st' = S (version st)).

Lemma set_exact key p st : exact st (set key p st).
Proof.
  unfold exact, set. case_bool_decide as E; [by left|]. right. split; [|done]. simpl. intros Heq.
  apply E. by rewrite <-Heq, lookup_insert_eq.
Qed.

Lemma clear_exact key st : exact st (clearWatchProblem key st).
Proof.
  unfold exact, clearWatchProblem. case_bool_decide as E; [|by left]. right. split; [|done]. simpl. intros Heq.
  rewrite <-Heq, lookup_delete_eq in E. by destruct E.
Qed.

Lemma reset_exact st : exact st (resetWatchProblems st).
Proof.
  unfold exact, resetWatchProblems. case_bool_decide as E; [by left|right]. done.
Qed.

Lemma record_exact {E} key (f : frame E) st : exact st (recordWatchFrame key f st).
Proof.
  destruct f as [e|r| |]; simpl; auto using clear_exact. destruct (problemOf r); [apply set_exact|by left].
Qed.

#[export] Hint Resolve set_exact clear_exact reset_exact record_exact : kubeast.

(** A run of frames, each with its subscription's key. *)
Definition recordFrames {E} (fs : list (string * frame E)) (st : ProblemStore) : ProblemStore :=
  foldl (λ st kf, recordWatchFrame kf.1 kf.2 st) st fs.

(** What a frame says of its subscription: nothing, a problem, or that it answers. *)
Definition verdict {E} (f : frame E) : option (option WatchProblem) :=
  match f with ERROR reason => Some <$> problemOf reason | _ => Some None end.

Definition lastVerdict {E} (key : string) (fs : list (string * frame E)) : option (option WatchProblem) :=
  last (omap (λ kf, if eqs kf.1 key then verdict kf.2 else None) fs).

(** * Properties *)

(** The problem kept for a subscription is the one its last telling frame
    reported: an ERROR with a reason the page knows keeps that reason, an
    unknown reason counts as failed, a silent one (the kind is not served, or
    has no live updates) says nothing, and any other frame clears it.  Frames of
    other subscriptions never touch it. *)
Theorem problem_is_last_verdict {E} (fs : list (string * frame E)) st key :
  problems (recordFrames fs st) !! key =
    match lastVerdict key fs with Some v => v | None => problems st !! key end.
Proof.
  induction fs as [|[k f] fs IH] using rev_ind; [done|].
  unfold recordFrames, lastVerdict in *. rewrite foldl_app, omap_app, last_app. simpl.
  rewrite record_problems. destruct (eqs k key) eqn:Ek; simpl.
  - apply eqs_true in Ek as ->. destruct f as [e|r| |]; simpl; rewrite ?lookup_delete_eq; try done.
    destruct (problemOf r); simpl; [by rewrite lookup_insert_eq|done].
  - apply eqs_false in Ek. rewrite <-IH. destruct f as [e|r| |]; rewrite ?lookup_delete_ne by done; try done.
    destruct (problemOf r); by rewrite ?lookup_insert_ne by done.
Qed.

(** The page shows the most serious problem among the watches of lists it
    was not refused: a problem is shown exactly when some such watch has it and
    no such watch has a more serious one, and none is shown exactly when no such
    watch has a problem. *)
Theorem getWatchProblem_most_serious refusedLists st :
  (∀ p, getWatchProblem refusedLists st = Some p ↔
    (∃ key, problems st !! key = Some p ∧ refused refusedLists key = false) ∧
    ∀ key q, problems st !! key = Some q → refused refusedLists key = false → rank p ≤ rank q) ∧
  (getWatchProblem refusedLists st = None ↔
    ∀ key p, problems st !! key = Some p → refused refusedLists key = true).
Proof.
  assert (Hin : ∀ p, bool_decide (p ∈ snd <$> filter (λ kp : string * WatchProblem, refused refusedLists kp.1 = false)
      (map_to_list (problems st))) = true ↔ ∃ key, problems st !! key = Some p ∧ refused refusedLists key = false).
  { intros p. rewrite bool_decide_eq_true, list_elem_of_fmap. split.
    - intros ([k q] & -> & [Hr Hk]%list_elem_of_filter). exists k. by apply elem_of_map_to_list in Hk.
    - intros (k & Hk & Hr). exists (k, p). rewrite list_elem_of_filter, elem_of_map_to_list. done. }
  unfold getWatchProblem. split.
  - intros p. rewrite find_serious, Hin. split; intros [Hp Hq]; (split; [done|]).
    + intros key q Hk Hr. destruct (decide (rank p ≤ rank q)) as [|Hlt]; [done|].
      specialize (Hq q ltac:(lia)). apply not_true_iff_false in Hq. destruct Hq. apply Hin. eauto.
    + intros q Hlt. apply not_true_iff_false. rewrite Hin. intros (key & Hk & Hr).
      specialize (Hq key q Hk Hr). lia.
  - rewrite find_serious_none. split.
    + intros H key p Hk. destruct (refused refusedLists key) eqn:Er; [done|].
      specialize (H p). apply not_true_iff_false in H. destruct H. apply Hin. eauto.
    + intros H p. apply not_true_iff_false. rewrite Hin. intros (key & Hk & Hr). by rewrite (H key p Hk) in Hr.
Qed.

(** The screen is told of every change and of nothing else: recording a
    frame, clearing a subscription and resetting the page move [version] by one
    exactly when they change a problem, and otherwise leave the store as it was. *)
Theorem problem_version_exact {E} key (f : frame E) st :
  exact st (recordWatchFrame key f st) ∧ exact st (clearWatchProblem key st) ∧
  exact st (resetWatchProblems st) ∧ problems (resetWatchProblems st) = ∅.
Proof.
  split_and!; auto with kubeast. unfold resetWatchProblems. by case_bool_decide.
Qed.
