(* ===== verification/ListStatus.v ===== *)
(** * How a page's list requests ended

    utils/forbiddenResource.ts (the API segment and the resource name behind a
    request's path), the response interceptor of services/api/client.ts, and the
    two stores it feeds through window events: services/listStatusStore.ts and
    services/forbiddenStore.ts.  A page is the pair of stores; a request that
    ends is an [outcome], and the theorems relate the stores to the outcomes. *)

From S2P Require Import Prelude JsString Json WatchProblems.

(** ** utils/forbiddenResource.ts *)

Definition KIND_LABELS : list (string * string) :=
  [("pods", "Pod"); ("deployments", "Deployment"); ("statefulsets", "StatefulSet");
    ("daemonsets", "DaemonSet"); ("replicasets", "ReplicaSet"); ("jobs", "Job"); ("cronjobs", "CronJob");
    ("services", "Service"); ("endpoints", "Endpoints"); ("endpointslices", "EndpointSlice");
    ("ingresses", "Ingress"); ("ingressclasses", "IngressClass"); ("policyreports", "PolicyReport");
    ("networkpolicies", "NetworkPolicy"); ("configmaps", "ConfigMap"); ("secrets", "Secret");
    ("hpas", "HorizontalPodAutoscaler"); ("vpas", "VerticalPodAutoscaler"); ("pdbs", "PodDisruptionBudget");
    ("priorityclasses", "PriorityClass"); ("runtimeclasses", "RuntimeClass"); ("leases", "Lease");
    ("resourcequotas", "ResourceQuota"); ("limitranges", "LimitRange");
    ("mutatingwebhookconfigurations", "MutatingWebhookConfiguration");
    ("validatingwebhookconfigurations", "ValidatingWebhookConfiguration");
    ("validatingadmissionpolicies", "ValidatingAdmissionPolicy");
    ("mutatingadmissionpolicies", "MutatingAdmissionPolicy"); ("pvcs", "PersistentVolumeClaim");
    ("pvs", "PersistentVolume"); ("storageclasses", "StorageClass"); ("volumeattachments", "VolumeAttachment");
    ("serviceaccounts", "ServiceAccount"); ("roles", "Role"); ("rolebindings", "RoleBinding");
    ("clusterroles", "ClusterRole"); ("clusterrolebindings", "ClusterRoleBinding"); ("nodes", "Node");
    ("namespaces", "Namespace"); ("events", "Event"); ("crds", "CustomResourceDefinition");
    ("gateways", "Gateway"); ("gatewayclasses", "GatewayClass"); ("httproutes", "HTTPRoute");
    ("grpcroutes", "GRPCRoute"); ("referencegrants", "ReferenceGrant");
    ("backendtlspolicies", "BackendTLSPolicy"); ("deviceclasses", "DeviceClass");
    ("resourceclaims", "ResourceClaim"); ("resourceclaimtemplates", "ResourceClaimTemplate");
    ("resourceslices", "ResourceSlice")].

Definition label (segment : string) : string := default segment (assoc segment KIND_LABELS).

(** [/^[^/]+/]: the characters before the first slash are taken off, if any. *)
Fixpoint dropHost (s : string) : string :=
  match s with
  | "" => ""
  | String c s' => if bool_decide (c = "/"%char) then s else dropHost s'
  end.

Definition stripHost (s : string) : option string :=
  match s with
  | "" => None
  | String c _ => if bool_decide (c = "/"%char) then None else Some (dropHost s)
  end.

(** [url.replace(/^https?:\/\/[^/]+/, '')] *)
Definition stripOrigin (url : string) : string :=
  let after p := if startsWith p url then stripHost (sdrop (String.length p) url) else None in
  match after "https://" with
  | Some r => r
  | None => match after "http://" with Some r => r | None => url end
  end.

(** [s.replace(/^p/, '')] for a literal prefix. *)
Definition stripPrefix (p s : string) : string :=
  if startsWith p s then sdrop (String.length p) s else s.

Definition urlParts (url : string) : list string :=
  let path := default "" (head (split "?" (stripOrigin url))) in
  filterb nonempty (split "/" (stripPrefix "/cluster/" (stripPrefix "/api/v1" path))).

Definition forbiddenResourceFromUrl (url : string) : string :=
  match urlParts url with
  | [] => "cluster resources"
  | p0 :: ps =>
      if eqs p0 "namespaces" then
        match ps with _ :: kind :: _ => label kind | _ => "Namespace" end
      else if eqs p0 "helm" then "Helm release"
      else if eqs p0 "custom-resources" then "custom resources"
      else if eqs p0 "gateway-policies" then "gateway policies"
      else label p0
  end.

Definition listSegmentFromUrl (url : string) : string :=
  match urlParts url with
  | [] => ""
  | p0 :: ps =>
      if eqs p0 "namespaces" then match ps with _ :: kind :: _ => kind | _ => "namespaces" end else p0
  end.

Definition BUILTIN_SEGMENTS : list string :=
  ["deviceclasses"; "resourceclaims"; "resourceclaimtemplates"; "resourceslices";
   "validatingadmissionpolicies"; "mutatingadmissionpolicies"].

Definition isBuiltinApi (segment : string) : bool := existsb (eqs segment) BUILTIN_SEGMENTS.

(** ** services/api/client.ts: what a finished request tells the page *)

Inductive listState := ok | notInstalled | error (code : option Z).
Record ListStatusDetail := { url : string; state : listState }.

(** The window events the interceptor dispatches. *)
Inductive windowEvent := LIST_STATUS_EVENT (detail : ListStatusDetail) | FORBIDDEN_EVENT (url : string).

(** A finished request, as the interceptor's two callbacks receive it: axios's
    error object with the response's status (none for a network failure), its
    body, and whether axios cancelled it. *)
Record ApiResponse := { resp_method : string; resp_url : string; resp_notInstalled : bool }.
Record ApiError := { err_method : string; err_url : string; err_status : option Z; err_data : value; err_cancel : bool }.

Definition isClusterRead (method url : string) : bool :=
  eqs (toLowerCase (if nonempty method then method else "get")) "get" && startsWith "/cluster/" url.

Definition METRICS_UNAVAILABLE : string := "metrics_unavailable".

Definition isMetricsUnavailableResponse (e : ApiError) : bool :=
  bool_decide (err_status e = Some 503%Z) &&
  (isStr (err_data e .@ "detail") METRICS_UNAVAILABLE
   || isStr (err_data e .@ "detail" .@ "code") METRICS_UNAVAILABLE
   || isStr (err_data e .@ "code") METRICS_UNAVAILABLE).

Definition onResponse (r : ApiResponse) : list windowEvent :=
  if isClusterRead (resp_method r) (resp_url r) then
    [LIST_STATUS_EVENT {| url := resp_url r; state := if resp_notInstalled r then notInstalled else ok |}]
  else [].

(** The events of a failed request, and whether the session is given up
    ([handleUnauthorized]). *)
Definition onError (e : ApiError) : bool * list windowEvent :=
  let isAuthRequest := startsWith "/auth/login" (err_url e) || startsWith "/auth/register" (err_url e)
                       || startsWith "/auth/me" (err_url e) in
  let unauthorized := bool_decide (err_status e = Some 401%Z) && negb isAuthRequest in
  let forbidden :=
    if bool_decide (err_status e = Some 403%Z) && eqs (toLowerCase (if nonempty (err_method e) then err_method e else "get")) "get"
       && startsWith "/cluster/" (err_url e) then [FORBIDDEN_EVENT (err_url e)] else [] in
  let failed :=
    if isClusterRead (err_method e) (err_url e)
       && (match err_status e with None => true | Some s => (500 <=? s)%Z end)
       && negb (err_cancel e) && negb (isMetricsUnavailableResponse e)
    then [LIST_STATUS_EVENT {| url := err_url e; state := error (err_status e) |}] else [] in
  (unauthorized, forbidden ++ failed).

(** ** services/listStatusStore.ts *)

Inductive ListStatus := NotInstalled | Error (code : option Z).
#[global] Instance ListStatus_eq_dec : EqDecision ListStatus.
Proof. solve_decision. Defined.

Record ListStore := { statuses : gmap string ListStatus; answered : gset string; lversion : nat }.
Definition listStore0 : ListStore := {| statuses := ∅; answered := ∅; lversion := 0 |}.

(** [markAnswered]: whether the segment's answer is news, and the set after it. *)
Definition markAnswered (seg : string) (st : ListStore) : bool * gset string :=
  if bool_decide (seg ∈ answered st) then (false, answered st) else (true, {[seg]} ∪ answered st).

Definition recordListStatus (d : ListStatusDetail) (st : ListStore) : ListStore :=
  let seg := listSegmentFromUrl (url d) in
  if negb (nonempty seg) then st else
  let '(first, ans) := markAnswered seg st in
  let prev := statuses st !! seg in
  let quiet := {| statuses := statuses st; answered := ans; lversion := lversion st |} in
  let loud ss := {| statuses := ss; answered := ans; lversion := S (lversion st) |} in
  match state d with
  | ok => if prev is Some _ then loud (delete seg (statuses st)) else if negb first then quiet else loud (statuses st)
  | notInstalled =>
      if bool_decide (prev = Some NotInstalled) && negb first then quiet
      else loud (<[seg := NotInstalled]> (statuses st))
  | error code =>
      if bool_decide (prev = Some (Error code)) && negb first then quiet
      else loud (<[seg := Error code]> (statuses st))
  end.

Definition recordListForbidden (u : string) (st : ListStore) : ListStore :=
  let seg := listSegmentFromUrl u in
  if nonempty seg then
    let '(first, ans) := markAnswered seg st in
    if first then {| statuses := statuses st; answered := ans; lversion := S (lversion st) |}
    else {| statuses := statuses st; answered := ans; lversion := lversion st |}
  else st.

Definition resetListStatus (st : ListStore) : ListStore :=
  if bool_decide (statuses st = ∅) && bool_decide (answered st = ∅) then st
  else {| statuses := ∅; answered := ∅; lversion := S (lversion st) |}.

Definition getListStatus (segment : string) (st : ListStore) : option ListStatus := statuses st !! segment.

Definition isKindServed (segment : string) (st : ListStore) : bool :=
  bool_decide (segment ∈ answered st) && negb (bool_decide (statuses st !! segment = Some NotInstalled)).

(** ** services/forbiddenStore.ts *)

Record ForbiddenStore := { segments : gset string; labels : gset string; fversion : nat }.
Definition forbiddenStore0 : ForbiddenStore := {| segments := ∅; labels := ∅; fversion := 0 |}.

Definition onForbidden (u : string) (st : ForbiddenStore) : ForbiddenStore :=
  let seg := listSegmentFromUrl u in
  let lab := forbiddenResourceFromUrl u in
  if nonempty seg && bool_decide (seg ∈ segments st) && bool_decide (lab ∈ labels st) then st
  else {| segments := if nonempty seg then {[seg]} ∪ segments st else segments st;
          labels := {[lab]} ∪ labels st; fversion := S (fversion st) |}.

Definition resetForbidden (st : ForbiddenStore) : ForbiddenStore :=
  if bool_decide (segments st = ∅) && bool_decide (labels st = ∅) then st
  else {| segments := ∅; labels := ∅; fversion := S (fversion st) |}.

Definition useForbidden (segment : string) (st : ForbiddenStore) : bool := bool_decide (segment ∈ segments st).

(** ** A page: both stores, and the events it hears *)

Record Page := { lists : ListStore; refusals : ForbiddenStore }.
Definition page0 : Page := {| lists := listStore0; refusals := forbiddenStore0 |}.

Definition hear (p : Page) (e : windowEvent) : Page :=
  match e with
  | LIST_STATUS_EVENT d =>
      {| lists := if nonempty (url d) then recordListStatus d (lists p) else lists p; refusals := refusals p |}
  | FORBIDDEN_EVENT u =>
      {| lists := if nonempty u then recordListForbidden u (lists p) else lists p; refusals := onForbidden u (refusals p) |}
  end.

Inductive outcome := Answered (r : ApiResponse) | Failed (e : ApiError).
Definition eventsOf (o : outcome) : list windowEvent :=
  match o with Answered r => onResponse r | Failed e => (onError e).2 end.
Definition finish (p : Page) (o : outcome) : Page := foldl hear p (eventsOf o).
Definition finishAll (p : Page) (os : list outcome) : Page := foldl finish p os.

(** Every route or cluster change starts the page over. *)
Definition leave (p : Page) : Page := {| lists := resetListStatus (lists p); refusals := resetForbidden (refusals p) |}.

(** ** Lemmas *)

(** What an event says of a segment's list: its status (none when it answered
    well), and whether it answered at all, a refusal included. *)
Definition says (seg : string) (e : windowEvent) : option (option ListStatus) :=
  match e with
  | LIST_STATUS_EVENT d =>
      if nonempty seg && eqs (listSegmentFromUrl (url d)) seg then
        Some (match state d with ok => None | notInstalled => Some NotInstalled | error c => Some (Error c) end)
      else None
  | FORBIDDEN_EVENT _ => None
  end.

Definition answers (seg : string) (e : windowEvent) : bool :=
  nonempty seg && eqs (listSegmentFromUrl (match e with LIST_STATUS_EVENT d => url d | FORBIDDEN_EVENT u => u end)) seg.

Definition refuses (seg : string) (e : windowEvent) : bool :=
  match e with FORBIDDEN_EVENT _ => answers seg e | _ => false end.

Lemma segment_empty_url u : nonempty u = false → listSegmentFromUrl u = "".
Proof. unfold nonempty. intros Hu%negb_false_iff%eqs_true. by subst. Qed.

Lemma markAnswered_snd seg st : (markAnswered seg st).2 = {[seg]} ∪ answered st.
Proof. unfold markAnswered. case_bool_decide; simpl; [set_solver|done]. Qed.

Lemma recordListStatus_answered d st :
  answered (recordListStatus d st) =
    if nonempty (listSegmentFromUrl (url d)) then {[listSegmentFromUrl (url d)]} ∪ answered st else answered st.
Proof.
  unfold recordListStatus. destruct (nonempty _); [|done]; simpl.
  rewrite <-markAnswered_snd. destruct (markAnswered _ _) as [first ans]; simpl.
  destruct (state d), (statuses st !! _), first; simpl; by repeat case_bool_decide.
Qed.

Lemma recordListStatus_statuses d st seg :
  statuses (recordListStatus d st) !! seg =
    match says seg (LIST_STATUS_EVENT d) with Some v => v | None => statuses st !! seg end.
Proof.
  unfold recordListStatus, says. destruct (nonempty (listSegmentFromUrl (url d))) eqn:En; simpl.
  - destruct (markAnswered _ _) as [first ans]. destruct (eqs _ seg) eqn:Es.
    + apply eqs_true in Es. rewrite Es in *. rewrite En. simpl.
      destruct (state d) as [| |c].
      * destruct (statuses st !! seg) eqn:E; simpl; [by rewrite lookup_delete_eq|by destruct first].
      * case_bool_decide as Ep; destruct first; simpl; by rewrite ?lookup_insert_eq.
      * case_bool_decide as Ep; destruct first; simpl; by rewrite ?lookup_insert_eq.
    + apply eqs_false in Es. rewrite andb_false_r.
      destruct (state d), (statuses st !! listSegmentFromUrl (url d)), first; simpl; repeat case_bool_decide; simpl;
        by rewrite ?lookup_insert_ne, ?lookup_delete_ne by done.
  - destruct (eqs _ seg) eqn:Es; [|by rewrite andb_false_r].
    apply eqs_true in Es as <-. by rewrite En.
Qed.

Lemma recordListForbidden_statuses u st : statuses (recordListForbidden u st) = statuses st.
Proof. unfold recordListForbidden. destruct (nonempty _); [|done]. by destruct (markAnswered _ _) as [[] ?]. Qed.

Lemma recordListForbidden_answered u st :
  answered (recordListForbidden u st) =
    if nonempty (listSegmentFromUrl u) then {[listSegmentFromUrl u]} ∪ answered st else answered st.
Proof.
  unfold recordListForbidden. destruct (nonempty _); [|done]. rewrite <-markAnswered_snd.
  by destruct (markAnswered _ _) as [[] ?].
Qed.

Lemma onForbidden_segments u st :
  segments (onForbidden u st) = if nonempty (listSegmentFromUrl u) then {[listSegmentFromUrl u]} ∪ segments st else segments st.
Proof.
  unfold onForbidden. destruct (nonempty _); simpl; [|done].
  case_bool_decide; simpl; [|done]. case_bool_decide; simpl; [set_solver|done].
Qed.

Lemma hear_statuses p e seg :
  statuses (lists (hear p e)) !! seg = match says seg e with Some v => v | None => statuses (lists p) !! seg end.
Proof.
  destruct e as [d|u]; simpl hear; simpl lists.
  - destruct (nonempty (url d)) eqn:En; [apply recordListStatus_statuses|].
    unfold says. apply segment_empty_url in En. rewrite En.
    destruct (eqs "" seg) eqn:E; [apply eqs_true in E as <-; done|by rewrite andb_false_r].
  - destruct (nonempty u); [by rewrite recordListForbidden_statuses|done].
Qed.

Lemma in_marked (x seg : string) (s : gset string) :
  x ≠ "" → (x ∈ (if nonempty seg then {[seg]} ∪ s else s) ↔ (nonempty x && eqs seg x) = true ∨ x ∈ s).
Proof.
  intros Hx. rewrite andb_true_iff, eqs_true, nonempty_true.
  destruct (nonempty seg) eqn:E; [set_solver|].
  apply negb_false_iff, eqs_true in E. set_solver.
Qed.

Lemma hear_answered p e seg :
  seg ≠ "" → seg ∈ answered (lists (hear p e)) ↔ answers seg e = true ∨ seg ∈ answered (lists p).
Proof.
  intros Hs. unfold answers. destruct e as [d|u]; simpl.
  - rewrite <-in_marked by done. destruct (nonempty (url d)) eqn:En; [by rewrite recordListStatus_answered|].
    by rewrite segment_empty_url.
  - rewrite <-in_marked by done. destruct (nonempty u) eqn:En; [by rewrite recordListForbidden_answered|].
    by rewrite segment_empty_url.
Qed.

Lemma hear_refused p e seg :
  seg ≠ "" → seg ∈ segments (refusals (hear p e)) ↔ refuses seg e = true ∨ seg ∈ segments (refusals p).
Proof.
  intros Hs. unfold refuses, answers. destruct e as [d|u]; simpl; [naive_solver|].
  by rewrite <-in_marked, onForbidden_segments by done.
Qed.

Lemma finishAll_events p os : finishAll p os = foldl hear p (os ≫= eventsOf).
Proof.
  unfold finishAll. revert p. induction os as [|o os IH]; intros p; [done|].
  simpl. rewrite foldl_app, IH. done.
Qed.

(** The status of an answered list only exists for a segment that answered. *)
Definition coherent (st : ListStore) : Prop := dom (statuses st) ⊆ answered st.

Lemma recordListStatus_coherent d st : coherent st → coherent (recordListStatus d st).
Proof.
  unfold coherent. intros Hc seg [s Hs]%elem_of_dom.
  rewrite recordListStatus_statuses in Hs. rewrite recordListStatus_answered. unfold says in Hs.
  destruct (nonempty seg && eqs (listSegmentFromUrl (url d)) seg) eqn:E.
  - apply andb_true_iff in E as [En Ee%eqs_true]. rewrite Ee, En. apply elem_of_union; left. by apply elem_of_singleton.
  - assert (seg ∈ answered st) by (apply Hc, elem_of_dom; eauto). destruct (nonempty (listSegmentFromUrl (url d))); [apply elem_of_union; by right|done].
Qed.

Definition quietly (st st' : ListStore) : Prop := st' = st.
Definition aloud (st st' : ListStore) : Prop :=
  lversion st' = S (lversion st) ∧ (statuses st' ≠ statuses st ∨ answered st' ≠ answered st).

Lemma insert_news (m : gmap string ListStatus) k v : m !! k ≠ Some v → <[k := v]> m ≠ m.
Proof. intros H Heq. apply H. by rewrite <-Heq, lookup_insert_eq. Qed.

Lemma recordListStatus_exact d st :
  coherent st → quietly st (recordListStatus d st) ∨ aloud st (recordListStatus d st).
Proof.
  intros Hc. unfold quietly, aloud, recordListStatus. destruct (nonempty _); [|by left]. simpl.
  unfold markAnswered. set (seg := listSegmentFromUrl (url d)). case_bool_decide as Ea; simpl.
  - destruct (state d) as [| |c]; simpl.
    + destruct (statuses st !! seg) eqn:E; simpl; [right|left; by destruct st].
      split; [done|]. left. intros Heq. by rewrite <-Heq, lookup_delete_eq in E.
    + case_bool_decide as Ep; simpl; [left; by destruct st|right]. split; [done|]. left. by apply insert_news.
    + case_bool_decide as Ep; simpl; [left; by destruct st|right]. split; [done|]. left. by apply insert_news.
  - assert (En : {[seg]} ∪ answered st ≠ answered st) by (intros Heq; apply Ea; rewrite <-Heq; set_solver).
    right. destruct (state d) as [| |c]; simpl; rewrite ?andb_false_r; simpl; try (by auto).
    by destruct (statuses st !! seg); simpl; auto.
Qed.

(** * Properties *)

(** A page's lists say how their requests ended: for every sequence of
    finished requests, a segment's status is the one its last telling request
    left (none after a good answer, "not installed", or an error with its code,
    a refusal saying nothing), a segment has answered exactly when some request
    of its list answered or was refused, and it is refused exactly when one was. *)
Theorem page_follows_requests (p : Page) os seg :
  seg ≠ "" →
  let es := os ≫= eventsOf in
  let p' := finishAll p os in
  getListStatus seg (lists p') = (match last (omap (says seg) es) with Some v => v | None => getListStatus seg (lists p) end) ∧
  (seg ∈ answered (lists p') ↔ (∃ e, e ∈ es ∧ answers seg e = true) ∨ seg ∈ answered (lists p)) ∧
  (useForbidden seg (refusals p') = true ↔ (∃ e, e ∈ es ∧ refuses seg e = true) ∨ useForbidden seg (refusals p) = true).
Proof.
  intros Hs es p'. unfold p'. rewrite finishAll_events. fold es. clear p'. generalize es. clear es os.
  unfold getListStatus, useForbidden. intros es. rewrite !bool_decide_eq_true.
  induction es as [|e es IH] using rev_ind; [simpl; set_solver|].
  destruct IH as (IH1 & IH2 & IH3). rewrite foldl_app. simpl. rewrite omap_app, last_app. simpl.
  rewrite hear_statuses, hear_answered, hear_refused, IH1, IH2, IH3 by done. split_and!.
  - by destruct (says seg e).
  - setoid_rewrite elem_of_app. setoid_rewrite list_elem_of_singleton. naive_solver.
  - setoid_rewrite elem_of_app. setoid_rewrite list_elem_of_singleton. naive_solver.
Qed.

Lemma page_follows_requests_witness :
  getListStatus "vpas" (lists (finishAll page0
    [Failed {| err_method := "get"; err_url := "/cluster/vpas/all"; err_status := Some 502%Z; err_data := VUndef; err_cancel := false |};
     Answered {| resp_method := "get"; resp_url := "/cluster/vpas/all"; resp_notInstalled := true |}])) = Some NotInstalled.
Proof.
  refine (eq_trans (proj1 (page_follows_requests page0 _ "vpas" _)) _); [discriminate|]. vm_compute. reflexivity.
Defined.

(** A create button of a CRD-backed page shows only once its list has
    answered on this page and the cluster serves its kind, and leaving the page
    takes it away: after [leave] nothing has answered and nothing is refused. *)
Theorem kind_served_after_answer (p : Page) os seg :
  seg ≠ "" →
  (isKindServed seg (lists (finishAll (leave p) os)) = true ↔
    (∃ e, e ∈ os ≫= eventsOf ∧ answers seg e = true) ∧
    last (omap (says seg) (os ≫= eventsOf)) ≠ Some (Some NotInstalled)) ∧
  (useForbidden seg (refusals (leave p)) = false).
Proof.
  intros Hs. rewrite finishAll_events.
  assert (H0 : statuses (lists (leave p)) = ∅ ∧ answered (lists (leave p)) = ∅ ∧ segments (refusals (leave p)) = ∅).
  { simpl. unfold resetListStatus, resetForbidden. split_and!; repeat case_bool_decide; done. }
  destruct H0 as (Hst & Han & Hseg). split; [|unfold useForbidden; rewrite Hseg; by apply bool_decide_eq_false].
  generalize (os ≫= eventsOf). intros es. unfold isKindServed.
  rewrite andb_true_iff, negb_true_iff, bool_decide_eq_true, bool_decide_eq_false.
  assert (HH : (seg ∈ answered (lists (foldl hear (leave p) es)) ↔ ∃ e, e ∈ es ∧ answers seg e = true) ∧
    statuses (lists (foldl hear (leave p) es)) !! seg = match last (omap (says seg) es) with Some v => v | None => None end).
  { induction es as [|e es IH] using rev_ind.
    - change (foldl hear (leave p) []) with (leave p). change (omap (says seg) []) with (@nil (option ListStatus)).
      rewrite Han, Hst, lookup_empty. set_solver.
    - destruct IH as [IH1 IH2]. rewrite foldl_app, omap_app, last_app. simpl.
      rewrite hear_answered, hear_statuses, IH1, IH2 by done. split; [|by destruct (says seg e)].
      setoid_rewrite elem_of_app. setoid_rewrite list_elem_of_singleton. naive_solver. }
  destruct HH as [-> ->]. destruct (last _) as [[]|]; naive_solver.
Qed.

Lemma kind_served_after_answer_witness :
  isKindServed "vpas" (lists (finishAll (leave page0)
    [Failed {| err_method := ""; err_url := "/cluster/vpas/all"; err_status := Some 403%Z; err_data := VUndef; err_cancel := false |}])) = true.
Proof.
  refine (proj2 (proj1 (kind_served_after_answer page0 _ "vpas" _)) _); [discriminate|].
  split; [|vm_compute; discriminate].
  exists (FORBIDDEN_EVENT "/cluster/vpas/all"). split; [|vm_compute; reflexivity].
  vm_compute. left.
Defined.

(** The list screens are told of every change and of nothing else: in
    every store reachable from the empty one, recording a list's outcome either
    leaves the store as it was or moves its version by one with a status or an
    answer changed. *)
Theorem list_version_exact (ds : list ListStatusDetail) d :
  let st := foldl (λ st d, recordListStatus d st) listStore0 ds in
  coherent st ∧ (quietly st (recordListStatus d st) ∨ aloud st (recordListStatus d st)).
Proof.
  intros st. assert (Hc : coherent st); [|split; [done|by apply recordListStatus_exact]].
  unfold st. clear st. induction ds as [|d' ds IH] using rev_ind; [unfold coherent; simpl; set_solver|].
  rewrite foldl_app. by apply recordListStatus_coherent.
Qed.
