(* ===== verification/WatchMux.v ===== *)
(** * The watch multiplexer

    services/watchMultiplexer.ts: one WebSocket carries every watch of the
    page.  The class's fields, the sockets it made and the promises it waits on
    are a state; each atomic turn of the code (a call, a socket event, a timer,
    the continuation of an [await]) is a step.  The frames it dispatches are
    recorded in the store of [WatchProblems]. *)

From S2P Require Import Prelude JsString WatchRows WatchProblems.

Inductive MessageType := REQUEST | CLOSE.
#[global] Instance MessageType_eq_dec : EqDecision MessageType.
Proof. solve_decision. Defined.

Record ClientMessage := { mtype : MessageType; clusterId : string; path : string; query : string; userId : option string }.
#[global] Instance ClientMessage_eq_dec : EqDecision ClientMessage.
Proof. solve_decision. Defined.

(** A server frame and what it names; an older server leaves the cluster out. *)
Record ServerMessage (E : Type) := { sm_cluster : option string; sm_path : string; sm_query : string; sm_frame : frame E }.
Arguments sm_cluster {E}.
Arguments sm_path {E}.
Arguments sm_query {E}.
Arguments sm_frame {E}.

Definition makeKey (cluster path query : string) : string := cluster +:+ nl +:+ path +:+ "?" +:+ query.
Definition keyOf (msg : ClientMessage) : string := makeKey (clusterId msg) (path msg) (query msg).

Inductive readyState := CONNECTING | OPEN | CLOSING | CLOSED.
#[global] Instance readyState_eq_dec : EqDecision readyState.
Proof. solve_decision. Defined.

(** SESSION_ENDED_CLOSE_CODE of services/auth.ts. *)
Definition SESSION_ENDED_CLOSE_CODE : Z := 4401.

Section mux.
Context {E : Type}.

(** A [subscribe] call past [await this.connect()]: the socket it got, its
    message and listener, and [wasOpenBefore && wasNewSubscription]. *)
Record Resume := { r_socket : nat; r_msg : ClientMessage; r_listener : nat; r_ask : bool }.

Record Mux := {
  socket : option nat;
  listeners : gmap string (list nat);
  subscriptions : list (string * ClientMessage);   (* a Map, in insertion order *)
  connecting : option nat;
  reconnectTimer : bool;
  reconnectAttempts : nat;
  lastSessionEnd : Z;
  (* the world of the class *)
  sockets : list readyState;                       (* every socket made, by number *)
  sent : list (nat * ClientMessage);               (* what each socket was sent *)
  resumes : list Resume;                           (* continuations of subscribe *)
  checks : nat;                                    (* liveSessionEnded calls awaited *)
  signedOut : bool;                                (* one resolved to false *)
  problemStore : ProblemStore;
  deliveries : list (nat * ServerMessage E)        (* listener calls *)
}.

Definition mux0 : Mux := {|
  socket := None; listeners := ∅; subscriptions := []; connecting := None; reconnectTimer := false;
  reconnectAttempts := 0; lastSessionEnd := 0; sockets := []; sent := []; resumes := []; checks := 0;
  signedOut := false; problemStore := problems0; deliveries := [] |}.

Definition stateOf (m : Mux) (i : nat) : option readyState := sockets m !! i.
Definition isOpen (m : Mux) (i : nat) : bool := bool_decide (stateOf m i = Some OPEN).

(** The delay before reconnect attempt [attempts], in milliseconds. *)
Definition getReconnectDelay (attempts : nat) : Z := Z.min (1000 * 2 ^ Z.of_nat attempts) 30000.

Definition scheduleReconnect (m : Mux) : Mux :=
  if reconnectTimer m then m
  else if bool_decide (subscriptions m = []) then m
  else {| socket := socket m; listeners := listeners m; subscriptions := subscriptions m; connecting := connecting m;
          reconnectTimer := true; reconnectAttempts := reconnectAttempts m; lastSessionEnd := lastSessionEnd m;
          sockets := sockets m; sent := sent m; resumes := resumes m; checks := checks m; signedOut := signedOut m;
          problemStore := problemStore m; deliveries := deliveries m |}.

(** [new WebSocket(wsUrl)], kept in [this.socket] and awaited in [this.connecting]. *)
Definition newSocket (m : Mux) : Mux :=
  let i := length (sockets m) in
  {| socket := Some i; listeners := listeners m; subscriptions := subscriptions m; connecting := Some i;
     reconnectTimer := reconnectTimer m; reconnectAttempts := reconnectAttempts m; lastSessionEnd := lastSessionEnd m;
     sockets := sockets m ++ [CONNECTING]; sent := sent m; resumes := resumes m; checks := checks m;
     signedOut := signedOut m; problemStore := problemStore m; deliveries := deliveries m |}.

(** The part of [connect] before its first [await]: the socket the call waits
    for, a new one when none is open, opening or being connected. *)
Definition connect (m : Mux) : Mux * nat :=
  let ifConnecting := match connecting m with Some j => (m, j) | None => (newSocket m, length (sockets m)) end in
  match socket m with
  | Some i =>
      if isOpen m i then (m, i)
      else if bool_decide (stateOf m i = Some CONNECTING) then (m, i)
      else ifConnecting
  | None => ifConnecting
  end.

(** [Map.prototype.set] on insertion-ordered entries. *)
Fixpoint mapSet (k : string) (v : ClientMessage) (l : list (string * ClientMessage)) : list (string * ClientMessage) :=
  match l with
  | [] => [(k, v)]
  | (k', v') :: l' => if eqs k k' then (k', v) :: l' else (k', v') :: mapSet k v l'
  end.

Definition mapDelete (k : string) (l : list (string * ClientMessage)) : list (string * ClientMessage) :=
  filter (λ kv, kv.1 ≠ k) l.

(** [Set.prototype.add]. *)
Definition setAdd (x : nat) (l : list nat) : list nat := if bool_decide (x ∈ l) then l else l ++ [x].

Definition subscribed (m : Mux) (k : string) : bool := bool_decide (k ∈ (subscriptions m).*1).

(** [subscribe] up to [await this.connect()].  When the socket was open before,
    the call resumes at once and may ask for its watch; otherwise the socket's
    opening asks for every subscription and the continuation does nothing. *)
Definition subscribe (msg : ClientMessage) (onMessage : nat) (m : Mux) : Mux :=
  let key := keyOf msg in
  let set := default [] (listeners m !! key) in
  let wasNewSubscription := negb (subscribed m key) in
  let wasOpenBefore := match socket m with Some i => isOpen m i | None => false end in
  let m1 :=
    {| socket := socket m; listeners := <[key := setAdd onMessage set]> (listeners m);
       subscriptions := mapSet key msg (subscriptions m); connecting := connecting m;
       reconnectTimer := reconnectTimer m; reconnectAttempts := reconnectAttempts m; lastSessionEnd := lastSessionEnd m;
       sockets := sockets m; sent := sent m; resumes := resumes m; checks := checks m; signedOut := signedOut m;
       problemStore := problemStore m; deliveries := deliveries m |} in
  let '(m2, i) := connect m1 in
  if wasOpenBefore then
    {| socket := socket m2; listeners := listeners m2; subscriptions := subscriptions m2; connecting := connecting m2;
       reconnectTimer := reconnectTimer m2; reconnectAttempts := reconnectAttempts m2; lastSessionEnd := lastSessionEnd m2;
       sockets := sockets m2; sent := sent m2;
       resumes := resumes m2 ++ [{| r_socket := i; r_msg := msg; r_listener := onMessage; r_ask := wasNewSubscription |}];
       checks := checks m2; signedOut := signedOut m2; problemStore := problemStore m2; deliveries := deliveries m2 |}
  else m2.

Definition hasListener (m : Mux) (key : string) (l : nat) : bool :=
  match listeners m !! key with Some ls => bool_decide (l ∈ ls) | None => false end.

(** The rest of [subscribe]: the oldest continuation runs.  On a socket that is
    no longer open it waits for an opening that does not come. *)
Definition resume (m : Mux) : option Mux :=
  match resumes m with
  | [] => None
  | r :: rs =>
      let ask := isOpen m (r_socket r) && (r_ask r && hasListener m (keyOf (r_msg r)) (r_listener r)) in
      Some {| socket := socket m; listeners := listeners m; subscriptions := subscriptions m; connecting := connecting m;
              reconnectTimer := reconnectTimer m; reconnectAttempts := reconnectAttempts m; lastSessionEnd := lastSessionEnd m;
              sockets := sockets m; sent := if ask then sent m ++ [(r_socket r, r_msg r)] else sent m; resumes := rs;
              checks := checks m; signedOut := signedOut m; problemStore := problemStore m; deliveries := deliveries m |}
  end.

Definition closeOf (msg : ClientMessage) : ClientMessage :=
  {| mtype := CLOSE; clusterId := clusterId msg; path := path msg; query := query msg; userId := userId msg |}.

Definition unsubscribe (msg : ClientMessage) (onMessage : nat) (m : Mux) : Mux :=
  let key := keyOf msg in
  match listeners m !! key with
  | None => m
  | Some ls =>
      let ls' := filter (λ l, l ≠ onMessage) ls in
      if bool_decide (ls' = []) then
        {| socket := socket m; listeners := delete key (listeners m); subscriptions := mapDelete key (subscriptions m);
           connecting := connecting m; reconnectTimer := reconnectTimer m; reconnectAttempts := reconnectAttempts m;
           lastSessionEnd := lastSessionEnd m; sockets := sockets m;
           sent := match socket m with Some i => if isOpen m i then sent m ++ [(i, closeOf msg)] else sent m | None => sent m end;
           resumes := resumes m; checks := checks m; signedOut := signedOut m;
           problemStore := clearWatchProblem key (problemStore m); deliveries := deliveries m |}
      else
        {| socket := socket m; listeners := <[key := ls']> (listeners m); subscriptions := subscriptions m;
           connecting := connecting m; reconnectTimer := reconnectTimer m; reconnectAttempts := reconnectAttempts m;
           lastSessionEnd := lastSessionEnd m; sockets := sockets m; sent := sent m; resumes := resumes m;
           checks := checks m; signedOut := signedOut m; problemStore := problemStore m; deliveries := deliveries m |}
  end.

(** A socket's 'open' event: the promise its [connect] made goes on, whatever
    [this.socket] is by then. *)
Definition opened (i : nat) (m : Mux) : option Mux :=
  if bool_decide (stateOf m i = Some CONNECTING) then
    Some {| socket := socket m; listeners := listeners m; subscriptions := subscriptions m; connecting := None;
            reconnectTimer := reconnectTimer m; reconnectAttempts := 0; lastSessionEnd := lastSessionEnd m;
            sockets := <[i := OPEN]> (sockets m);
            sent := sent m ++ ((λ kv, (i, kv.2)) <$> subscriptions m);
            resumes := resumes m; checks := checks m; signedOut := signedOut m;
            problemStore := foldl (λ st k, clearWatchProblem k st) (problemStore m) (subscriptions m).*1;
            deliveries := deliveries m |}
  else None.

(** The closing handshake of an open socket begins. *)
Definition closing (i : nat) (m : Mux) : option Mux :=
  if isOpen m i then
    Some {| socket := socket m; listeners := listeners m; subscriptions := subscriptions m; connecting := connecting m;
            reconnectTimer := reconnectTimer m; reconnectAttempts := reconnectAttempts m; lastSessionEnd := lastSessionEnd m;
            sockets := <[i := CLOSING]> (sockets m); sent := sent m; resumes := resumes m; checks := checks m;
            signedOut := signedOut m; problemStore := problemStore m; deliveries := deliveries m |}
  else None.

(** A socket's 'close' event ([onclose]).  A connection that never opened also
    rejects its [connect], whose [scheduleReconnect] finds the timer set. *)
Definition closed (i : nat) (code now : Z) (m : Mux) : option Mux :=
  match stateOf m i with
  | None | Some CLOSED => None
  | Some st =>
      let ended := bool_decide (code = SESSION_ENDED_CLOSE_CODE) in
      if ended && bool_decide (st = CONNECTING) then None else
      let m1 :=
        {| socket := None; listeners := listeners m; subscriptions := subscriptions m; connecting := None;
           reconnectTimer := reconnectTimer m; reconnectAttempts := reconnectAttempts m;
           lastSessionEnd := if ended then now else lastSessionEnd m;
           sockets := <[i := CLOSED]> (sockets m); sent := sent m; resumes := resumes m;
           checks := if ended then S (checks m) else checks m;
           signedOut := signedOut m; problemStore := problemStore m; deliveries := deliveries m |} in
      Some (if ended then m1 else scheduleReconnect m1)
  end.

(** A [liveSessionEnded] promise resolves. *)
Definition sessionVerdict (reopen : bool) (m : Mux) : option Mux :=
  match checks m with
  | 0 => None
  | S n =>
      let m1 :=
        {| socket := socket m; listeners := listeners m; subscriptions := subscriptions m; connecting := connecting m;
           reconnectTimer := reconnectTimer m; reconnectAttempts := reconnectAttempts m; lastSessionEnd := lastSessionEnd m;
           sockets := sockets m; sent := sent m; resumes := resumes m; checks := n;
           signedOut := signedOut m || negb reopen; problemStore := problemStore m; deliveries := deliveries m |} in
      Some (if reopen then scheduleReconnect m1 else m1)
  end.

(** The reconnect timer's callback. *)
Definition timerFired (m : Mux) : option Mux :=
  if reconnectTimer m then
    Some (connect
      {| socket := socket m; listeners := listeners m; subscriptions := subscriptions m; connecting := connecting m;
         reconnectTimer := false; reconnectAttempts := S (reconnectAttempts m); lastSessionEnd := lastSessionEnd m;
         sockets := sockets m; sent := sent m; resumes := resumes m; checks := checks m; signedOut := signedOut m;
         problemStore := problemStore m; deliveries := deliveries m |}).1
  else None.

(** One key's share of [dispatch]: its problem is recorded and its listeners called. *)
Definition deliver (key : string) (msg : ServerMessage E) (m : Mux) : Mux :=
  {| socket := socket m; listeners := listeners m; subscriptions := subscriptions m; connecting := connecting m;
     reconnectTimer := reconnectTimer m; reconnectAttempts := reconnectAttempts m; lastSessionEnd := lastSessionEnd m;
     sockets := sockets m; sent := sent m; resumes := resumes m; checks := checks m; signedOut := signedOut m;
     problemStore := recordWatchFrame key (sm_frame msg) (problemStore m);
     deliveries := deliveries m ++ ((λ l, (l, msg)) <$> default [] (listeners m !! key)) |}.

Definition dispatch (msg : ServerMessage E) (m : Mux) : Mux :=
  match sm_cluster msg with
  | Some (String _ _ as c) =>
      let key := makeKey c (sm_path msg) (sm_query msg) in
      if bool_decide (is_Some (listeners m !! key)) then deliver key msg m else m
  | _ =>
      foldl (λ m' kv, if eqs (path kv.2) (sm_path msg) && eqs (query kv.2) (sm_query msg) then deliver kv.1 msg m' else m')
        m (subscriptions m)
  end.

(** ** Steps and runs *)

Inductive action :=
  | Subscribe (msg : ClientMessage) (l : nat)
  | Unsubscribe (msg : ClientMessage) (l : nat)
  | Resumed
  | Opened (i : nat)
  | Closing (i : nat)
  | Closed (i : nat) (code now : Z)
  | Verdict (reopen : bool)
  | TimerFired
  | Message (i : nat) (msg : ServerMessage E).

Definition step (m : Mux) (a : action) : option Mux :=
  match a with
  | Subscribe msg l => if bool_decide (mtype msg = REQUEST) then Some (subscribe msg l m) else None
  | Unsubscribe msg l => Some (unsubscribe msg l m)
  | Resumed => resume m
  | Opened i => opened i m
  | Closing i => closing i m
  | Closed i code now => closed i code now m
  | Verdict reopen => sessionVerdict reopen m
  | TimerFired => timerFired m
  | Message i msg => if isOpen m i then Some (dispatch msg m) else None
  end.

Fixpoint run (m : Mux) (acts : list action) : option Mux :=
  match acts with
  | [] => Some m
  | a :: acts => step m a ≫= λ m', run m' acts
  end.

(** The states some run of the class reaches. *)
Inductive reachable : Mux → Prop :=
  | reach_init : reachable mux0
  | reach_step m a m' : reachable m → step m a = Some m' → reachable m'.

End mux.
Arguments Mux : clear implicits.
Arguments action : clear implicits.

(** ** Lemmas: the two maps of subscriptions *)

Lemma mapSet_keys k v l : (mapSet k v l).*1 = if bool_decide (k ∈ l.*1) then l.*1 else l.*1 ++ [k].
Proof.
  induction l as [|[k' v'] l IH]; [done|]. simpl. destruct (eqs k k') eqn:E.
  - apply eqs_true in E as ->. csimpl. rewrite bool_decide_true; [done|left].
  - apply eqs_false in E. csimpl. rewrite IH. repeat case_bool_decide; set_solver.
Qed.

Lemma elem_of_mapSet k v l x : NoDup l.*1 → x ∈ mapSet k v l ↔ x = (k, v) ∨ (x ∈ l ∧ x.1 ≠ k).
Proof.
  induction l as [|[k' v'] l IH]; intros Hnd; [set_solver|]. csimpl in Hnd. apply NoDup_cons in Hnd as [Hk Hnd]. simpl.
  destruct (eqs k k') eqn:E; rewrite !elem_of_cons.
  - apply eqs_true in E as ->. split; [|naive_solver].
    intros [->|Hx]; [by left|]. right. split; [by right|]. intros <-. apply Hk. by apply list_elem_of_fmap_2.
  - apply eqs_false in E. rewrite IH by done. split; [|naive_solver]. intros [->|[->|[??]]]; naive_solver.
Qed.

Lemma elem_of_mapDelete k l x : x ∈ mapDelete k l ↔ x ∈ l ∧ x.1 ≠ k.
Proof. unfold mapDelete. rewrite list_elem_of_filter. naive_solver. Qed.

Lemma elem_of_mapDelete_keys k l x : x ∈ (mapDelete k l).*1 ↔ x ∈ l.*1 ∧ x ≠ k.
Proof.
  rewrite !list_elem_of_fmap. split.
  - intros (y & -> & [? ?]%elem_of_mapDelete). eauto.
  - intros [(y & -> & ?) ?]. exists y. by rewrite elem_of_mapDelete.
Qed.

Lemma NoDup_mapSet k v l : NoDup l.*1 → NoDup (mapSet k v l).*1.
Proof.
  intros H. rewrite mapSet_keys. case_bool_decide; [done|]. apply NoDup_app. split_and!; [done| |apply NoDup_singleton].
  set_solver.
Qed.

Lemma NoDup_mapDelete k l : NoDup l.*1 → NoDup (mapDelete k l).*1.
Proof. intros H. apply (sublist_NoDup _ _ H). apply fmap_sublist, sublist_filter. Qed.

Lemma elem_of_setAdd x y l : x ∈ setAdd y l ↔ x = y ∨ x ∈ l.
Proof. unfold setAdd. case_bool_decide; set_solver. Qed.

Lemma NoDup_setAdd x l : NoDup l → NoDup (setAdd x l).
Proof. intros H. unfold setAdd. case_bool_decide; [done|]. apply NoDup_app. split_and!; [done|set_solver|apply NoDup_singleton]. Qed.

Lemma clears_problems ks st k :
  problems (foldl (λ st k, clearWatchProblem k st) st ks) !! k = if bool_decide (k ∈ ks) then None else problems st !! k.
Proof.
  revert st. induction ks as [|k' ks IH]; intros st; [done|]. simpl. rewrite IH, clear_problems.
  destruct (decide (k = k')) as [->|]; repeat case_bool_decide; rewrite ?lookup_delete_eq, ?lookup_delete_ne by done; set_solver.
Qed.

Lemma record_keys {E} k key (f : frame E) st :
  is_Some (problems (recordWatchFrame key f st) !! k) → k = key ∨ is_Some (problems st !! k).
Proof.
  rewrite record_problems. destruct (decide (k = key)) as [->|Hk]; [by left|].
  destruct f as [|r| |]; [|destruct (problemOf r)| |]; rewrite ?lookup_delete_ne, ?lookup_insert_ne by done; tauto.
Qed.

Lemma makeKey_inj c p q c' p' q' :
  free_of "010" c → free_of "010" c' → free_of "?" p → free_of "?" p' →
  makeKey c p q = makeKey c' p' q' → c = c' ∧ p = p' ∧ q = q'.
Proof.
  intros Hc Hc' Hp Hp' H. unfold makeKey, nl in H. rewrite !app_cons_s, !app_nil_l_s in H.
  assert (Hi := f_equal (indexOf nl) H). unfold nl in Hi. rewrite !indexOf_char in Hi by done. injection Hi as Hi.
  assert (Hd := f_equal (sdrop (String.length c)) H). rewrite sdrop_app, Hi, sdrop_app in Hd.
  assert (Ht := f_equal (stake (String.length c)) H). rewrite stake_app, Hi, stake_app in Ht.
  injection Hd as Hd. assert (Hj := f_equal (indexOf (String "?" "")) Hd). rewrite !indexOf_char in Hj by done.
  injection Hj as Hj. assert (He := f_equal (sdrop (String.length p)) Hd). rewrite sdrop_app, Hj, sdrop_app in He.
  assert (Hf := f_equal (stake (String.length p)) Hd). rewrite stake_app, Hj, stake_app in Hf.
  by injection He as ->.
Qed.

(** ** The invariants of every run *)

Section invariants.
Context {E : Type}.
Implicit Types m : Mux E.

(** The keys the server watches for a socket: what it was last sent for each. *)
Definition watching (i : nat) (l : list (nat * ClientMessage)) : gset string :=
  foldl (λ W im, if bool_decide (im.1 = i)
                 then match mtype im.2 with REQUEST => {[keyOf im.2]} ∪ W | CLOSE => W ∖ {[keyOf im.2]} end
                 else W) ∅ l.

(** [listeners] and [subscriptions] are one table of keys, each with at least
    one listener, and only its keys have problems. *)
Record tables m := {
  t_keys k : k ∈ (subscriptions m).*1 ↔ is_Some (listeners m !! k);
  t_nodup : NoDup (subscriptions m).*1;
  t_sub k msg : (k, msg) ∈ subscriptions m → k = keyOf msg ∧ mtype msg = REQUEST;
  t_lis k ls : listeners m !! k = Some ls → ls ≠ [] ∧ NoDup ls;
  t_prob k : is_Some (problems (problemStore m) !! k) → k ∈ (subscriptions m).*1
}.

(** The class's own socket has not closed and only it is being connected.
    Nothing was sent on a socket that has not opened, and the own socket watches
    subscribed keys only. *)
Record sockOk m := {
  s_live i : socket m = Some i → ∃ st, stateOf m i = Some st ∧ st ≠ CLOSED;
  s_conn i : connecting m = Some i → socket m = Some i;
  s_sent i msg : (i, msg) ∈ sent m → ∃ st, stateOf m i = Some st ∧ st ≠ CONNECTING;
  s_watch i : socket m = Some i → isOpen m i = true → ∀ k, k ∈ watching i (sent m) → k ∈ (subscriptions m).*1
}.

(** A page with subscriptions and no socket has a reconnection coming, unless
    the session ended. *)
Definition awake m : Prop :=
  socket m = None → subscriptions m ≠ [] → reconnectTimer m = true ∨ 0 < checks m ∨ signedOut m = true.

Lemma watching_snoc i l im :
  watching i (l ++ [im]) =
    if bool_decide (im.1 = i)
    then match mtype im.2 with REQUEST => {[keyOf im.2]} ∪ watching i l | CLOSE => watching i l ∖ {[keyOf im.2]} end
    else watching i l.
Proof. unfold watching. by rewrite foldl_app. Qed.

Lemma watching_none i l : (∀ msg, (i, msg) ∉ l) → watching i l = ∅.
Proof.
  induction l as [|[j msg] l IH] using rev_ind; intros H; [done|]. rewrite watching_snoc. simpl.
  rewrite IH by set_solver. case_bool_decide; [|done]. subst. set_solver.
Qed.

Lemma watching_requests i (subs : list (string * ClientMessage)) l :
  (∀ k msg, (k, msg) ∈ subs → k = keyOf msg ∧ mtype msg = REQUEST) →
  watching i (l ++ ((λ kv, (i, kv.2)) <$> subs)) = list_to_set subs.*1 ∪ watching i l.
Proof.
  revert l. induction subs as [|[k msg] subs IH]; intros l H; [rewrite app_nil_r; set_solver|]. csimpl.
  rewrite cons_middle, app_assoc, IH by set_solver. rewrite watching_snoc. simpl.
  rewrite bool_decide_true by done. destruct (H k msg) as [-> ->]; [left|]. set_solver.
Qed.

Lemma watching_requests_ne i j (subs : list (string * ClientMessage)) l :
  i ≠ j → watching i (l ++ ((λ kv, (j, kv.2)) <$> subs)) = watching i l.
Proof.
  intros Hij. revert l. induction subs as [|[k msg] subs IH]; intros l; [by rewrite app_nil_r|]. csimpl.
  rewrite cons_middle, app_assoc, IH, watching_snoc. simpl. by rewrite bool_decide_false.
Qed.

(** A dispatch records problems and calls listeners, nothing else. *)
Lemma dispatch_core msg m :
  ∃ ps ds, dispatch msg m =
    {| socket := socket m; listeners := listeners m; subscriptions := subscriptions m; connecting := connecting m;
       reconnectTimer := reconnectTimer m; reconnectAttempts := reconnectAttempts m; lastSessionEnd := lastSessionEnd m;
       sockets := sockets m; sent := sent m; resumes := resumes m; checks := checks m; signedOut := signedOut m;
       problemStore := ps; deliveries := ds |} ∧
    ∀ k, is_Some (problems ps !! k) → is_Some (problems (problemStore m) !! k) ∨
      is_Some (listeners m !! k) ∨ k ∈ (subscriptions m).*1.
Proof.
  assert (Hf : ∀ subs, subs ⊆ subscriptions m → ∃ ps ds,
    foldl (λ m' kv, if eqs (path kv.2) (sm_path msg) && eqs (query kv.2) (sm_query msg) then deliver kv.1 msg m' else m') m subs =
    {| socket := socket m; listeners := listeners m; subscriptions := subscriptions m; connecting := connecting m;
       reconnectTimer := reconnectTimer m; reconnectAttempts := reconnectAttempts m; lastSessionEnd := lastSessionEnd m;
       sockets := sockets m; sent := sent m; resumes := resumes m; checks := checks m; signedOut := signedOut m;
       problemStore := ps; deliveries := ds |} ∧
    ∀ k, is_Some (problems ps !! k) → is_Some (problems (problemStore m) !! k) ∨
      is_Some (listeners m !! k) ∨ k ∈ (subscriptions m).*1).
  { induction subs as [|[k s] subs IH] using rev_ind; intros Hs; [exists (problemStore m), (deliveries m); destruct m; naive_solver|].
    destruct IH as (ps & ds & Hm & Hk); [set_solver|]. rewrite foldl_app, Hm. simpl.
    destruct (eqs _ _ && _); [|by exists ps, ds]. do 2 eexists. split; [reflexivity|]. simpl.
    intros k' [->|?]%record_keys; [|by apply Hk]. right. right.
    apply (list_elem_of_fmap_2' fst _ (k, s)); [set_solver|done]. }
  unfold dispatch. destruct (sm_cluster msg) as [[|a c]|]; try by apply Hf.
  case_bool_decide; [|exists (problemStore m), (deliveries m); destruct m; naive_solver].
  do 2 eexists. split; [reflexivity|]. simpl. intros k [->|?]%record_keys; tauto.
Qed.

(** [connect] keeps the class as it is or makes a socket, not yet open. *)
Lemma connect_cases m : (connect m).1 = m ∨ connect m = (newSocket m, length (sockets m)).
Proof. unfold connect. repeat (case_match || case_bool_decide); auto. Qed.

Lemma newSocket_state m : stateOf (newSocket m) (length (sockets m)) = Some CONNECTING.
Proof. unfold stateOf. simpl. by rewrite lookup_app_r, Nat.sub_diag by lia. Qed.

(** What [connect] and [scheduleReconnect] leave alone. *)
Definition sameTables m m' : Prop :=
  listeners m' = listeners m ∧ subscriptions m' = subscriptions m ∧ problemStore m' = problemStore m.

Lemma connect_tables m : sameTables m (connect m).1.
Proof. destruct (connect_cases m) as [-> | ->]; done. Qed.

Lemma scheduleReconnect_tables m : sameTables m (scheduleReconnect m).
Proof. unfold scheduleReconnect, sameTables. repeat (case_match || case_bool_decide); done. Qed.

Lemma tables_same m m' : sameTables m m' → tables m → tables m'.
Proof. intros (E1 & E2 & E3) []. split; rewrite ?E1, ?E2, ?E3; done. Qed.

Lemma subscribe_tables msg l m :
  mtype msg = REQUEST → tables m → tables (subscribe msg l m).
Proof.
  intros Hty [K ND S L P]. unfold subscribe. destruct (connect _) as [m2 i] eqn:Hc.
  eapply tables_same with (m := m2); [by case_match|].
  eapply tables_same; [rewrite (surjective_pairing (connect _)) in Hc; injection Hc as <- _; apply connect_tables|].
  split; simpl.
  - intros k. rewrite mapSet_keys, lookup_insert_is_Some, <-K. destruct (decide (keyOf msg = k)) as [<-|];
      case_bool_decide; rewrite ?elem_of_app, ?list_elem_of_singleton; naive_solver.
  - by apply NoDup_mapSet.
  - intros k msg'. rewrite elem_of_mapSet by done. intros [[= -> ->]|[? _]]; [done|by apply S].
  - intros k ls. rewrite lookup_insert_Some. intros [[<- <-]|[_ ?]]; [|by apply (L k)].
    split; [intros Hn; by apply (not_elem_of_nil l); rewrite <-Hn; apply elem_of_setAdd; left|].
    apply NoDup_setAdd. destruct (listeners m !! keyOf msg) eqn:Hl; [by apply (L (keyOf msg))|apply NoDup_nil_2].
  - intros k Hk. apply P in Hk. rewrite mapSet_keys. case_bool_decide; [done|]. apply elem_of_app. by left.
Qed.

Lemma unsubscribe_tables msg l m : tables m → tables (unsubscribe msg l m).
Proof.
  intros [K ND S L P]. unfold unsubscribe. destruct (listeners m !! keyOf msg) as [ls|] eqn:Hl; [|done].
  case_bool_decide as Hn; split; simpl.
  - intros k. rewrite elem_of_mapDelete_keys, K, lookup_delete_is_Some. naive_solver.
  - by apply NoDup_mapDelete.
  - intros k msg' [? _]%elem_of_mapDelete. by apply S.
  - intros k ls'. rewrite lookup_delete_Some. intros [_ ?]. by apply (L k).
  - intros k. rewrite clear_problems, lookup_delete_is_Some, elem_of_mapDelete_keys. naive_solver.
  - intros k. rewrite K, lookup_insert_is_Some. destruct (decide (keyOf msg = k)) as [<-|]; naive_solver.
  - done.
  - done.
  - intros k ls'. rewrite lookup_insert_Some. intros [[<- <-]|[_ ?]]; [|by apply (L k)].
    split; [done|]. apply NoDup_filter. by apply (L (keyOf msg)).
  - intros k. rewrite K. intros ?%P. by apply K.
Qed.

Lemma step_tables m a m' : step m a = Some m' → tables m → tables m'.
Proof.
  intros H T. destruct a; simpl in H.
  - case_bool_decide; simplify_eq. by apply subscribe_tables.
  - simplify_eq. by apply unsubscribe_tables.
  - unfold resume in H. destruct (resumes m); simplify_eq. by apply (tables_same m).
  - unfold opened in H. case_bool_decide; simplify_eq. destruct T as [K ND S L P]. split; simpl; try done.
    intros k [p Hp]. rewrite clears_problems in Hp. case_bool_decide; [done|]. eauto.
  - unfold closing in H. case_match; simplify_eq. by apply (tables_same m).
  - unfold closed in H. repeat case_match; simplify_eq;
      try (eapply tables_same; [apply scheduleReconnect_tables|]); by apply (tables_same m).
  - unfold sessionVerdict in H. repeat case_match; simplify_eq;
      try (eapply tables_same; [apply scheduleReconnect_tables|]); by apply (tables_same m).
  - unfold timerFired in H. case_match; simplify_eq.
    eapply tables_same; [apply connect_tables|]. by apply (tables_same m).
  - case_match; simplify_eq. destruct (dispatch_core msg m) as (ps & ds & -> & Hk). destruct T as [K ND S L P].
    split; simpl; try done. intros k [?|[?|?]]%Hk; [by apply P|by apply K|done].
Qed.

Lemma reachable_tables m : reachable m → tables m.
Proof.
  induction 1 as [|m a m' _ IH H]; [|by eapply step_tables].
  split; simpl; try done; [intros k|apply NoDup_nil_2|set_solver|intros k []]; try done.
  rewrite lookup_empty. split; [set_solver|by intros []].
Qed.

(** ** Lemmas: the sockets *)

Lemma connect_socket m : sockOk m → socket (connect m).1 = Some (connect m).2.
Proof.
  intros [L C _ _]. unfold connect. destruct (socket m) as [i|] eqn:Hs; [destruct (isOpen m i); [done|]; case_bool_decide; [done|]|];
    destruct (connecting m) as [j|] eqn:Hc; simpl; try done; rewrite <-(C j); congruence.
Qed.

Lemma connect_sockOk m : sockOk m → sockOk (connect m).1.
Proof.
  intros O. destruct (connect_cases m) as [-> | ->]; [done|]. destruct O as [L C S W]. split; simpl.
  - intros i [= <-]. exists CONNECTING. by rewrite newSocket_state.
  - done.
  - intros i msg Hi. destruct (S i msg Hi) as (st & Hst & Hne). exists st. unfold stateOf in *. simpl.
    by rewrite lookup_app_l by (by eapply lookup_lt_Some).
  - intros i [= <-]. unfold isOpen. rewrite newSocket_state. by intros ?%bool_decide_eq_true.
Qed.

Lemma connect_awake m : sockOk m → awake (connect m).1.
Proof. intros H. unfold awake. by rewrite connect_socket. Qed.

Lemma scheduleReconnect_sockOk m : sockOk m → sockOk (scheduleReconnect m).
Proof. intros []. unfold scheduleReconnect. case_match; [done|]. by case_bool_decide. Qed.

Lemma scheduleReconnect_awake m : awake (scheduleReconnect m).
Proof. unfold awake, scheduleReconnect. case_match; [tauto|]. case_bool_decide; simpl; tauto. Qed.

Lemma subscribe_socks msg l m : sockOk m → sockOk (subscribe msg l m) ∧ awake (subscribe msg l m).
Proof.
  intros [L C S W]. unfold subscribe. match goal with |- context [connect ?x] => set (m1 := x) end.
  assert (H1 : sockOk m1).
  { split; simpl; try done. intros i Hi Ho k Hk. rewrite mapSet_keys. specialize (W i Hi Ho k Hk).
    case_bool_decide; [done|]. apply elem_of_app. by left. }
  pose proof (connect_sockOk m1 H1) as H2. pose proof (connect_awake m1 H1) as A2.
  destruct (connect m1) as [m2 i]. simpl in *. case_match; [|done]. split; [|done].
  by destruct H2; split.
Qed.

Lemma isOpen_stateOf m i : isOpen m i = true ↔ stateOf m i = Some OPEN.
Proof. apply bool_decide_eq_true. Qed.

Lemma unsubscribe_socks msg l m : sockOk m → awake m → sockOk (unsubscribe msg l m) ∧ awake (unsubscribe msg l m).
Proof.
  intros [L C S W] A. unfold unsubscribe. destruct (listeners m !! keyOf msg); [|done].
  case_bool_decide as Hn; [|by repeat split]. split.
  - split; simpl; try done.
    + intros i msg'. destruct (socket m) as [j|]; [|apply S]. destruct (isOpen m j) eqn:Ho; [|apply S].
      rewrite elem_of_app, list_elem_of_singleton. intros [?|[= -> ->]]; [by apply S in H|].
      exists OPEN. by apply isOpen_stateOf in Ho.
    + intros i Hi Ho k. rewrite Hi. change (isOpen m i = true) in Ho. rewrite Ho, watching_snoc. simpl.
      rewrite bool_decide_true by done. change (keyOf (closeOf msg)) with (keyOf msg).
      intros [Hk Hne]%elem_of_difference. apply elem_of_mapDelete_keys. split; [by eapply W|set_solver].
  - intros Hs Hsub. apply A; [done|]. simpl in *. intros Hnil. by rewrite Hnil in Hsub.
Qed.

(** A socket changes its state. *)
Lemma sockets_insert (ss : list readyState) i j st :
  i < length ss → <[i := st]> ss !! j = if bool_decide (j = i) then Some st else ss !! j.
Proof.
  intros Hi. case_bool_decide as Ej; [subst; by apply list_lookup_insert_eq|]. by apply list_lookup_insert_ne.
Qed.

Lemma sent_insert m i st :
  sockOk m → st ≠ CONNECTING → is_Some (stateOf m i) →
  ∀ j msg, (j, msg) ∈ sent m → ∃ st', <[i := st]> (sockets m) !! j = Some st' ∧ st' ≠ CONNECTING.
Proof.
  intros [_ _ S _] Hst Hi%lookup_lt_is_Some j msg Hj. rewrite sockets_insert by done.
  case_bool_decide; [by eexists|by apply S in Hj].
Qed.

Lemma opened_sockOk i m m' : opened i m = Some m' → tables m → sockOk m → sockOk m'.
Proof.
  unfold opened. case_bool_decide as Hi; [|done]. intros [= <-] T O. pose proof O as [L C S W].
  assert (Hlt : i < length (sockets m)) by (by apply lookup_lt_Some in Hi).
  assert (Hn : ∀ msg, (i, msg) ∉ sent m) by (intros msg (st & Hst & ?)%S; congruence).
  split; unfold isOpen, stateOf in *; simpl; try done.
  - intros j Hj. rewrite sockets_insert by done. case_bool_decide; [by eexists|by apply L].
  - intros j msg [Hj|([k s] & [= -> ->] & _)%list_elem_of_fmap]%elem_of_app.
    + eapply sent_insert; [done..| |done]. by eexists.
    + exists OPEN. by rewrite sockets_insert, bool_decide_true.
  - intros j Hj. rewrite sockets_insert by done. destruct (decide (j = i)) as [->|Hne].
    + intros _ k. rewrite watching_requests by apply T. rewrite watching_none by done. set_solver.
    + rewrite watching_requests_ne by done. rewrite (bool_decide_false (j = i)) by done. by apply W.
Qed.

Lemma closing_sockOk i m m' : closing i m = Some m' → sockOk m → sockOk m'.
Proof.
  unfold closing. destruct (isOpen m i) eqn:Hi; [|done]. intros [= <-] O. pose proof O as [L C S W].
  apply isOpen_stateOf in Hi. assert (Hlt : i < length (sockets m)) by (by apply lookup_lt_Some in Hi).
  split; unfold isOpen, stateOf in *; simpl; try done.
  - intros j Hj. rewrite sockets_insert by done. case_bool_decide; [by eexists|by apply L].
  - intros j msg Hj. eapply sent_insert; [done..| |done]. by eexists.
  - intros j Hj. rewrite sockets_insert by done. destruct (decide (j = i)) as [->|]; [rewrite (bool_decide_true (i = i)) by done; by intros ?%bool_decide_eq_true|rewrite (bool_decide_false (j = i)) by done; by apply W].
Qed.

Lemma closed_sockOk i code now m m' : closed i code now m = Some m' → sockOk m → sockOk m' ∧ awake m'.
Proof.
  unfold closed. destruct (stateOf m i) as [st|] eqn:Hi; [|done]. intros H O.
  set (ended := bool_decide (code = SESSION_ENDED_CLOSE_CODE)) in H.
  match type of H with context [scheduleReconnect ?x] => set (m1 := x) in * end.
  assert (O1 : sockOk m1).
  { split; simpl; try done. intros j msg Hj. eapply sent_insert; [done..| |done]. by eexists. }
  assert (Hm : m' = m1 ∧ ended = true ∨ m' = scheduleReconnect m1).
  { destruct st; destruct ended; simpl in H; repeat case_bool_decide; simplify_eq; auto. }
  destruct Hm as [[-> He]| ->].
  - split; [done|]. intros _ _. right. left. simpl. rewrite He. lia.
  - split; [by apply scheduleReconnect_sockOk|apply scheduleReconnect_awake].
Qed.

Lemma step_sockOk m a m' : step m a = Some m' → tables m → sockOk m → awake m → sockOk m' ∧ awake m'.
Proof.
  intros H T O A. destruct a; simpl in H.
  - case_bool_decide; simplify_eq. by apply subscribe_socks.
  - simplify_eq. by apply unsubscribe_socks.
  - unfold resume in H. destruct (resumes m) as [|r rs]; simplify_eq. split; [|done]. destruct O as [L C S W].
    destruct (isOpen m (r_socket r) && _) eqn:Ha; split; try done; simpl.
    + apply andb_true_iff in Ha as [Ho%isOpen_stateOf _]. intros i msg. rewrite elem_of_app, list_elem_of_singleton.
      intros [?%S|[= -> ->]]; [done|]. by exists OPEN.
    + apply andb_true_iff in Ha as [_ [_ Hl]%andb_true_iff]. intros i Hi Ho k. rewrite watching_snoc. simpl.
      case_bool_decide; [|by apply W]. destruct (mtype (r_msg r)); [|intros [? _]%elem_of_difference; by eapply W].
      intros [->%elem_of_singleton|]%elem_of_union; [|by eapply W].
      apply (t_keys _ T). unfold hasListener in Hl. case_match; [by eexists|done].
  - split; [by eapply opened_sockOk|]. unfold opened in H. case_bool_decide; by simplify_eq.
  - split; [by eapply closing_sockOk|]. unfold closing in H. case_match; by simplify_eq.
  - by eapply closed_sockOk.
  - unfold sessionVerdict in H. destruct (checks m) as [|n] eqn:Hc; [done|].
    match type of H with context [scheduleReconnect ?x] => set (m1 := x) in * end.
    assert (O1 : sockOk m1) by (by destruct O). destruct reopen; simplify_eq.
    + split; [by apply scheduleReconnect_sockOk|apply scheduleReconnect_awake].
    + split; [done|]. intros _ _. right. right. apply orb_true_r.
  - unfold timerFired in H. case_match; simplify_eq. split; [apply connect_sockOk|apply connect_awake]; by destruct O.
  - case_match; simplify_eq. destruct (dispatch_core msg m) as (ps & ds & -> & _). by destruct O.
Qed.

Lemma reachable_ok m : reachable m → tables m ∧ sockOk m ∧ awake m.
Proof.
  intros R. split; [by apply reachable_tables|]. induction R as [|m a m' R IH H].
  - split; [|by intros _ []]. split; simpl; try done. intros i msg []%not_elem_of_nil.
  - eapply step_sockOk; [done|by apply reachable_tables|apply IH..].
Qed.

(** ** Calm runs: no listener leaves while a subscribe call is still awaited *)

Inductive calm : Mux E → Prop :=
  | calm_init : calm mux0
  | calm_step m a m' :
      calm m → (∀ msg l, a = Unsubscribe msg l → resumes m = []) → step m a = Some m' → calm m'.

(** A continuation that will ask socket [i] for key [k]. *)
Definition pending m (i : nat) (k : string) : Prop :=
  ∃ r, r ∈ resumes m ∧ r_socket r = i ∧ r_ask r = true ∧ keyOf (r_msg r) = k.

Record asked m := {
  a_held r : r ∈ resumes m → mtype (r_msg r) = REQUEST ∧ hasListener m (keyOf (r_msg r)) (r_listener r) = true;
  a_all i : socket m = Some i → isOpen m i = true →
    ∀ k, k ∈ (subscriptions m).*1 → k ∈ watching i (sent m) ∨ pending m i k
}.

Lemma calm_reachable m : calm m → reachable m.
Proof. induction 1; [constructor|by econstructor]. Qed.

Lemma connect_open m i :
  socket (connect m).1 = Some i → isOpen (connect m).1 i = true → socket m = Some i ∧ (connect m).1 = m.
Proof.
  destruct (connect_cases m) as [-> | ->]; [done|]. simpl. intros [= <-]. unfold isOpen.
  rewrite newSocket_state. by intros ?%bool_decide_eq_true.
Qed.

Lemma hasListener_set (L : gmap string (list nat)) key key' l l' ls :
  match L !! key' with Some ls => bool_decide (l' ∈ ls) | None => false end = true →
  ls = default [] (L !! key) →
  match <[key := setAdd l ls]> L !! key' with Some ls => bool_decide (l' ∈ ls) | None => false end = true.
Proof.
  intros H ->. destruct (decide (key = key')) as [<-|]; [|by rewrite lookup_insert_ne].
  rewrite lookup_insert_eq. destruct (L !! key); [|done]. apply bool_decide_eq_true in H. apply bool_decide_eq_true.
  apply elem_of_setAdd. by right.
Qed.

Lemma subscribe_asked msg l m : mtype msg = REQUEST → asked m → asked (subscribe msg l m).
Proof.
  intros Hty [A1 A2]. unfold subscribe. match goal with |- context [connect ?x] => set (m1 := x) end.
  assert (Hres : resumes (connect m1).1 = resumes m ∧ listeners (connect m1).1 = listeners m1 ∧ sent (connect m1).1 = sent m).
  { destruct (connect_cases m1) as [-> | ->]; done. }
  assert (Hown : hasListener m1 (keyOf msg) l = true).
  { unfold hasListener. simpl. rewrite lookup_insert_eq. apply bool_decide_eq_true, elem_of_setAdd. by left. }
  pose proof (connect_open m1) as Hopen. destruct (connect m1) as [m2 i] eqn:Hc. simpl in Hres, Hopen.
  destruct Hres as (Hr & Hl & Hsn).
  assert (Hkeep : ∀ r, r ∈ resumes m → mtype (r_msg r) = REQUEST ∧ hasListener m1 (keyOf (r_msg r)) (r_listener r) = true).
  { intros r [? Hh]%A1. split; [done|]. by apply hasListener_set. }
  destruct (match socket m with Some i => isOpen m i | None => false end) eqn:Hw.
  - destruct (socket m) as [j|] eqn:Hj; [|done].
    assert (m2 = m1 ∧ i = j) as [-> ->].
    { unfold connect in Hc. simpl in Hc. change (isOpen m1 j) with (isOpen m j) in Hc. rewrite Hw in Hc. by simplify_eq. }
    split; simpl.
    + intros r. rewrite elem_of_app, list_elem_of_singleton. intros [?| ->]; [by apply Hkeep|done].
    + intros i Hi Ho k. rewrite mapSet_keys. injection Hi as <-.
      unfold pending. simpl. setoid_rewrite elem_of_app. setoid_rewrite list_elem_of_singleton.
      case_bool_decide as Hsub.
      * intros Hk. destruct (A2 j eq_refl Hw k Hk) as [?|(r & ? & ?)]; [by left|right; eauto].
      * rewrite elem_of_app, list_elem_of_singleton. intros [Hk| ->].
        -- destruct (A2 j eq_refl Hw k Hk) as [?|(r & ? & ?)]; [by left|right; eauto].
        -- right. eexists. split; [right; reflexivity|]. simpl. split_and!; [done| |done].
           unfold subscribed. by rewrite bool_decide_false.
  - split; [rewrite Hr; unfold hasListener; rewrite Hl; exact Hkeep|].
    intros j Hs Ho. exfalso. destruct (Hopen j Hs Ho) as [Hj ->]. simpl in Hj. rewrite Hj in Hw.
    change (isOpen m j = true) in Ho. congruence.
Qed.

Lemma unsubscribe_asked msg l m : resumes m = [] → asked m → asked (unsubscribe msg l m).
Proof.
  intros Hr [A1 A2]. unfold unsubscribe. destruct (listeners m !! keyOf msg) as [ls|]; [|done].
  case_bool_decide; split; simpl; try (intros r; rewrite Hr; by intros ?%not_elem_of_nil).
  - intros i Hi Ho k [Hk Hne]%elem_of_mapDelete_keys. left. rewrite Hi. change (isOpen m i = true) in Ho.
    rewrite Ho, watching_snoc. simpl. rewrite bool_decide_true by done. change (keyOf (closeOf msg)) with (keyOf msg).
    destruct (A2 i Hi Ho k Hk) as [?|(r & Hin & _)]; [set_solver|]. rewrite Hr in Hin. by apply not_elem_of_nil in Hin.
  - exact A2.
Qed.

Lemma resume_asked m m' : resume m = Some m' → asked m → asked m'.
Proof.
  unfold resume. destruct (resumes m) as [|r rs] eqn:Hrs; [done|]. intros [= <-] [A1 A2]. rewrite Hrs in A1.
  assert (Hr : ∀ i, socket m = Some i → isOpen m i = true → ∀ k, k ∈ (subscriptions m).*1 →
    k ∈ watching i (sent m) ∨ (r_socket r = i ∧ r_ask r = true ∧ keyOf (r_msg r) = k) ∨
    ∃ r', r' ∈ rs ∧ r_socket r' = i ∧ r_ask r' = true ∧ keyOf (r_msg r') = k).
  { intros i Hi Ho k Hk. destruct (A2 i Hi Ho k Hk) as [?|(r' & Hr' & ?)]; [by left|].
    rewrite Hrs in Hr'. apply elem_of_cons in Hr' as [-> |]; [tauto|]. right. right. eauto. }
  split; simpl.
  - intros r' Hr'. apply A1. by right.
  - intros i Hi Ho k Hk. destruct (A1 r) as [Hty Hl]; [left|].
    assert (Hmono : k ∈ watching i (sent m) →
      k ∈ watching i (if isOpen m (r_socket r) && (r_ask r && hasListener m (keyOf (r_msg r)) (r_listener r))
                      then sent m ++ [(r_socket r, r_msg r)] else sent m)).
    { intros H. destruct (_ && _); [|done]. rewrite watching_snoc. simpl. rewrite Hty. case_bool_decide; set_solver. }
    destruct (Hr i Hi Ho k Hk) as [?|[(<- & Hask & <-)|?]]; [left; by apply Hmono| |by right].
    left. change (isOpen m (r_socket r) = true) in Ho. rewrite Ho, Hask, Hl. simpl. rewrite watching_snoc. simpl.
    rewrite bool_decide_true, Hty by done. set_solver.
Qed.

Lemma opened_asked i m m' : opened i m = Some m' → tables m → asked m → asked m'.
Proof.
  unfold opened. case_bool_decide as Hi; [|done]. intros [= <-] T [A1 A2].
  assert (Hlt : i < length (sockets m)) by (by apply lookup_lt_Some in Hi).
  split; simpl; [exact A1|]. unfold isOpen, stateOf. simpl. intros j Hj. rewrite sockets_insert by done.
  destruct (decide (j = i)) as [->|Hne].
  - intros _ k Hk. left. rewrite watching_requests by apply T. set_solver.
  - rewrite (bool_decide_false (j = i)), watching_requests_ne by done. by apply A2.
Qed.

Lemma asked_same m m' :
  asked m → resumes m' = resumes m → listeners m' = listeners m → subscriptions m' = subscriptions m → sent m' = sent m →
  (∀ i, socket m' = Some i → isOpen m' i = true → socket m = Some i ∧ isOpen m i = true) → asked m'.
Proof.
  intros [A1 A2] Er El Es Et Hs. split; unfold pending, hasListener; rewrite ?Er, ?El, ?Es, ?Et; [exact A1|].
  intros i Hi Ho. destruct (Hs i Hi Ho). by apply A2.
Qed.

Lemma connect_asked m : asked m → asked (connect m).1.
Proof.
  intros A. apply (asked_same m); [done|try (by destruct (connect_cases m) as [-> | ->])..|].
  intros i Hi Ho. destruct (connect_open m i Hi Ho) as [? E']. by rewrite E' in Ho.
Qed.

Lemma scheduleReconnect_asked m : asked m → asked (scheduleReconnect m).
Proof. intros []. unfold scheduleReconnect. case_match; [done|]. by case_bool_decide. Qed.

Lemma step_asked m a m' :
  step m a = Some m' → (∀ msg l, a = Unsubscribe msg l → resumes m = []) → tables m → asked m → asked m'.
Proof.
  intros H Hcalm T A. destruct a; simpl in H.
  - case_bool_decide; simplify_eq. by apply subscribe_asked.
  - simplify_eq. apply unsubscribe_asked; eauto.
  - by eapply resume_asked.
  - by eapply opened_asked.
  - unfold closing in H. destruct (isOpen m i) eqn:Ho; simplify_eq. apply (asked_same m); try done.
    intros j Hj Hjo. split; [done|]. revert Hjo. apply isOpen_stateOf, lookup_lt_Some in Ho.
    unfold isOpen, stateOf. simpl. rewrite sockets_insert by done. destruct (decide (j = i)) as [->|].
    + rewrite (bool_decide_true (i = i)) by done. by intros ?%bool_decide_eq_true.
    + by rewrite (bool_decide_false (j = i)).
  - unfold closed in H. repeat case_match; simplify_eq; try apply scheduleReconnect_asked; by apply (asked_same m).
  - unfold sessionVerdict in H. repeat case_match; simplify_eq; try apply scheduleReconnect_asked; by apply (asked_same m).
  - unfold timerFired in H. case_match; simplify_eq. apply connect_asked. by apply (asked_same m).
  - case_match; simplify_eq. destruct (dispatch_core msg m) as (ps & ds & -> & _). by apply (asked_same m).
Qed.

Lemma calm_asked m : calm m → asked m.
Proof.
  induction 1 as [|m a m' C IH Hc H].
  - split; simpl; [|done]. by intros r ?%not_elem_of_nil.
  - eapply step_asked; [done..| |done]. by apply reachable_tables, calm_reachable.
Qed.
End invariants.

(** The delay before each reconnection: doubled from one second, thirty at most. *)
Lemma getReconnectDelay_steps :
  getReconnectDelay <$> seq 0 7 = [1000; 2000; 4000; 8000; 16000; 30000; 30000]%Z.
Proof. reflexivity. Qed.

Lemma getReconnectDelay_bounds n : (1000 ≤ getReconnectDelay n ≤ getReconnectDelay (S n) ∧ getReconnectDelay n ≤ 30000)%Z.
Proof.
  unfold getReconnectDelay. rewrite Nat2Z.inj_succ, Z.pow_succ_r by lia.
  pose proof (Z.pow_pos_nonneg 2 (Z.of_nat n) ltac:(lia) ltac:(lia)). lia.
Qed.

Lemma hasListener_default {E} (m : Mux E) k l : hasListener m k l = true ↔ l ∈ default [] (listeners m !! k).
Proof. unfold hasListener. case_match; simpl; [apply bool_decide_eq_true|]. split; [done|]. by intros ?%not_elem_of_nil. Qed.

(** Names a server and its clients may use: no newline in a cluster's name, no
    question mark in a path. *)
Definition plain (c p : string) : Prop := free_of "010" c ∧ free_of "?" p.

(** The socket is open, asked for exactly these subscriptions, the backoff reset. *)
Definition restored {E} (subs : list (string * ClientMessage)) (m : Mux E) : Prop :=
  ∃ i, socket m = Some i ∧ isOpen m i = true ∧ reconnectAttempts m = 0 ∧ subscriptions m = subs ∧
    ∀ k, k ∈ watching i (sent m) ↔ k ∈ subs.*1.

(** The turn the class waits for, while the network and the session hold: the opening
    of its socket, the close of a closing one (with some code), its timer, or the answer
    to its check of the session.  An open socket waits for nothing, and neither does a
    class that arranged nothing. *)
Definition due {E} (code now : Z) (m : Mux E) : option (action E) :=
  match socket m with
  | Some i => match stateOf m i with Some CONNECTING => Some (Opened i) | Some CLOSING => Some (Closed i code now) | _ => None end
  | None => if reconnectTimer m then Some TimerFired else match checks m with 0 => None | S _ => Some (Verdict true) end
  end.

Fixpoint waiting {E} (code now : Z) (n : nat) (m : Mux E) : option (Mux E) :=
  match n, due code now m with
  | S n, Some a => step m a ≫= waiting code now n
  | _, _ => Some m
  end.

Section restore.
Context {E : Type} (code now : Z).
Implicit Types m : Mux E.

Definition comesBack (n : nat) m : Prop := ∃ m', waiting code now n m = Some m' ∧ restored (subscriptions m) m'.

Lemma waiting_restored n subs m : restored subs m → waiting code now n m = Some m.
Proof.
  intros (i & Hi & Ho & _). apply isOpen_stateOf in Ho. destruct n; [done|]. cbn [waiting]. unfold due. by rewrite Hi, Ho.
Qed.

Lemma turn_back n m a m1 :
  due code now m = Some a → step m a = Some m1 → subscriptions m1 = subscriptions m → comesBack n m1 → comesBack (S n) m.
Proof. intros Hd Hs Hsub (m' & Hw & Hr). exists m'. cbn [waiting]. rewrite Hd, Hs, <-Hsub. by split. Qed.

Lemma back_opening m i n :
  reachable m → socket m = Some i → stateOf m i = Some CONNECTING → comesBack (S n) m.
Proof.
  intros R Hi Hst. destruct (reachable_ok m R) as (T & O & _).
  assert (∃ m', step m (Opened i) = Some m' ∧ restored (subscriptions m) m') as (m' & Hs & Hr).
  { cbn [step]. unfold opened. rewrite bool_decide_true by done. eexists. split; [reflexivity|]. exists i. split_and!; simpl; try done.
    - unfold isOpen, stateOf. simpl. rewrite list_lookup_insert_eq by (by apply lookup_lt_Some in Hst). by apply bool_decide_eq_true.
    - intros k. rewrite watching_requests by apply T. rewrite watching_none; [set_solver|].
      intros msg (st & ? & ?)%(s_sent _ O). congruence. }
  exists m'. cbn [waiting]. unfold due. rewrite Hi, Hst, Hs. split; [by apply (waiting_restored n (subscriptions m))|done].
Qed.

Lemma back_timer m n :
  reachable m → socket m = None → reconnectTimer m = true → comesBack (2 + n) m.
Proof.
  intros R Hn Ht. destruct (reachable_ok m R) as (_ & O & _).
  assert (Hc : connecting m = None) by (destruct (connecting m) as [j|] eqn:Hc; [apply (s_conn _ O) in Hc; congruence|done]).
  set (i := length (sockets m)). assert (Hf : ∃ m1, step m TimerFired = Some m1 ∧ socket m1 = Some i ∧
    stateOf m1 i = Some CONNECTING ∧ subscriptions m1 = subscriptions m).
  { cbn [step]. unfold timerFired. rewrite Ht. eexists. split; [reflexivity|]. unfold connect. simpl. rewrite Hn, Hc. simpl.
    split_and!; [done| |done]. unfold stateOf. simpl. unfold i. by rewrite lookup_app_r, Nat.sub_diag by lia. }
  destruct Hf as (m1 & Hm1 & Hs & Hst & Hsub). apply (turn_back (S n) m TimerFired m1); [unfold due; by rewrite Hn, Ht|done..|].
  apply (back_opening m1 i); [by econstructor|done..].
Qed.

Lemma scheduleReconnect_timer m :
  subscriptions m ≠ [] → reconnectTimer (scheduleReconnect m) = true ∧ socket (scheduleReconnect m) = socket m ∧
    subscriptions (scheduleReconnect m) = subscriptions m.
Proof. intros H. unfold scheduleReconnect. destruct (reconnectTimer m) eqn:Et; [done|]. by case_bool_decide. Qed.

(** A turn of a class without a socket that sets the timer. *)
Lemma back_scheduled m m1 a n :
  reachable m → due code now m = Some a → step m a = Some (scheduleReconnect m1) → socket m1 = None → subscriptions m1 = subscriptions m →
  subscriptions m ≠ [] → comesBack (3 + n) m.
Proof.
  intros R Hd Hs Hn Hsub Hne. rewrite <-Hsub in Hne. destruct (scheduleReconnect_timer m1 Hne) as (Ht & Hn' & Hsub').
  apply (turn_back (2 + n) m a (scheduleReconnect m1)); [done..|congruence|]. apply back_timer; [by econstructor|congruence|done].
Qed.

Lemma back_check m n :
  reachable m → socket m = None → subscriptions m ≠ [] → 0 < checks m → comesBack (3 + n) m.
Proof.
  intros R Hi Hsub Hc. destruct (reconnectTimer m) eqn:Ht; [by apply (back_timer m (S n))|].
  destruct (checks m) as [|c] eqn:Hn; [lia|]. eapply (back_scheduled m _ (Verdict true)); [done|..|done].
  - unfold due. by rewrite Hi, Ht, Hn.
  - cbn [step]. unfold sessionVerdict. rewrite Hn. reflexivity.
  - done.
  - done.
Qed.

Lemma back_closing m i :
  reachable m → socket m = Some i → stateOf m i = Some CLOSING → subscriptions m ≠ [] → comesBack 4 m.
Proof.
  intros R Hi Hst Hsub. assert (due code now m = Some (Closed i code now)) as Hd by (unfold due; by rewrite Hi, Hst).
  destruct (decide (code = SESSION_ENDED_CLOSE_CODE)) as [Hcode|Hcode].
  - assert (∃ m1, step m (Closed i code now) = Some m1 ∧ socket m1 = None ∧ subscriptions m1 = subscriptions m ∧ 0 < checks m1) as (m1 & Hs & Hn & Hs1 & Hc).
    { cbn [step]. unfold closed. rewrite Hst, bool_decide_true by done. cbn [andb]. rewrite bool_decide_false by done.
      eexists. split; [reflexivity|]. cbn. split_and!; [done..|lia]. }
    apply (turn_back 3 m (Closed i code now) m1); [done..|]. apply (back_check m1 0); [by econstructor|done|by rewrite Hs1|done].
  - eapply (back_scheduled m _ (Closed i code now) 1); [done|done|..|done].
    + cbn [step]. unfold closed. rewrite Hst, bool_decide_false by done. reflexivity.
    + done.
    + done.
Qed.
End restore.

(** The page of two lists the witnesses and the findings run on. *)
Definition pods : ClientMessage :=
  {| mtype := REQUEST; clusterId := "a"; path := "/api/v1/pods"; query := "watch=1"; userId := None |}.
Definition nodes : ClientMessage :=
  {| mtype := REQUEST; clusterId := "a"; path := "/api/v1/nodes"; query := "watch=1"; userId := None |}.
Definition podFrame : ServerMessage nat :=
  {| sm_cluster := Some "a"; sm_path := "/api/v1/pods"; sm_query := "watch=1"; sm_frame := DATA 7 |}.

Definition opening : list (action nat) := [Subscribe pods 1; Opened 0; Subscribe nodes 2; Resumed].
Definition page : Mux nat := default mux0 (run mux0 opening).

Lemma run_calm {E} acts (m m' : Mux E) :
  calm m → Forall (λ a, ∀ msg l, a ≠ Unsubscribe msg l) acts → run m acts = Some m' → calm m'.
Proof.
  intros C H. revert m C. induction H as [|a acts Ha _ IH]; intros m C; simpl; [by intros [= <-]|].
  destruct (step m a) as [m1|] eqn:Hs; [|done]. simpl. apply IH. econstructor; [done| |done].
  intros msg l ->. by destruct (Ha msg l).
Qed.

Lemma page_calm : calm page.
Proof. apply (run_calm opening mux0); [constructor| |vm_compute; reflexivity]. unfold opening. repeat constructor; done. Qed.

(** * Properties *)

(** C3. While no listener leaves in the middle of a subscribe call, an open
    connection mirrors the page: the server watches, or is about to be asked by a
    pending call for, exactly the keys the page subscribes to - none is lost by a
    reconnection and none is kept after its last listener left. *)
Theorem open_socket_mirrors_page {E} (m : Mux E) i :
  calm m → socket m = Some i → isOpen m i = true →
  ∀ k, (k ∈ watching i (sent m) ∨ pending m i k) ↔ k ∈ (subscriptions m).*1.
Proof.
  intros C Hi Ho k. destruct (calm_asked m C) as [A1 A2].
  destruct (reachable_ok m (calm_reachable m C)) as ([K _ _ _ _] & [_ _ _ W] & _). split; [|by apply A2].
  intros [Hk|(r & Hr & _ & _ & <-)]; [by eapply W|]. apply K. apply A1 in Hr as [_ Hl].
  unfold hasListener in Hl. case_match; [by eexists|done].
Qed.

(** The page of two lists, once its socket is open. *)
Lemma open_socket_mirrors_page_witness :
  (keyOf nodes ∈ watching 0 (sent page) ∨ pending page 0 (keyOf nodes)) ↔ keyOf nodes ∈ (subscriptions page).*1.
Proof. apply (open_socket_mirrors_page page 0); [exact page_calm|reflexivity|reflexivity]. Defined.

(** C4. No watch is stuck: in every state the class can reach with a subscription, a
    session that lives and a socket that is not open, the class waits for a turn it
    arranged itself; and the turns it waits for, whatever the code its socket closes
    with, lead within four to an open socket on which the server watches exactly the
    subscribed keys, with the backoff reset. *)
Theorem watches_come_back {E} code now (m : Mux E) :
  reachable m → subscriptions m ≠ [] → signedOut m = false →
  (∀ i, socket m = Some i → isOpen m i = false) →
  is_Some (due code now m) ∧ ∃ m', waiting code now 4 m = Some m' ∧ restored (subscriptions m) m'.
Proof.
  intros R Hsub Hout Hs. destruct (reachable_ok m R) as (T & O & A).
  assert (comesBack code now 4 m) as Hb.
  { destruct (socket m) as [i|] eqn:Hi.
    - destruct (s_live _ O i Hi) as ([] & Hst & Hne).
      + by apply (back_opening code now m i 3).
      + specialize (Hs i eq_refl). unfold isOpen in Hs. by rewrite Hst, bool_decide_true in Hs.
      + by apply (back_closing code now m i).
      + done.
    - destruct (A Hi Hsub) as [Ht|[Hc|]]; [by apply (back_timer code now m 2)|by apply (back_check code now m 1)|congruence]. }
  split; [|exact Hb]. destruct (due code now m) eqn:Hd; [by eexists|]. destruct Hb as (m' & Hw & (i & Hi & Ho & _)).
  cbn [waiting] in Hw. rewrite Hd in Hw. injection Hw as <-. by rewrite (Hs i Hi) in Ho.
Qed.

(** The page of two lists whose session ended on the server and lives again: a close
    with the session's code, the check, the timer, the opening. *)
Lemma watches_come_back_witness :
  let m := default mux0 (run page [Closing 0]) in
  is_Some (due SESSION_ENDED_CLOSE_CODE 7 m) ∧
  ∃ m', waiting SESSION_ENDED_CLOSE_CODE 7 4 m = Some m' ∧ restored (subscriptions m) m'.
Proof.
  apply (watches_come_back SESSION_ENDED_CLOSE_CODE 7); [|discriminate|reflexivity|intros i [= <-]; reflexivity].
  apply (reach_step page (Closing 0)); [exact (calm_reachable page page_calm)|reflexivity].
Defined.

(** The class's two maps are one table in every reachable state: a key is in
    [subscriptions] exactly when it is in [listeners], each key once, with the
    REQUEST of that very key and at least one listener, none twice; a problem
    is kept for a subscribed key only; and the open socket's watches are
    all subscribed, so what was unsubscribed is never watched on. *)
Theorem subscriptions_one_table {E} (m : Mux E) :
  reachable m →
  NoDup (subscriptions m).*1 ∧
  (∀ k, k ∈ (subscriptions m).*1 ↔ is_Some (listeners m !! k)) ∧
  (∀ k msg, (k, msg) ∈ subscriptions m → k = keyOf msg ∧ mtype msg = REQUEST) ∧
  (∀ k ls, listeners m !! k = Some ls → ls ≠ [] ∧ NoDup ls) ∧
  (∀ k, is_Some (problems (problemStore m) !! k) → k ∈ (subscriptions m).*1) ∧
  (∀ i k, socket m = Some i → isOpen m i = true → k ∈ watching i (sent m) → k ∈ (subscriptions m).*1).
Proof.
  intros R. destruct (reachable_ok m R) as ([K ND S L P] & [_ _ _ W] & _). split_and!; try done. intros i k Hi Ho. by apply W.
Qed.

(** The page of two lists. *)
Lemma subscriptions_one_table_witness : NoDup (subscriptions page).*1 ∧ keyOf pods ∈ (subscriptions page).*1.
Proof.
  split; [|by_decide]. apply (subscriptions_one_table page). exact (calm_reachable page page_calm).
Defined.

(** A frame reaches its own watch only: one that names its cluster is given
    once to each listener of a subscription to that cluster, path and query, and
    to no other listener - in particular to none of another cluster's list. *)
Theorem frame_reaches_its_watch {E} (m : Mux E) msg a c :
  reachable m → sm_cluster msg = Some (String a c) → plain (String a c) (sm_path msg) →
  (∀ k sub, (k, sub) ∈ subscriptions m → plain (clusterId sub) (path sub)) →
  ∃ called, deliveries (dispatch msg m) = deliveries m ++ ((λ l, (l, msg)) <$> called) ∧ NoDup called ∧
    ∀ l, l ∈ called ↔ ∃ k sub, (k, sub) ∈ subscriptions m ∧ hasListener m k l = true ∧
      clusterId sub = String a c ∧ path sub = sm_path msg ∧ query sub = sm_query msg.
Proof.
  intros R Hc [Hpc Hpp] Hplain. destruct (reachable_tables m R) as [K ND S L _].
  set (key := makeKey (String a c) (sm_path msg) (sm_query msg)). exists (default [] (listeners m !! key)). split_and!.
  - unfold dispatch. rewrite Hc. change (makeKey (String a c) _ _) with key.
    case_bool_decide as Hk; [done|]. apply eq_None_not_Some in Hk. rewrite Hk. simpl. by rewrite app_nil_r.
  - destruct (listeners m !! key) eqn:Hl; [by apply (L key)|apply NoDup_nil_2].
  - intros l. rewrite <-hasListener_default. split.
    + intros Hl. assert (Hk : key ∈ (subscriptions m).*1) by (apply K; unfold hasListener in Hl; case_match; [by eexists|done]).
      apply list_elem_of_fmap in Hk as ([k sub] & Hk & Hin). simpl in Hk. subst k. exists key, sub. split; [done|]. split; [done|].
      destruct (Hplain key sub Hin) as [? ?]. destruct (S key sub Hin) as [Hkey _].
      apply makeKey_inj in Hkey; [|done..]. naive_solver.
    + intros (k & sub & Hin & Hl & E1 & E2 & E3). destruct (S k sub Hin) as [-> _].
      unfold keyOf in Hl. by rewrite E1, E2, E3 in Hl.
Qed.

(** A pod frame on the page of two lists. *)
Lemma frame_reaches_its_watch_witness :
  ∃ called, deliveries (dispatch podFrame page) = deliveries page ++ ((λ l, (l, podFrame)) <$> called) ∧ called = [1].
Proof.
  destruct (frame_reaches_its_watch page podFrame "a" "") as (called & Hd & _ & Hin).
  - exact (calm_reachable page page_calm).
  - reflexivity.
  - split; reflexivity.
  - intros k sub H. assert (HF : Forall (λ kv, plain (clusterId kv.2) (path kv.2)) (subscriptions page)).
    { repeat constructor. }
    rewrite Forall_forall in HF. exact (HF _ H).
  - exists called. split; [exact Hd|]. vm_compute in Hd. destruct called as [|x [|]]; [discriminate| |discriminate].
    injection Hd as <-. reflexivity.
Defined.

(** ** What the runs show *)

(** A listener that leaves while its subscribe call is awaited takes the watch
    of a second listener of the same key with it: the key stays subscribed, the
    socket is open, no call is pending and nothing was ever asked of the server. *)
Lemma dropped_listener_starves :
  ∃ m : Mux nat,
    run mux0 [Subscribe nodes 0; Opened 0; Subscribe pods 1; Subscribe pods 2; Unsubscribe pods 1; Resumed; Resumed] = Some m ∧
    socket m = Some 0 ∧ isOpen m 0 = true ∧ resumes m = [] ∧ hasListener m (keyOf pods) 2 = true ∧
    keyOf pods ∉ watching 0 (sent m).
Proof. eexists. split; [vm_compute; reflexivity|]. split_and!; try reflexivity. by_decide. Qed.

(** A subscription made while the socket is closing opens a second socket, and
    the first one's close event forgets it: the reconnection opens a third, the
    second stays open, both watch the page and each change arrives twice. *)
Lemma closing_socket_orphans_its_successor :
  ∃ m : Mux nat,
    run mux0 [Subscribe pods 1; Opened 0; Closing 0; Subscribe nodes 2; Closed 0 1006 0; Opened 1; TimerFired; Opened 2;
              Message 1 podFrame; Message 2 podFrame] = Some m ∧
    socket m = Some 2 ∧ isOpen m 1 = true ∧ isOpen m 2 = true ∧
    keyOf pods ∈ watching 1 (sent m) ∧ keyOf pods ∈ watching 2 (sent m) ∧
    deliveries m = [(1, podFrame); (1, podFrame)].
Proof. eexists. split; [vm_compute; reflexivity|]. split_and!; try reflexivity; by_decide. Qed.
