(* ===== verification/Permissions.v ===== *)
(** * What the signed-in user may do

    utils/permissions.ts: the permission matrix of GET /auth/me (cluster id to
    permission keys), the pattern matching of a key, the deny-by-default reading
    of the matrix, and the name a kind has in a key. *)

From S2P Require Import Prelude JsString Json.

(** clusterID to permission keys; "*" holds the keys of every cluster. *)
Abbreviation PermissionMatrix := (gmap string (list string)).

(** The loop of [permMatches] over the segments [ps] of the pattern and [qs] of
    the key, from segment [i] on. *)
Fixpoint matchFrom (ps qs : list string) (rest : list string) (i : nat) : bool :=
  match rest with
  | [] => length ps =? length qs
  | p :: rest' =>
      if eqs p "*" && (i =? length ps - 1) then length ps <=? length qs
      else match qs !! i with
           | None => false
           | Some q => if negb (eqs p "*") && negb (eqs p q) then false else matchFrom ps qs rest' (S i)
           end
  end.

Definition permMatches (pattern perm : string) : bool :=
  if eqs pattern "*" || eqs pattern perm then true
  else let ps := split "." pattern in matchFrom ps (split "." perm) ps 0.

Definition matchAny (perms : option (list string)) (perm : string) : bool :=
  match perms with None => false | Some ps => some (λ p, permMatches p perm) ps end.

Definition hasPermission (matrix : PermissionMatrix) (perm clusterID : string) : bool :=
  if matchAny (matrix !! "*") perm then true
  else if startsWith "admin." perm then false
  else if nonempty clusterID then matchAny (matrix !! clusterID) perm else false.

Definition holdsOnAnyCluster (matrix : PermissionMatrix) (perm : string) : bool :=
  some (λ perms, matchAny (Some perms) perm) (snd <$> map_to_list matrix).

Definition waitsForCluster (keys : list string) (currentCluster : string) (matrix : PermissionMatrix) : bool :=
  if nonempty currentCluster || some (λ k, hasPermission matrix k "") keys then false
  else some (λ k, negb (startsWith "admin." k) && holdsOnAnyCluster matrix k) keys.

Definition strings (l : list value) : list string :=
  omap (λ v, match v with VStr s => Some s | _ => None end) l.

Definition parsePermissions (raw : value) : PermissionMatrix :=
  match raw with
  | VObj fs => foldl (λ out kv, match kv.2 with VArr v => <[kv.1 := strings v]> out | _ => out end) ∅ fs
  | _ => ∅
  end.

Definition PERM_RESOURCE_ALIASES : list (string * string) :=
  [("horizontalpodautoscaler", "hpa"); ("verticalpodautoscaler", "vpa"); ("poddisruptionbudget", "pdb");
   ("persistentvolume", "pv"); ("persistentvolumeclaim", "pvc"); ("customresourcedefinition", "crd");
   ("customresourceinstance", "customresource")].

Definition PERM_RESOURCES : list string :=
  ["pod"; "deployment"; "statefulset"; "daemonset"; "replicaset"; "job"; "cronjob";
   "service"; "endpoints"; "endpointslice"; "ingress"; "ingressclass"; "networkpolicy";
   "configmap"; "secret"; "serviceaccount";
   "role"; "rolebinding"; "clusterrole"; "clusterrolebinding";
   "namespace"; "node"; "storageclass"; "volumeattachment";
   "resourcequota"; "limitrange"; "priorityclass"; "runtimeclass"; "lease";
   "mutatingwebhookconfiguration"; "validatingwebhookconfiguration";
   "validatingadmissionpolicy"; "validatingadmissionpolicybinding"; "mutatingadmissionpolicy"; "mutatingadmissionpolicybinding";
   "gateway"; "gatewayclass"; "httproute"; "grpcroute"; "referencegrant"; "backendtlspolicy";
   "deviceclass"; "resourceclaim"; "resourceclaimtemplate"; "resourceslice";
   "cost"; "policyreport"; "networkflow";
   "hpa"; "vpa"; "pdb"; "pv"; "pvc"; "crd"].

(** The value a key has in a literal table, if any. *)
Definition lookupTable (k : string) (l : list (string * string)) : option string := snd <$> find (λ kv, eqs k kv.1) l.

Definition permResource (kind : string) : string :=
  let k := toLowerCase kind in
  let name := default k (lookupTable k PERM_RESOURCE_ALIASES) in
  if existsb (eqs name) PERM_RESOURCES then name else "customresource".

(** ** The promise: segment by segment *)

(** A star stands for one segment, the last star for one or more. *)
Inductive matches : list string → list string → Prop :=
  | match_end : matches [] []
  | match_rest q qs : matches ["*"] (q :: qs)
  | match_star p ps q qs : matches (p :: ps) qs → matches ("*" :: p :: ps) (q :: qs)
  | match_same p ps qs : p ≠ "*" → matches ps qs → matches (p :: ps) (p :: qs).

Definition grants (perms : option (list string)) (perm : string) : Prop :=
  ∃ ps p, perms = Some ps ∧ p ∈ ps ∧ permMatches p perm = true.

(** ** Lemmas *)

Lemma matchFrom_spec pre qpre rest qs :
  length pre = length qpre → matchFrom (pre ++ rest) (qpre ++ qs) rest (length pre) = true ↔ matches rest qs.
Proof.
  revert pre qpre qs. induction rest as [|p rest IH]; intros pre qpre qs Hl; simpl.
  - rewrite app_nil_r, length_app, Nat.eqb_eq. split.
    + intros H. destruct qs; [constructor|simpl in H; lia].
    + inversion 1; simpl; lia.
  - rewrite length_app. simpl. rewrite Hl, lookup_app_r, Nat.sub_diag by lia.
    assert (Hnext : ∀ q qs', matchFrom (pre ++ p :: rest) (qpre ++ q :: qs') rest (S (length qpre)) = true ↔ matches rest qs').
    { intros q qs'. rewrite (cons_middle p), (cons_middle q), !app_assoc.
      rewrite <-(IH (pre ++ [p]) (qpre ++ [q])); rewrite !length_app; simpl; [|lia]. by rewrite Hl, Nat.add_1_r. }
    destruct (eqs p "*") eqn:Ep; cbn [andb negb].
    + apply eqs_true in Ep as ->. destruct (decide (rest = [])) as [->|Hne].
      * simpl. replace (length qpre =? _) with true by (symmetry; apply Nat.eqb_eq; lia).
        rewrite Nat.leb_le, length_app. split; [|inversion 1; simpl in *; [lia|done]].
        destruct qs; simpl; [lia|constructor].
      * assert (length rest ≠ 0) by by destruct rest.
        replace (length qpre =? _) with false by (symmetry; apply Nat.eqb_neq; lia).
        destruct qs as [|q qs]; [split; [done|by inversion 1]|]. cbn [lookup list_lookup]. rewrite Hnext.
        destruct rest; [done|]. split; [by constructor|by inversion 1].
    + apply eqs_false in Ep. destruct qs as [|q qs]; [split; [done|by inversion 1]|]. cbn [lookup list_lookup].
      destruct (eqs p q) eqn:Eq; cbn [negb].
      * apply eqs_true in Eq as ->. rewrite Hnext. split; [by constructor|inversion 1; done].
      * apply eqs_false in Eq. split; [done|]. by inversion 1.
Qed.

Lemma matchAny_true perms perm : matchAny perms perm = true ↔ grants perms perm.
Proof.
  unfold matchAny, grants. destruct perms as [ps|]; [|split; [done|by intros (? & ? & ? & _)]].
  rewrite some_true. split; [intros (p & ? & ?); eauto|intros (? & p & [= <-] & ? & ?); eauto].
Qed.

Lemma holdsOnAnyCluster_true m perm : holdsOnAnyCluster m perm = true ↔ ∃ c, grants (m !! c) perm.
Proof.
  unfold holdsOnAnyCluster. rewrite some_true. setoid_rewrite matchAny_true. split.
  - intros (ps & ([c ps'] & -> & Hc)%list_elem_of_fmap & Hg). apply elem_of_map_to_list in Hc.
    exists c. by rewrite Hc.
  - intros (c & ps & p & Hc & Hp). exists ps. split; [|by exists ps, p].
    apply list_elem_of_fmap. exists (c, ps). by rewrite elem_of_map_to_list.
Qed.

(** The matrix as the server sends it. *)
Definition matrixJson (m : PermissionMatrix) : value := VObj ((λ kv, (kv.1, VArr (VStr <$> kv.2))) <$> map_to_list m).

Lemma strings_VStr l : strings (VStr <$> l) = l.
Proof. induction l as [|s l IH]; [done|]. unfold strings in *. csimpl. by rewrite IH. Qed.

(** * Properties *)

(** A permission pattern matches a key exactly when it is the lone star, the
    key itself, or matches it segment by segment: a star stands for one segment,
    a star at the end for one or more, any other segment for itself. *)
Theorem permMatches_segments pattern perm :
  permMatches pattern perm = true ↔ pattern = "*" ∨ pattern = perm ∨ matches (split "." pattern) (split "." perm).
Proof.
  unfold permMatches. pose proof (matchFrom_spec [] [] (split "." pattern) (split "." perm) eq_refl) as Hm.
  simpl in Hm. rewrite <-Hm. destruct (eqs pattern "*") eqn:E1; simpl; [apply eqs_true in E1; tauto|].
  destruct (eqs pattern perm) eqn:E2; [apply eqs_true in E2; tauto|].
  apply eqs_false in E1, E2. tauto.
Qed.

(** Access is denied by default: a key is held exactly when a pattern of the
    every-cluster entry grants it or, for a key that is not an admin key and a
    cluster that is chosen, a pattern of that cluster's own entry does. *)
Theorem hasPermission_denies_by_default matrix perm clusterID :
  hasPermission matrix perm clusterID = true ↔
    grants (matrix !! "*") perm ∨
    (startsWith "admin." perm = false ∧ clusterID ≠ "" ∧ grants (matrix !! clusterID) perm).
Proof.
  unfold hasPermission. rewrite <-!matchAny_true. destruct (matchAny (matrix !! "*") perm); [tauto|].
  destruct (startsWith "admin." perm); [naive_solver|].
  destruct (nonempty clusterID) eqn:En; [apply nonempty_true in En|apply not_true_iff_false in En; rewrite nonempty_true in En]; naive_solver.
Qed.

(** A route waits for the cluster picker only when picking can help: no
    cluster is chosen, no key of the route passes as it is, and some cluster
    would let one pass. *)
Theorem waitsForCluster_can_help keys currentCluster matrix :
  matrix !! "" = None →
  waitsForCluster keys currentCluster matrix = true ↔
    currentCluster = "" ∧ (∀ k, k ∈ keys → hasPermission matrix k "" = false) ∧
    ∃ k c, k ∈ keys ∧ hasPermission matrix k c = true.
Proof.
  intros Hm. assert (Hk : (∀ k, k ∈ keys → hasPermission matrix k "" = false) →
    ∀ k, k ∈ keys → (∃ c, hasPermission matrix k c = true) ↔ startsWith "admin." k = false ∧ ∃ c, grants (matrix !! c) k).
  { intros Hno k Hin. specialize (Hno k Hin). unfold hasPermission in *. setoid_rewrite <-matchAny_true.
    destruct (matchAny (matrix !! "*") k) eqn:Es; [done|]. destruct (startsWith "admin." k); [naive_solver|]. split.
    - intros [c Hc]. destruct (nonempty c); [eauto|done].
    - intros [_ [c Hc]]. exists c. destruct (nonempty c) eqn:Ec; [done|].
      apply not_true_iff_false in Ec. rewrite nonempty_true in Ec. apply dec_stable in Ec as ->. by rewrite Hm in Hc. }
  unfold waitsForCluster. destruct (nonempty currentCluster) eqn:En; simpl.
  { apply nonempty_true in En. naive_solver. }
  apply not_true_iff_false in En. rewrite nonempty_true in En. apply dec_stable in En as ->.
  destruct (some _ keys) eqn:Es.
  - apply some_true in Es as (k & ? & ?). split; [done|]. intros (_ & Hno & _). by rewrite Hno in H0.
  - assert (Hno : ∀ k, k ∈ keys → hasPermission matrix k "" = false).
    { intros k Hin. destruct (hasPermission matrix k "") eqn:Ek; [|done]. by rewrite <-Es, (proj2 (some_true _ _)) by eauto. }
    rewrite some_true. setoid_rewrite andb_true_iff. setoid_rewrite negb_true_iff. setoid_rewrite holdsOnAnyCluster_true. split.
    + intros (k & Hin & Ha & Hg). split_and!; [done..|]. destruct (proj2 (Hk Hno k Hin)) as [c Hc]; [done|]. eauto.
    + intros (_ & _ & k & c & Hin & Hc). exists k. split; [done|]. apply (Hk Hno k Hin). eauto.
Qed.

(** A bookmark to a pod list with read access on one cluster. *)
Lemma waitsForCluster_can_help_witness :
  let m := {["east" := ["resource.*.read"]]} : PermissionMatrix in
  waitsForCluster ["resource.pod.read"] "" m = true ∧
  (∀ k, k ∈ ["resource.pod.read"] → hasPermission m k "" = false).
Proof.
  split; [vm_compute; reflexivity|].
  apply (waitsForCluster_can_help ["resource.pod.read"] "" {["east" := ["resource.*.read"]]}); vm_compute; reflexivity.
Defined.

(** The matrix survives its JSON: what the server sends for a matrix is read
    back as that matrix, and anything that is not an object grants nothing. *)
Theorem parsePermissions_roundtrip (m : PermissionMatrix) raw perm c :
  parsePermissions (matrixJson m) = m ∧
  ((∀ fs, raw ≠ VObj fs) → hasPermission (parsePermissions raw) perm c = false).
Proof.
  split.
  - unfold parsePermissions, matrixJson.
    assert (Hf : ∀ l (out : PermissionMatrix), NoDup l.*1 → (∀ k, k ∈ l.*1 → out !! k = None) →
      foldl (λ out kv, match kv.2 with VArr v => <[kv.1 := strings v]> out | _ => out end) out
        ((λ kv, (kv.1, VArr (VStr <$> kv.2))) <$> l) = list_to_map l ∪ out).
    { induction l as [|[k ps] l IH]; intros out Hnd Hout; csimpl; [by rewrite (left_id_L ∅ (∪))|].
      csimpl in Hnd. apply NoDup_cons in Hnd as [Hk Hnd]. rewrite strings_VStr, IH; [|done|].
      - rewrite <-insert_union_r; [by rewrite insert_union_l|]. by apply not_elem_of_list_to_map_1.
      - intros k' Hk'. rewrite lookup_insert_ne by set_solver. apply Hout. csimpl. by right. }
    rewrite Hf; [|apply NoDup_fst_map_to_list|by intros; apply lookup_empty].
    by rewrite list_to_map_to_list, (right_id_L ∅ (∪)).
  - intros H. replace (parsePermissions raw) with (∅ : PermissionMatrix); [|by destruct raw as [| | | | | | |fs]; try done; destruct (H fs)].
    unfold hasPermission. rewrite !lookup_empty. change (matchAny None perm) with false. cbv iota.
    destruct (startsWith "admin." perm); [done|]. by destruct (nonempty c).
Qed.

(** Every kind has a permission name the server knows, its own or the
    custom resource's, and a name stands for itself. *)
Theorem permResource_known kind :
  (permResource kind ∈ PERM_RESOURCES ∨ permResource kind = "customresource") ∧
  permResource (permResource kind) = permResource kind.
Proof.
  assert (Hs : permResource kind ∈ PERM_RESOURCES ∨ permResource kind = "customresource").
  { unfold permResource. destruct (existsb _ _) eqn:E; [left|by right].
    apply existsb_exists in E as (n & Hn & ->%eqs_true). by apply list_elem_of_In. }
  split; [done|]. destruct Hs as [Hs| ->]; [|reflexivity].
  assert (HF : Forall (λ n, permResource n = n) PERM_RESOURCES) by by_decide.
  rewrite Forall_forall in HF. by apply HF.
Qed.
