(* ===== verification/Time.v ===== *)
(** * Ages and durations

    utils/time.ts: reading an API timestamp, ages, and HumanDuration as kubectl
    prints it.  A time is in milliseconds since the Unix epoch; [now] is
    [Date.now()].  What depends on the viewer's time zone (formatTime, formatDate,
    parseTypedTime) is not modelled. *)

From S2P Require Import Prelude JsString Json.

(** Days from 1970-01-01 to a date of the proleptic Gregorian calendar. *)
Definition daysFromCivil (y m d : Z) : Z :=
  let y' := (if m <=? 2 then y - 1 else y)%Z in
  let era := (y' / 400)%Z in
  let yoe := (y' - era * 400)%Z in
  let doy := ((153 * (if m <=? 2 then m + 9 else m - 3) + 2) / 5 + d - 1)%Z in
  let doe := (yoe * 365 + yoe / 4 - yoe / 100 + doy)%Z in
  (era * 146097 + doe - 719468)%Z.

(** The two, three or four digits a string starts with. *)
Definition digits (n : nat) (s : string) : option Z :=
  if String.length (stake n s) =? n then digitsValue 0 (stake n s) else None.

(** The fraction and the zone of a timestamp: milliseconds and the zone's offset
    in minutes. *)
Definition zoneOf (s : string) : option Z :=
  match s with
  | "Z" => Some 0%Z
  | String sign r =>
      if bool_decide (String.length r = 5) && startsWith ":" (sdrop 2 r) then
        h ← digits 2 r; mi ← digits 2 (sdrop 3 r);
        let off := (h * 60 + mi)%Z in
        if bool_decide (sign = "+"%char) then Some off
        else if bool_decide (sign = "-"%char) then Some (- off)%Z else None
      else None
  | "" => None
  end.

Fixpoint fraction (n : nat) (scale acc : Z) (s : string) : Z * string :=
  match n, s with
  | S n', String c s' =>
      if is_digit c then fraction n' (scale / 10) (acc + scale * Z.of_nat (nat_of_ascii c - 48))%Z s' else (acc, s)
  | _, _ => (acc, s)
  end.

(** [new Date(s).getTime()] of an RFC 3339 timestamp, as the API writes its
    times; [None] is an Invalid Date. *)
Definition parseDate (s : string) : option Z :=
  let field i n := digits n (sdrop i s) in
  let mark i c := startsWith c (sdrop i s) in
  if mark 4 "-" && mark 7 "-" && mark 10 "T" && mark 13 ":" && mark 16 ":" then
    y ← field 0 4; mo ← field 5 2; d ← field 8 2; h ← field 11 2; mi ← field 14 2; sec ← field 17 2;
    if negb ((1 <=? mo) && (mo <=? 12) && (1 <=? d) && (d <=? 31) && (h <=? 23) && (mi <=? 59) && (sec <=? 59))%Z then None else
    let rest := sdrop 19 s in
    let '(ms, rest') := if startsWith "." rest then fraction (String.length rest) 100 0 (sdrop 1 rest) else (0%Z, rest) in
    off ← zoneOf rest';
    Some ((((daysFromCivil y mo d * 24 + h) * 60 + mi - off) * 60 + sec) * 1000 + ms)%Z
  else None.

(** 1980-01-01T00:00:00Z: what lies before it is no time ([toDate], in a zone
    near UTC). *)
Definition EPOCH_1980 : Z := 315532800000.

Definition toDate (value : Json.value) : option Z :=
  match value with
  | VStr s => if nonempty s then t ← parseDate s; if (t <? EPOCH_1980)%Z then None else Some t else None
  | VNum t => if (t <? EPOCH_1980)%Z then None else Some t
  | _ => None
  end.

Definition ageSeconds (now : Z) (value : Json.value) : Z :=
  match toDate value with Some d => Z.max 0 ((now - d) / 1000) | None => 0%Z end.

(** Of whole seconds, [Math.trunc(seconds)]. *)
Definition humanDuration (s : Z) : string :=
  (if s <? -1 then "<invalid>"
   else if s <? 0 then "0s"
   else if s <? 60 * 2 then pretty s +:+ "s"
   else
     let minutes := s / 60 in
     if minutes <? 10 then
       if s mod 60 =? 0 then pretty minutes +:+ "m" else pretty minutes +:+ "m" +:+ pretty (s mod 60) +:+ "s"
     else if minutes <? 60 * 3 then pretty minutes +:+ "m"
     else
       let hours := s / 3600 in
       if hours <? 8 then
         if minutes mod 60 =? 0 then pretty hours +:+ "h" else pretty hours +:+ "h" +:+ pretty (minutes mod 60) +:+ "m"
       else if hours <? 48 then pretty hours +:+ "h"
       else if hours <? 24 * 8 then
         if hours mod 24 =? 0 then pretty (hours / 24) +:+ "d"
         else pretty (hours / 24) +:+ "d" +:+ pretty (hours mod 24) +:+ "h"
       else
         let days := hours / 24 in
         if hours <? 24 * 365 * 2 then pretty days +:+ "d"
         else if hours <? 24 * 365 * 8 then
           if days mod 365 =? 0 then pretty (days / 365) +:+ "y"
           else pretty (days / 365) +:+ "y" +:+ pretty (days mod 365) +:+ "d"
         else pretty (days / 365) +:+ "y")%Z.

Definition formatAge (now : Z) (value : Json.value) : string :=
  match toDate value with Some d => humanDuration (Z.quot (now - d) 1000) | None => "-" end.

(** ** What a duration's text says *)

(** The units of the text and their seconds. *)
Definition units : list (string * Z) := [("s", 1); ("m", 60); ("h", 3600); ("d", 86400); ("y", 31536000)]%Z.

(** A text of counted units, and the seconds it names. *)
Definition spell (ps : list (Z * (string * Z))) : string := join "" ((λ p, pretty p.1 +:+ p.2.1) <$> ps).
Definition named (ps : list (Z * (string * Z))) : Z := foldr (λ p n, p.1 * p.2.2 + n)%Z 0%Z ps.

(** The step between two ages the text tells apart. *)
Definition grain (s : Z) : Z :=
  (if s <? 600 then 1 else if s <? 8 * 3600 then 60 else if s <? 8 * 86400 then 3600
   else if s <? 8 * 31536000 then 86400 else 31536000)%Z.

Lemma spell_one n u k : spell [(n, (u, k))] = pretty n +:+ u.
Proof. done. Qed.

Lemma spell_two n u k n' u' k' : spell [(n, (u, k)); (n', (u', k'))] = pretty n +:+ u +:+ pretty n' +:+ u'.
Proof. unfold spell. simpl. by rewrite app_nil_l_s, app_assoc_s. Qed.

(** One count of a unit, or two. *)
Definition tells (s : Z) (text : string) : Prop :=
  ∃ ps, text = spell ps ∧ 1 ≤ length ps ≤ 2 ∧ Forall (λ p, p.2 ∈ units ∧ (0 ≤ p.1)%Z) ps ∧
    (named ps ≤ s < named ps + grain s)%Z.

Ltac in_units := unfold units; rewrite !elem_of_cons; tauto.

Lemma tells_one s n u k :
  (u, k) ∈ units → (0 ≤ n)%Z → (n * k ≤ s < n * k + grain s)%Z → tells s (pretty n +:+ u).
Proof.
  intros Hu Hn Hs. exists [(n, (u, k))]. split; [by rewrite spell_one|]. split; [simpl; lia|].
  split; [by apply Forall_singleton|]. unfold named. simpl. lia.
Qed.

Lemma tells_two s n u k n' u' k' :
  (u, k) ∈ units → (u', k') ∈ units → (0 ≤ n)%Z → (0 ≤ n')%Z →
  (n * k + n' * k' ≤ s < n * k + n' * k' + grain s)%Z → tells s (pretty n +:+ u +:+ pretty n' +:+ u').
Proof.
  intros Hu Hu' Hn Hn' Hs. exists [(n, (u, k)); (n', (u', k'))]. split; [by rewrite spell_two|]. split; [simpl; lia|].
  split; [by repeat apply Forall_cons_2; [..|apply Forall_nil_2]|]. unfold named. simpl. lia.
Qed.

(** The quotient and remainder a step of the code takes. *)
Ltac quotients s :=
  pose proof (Z.div_mod s 60 ltac:(lia)); pose proof (Z.mod_pos_bound s 60 ltac:(lia));
  pose proof (Z.div_mod s 3600 ltac:(lia)); pose proof (Z.mod_pos_bound s 3600 ltac:(lia));
  pose proof (Z.div_mod (s / 60) 60 ltac:(lia)); pose proof (Z.mod_pos_bound (s / 60) 60 ltac:(lia));
  pose proof (Z.div_mod (s / 3600) 24 ltac:(lia)); pose proof (Z.mod_pos_bound (s / 3600) 24 ltac:(lia));
  pose proof (Z.div_mod (s / 3600 / 24) 365 ltac:(lia)); pose proof (Z.mod_pos_bound (s / 3600 / 24) 365 ltac:(lia));
  assert ((s / 60 / 60 = s / 3600)%Z) by (rewrite Z.div_div by lia; done).

Lemma grain_cases s :
  (s < 600 → grain s = 1)%Z ∧ (600 ≤ s < 28800 → grain s = 60)%Z ∧ (28800 ≤ s < 691200 → grain s = 3600)%Z ∧
  (691200 ≤ s < 252288000 → grain s = 86400)%Z ∧ (252288000 ≤ s → grain s = 31536000)%Z.
Proof. unfold grain. repeat case_match; lia. Qed.

(** * Properties *)

(** An age is read off truthfully: the text of [s] seconds is one or two
    counts of units, the larger first, that name at most [s] and fall short of
    it by less than the step kubectl's HumanDuration shows at that age (a second
    below ten minutes, a minute below eight hours, an hour below eight days, a
    day below eight years, then a year). *)
Theorem humanDuration_truncates s :
  (0 ≤ s)%Z →
  ∃ ps, humanDuration s = spell ps ∧ 1 ≤ length ps ≤ 2 ∧ Forall (λ p, p.2 ∈ units ∧ (0 ≤ p.1)%Z) ps ∧
    (named ps ≤ s < named ps + grain s)%Z.
Proof.
  intros Hs. change (tells s (humanDuration s)). quotients s. destruct (grain_cases s) as (G1 & G2 & G3 & G4 & G5).
  unfold humanDuration. cbv zeta.
  repeat match goal with
  | |- tells _ (if ?b then _ else _) => destruct b eqn:?
  end;
  rewrite ?Z.ltb_lt, ?Z.ltb_ge, ?Z.eqb_eq in *;
  first [lia | eapply tells_one; [in_units|lia|lia] | eapply tells_two; [in_units|in_units|lia|lia|lia]].
Qed.

(** Three days, four hours and a half. *)
Lemma humanDuration_truncates_witness :
  humanDuration 275400 = "3d4h" ∧
  ∃ ps, humanDuration 275400 = spell ps ∧ 1 ≤ length ps ≤ 2 ∧ Forall (λ p, p.2 ∈ units ∧ (0 ≤ p.1)%Z) ps ∧
    (named ps ≤ 275400 < named ps + grain 275400)%Z.
Proof. split; [vm_compute; reflexivity|]. apply (humanDuration_truncates 275400). lia. Defined.

Example parseDate_examples :
  parseDate "1970-01-02T00:00:01Z" = Some 86401000%Z ∧
  parseDate "2026-10-10T12:00:00.25+09:00" = parseDate "2026-10-10T03:00:00.250Z" ∧
  parseDate "2026-10-10T12:00:00Z" = Some 1791633600000%Z ∧ parseDate "not a time" = None.
Proof. vm_compute. done. Qed.
