(* ===== verification/WorkloadRows.v ===== *)
(** * The rows of the workload lists

    pages/workloads/*/*WatchNormalize.ts: an object of a watch, raw or already a
    row, as the row the list shows, and the callbacks that apply it.  A list the
    source iterates without a check is read as empty when it is neither an array
    nor missing; the API sends arrays there. *)

From S2P Require Import Prelude JsString Json Time WatchRows.

(** [metadata?.name ?? obj?.name ?? ''] and its like. *)
Definition rowName (obj : value) : value := obj .@ "metadata" .@ "name" ?? obj .@ "name" ?? VStr "".
Definition rowNamespace (obj : value) : value := obj .@ "metadata" .@ "namespace" ?? obj .@ "namespace" ?? VStr "".
Definition rowCreatedAt (obj none : value) : value :=
  obj .@ "metadata" .@ "creationTimestamp" ?? obj .@ "created_at" ?? none.

(** The four fields a row keeps of an owner reference. *)
Definition ownerRef (r : value) : value :=
  VObj [("kind", r .@ "kind" ?? VNull); ("name", r .@ "name" ?? VNull); ("uid", r .@ "uid" ?? VNull);
        ("controller", r .@ "controller" ?? VNull)].

(** [Array.isArray(metadata?.ownerReferences) ? ... : Array.isArray(obj?.owner_references) ? ... : []]. *)
Definition ownersOf (obj : value) : list value :=
  if isArray (obj .@ "metadata" .@ "ownerReferences") then asArray (obj .@ "metadata" .@ "ownerReferences")
  else asArray (obj .@ "owner_references").

Module Pods.

Definition toSerializedContainerState (state : value) : value :=
  if negb (truthy state) || negb (isObject state) then VUndef else
  let w := state .@ "waiting" in
  let t := state .@ "terminated" in
  let r := state .@ "running" in
  let waiting := VObj [("reason", w .@ "reason" ?? VNull); ("message", w .@ "message" ?? VNull)] in
  let terminated :=
    VObj [("reason", t .@ "reason" ?? VNull); ("message", t .@ "message" ?? VNull);
          ("exit_code", t .@ "exitCode" ?? t .@ "exit_code" ?? VNull); ("signal", t .@ "signal" ?? VNull);
          ("started_at", t .@ "startedAt" ?? t .@ "started_at" ?? VNull);
          ("finished_at", t .@ "finishedAt" ?? t .@ "finished_at" ?? VNull)] in
  let running := VObj [("started_at", r .@ "startedAt" ?? r .@ "started_at" ?? VNull)] in
  let result :=
    (if truthy w then [("waiting", waiting)] else []) ++
    (if truthy t then [("terminated", terminated)] else []) ++
    (if truthy r then [("running", running)] else []) in
  if bool_decide (result = []) then VUndef else VObj result.

(** The spec a container status is joined with: the last container of its name. *)
Definition specByName (specContainers : list value) (name : value) : option value :=
  find (λ c, strictEq (c .@ "name") name) (rev specContainers).

Definition portOf (p : value) : value :=
  VObj [("name", p .@ "name" ?? VNull); ("container_port", p .@ "containerPort" ?? p .@ "container_port" ?? VNull);
        ("protocol", p .@ "protocol" ?? VNull)].

Definition mapStatus (specContainers : list value) (containerStatus : value) : value :=
  let ref := specByName specContainers (containerStatus .@ "name") in
  let limits := match ref with Some c => c .@ "resources" .@ "limits" ?? VNull | None => VNull end in
  let requests := match ref with Some c => c .@ "resources" .@ "requests" ?? VNull | None => VNull end in
  let ports := match ref with Some c => portOf <$> asArray (c .@ "ports") | None => [] end in
  VObj [("name", containerStatus .@ "name" ?? VStr ""); ("image", containerStatus .@ "image" ?? VStr "");
        ("ready", boolv (containerStatus .@ "ready"));
        ("restart_count", containerStatus .@ "restartCount" ?? containerStatus .@ "restart_count" ?? VNum 0);
        ("state", toSerializedContainerState (containerStatus .@ "state"));
        ("last_state", toSerializedContainerState (containerStatus .@ "lastState" ?? containerStatus .@ "last_state"));
        ("limits", limits); ("requests", requests); ("ports", VArr ports)].

(** The names put in a set in turn, those that are not empty. *)
Definition namesIn (names : list value) : list value := foldl (λ acc n, if truthy n then addTo n acc else acc) [] names.

(** The names the spec's volumes, environments and pull secrets refer to. *)
Definition volumeRefs (direct : value → value) (projected : value → value) (spec : value) : list value :=
  v ← asArray (spec .@ "volumes"); direct v :: (projected <$> asArray (v .@ "projected" .@ "sources")).

Definition envRefs (from : string) (key : string) (containers : value) : list value :=
  c ← asArray containers;
  ((λ e, e .@ from .@ "name") <$> asArray (c .@ "envFrom")) ++
  ((λ e, e .@ "valueFrom" .@ key .@ "name") <$> asArray (c .@ "env")).

Definition cmRefs (obj spec : value) : list value :=
  namesIn (volumeRefs (λ v, v .@ "configMap" .@ "name") (λ s, s .@ "configMap" .@ "name") spec ++
           envRefs "configMapRef" "configMapKeyRef" (spec .@ "containers") ++
           envRefs "configMapRef" "configMapKeyRef" (spec .@ "initContainers") ++
           asArray (obj .@ "config_map_refs")).

Definition secretRefs (obj spec : value) : list value :=
  namesIn (volumeRefs (λ v, v .@ "secret" .@ "secretName") (λ s, s .@ "secret" .@ "name") spec ++
           envRefs "secretRef" "secretKeyRef" (spec .@ "containers") ++
           envRefs "secretRef" "secretKeyRef" (spec .@ "initContainers") ++
           pluck "name" (asArray (spec .@ "imagePullSecrets")) ++
           asArray (obj .@ "secret_refs")).

(** [refs.size > 0 ? Array.from(refs) : undefined]. *)
Definition orUndefined (l : list value) : value := if bool_decide (l = []) then VUndef else VArr l.

Definition resourceClaims (field source : string) (obj spec : value) : value :=
  if isArray (obj .@ field) then obj .@ field
  else orUndefined (compact ((λ rc, rc .@ "source" .@ source) <$> asArray (spec .@ "resourceClaims"))).

Definition isRow (obj : value) : bool :=
  isString (obj .@ "status") && isString (obj .@ "namespace") && isString (obj .@ "name").

Definition containersOf (raw fallback : value) (specContainers : list value) : list value :=
  if bool_decide (asArray raw = []) then asArray fallback else mapStatus specContainers <$> asArray raw.

Definition readyCount (containers : list value) : nat := length (filterb (λ c, truthy (c .@ "ready")) containers).

Definition restartSum (containers : list value) : value :=
  foldl (λ sum c, jsAdd sum (c .@ "restart_count" ?? VNum 0)) (VNum 0) containers.

Definition normalizeWatchPodObject (obj : value) : value :=
  if isRow obj then obj else
  let metadata := obj .@ "metadata" ?? VObj [] in
  let spec := obj .@ "spec" ?? VObj [] in
  let status := obj .@ "status" ?? VObj [] in
  let specContainers := asArray (spec .@ "containers") in
  let containers := containersOf (status .@ "containerStatuses") (obj .@ "containers") specContainers in
  let init_containers := containersOf (status .@ "initContainerStatuses") (obj .@ "init_containers") specContainers in
  let phase := status .@ "phase" ?? obj .@ "phase" ?? (if isString (obj .@ "status") then obj .@ "status" else VStr "Unknown") in
  VObj [("name", rowName obj); ("namespace", rowNamespace obj); ("status", phase); ("phase", phase);
        ("status_reason", status .@ "reason" ?? obj .@ "status_reason" ?? VNull);
        ("status_message", status .@ "message" ?? obj .@ "status_message" ?? VNull);
        ("node_name", spec .@ "nodeName" ?? obj .@ "node_name" ?? VNull);
        ("pod_ip", status .@ "podIP" ?? obj .@ "pod_ip" ?? VNull);
        ("containers", VArr containers); ("init_containers", VArr init_containers);
        ("labels", metadata .@ "labels" ?? obj .@ "labels" ?? VObj []);
        ("created_at", rowCreatedAt obj VNull);
        ("restart_count", restartSum containers);
        ("ready", if bool_decide (containers = []) then obj .@ "ready" ?? VStr "0/0"
                  else VStr (pretty (readyCount containers) +:+ "/" +:+ pretty (length containers)));
        ("owner_references", VArr (ownerRef <$> ownersOf obj));
        ("service_account_name", spec .@ "serviceAccountName" ?? obj .@ "service_account_name" ?? VUndef);
        ("config_map_refs", orUndefined (cmRefs obj spec)); ("secret_refs", orUndefined (secretRefs obj spec));
        ("priority_class_name", spec .@ "priorityClassName" ?? obj .@ "priority_class_name" ?? VUndef);
        ("runtime_class_name", spec .@ "runtimeClassName" ?? obj .@ "runtime_class_name" ?? VUndef);
        ("resource_claims", resourceClaims "resource_claims" "resourceClaimName" obj spec);
        ("resource_claim_templates", resourceClaims "resource_claim_templates" "resourceClaimTemplateName" obj spec)].

Definition applyPodWatchEvent := applyNormalized normalizeWatchPodObject.

End Pods.

Module Jobs.

(** The server's rule for a Job's status, on the object's conditions. *)
Definition statusOfObject (conditions : value) (deleting : bool) : string :=
  let holds type := isStr (findv (λ c, isStr (c .@ "type") type) (asArray conditions) .@ "status") "True" in
  if holds "Complete" then "Complete"
  else if holds "Failed" then "Failed"
  else if deleting then "Terminating"
  else if holds "Suspended" then "Suspended"
  else if holds "FailureTarget" then "FailureTarget"
  else if holds "SuccessCriteriaMet" then "SuccessCriteriaMet"
  else "Running".

Definition completionsOfObject (completions parallelism succeeded : value) : string :=
  let done := toString (numv (toNumber (succeeded ?? VNum 0))) in
  if negb (nullish completions) then done +:+ "/" +:+ toString completions
  else if jsLt (VNum 1) (parallelism ?? VNum 0) then done +:+ "/1 of " +:+ toString parallelism
  else done +:+ "/1".

(** [t ? String(t) : null]. *)
Definition timeText (t : value) : value := if truthy t then VStr (toString t) else VNull.

(** Whole seconds from start to completion, when both are times in order. *)
Definition durationOf (startTime completionTime : value) : value :=
  match startTime, completionTime with
  | VStr s, VStr e =>
      match parseDate s, parseDate e with
      | Some start, Some ended => if (start <=? ended)%Z then VNum ((ended - start) / 1000) else VNull
      | _, _ => VNull
      end
  | _, _ => VNull
  end.

Definition isRow (obj : value) : bool :=
  isString (obj .@ "name") && isString (obj .@ "namespace") && isString (obj .@ "status").

Definition normalizeWatchJobObject (obj : value) : value :=
  if isRow obj then obj else
  let metadata := obj .@ "metadata" ?? VObj [] in
  let spec := obj .@ "spec" ?? VObj [] in
  let status := obj .@ "status" ?? VObj [] in
  let containers := asArray (spec .@ "template" .@ "spec" .@ "containers") in
  let startTime := timeText (status .@ "startTime") in
  let completionTime := timeText (status .@ "completionTime") in
  VObj [("name", rowName obj); ("namespace", rowNamespace obj);
        ("completions", spec .@ "completions" ?? obj .@ "completions" ?? VNull);
        ("completions_text",
          VStr (completionsOfObject (spec .@ "completions" ?? obj .@ "completions")
                  (spec .@ "parallelism" ?? obj .@ "parallelism") (status .@ "succeeded" ?? obj .@ "succeeded")));
        ("parallelism", spec .@ "parallelism" ?? obj .@ "parallelism" ?? VNull);
        ("active", status .@ "active" ?? obj .@ "active" ?? VNum 0);
        ("succeeded", status .@ "succeeded" ?? obj .@ "succeeded" ?? VNum 0);
        ("failed", status .@ "failed" ?? obj .@ "failed" ?? VNum 0);
        ("status", VStr (statusOfObject (status .@ "conditions") (truthy (metadata .@ "deletionTimestamp"))));
        ("containers", VArr (compact (pluck "name" containers)));
        ("images", VArr (compact (pluck "image" containers)));
        ("start_time", startTime ?? obj .@ "start_time" ?? VNull);
        ("completion_time", completionTime ?? obj .@ "completion_time" ?? VNull);
        ("duration_seconds", durationOf startTime completionTime ?? obj .@ "duration_seconds" ?? VNull);
        ("created_at", rowCreatedAt obj VNull);
        ("owner_references", VArr (ownerRef <$> ownersOf obj))].

Definition applyJobWatchEvent := applyNormalized normalizeWatchJobObject.

End Jobs.

Module CronJobs.

Definition isRow (obj : value) : bool :=
  isString (obj .@ "name") && isString (obj .@ "namespace") && isString (obj .@ "schedule").

(** [Number(v || 0)] as a value. *)
Definition numberOr0 (v : value) : value := numv (toNumber (v |? VNum 0)).

Definition normalizeWatchCronJobObject (obj : value) : value :=
  if isRow obj then
    spread obj [("suspend", boolv (obj .@ "suspend")); ("active", numberOr0 (obj .@ "active"));
                ("containers", arrayOr (obj .@ "containers")); ("images", arrayOr (obj .@ "images"))]
  else
  let spec := obj .@ "spec" ?? VObj [] in
  let status := obj .@ "status" ?? VObj [] in
  let containers := asArray (spec .@ "jobTemplate" .@ "spec" .@ "template" .@ "spec" .@ "containers") in
  VObj [("name", rowName obj); ("namespace", rowNamespace obj);
        ("schedule", spec .@ "schedule" ?? obj .@ "schedule" ?? VStr "-");
        ("suspend", boolv (spec .@ "suspend" ?? obj .@ "suspend" ?? VBool false));
        ("concurrency_policy", spec .@ "concurrencyPolicy" ?? obj .@ "concurrency_policy" ?? VNull);
        ("active", if isArray (status .@ "active") then VNum (vlength (asArray (status .@ "active")))
                   else numberOr0 (obj .@ "active"));
        ("last_schedule_time", status .@ "lastScheduleTime" ?? obj .@ "last_schedule_time" ?? VNull);
        ("last_successful_time", status .@ "lastSuccessfulTime" ?? obj .@ "last_successful_time" ?? VNull);
        ("time_zone", spec .@ "timeZone" ?? obj .@ "time_zone" ?? VNull);
        ("containers", VArr (compact (pluck "name" containers)));
        ("images", VArr (compact (pluck "image" containers)));
        ("created_at", rowCreatedAt obj VNull)].

Definition applyCronJobWatchEvent := applyNormalized normalizeWatchCronJobObject.

End CronJobs.

Module Deployments.

(** A Deployment's status word and reason by its conditions. *)
Definition deploymentStatusOf (conditions : value) : value * value :=
  let list := asArray conditions in
  let progressing := findv (λ c, isStr (c .@ "type") "Progressing") list in
  if isStr (progressing .@ "status") "False" then (VStr "Failed", progressing .@ "reason" ?? VStr "")
  else
    let available := findv (λ c, isStr (c .@ "type") "Available") list in
    (if isStr (available .@ "status") "True" then VStr "Available" else VStr "Progressing", VStr "").

Definition isRow (obj : value) : bool :=
  isString (obj .@ "name") && isString (obj .@ "namespace") && isNumber (obj .@ "replicas").

Definition normalizeWatchDeploymentObject (obj : value) : value :=
  if isRow obj then obj else
  let metadata := obj .@ "metadata" ?? VObj [] in
  let spec := obj .@ "spec" ?? VObj [] in
  let status := obj .@ "status" ?? VObj [] in
  let images := compact (pluck "image" (asArray (spec .@ "template" .@ "spec" .@ "containers"))) in
  let '(summary, reason) := deploymentStatusOf (status .@ "conditions") in
  VObj [("name", rowName obj); ("namespace", rowNamespace obj);
        ("replicas", spec .@ "replicas" ?? VNum 0);
        ("ready_replicas", status .@ "readyReplicas" ?? VNum 0);
        ("available_replicas", status .@ "availableReplicas" ?? VNum 0);
        ("updated_replicas", status .@ "updatedReplicas" ?? VNum 0);
        ("unavailable_replicas", status .@ "unavailableReplicas" ?? VNum 0);
        ("progressing_reason", reason);
        ("image", at0 images ?? VStr ""); ("images", VArr images);
        ("labels", metadata .@ "labels" ?? obj .@ "labels" ?? VObj []);
        ("selector", spec .@ "selector" .@ "matchLabels" ?? obj .@ "selector" ?? VObj []);
        ("created_at", rowCreatedAt obj VNull);
        ("status", summary)].

Definition applyDeploymentWatchEvent := applyNormalized normalizeWatchDeploymentObject.

End Deployments.

Module DaemonSets.

Definition computeDaemonSetStatus (desired ready available : value) : string :=
  let desired := desired |? VNum 0 in
  if strictEq desired (VNum 0) then "Idle"
  else if strictEq (available |? VNum 0) (VNum 0) then "Unavailable"
  else if jsLt (ready |? VNum 0) desired then "Degraded"
  else "Healthy".

Definition isRow (obj : value) : bool :=
  isString (obj .@ "name") && isString (obj .@ "namespace") && isNumber (obj .@ "desired").

Definition normalizeWatchDaemonSetObject (obj : value) : value :=
  if isRow obj then obj else
  let status := obj .@ "status" ?? VObj [] in
  let templateSpec := obj .@ "spec" .@ "template" .@ "spec" ?? VObj [] in
  let desired := status .@ "desiredNumberScheduled" ?? status .@ "desired_number_scheduled" ?? VNum 0 in
  let current := status .@ "currentNumberScheduled" ?? status .@ "current_number_scheduled" ?? VNum 0 in
  let ready := status .@ "numberReady" ?? status .@ "number_ready" ?? VNum 0 in
  let updated := status .@ "updatedNumberScheduled" ?? status .@ "updated_number_scheduled" ?? VNum 0 in
  let available := status .@ "numberAvailable" ?? status .@ "number_available" ?? VNum 0 in
  let misscheduled := status .@ "numberMisscheduled" ?? status .@ "number_misscheduled" ?? VNum 0 in
  let unavailable :=
    status .@ "numberUnavailable" ?? status .@ "number_unavailable" ?? jsMax (jsSub desired ready) (VNum 0) in
  VObj [("name", rowName obj); ("namespace", rowNamespace obj);
        ("desired", desired); ("current", current); ("ready", ready); ("updated", updated); ("available", available);
        ("misscheduled", misscheduled); ("unavailable", unavailable);
        ("node_selector", templateSpec .@ "nodeSelector" ?? obj .@ "node_selector" ?? VObj []);
        ("images", VArr (compact (pluck "image" (asArray (templateSpec .@ "containers")))));
        ("status", VStr (computeDaemonSetStatus desired ready available));
        ("created_at", rowCreatedAt obj VNull)].

Definition applyDaemonSetWatchEvent := applyNormalized normalizeWatchDaemonSetObject.

End DaemonSets.

Module ReplicaSets.

Definition computeReplicaSetStatus (replicas ready_replicas available_replicas : value) : string :=
  let desired := replicas |? VNum 0 in
  if strictEq desired (VNum 0) then "Idle"
  else if strictEq (available_replicas |? VNum 0) (VNum 0) then "Unavailable"
  else if jsLt (ready_replicas |? VNum 0) desired then "Degraded"
  else "Healthy".

Definition isRow (obj : value) : bool :=
  isString (obj .@ "name") && isString (obj .@ "namespace") && isNumber (obj .@ "replicas").

Definition normalizeWatchReplicaSetObject (obj : value) : value :=
  if isRow obj then obj else
  let metadata := obj .@ "metadata" ?? VObj [] in
  let spec := obj .@ "spec" ?? VObj [] in
  let status := obj .@ "status" ?? VObj [] in
  let containers := asArray (spec .@ "template" .@ "spec" .@ "containers") in
  let replicas := spec .@ "replicas" ?? VNum 0 in
  let currentReplicas := status .@ "replicas" ?? VNum 0 in
  let readyReplicas := status .@ "readyReplicas" ?? VNum 0 in
  let availableReplicas := status .@ "availableReplicas" ?? VNum 0 in
  let ownerReferences := asArray (metadata .@ "ownerReferences" ?? obj .@ "owner_references") in
  let ownerDeployment := findv (λ r, isStr (r .@ "kind") "Deployment") ownerReferences .@ "name" ?? VStr "" in
  let images := compact (pluck "image" containers) in
  VObj [("name", rowName obj); ("namespace", rowNamespace obj);
        ("current_replicas", currentReplicas); ("replicas", replicas);
        ("ready_replicas", readyReplicas); ("available_replicas", availableReplicas);
        ("image", at0 images ?? VStr ""); ("images", VArr images);
        ("containers", VArr (compact (pluck "name" containers)));
        ("owner_deployment", ownerDeployment);
        ("owner_references", VArr (ownerRef <$> ownerReferences));
        ("labels", metadata .@ "labels" ?? obj .@ "labels" ?? VObj []);
        ("selector", spec .@ "selector" .@ "matchLabels" ?? VObj []);
        ("created_at", rowCreatedAt obj VNull);
        ("status", VStr (computeReplicaSetStatus replicas readyReplicas availableReplicas))].

Definition applyReplicaSetWatchEvent := applyNormalized normalizeWatchReplicaSetObject.

End ReplicaSets.

Module HPAs.

Definition isRow (obj : value) : bool :=
  isString (obj .@ "name") && isString (obj .@ "namespace") && isNumber (obj .@ "max_replicas").

(** [`${ref?.kind ?? ''}/${ref?.name ?? ''}`]. *)
Definition targetText (ref : value) : string :=
  toString (ref .@ "kind" ?? VStr "") +:+ "/" +:+ toString (ref .@ "name" ?? VStr "").

Definition normalizeWatchHPAObject (obj : value) : value :=
  if isRow obj then obj else
  let metadata := obj .@ "metadata" ?? VObj [] in
  let spec := obj .@ "spec" ?? VObj [] in
  let status := obj .@ "status" ?? VObj [] in
  let scaleTargetRef := spec .@ "scaleTargetRef" ?? VObj [] in
  VObj [("name", rowName obj); ("namespace", rowNamespace obj);
        ("target_ref", VStr (targetText scaleTargetRef));
        ("target_ref_kind", scaleTargetRef .@ "kind" ?? VStr "");
        ("target_ref_name", scaleTargetRef .@ "name" ?? VStr "");
        ("labels", metadata .@ "labels" ?? obj .@ "labels" ?? VNull);
        ("min_replicas", spec .@ "minReplicas" ?? VNull); ("max_replicas", spec .@ "maxReplicas" ?? VNum 0);
        ("current_replicas", status .@ "currentReplicas" ?? VNull);
        ("desired_replicas", status .@ "desiredReplicas" ?? VNull);
        ("scaling_active", VBool (some (λ c, isStr (c .@ "type") "ScalingActive" && isStr (c .@ "status") "True")
                                    (asArray (status .@ "conditions"))));
        ("metrics", VArr []); ("conditions", VArr []);
        ("last_scale_time", status .@ "lastScaleTime" ?? VNull);
        ("created_at", rowCreatedAt obj (VStr ""))].

Definition applyHPAWatchEvent := applyNormalized normalizeWatchHPAObject.

End HPAs.

Module VPAs.

Definition isRow (obj : value) : bool :=
  isString (obj .@ "name") && isString (obj .@ "namespace") && hasOwn obj "update_mode".

Definition normalizeWatchVPAObject (obj : value) : value :=
  if isRow obj then obj else
  let metadata := obj .@ "metadata" ?? VObj [] in
  let spec := obj .@ "spec" ?? VObj [] in
  let status := obj .@ "status" ?? VObj [] in
  let targetRef := spec .@ "targetRef" ?? VObj [] in
  let updatePolicy := spec .@ "updatePolicy" ?? VObj [] in
  let recommendationProvided :=
    findv (λ c, isStr (c .@ "type") "RecommendationProvided") (asArray (status .@ "conditions")) in
  let provided :=
    if truthy (recommendationProvided .@ "status") then VStr (toString (recommendationProvided .@ "status")) else VStr "" in
  let recs := asArray (status .@ "recommendation" .@ "containerRecommendations") in
  let target := at0 recs .@ "target" in
  VObj [("name", rowName obj); ("namespace", rowNamespace obj);
        ("target_ref", VStr (HPAs.targetText targetRef));
        ("target_ref_kind", targetRef .@ "kind" ?? VStr ""); ("target_ref_name", targetRef .@ "name" ?? VStr "");
        ("update_mode", updatePolicy .@ "updateMode" ?? VStr "");
        ("cpu_target", target .@ "cpu" ?? VStr ""); ("memory_target", target .@ "memory" ?? VStr "");
        ("provided", provided);
        ("labels", metadata .@ "labels" ?? obj .@ "labels");
        ("created_at", rowCreatedAt obj (VStr ""));
        ("min_replicas", updatePolicy .@ "minReplicas" ?? VNull);
        ("evict_after_oom_seconds", updatePolicy .@ "evictAfterOOMSeconds" ?? VNull);
        ("startup_boost", spec .@ "startupBoost" ?? VNull)].

Definition applyVPAWatchEvent := applyNormalized normalizeWatchVPAObject.

End VPAs.

(** Rows of a value: [applyRowEvent] reads their name and namespace. *)
#[global] Instance valueRow : NamedRow value := {
  nameOf v := if truthy (v .@ "name") then toString (v .@ "name") else "";
  namespaceOf v := if nullish (v .@ "namespace") then None else Some (toString (v .@ "namespace"))
}.

Module PDBs.

Definition isRow (obj : value) : bool :=
  isString (obj .@ "name") && isString (obj .@ "namespace") && isNumber (obj .@ "current_healthy").

(** [v != null ? String(v) : null]. *)
Definition textOrNull (v : value) : value := if nullish v then VNull else VStr (toString v).

Definition normalizeWatchPDBObject (obj : value) : value :=
  if isRow obj then obj else
  let metadata := obj .@ "metadata" ?? VObj [] in
  let spec := obj .@ "spec" ?? VObj [] in
  let status := obj .@ "status" ?? VObj [] in
  VObj [("name", rowName obj); ("namespace", rowNamespace obj);
        ("min_available", textOrNull (spec .@ "minAvailable"));
        ("max_unavailable", textOrNull (spec .@ "maxUnavailable"));
        ("current_healthy", status .@ "currentHealthy" ?? VNum 0);
        ("desired_healthy", status .@ "desiredHealthy" ?? VNum 0);
        ("disruptions_allowed", status .@ "disruptionsAllowed" ?? VNum 0);
        ("expected_pods", status .@ "expectedPods" ?? VNum 0);
        ("selector", spec .@ "selector" .@ "matchLabels" ?? VObj []);
        ("labels", metadata .@ "labels" ?? obj .@ "labels" ?? VObj []);
        ("created_at", rowCreatedAt obj (VStr ""))].

Definition applyPDBWatchEvent (prev : option (list value)) (event : value) : list value :=
  applyRowEvent prev event normalizeWatchPDBObject.

End PDBs.

(** ** The lists keyed by namespace and name *)

Inductive WorkloadKind := Pod | Job | CronJob | Deployment | DaemonSet | ReplicaSet | HPA | VPA.

Definition normalizeWorkload (k : WorkloadKind) : value → value :=
  match k with
  | Pod => Pods.normalizeWatchPodObject | Job => Jobs.normalizeWatchJobObject
  | CronJob => CronJobs.normalizeWatchCronJobObject | Deployment => Deployments.normalizeWatchDeploymentObject
  | DaemonSet => DaemonSets.normalizeWatchDaemonSetObject | ReplicaSet => ReplicaSets.normalizeWatchReplicaSetObject
  | HPA => HPAs.normalizeWatchHPAObject | VPA => VPAs.normalizeWatchVPAObject
  end.

Definition applyWorkload (k : WorkloadKind) : option (list value) → value → list value :=
  match k with
  | Pod => Pods.applyPodWatchEvent | Job => Jobs.applyJobWatchEvent | CronJob => CronJobs.applyCronJobWatchEvent
  | Deployment => Deployments.applyDeploymentWatchEvent | DaemonSet => DaemonSets.applyDaemonSetWatchEvent
  | ReplicaSet => ReplicaSets.applyReplicaSetWatchEvent | HPA => HPAs.applyHPAWatchEvent | VPA => VPAs.applyVPAWatchEvent
  end.

(** The guard by which an object passes for a row of the list. *)
Definition isWorkloadRow (k : WorkloadKind) : value → bool :=
  match k with
  | Pod => Pods.isRow | Job => Jobs.isRow | CronJob => CronJobs.isRow | Deployment => Deployments.isRow
  | DaemonSet => DaemonSets.isRow | ReplicaSet => ReplicaSets.isRow | HPA => HPAs.isRow | VPA => VPAs.isRow
  end.

(** A row of the API: a CronJob's count of active Jobs is a number or missing. *)
Definition rowFromApi (k : WorkloadKind) (row : value) : bool :=
  match k with CronJob => bool_decide (is_Some (toNumber (row .@ "active" |? VNum 0))) | _ => true end.

(** An object of the API: its names are texts and the field its list tells a row
    by has its type, where the API requires one. *)
Definition fromApi (k : WorkloadKind) (obj : value) : bool :=
  isString (rowName obj) && isString (rowNamespace obj) &&
  match k with
  | Pod => isString (obj .@ "status" .@ "phase")
  | CronJob => isString (obj .@ "spec" .@ "schedule") && rowFromApi CronJob obj
  | Deployment | ReplicaSet => isNumber (obj .@ "spec" .@ "replicas" ?? VNum 0)
  | DaemonSet => isNumber (obj .@ "status" .@ "desiredNumberScheduled" ?? obj .@ "status" .@ "desired_number_scheduled" ?? VNum 0)
  | HPA => isNumber (obj .@ "spec" .@ "maxReplicas" ?? VNum 0)
  | Job | VPA => true
  end.

Lemma get_or_empty v k : (v ?? VObj []) .@ k = v .@ k.
Proof. by destruct v. Qed.

Lemma coalesce_string v w : isString v = true → v ?? w = v.
Proof. by destruct v. Qed.

(** The row of an object that was none has the object's name and namespace and
    passes for a row. *)
Lemma workload_row_names k obj :
  isWorkloadRow k obj = false →
  normalizeWorkload k obj .@ "name" = rowName obj ∧ normalizeWorkload k obj .@ "namespace" = rowNamespace obj.
Proof.
  intros H. destruct k; simpl in H |- *;
    unfold Pods.normalizeWatchPodObject, Jobs.normalizeWatchJobObject, CronJobs.normalizeWatchCronJobObject,
      Deployments.normalizeWatchDeploymentObject, DaemonSets.normalizeWatchDaemonSetObject,
      ReplicaSets.normalizeWatchReplicaSetObject, HPAs.normalizeWatchHPAObject, VPAs.normalizeWatchVPAObject;
    rewrite H; cbv zeta; try done.
  by destruct (Deployments.deploymentStatusOf _).
Qed.

Lemma workload_row_passes k obj :
  isWorkloadRow k obj = false → fromApi k obj = true → isWorkloadRow k (normalizeWorkload k obj) = true.
Proof.
  intros H [[Hn Hns]%andb_true_iff Hk]%andb_true_iff.
  destruct (workload_row_names k obj H) as [En Ens]. destruct k; simpl in H, Hk |- *;
    unfold Pods.isRow, Jobs.isRow, CronJobs.isRow, Deployments.isRow, DaemonSets.isRow, ReplicaSets.isRow, HPAs.isRow, VPAs.isRow;
    simpl in En, Ens; rewrite En, Ens, Hn, Hns;
    unfold Pods.normalizeWatchPodObject, Jobs.normalizeWatchJobObject, CronJobs.normalizeWatchCronJobObject,
      Deployments.normalizeWatchDeploymentObject, DaemonSets.normalizeWatchDaemonSetObject,
      ReplicaSets.normalizeWatchReplicaSetObject, HPAs.normalizeWatchHPAObject, VPAs.normalizeWatchVPAObject;
    rewrite H; cbv zeta; rewrite ?get_or_empty; try done.
  - rewrite (coalesce_string (obj .@ "status" .@ "phase")) by done. simpl. by rewrite Hk.
  - apply andb_true_iff in Hk as [Hk _]. rewrite (coalesce_string (obj .@ "spec" .@ "schedule")) by done. simpl. by rewrite Hk.
  - destruct (Deployments.deploymentStatusOf _). simpl. by rewrite Hk.
Qed.

(** A CronJob's row is brought to its types once. *)
Definition cronJobTypes (row : value) : list (string * value) :=
  [("suspend", boolv (row .@ "suspend")); ("active", CronJobs.numberOr0 (row .@ "active"));
   ("containers", arrayOr (row .@ "containers")); ("images", arrayOr (row .@ "images"))].

Lemma numberOr0_idem v :
  is_Some (toNumber (v |? VNum 0)) → CronJobs.numberOr0 (CronJobs.numberOr0 v) = CronJobs.numberOr0 v.
Proof. unfold CronJobs.numberOr0. intros [z ->]. simpl. unfold or_else. simpl. by destruct (Z.eqb_spec z 0) as [->|]. Qed.

Lemma cronjob_row_same row :
  CronJobs.isRow row = true → rowFromApi CronJob row = true →
  CronJobs.isRow (CronJobs.normalizeWatchCronJobObject row) = true ∧
  CronJobs.normalizeWatchCronJobObject (CronJobs.normalizeWatchCronJobObject row) = CronJobs.normalizeWatchCronJobObject row.
Proof.
  intros H Ha%bool_decide_eq_true. assert (∃ fs, row = VObj fs) as [fs ->].
  { destruct row; try done. eauto. }
  assert (E : CronJobs.normalizeWatchCronJobObject (VObj fs) = spread (VObj fs) (cronJobTypes (VObj fs))).
  { unfold CronJobs.normalizeWatchCronJobObject. by rewrite H. }
  rewrite E. assert (R : CronJobs.isRow (spread (VObj fs) (cronJobTypes (VObj fs))) = true).
  { unfold CronJobs.isRow in *. by rewrite !spread_get_ne. }
  split; [done|]. unfold CronJobs.normalizeWatchCronJobObject at 1. rewrite R.
  change [("suspend", _); _; _; _] with (cronJobTypes (spread (VObj fs) (cronJobTypes (VObj fs)))).
  apply (spread_idem fs cronJobTypes); [by_decide|].
  assert (Hnd : NoDup (cronJobTypes (VObj fs)).*1) by by_decide.
  assert (Hin : ∀ k v, (k, v) ∈ cronJobTypes (VObj fs) → spread (VObj fs) (cronJobTypes (VObj fs)) .@ k = v).
  { intros k v. by apply spread_get. }
  unfold cronJobTypes at 1. rewrite (Hin "suspend" (boolv (VObj fs .@ "suspend"))) by left.
  rewrite (Hin "active" (CronJobs.numberOr0 (VObj fs .@ "active"))) by (right; left).
  rewrite (Hin "containers" (arrayOr (VObj fs .@ "containers"))) by (do 2 right; left).
  rewrite (Hin "images" (arrayOr (VObj fs .@ "images"))) by (do 3 right; left).
  by rewrite numberOr0_idem.
Qed.

Lemma workload_row_same k row :
  isWorkloadRow k row = true → rowFromApi k row = true →
  normalizeWorkload k (normalizeWorkload k row) = normalizeWorkload k row.
Proof.
  intros H Ha. destruct k; simpl in H |- *; try (by apply cronjob_row_same);
    unfold Pods.normalizeWatchPodObject, Jobs.normalizeWatchJobObject, Deployments.normalizeWatchDeploymentObject,
      DaemonSets.normalizeWatchDaemonSetObject, ReplicaSets.normalizeWatchReplicaSetObject, HPAs.normalizeWatchHPAObject,
      VPAs.normalizeWatchVPAObject; rewrite H; by rewrite H.
Qed.

(** A raw CronJob's row needs no further typing. *)
Lemma cronjob_raw_row obj :
  fromApi CronJob obj = true → CronJobs.isRow obj = false →
  CronJobs.normalizeWatchCronJobObject (CronJobs.normalizeWatchCronJobObject obj) = CronJobs.normalizeWatchCronJobObject obj.
Proof.
  intros Hf H. pose proof (workload_row_passes CronJob obj H Hf) as R. simpl in R.
  unfold CronJobs.normalizeWatchCronJobObject at 1. rewrite R. apply spread_same.
  apply andb_true_iff in Hf as [_ [_ Ha%bool_decide_eq_true]%andb_true_iff].
  unfold CronJobs.normalizeWatchCronJobObject. rewrite H. cbv zeta. intros k v Hin.
  repeat (apply elem_of_cons in Hin as [[= -> ->]|Hin]; [split; [reflexivity|]|]); [..|by apply not_elem_of_nil in Hin];
    try reflexivity. simpl. destruct (isArray _); [|by rewrite numberOr0_idem].
  unfold CronJobs.numberOr0, or_else. simpl. by destruct (Z.eqb_spec (vlength (asArray ((obj .@ "status" ?? VObj []) .@ "active"))) 0) as [->|].
Qed.

(** ** Lemmas: the summaries of a Pod's row *)

Lemma namesIn_spec (names : list value) :
  Forall (λ v, truthy v = true → isString v = true) names →
  NoDup (Pods.namesIn names) ∧ (∀ x, x ∈ Pods.namesIn names ↔ x ∈ names ∧ truthy x = true) ∧
  Forall (λ v, isString v = true) (Pods.namesIn names).
Proof.
  induction names as [|n names IH] using rev_ind; intros H.
  { split_and!; [apply NoDup_nil_2| |apply Forall_nil_2]. intros x. split; [by intros ?%not_elem_of_nil|by intros [?%not_elem_of_nil _]]. }
  apply Forall_app in H as [H Hn]. rewrite Forall_singleton in Hn. destruct (IH H) as (Hnd & Hin & Hs).
  unfold Pods.namesIn in *. rewrite foldl_app. simpl. destruct (truthy n) eqn:E.
  - destruct (addTo_strings n (foldl (λ acc n, if truthy n then addTo n acc else acc) [] names)) as (A1 & A2 & A3); [|done|].
    { apply Forall_cons. split; [by apply Hn|done]. }
    split_and!; [done| |done]. intros x. rewrite A2, Hin, elem_of_app, list_elem_of_singleton.
    split; [intros [-> | [? ?]]; tauto|]. intros [[?| ->] ?]; tauto.
  - split_and!; [done| |done]. intros x. rewrite Hin, elem_of_app, list_elem_of_singleton.
    split; [tauto|]. intros [[?| ->] ?]; [done|congruence].
Qed.

(** The whole numbers of a list of containers' restarts. *)
Definition restartsOf (containers : list value) (ns : list Z) : Prop :=
  Forall2 (λ c n, c .@ "restart_count" ?? VNum 0 = VNum n) containers ns.

Lemma restartSum_spec containers ns :
  restartsOf containers ns → Pods.restartSum containers = VNum (foldr Z.add 0%Z ns).
Proof.
  unfold Pods.restartSum. intros H. assert (Hg : ∀ a, foldl (λ sum c, jsAdd sum (c .@ "restart_count" ?? VNum 0)) (VNum a) containers
    = VNum (a + foldr Z.add 0%Z ns)).
  { induction H as [|c n cs ns Hc _ IH]; intros a; cbn [foldl foldr]; [by rewrite Z.add_0_r|].
    rewrite Hc. change (jsAdd (VNum a) (VNum n)) with (VNum (a + n)). by rewrite IH, Z.add_assoc. }
  apply Hg.
Qed.

Lemma readyCount_bound containers :
  Pods.readyCount containers ≤ length containers ∧
  (Pods.readyCount containers = length containers ↔ ∀ c, c ∈ containers → truthy (c .@ "ready") = true).
Proof.
  unfold Pods.readyCount, filterb. induction containers as [|c cs [IH1 IH2]]; simpl; [split; [lia|split; [by intros _ ? ?%not_elem_of_nil|done]]|].
  setoid_rewrite elem_of_cons. destruct (truthy (c .@ "ready")) eqn:E; simpl.
  - split; [lia|]. rewrite Nat.succ_inj_wd, IH2. naive_solver.
  - split; [lia|]. split; [lia|]. intros H. specialize (H c (or_introl eq_refl)). congruence.
Qed.

(** * Properties *)

(** One form per object: for every list of workloads, the row made of an
    object of the API is a row the list takes as it is, so whatever path an
    object comes by - the REST list, the watch, a row the server could not
    convert - it is drawn the same; a row already made is left alone. *)
Theorem workload_rows_settle k obj :
  (if isWorkloadRow k obj then rowFromApi k obj else fromApi k obj) = true →
  normalizeWorkload k (normalizeWorkload k obj) = normalizeWorkload k obj.
Proof.
  intros H. destruct (isWorkloadRow k obj) eqn:E; [by apply workload_row_same|].
  pose proof (workload_row_passes k obj E H) as R. destruct k; simpl in E, R |- *; try (by apply cronjob_raw_row);
    [unfold Pods.normalizeWatchPodObject at 1|unfold Jobs.normalizeWatchJobObject at 1
    |unfold Deployments.normalizeWatchDeploymentObject at 1|unfold DaemonSets.normalizeWatchDaemonSetObject at 1
    |unfold ReplicaSets.normalizeWatchReplicaSetObject at 1|unfold HPAs.normalizeWatchHPAObject at 1
    |unfold VPAs.normalizeWatchVPAObject at 1]; by rewrite R.
Qed.

(** An object as a watch brings it. *)
Definition rawWorkload (ns n : string) : value :=
  VObj [("metadata", VObj [("name", VStr n); ("namespace", VStr ns)]);
        ("spec", VObj [("replicas", VNum 3); ("schedule", VStr "0 * * * *"); ("maxReplicas", VNum 5);
                       ("volumes", VArr [VObj [("configMap", VObj [("name", VStr "cm")])]; VObj [("secret", VObj [("secretName", VStr "tls")])]]);
                       ("containers", VArr [VObj [("name", VStr "app"); ("envFrom", VArr [VObj [("configMapRef", VObj [("name", VStr "cm")])]])]])]);
        ("status", VObj [("phase", VStr "Running"); ("desiredNumberScheduled", VNum 2);
                         ("containerStatuses", VArr [VObj [("name", VStr "app"); ("ready", VBool true); ("restartCount", VNum 4)]])])].

Lemma workload_rows_settle_witness :
  Pods.normalizeWatchPodObject (Pods.normalizeWatchPodObject (rawWorkload "web" "a")) = Pods.normalizeWatchPodObject (rawWorkload "web" "a").
Proof. apply (workload_rows_settle Pod (rawWorkload "web" "a")). vm_compute. reflexivity. Defined.

(** A frame of a workload's watch changes its own row only: on rows of
    distinct keys, an object of namespace [ns] and name [n] replaces or adds the
    row [ns/n] with the object's row, or removes it when the frame is a DELETED
    one, and every other row stays as it was; the keys stay distinct. *)
Theorem workload_event_own_row k rows event obj ns n :
  keysNoDup pathKey rows → event .@ "object" = obj → isWorkloadRow k obj = false →
  rowName obj = VStr n → rowNamespace obj = VStr ns → n ≠ "" → ns ≠ "" →
  keysNoDup pathKey (applyWorkload k (Some rows) event) ∧
  rowsMap pathKey (applyWorkload k (Some rows) event) =
    (if isStr (event .@ "type") "DELETED" then delete (ns +:+ "/" +:+ n) (rowsMap pathKey rows)
     else <[ns +:+ "/" +:+ n := normalizeWorkload k obj]> (rowsMap pathKey rows)).
Proof.
  intros Hnd <- Hrow Hn Hns Hn0 Hns0. set (obj := event .@ "object") in *.
  destruct (workload_row_names k obj Hrow) as [En Ens]. rewrite Hn in En. rewrite Hns in Ens.
  assert (Ho : truthy obj = true).
  { clear - Hn Hn0. clearbody obj. destruct obj; try done; vm_compute in Hn; congruence. }
  assert (Ea : applyWorkload k = applyNormalized (normalizeWorkload k)) by (by destruct k).
  assert (Ek : pathKey (normalizeWorkload k obj) = ns +:+ "/" +:+ n) by (unfold pathKey; by rewrite En, Ens).
  rewrite Ea, applyNormalized_op. destruct (applyOp_refines pathKey (normalizedOp (normalizeWorkload k) event) rows Hnd) as [H1 H2].
  split; [exact H1|]. simpl. rewrite H2. unfold normalizedOp. fold obj. rewrite Ho, En, Ens. simpl.
  rewrite !(proj2 (nonempty_true _)) by done. simpl. rewrite Ek. by destruct (isStr _ _); simpl; rewrite ?Ek.
Qed.

(** The deletion of one of two Pods. *)
Lemma workload_event_own_row_witness :
  let rows := Pods.normalizeWatchPodObject <$> [rawWorkload "web" "a"; rawWorkload "web" "b"] in
  let event := VObj [("type", VStr "DELETED"); ("object", rawWorkload "web" "a")] in
  rowsMap pathKey (applyWorkload Pod (Some rows) event) = delete "web/a" (rowsMap pathKey rows).
Proof.
  cbv zeta. eapply (workload_event_own_row Pod (Pods.normalizeWatchPodObject <$> [rawWorkload "web" "a"; rawWorkload "web" "b"])
    (VObj [("type", VStr "DELETED"); ("object", rawWorkload "web" "a")]) (rawWorkload "web" "a") "web" "a");
    try (vm_compute; reflexivity); try discriminate.
  unfold keysNoDup. by_decide.
Defined.

(** A Pod's row sums its Pod up: the references to ConfigMaps and Secrets
    name each of the names the spec holds once and no other; the ready count is
    at most the containers', and all of them exactly when each is ready; the
    restarts are the containers' added up. *)
Theorem pod_row_summary names containers ns :
  Forall (λ v, truthy v = true → isString v = true) names → restartsOf containers ns →
  NoDup (Pods.namesIn names) ∧ (∀ x, x ∈ Pods.namesIn names ↔ x ∈ names ∧ truthy x = true) ∧
  (Pods.readyCount containers ≤ length containers) ∧
  (Pods.readyCount containers = length containers ↔ ∀ c, c ∈ containers → truthy (c .@ "ready") = true) ∧
  Pods.restartSum containers = VNum (foldr Z.add 0%Z ns).
Proof.
  intros Hs Hr. destruct (namesIn_spec names Hs) as (? & ? & _). destruct (readyCount_bound containers).
  split_and!; try done. by apply restartSum_spec.
Qed.

(** Two containers, one of which crashed. *)
Lemma pod_row_summary_witness :
  let cs := [VObj [("ready", VBool true)]; VObj [("restart_count", VNum 4)]] in
  Pods.restartSum cs = VNum 4 ∧ Pods.readyCount cs ≤ 2.
Proof.
  destruct (pod_row_summary [] [VObj [("ready", VBool true)]; VObj [("restart_count", VNum 4)]] [0; 4]%Z) as (_ & _ & H & _ & E).
  - apply Forall_nil_2.
  - repeat constructor.
  - split; [exact E|exact H].
Defined.
