(* ===== verification/ObjectRows.v ===== *)
(** * The rows of the storage, configuration, cluster and security lists

    pages/{storage,configuration,gpu,cluster,security,custom-resources}/*WatchNormalize.ts:
    one normalization per kind and the three bodies that apply one (keyed by
    namespace and name, by name alone, and services/applyRowEvent.ts). *)

From stdpp Require Import sorting.
From S2P Require Import Prelude JsString Json WatchRows WorkloadRows.

(** ** Rows keyed by name alone

    The body of the cluster-wide lists' apply functions.  Names are texts, which
    [item.name === name] compares. *)
Definition nameKey (item : value) : string := toString (item .@ "name").

Definition applyNamed (normalize : value → value) (prev : option (list value)) (event : value) : list value :=
  let items := default [] prev in
  let obj := event .@ "object" in
  if negb (truthy obj) then items else
  let normalized := normalize obj in
  if negb (truthy (normalized .@ "name")) then items else
  let index := findIndex (λ item, eqs (nameKey item) (nameKey normalized)) items in
  if isStr (event .@ "type") "DELETED" then dropRow index items
  else putRow index normalized items.

Definition namedOp (normalize : value → value) (event : value) : rowOp value string :=
  let obj := event .@ "object" in
  if negb (truthy obj) then OpSkip else
  let normalized := normalize obj in
  if negb (truthy (normalized .@ "name")) then OpSkip else
  if isStr (event .@ "type") "DELETED" then OpDel (nameKey normalized) else OpPut normalized.

Lemma applyNamed_op normalize prev event :
  applyNamed normalize prev event = applyOp nameKey (namedOp normalize event) (default [] prev).
Proof.
  unfold applyNamed, namedOp. destruct (truthy _); [|done]. destruct (truthy _); [|done]. simpl. by destruct (isStr _ _).
Qed.

#[global] Program Instance NamedFeed (normalize : value → value) : RowFeed value value string := {
  rowKey := nameKey;
  applyEvent := applyNamed normalize;
  specEvent e := specOp nameKey (namedOp normalize e)
}.
Next Obligation. intros. cbv beta. by rewrite !applyNamed_op. Qed.
Next Obligation. intros. cbv beta. rewrite applyNamed_op. by apply applyOp_refines. Qed.

(** [typeof v === 'string' ? v : null], [typeof v === 'boolean' ? v : null]. *)
Definition stringOrNull (v : value) : value := if isString v then v else VNull.
Definition boolOrNull (v : value) : value := match v with VBool b => VBool b | _ => VNull end.

(** ** Storage *)

Module PVs.
Definition isRow (obj : value) : bool := isString (obj .@ "name") && isString (obj .@ "status").
Definition types (obj : value) : list (string * value) := [("access_modes", arrayOr (obj .@ "access_modes"))].

Definition normalizeWatchPvObject (obj : value) : value :=
  if isRow obj then spread obj (types obj) else
  let spec := obj .@ "spec" ?? VObj [] in
  let status := obj .@ "status" ?? VObj [] in
  VObj [("name", rowName obj);
        ("status", status .@ "phase" ?? VStr "Unknown");
        ("capacity", VStr (toString (spec .@ "capacity" .@ "storage" ?? obj .@ "capacity" ?? VStr "")));
        ("access_modes", if isArray (spec .@ "accessModes") then spec .@ "accessModes" else arrayOr (obj .@ "access_modes"));
        ("storage_class", spec .@ "storageClassName" ?? obj .@ "storage_class" ?? VNull);
        ("reclaim_policy", spec .@ "persistentVolumeReclaimPolicy" ?? obj .@ "reclaim_policy" ?? VStr "Delete");
        ("claim_ref", if truthy (spec .@ "claimRef")
                      then VObj [("namespace", spec .@ "claimRef" .@ "namespace"); ("name", spec .@ "claimRef" .@ "name")]
                      else obj .@ "claim_ref" ?? VNull);
        ("volume_mode", spec .@ "volumeMode" ?? obj .@ "volume_mode" ?? VNull);
        ("source", obj .@ "source" ?? VNull); ("driver", obj .@ "driver" ?? VNull);
        ("volume_handle", obj .@ "volume_handle" ?? VNull); ("node_affinity", obj .@ "node_affinity" ?? VNull);
        ("created_at", rowCreatedAt obj VNull)].

Definition applyPvWatchEvent := applyNamed normalizeWatchPvObject.
End PVs.

Module PVCs.
Definition isRow (obj : value) : bool :=
  isString (obj .@ "name") && isString (obj .@ "namespace") && isString (obj .@ "status").

(** [v != null ? String(v) : (w ?? null)]. *)
Definition textOr (v w : value) : value := if nullish v then w ?? VNull else VStr (toString v).

Definition normalizeWatchPvcObject (obj : value) : value :=
  if isRow obj then spread obj (PVs.types obj) else
  let spec := obj .@ "spec" ?? VObj [] in
  let status := obj .@ "status" ?? VObj [] in
  let bound := truthy (spec .@ "volumeName") in
  let capacity := if bound then status .@ "capacity" .@ "storage" else VUndef in
  let requested := spec .@ "resources" .@ "requests" .@ "storage" in
  VObj [("name", rowName obj); ("namespace", rowNamespace obj);
        ("status", status .@ "phase" ?? obj .@ "status" ?? VStr "Unknown");
        ("volume_name", spec .@ "volumeName" ?? obj .@ "volume_name" ?? VNull);
        ("storage_class", spec .@ "storageClassName" ?? obj .@ "storage_class" ?? VNull);
        ("capacity", textOr capacity (obj .@ "capacity"));
        ("requested", textOr requested (obj .@ "requested"));
        ("access_modes", if bound then arrayOr (status .@ "accessModes") else VArr []);
        ("requested_access_modes", arrayOr (spec .@ "accessModes"));
        ("created_at", rowCreatedAt obj VNull)].

Definition applyPvcWatchEvent := applyNormalized normalizeWatchPvcObject.
End PVCs.

Module StorageClasses.
Definition isRow (obj : value) : bool := isString (obj .@ "name") && isString (obj .@ "provisioner").
Definition types (obj : value) : list (string * value) :=
  [("parameters", obj .@ "parameters" ?? VObj []); ("mount_options", arrayOr (obj .@ "mount_options"));
   ("allowed_topologies", arrayOr (obj .@ "allowed_topologies"))].

Definition normalizeWatchStorageClassObject (obj : value) : value :=
  if isRow obj then spread obj (types obj) else
  let metadata := obj .@ "metadata" ?? VObj [] in
  let annotations := metadata .@ "annotations" ?? VObj [] in
  let labels := metadata .@ "labels" ?? VObj [] in
  let isDefault := isStr (annotations .@ "storageclass.kubernetes.io/is-default-class") "true"
                   || isStr (annotations .@ "storageclass.beta.kubernetes.io/is-default-class") "true" in
  VObj [("name", rowName obj);
        ("provisioner", obj .@ "provisioner" ?? VStr "");
        ("reclaim_policy", obj .@ "reclaimPolicy" ?? obj .@ "reclaim_policy" ?? VNull);
        ("volume_binding_mode", obj .@ "volumeBindingMode" ?? obj .@ "volume_binding_mode" ?? VNull);
        ("allow_volume_expansion", obj .@ "allowVolumeExpansion" ?? obj .@ "allow_volume_expansion" ?? VNull);
        ("is_default", VBool (isDefault || truthy (obj .@ "is_default")));
        ("parameters", obj .@ "parameters" ?? VObj []);
        ("mount_options", if isArray (obj .@ "mountOptions") then obj .@ "mountOptions" else arrayOr (obj .@ "mount_options"));
        ("allowed_topologies", arrayOr (obj .@ "allowed_topologies"));
        ("labels", labels); ("annotations", annotations);
        ("finalizers", arrayOr (metadata .@ "finalizers"));
        ("created_at", rowCreatedAt obj VNull)].

Definition applyStorageClassWatchEvent := applyNamed normalizeWatchStorageClassObject.
End StorageClasses.

Module VolumeAttachments.
Definition normalizeError (error : value) : value :=
  if negb (truthy error) then VNull else
  let message := stringOrNull (error .@ "message") in
  let time := stringOrNull (error .@ "time") in
  if negb (truthy message) && negb (truthy time) then VNull else VObj [("message", message); ("time", time)].

(** A row has a name at its top and no nested spec. *)
Definition isRow (obj : value) : bool := isString (obj .@ "name") && negb (truthy (obj .@ "spec")).

Definition normalizeWatchVolumeAttachmentObject (obj : value) : value :=
  if isRow obj then
    VObj [("name", obj .@ "name"); ("attacher", obj .@ "attacher" ?? VNull); ("node_name", obj .@ "node_name" ?? VNull);
          ("persistent_volume_name", obj .@ "persistent_volume_name" ?? VNull);
          ("attached", boolOrNull (obj .@ "attached"));
          ("attach_error", normalizeError (obj .@ "attach_error"));
          ("detach_error", normalizeError (obj .@ "detach_error"));
          ("created_at", obj .@ "created_at" ?? VNull)]
  else
  let spec := obj .@ "spec" ?? VObj [] in
  let source := spec .@ "source" ?? VObj [] in
  let status := obj .@ "status" ?? VObj [] in
  VObj [("name", rowName obj); ("attacher", spec .@ "attacher" ?? VNull);
        ("node_name", spec .@ "nodeName" ?? spec .@ "node_name" ?? VNull);
        ("persistent_volume_name", source .@ "persistentVolumeName" ?? source .@ "persistent_volume_name" ?? VNull);
        ("attached", boolOrNull (status .@ "attached"));
        ("attach_error", normalizeError (status .@ "attachError" ?? status .@ "attach_error"));
        ("detach_error", normalizeError (status .@ "detachError" ?? status .@ "detach_error"));
        ("created_at", rowCreatedAt obj VNull)].

Definition applyVolumeAttachmentWatchEvent := applyNamed normalizeWatchVolumeAttachmentObject.
End VolumeAttachments.

(** ** Configuration *)

Module ConfigMaps.
Definition isRow (obj : value) : bool :=
  isString (obj .@ "name") && isString (obj .@ "namespace") && isNumber (obj .@ "data_count").

Definition keysArr (data : value) : value := VArr (VStr <$> keysOf data).

Definition normalizeWatchConfigMapObject (obj : value) : value :=
  if isRow obj then obj else
  let data := obj .@ "data" ?? VObj [] in
  VObj [("name", rowName obj); ("namespace", rowNamespace obj);
        ("data_count", if isNumber (obj .@ "data_count") then obj .@ "data_count"
                       else VNum (Z.of_nat (length (keysOf data))));
        ("data_keys", obj .@ "data_keys" ?? keysArr data);
        ("binary_keys", obj .@ "binary_keys" ?? VArr []);
        ("labels", obj .@ "metadata" .@ "labels" ?? obj .@ "labels" ?? VNull);
        ("created_at", rowCreatedAt obj (VStr ""))].

Definition applyConfigMapWatchEvent := applyNormalized normalizeWatchConfigMapObject.
End ConfigMaps.

Module Secrets.
Definition isRow (obj : value) : bool :=
  isString (obj .@ "name") && isString (obj .@ "namespace") && isString (obj .@ "type").

Definition normalizeWatchSecretObject (obj : value) : value :=
  if isRow obj then obj else
  let data := obj .@ "data" ?? VObj [] in
  VObj [("name", rowName obj); ("namespace", rowNamespace obj);
        ("type", obj .@ "type" ?? VStr "");
        ("data_count", VNum (Z.of_nat (length (keysOf data))));
        ("data_keys", ConfigMaps.keysArr data);
        ("created_at", rowCreatedAt obj (VStr ""));
        ("labels", obj .@ "metadata" .@ "labels" ?? obj .@ "labels" ?? VNull)].

Definition applySecretWatchEvent := applyNormalized normalizeWatchSecretObject.
End Secrets.

(** ** Dynamic resource allocation: the server's rows as they are *)

Module Claims.
Definition applyResourceClaimWatchEvent := applyNormalized (λ obj, obj).
Definition applyResourceClaimTemplateWatchEvent := applyNormalized (λ obj, obj).

(** Of the whole cluster, keyed by name alone. *)
Definition applyDeviceClassWatchEvent := applyNamed (λ obj, obj).
Definition applyResourceSliceWatchEvent := applyNamed (λ obj, obj).
End Claims.

(** ** Cluster: the lists applied by [applyRowEvent] *)

(** [metadata?.labels ?? obj?.labels ?? none]. *)
Definition rowLabels (obj none : value) : value := obj .@ "metadata" .@ "labels" ?? obj .@ "labels" ?? none.
Definition rowAnnotations (obj none : value) : value := obj .@ "metadata" .@ "annotations" ?? obj .@ "annotations" ?? none.

Module Leases.
Definition isRow (obj : value) : bool :=
  isString (obj .@ "name") && isString (obj .@ "namespace") && strictEq (obj .@ "spec") VUndef.

Definition normalizeWatchLeaseObject (obj : value) : value :=
  if isRow obj then obj else
  let spec := obj .@ "spec" ?? VObj [] in
  VObj [("name", rowName obj); ("namespace", rowNamespace obj);
        ("holder_identity", spec .@ "holderIdentity" ?? obj .@ "holder_identity");
        ("lease_duration_seconds", spec .@ "leaseDurationSeconds" ?? obj .@ "lease_duration_seconds");
        ("lease_transitions", spec .@ "leaseTransitions" ?? obj .@ "lease_transitions");
        ("renew_time", spec .@ "renewTime" ?? obj .@ "renew_time");
        ("acquire_time", spec .@ "acquireTime" ?? obj .@ "acquire_time");
        ("labels", rowLabels obj (VObj [])); ("created_at", rowCreatedAt obj (VStr ""))].

Definition applyLeaseWatchEvent (prev : option (list value)) (event : value) := applyRowEvent prev event normalizeWatchLeaseObject.
End Leases.

Module LimitRanges.
Definition isRow (obj : value) : bool :=
  isString (obj .@ "name") && isString (obj .@ "namespace") && isArray (obj .@ "limits").

Definition limitOf (l : value) : value :=
  VObj [("type", l .@ "type"); ("default", l .@ "default");
        ("default_request", l .@ "defaultRequest" ?? l .@ "default_request"); ("max", l .@ "max"); ("min", l .@ "min")].

Definition normalizeWatchLimitRangeObject (obj : value) : value :=
  if isRow obj then obj else
  VObj [("name", rowName obj); ("namespace", rowNamespace obj);
        ("limits", VArr (limitOf <$> asArray (obj .@ "spec" .@ "limits")));
        ("labels", rowLabels obj (VObj [])); ("created_at", rowCreatedAt obj (VStr ""))].

Definition applyLimitRangeWatchEvent (prev : option (list value)) (event : value) :=
  applyRowEvent prev event normalizeWatchLimitRangeObject.
End LimitRanges.

Module PriorityClasses.
Definition isRow (obj : value) : bool :=
  isString (obj .@ "name") && isNumber (obj .@ "value") && isString (obj .@ "preemption_policy").

Definition normalizeWatchPriorityClassObject (obj : value) : value :=
  if isRow obj then obj else
  VObj [("name", rowName obj); ("value", obj .@ "value" ?? VNum 0);
        ("global_default", VBool (strictEq (obj .@ "globalDefault") (VBool true)));
        ("preemption_policy", obj .@ "preemptionPolicy" ?? VStr "PreemptLowerPriority");
        ("description", obj .@ "description" ?? VStr "");
        ("labels", rowLabels obj (VObj [])); ("created_at", rowCreatedAt obj (VStr ""))].

Definition applyPriorityClassWatchEvent (prev : option (list value)) (event : value) :=
  applyRowEvent prev event normalizeWatchPriorityClassObject.
End PriorityClasses.

Module ResourceQuotas.
Definition isRow (obj : value) : bool :=
  isString (obj .@ "name") && isString (obj .@ "namespace") && isObject (obj .@ "status_hard").

Definition normalizeWatchResourceQuotaObject (obj : value) : value :=
  if isRow obj then obj else
  VObj [("name", rowName obj); ("namespace", rowNamespace obj);
        ("status_hard", obj .@ "status" .@ "hard" ?? VObj []); ("status_used", obj .@ "status" .@ "used" ?? VObj []);
        ("labels", rowLabels obj (VObj [])); ("created_at", rowCreatedAt obj (VStr ""))].

Definition applyResourceQuotaWatchEvent (prev : option (list value)) (event : value) :=
  applyRowEvent prev event normalizeWatchResourceQuotaObject.
End ResourceQuotas.

Module RuntimeClasses.
Definition isRow (obj : value) : bool :=
  isString (obj .@ "name") && isString (obj .@ "handler") && isString (obj .@ "created_at").

Definition normalizeWatchRuntimeClassObject (obj : value) : value :=
  if isRow obj then obj else
  VObj [("name", rowName obj); ("handler", obj .@ "handler" ?? VStr "");
        ("labels", rowLabels obj (VObj [])); ("created_at", rowCreatedAt obj (VStr ""))].

Definition applyRuntimeClassWatchEvent (prev : option (list value)) (event : value) :=
  applyRowEvent prev event normalizeWatchRuntimeClassObject.
End RuntimeClasses.

Module Webhooks.
Definition isRow (obj : value) : bool := isString (obj .@ "name") && isNumber (obj .@ "webhooks_count").

(** [v?.length]. *)
Definition lengthOf (v : value) : value :=
  match v with VArr l => VNum (vlength l) | VStr s => VNum (Z.of_nat (String.length s)) | _ => v .@ "length" end.

Definition normalizeWatchWebhookConfigObject (obj : value) : value :=
  if isRow obj then obj else
  VObj [("name", rowName obj); ("webhooks_count", lengthOf (obj .@ "webhooks") ?? obj .@ "webhooks_count" ?? VNum 0);
        ("labels", rowLabels obj (VObj [])); ("created_at", rowCreatedAt obj (VStr ""))].

Definition applyWebhookConfigWatchEvent (prev : option (list value)) (event : value) :=
  applyRowEvent prev event normalizeWatchWebhookConfigObject.
End Webhooks.

(** ** Security *)

Module Roles.
Definition isRow (obj : value) : bool :=
  isString (obj .@ "name") && isString (obj .@ "namespace") && isNumber (obj .@ "rules_count").

Definition normalizeWatchRoleObject (obj : value) : value :=
  if isRow obj then obj else
  VObj [("name", rowName obj); ("namespace", rowNamespace obj);
        ("rules_count", VNum (vlength (asArray (obj .@ "rules"))));
        ("created_at", rowCreatedAt obj (VStr "")); ("labels", rowLabels obj VNull);
        ("annotations", rowAnnotations obj VNull)].

Definition applyRoleWatchEvent := applyNormalized normalizeWatchRoleObject.
End Roles.

Module ClusterRoles.
Definition isRow (obj : value) : bool := isString (obj .@ "name") && isNumber (obj .@ "rules_count").

Definition normalizeWatchClusterRoleObject (obj : value) : value :=
  if isRow obj then obj else
  VObj [("name", rowName obj); ("rules_count", VNum (vlength (asArray (obj .@ "rules"))));
        ("created_at", rowCreatedAt obj (VStr "")); ("labels", rowLabels obj VNull);
        ("annotations", rowAnnotations obj VNull)].

Definition applyClusterRoleWatchEvent (prev : option (list value)) (event : value) :=
  applyRowEvent prev event normalizeWatchClusterRoleObject.
End ClusterRoles.

Module RoleBindings.
Definition bindingFields (obj : value) : list (string * value) :=
  let subjects := asArray (obj .@ "subjects") in
  let roleRef := obj .@ "roleRef" ?? VObj [] in
  [("name", rowName obj); ("role_ref_kind", roleRef .@ "kind" ?? obj .@ "role_ref_kind" ?? VStr "");
   ("role_ref_name", roleRef .@ "name" ?? obj .@ "role_ref_name" ?? VStr "");
   ("subjects_count", VNum (vlength subjects)); ("subjects", VArr subjects);
   ("created_at", rowCreatedAt obj (VStr "")); ("labels", rowLabels obj VNull);
   ("annotations", rowAnnotations obj VNull)].

Definition isRow (obj : value) : bool :=
  isString (obj .@ "name") && isString (obj .@ "namespace") && isNumber (obj .@ "subjects_count").
Definition isClusterRow (obj : value) : bool := isString (obj .@ "name") && isNumber (obj .@ "subjects_count").

Definition normalizeWatchRoleBindingObject (obj : value) : value :=
  if isRow obj then obj else VObj (bindingFields obj ++ [("namespace", rowNamespace obj)]).

Definition normalizeWatchClusterRoleBindingObject (obj : value) : value :=
  if isClusterRow obj then obj else VObj (bindingFields obj).

Definition applyRoleBindingWatchEvent (prev : option (list value)) (event : value) :=
  applyRowEvent prev event normalizeWatchRoleBindingObject.
Definition applyClusterRoleBindingWatchEvent (prev : option (list value)) (event : value) :=
  applyRowEvent prev event normalizeWatchClusterRoleBindingObject.
End RoleBindings.

Module ServiceAccounts.
Definition namesOf (list : value) : Datatypes.list value := compact (pluck "name" (asArray list)).

Definition isRow (obj : value) : bool :=
  isString (obj .@ "name") && isString (obj .@ "namespace") && isNumber (obj .@ "secrets").

Definition normalizeWatchServiceAccountObject (obj : value) : value :=
  if isRow obj then obj else
  VObj [("name", rowName obj); ("namespace", rowNamespace obj);
        ("secrets", VNum (vlength (asArray (obj .@ "secrets"))));
        ("secrets_list", VArr (namesOf (obj .@ "secrets")));
        ("image_pull_secrets", VArr (namesOf (obj .@ "imagePullSecrets")));
        ("created_at", rowCreatedAt obj (VStr "")); ("labels", rowLabels obj VNull);
        ("annotations", rowAnnotations obj VNull)].

Definition applyServiceAccountWatchEvent := applyNormalized normalizeWatchServiceAccountObject.
End ServiceAccounts.

(** ** Custom resource definitions *)

Module CRDs.
(** [Array.prototype.sort] of texts. *)
Definition textLe (a b : string) : Prop := String.leb a b = true.
#[global] Instance textLe_dec : RelDecision textLe.
Proof. intros a b. apply bool_eq_dec. Defined.

Definition sortTexts (l : list string) : list string := merge_sort textLe l.

(** pages/custom-resources/crdVersions.ts. *)
Definition servedVersions (versions : value) : list string :=
  sortTexts (omap (λ v, match v .@ "served", v .@ "name" with VBool true, VStr n => Some n | _, _ => None end) (asArray versions)).

Definition crdVersionsText (version : string) (served_versions : option (list string)) : string :=
  let served := match served_versions with Some l => l | None => if nonempty version then [version] else [] end in
  join ", " ((λ v, if eqs v version then v +:+ " (storage)" else v) <$> served).

Definition isRow (obj : value) : bool := isString (obj .@ "name") && isString (obj .@ "group").

Definition normalizeWatchCRDObject (obj : value) : value :=
  if isRow obj then obj else
  let spec := obj .@ "spec" ?? VObj [] in
  let names := spec .@ "names" ?? VObj [] in
  let versions := asArray (spec .@ "versions") in
  let version :=
    if isArray (spec .@ "versions")
    then findv (λ v, truthy (v .@ "storage")) versions .@ "name" ?? at0 versions .@ "name" ?? VStr ""
    else VStr "" in
  VObj [("name", rowName obj); ("group", spec .@ "group" ?? VStr ""); ("version", version);
        ("served_versions", VArr (VStr <$> servedVersions (spec .@ "versions")));
        ("scope", spec .@ "scope" ?? VStr ""); ("kind", names .@ "kind" ?? VStr "");
        ("created_at", rowCreatedAt obj (VStr "")); ("labels", rowLabels obj VNull);
        ("annotations", rowAnnotations obj VNull)].

Definition applyCRDWatchEvent := applyNamed normalizeWatchCRDObject.
End CRDs.

(** ** The kinds of this file *)

Inductive ObjectKind :=
  | PV | PVC | StorageClass | VolumeAttachment | ConfigMap | Secret | Lease | LimitRange | PriorityClass
  | ResourceQuota | RuntimeClass | WebhookConfig | Role | ClusterRole | RoleBinding | ClusterRoleBinding
  | ServiceAccount | CRD | PDB.

Definition normalizeObject (k : ObjectKind) : value → value :=
  match k with
  | PV => PVs.normalizeWatchPvObject | PVC => PVCs.normalizeWatchPvcObject
  | StorageClass => StorageClasses.normalizeWatchStorageClassObject
  | VolumeAttachment => VolumeAttachments.normalizeWatchVolumeAttachmentObject
  | ConfigMap => ConfigMaps.normalizeWatchConfigMapObject | Secret => Secrets.normalizeWatchSecretObject
  | Lease => Leases.normalizeWatchLeaseObject | LimitRange => LimitRanges.normalizeWatchLimitRangeObject
  | PriorityClass => PriorityClasses.normalizeWatchPriorityClassObject
  | ResourceQuota => ResourceQuotas.normalizeWatchResourceQuotaObject
  | RuntimeClass => RuntimeClasses.normalizeWatchRuntimeClassObject
  | WebhookConfig => Webhooks.normalizeWatchWebhookConfigObject
  | Role => Roles.normalizeWatchRoleObject | ClusterRole => ClusterRoles.normalizeWatchClusterRoleObject
  | RoleBinding => RoleBindings.normalizeWatchRoleBindingObject
  | ClusterRoleBinding => RoleBindings.normalizeWatchClusterRoleBindingObject
  | ServiceAccount => ServiceAccounts.normalizeWatchServiceAccountObject
  | CRD => CRDs.normalizeWatchCRDObject | PDB => PDBs.normalizeWatchPDBObject
  end.

Definition isObjectRow (k : ObjectKind) : value → bool :=
  match k with
  | PV => PVs.isRow | PVC => PVCs.isRow | StorageClass => StorageClasses.isRow
  | VolumeAttachment => VolumeAttachments.isRow | ConfigMap => ConfigMaps.isRow | Secret => Secrets.isRow
  | Lease => Leases.isRow | LimitRange => LimitRanges.isRow | PriorityClass => PriorityClasses.isRow
  | ResourceQuota => ResourceQuotas.isRow | RuntimeClass => RuntimeClasses.isRow | WebhookConfig => Webhooks.isRow
  | Role => Roles.isRow | ClusterRole => ClusterRoles.isRow | RoleBinding => RoleBindings.isRow
  | ClusterRoleBinding => RoleBindings.isClusterRow | ServiceAccount => ServiceAccounts.isRow | CRD => CRDs.isRow
  | PDB => PDBs.isRow
  end.

(** The kinds with a namespace. *)
Definition namespaced (k : ObjectKind) : bool :=
  match k with
  | PVC | ConfigMap | Secret | Lease | LimitRange | ResourceQuota | Role | RoleBinding | ServiceAccount | PDB => true
  | _ => false
  end.

(** An object of the API, with the types the API gives the fields a row is told by. *)
Definition objectFromApi (k : ObjectKind) (obj : value) : bool :=
  isString (rowName obj) && (if namespaced k then isString (rowNamespace obj) else true) &&
  match k with
  | PV => isString (obj .@ "status" .@ "phase" ?? VStr "Unknown")
  | PVC => isString (obj .@ "status" .@ "phase")
  | StorageClass => isString (obj .@ "provisioner" ?? VStr "")
  | Secret => isString (obj .@ "type" ?? VStr "")
  | PriorityClass => isNumber (obj .@ "value" ?? VNum 0) && isString (obj .@ "preemptionPolicy" ?? VStr "PreemptLowerPriority")
  | ResourceQuota => isObject (obj .@ "status" .@ "hard" ?? VObj [])
  | RuntimeClass => isString (obj .@ "handler" ?? VStr "") && isString (rowCreatedAt obj (VStr ""))
  | WebhookConfig => isNumber (Webhooks.lengthOf (obj .@ "webhooks") ?? obj .@ "webhooks_count" ?? VNum 0)
  | CRD => isString (obj .@ "spec" .@ "group" ?? VStr "")
  | PDB => isNumber (obj .@ "status" .@ "currentHealthy" ?? VNum 0)
  | _ => true
  end.

Ltac unfold_objects :=
  unfold PVs.normalizeWatchPvObject, PVCs.normalizeWatchPvcObject, StorageClasses.normalizeWatchStorageClassObject,
    VolumeAttachments.normalizeWatchVolumeAttachmentObject, ConfigMaps.normalizeWatchConfigMapObject,
    Secrets.normalizeWatchSecretObject, Leases.normalizeWatchLeaseObject, LimitRanges.normalizeWatchLimitRangeObject,
    PriorityClasses.normalizeWatchPriorityClassObject, ResourceQuotas.normalizeWatchResourceQuotaObject,
    RuntimeClasses.normalizeWatchRuntimeClassObject, Webhooks.normalizeWatchWebhookConfigObject,
    Roles.normalizeWatchRoleObject, ClusterRoles.normalizeWatchClusterRoleObject,
    RoleBindings.normalizeWatchRoleBindingObject, RoleBindings.normalizeWatchClusterRoleBindingObject,
    ServiceAccounts.normalizeWatchServiceAccountObject, CRDs.normalizeWatchCRDObject, PDBs.normalizeWatchPDBObject.

Ltac unfold_rows :=
  unfold PVs.isRow, PVCs.isRow, StorageClasses.isRow, VolumeAttachments.isRow, ConfigMaps.isRow, Secrets.isRow, Leases.isRow,
    LimitRanges.isRow, PriorityClasses.isRow, ResourceQuotas.isRow, RuntimeClasses.isRow, Webhooks.isRow, Roles.isRow,
    ClusterRoles.isRow, RoleBindings.isRow, RoleBindings.isClusterRow, ServiceAccounts.isRow, CRDs.isRow, PDBs.isRow.

Lemma object_row_names k obj :
  isObjectRow k obj = false →
  normalizeObject k obj .@ "name" = rowName obj ∧
  (namespaced k = true → normalizeObject k obj .@ "namespace" = rowNamespace obj).
Proof. intros H. destruct k; simpl in H |- *; unfold_objects; rewrite H; cbv zeta; done. Qed.

Lemma object_row_passes k obj :
  isObjectRow k obj = false → objectFromApi k obj = true → isObjectRow k (normalizeObject k obj) = true.
Proof.
  intros H Hf. destruct (object_row_names k obj H) as [En Ens].
  apply andb_true_iff in Hf as [[Hn Hns]%andb_true_iff Hk].
  destruct k; simpl in H, Hk, Hns, En, Ens |- *; unfold_rows; rewrite En, Hn, ?Ens, ?Hns by done;
    unfold_objects; rewrite H; cbv zeta; rewrite ?get_or_empty; try done; try exact Hk;
    try (rewrite (coalesce_string (obj .@ "status" .@ "phase")) by done; exact Hk).
  simpl. destruct (isNumber (obj .@ "data_count")) eqn:Ec; by rewrite ?Ec.
Qed.

Lemma isString_obj o k : isString (o .@ k) = true → ∃ fs, o = VObj fs.
Proof. destruct o; try done. eauto. Qed.

Lemma arrayOr_array v : isArray v = true → arrayOr v = v.
Proof. by destruct v. Qed.

Lemma coalesce_idem v w : (v ?? w) ?? w = v ?? w.
Proof. destruct v; simpl; try done; by destruct w. Qed.

Lemma normalizeError_idem e : VolumeAttachments.normalizeError (VolumeAttachments.normalizeError e) = VolumeAttachments.normalizeError e.
Proof.
  assert (Hs : ∀ v, stringOrNull (stringOrNull v) = stringOrNull v) by (intros v; unfold stringOrNull; by destruct (isString v) eqn:E; rewrite ?E).
  unfold VolumeAttachments.normalizeError at 2 3. destruct (truthy e) eqn:E; [|done]. simpl.
  destruct (negb _ && negb _) eqn:Em; [done|]. unfold VolumeAttachments.normalizeError. simpl. by rewrite !Hs, Em.
Qed.

Lemma boolOrNull_idem v : boolOrNull (boolOrNull v) = boolOrNull v.
Proof. by destruct v. Qed.

Lemma coalesce_assoc a b c : (a ?? b) ?? c = a ?? (b ?? c).
Proof. by destruct a. Qed.

(** A volume attachment's row is made again of its own fields. *)
Lemma va_row_same obj :
  VolumeAttachments.isRow obj = true ∨ isString (rowName obj) = true →
  VolumeAttachments.normalizeWatchVolumeAttachmentObject (VolumeAttachments.normalizeWatchVolumeAttachmentObject obj) =
  VolumeAttachments.normalizeWatchVolumeAttachmentObject obj.
Proof.
  intros Hn. unfold VolumeAttachments.normalizeWatchVolumeAttachmentObject at 2 3. destruct (VolumeAttachments.isRow obj) eqn:H.
  - unfold VolumeAttachments.normalizeWatchVolumeAttachmentObject. apply andb_true_iff in H as [Hs _].
    match goal with |- context [VolumeAttachments.isRow ?x] => replace (VolumeAttachments.isRow x) with true end.
    2: { unfold VolumeAttachments.isRow. simpl. by rewrite Hs. }
    simpl. by rewrite !normalizeError_idem, boolOrNull_idem, !coalesce_idem.
  - unfold VolumeAttachments.normalizeWatchVolumeAttachmentObject. cbv zeta.
    match goal with |- context [VolumeAttachments.isRow ?x] => replace (VolumeAttachments.isRow x) with true end.
    2: { destruct Hn as [Hn|Hn]; [congruence|]. unfold VolumeAttachments.isRow. simpl. by rewrite Hn. }
    unfold rowCreatedAt. simpl. by rewrite !normalizeError_idem, boolOrNull_idem, !coalesce_assoc.
Qed.

(** The objects a spread brings to their types once. *)
Lemma pv_types_same fs : PVs.types (spread (VObj fs) (PVs.types (VObj fs))) = PVs.types (VObj fs).
Proof.
  unfold PVs.types at 1. rewrite (spread_get fs _ "access_modes" (arrayOr (VObj fs .@ "access_modes"))); [done|by_decide|left].
Qed.

Lemma sc_types_same fs : StorageClasses.types (spread (VObj fs) (StorageClasses.types (VObj fs))) = StorageClasses.types (VObj fs).
Proof.
  assert (Hin : ∀ k v, (k, v) ∈ StorageClasses.types (VObj fs) → spread (VObj fs) (StorageClasses.types (VObj fs)) .@ k = v).
  { intros k v. apply spread_get. by_decide. }
  unfold StorageClasses.types at 1. rewrite (Hin "parameters" (VObj fs .@ "parameters" ?? VObj [])) by left.
  rewrite (Hin "mount_options" (arrayOr (VObj fs .@ "mount_options"))) by (right; left).
  rewrite (Hin "allowed_topologies" (arrayOr (VObj fs .@ "allowed_topologies"))) by (do 2 right; left).
  by rewrite coalesce_idem.
Qed.

(** A spread row: it stays a row, and its second normalization is its first. *)
Lemma spread_row_same (isRow : value → bool) (types : value → list (string * value)) (normalize : value → value) obj fs :
  (∀ o, isRow o = true → normalize o = spread o (types o)) → obj = VObj fs → isRow obj = true →
  NoDup (types obj).*1 → types (spread obj (types obj)) = types obj → isRow (spread obj (types obj)) = true →
  normalize (normalize obj) = normalize obj.
Proof. intros Hn -> Hr Hnd Ht Hr'. rewrite (Hn (VObj fs)), Hn by done. by apply spread_idem. Qed.

Lemma object_row_same k row :
  isObjectRow k row = true → normalizeObject k (normalizeObject k row) = normalizeObject k row.
Proof.
  intros H. destruct k; simpl in H |- *;
    try (unfold_objects; rewrite H; by rewrite H).
  - assert (Hs := H). apply andb_true_iff in Hs as [Hs _]. destruct (isString_obj row "name" Hs) as [fs ->].
    apply (spread_row_same PVs.isRow PVs.types _ _ fs); try done; [|by_decide|apply pv_types_same|].
    + intros o Ho. unfold PVs.normalizeWatchPvObject. by rewrite Ho.
    + unfold PVs.isRow in *. by rewrite !spread_get_ne.
  - assert (Hs := H). do 2 apply andb_true_iff in Hs as [Hs _]. destruct (isString_obj row "name" Hs) as [fs ->].
    apply (spread_row_same PVCs.isRow PVs.types _ _ fs); try done; [|by_decide|apply pv_types_same|].
    + intros o Ho. unfold PVCs.normalizeWatchPvcObject. by rewrite Ho.
    + unfold PVCs.isRow in *. by rewrite !spread_get_ne.
  - assert (Hs := H). apply andb_true_iff in Hs as [Hs _]. destruct (isString_obj row "name" Hs) as [fs ->].
    apply (spread_row_same StorageClasses.isRow StorageClasses.types _ _ fs); try done; [|by_decide|apply sc_types_same|].
    + intros o Ho. unfold StorageClasses.normalizeWatchStorageClassObject. by rewrite Ho.
    + unfold StorageClasses.isRow in *. by rewrite !spread_get_ne.
  - apply va_row_same. by left.
Qed.

(** The lists that take a row as it is. *)
Definition takesAsIs (k : ObjectKind) : bool :=
  match k with PV | PVC | StorageClass | VolumeAttachment => false | _ => true end.

Lemma object_row_id k row : takesAsIs k = true → isObjectRow k row = true → normalizeObject k row = row.
Proof. intros Hk H. destruct k; try done; simpl in H |- *; unfold_objects; by rewrite H. Qed.

(** A raw object's row, typed as it is made, is left alone. *)
Lemma object_raw_same k obj :
  isObjectRow k obj = false → objectFromApi k obj = true →
  normalizeObject k (normalizeObject k obj) = normalizeObject k obj.
Proof.
  intros H Hf. pose proof (object_row_passes k obj H Hf) as R.
  destruct (takesAsIs k) eqn:Ek; [by apply object_row_id|]. destruct k; try done; simpl in H, R |- *.
  - unfold PVs.normalizeWatchPvObject at 1. rewrite R. apply spread_same. unfold PVs.normalizeWatchPvObject. rewrite H.
    intros k v [[= -> ->]|Hin]%elem_of_cons; [|by apply not_elem_of_nil in Hin]. split; [done|]. simpl.
    destruct (isArray _) eqn:E; [|done]. by rewrite arrayOr_array.
  - unfold PVCs.normalizeWatchPvcObject at 1. rewrite R. apply spread_same. unfold PVCs.normalizeWatchPvcObject. rewrite H.
    intros k v [[= -> ->]|Hin]%elem_of_cons; [|by apply not_elem_of_nil in Hin]. split; [done|]. simpl. by destruct (truthy _).
  - unfold StorageClasses.normalizeWatchStorageClassObject at 1. rewrite R. apply spread_same.
    unfold StorageClasses.normalizeWatchStorageClassObject. rewrite H. cbv zeta.
    intros k v Hin. repeat (apply elem_of_cons in Hin as [[= -> ->]|Hin]; [split; [done|]|]); [..|by apply not_elem_of_nil in Hin];
      simpl; rewrite ?coalesce_idem; try done. destruct (isArray _) eqn:E; [|done]. by rewrite arrayOr_array.
  - apply va_row_same. right. by apply andb_true_iff in Hf as [[Hf _]%andb_true_iff _].
Qed.

(** * Properties *)

(** One form per object, for the storage, configuration, cluster, security
    and custom-resource lists: the row made of an object of the API is taken as
    it is the second time, and so is a row already made. *)
Theorem object_rows_settle k obj :
  isObjectRow k obj = true ∨ objectFromApi k obj = true →
  normalizeObject k (normalizeObject k obj) = normalizeObject k obj.
Proof.
  intros H. destruct (isObjectRow k obj) eqn:E; [by apply object_row_same|]. destruct H; [done|by apply object_raw_same].
Qed.

(** A volume as a watch brings it. *)
Definition rawVolume : value :=
  VObj [("metadata", VObj [("name", VStr "pv-1")]);
        ("spec", VObj [("accessModes", VArr [VStr "ReadWriteOnce"]); ("claimRef", VObj [("namespace", VStr "web"); ("name", VStr "data")])]);
        ("status", VObj [("phase", VStr "Bound")])].

Lemma object_rows_settle_witness :
  PVs.normalizeWatchPvObject (PVs.normalizeWatchPvObject rawVolume) = PVs.normalizeWatchPvObject rawVolume.
Proof. apply (object_rows_settle PV rawVolume). right. vm_compute. reflexivity. Defined.

(** A list converges whichever of the three bodies applies its frames: for a
    kind keyed by name alone or by the pair of [applyRowEvent], an object of the
    API changes its own row only - it replaces or adds the row of its key, or
    removes it when the frame is a DELETED one - and the keys stay distinct. *)
Theorem object_event_own_row k rows event obj :
  event .@ "object" = obj → isObjectRow k obj = false → objectFromApi k obj = true → truthy (rowName obj) = true →
  (keysNoDup nameKey rows →
    keysNoDup nameKey (applyNamed (normalizeObject k) (Some rows) event) ∧
    rowsMap nameKey (applyNamed (normalizeObject k) (Some rows) event) =
      (if isStr (event .@ "type") "DELETED" then delete (toString (rowName obj)) (rowsMap nameKey rows)
       else <[toString (rowName obj) := normalizeObject k obj]> (rowsMap nameKey rows))) ∧
  (namespaced k = true → keysNoDup namedKey rows →
    keysNoDup namedKey (applyRowEvent (Some rows) event (normalizeObject k)) ∧
    rowsMap namedKey (applyRowEvent (Some rows) event (normalizeObject k)) =
      (if isStr (event .@ "type") "DELETED"
       then delete (toString (rowNamespace obj), toString (rowName obj)) (rowsMap namedKey rows)
       else <[(toString (rowNamespace obj), toString (rowName obj)) := normalizeObject k obj]> (rowsMap namedKey rows))).
Proof.
  intros <- Hrow Hf Hn. set (obj := event .@ "object") in *.
  destruct (object_row_names k obj Hrow) as [En Ens]. assert (Hs := Hf). do 2 apply andb_true_iff in Hs as [Hs _].
  apply isString_true in Hs as [n Hs]. rewrite Hs in En, Hn |- *.
  assert (Ho : truthy obj = true).
  { clear - Hs Hn. clearbody obj. destruct obj; try done; vm_compute in Hs; injection Hs as <-; done. }
  split.
  - intros Hnd. rewrite applyNamed_op.
    destruct (applyOp_refines nameKey (namedOp (normalizeObject k) event) rows Hnd) as [H1 H2].
    split; [exact H1|]. simpl. rewrite H2. unfold namedOp. fold obj. rewrite Ho, En. cbn [negb]. simpl in Hn. simpl. rewrite Hn. simpl.
    unfold nameKey. by destruct (isStr _ _); simpl; rewrite En.
  - intros Hns Hnd. specialize (Ens Hns). assert (Hs2 := Hf). apply andb_true_iff in Hs2 as [Hs2 _].
    apply andb_true_iff in Hs2 as [_ Hs2]. rewrite Hns in Hs2. apply isString_true in Hs2 as [ns Hs2]. rewrite Hs2 in Ens |- *.
    rewrite applyRowEvent_op.
    destruct (applyOp_refines namedKey (rowEventOp (normalizeObject k) event) rows Hnd) as [H1 H2].
    split; [exact H1|]. simpl. rewrite H2. unfold rowEventOp. fold obj. rewrite Ho. cbn [negb].
    assert (Ek : namedKey (normalizeObject k obj) = (ns, n)).
    { unfold namedKey. simpl. rewrite En, Ens. simpl in Hn |- *. by rewrite Hn. }
    assert (Enm : nameOf (normalizeObject k obj) = n) by (simpl; rewrite En; simpl in Hn |- *; by rewrite Hn).
    rewrite Enm. simpl in Hn. rewrite Hn. simpl. by destruct (isStr _ _); simpl; rewrite Ek.
Qed.

Lemma object_event_own_row_witness :
  rowsMap nameKey (applyNamed PVs.normalizeWatchPvObject (Some []) (VObj [("type", VStr "ADDED"); ("object", rawVolume)])) =
  <["pv-1" := PVs.normalizeWatchPvObject rawVolume]> ∅.
Proof.
  destruct (object_event_own_row PV [] (VObj [("type", VStr "ADDED"); ("object", rawVolume)]) rawVolume) as [H _];
    [vm_compute; reflexivity..|].
  destruct (H ltac:(constructor)) as [_ E]. exact E.
Defined.
