(* ===== verification/NetworkRows.v ===== *)
(** * The rows of the network and gateway lists

    pages/{network,gateway}/*/*WatchNormalize.ts.  [x || []] iterated without a
    check is read as empty when [x] is truthy and no array; the API sends arrays
    there. *)

From stdpp Require Import sorting.
From S2P Require Import Prelude JsString Json WatchRows WorkloadRows ObjectRows Sorting.

(** [Array.isArray(metadata?.finalizers) ? metadata.finalizers : (obj?.finalizers || [])]. *)
Definition finalizersOr (obj : value) : value :=
  if isArray (obj .@ "metadata" .@ "finalizers") then obj .@ "metadata" .@ "finalizers"
  else obj .@ "finalizers" |? VArr [].

Definition apiVersionOf (obj : value) : value := obj .@ "apiVersion" ?? obj .@ "api_version" ?? VNull.

Module Endpoints.

Definition isRow (obj : value) : bool :=
  isString (obj .@ "name") && isString (obj .@ "namespace") && isNumber (obj .@ "ready_count")
  && isNumber (obj .@ "not_ready_count") && isArray (obj .@ "ports").

(** The addresses of the subsets, ready or not. *)
Definition readyOf (subset : value) : list value := asArray (subset .@ "addresses" |? VArr []).
Definition notReadyOf (subset : value) : list value :=
  asArray (subset .@ "notReadyAddresses" |? subset .@ "not_ready_addresses" |? VArr []).

Definition targetOf (addr : value) : value :=
  VObj [("ip", addr .@ "ip"); ("node_name", addr .@ "nodeName" |? addr .@ "node_name");
        ("target_ref", addr .@ "targetRef" |? addr .@ "target_ref" |? VNull)].

Definition portOf (p : value) : value :=
  VObj [("name", p .@ "name"); ("port", p .@ "port"); ("protocol", p .@ "protocol")].

(** [`${p.name || ''}|${p.port || ''}|${p.protocol || ''}`]. *)
Definition portKey (p : value) : string :=
  toString (p .@ "name" |? VStr "") +:+ "|" +:+ toString (p .@ "port" |? VStr "") +:+ "|" +:+
  toString (p .@ "protocol" |? VStr "").

(** The first port of each key, in order. *)
Fixpoint dedup (seen : list string) (ports : list value) : list value :=
  match ports with
  | [] => []
  | p :: ports' => if existsb (eqs (portKey p)) seen then dedup seen ports' else p :: dedup (portKey p :: seen) ports'
  end.

Definition normalizeWatchEndpointObject (obj : value) : value :=
  if isRow obj then obj else
  let subsets := asArray (obj .@ "subsets") in
  let ready := subsets ≫= readyOf in
  let notReady := subsets ≫= notReadyOf in
  let readyAddresses := compact (pluck "ip" ready) in
  let notReadyAddresses := compact (pluck "ip" notReady) in
  let ports := subsets ≫= λ subset, portOf <$> asArray (subset .@ "ports" |? VArr []) in
  VObj [("name", rowName obj); ("namespace", rowNamespace obj);
        ("ready_count", VNum (vlength readyAddresses)); ("not_ready_count", VNum (vlength notReadyAddresses));
        ("ready_addresses", VArr readyAddresses); ("not_ready_addresses", VArr notReadyAddresses);
        ("ready_targets", VArr (targetOf <$> ready)); ("not_ready_targets", VArr (targetOf <$> notReady));
        ("ports", VArr (dedup [] ports)); ("created_at", rowCreatedAt obj (VStr ""))].

Definition applyEndpointWatchEvent := applyNormalized normalizeWatchEndpointObject.

End Endpoints.

Module EndpointSlices.

Definition isRow (obj : value) : bool :=
  isString (obj .@ "name") && isString (obj .@ "namespace") && isNumber (obj .@ "endpoints_total")
  && isNumber (obj .@ "endpoints_ready") && isArray (obj .@ "ports").

Definition types (obj : value) : list (string * value) :=
  [("endpoints_not_ready",
     if isNumber (obj .@ "endpoints_not_ready") then obj .@ "endpoints_not_ready"
     else jsMax (jsSub (obj .@ "endpoints_total" |? VNum 0) (obj .@ "endpoints_ready" |? VNum 0)) (VNum 0))].

(** Names of hints: objects' names, or the list API's names. *)
Definition hintNames (raw list : value) : value :=
  let names := compact (if isArray raw then pluck "name" (asArray raw) else asArray list) in
  if bool_decide (names = []) then VUndef else VArr names.

Definition endpointOf (ep : value) : value :=
  let cond := ep .@ "conditions" ?? VObj [] in
  let ref := ep .@ "targetRef" ?? ep .@ "target_ref" in
  let topology := ep .@ "topology" ?? VObj [] in
  let forZones := hintNames (ep .@ "hints" .@ "forZones") (ep .@ "hints" .@ "for_zones") in
  let forNodes := hintNames (ep .@ "hints" .@ "forNodes") (ep .@ "hints" .@ "for_nodes") in
  VObj [("addresses", arrayOr (ep .@ "addresses")); ("hostname", ep .@ "hostname");
        ("node_name", ep .@ "nodeName" |? ep .@ "node_name");
        ("zone", ep .@ "zone" |? topology .@ "topology.kubernetes.io/zone" |? topology .@ "failure-domain.beta.kubernetes.io/zone");
        ("conditions", VObj [("ready", cond .@ "ready"); ("serving", cond .@ "serving"); ("terminating", cond .@ "terminating")]);
        ("hints", if truthy (forZones |? forNodes) then VObj [("for_zones", forZones); ("for_nodes", forNodes)] else VNull);
        ("target_ref", if truthy ref
                       then VObj [("kind", ref .@ "kind"); ("name", ref .@ "name"); ("namespace", ref .@ "namespace"); ("uid", ref .@ "uid")]
                       else VNull)].

(** An endpoint counts as ready unless it says otherwise. *)
Definition readyEndpoint (ep : value) : bool :=
  let condReady := ep .@ "conditions" .@ "ready" in strictEq condReady (VBool true) || nullish condReady.

Definition portOf (p : value) : value :=
  VObj [("name", p .@ "name"); ("port", p .@ "port"); ("protocol", p .@ "protocol");
        ("app_protocol", p .@ "appProtocol" |? p .@ "app_protocol")].

Definition normalizeWatchEndpointSliceObject (obj : value) : value :=
  if isRow obj then spread obj (types obj) else
  let metadata := obj .@ "metadata" ?? VObj [] in
  let labels := metadata .@ "labels" ?? VObj [] in
  let annotations := metadata .@ "annotations" ?? VObj [] in
  let endpoints := endpointOf <$> asArray (obj .@ "endpoints") in
  let ready := length (filterb readyEndpoint endpoints) in
  let total := length endpoints in
  VObj [("name", rowName obj); ("namespace", rowNamespace obj);
        ("service_name", labels .@ "kubernetes.io/service-name" ?? obj .@ "service_name");
        ("managed_by", labels .@ "endpointslice.kubernetes.io/managed-by" ?? obj .@ "managed_by");
        ("address_type", obj .@ "addressType" ?? obj .@ "address_type");
        ("endpoints_total", VNum (Z.of_nat total)); ("endpoints_ready", VNum (Z.of_nat ready));
        ("endpoints_not_ready", VNum (Z.max (Z.of_nat total - Z.of_nat ready) 0));
        ("ports", VArr (portOf <$> asArray (obj .@ "ports"))); ("endpoints", VArr endpoints);
        ("labels", labels); ("annotations", annotations); ("created_at", rowCreatedAt obj (VStr ""))].

Definition applyEndpointSliceWatchEvent := applyNormalized normalizeWatchEndpointSliceObject.

End EndpointSlices.

Module IngressClasses.

Definition isRow (obj : value) : bool := isString (obj .@ "name") && hasOwn obj "is_default".

Definition types (obj : value) : list (string * value) :=
  [("labels", obj .@ "labels" |? VObj []); ("annotations", obj .@ "annotations" |? VObj []);
   ("finalizers", arrayOr (obj .@ "finalizers"))].

Definition normalizeWatchIngressClassObject (obj : value) : value :=
  if isRow obj then spread obj (types obj) else
  let spec := obj .@ "spec" ?? VObj [] in
  let annotations := obj .@ "metadata" .@ "annotations" ?? obj .@ "annotations" ?? VObj [] in
  let labels := obj .@ "metadata" .@ "labels" ?? obj .@ "labels" ?? VObj [] in
  let p := spec .@ "parameters" in
  let paramObj :=
    if truthy p then VObj [("api_group", p .@ "apiGroup" ?? VNull); ("kind", p .@ "kind" ?? VNull); ("name", p .@ "name" ?? VNull);
                           ("scope", p .@ "scope" ?? VNull); ("namespace", p .@ "namespace" ?? VNull)]
    else VNull in
  VObj [("name", rowName obj); ("controller", spec .@ "controller" ?? VNull);
        ("is_default", VBool (isStr (annotations .@ "ingressclass.kubernetes.io/is-default-class") "true"));
        ("parameters", paramObj); ("labels", labels); ("annotations", annotations);
        ("finalizers", arrayOr (obj .@ "metadata" .@ "finalizers"));
        ("created_at", rowCreatedAt obj VNull)].

Definition applyIngressClassWatchEvent := applyNamed normalizeWatchIngressClassObject.

End IngressClasses.

Module Ingresses.

Definition normalizeBackend (backend : value) : value :=
  if negb (truthy backend) || negb (isObject backend) then VObj [] else
  let service := backend .@ "service" in
  let resource := backend .@ "resource" in
  if truthy service then
    VObj [("type", VStr "service");
          ("service", VObj [("name", service .@ "name" ?? VNull);
                            ("port", service .@ "port" .@ "number" ?? service .@ "port" .@ "name" ?? VNull)])]
  else if truthy resource then VObj [("type", VStr "resource"); ("resource", resource)]
  else VObj [].

(** The name a backend adds to the row's backends, if any. *)
Definition backendName (backend : value) : option value :=
  if isStr (backend .@ "type") "service" && truthy (backend .@ "service" .@ "name") then Some (backend .@ "service" .@ "name")
  else if isStr (backend .@ "type") "resource" then
    let kind := backend .@ "resource" .@ "kind" in
    let name := backend .@ "resource" .@ "name" in
    if truthy kind && truthy name then Some (VStr (toString kind +:+ ":" +:+ toString name)) else None
  else None.

Definition isRow (obj : value) : bool :=
  isString (obj .@ "name") && isString (obj .@ "namespace") && isArray (obj .@ "hosts").

Definition types (obj : value) : list (string * value) :=
  [("backends", arrayOr (obj .@ "backends")); ("hosts", arrayOr (obj .@ "hosts")); ("rules", arrayOr (obj .@ "rules"));
   ("tls", arrayOr (obj .@ "tls")); ("addresses", arrayOr (obj .@ "addresses"));
   ("annotations", obj .@ "annotations" |? VObj []); ("labels", obj .@ "labels" |? VObj [])].

Definition pathOf (p : value) : value :=
  VObj [("path", p .@ "path" ?? VNull); ("path_type", p .@ "pathType" ?? VNull); ("backend", normalizeBackend (p .@ "backend"))].

Definition ruleOf (rule : value) : value :=
  VObj [("host", rule .@ "host" ?? VNull); ("paths", VArr (pathOf <$> asArray (rule .@ "http" .@ "paths" |? VArr [])))].

(** Every backend of the spec, the default one first. *)
Definition backendsOf (spec : value) : list value :=
  normalizeBackend (spec .@ "defaultBackend") ::
  (asArray (spec .@ "rules" |? VArr []) ≫= λ rule,
     (λ p, normalizeBackend (p .@ "backend")) <$> asArray (rule .@ "http" .@ "paths" |? VArr [])).

Definition backendNames (spec : value) : list value := foldl (λ acc n, addTo n acc) [] (omap backendName (backendsOf spec)).

Definition normalizeWatchIngressObject (obj : value) : value :=
  if isRow obj then spread obj (types obj) else
  let spec := obj .@ "spec" ?? VObj [] in
  let status := obj .@ "status" ?? VObj [] in
  let annotations := obj .@ "metadata" .@ "annotations" ?? obj .@ "annotations" ?? VObj [] in
  let labels := obj .@ "metadata" .@ "labels" ?? obj .@ "labels" ?? VObj [] in
  let specClass := spec .@ "ingressClassName" ?? VNull in
  let annoClass := annotations .@ "kubernetes.io/ingress.class" ?? VNull in
  let classSource := if truthy specClass then VStr "spec" else if truthy annoClass then VStr "annotation" else VNull in
  let addresses :=
    (λ item, VObj [("ip", item .@ "ip" ?? VNull); ("hostname", item .@ "hostname" ?? VNull)])
    <$> asArray (status .@ "loadBalancer" .@ "ingress" |? VArr []) in
  let tls :=
    (λ item, VObj [("secret_name", item .@ "secretName" ?? VNull); ("hosts", arrayOr (item .@ "hosts"))])
    <$> asArray (spec .@ "tls" |? VArr []) in
  let rules := ruleOf <$> asArray (spec .@ "rules" |? VArr []) in
  let hosts := filterb (λ v, match v with VStr s => nonempty s | _ => false end) (pluck "host" rules) in
  VObj [("name", rowName obj); ("namespace", rowNamespace obj); ("hosts", VArr hosts);
        ("class", specClass |? annoClass |? VNull); ("class_source", classSource);
        ("backends", VArr (backendNames spec)); ("addresses", VArr addresses); ("tls", VArr tls);
        ("default_backend", normalizeBackend (spec .@ "defaultBackend")); ("rules", VArr rules);
        ("labels", labels); ("annotations", annotations); ("created_at", rowCreatedAt obj VNull)].

Definition applyIngressWatchEvent := applyNormalized normalizeWatchIngressObject.

End Ingresses.

Module NetworkPolicies.

(** [{ ...labels }] of a map of labels. *)
Definition copyOf (v : value) : value := match v with VObj fs => VObj fs | _ => VObj [] end.

Definition normalizeSelector (raw : value) : value :=
  if negb (truthy raw) then VObj [("match_labels", VObj []); ("match_expressions", VArr [])] else
  let matchLabels := raw .@ "match_labels" |? raw .@ "matchLabels" |? VObj [] in
  let matchExpressions := raw .@ "match_expressions" |? raw .@ "matchExpressions" |? VArr [] in
  VObj [("match_labels", copyOf matchLabels);
        ("match_expressions",
          VArr ((λ expr, VObj [("key", expr .@ "key"); ("operator", expr .@ "operator");
                               ("values", if isArray (expr .@ "values") then expr .@ "values" else VNull)])
                <$> asArray matchExpressions))].

(** [a ? normalizeSelector(a) : b ? normalizeSelector(b) : null]. *)
Definition selectorOr (a b : value) : value :=
  if truthy a then normalizeSelector a else if truthy b then normalizeSelector b else VNull.

Definition normalizePeer (peer : value) : value :=
  let ipBlockRaw := peer .@ "ip_block" |? peer .@ "ipBlock" in
  VObj [("ip_block", if truthy ipBlockRaw
                     then VObj [("cidr", ipBlockRaw .@ "cidr"); ("except", arrayOr (ipBlockRaw .@ "except"))] else VNull);
        ("namespace_selector", selectorOr (peer .@ "namespace_selector") (peer .@ "namespaceSelector"));
        ("pod_selector", selectorOr (peer .@ "pod_selector") (peer .@ "podSelector"))].

Definition normalizePorts (ports : value) : value :=
  VArr ((λ port, VObj [("protocol", port .@ "protocol");
                       ("port", if nullish (port .@ "port") then VNull else VStr (toString (port .@ "port")));
                       ("end_port", port .@ "end_port" ?? port .@ "endPort" ?? VNull)])
        <$> asArray ports).

Definition isRow (obj : value) : bool :=
  isString (obj .@ "name") && isString (obj .@ "namespace") && truthy (obj .@ "pod_selector")
  && isArray (obj .@ "policy_types").

(** The rules of a direction; [side] is the field of the peers. *)
Definition rulesOf (side : string) (rules : value) : list value :=
  (λ rule, VObj [(side, VArr (normalizePeer <$> asArray (rule .@ side))); ("ports", normalizePorts (rule .@ "ports"))])
  <$> asArray rules.

Definition normalizeWatchNetworkPolicyObject (obj : value) : value :=
  if isRow obj then obj else
  let metadata := obj .@ "metadata" ?? VObj [] in
  let spec := obj .@ "spec" ?? VObj [] in
  let ingress := rulesOf "from" (spec .@ "ingress") in
  let egress := rulesOf "to" (spec .@ "egress") in
  let policyTypes :=
    if isArray (spec .@ "policyTypes") then asArray (spec .@ "policyTypes") else asArray (spec .@ "policy_types") in
  let labelKeys := keysOf (spec .@ "podSelector" .@ "matchLabels" |? spec .@ "pod_selector" .@ "match_labels" |? VObj []) in
  let expressions := spec .@ "podSelector" .@ "matchExpressions" |? spec .@ "pod_selector" .@ "match_expressions" |? VArr [] in
  let denies type (rules : list value) := existsb (λ t, isStr t type) policyTypes && bool_decide (rules = []) in
  VObj [("name", rowName obj); ("namespace", rowNamespace obj);
        ("pod_selector", normalizeSelector (spec .@ "podSelector" ?? spec .@ "pod_selector"));
        ("selects_all_pods", VBool (bool_decide (labelKeys = []) && strictEq (Webhooks.lengthOf expressions) (VNum 0)));
        ("policy_types", VArr policyTypes);
        ("default_deny_ingress", VBool (denies "Ingress" ingress)); ("default_deny_egress", VBool (denies "Egress" egress));
        ("ingress_rules", VNum (vlength ingress)); ("egress_rules", VNum (vlength egress));
        ("ingress", VArr ingress); ("egress", VArr egress);
        ("labels", metadata .@ "labels" |? obj .@ "labels" |? VObj []);
        ("annotations", metadata .@ "annotations" |? obj .@ "annotations" |? VObj []);
        ("finalizers", metadata .@ "finalizers" |? VArr []); ("created_at", rowCreatedAt obj (VStr ""))].

(** An open drawer's answer after a frame about a policy of its namespace. *)
Definition applyNetworkPolicyToDrawer (prev event : value) (name : string) : value :=
  if negb (truthy (event .@ "object")) || isStr (event .@ "type") "DELETED" then prev else
  let row := normalizeWatchNetworkPolicyObject (event .@ "object") in
  if negb (isStr (row .@ "name") name) then prev else
  let answer := prev ?? VObj [] in
  let keep k := if strictEq (answer .@ k) VUndef then [] else [(k, answer .@ k)] in
  spread row (keep "events" ++ keep "events_error").

Definition applyNetworkPolicyWatchEvent := applyNormalized normalizeWatchNetworkPolicyObject.

End NetworkPolicies.

Module Services.

(** kubectl's EXTERNAL-IP cell; [toString] of a list is [join(',')]. *)
Definition externalIpCell (type spec : value) (ingress : list value) : value :=
  let externalIPs := asArray (spec .@ "externalIPs") in
  if isStr type "ClusterIP" || isStr type "NodePort" then VStr (toString (VArr externalIPs)) |? VStr "<none>"
  else if isStr type "LoadBalancer" then
    let addresses := compact ((λ i, i .@ "ip" |? i .@ "hostname") <$> ingress) in
    let sorted := VStr <$> CRDs.sortTexts (toString <$> foldl (λ acc a, addTo a acc) [] addresses) in
    VStr (toString (VArr (sorted ++ externalIPs))) |? VStr "<pending>"
  else if isStr type "ExternalName" then spec .@ "externalName" ?? VStr ""
  else VStr "<unknown>".

Definition isRow (obj : value) : bool :=
  isString (obj .@ "name") && isString (obj .@ "namespace") && isString (obj .@ "type") && isArray (obj .@ "ports").

Definition portOf (p : value) : value :=
  VObj [("name", p .@ "name"); ("port", p .@ "port"); ("target_port", VStr (toString (p .@ "targetPort" ?? VStr "-")));
        ("node_port", p .@ "nodePort" ?? VNull); ("protocol", p .@ "protocol" ?? VStr "TCP")].

Definition normalizeWatchServiceObject (obj : value) : value :=
  if isRow obj then obj else
  let spec := obj .@ "spec" ?? VObj [] in
  let type := spec .@ "type" ?? obj .@ "type" ?? VStr "ClusterIP" in
  let ingress := asArray (obj .@ "status" .@ "loadBalancer" .@ "ingress") in
  VObj [("name", rowName obj); ("namespace", rowNamespace obj); ("type", type);
        ("cluster_ip", spec .@ "clusterIP" ?? obj .@ "cluster_ip");
        ("external_ip", externalIpCell type spec ingress);
        ("external_ips", arrayOr (spec .@ "externalIPs")); ("load_balancer_ingress", VArr ingress);
        ("ports", VArr (portOf <$> asArray (spec .@ "ports")));
        ("selector", spec .@ "selector" ?? obj .@ "selector" ?? VObj []);
        ("created_at", rowCreatedAt obj (VStr ""))].

Definition applyServiceWatchEvent := applyNormalized normalizeWatchServiceObject.

End Services.

(** ** Gateway API: the status word of a list of conditions *)

(** [String(c?.type) === type && String(c?.status).toLowerCase() === status]. *)
Definition statusIs (status : string) (c : value) : bool := eqs (toLowerCase (toString (c .@ "status"))) status.
Definition holds (type : string) (c : value) : bool := eqs (toString (c .@ "type")) type && statusIs "true" c.

(** The first condition of the words that holds, else the first true one, else
    the first false one. *)
Definition statusText (words : list string) (conditions : list value) : string :=
  let trueCondition := findv (statusIs "true") conditions in
  let falseCondition := findv (statusIs "false") conditions in
  match find (λ w, some (holds w) conditions) words with
  | Some w => w
  | None =>
      if truthy (trueCondition .@ "type") then toString (trueCondition .@ "type")
      else if truthy (falseCondition .@ "type") then toString (falseCondition .@ "type") +:+ "(False)"
      else "Unknown"
  end.

Module GatewayClasses.

Definition isRow (obj : value) : bool := isString (obj .@ "name") && hasOwn obj "controller_name".

Definition types (obj : value) : list (string * value) :=
  [("parameters_ref", obj .@ "parameters_ref" |? VNull); ("conditions", arrayOr (obj .@ "conditions"));
   ("labels", obj .@ "labels" |? VObj []); ("annotations", obj .@ "annotations" |? VObj []);
   ("finalizers", arrayOr (obj .@ "finalizers"))].

Definition normalizeWatchGatewayClassObject (obj : value) : value :=
  if isRow obj then spread obj (types obj) else
  let spec := obj .@ "spec" ?? VObj [] in
  let conditions := asArray (obj .@ "status" .@ "conditions") in
  VObj [("name", rowName obj); ("controller_name", spec .@ "controllerName" ?? obj .@ "controller_name" ?? VNull);
        ("description", spec .@ "description" ?? obj .@ "description" ?? VNull);
        ("accepted", VBool (some (holds "Accepted") conditions));
        ("status", VStr (statusText ["Accepted"] conditions));
        ("parameters_ref", spec .@ "parametersRef" ?? obj .@ "parameters_ref" ?? VNull);
        ("conditions", VArr conditions); ("labels", rowLabels obj (VObj []));
        ("annotations", rowAnnotations obj (VObj [])); ("finalizers", finalizersOr obj);
        ("created_at", rowCreatedAt obj VNull); ("api_version", apiVersionOf obj)].

Definition applyGatewayClassWatchEvent := applyNamed normalizeWatchGatewayClassObject.

End GatewayClasses.

Module Gateways.

Definition inferGatewayStatus (conditions : value) : string := statusText ["Programmed"; "Accepted"] (asArray conditions).

Definition isRow (obj : value) : bool :=
  isString (obj .@ "name") && isString (obj .@ "namespace") && isNumber (obj .@ "listeners_count").

Definition types (obj : value) : list (string * value) :=
  [("listeners_count", CronJobs.numberOr0 (obj .@ "listeners_count"));
   ("attached_routes", CronJobs.numberOr0 (obj .@ "attached_routes"));
   ("addresses_count", CronJobs.numberOr0 (obj .@ "addresses_count"));
   ("listeners", arrayOr (obj .@ "listeners")); ("status_listeners", arrayOr (obj .@ "status_listeners"));
   ("addresses", arrayOr (obj .@ "addresses")); ("conditions", arrayOr (obj .@ "conditions"));
   ("labels", obj .@ "labels" |? VObj []); ("annotations", obj .@ "annotations" |? VObj []);
   ("finalizers", arrayOr (obj .@ "finalizers"))].

(** The listeners' attached routes added up, those that are numbers. *)
Definition attachedRoutes (statusListeners : list value) : Z :=
  foldl (λ sum item, match toNumber (item .@ "attachedRoutes" |? item .@ "attached_routes" |? VNum 0) with
                     | Some n => (sum + n)%Z | None => sum end) 0%Z statusListeners.

Definition normalizeWatchGatewayObject (obj : value) : value :=
  if isRow obj then spread obj (types obj) else
  let metadata := obj .@ "metadata" ?? VObj [] in
  let spec := obj .@ "spec" ?? VObj [] in
  let status := obj .@ "status" ?? VObj [] in
  let listeners := asArray (spec .@ "listeners") in
  let statusListeners := asArray (status .@ "listeners") in
  let addresses := asArray (status .@ "addresses") in
  let conditions := asArray (status .@ "conditions") in
  VObj [("name", rowName obj); ("namespace", rowNamespace obj);
        ("gateway_class_name", spec .@ "gatewayClassName" ?? obj .@ "gateway_class_name" ?? VNull);
        ("listeners_count", VNum (vlength listeners)); ("attached_routes", VNum (attachedRoutes statusListeners));
        ("addresses_count", VNum (vlength addresses));
        ("status", VStr (inferGatewayStatus (VArr conditions)));
        ("programmed", VBool (some (holds "Programmed") conditions));
        ("accepted", VBool (some (holds "Accepted") conditions));
        ("listeners", VArr listeners); ("status_listeners", VArr statusListeners); ("addresses", VArr addresses);
        ("conditions", VArr conditions);
        ("labels", metadata .@ "labels" |? VObj []); ("annotations", metadata .@ "annotations" |? VObj []);
        ("finalizers", metadata .@ "finalizers" |? VArr []);
        ("created_at", rowCreatedAt obj VNull); ("api_version", apiVersionOf obj)].

Definition applyGatewayWatchEvent := applyNormalized normalizeWatchGatewayObject.

End Gateways.

(** HTTPRoute and GRPCRoute: one body in two files. *)
Module Routes.

Definition isRow (obj : value) : bool :=
  isString (obj .@ "name") && isString (obj .@ "namespace") && hasOwn obj "rule_count".

Definition types (obj : value) : list (string * value) :=
  [("hostnames", arrayOr (obj .@ "hostnames")); ("parent_refs", arrayOr (obj .@ "parent_refs"));
   ("rules", arrayOr (obj .@ "rules")); ("parents", arrayOr (obj .@ "parents"));
   ("conditions", arrayOr (obj .@ "conditions")); ("labels", obj .@ "labels" |? VObj []);
   ("annotations", obj .@ "annotations" |? VObj []); ("finalizers", arrayOr (obj .@ "finalizers"))].

Definition backendRefsCount (rules : list value) : nat :=
  foldl (λ n rule, n + length (asArray (rule .@ "backendRefs"))) 0 rules.

Definition conditionsOf (parents : list value) : list value :=
  parents ≫= λ parent, filterb (λ c, truthy c && isObject c) (asArray (parent .@ "conditions")).

Definition routeRow (obj : value) : value :=
  if isRow obj then spread obj (types obj) else
  let spec := obj .@ "spec" ?? VObj [] in
  let rules := asArray (spec .@ "rules") in
  let parentRefs := asArray (spec .@ "parentRefs") in
  let parents := asArray (obj .@ "status" .@ "parents") in
  let conditions := conditionsOf parents in
  VObj [("name", rowName obj); ("namespace", rowNamespace obj); ("hostnames", arrayOr (spec .@ "hostnames"));
        ("parent_refs", VArr parentRefs); ("rules", VArr rules); ("parents", VArr parents);
        ("rule_count", VNum (vlength rules)); ("parent_refs_count", VNum (vlength parentRefs));
        ("backend_refs_count", VNum (Z.of_nat (backendRefsCount rules)));
        ("status", VStr (statusText ["Accepted"; "ResolvedRefs"] conditions));
        ("accepted", VBool (some (holds "Accepted") conditions));
        ("resolved_refs", VBool (some (holds "ResolvedRefs") conditions));
        ("conditions", VArr conditions); ("labels", rowLabels obj (VObj []));
        ("annotations", rowAnnotations obj (VObj [])); ("finalizers", finalizersOr obj);
        ("created_at", rowCreatedAt obj VNull); ("api_version", apiVersionOf obj)].

Definition normalizeWatchHTTPRouteObject := routeRow.
Definition normalizeWatchGRPCRouteObject := routeRow.
Definition applyHTTPRouteWatchEvent := applyNormalized normalizeWatchHTTPRouteObject.
Definition applyGRPCRouteWatchEvent := applyNormalized normalizeWatchGRPCRouteObject.

End Routes.

Module ReferenceGrants.

Definition isRow (obj : value) : bool :=
  isString (obj .@ "name") && isString (obj .@ "namespace") && (isArray (obj .@ "from") || isArray (obj .@ "to")).

Definition types (obj : value) : list (string * value) :=
  [("from", arrayOr (obj .@ "from")); ("to", arrayOr (obj .@ "to")); ("labels", obj .@ "labels" |? VObj []);
   ("annotations", obj .@ "annotations" |? VObj [])].

Definition normalizeWatchReferenceGrantObject (obj : value) : value :=
  if isRow obj then spread obj (types obj) else
  let spec := obj .@ "spec" ?? VObj [] in
  VObj [("name", rowName obj); ("namespace", rowNamespace obj); ("from", arrayOr (spec .@ "from")); ("to", arrayOr (spec .@ "to"));
        ("labels", rowLabels obj (VObj [])); ("annotations", rowAnnotations obj (VObj []));
        ("created_at", rowCreatedAt obj VNull); ("api_version", apiVersionOf obj)].

Definition applyReferenceGrantWatchEvent := applyNormalized normalizeWatchReferenceGrantObject.

End ReferenceGrants.

(** ** The kinds of this file *)

Inductive NetworkKind :=
  | Endpoint | EndpointSlice | IngressClass | Ingress | NetworkPolicy | Service | GatewayClass | Gateway | Route | ReferenceGrant.

#[global] Instance NetworkKind_eq_dec : EqDecision NetworkKind.
Proof. solve_decision. Defined.

Definition normalizeNetwork (k : NetworkKind) : value → value :=
  match k with
  | Endpoint => Endpoints.normalizeWatchEndpointObject | EndpointSlice => EndpointSlices.normalizeWatchEndpointSliceObject
  | IngressClass => IngressClasses.normalizeWatchIngressClassObject | Ingress => Ingresses.normalizeWatchIngressObject
  | NetworkPolicy => NetworkPolicies.normalizeWatchNetworkPolicyObject | Service => Services.normalizeWatchServiceObject
  | GatewayClass => GatewayClasses.normalizeWatchGatewayClassObject | Gateway => Gateways.normalizeWatchGatewayObject
  | Route => Routes.routeRow | ReferenceGrant => ReferenceGrants.normalizeWatchReferenceGrantObject
  end.

Definition isNetworkRow (k : NetworkKind) : value → bool :=
  match k with
  | Endpoint => Endpoints.isRow | EndpointSlice => EndpointSlices.isRow | IngressClass => IngressClasses.isRow
  | Ingress => Ingresses.isRow | NetworkPolicy => NetworkPolicies.isRow | Service => Services.isRow
  | GatewayClass => GatewayClasses.isRow | Gateway => Gateways.isRow | Route => Routes.isRow
  | ReferenceGrant => ReferenceGrants.isRow
  end.

(** The fields a list sets on a row it is given. *)
Definition rowTypes (k : NetworkKind) : value → list (string * value) :=
  match k with
  | EndpointSlice => EndpointSlices.types | IngressClass => IngressClasses.types | Ingress => Ingresses.types
  | GatewayClass => GatewayClasses.types | Gateway => Gateways.types | Route => Routes.types
  | ReferenceGrant => ReferenceGrants.types
  | Endpoint | NetworkPolicy | Service => λ _, []
  end.

(** An object or nothing. *)
Definition objectOrNone (v : value) : bool := match v with VUndef | VNull | VObj _ => true | _ => false end.
Definition arrayOrNone (v : value) : bool := match v with VUndef | VNull | VArr _ => true | _ => false end.

(** An object of the API. *)
Definition networkFromApi (k : NetworkKind) (obj : value) : bool :=
  isString (rowName obj) && match k with IngressClass | GatewayClass => true | _ => isString (rowNamespace obj) end &&
  objectOrNone (obj .@ "metadata" .@ "labels") && objectOrNone (obj .@ "labels") &&
  objectOrNone (obj .@ "metadata" .@ "annotations") && objectOrNone (obj .@ "annotations") &&
  arrayOrNone (obj .@ "metadata" .@ "finalizers") && arrayOrNone (obj .@ "finalizers") &&
  match k with
  | GatewayClass => objectOrNone (obj .@ "spec" .@ "parametersRef") && objectOrNone (obj .@ "parameters_ref")
  | Service => isString (obj .@ "spec" .@ "type" ?? obj .@ "type" ?? VStr "ClusterIP")
  | _ => true
  end.

(** A row whose counts are numbers. *)
Definition networkRowFromApi (k : NetworkKind) (row : value) : bool :=
  let count f := bool_decide (is_Some (toNumber (row .@ f |? VNum 0))) in
  match k with
  | Gateway => count "listeners_count" && count "attached_routes" && count "addresses_count"
  | _ => true
  end.

Ltac unfold_network :=
  unfold Endpoints.normalizeWatchEndpointObject, EndpointSlices.normalizeWatchEndpointSliceObject,
    IngressClasses.normalizeWatchIngressClassObject, Ingresses.normalizeWatchIngressObject,
    NetworkPolicies.normalizeWatchNetworkPolicyObject, Services.normalizeWatchServiceObject,
    GatewayClasses.normalizeWatchGatewayClassObject, Gateways.normalizeWatchGatewayObject, Routes.routeRow,
    ReferenceGrants.normalizeWatchReferenceGrantObject.

(** A row is given its types; a list without any takes it as it is. *)
Lemma network_row_spread k row : isNetworkRow k row = true → normalizeNetwork k row = spread row (rowTypes k row).
Proof. intros H. destruct k; simpl in H |- *; unfold_network; by rewrite H. Qed.

Lemma network_row_names k obj :
  isNetworkRow k obj = false → normalizeNetwork k obj .@ "name" = rowName obj ∧
  (match k with IngressClass | GatewayClass => True | _ => normalizeNetwork k obj .@ "namespace" = rowNamespace obj end).
Proof. intros H. destruct k; simpl in H |- *; unfold_network; rewrite H; cbv zeta; done. Qed.

Lemma selector_truthy raw : truthy (NetworkPolicies.normalizeSelector raw) = true.
Proof. unfold NetworkPolicies.normalizeSelector. by destruct (truthy raw). Qed.

Lemma network_row_passes k obj :
  isNetworkRow k obj = false → networkFromApi k obj = true → isNetworkRow k (normalizeNetwork k obj) = true.
Proof.
  intros H Hf. destruct (network_row_names k obj H) as [En Ens]. unfold networkFromApi in Hf.
  repeat (apply andb_true_iff in Hf as [Hf ?]).
  destruct k; simpl in *;
    unfold Endpoints.isRow, EndpointSlices.isRow, IngressClasses.isRow, Ingresses.isRow, NetworkPolicies.isRow, Services.isRow,
      GatewayClasses.isRow, Gateways.isRow, Routes.isRow, ReferenceGrants.isRow;
    rewrite En, ?Ens, Hf; unfold_network; rewrite H; cbv zeta; rewrite ?get_or_empty; simpl;
    rewrite ?selector_truthy; try done;
    match goal with Hns : isString (rowNamespace obj) = true |- _ => rewrite Hns end; simpl;
    rewrite ?selector_truthy; try done.
  match goal with Ht : isString (_ ?? _) = true |- _ => by rewrite Ht end.
Qed.

(** ** Lemmas: a row's types are its own *)

Lemma or_object v : objectOrNone v = true → (v |? VObj []) = v ?? VObj [].
Proof. by destruct v. Qed.

Lemma or_array v : arrayOrNone v = true → (v |? VArr []) = v ?? VArr [].
Proof. by destruct v. Qed.

Lemma objectOrNone_coalesce v w : objectOrNone v = true → objectOrNone w = true → objectOrNone (v ?? w) = true.
Proof. by destruct v. Qed.

(** The maps and lists of a raw object's row. *)
Lemma maps_same v w :
  objectOrNone v = true → objectOrNone w = true → (v ?? w ?? VObj []) |? VObj [] = v ?? w ?? VObj [].
Proof. intros H1 H2. rewrite or_object; [|by repeat apply objectOrNone_coalesce]. by rewrite !coalesce_assoc. Qed.

Lemma finalizers_same obj :
  arrayOrNone (obj .@ "finalizers") = true → arrayOr (finalizersOr obj) = finalizersOr obj.
Proof. intros H. unfold finalizersOr. destruct (isArray _) eqn:E; [by apply arrayOr_array|]. by destruct (obj .@ "finalizers"). Qed.

Lemma numberOr0_num z : CronJobs.numberOr0 (VNum z) = VNum z.
Proof. unfold CronJobs.numberOr0, or_else. simpl. by destruct (Z.eqb_spec z 0) as [->|]. Qed.

Lemma metadata_or obj k : objectOrNone (obj .@ "metadata" .@ k) = true →
  ((obj .@ "metadata" .@ k |? VObj []) |? VObj []) = (obj .@ "metadata" .@ k |? VObj []).
Proof. by destruct (obj .@ "metadata" .@ k). Qed.

(** Each property of a concrete spread, in turn. *)
Ltac each_property Hin :=
  repeat (apply elem_of_cons in Hin as [[= -> ->]|Hin]; [split; [done|simpl]|]); [..|by apply not_elem_of_nil in Hin].

Lemma network_raw_same k obj :
  isNetworkRow k obj = false → networkFromApi k obj = true →
  normalizeNetwork k (normalizeNetwork k obj) = normalizeNetwork k obj.
Proof.
  intros H Hf. rewrite network_row_spread by (by apply network_row_passes). apply spread_same.
  unfold networkFromApi in Hf. repeat (apply andb_true_iff in Hf as [Hf ?]).
  intros f v Hin. destruct k; try (by apply not_elem_of_nil in Hin); simpl in H, Hin |- *; revert Hin; unfold_network; rewrite H; cbv zeta;
    intros Hin; simpl in Hin.
  - each_property Hin. done.
  - each_property Hin; by rewrite ?maps_same.
  - each_property Hin; by rewrite ?maps_same.
  - each_property Hin; unfold rowLabels, rowAnnotations; rewrite ?maps_same, ?finalizers_same by done; try done.
    rewrite get_or_empty. by destruct (obj .@ "spec" .@ "parametersRef"); simpl in *; try done; destruct (obj .@ "parameters_ref").
  - each_property Hin; rewrite ?numberOr0_num, ?get_or_empty, ?metadata_or by done; try done.
    by destruct (obj .@ "metadata" .@ "finalizers").
  - each_property Hin; unfold rowLabels, rowAnnotations; rewrite ?maps_same, ?finalizers_same by done; done.
  - each_property Hin; unfold rowLabels, rowAnnotations; rewrite ?maps_same by done; done.
Qed.

(** Types that fix each property by itself. *)
Definition fixedBy (fixes : list (string * (value → value))) (row : value) : list (string * value) :=
  (λ kf, (kf.1, kf.2 (row .@ kf.1))) <$> fixes.

Lemma fixedBy_keys fixes row : (fixedBy fixes row).*1 = fixes.*1.
Proof. unfold fixedBy. rewrite <-list_fmap_compose. by apply list_fmap_ext. Qed.

Lemma fixedBy_same fixes fs :
  NoDup fixes.*1 → (∀ k f, (k, f) ∈ fixes → f (f (VObj fs .@ k)) = f (VObj fs .@ k)) →
  fixedBy fixes (spread (VObj fs) (fixedBy fixes (VObj fs))) = fixedBy fixes (VObj fs).
Proof.
  intros Hnd Hf. unfold fixedBy at 1 3. apply list_fmap_ext. intros i [k f] Hi. apply list_elem_of_lookup_2 in Hi. simpl.
  f_equal. rewrite (spread_get fs _ k (f (VObj fs .@ k))); [by apply Hf|by rewrite fixedBy_keys|].
  apply list_elem_of_fmap. by exists (k, f).
Qed.

Definition orEmpty (v : value) : value := v |? VObj [].
Lemma orEmpty_idem v : orEmpty (orEmpty v) = orEmpty v.
Proof. unfold orEmpty, or_else. by destruct (truthy v) eqn:E; rewrite ?E. Qed.

Definition orNull (v : value) : value := v |? VNull.
Lemma orNull_idem v : orNull (orNull v) = orNull v.
Proof. unfold orNull, or_else. by destruct (truthy v) eqn:E; rewrite ?E. Qed.

Definition fixes (k : NetworkKind) : list (string * (value → value)) :=
  match k with
  | IngressClass => [("labels", orEmpty); ("annotations", orEmpty); ("finalizers", arrayOr)]
  | Ingress => [("backends", arrayOr); ("hosts", arrayOr); ("rules", arrayOr); ("tls", arrayOr); ("addresses", arrayOr);
                ("annotations", orEmpty); ("labels", orEmpty)]
  | GatewayClass => [("parameters_ref", orNull); ("conditions", arrayOr); ("labels", orEmpty); ("annotations", orEmpty);
                     ("finalizers", arrayOr)]
  | Gateway => [("listeners_count", CronJobs.numberOr0); ("attached_routes", CronJobs.numberOr0);
                ("addresses_count", CronJobs.numberOr0); ("listeners", arrayOr); ("status_listeners", arrayOr);
                ("addresses", arrayOr); ("conditions", arrayOr); ("labels", orEmpty); ("annotations", orEmpty);
                ("finalizers", arrayOr)]
  | Route => [("hostnames", arrayOr); ("parent_refs", arrayOr); ("rules", arrayOr); ("parents", arrayOr);
              ("conditions", arrayOr); ("labels", orEmpty); ("annotations", orEmpty); ("finalizers", arrayOr)]
  | ReferenceGrant => [("from", arrayOr); ("to", arrayOr); ("labels", orEmpty); ("annotations", orEmpty)]
  | _ => []
  end.

Lemma rowTypes_fixes k row : k ≠ EndpointSlice → rowTypes k row = fixedBy (fixes k) row.
Proof. by destruct k. Qed.

Lemma fixes_idem k f g (row : value) :
  networkRowFromApi k row = true → (f, g) ∈ fixes k → g (g (row .@ f)) = g (row .@ f).
Proof.
  intros Hc Hin. destruct k; simpl in Hin; try (by apply not_elem_of_nil in Hin);
    repeat (apply elem_of_cons in Hin as [[= -> ->]|Hin];
      [first [apply arrayOr_idem|apply orEmpty_idem|apply orNull_idem|idtac]|]); try (by apply not_elem_of_nil in Hin);
    apply numberOr0_idem; simpl in Hc; repeat (apply andb_true_iff in Hc as [Hc ?]); by eapply bool_decide_eq_true_1.
Qed.

Lemma network_row_stays k fs :
  isNetworkRow k (VObj fs) = true → isNetworkRow k (spread (VObj fs) (rowTypes k (VObj fs))) = true.
Proof.
  intros H. destruct k; try exact H; cbn [isNetworkRow rowTypes] in H |- *;
    unfold EndpointSlices.isRow, IngressClasses.isRow, Ingresses.isRow, GatewayClasses.isRow, Gateways.isRow, Routes.isRow,
      ReferenceGrants.isRow in *;
    repeat (apply andb_true_iff in H as [H ?]); rewrite ?spread_own, ?spread_get_ne by done.
  - by repeat (apply andb_true_iff; split).
  - by repeat (apply andb_true_iff; split).
  - rewrite (spread_get fs _ "hosts" (arrayOr (VObj fs .@ "hosts"))); [by repeat (apply andb_true_iff; split)|by_decide|by right; left].
  - by repeat (apply andb_true_iff; split).
  - rewrite (spread_get fs _ "listeners_count" (CronJobs.numberOr0 (VObj fs .@ "listeners_count"))); [|by_decide|by left].
    repeat (apply andb_true_iff; split); try done. unfold CronJobs.numberOr0. by destruct (toNumber _).
  - by repeat (apply andb_true_iff; split).
  - rewrite (spread_get fs _ "from" (arrayOr (VObj fs .@ "from"))); [by repeat (apply andb_true_iff; split)|by_decide|by left].
Qed.

Lemma jsMax_number a b : isNumber (jsMax a b) = true.
Proof. unfold jsMax. by destruct (_ ≫= _). Qed.

Lemma network_row_same k row :
  isNetworkRow k row = true → networkRowFromApi k row = true →
  normalizeNetwork k (normalizeNetwork k row) = normalizeNetwork k row.
Proof.
  intros H Hc. assert (∃ fs, row = VObj fs) as [fs ->].
  { apply (isString_obj row "name"). destruct k; simpl in H; repeat (apply andb_true_iff in H as [H _]); exact H. }
  rewrite (network_row_spread k (VObj fs)), network_row_spread by (done || by apply network_row_stays).
  destruct (decide (k = EndpointSlice)) as [->|Hk].
  - apply (spread_idem fs EndpointSlices.types); [by_decide|]. unfold EndpointSlices.types at 1.
    set (v := if isNumber (VObj fs .@ "endpoints_not_ready") then VObj fs .@ "endpoints_not_ready"
              else jsMax (jsSub (VObj fs .@ "endpoints_total" |? VNum 0) (VObj fs .@ "endpoints_ready" |? VNum 0)) (VNum 0)).
    rewrite (spread_get fs (EndpointSlices.types (VObj fs)) "endpoints_not_ready" v); [|by_decide|by left].
    assert (Hv : isNumber v = true).
    { unfold v. destruct (isNumber (VObj fs .@ "endpoints_not_ready")) eqn:En; [done|apply jsMax_number]. }
    rewrite Hv. done.
  - rewrite !rowTypes_fixes by done. assert (Hnd : NoDup (fixes k).*1) by (destruct k; by_decide).
    apply (spread_idem fs (fixedBy (fixes k))); [by rewrite fixedBy_keys|].
    apply fixedBy_same; [done|]. intros f g Hin. by apply (fixes_idem k).
Qed.

(** ** Lemmas: ports, endpoints and addresses *)

Lemma dedup_spec seen ports :
  NoDup (Endpoints.portKey <$> Endpoints.dedup seen ports) ∧
  (∀ p, p ∈ Endpoints.dedup seen ports → p ∈ ports ∧ Endpoints.portKey p ∉ seen) ∧
  (∀ p, p ∈ ports → Endpoints.portKey p ∈ seen ∨ Endpoints.portKey p ∈ Endpoints.portKey <$> Endpoints.dedup seen ports).
Proof.
  revert seen. induction ports as [|p ports IH]; intros seen; simpl.
  { split_and!; [apply NoDup_nil_2|by intros p ?%not_elem_of_nil|by intros p ?%not_elem_of_nil]. }
  assert (Hs : existsb (eqs (Endpoints.portKey p)) seen = true ↔ Endpoints.portKey p ∈ seen).
  { rewrite existsb_exists, list_elem_of_In. split; [by intros (k & Hk & ->%eqs_true)|]. intros Hk. exists (Endpoints.portKey p).
    split; [done|apply eqs_refl]. }
  destruct (existsb _ seen).
  - destruct (IH seen) as (H1 & H2 & H3). split_and!; [done| |].
    + intros q Hq. destruct (H2 q Hq). split; [by right|done].
    + intros q [->|Hq]%elem_of_cons; [left; by apply Hs|by apply H3].
  - destruct (IH (Endpoints.portKey p :: seen)) as (H1 & H2 & H3).
    assert (Hp : Endpoints.portKey p ∉ seen) by (intros Hp; by apply Hs in Hp). split_and!.
    + csimpl. apply NoDup_cons. split; [|done]. intros (q & Hq & Hin)%list_elem_of_fmap.
      destruct (H2 q Hin) as [_ Hn]. rewrite <-Hq in Hn. apply Hn. by left.
    + intros q [->|Hq]%elem_of_cons; [split; [by left|done]|]. destruct (H2 q Hq) as [? Hn]. split; [by right|].
      intros Hin. apply Hn. by right.
    + intros q [->|Hq]%elem_of_cons; [right; csimpl; by left|]. csimpl.
      destruct (H3 q Hq) as [[->|Hin]%elem_of_cons|Hin]; [right; by left|by left|right; by right].
Qed.

Lemma filterb_length {A} (P : A → bool) l :
  length (filterb P l) + length (filterb (λ x, negb (P x)) l) = length l.
Proof. induction l as [|x l IH]; [done|]. simpl. unfold filterb in *. simpl. destruct (P x); simpl; lia. Qed.

Lemma addTo_set l :
  Forall (λ v, isString v = true) l → NoDup (foldl (λ acc a, addTo a acc) [] l) ∧
  (∀ x, x ∈ foldl (λ acc a, addTo a acc) [] l ↔ x ∈ l) ∧
  Forall (λ v, isString v = true) (foldl (λ acc a, addTo a acc) [] l).
Proof.
  induction l as [|a l IH] using rev_ind; intros H; [split_and!; [apply NoDup_nil_2|done|apply Forall_nil_2]|].
  apply Forall_app in H as [Hl Ha]. rewrite Forall_singleton in Ha. destruct (IH Hl) as (H1 & H2 & H3).
  rewrite foldl_app. simpl. destruct (addTo_strings a (foldl (λ acc a, addTo a acc) [] l)) as (A1 & A2 & A3); [|done|].
  { by apply Forall_cons. }
  split_and!; [done| |done]. intros x. rewrite A2, H2, elem_of_app, list_elem_of_singleton. tauto.
Qed.

Lemma textLe_trans : Transitive CRDs.textLe.
Proof. intros s t u. apply leb_trans. Qed.

Lemma textLe_total : Total CRDs.textLe.
Proof. intros s t. apply String.leb_total. Qed.

Lemma textLe_antisymm : AntiSymm (=) CRDs.textLe.
Proof. intros s t. apply String.leb_antisym. Qed.

(** Sorting forgets the order. *)
Lemma sortTexts_perm l l' : l ≡ₚ l' → CRDs.sortTexts l = CRDs.sortTexts l'.
Proof.
  intros H. unfold CRDs.sortTexts. pose proof textLe_trans. pose proof textLe_total. pose proof textLe_antisymm.
  apply (StronglySorted_unique CRDs.textLe); [by apply StronglySorted_merge_sort..|].
  by rewrite !merge_sort_Permutation.
Qed.

(** ** The addresses of a load balancer *)
Definition addressesOf (ingress : list value) : list value := compact ((λ i, i .@ "ip" |? i .@ "hostname") <$> ingress).

(** * Properties *)

(** One form per object, for the network and gateway lists: the row made of
    an object of the API is taken as it is the second time, and a row already
    made is brought to its types once. *)
Theorem network_rows_settle k obj :
  (if isNetworkRow k obj then networkRowFromApi k obj else networkFromApi k obj) = true →
  normalizeNetwork k (normalizeNetwork k obj) = normalizeNetwork k obj.
Proof. intros H. destruct (isNetworkRow k obj) eqn:E; [by apply network_row_same|by apply network_raw_same]. Qed.

(** An Ingress as a watch brings it. *)
Definition rawIngress : value :=
  VObj [("metadata", VObj [("name", VStr "site"); ("namespace", VStr "web")]);
        ("spec", VObj [("rules", VArr [VObj [("host", VStr "a.example");
          ("http", VObj [("paths", VArr [VObj [("backend", VObj [("service", VObj [("name", VStr "api")])])]])])]])])].

Lemma network_rows_settle_witness :
  Ingresses.normalizeWatchIngressObject (Ingresses.normalizeWatchIngressObject rawIngress) =
  Ingresses.normalizeWatchIngressObject rawIngress.
Proof. apply (network_rows_settle Ingress rawIngress). vm_compute. reflexivity. Defined.

(** The ports of the subsets of an Endpoints object. *)
Definition subsetPorts (obj : value) : list value :=
  asArray (obj .@ "subsets") ≫= λ subset, Endpoints.portOf <$> asArray (subset .@ "ports" |? VArr []).

(** An endpoint of the row is ready when the object's is. *)
Lemma endpointOf_ready ep : EndpointSlices.readyEndpoint (EndpointSlices.endpointOf ep) = EndpointSlices.readyEndpoint ep.
Proof.
  unfold EndpointSlices.readyEndpoint, EndpointSlices.endpointOf. cbv zeta.
  change (get (VObj _) "conditions") with
    (VObj [("ready", (ep .@ "conditions" ?? VObj []) .@ "ready"); ("serving", (ep .@ "conditions" ?? VObj []) .@ "serving");
           ("terminating", (ep .@ "conditions" ?? VObj []) .@ "terminating")]).
  change (get (VObj _) "ready") with ((ep .@ "conditions" ?? VObj []) .@ "ready"). by destruct (ep .@ "conditions").
Qed.

(** The ready endpoints among [l] are all of it exactly when each is ready. *)
Lemma filterb_all {A} (P : A → bool) l : length (filterb P l) = length l ↔ ∀ x, x ∈ l → P x = true.
Proof.
  induction l as [|a l IH]; [split; [by intros _ x ?%not_elem_of_nil|done]|].
  pose proof (filterb_length P l) as Hl. unfold filterb in *. cbn [List.filter length]. destruct (P a) eqn:E; cbn [length]; split.
  - intros [= H]. intros x [->|Hx]%elem_of_cons; [done|by apply IH].
  - intros H. f_equal. apply IH. intros x Hx. apply H. by right.
  - intros H. lia.
  - intros H. exfalso. rewrite H in E; [done|by left].
Qed.

(** What an Endpoints row and an EndpointSlice row count: an Endpoints row
    lists one port for each (name, port, protocol) that occurs in the object's
    subsets, and no other; a slice's ready and not-ready endpoints add up to its
    total, and all are ready exactly when no endpoint says it is not - an
    endpoint without the condition counts as ready. *)
Theorem endpoint_row_counts obj slice :
  Endpoints.isRow obj = false → EndpointSlices.isRow slice = false →
  NoDup (Endpoints.portKey <$> asArray (Endpoints.normalizeWatchEndpointObject obj .@ "ports")) ∧
  (∀ p, p ∈ asArray (Endpoints.normalizeWatchEndpointObject obj .@ "ports") → p ∈ subsetPorts obj) ∧
  (∀ p, p ∈ subsetPorts obj →
     Endpoints.portKey p ∈ Endpoints.portKey <$> asArray (Endpoints.normalizeWatchEndpointObject obj .@ "ports")) ∧
  (∃ total ready notReady : Z,
    EndpointSlices.normalizeWatchEndpointSliceObject slice .@ "endpoints_total" = VNum total ∧
    EndpointSlices.normalizeWatchEndpointSliceObject slice .@ "endpoints_ready" = VNum ready ∧
    EndpointSlices.normalizeWatchEndpointSliceObject slice .@ "endpoints_not_ready" = VNum notReady ∧
    (0 ≤ ready ∧ ready + notReady = total ∧ total = Z.of_nat (length (asArray (slice .@ "endpoints"))))%Z ∧
    (notReady = 0%Z ↔ ∀ ep, ep ∈ asArray (slice .@ "endpoints") → EndpointSlices.readyEndpoint ep = true)).
Proof.
  intros Ho Hs. unfold Endpoints.normalizeWatchEndpointObject, EndpointSlices.normalizeWatchEndpointSliceObject.
  rewrite Ho, Hs. cbv zeta. fold (subsetPorts obj).
  change (get (VObj _) "ports") with (VArr (Endpoints.dedup [] (subsetPorts obj))). cbn [asArray].
  destruct (dedup_spec [] (subsetPorts obj)) as (H1 & H2 & H3). split; [exact H1|]. split; [by intros p [? _]%H2|].
  split; [intros p [?%not_elem_of_nil| ?]%H3; done|].
  set (rows := EndpointSlices.endpointOf <$> asArray (slice .@ "endpoints")).
  pose proof (filterb_length EndpointSlices.readyEndpoint rows) as Hl. pose proof (filterb_all EndpointSlices.readyEndpoint rows) as Ha.
  eexists _, _, _. split_and!; [reflexivity..|lia|lia|unfold rows; by rewrite length_fmap|]. split.
  - intros H ep Hep. rewrite <- endpointOf_ready. apply Ha; [lia|]. by apply list_elem_of_fmap_2.
  - intros H. assert (length (filterb EndpointSlices.readyEndpoint rows) = length rows); [|lia].
    apply Ha. intros x (ep & -> & Hep)%list_elem_of_fmap. rewrite endpointOf_ready. by apply H.
Qed.

(** Two subsets of one port, and a slice of a ready and a starting endpoint. *)
Definition sampleSubsets : value :=
  VObj [("subsets", VArr [VObj [("ports", VArr [VObj [("port", VNum 80)]])]; VObj [("ports", VArr [VObj [("port", VNum 80)]])]])].
Definition sampleSlice : value :=
  VObj [("endpoints", VArr [VObj []; VObj [("conditions", VObj [("ready", VBool false)])]])].

Lemma endpoint_row_counts_witness :
  NoDup (Endpoints.portKey <$> asArray (Endpoints.normalizeWatchEndpointObject sampleSubsets .@ "ports")).
Proof. apply (endpoint_row_counts sampleSubsets sampleSlice); vm_compute; reflexivity. Defined.

(** A load balancer's EXTERNAL-IP cell does not flicker: however the server
    orders or repeats the addresses of a Service's ingress, the cell is the same. *)
Theorem external_ip_order_free spec ingress ingress' :
  Forall (λ v, isString v = true) (addressesOf ingress) → Forall (λ v, isString v = true) (addressesOf ingress') →
  (∀ a, a ∈ addressesOf ingress ↔ a ∈ addressesOf ingress') →
  Services.externalIpCell (VStr "LoadBalancer") spec ingress = Services.externalIpCell (VStr "LoadBalancer") spec ingress'.
Proof.
  intros H H' Hin. destruct (addTo_set _ H) as (H1 & H2 & _). destruct (addTo_set _ H') as (H1' & H2' & _).
  unfold Services.externalIpCell. simpl. fold (addressesOf ingress) (addressesOf ingress').
  assert (Hp : foldl (λ acc a, addTo a acc) [] (addressesOf ingress) ≡ₚ foldl (λ acc a, addTo a acc) [] (addressesOf ingress')).
  { apply NoDup_Permutation; [done..|]. intros x. by rewrite H2, H2'. }
  by rewrite (sortTexts_perm _ _ (fmap_Permutation toString _ _ Hp)).
Qed.

(** Two addresses in either order. *)
Lemma external_ip_order_free_witness :
  let a := VObj [("ip", VStr "10.0.0.1")] in
  let b := VObj [("hostname", VStr "lb.example")] in
  Services.externalIpCell (VStr "LoadBalancer") (VObj []) [b; a] = Services.externalIpCell (VStr "LoadBalancer") (VObj []) [a; b; a].
Proof.
  cbv zeta. apply (external_ip_order_free (VObj []) [VObj [("hostname", VStr "lb.example")]; VObj [("ip", VStr "10.0.0.1")]]
    [VObj [("ip", VStr "10.0.0.1")]; VObj [("hostname", VStr "lb.example")]; VObj [("ip", VStr "10.0.0.1")]]).
  - repeat constructor.
  - repeat constructor.
  - intros x. change (x ∈ [VStr "lb.example"; VStr "10.0.0.1"] ↔ x ∈ [VStr "10.0.0.1"; VStr "lb.example"; VStr "10.0.0.1"]).
    set_solver.
Defined.
