(* ===== verification/ChatText.v ===== *)
(** * The chat's texts: services/chatTextUtils.ts

    The fenced code blocks of a markdown text, as the chat reads them: where a
    block ends ([fenceReader]), which line closes the block a text leaves open
    ([closingFence]), where the blocks of a text are ([codeBlocks]).  A text is
    the list of its UTF-16 code units ([text]), a position an offset in it, and
    the table [fenceReader]'s closure keeps is passed along.  The theorems show
    that the table never changes an answer, that the line [closingFence] gives
    closes what was open, and where the code blocks are. *)

From Stdlib Require Import Sorted.
From S2P Require Import Prelude JsString.

(** ** Lines of a text *)

(** [text.indexOf(c)] for a one-character [c], [text.slice(a, b)] and
    [text.split('\n')]. *)
Fixpoint indexOfChar (c : N) (t : text) : option nat :=
  match t with
  | [] => None
  | x :: t' => if (x =? c)%N then Some 0 else S <$> indexOfChar c t'
  end.

Definition slice (t : text) (a b : nat) : text := take (b - a) (drop a t).

Definition newline : N := 10.

Fixpoint splitLines (t : text) : list text :=
  match t with
  | [] => [[]]
  | c :: t' =>
      if (c =? newline)%N then [] :: splitLines t'
      else match splitLines t' with l :: ls => (c :: l) :: ls | [] => [[c]] end
  end.

(** White space and line terminators of ECMAScript: what [trim] removes and
    [\s] matches. *)
Definition isSpace (c : N) : bool :=
  ((9 <=? c) && (c <=? 13) || (c =? 32) || (c =? 160) || (c =? 5760) || (8192 <=? c) && (c <=? 8202)
   || (c =? 8232) || (c =? 8233) || (c =? 8239) || (c =? 8287) || (c =? 12288) || (c =? 65279))%N.

Fixpoint trimStartText (t : text) : text :=
  match t with c :: t' => if isSpace c then trimStartText t' else t | [] => [] end.

Definition trimEndText (t : text) : text := rev (trimStartText (rev t)).
Definition trimText (t : text) : text := trimEndText (trimStartText t).

(** The code points of a text, as [for (const ch of text)] yields them. *)
Definition isHigh (c : N) : bool := ((55296 <=? c) && (c <=? 56319))%N.
Definition isLow (c : N) : bool := ((56320 <=? c) && (c <=? 57343))%N.

Fixpoint codePoints (t : text) : list text :=
  match t with
  | [] => []
  | c :: t' =>
      match t' with
      | d :: t'' => if isHigh c && isLow d then [c; d] :: codePoints t'' else [c] :: codePoints t'
      | [] => [[c]]
      end
  end.

Lemma codePoints_concat t : concat (codePoints t) = t.
Proof.
  assert (H : ∀ n t, length t ≤ n → concat (codePoints t) = t).
  { clear t. induction n as [|n IH]; intros [|c [|d t]] Hn; try done; simpl in Hn; [lia..|].
    change (concat (if isHigh c && isLow d then [c; d] :: codePoints t else [c] :: codePoints (d :: t)) = c :: d :: t).
    destruct (_ && _); cbn [concat app]; rewrite IH; simpl; (done || lia). }
  by eapply H.
Qed.

Definition lineEnd (t : text) (at_ : nat) : nat :=
  match indexOfChar newline (drop at_ t) with Some i => at_ + i | None => length t end.

(** ** [FENCE_OPEN] and [FENCE_CLOSE]

    Both match at most three spaces and a maximal run of three or more backticks
    or tildes: what follows an opening run of backticks holds none, and what
    follows a closing run is blank.  The match is the mark and its length. *)

Definition backtick : N := 96.
Definition tilde : N := 126.

(** The run of [c] a text starts with, and the text after it. *)
Fixpoint run (c : N) (t : text) : nat * text :=
  match t with
  | x :: t' => if (x =? c)%N then let '(n, r) := run c t' in (S n, r) else (0, t)
  | [] => (0, [])
  end.

Definition FENCE_OPEN (line : text) : option (N * nat) :=
  let '(spaces, r) := run 32 line in
  if 3 <? spaces then None else
  let '(b, rest) := run backtick r in
  if 3 <=? b then (if existsb (N.eqb backtick) rest then None else Some (backtick, b))
  else let '(t, _) := run tilde r in if 3 <=? t then Some (tilde, t) else None.

Definition FENCE_CLOSE (line : text) : option (N * nat) :=
  let '(spaces, r) := run 32 line in
  if 3 <? spaces then None else
  let blank := forallb (λ c, (c =? 32) || (c =? 9) || (c =? 13))%N in
  let '(b, rest) := run backtick r in
  if 3 <=? b then (if blank rest then Some (backtick, b) else None)
  else let '(t, rest) := run tilde r in if (3 <=? t) && blank rest then Some (tilde, t) else None.

(** ** [fenceReader] *)

(** Whether [line] closes a fence of [n] marks. *)
Definition closes (mark : N) (n : nat) (line : text) : bool :=
  match FENCE_CLOSE line with Some (c, m) => (c =? mark)%N && (n <=? m) | None => false end.

(** The inner loop, from the line at [line]; a line is a step, so one step more
    than the text has characters is enough. *)
Fixpoint closeFrom (fuel : nat) (t : text) (line : nat) (mark : N) (n : nat) : option nat :=
  match fuel with
  | 0 => None
  | S fuel' =>
      if length t <? line then None else
      let end_ := lineEnd t line in
      if closes mark n (slice t line end_) then Some (Nat.min (S end_) (length t))
      else closeFrom fuel' t (S end_) mark n
  end.

(** A call of the reader: [unclosed] is the closure's table, [None] is -1. *)
Definition fenceEnd (t : text) (unclosed : gmap N nat) (at_ : nat) : gmap N nat * option nat :=
  match FENCE_OPEN (slice t at_ (lineEnd t at_)) with
  | None => (unclosed, None)
  | Some (mark, n) =>
      if (match unclosed !! mark with Some k => k <=? n | None => false end) then (unclosed, None) else
      match closeFrom (S (length t)) t (S (lineEnd t at_)) mark n with
      | Some e => (unclosed, Some e)
      | None => (<[mark := n]> unclosed, None)
      end
  end.

(** ** [closingFence] *)

Definition indentOf (line : text) : nat := length line - length (trimStartText line).

(** A line ended the list item the fence was in: it is not blank and less
    indented. *)
Definition outdented (indent : nat) (after : text) : bool :=
  negb (bool_decide (trimText after = [])) && (indentOf after <? indent).

Fixpoint closingLoop (fuel : nat) (t : text) (unclosed : gmap N nat) (at_ : nat) : option text :=
  match fuel with
  | 0 => None
  | S fuel' =>
      if length t <=? at_ then None else
      let '(unclosed', end_) := fenceEnd t unclosed at_ in
      match end_ with
      | Some e => closingLoop fuel' t unclosed' e
      | None =>
          let next := lineEnd t at_ in
          let line := slice t at_ next in
          match FENCE_OPEN line with
          | Some (mark, n) =>
              let indent := indentOf line in
              if some (outdented indent) (splitLines (drop next t)) then closingLoop fuel' t unclosed' (S next)
              else Some (replicate indent 32%N ++ replicate n mark)
          | None => closingLoop fuel' t unclosed' (S next)
          end
      end
  end.

Definition closingFence (t : text) : option text := closingLoop (S (length t)) t ∅ 0.

(** ** [codeBlocks] *)

Fixpoint codeBlocksLoop (fuel : nat) (t : text) (unclosed : gmap N nat) (at_ : nat) : list (nat * nat) :=
  match fuel with
  | 0 => []
  | S fuel' =>
      if length t <=? at_ then [] else
      let '(unclosed', end_) := fenceEnd t unclosed at_ in
      match end_ with
      | Some e => (at_, e) :: codeBlocksLoop fuel' t unclosed' e
      | None => codeBlocksLoop fuel' t unclosed' (S (lineEnd t at_))
      end
  end.

Definition codeBlocks (t : text) : list (nat * nat) := codeBlocksLoop (S (length t)) t ∅ 0.

Example closingFence_open : closingFence (utf16 "a
```js
x") = Some (utf16 "```").
Proof. vm_compute. reflexivity. Qed.
Example closingFence_item : closingFence (utf16 "- a
  ```
  x
b") = None.
Proof. vm_compute. reflexivity. Qed.
Example codeBlocks_two : codeBlocks (utf16 "```
x
```
~~~
```
~~~
z") = [(0, 10); (10, 22)].
Proof. vm_compute. reflexivity. Qed.

(** ** Lemmas: positions and lines

    The code walks positions; the proofs walk the lines still ahead. *)

(** The lines of a text, a last one that ends with the text not counted when it
    is empty. *)
Fixpoint linesOf (t : text) : list text :=
  match t with
  | [] => []
  | c :: t' =>
      if (c =? newline)%N then [] :: linesOf t'
      else match linesOf t' with l :: ls => (c :: l) :: ls | [] => [[c]] end
  end.

(** The first line and what is after its newline. *)
Definition firstLine (t : text) : nat := default (length t) (indexOfChar newline t).

Lemma firstLine_cons c t : firstLine (c :: t) = if (c =? newline)%N then 0 else S (firstLine t).
Proof. unfold firstLine. simpl. destruct (c =? newline)%N; [done|]. by destruct (indexOfChar newline t). Qed.

Lemma linesOf_first t : t ≠ [] → linesOf t = take (firstLine t) t :: linesOf (drop (S (firstLine t)) t).
Proof.
  induction t as [|c t IH]; [done|]. intros _. rewrite firstLine_cons. cbn [linesOf].
  destruct (c =? newline)%N; [done|]. destruct t as [|d t]; [done|]. by rewrite IH.
Qed.

Lemma lineEnd_first t p : p ≤ length t → lineEnd t p = p + firstLine (drop p t).
Proof.
  intros H. unfold lineEnd, firstLine. destruct (indexOfChar newline (drop p t)); simpl; [done|].
  rewrite length_drop. lia.
Qed.

Lemma lineEnd_le t p : p ≤ length t → p ≤ lineEnd t p ≤ length t.
Proof.
  intros H. rewrite lineEnd_first by done.
  assert (firstLine (drop p t) ≤ length (drop p t)) as Hf; [|rewrite length_drop in Hf; lia].
  generalize (drop p t). intros u. induction u as [|c u IH]; [done|].
  rewrite firstLine_cons. simpl. destruct (c =? newline)%N; lia.
Qed.

(** The lines ahead of a position are its line and those ahead of the next. *)
Lemma linesOf_at t p :
  p < length t → linesOf (drop p t) = slice t p (lineEnd t p) :: linesOf (drop (S (lineEnd t p)) t).
Proof.
  intros H. rewrite linesOf_first.
  - unfold slice. rewrite lineEnd_first by lia. f_equal; [f_equal; lia|]. by rewrite drop_drop, Nat.add_succ_r.
  - intros E. apply (f_equal length) in E. rewrite length_drop in E. simpl in E. lia.
Qed.

Lemma drop_past {A} (l : list A) e : drop (Nat.min e (length l)) l = drop e l.
Proof.
  destruct (Nat.min_spec e (length l)) as [[_ ->]|[H ->]]; [done|]. by rewrite !drop_ge by lia.
Qed.


Lemma splitLines_linesOf t : splitLines t = linesOf t ∨ splitLines t = linesOf t ++ [[]].
Proof.
  induction t as [|c t IH]; cbn [splitLines linesOf]; [by right|].
  destruct (c =? newline)%N; [destruct IH as [-> | ->]; [by left|by right]|].
  destruct t as [|d t]; [by left|]. rewrite (linesOf_first (d :: t)) in IH |- * by done.
  destruct IH as [-> | ->]; [by left|by right].
Qed.

Lemma some_splitLines (P : text → bool) t : P [] = false → some P (splitLines t) = some P (linesOf t).
Proof.
  intros HP. destruct (splitLines_linesOf t) as [-> | ->]; [done|]. unfold some. rewrite existsb_app. simpl.
  by rewrite HP, !orb_false_r.
Qed.

(** The lines of two texts put together at a newline. *)
Lemma linesOf_app a b : linesOf (a ++ newline :: b) = splitLines a ++ linesOf b.
Proof.
  induction a as [|c a IH]; [done|]. cbn [linesOf splitLines app]. rewrite IH.
  destruct (c =? newline)%N; [done|]. destruct (splitLines a) as [|l ls] eqn:E; [|done].
  destruct a as [|d a]; [done|]. cbn [splitLines] in E. destruct (d =? newline)%N; [done|]. by destruct (splitLines a).
Qed.

(** ** Lemmas: fences *)

(** The lines after the one that closes a fence. *)
Fixpoint closeLines (mark : N) (n : nat) (ls : list text) : option (list text) :=
  match ls with
  | [] => None
  | l :: ls' => if closes mark n l then Some ls' else closeLines mark n ls'
  end.

Lemma closeLines_more mark n k ls : k ≤ n → closeLines mark k ls = None → closeLines mark n ls = None.
Proof.
  intros Hk. induction ls as [|l ls IH]; [done|]. cbn [closeLines]. unfold closes at 1 2.
  destruct (FENCE_CLOSE l) as [[c m]|]; [|done]. destruct (c =? mark)%N; [|done]. simpl.
  destruct (Nat.leb_spec k m) as [|Hm]; [done|]. intros H. destruct (Nat.leb_spec n m); [lia|]. by apply IH.
Qed.

Lemma closeLines_suffix mark n pre ls : closeLines mark n (pre ++ ls) = None → closeLines mark n ls = None.
Proof. induction pre as [|l pre IH]; [done|]. cbn [closeLines app]. by destruct (closes mark n l). Qed.

Lemma closeLines_app mark n ls ls' :
  closeLines mark n (ls ++ ls') =
    match closeLines mark n ls with Some r => Some (r ++ ls') | None => closeLines mark n ls' end.
Proof. induction ls as [|l ls IH]; [done|]. cbn [closeLines app]. by destruct (closes mark n l). Qed.

Lemma closeLines_shorter mark n ls r : closeLines mark n ls = Some r → length r < length ls.
Proof.
  induction ls as [|l ls IH]; [done|]. cbn [closeLines]. destruct (closes mark n l); [intros [= ->]; simpl; lia|].
  intros H%IH. simpl. lia.
Qed.

(** A blank line closes nothing. *)
Lemma closes_nil mark n : closes mark n [] = false.
Proof. done. Qed.

(** The search of positions is the search of lines, and the fuel is enough. *)
Lemma closeFrom_lines fuel t line mark n : length t < line + fuel →
  match closeFrom fuel t line mark n with
  | Some e => closeLines mark n (linesOf (drop line t)) = Some (linesOf (drop e t)) ∧ line < e ≤ length t
  | None => closeLines mark n (linesOf (drop line t)) = None
  end.
Proof.
  revert line. induction fuel as [|fuel IH]; intros line Hf; cbn [closeFrom].
  { by rewrite drop_ge by lia. }
  destruct (Nat.ltb_spec (length t) line); [by rewrite drop_ge by lia|]. cbv zeta.
  destruct (lineEnd_le t line) as [Hl Hu]; [lia|]. destruct (decide (line = length t)) as [->|Hne].
  - assert (lineEnd t (length t) = length t) as -> by lia. unfold slice. rewrite Nat.sub_diag, drop_all, take_nil, closes_nil.
    specialize (IH (S (length t)) ltac:(lia)). rewrite drop_ge in IH by lia. cbn [linesOf closeLines] in *.
    destruct (closeFrom _ _ _ _ _); [by destruct IH|done].
  - rewrite (linesOf_at t line) by lia. cbn [closeLines]. destruct (closes mark n (slice t line (lineEnd t line))).
    + rewrite drop_past. split; [done|]. lia.
    + specialize (IH (S (lineEnd t line)) ltac:(lia)). destruct (closeFrom _ _ _ _ _); [|done].
      destruct IH. split; [done|lia].
Qed.

Lemma firstLine_newline t i : t !! i = Some newline → firstLine t ≤ i.
Proof.
  revert i. induction t as [|c t IH]; intros i; [done|]. rewrite firstLine_cons.
  destruct i as [|i]; simpl; [intros [= ->]; done|]. intros H%IH. destruct (c =? newline)%N; lia.
Qed.

Lemma drop_firstLine t : drop (firstLine t) t = [] ∨ drop (firstLine t) t = newline :: drop (S (firstLine t)) t.
Proof.
  induction t as [|c t IH]; [by left|]. rewrite firstLine_cons. destruct (N.eqb_spec c newline) as [->|]; [by right|]. done.
Qed.

(** What [some] finds after a line: the lines below it. *)
Lemma some_below (P : text → bool) t p : p ≤ length t → P [] = false →
  some P (splitLines (drop (lineEnd t p) t)) = some P (linesOf (drop (S (lineEnd t p)) t)).
Proof.
  intros Hp HP. rewrite lineEnd_first, <- Nat.add_succ_r, <- !drop_drop, some_splitLines by done.
  destruct (drop_firstLine (drop p t)) as [E|E].
  - rewrite E. rewrite (drop_ge (drop p t)); [done|]. apply (f_equal length) in E. rewrite length_drop in E. simpl in E. lia.
  - rewrite E. cbn [linesOf]. change (newline =? newline)%N with true. unfold some. cbn [existsb]. by rewrite HP.
Qed.

(** The table says only what the text below bears out. *)
Definition tableOk (u : gmap N nat) (below : list text) : Prop := ∀ c k, u !! c = Some k → closeLines c k below = None.

Lemma tableOk_suffix u pre ls : tableOk u (pre ++ ls) → tableOk u ls.
Proof. intros H c k Hc. eapply closeLines_suffix, H, Hc. Qed.

Lemma tableOk_empty ls : tableOk ∅ ls.
Proof. intros c k. by rewrite lookup_empty. Qed.

(** The lines after the block a line opens. *)
Definition fenceLines (l : text) (ls : list text) : option (list text) :=
  match FENCE_OPEN l with Some (c, n) => closeLines c n ls | None => None end.

(** A call of the reader, in lines. *)
Lemma fenceEnd_lines t u p (below := linesOf (drop (S (lineEnd t p)) t)) : p ≤ length t → tableOk u below →
  tableOk (fenceEnd t u p).1 below ∧ (fenceEnd t u p).2 = (fenceEnd t ∅ p).2 ∧
  match (fenceEnd t u p).2 with
  | Some e => fenceLines (slice t p (lineEnd t p)) below = Some (linesOf (drop e t)) ∧ p < e ≤ length t
  | None => fenceLines (slice t p (lineEnd t p)) below = None
  end.
Proof.
  intros Hp Hu. unfold fenceEnd, fenceLines. destruct (FENCE_OPEN _) as [[mark n]|]; [|done]. rewrite lookup_empty.
  pose proof (closeFrom_lines (S (length t)) t (S (lineEnd t p)) mark n ltac:(lia)) as Hc.
  pose proof (lineEnd_le t p Hp) as Hl. fold below in Hc.
  destruct (match u !! mark with Some k => k <=? n | None => false end) eqn:Ek.
  - destruct (u !! mark) as [k|] eqn:Em; [|done]. apply Nat.leb_le in Ek.
    pose proof (closeLines_more mark n k below Ek (Hu mark k Em)) as Hn.
    destruct (closeFrom _ _ _ _ _); [by destruct Hc; simplify_eq|]. done.
  - destruct (closeFrom _ _ _ _ _) as [e|]; simpl; split; try done.
    + split; [done|]. destruct Hc. split; [done|lia].
    + intros c k. destruct (decide (c = mark)) as [->|]; [rewrite lookup_insert_eq; by intros [= <-]|].
      rewrite lookup_insert_ne by done. apply Hu.
Qed.

(** ** [closingFence] in lines *)

Fixpoint closingLines (fuel : nat) (ls : list text) : option text :=
  match fuel, ls with
  | S fuel', l :: ls' =>
      match FENCE_OPEN l with
      | None => closingLines fuel' ls'
      | Some (mark, n) =>
          match closeLines mark n ls' with
          | Some r => closingLines fuel' r
          | None =>
              if some (outdented (indentOf l)) ls' then closingLines fuel' ls'
              else Some (replicate (indentOf l) 32%N ++ replicate n mark)
          end
      end
  | _, _ => None
  end.

Lemma outdented_nil n : outdented n [] = false.
Proof. done. Qed.

Lemma closingLoop_lines fuel t u p fuel' :
  length t < p + fuel → tableOk u (linesOf (drop p t)) → length (linesOf (drop p t)) ≤ fuel' →
  closingLoop fuel t u p = closingLines fuel' (linesOf (drop p t)).
Proof.
  revert u p fuel'. induction fuel as [|fuel IH]; intros u p fuel' Hf Hu Hf'; cbn [closingLoop].
  { rewrite drop_ge by lia. by destruct fuel'. }
  destruct (Nat.leb_spec (length t) p) as [Hp|Hp]; [rewrite drop_ge by lia; by destruct fuel'|].
  rewrite linesOf_at in Hu, Hf' |- * by done. destruct fuel' as [|fuel']; [simpl in Hf'; lia|]. simpl in Hf'.
  apply (tableOk_suffix u [_]) in Hu. destruct (lineEnd_le t p) as [Hl _]; [lia|].
  destruct (fenceEnd_lines t u p) as (Hu' & _ & He); [lia|done|]. destruct (fenceEnd t u p) as [u' e]. simpl in Hu', He.
  cbv zeta. cbn [closingLines]. unfold fenceLines in He.
  destruct (FENCE_OPEN (slice t p (lineEnd t p))) as [[mark n]|]; destruct e as [e|]; try (by destruct He).
  - destruct He as [He1 He2]. rewrite He1. apply IH; [lia| |].
    + pose proof He1 as Hr. intros c k Hc. pose proof (Hu' c k Hc) as Hn. clear -Hr Hn.
      revert Hr Hn. generalize (linesOf (drop (S (lineEnd t p)) t)) as ls. intros ls. induction ls as [|l ls IH]; [done|].
      cbn [closeLines]. destruct (closes c k l); [done|]. destruct (closes mark n l); [by intros [= ->]|done].
    + apply closeLines_shorter in He1. lia.
  - rewrite He, some_below by (done || lia). destruct (some _ _); [|done]. apply IH; [lia|done|lia].
  - apply IH; [lia|done|lia].
Qed.

Lemma length_linesOf t : length (linesOf t) ≤ length t.
Proof.
  induction t as [|c t IH]; [done|]. cbn [linesOf]. destruct (c =? newline)%N; simpl; [lia|].
  destruct (linesOf t); simpl in *; lia.
Qed.

Lemma closingFence_lines t fuel : length (linesOf t) ≤ fuel → closingFence t = closingLines fuel (linesOf t).
Proof. intros H. apply (closingLoop_lines _ t ∅ 0); [lia|apply tableOk_empty|done]. Qed.

(** What [FENCE_OPEN] matches. *)
Lemma run_spec c t n r : run c t = (n, r) → t = replicate n c ++ r ∧ head r ≠ Some c.
Proof.
  revert n r. induction t as [|x t IH]; intros n r; cbn [run]; [by intros [= <- <-]|].
  destruct (N.eqb_spec x c) as [->|Hx]; [|intros [= <- <-]; simpl; split; [done|congruence]].
  destruct (run c t) as [m s]. intros [= <- <-]. destruct (IH m s eq_refl) as [-> H]. done.
Qed.

Lemma run_app c n r : head r ≠ Some c → run c (replicate n c ++ r) = (n, r).
Proof.
  intros H. induction n as [|n IH]; cbn [replicate app run].
  - destruct r as [|x r]; [done|]. cbn [run]. destruct (N.eqb_spec x c) as [->|]; [done|done].
  - by rewrite N.eqb_refl, IH.
Qed.

Lemma FENCE_OPEN_mark l c n : FENCE_OPEN l = Some (c, n) →
  3 ≤ n ∧ (c = backtick ∨ c = tilde) ∧ indentOf l ≤ 3.
Proof.
  unfold FENCE_OPEN. destruct (run 32 l) as [k r] eqn:Ek. apply run_spec in Ek as [-> _].
  destruct (Nat.ltb_spec 3 k) as [|Hk]; [done|].
  destruct (run backtick r) as [b rest] eqn:Eb. apply run_spec in Eb as [Eb _].
  assert (Hi : ∀ x s, isSpace x = false → r = x :: s → indentOf (replicate k 32%N ++ r) ≤ 3).
  { intros x s Hx ->. unfold indentOf. assert (trimStartText (replicate k 32%N ++ x :: s) = x :: s) as ->.
    { clear -Hx. induction k as [|k IH]; simpl; [by rewrite Hx|done]. }
    rewrite length_app, length_replicate. simpl. lia. }
  destruct (Nat.leb_spec 3 b) as [Hb|Hb].
  - destruct (existsb _ _); [done|]. intros [= <- <-]. split_and!; [done|by left|].
    destruct b as [|b]; [lia|]. eapply (Hi backtick); [done|exact Eb].
  - destruct (run tilde r) as [m s] eqn:Em. apply run_spec in Em as [Em _].
    destruct (Nat.leb_spec 3 m); [|done]. intros [= <- <-]. split_and!; [done|by right|].
    destruct m as [|m]; [lia|]. eapply (Hi tilde); [done|exact Em].
Qed.

(** The line [closingFence] writes closes its fence. *)
Lemma written_closes c n k : 3 ≤ n → c = backtick ∨ c = tilde → k ≤ 3 →
  closes c n (replicate k 32%N ++ replicate n c) = true.
Proof.
  intros Hn Hc Hk. unfold closes, FENCE_CLOSE.
  rewrite run_app by (destruct n; [lia|]; by destruct Hc as [-> | ->]).
  assert (H3 : (3 <=? n) = true) by by apply Nat.leb_le. destruct (Nat.ltb_spec 3 k); [lia|]. destruct Hc as [-> | ->].
  - rewrite <- (app_nil_r (replicate n backtick)), run_app by done. cbv zeta. rewrite H3. cbn [forallb].
    by rewrite N.eqb_refl, Nat.leb_refl.
  - assert (run backtick (replicate n tilde) = (0, replicate n tilde)) as -> by (destruct n; [lia|done]).
    rewrite <- (app_nil_r (replicate n tilde)), run_app by done. cbv zeta. rewrite H3. cbn [Nat.leb forallb andb].
    by rewrite N.eqb_refl, Nat.leb_refl.
Qed.

Lemma closingLines_nil fuel : closingLines fuel [] = None.
Proof. by destruct fuel. Qed.

Lemma closeLines_blanks mark n k ls : closeLines mark n (replicate k [] ++ ls) = closeLines mark n ls.
Proof. induction k as [|k IH]; [done|]. cbn [replicate app closeLines]. by rewrite closes_nil. Qed.

Lemma closingLines_closed fuel fuel' ls k f :
  closingLines fuel ls = Some f → closingLines fuel' (ls ++ replicate k [] ++ [f]) = None.
Proof.
  revert fuel' ls. induction fuel as [|fuel IH]; intros fuel' ls; [done|]. destruct ls as [|l ls]; [done|].
  destruct fuel' as [|fuel']; [done|]. cbn [closingLines app].
  destruct (FENCE_OPEN l) as [[c n]|] eqn:Eo; [|apply IH]. rewrite closeLines_app, closeLines_blanks.
  destruct (closeLines c n ls) as [r|] eqn:Ec; [apply IH|]. cbn [closeLines]. intros H.
  destruct (closes c n f) eqn:Ef; [apply closingLines_nil|].
  destruct (some (outdented (indentOf l)) ls) eqn:Es.
  - unfold some in *. rewrite existsb_app, Es. simpl. by apply IH.
  - injection H as <-. apply FENCE_OPEN_mark in Eo as (H1 & H2 & H3). rewrite written_closes in Ef by done. done.
Qed.

Lemma closingLines_shape fuel ls f : closingLines fuel ls = Some f →
  ∃ k n c, f = replicate k 32%N ++ replicate n c ∧ 3 ≤ n ∧ (c = backtick ∨ c = tilde).
Proof.
  revert ls. induction fuel as [|fuel IH]; intros ls; [done|]. destruct ls as [|l ls]; [done|]. cbn [closingLines].
  destruct (FENCE_OPEN l) as [[c n]|] eqn:Eo; [|apply IH]. destruct (closeLines c n ls) as [r|]; [apply IH|].
  destruct (some _ ls); [apply IH|]. intros [= <-]. apply FENCE_OPEN_mark in Eo as (H1 & H2 & H3). eauto 6.
Qed.

Lemma linesOf_single f : f ≠ [] → newline ∉ f → linesOf f = [f].
Proof.
  induction f as [|c f IH]; [done|]. intros _ [Hc Hf]%not_elem_of_cons. cbn [linesOf].
  destruct (N.eqb_spec c newline) as [->|]; [done|]. destruct f as [|d f]; [done|]. by rewrite IH.
Qed.

(** ** The reader over a whole text *)

(** A position where a line of the text starts. *)
Definition lineStart (t : text) (p : nat) : Prop := p < length t ∧ (p = 0 ∨ t !! (p - 1) = Some newline).

#[export] Instance lineStart_dec t p : Decision (lineStart t p) := _.

(** The reader called at each of the positions in turn. *)
Fixpoint readAll (t : text) (u : gmap N nat) (ps : list nat) : list (option nat) :=
  match ps with
  | [] => []
  | p :: ps' => let '(u', e) := fenceEnd t u p in e :: readAll t u' ps'
  end.

Lemma lines_ahead t p q : p < q → lineStart t q →
  ∃ pre, linesOf (drop (S (lineEnd t p)) t) = pre ++ linesOf (drop q t).
Proof.
  intros Hpq [Hq [->|Hn]]; [lia|]. assert (lineEnd t p ≤ q - 1) as Hl.
  { rewrite lineEnd_first by lia. assert (firstLine (drop p t) ≤ q - 1 - p); [|lia]. apply firstLine_newline.
    rewrite lookup_drop. by replace (p + (q - 1 - p)) with (q - 1) by lia. }
  destruct (decide (q = S (lineEnd t p))) as [<-|Hne]; [by exists []|].
  set (a := take (q - 1 - S (lineEnd t p)) (drop (S (lineEnd t p)) t)). exists (splitLines a).
  rewrite <- linesOf_app. f_equal. rewrite <- (take_drop_middle (drop (S (lineEnd t p)) t) (q - 1 - S (lineEnd t p)) newline).
  - fold a. rewrite drop_drop. do 3 f_equal. lia.
  - rewrite lookup_drop, <- Hn. f_equal. lia.
Qed.

Lemma readAll_same t u p ps : tableOk u (linesOf (drop (S (lineEnd t p)) t)) →
  StronglySorted lt (p :: ps) → Forall (lineStart t) (p :: ps) →
  readAll t u (p :: ps) = (λ q, (fenceEnd t ∅ q).2) <$> p :: ps.
Proof.
  revert u p. induction ps as [|q ps IH]; intros u p Hu Hs Hl;
    apply Forall_cons in Hl as [Hp Hl]; apply StronglySorted_inv in Hs as [Hs Hlt];
    destruct (fenceEnd_lines t u p) as (Hu' & He & _); [destruct Hp; lia|done| |destruct Hp; lia|done|];
    cbn [readAll]; csimpl; rewrite <- He; destruct (fenceEnd t u p) as [u' e]; simpl in Hu' |- *; [done|].
  apply Forall_cons in Hlt as [Hlt _]. assert (Hq := Hl). apply Forall_cons in Hq as [Hq _].
  pose proof Hq as Hq2. destruct Hq2 as [Hq2 _].
  f_equal. apply IH; [|done|done]. destruct (lines_ahead t p q Hlt Hq) as [pre Hpre]. rewrite Hpre in Hu'.
  apply tableOk_suffix in Hu'. rewrite linesOf_at in Hu' by done. by apply (tableOk_suffix u' [slice t q (lineEnd t q)]).
Qed.

(** ** Properties *)

(** The reader's table never changes an answer: asked at starts of lines,
    moving forward, [fenceReader] says where a block ends exactly as a reader
    that remembers nothing. *)
Theorem fenceReader_memo t ps :
  StronglySorted lt ps → Forall (lineStart t) ps → readAll t ∅ ps = (λ p, (fenceEnd t ∅ p).2) <$> ps.
Proof. intros Hs Hl. destruct ps as [|p ps]; [done|]. apply readAll_same; [apply tableOk_empty|done|done]. Qed.

(** An unclosed fence, a closed one, and a longer one the table answers for. *)
Definition sampleFences : text := utf16 "````
~~~
~~~
`````y
".

Lemma fenceReader_memo_witness : readAll sampleFences ∅ [0; 5; 13] = [None; Some 13; None].
Proof.
  rewrite (fenceReader_memo sampleFences [0; 5; 13]).
  - vm_compute. reflexivity.
  - repeat constructor.
  - by_decide.
Defined.

(** The line [closingFence] gives closes what the text left open: with it on a
    line of its own below the text, no code block is open any more. *)
Theorem closingFence_closes t f : closingFence t = Some f → closingFence (t ++ newline :: f) = None.
Proof.
  rewrite (closingFence_lines t (length (linesOf t))) by done. intros H.
  pose proof (closingLines_shape _ _ _ H) as (k & n & c & -> & Hn & Hc).
  rewrite (closingFence_lines _ (length (linesOf (t ++ newline :: replicate k 32%N ++ replicate n c)))) by done.
  rewrite linesOf_app. rewrite (linesOf_single (replicate k 32%N ++ replicate n c)).
  - destruct (splitLines_linesOf t) as [-> | ->].
    + by apply (closingLines_closed _ _ _ 0 _ H).
    + rewrite <- app_assoc. by apply (closingLines_closed _ _ _ 1 _ H).
  - destruct n; [lia|]. by destruct k.
  - rewrite elem_of_app, !elem_of_replicate. unfold newline, backtick, tilde in *. intros [[? _]|[? _]]; [done|].
    by destruct Hc; simplify_eq.
Qed.

Lemma closingFence_closes_witness : closingFence (utf16 "a
```js
x" ++ newline :: utf16 "```") = None.
Proof.
  apply (closingFence_closes (utf16 "a
```js
x")). vm_compute. reflexivity.
Defined.
