(* ===== verification/ToolAccess.v ===== *)
(** * Who a tool call ran as: services/toolAccess.ts

    The line under a tool block's name: the identity the call reached its
    cluster as, and the cluster requests it made.  The values come from the
    server's event; texts are UTF-8.  A property of [null] is read only of an
    element of [requests]: there [requestText] throws ([None]), and so does what
    calls it.  The theorems show that nothing the event says can write a tag of
    its own into the message. *)

From S2P Require Import Prelude JsString Json.

(** [s.replace(/c/g, by)]. *)
Fixpoint replaceAll (c : ascii) (by_ s : string) : string :=
  match s with
  | "" => ""
  | String a s' => if bool_decide (a = c) then by_ +:+ replaceAll c by_ s' else String a (replaceAll c by_ s')
  end.

Definition quot : ascii := "034".

Definition escapeHtml (s : string) : string :=
  replaceAll "'" "&#x27;" (replaceAll quot "&quot;" (replaceAll ">" "&gt;" (replaceAll "<" "&lt;" (replaceAll "&" "&amp;" s)))).

Definition code (s : string) : string := "<code>" +:+ escapeHtml s +:+ "</code>".

(** The texts among the elements of an array. *)
Definition stringsOf (v : value) : list string :=
  omap (λ x, match x with VStr s => Some s | _ => None end) (asArray v).

Definition text_or_empty (v : value) : string := toString (v |? VStr "").

Definition accessLine (access : value) : string :=
  if negb (truthy access) || negb (isObject access) then "" else
  let credential :=
    if negb (truthy (access .@ "impersonation")) then
      ["⚠️ Kubeast's own credential, not this user's permissions (impersonation is off)"]
    else
      [code (text_or_empty (access .@ "user")) +:+ (if isStr (access .@ "kind") "api_key" then " (API key)" else "")]
      ++ (let groups := stringsOf (access .@ "groups") in
          if bool_decide (groups = []) then [] else ["groups " +:+ join " " (code <$> groups)]) in
  let scope :=
    if isStr (access .@ "kind") "investigator" then ["alert investigator"]
    else if isStr (access .@ "kind") "person" || isStr (access .@ "kind") "api_key" then
      let role := text_or_empty (access .@ "role") in
      let namespaces := stringsOf (access .@ "namespaces") in
      [if eqs role "*" then "global admin" else if nonempty role then "role " +:+ escapeHtml role else "no role in this cluster";
       if bool_decide (namespaces = []) then "whole cluster" else "namespaces " +:+ join ", " (escapeHtml <$> namespaces)]
    else [] in
  let parts := credential ++ scope ++ [if isStr (access .@ "mode") "write" then "write" else "read-only"] in
  "<p><strong>🔐 Ran as:</strong> " +:+ join " · " parts +:+ "</p>".

(** One cluster request of a call; [None] is the TypeError of reading a property
    of [null]. *)
Definition requestText (r : value) : option string :=
  if nullish r then None else
  Some (
    if isStr (r .@ "source") "cache" then
      "answered from Kubeast's own store (" +:+ escapeHtml (text_or_empty (r .@ "cache")) +:+ "), no cluster request"
    else
      let verb := escapeHtml (text_or_empty (r .@ "verb")) in
      let what :=
        if truthy (r .@ "resource") then
          escapeHtml (join "/" (toString <$> compact [r .@ "group"; r .@ "resource"; r .@ "subresource"]))
          +:+ (if truthy (r .@ "name") then " " +:+ escapeHtml (toString (r .@ "name")) else "")
        else escapeHtml (text_or_empty (r .@ "path")) in
      let where_ := if truthy (r .@ "namespace") then " in " +:+ escapeHtml (toString (r .@ "namespace")) else "" in
      let status := if isNumber (r .@ "status") && truthy (r .@ "status") then " → " +:+ toString (r .@ "status") else " → no answer" in
      let audit :=
        if truthy (r .@ "audit_id") then
          " · Audit-ID " +:+ code (toString (r .@ "audit_id")) +:+ (if truthy (r .@ "echoed") then " ✓" else " (not echoed)")
        else "" in
      verb +:+ " " +:+ what +:+ where_ +:+ status +:+ audit).

Definition nl : string := String "010" "".

(** The folded list of a call's requests.  A number of JSON is never NaN. *)
Definition requestsBlock (v : value) : option string :=
  if negb (truthy v) || negb (isArray (v .@ "requests")) then Some "" else
  match v .@ "total" with
  | VNum total =>
      if (total <=? 0)%Z then Some "" else
      let shown := take 20 (asArray (v .@ "requests")) in
      texts ← mapM requestText shown;
      let items := (λ t, "<li>" +:+ t +:+ "</li>") <$> texts in
      let more := if (vlength shown <? total)%Z then ["<li>and " +:+ pretty (total - vlength shown)%Z +:+ " more</li>"] else [] in
      Some ("<details>" +:+ nl +:+ "<summary><strong>🧾 Cluster requests (" +:+ pretty total +:+ ")</strong></summary>"
            +:+ nl +:+ nl +:+ "<ul>" +:+ nl +:+ join nl (items ++ more) +:+ nl +:+ "</ul>" +:+ nl +:+ nl +:+ "</details>")
  | _ => Some ""
  end.

(** What goes under a tool block's name. *)
Definition accessSection (access requests : value) : option string :=
  block ← requestsBlock requests;
  Some (join (nl +:+ nl) (filterb nonempty [accessLine access; block])).

(** ** Lemmas *)

(** Escaping one character at a time. *)
Definition escapeChar (c : ascii) : string :=
  if bool_decide (c = "&"%char) then "&amp;" else if bool_decide (c = "<"%char) then "&lt;"
  else if bool_decide (c = ">"%char) then "&gt;" else if bool_decide (c = quot) then "&quot;"
  else if bool_decide (c = "'"%char) then "&#x27;" else String c "".

Fixpoint escapeEach (s : string) : string :=
  match s with "" => "" | String c s' => escapeChar c +:+ escapeEach s' end.

Lemma replaceAll_app c b s t : replaceAll c b (s +:+ t) = replaceAll c b s +:+ replaceAll c b t.
Proof.
  induction s as [|a s IH]; [done|]. rewrite app_cons_s. cbn [replaceAll]. case_bool_decide.
  - by rewrite IH, app_assoc_s.
  - by rewrite IH, app_cons_s.
Qed.

Lemma escapeHtml_each s : escapeHtml s = escapeEach s.
Proof.
  unfold escapeHtml. induction s as [|c s IH]; [done|]. cbn [escapeEach]. rewrite <- IH.
  change (String c s) with (String c "" +:+ s). rewrite !replaceAll_app. f_equal. cbn [replaceAll]. unfold escapeChar.
  destruct (decide (c = "&"%char)) as [->|]; [reflexivity|]. rewrite !(bool_decide_false (c = "&"%char)) by done.
  cbn [replaceAll]. destruct (decide (c = "<"%char)) as [->|]; [reflexivity|].
  rewrite !(bool_decide_false (c = "<"%char)) by done. cbn [replaceAll].
  destruct (decide (c = ">"%char)) as [->|]; [reflexivity|].
  rewrite !(bool_decide_false (c = ">"%char)) by done. cbn [replaceAll].
  destruct (decide (c = quot)) as [->|]; [reflexivity|]. rewrite !(bool_decide_false (c = quot)) by done. cbn [replaceAll].
  destruct (decide (c = "'"%char)) as [->|]; [reflexivity|]. by rewrite !(bool_decide_false (c = "'"%char)).
Qed.

(** Text in which only the given tags are written. *)
Inductive html (allowed : list string) : string → Prop :=
  | html_nil : html allowed ""
  | html_char c s : c ≠ "<"%char → c ≠ ">"%char → html allowed s → html allowed (String c s)
  | html_tag t s : t ∈ allowed → html allowed s → html allowed ("<" +:+ t +:+ ">" +:+ s).
#[export] Hint Constructors html : kubeast.

Lemma html_app allowed s t : html allowed s → html allowed t → html allowed (s +:+ t).
Proof.
  intros Hs Ht. induction Hs as [|c s H1 H2 Hs IH|g s Hg Hs IH]; [done| |].
  - rewrite app_cons_s. by constructor.
  - rewrite !app_assoc_s. by constructor.
Qed.

Lemma html_plain allowed s : sall (λ c, negb (bool_decide (c = "<"%char)) && negb (bool_decide (c = ">"%char))) s = true → html allowed s.
Proof.
  induction s as [|c s IH]; [constructor|]. cbn [sall]. rewrite !andb_true_iff, !negb_true_iff, !bool_decide_eq_false.
  intros [[? ?] ?]. constructor; [done..|by apply IH].
Qed.

Lemma html_escape allowed s : html allowed (escapeHtml s).
Proof.
  rewrite escapeHtml_each. induction s as [|c s IH]; [constructor|]. cbn [escapeEach]. apply html_app; [|done].
  unfold escapeChar. repeat case_bool_decide; apply html_plain; try reflexivity. cbn [sall].
  by rewrite !bool_decide_false.
Qed.

Lemma html_join allowed sep l : html allowed sep → Forall (html allowed) l → html allowed (join sep l).
Proof.
  intros Hsep. induction 1 as [|x l Hx Hl IH]; [constructor|]. destruct l as [|y l]; [done|].
  cbn [join]. apply html_app; [done|]. by apply html_app.
Qed.

(** Decimal numbers are plain. *)
Lemma html_pretty_go allowed (x : N) s : html allowed s → html allowed (pretty_N_go x s).
Proof.
  revert s. induction (N.lt_wf_0 x) as [x _ IH]. intros s Hs.
  destruct (decide (x = 0)%N) as [->|Hx]; [by rewrite pretty_N_go_0|].
  rewrite pretty_N_go_step by lia. apply IH; [by apply N.div_lt; lia|].
  unfold pretty_N_char. repeat case_match; by constructor.
Qed.

Lemma html_pretty allowed (z : Z) : html allowed (pretty z).
Proof.
  assert (Hn : ∀ x : N, html allowed (pretty x)).
  { intros x. unfold pretty, pretty_N. case_decide; [by apply html_plain|]. apply html_pretty_go. constructor. }
  destruct z as [|p|p]; [by apply html_plain|apply (Hn (Npos p))|]. apply html_app; [by apply html_plain|apply (Hn (Npos p))].
Qed.

(** The tags of the section. *)
Definition sectionTags : list string :=
  ["p"; "/p"; "strong"; "/strong"; "code"; "/code"; "details"; "/details"; "summary"; "/summary"; "ul"; "/ul"; "li"; "/li"].

Lemma html_code s : html sectionTags (code s).
Proof.
  unfold code. apply html_app; [apply (html_tag _ "code" ""); [by_decide|constructor]|].
  apply html_app; [apply html_escape|]. apply (html_tag _ "/code" ""); [by_decide|constructor].
Qed.

Lemma html_accessLine access : html sectionTags (accessLine access).
Proof.
  unfold accessLine. destruct (_ || _); [constructor|]. cbv zeta.
  apply html_app; [apply (html_tag _ "p"); [by_decide|]; apply (html_tag _ "strong"); [by_decide|];
    repeat (apply html_char; [done..|]); apply (html_tag _ "/strong"); [by_decide|by apply html_plain]|].
  apply html_app; [|apply (html_tag _ "/p" ""); [by_decide|constructor]].
  apply html_join; [by apply html_plain|]. rewrite !Forall_app. split_and!.
  - destruct (negb _); [constructor; [by apply html_plain|constructor]|]. rewrite Forall_app. split.
    + constructor; [|constructor]. apply html_app; [apply html_code|]. destruct (isStr _ _); by apply html_plain.
    + case_bool_decide; constructor; [|constructor]. apply html_app; [by apply html_plain|].
      apply html_join; [by apply html_plain|]. apply Forall_fmap, Forall_true. intros g. apply html_code.
  - destruct (isStr _ _); [constructor; [by apply html_plain|constructor]|]. destruct (_ || _); [|constructor].
    constructor; [|constructor; [|constructor]].
    + destruct (eqs _ _); [by apply html_plain|]. destruct (nonempty _); [|by apply html_plain].
      apply html_app; [by apply html_plain|apply html_escape].
    + case_bool_decide; [by apply html_plain|]. apply html_app; [by apply html_plain|].
      apply html_join; [by apply html_plain|]. apply Forall_fmap, Forall_true. intros g. apply html_escape.
  - constructor; [|constructor]. destruct (isStr _ _); by apply html_plain.
Qed.

Lemma html_requestText r t : requestText r = Some t → html sectionTags t.
Proof.
  unfold requestText. destruct (nullish r); [done|]. intros [= <-]. destruct (isStr _ _).
  { repeat apply html_app; try apply html_escape; by apply html_plain. }
  repeat apply html_app; try apply html_escape; try by apply html_plain.
  - destruct (truthy (r .@ "resource")); [|apply html_escape]. apply html_app; [apply html_escape|].
    destruct (truthy _); [|constructor]. apply html_app; [by apply html_plain|apply html_escape].
  - destruct (truthy _); [|constructor]. apply html_app; [by apply html_plain|apply html_escape].
  - destruct (isNumber (r .@ "status")) eqn:En; [|by apply html_plain]. destruct (truthy _); [|by apply html_plain].
    apply html_app; [by apply html_plain|]. destruct (r .@ "status"); try done; [apply html_pretty|by apply html_plain].
  - destruct (truthy _); [|constructor]. apply html_app; [by apply html_plain|]. apply html_app; [apply html_code|].
    destruct (truthy _); by apply html_plain.
Qed.

Lemma html_list l : Forall (html sectionTags) l → html sectionTags (join nl l).
Proof. intros H. apply html_join; [by apply html_plain|done]. Qed.

Lemma html_requestsBlock v t : requestsBlock v = Some t → html sectionTags t.
Proof.
  unfold requestsBlock. destruct (_ || _); [intros [= <-]; constructor|].
  destruct (v .@ "total") as [| | |total| | | |]; try (intros [= <-]; constructor).
  destruct (total <=? 0)%Z; [intros [= <-]; constructor|]. cbv zeta.
  destruct (mapM requestText _) as [texts|] eqn:Et; [|done]. intros [= <-].
  apply (html_tag _ "details"); [by_decide|]. apply html_app; [by apply html_plain|].
  apply html_app; [apply (html_tag _ "summary"); [by_decide|]; apply (html_tag _ "strong"); [by_decide|by apply html_plain]|].
  apply html_app; [apply html_pretty|].
  apply html_app; [apply html_char; [done..|]; apply (html_tag _ "/strong"); [by_decide|];
    apply (html_tag _ "/summary" ""); [by_decide|constructor]|].
  do 2 (apply html_app; [by apply html_plain|]). apply html_app; [apply (html_tag _ "ul" ""); [by_decide|constructor]|].
  apply html_app; [by apply html_plain|]. apply html_app.
  { apply html_list. rewrite Forall_app, Forall_fmap. split.
    - apply mapM_Some in Et. clear -Et. induction Et as [|r t rs ts Hr _ IH]; constructor; [|done]. simpl.
      apply (html_tag _ "li"); [by_decide|]. apply html_app; [by eapply html_requestText|].
      apply (html_tag _ "/li" ""); [by_decide|constructor].
    - destruct (_ <? _)%Z; constructor; [|constructor]. apply (html_tag _ "li"); [by_decide|].
      do 4 (apply html_char; [done..|]). apply html_app; [apply html_pretty|]. do 5 (apply html_char; [done..|]).
      apply (html_tag _ "/li" ""); [by_decide|constructor]. }
  apply html_app; [by apply html_plain|]. apply html_app; [apply (html_tag _ "/ul" ""); [by_decide|constructor]|].
  do 2 (apply html_app; [by apply html_plain|]). apply (html_tag _ "/details" ""); [by_decide|constructor].
Qed.

(** ** Properties *)

(** No one can write into the message through what a tool call ran as: whatever
    the event's identity, requests, names, paths and roles hold, the section has
    no tag but its own. *)
Theorem access_section_own_tags access requests s :
  accessSection access requests = Some s → html sectionTags s.
Proof.
  unfold accessSection. destruct (requestsBlock requests) as [block|] eqn:E; [|done]. cbn [mbind option_bind]. intros H. apply (inj Some) in H as <-.
  apply html_join; [by apply html_plain|]. apply Forall_forall. intros x [Hx _]%elem_of_filterb.
  apply elem_of_cons in Hx as [->|[->|[]%elem_of_nil]%elem_of_cons]; [apply html_accessLine|by eapply html_requestsBlock].
Qed.

(** A user name that is a script. *)
Definition sampleAccess : value :=
  VObj [("impersonation", VBool true); ("user", VStr "<script>"); ("kind", VStr "person"); ("role", VStr "</p>"); ("mode", VStr "write")].

Lemma access_section_own_tags_witness :
  html sectionTags "<p><strong>🔐 Ran as:</strong> <code>&lt;script&gt;</code> · role &lt;/p&gt; · whole cluster · write</p>".
Proof. apply (access_section_own_tags sampleAccess VUndef). vm_compute. reflexivity. Defined.
