(* ===== verification/ChatStream.v ===== *)
(** * The chat's stream: services/chatStreamManager.ts

    One answer of the assistant: the request, the server's events line by line,
    the typewriter that shows the letters, the tool blocks the results are
    written into, the stop button and the failures.  A [Manager] is the class's
    fields with the request in flight; its methods are functions on it and what
    can happen to it - a call, a timer, a piece of the response - is a [step].

    [JSON.parse] and [JSON.stringify] are arguments of the definitions
    ([parse]: [None] is the SyntaxError, [stringify]: the text
    [safeJsonStringify] returns); the theorems hold for any.  The model starts
    where [TextDecoder] ends, with the decoded pieces of the body.  The time of
    the last change ([updatedAt]) and the console's lines are left out. *)

From S2P Require Import Prelude JsString Json ChatText ToolAccess.

(** ** Text helpers *)

(** [s.startsWith(p, at)], [s.indexOf(p, at)], [s.lastIndexOf(p)]. *)
Fixpoint prefixOf (p t : text) : bool :=
  match p, t with
  | [], _ => true
  | a :: p', b :: t' => (a =? b)%N && prefixOf p' t'
  | _, _ => false
  end.

Definition startsAt (p t : text) (at_ : nat) : bool := prefixOf p (drop at_ t).

Fixpoint indexOfText (p t : text) : option nat :=
  if prefixOf p t then Some 0 else
  match t with [] => None | _ :: t' => S <$> indexOfText p t' end.

Definition indexOfFrom (p t : text) (at_ : nat) : option nat := Nat.add at_ <$> indexOfText p (drop at_ t).

Fixpoint lastIndexOfText (p t : text) : option nat :=
  match t with
  | [] => if prefixOf p [] then Some 0 else None
  | _ :: t' =>
      match lastIndexOfText p t' with
      | Some i => Some (S i)
      | None => if prefixOf p t then Some 0 else None
      end
  end.

(** [String(v)] as a text. *)
Definition textOf (v : value) : text := utf16 (toString v).

(** ** The text of a tool block *)

Definition RESULT_PLACEHOLDER : text := utf16 "Executing...".

(** [args && typeof args === 'object' && Object.keys(args).length > 0]. *)
Definition hasArgs (args : value) : bool :=
  match args with VObj (_ :: _) | VArr (_ :: _) => true | _ => false end.

Definition blockHead (functionName : value) : text :=
  utf16 "<details>
<summary>🔧 <strong>" ++ textOf functionName ++ utf16 "</strong></summary>
".

Definition blockTail : text := utf16 "

</details>

</details>

".

Definition buildToolCallBlock (stringify : value → text) (functionName args : value) : text :=
  let argsSection :=
    if hasArgs args then
      utf16 "<details>
<summary><strong>📋 Arguments</strong></summary>

```json
" ++ stringify args ++ utf16 "
```

</details>"
    else utf16 "<p><strong>📋 Arguments:</strong> No arguments</p>" in
  blockHead functionName ++ utf16 "
" ++ argsSection ++ utf16 "

<details>
<summary><strong>📊 Results</strong></summary>

" ++ RESULT_PLACEHOLDER ++ blockTail.

(** The index of the tool call a result belongs to; [None] is -1. *)
Definition resultTarget (toolCalls : list value) (functionName : string) (callId : value) : option nat :=
  let byId := if isNumber callId then findIndex (λ tc, strictEq (tc .@ "call_id") callId) toolCalls else None in
  match byId with
  | Some i => Some i
  | None => findIndex (λ tc, isStr (tc .@ "function") functionName && negb (truthy (tc .@ "result"))) toolCalls
  end.

Definition appendToolBlock (content block : text) : text :=
  let before := trimEndText content in
  match before with
  | [] => block
  | _ =>
      before ++ match closingFence before with Some closing => newline :: closing | None => [] end
      ++ [newline; newline] ++ block
  end.

Definition withToolResult (content : text) (at_ : nat) (result : text) : text :=
  if negb (startsAt RESULT_PLACEHOLDER content at_) then content
  else take at_ content ++ result ++ drop (at_ + length RESULT_PLACEHOLDER) content.

(** The backticks around a result: [longest] is the longest run so far, [cur]
    the run the scan is in. *)
Fixpoint longestRun (longest cur : nat) (t : text) : nat :=
  match t with
  | [] => Nat.max longest cur
  | c :: t' => if (c =? backtick)%N then longestRun longest (S cur) t' else longestRun (Nat.max longest cur) 0 t'
  end.

Definition codeFence (t : text) : text := replicate (S (longestRun 2 0 t)) backtick.

Definition summaryEnd : text := utf16 "</summary>
".

Definition withToolAccess (content : text) (at_ : nat) (line : text) : text :=
  match line, indexOfFrom summaryEnd content at_ with
  | [], _ | _, None => content
  | _, Some end_ =>
      let cut := end_ + length summaryEnd in
      take cut content ++ newline :: line ++ newline :: drop cut content
  end.

(** ** State *)

Inductive StreamingPhase := waiting | tools | answer.
Inductive ChatStreamStatus := idle | streaming | completed | aborted | error_.

#[export] Instance ChatStreamStatus_dec : EqDecision ChatStreamStatus.
Proof. solve_decision. Defined.

(** The values of a refusal: none, the server's, or those of a refused request. *)
Inductive ErrorArgs := NoArgs | ServerArgs (v : value) | HttpArgs (status : Z) (detail : option text).

(** What a failure says: its text, its catalog key and the values of the key. *)
Record Failure := { error : option text; errorKey : option string; errorArgs : ErrorArgs }.
Definition noFailure : Failure := {| error := None; errorKey := None; errorArgs := NoArgs |}.

Record FailedTurn := {
  question : text; ft_content : text; ft_toolCalls : list value; ft_failure : Failure; stopped : bool;
  askedAt : nat; ft_savedBefore : nat
}.

Record ChatStreamState := {
  status : ChatStreamStatus; isStreaming : bool; sessionId : option string; userMessage : option text;
  content : text; toolCalls : list value; streamingPhase : option StreamingPhase; failure : Failure;
  savedBefore : nat; failedTurns : list FailedTurn
}.

Definition initialState : ChatStreamState :=
  {| status := idle; isStreaming := false; sessionId := None; userMessage := None; content := []; toolCalls := [];
     streamingPhase := None; failure := noFailure; savedBefore := 0; failedTurns := [] |}.

(** The patches [setState] is called with. *)
Definition ended (st : ChatStreamStatus) (s : ChatStreamState) : ChatStreamState :=
  {| status := st; isStreaming := false; sessionId := sessionId s; userMessage := userMessage s; content := content s;
     toolCalls := toolCalls s; streamingPhase := streamingPhase s; failure := failure s; savedBefore := savedBefore s;
     failedTurns := failedTurns s |}.
Definition withPhase (p : option StreamingPhase) (s : ChatStreamState) : ChatStreamState :=
  {| status := status s; isStreaming := isStreaming s; sessionId := sessionId s; userMessage := userMessage s;
     content := content s; toolCalls := toolCalls s; streamingPhase := p; failure := failure s;
     savedBefore := savedBefore s; failedTurns := failedTurns s |}.
Definition withContent (c : text) (s : ChatStreamState) : ChatStreamState :=
  {| status := status s; isStreaming := isStreaming s; sessionId := sessionId s; userMessage := userMessage s;
     content := c; toolCalls := toolCalls s; streamingPhase := streamingPhase s; failure := failure s;
     savedBefore := savedBefore s; failedTurns := failedTurns s |}.
Definition withCalls (l : list value) (s : ChatStreamState) : ChatStreamState :=
  {| status := status s; isStreaming := isStreaming s; sessionId := sessionId s; userMessage := userMessage s;
     content := content s; toolCalls := l; streamingPhase := streamingPhase s; failure := failure s;
     savedBefore := savedBefore s; failedTurns := failedTurns s |}.
Definition withFailure (f : Failure) (s : ChatStreamState) : ChatStreamState :=
  {| status := status s; isStreaming := isStreaming s; sessionId := sessionId s; userMessage := userMessage s;
     content := content s; toolCalls := toolCalls s; streamingPhase := streamingPhase s; failure := f;
     savedBefore := savedBefore s; failedTurns := failedTurns s |}.

(** Where a tool block starts and where its result goes ([None] is -1). *)
Record ToolBlock := { start : nat; resultAt : option nat }.

(** The request in flight: its response awaited, or its body read, with the
    piece of a line not ended yet. *)
Inductive Request := NoRequest | Awaiting | Reading (buffer : text).

(** The class's fields.  [pendingDone] is [_streamDone] with [_pendingDonePatch],
    which are set and reset together and whose patch is always the one of
    [DONE]; [heard] is every state the listeners were called with; [signal] is
    the request's abort signal, [signedOut] counts [handleUnauthorized]. *)
Record Manager := {
  state : ChatStreamState; abortController : bool; _charQueue : list text; _typewriterTimer : bool;
  pendingDone : bool; _toolBlocks : list ToolBlock;
  request : Request; signal : bool; heard : list ChatStreamState; signedOut : nat
}.

Definition newManager : Manager :=
  {| state := initialState; abortController := false; _charQueue := []; _typewriterTimer := false; pendingDone := false;
     _toolBlocks := []; request := NoRequest; signal := false; heard := []; signedOut := 0 |}.

(** ** Methods *)

Section manager.
Context (parse : text → option value) (stringify : value → text).

(** [this.state = s] followed by [notify]. *)
Definition notify (s : ChatStreamState) (m : Manager) : Manager :=
  {| state := s; abortController := abortController m; _charQueue := _charQueue m; _typewriterTimer := _typewriterTimer m;
     pendingDone := pendingDone m; _toolBlocks := _toolBlocks m; request := request m; signal := signal m;
     heard := heard m ++ [s]; signedOut := signedOut m |}.

Definition withQueue (q : list text) (timer : bool) (m : Manager) : Manager :=
  {| state := state m; abortController := abortController m; _charQueue := q; _typewriterTimer := timer;
     pendingDone := pendingDone m; _toolBlocks := _toolBlocks m; request := request m; signal := signal m;
     heard := heard m; signedOut := signedOut m |}.

Definition withPending (p : bool) (m : Manager) : Manager :=
  {| state := state m; abortController := abortController m; _charQueue := _charQueue m; _typewriterTimer := _typewriterTimer m;
     pendingDone := p; _toolBlocks := _toolBlocks m; request := request m; signal := signal m;
     heard := heard m; signedOut := signedOut m |}.

Definition withBlocks (bs : list ToolBlock) (m : Manager) : Manager :=
  {| state := state m; abortController := abortController m; _charQueue := _charQueue m; _typewriterTimer := _typewriterTimer m;
     pendingDone := pendingDone m; _toolBlocks := bs; request := request m; signal := signal m;
     heard := heard m; signedOut := signedOut m |}.

Definition withRequest (r : Request) (controller sig : bool) (m : Manager) : Manager :=
  {| state := state m; abortController := controller; _charQueue := _charQueue m; _typewriterTimer := _typewriterTimer m;
     pendingDone := pendingDone m; _toolBlocks := _toolBlocks m; request := r; signal := sig;
     heard := heard m; signedOut := signedOut m |}.

Definition _stopTypewriter (m : Manager) : Manager := withQueue (_charQueue m) false m.
Definition _startTypewriter (m : Manager) : Manager := withQueue (_charQueue m) true m.

Definition _drainQueue (m : Manager) : Manager :=
  match _charQueue m with
  | [] =>
      let m := _stopTypewriter m in
      if pendingDone m then
        let m := withPending false m in
        notify (withPhase None (ended completed (state m))) m
      else m
  | _ =>
      let batch := Nat.max 1 ((length (_charQueue m) + 3) / 4) in
      let chars := concat (take batch (_charQueue m)) in
      let m := withQueue (drop batch (_charQueue m)) (_typewriterTimer m) m in
      notify (withPhase (Some answer) (withContent (content (state m) ++ chars) (state m))) m
  end.

Definition _flushQueue (m : Manager) : Manager :=
  match _charQueue m with
  | [] => m
  | _ =>
      let remaining := concat (_charQueue m) in
      let m := withQueue [] (_typewriterTimer m) m in
      notify (withContent (content (state m) ++ remaining) (state m)) (_stopTypewriter m)
  end.

Definition _finishWhenDrained (m : Manager) : Manager :=
  let m := withPending true m in
  match _charQueue m with [] => _drainQueue m | _ => m end.

(** [immediate] notifies once more: the first state with the patch is heard only
    with the letters of the queue. *)
Definition setState (patch : ChatStreamState → ChatStreamState) (immediate : bool) (m : Manager) : Manager :=
  if immediate then
    let m := {| state := patch (state m); abortController := abortController m; _charQueue := _charQueue m;
                _typewriterTimer := _typewriterTimer m; pendingDone := pendingDone m; _toolBlocks := _toolBlocks m;
                request := request m; signal := signal m; heard := heard m; signedOut := signedOut m |} in
    let m := withPending false (_flushQueue m) in
    notify (state m) m
  else notify (patch (state m)) m.

Definition isStatus (st : ChatStreamStatus) (m : Manager) : bool := bool_decide (status (state m) = st).

Definition _fail (patch : Failure → Failure) (m : Manager) : Manager :=
  if negb (isStatus streaming m) then m
  else setState (λ s, withFailure (patch (failure s)) (withPhase None (ended error_ s))) true m.

(** The content with a result in its block and the table of blocks after it. *)
Definition _withToolOutcome (n : option nat) (result access : text) (m : Manager) : list ToolBlock * text :=
  match n ≫= (λ n, (n,.) <$> _toolBlocks m !! n) with
  | Some (n, {| start := st; resultAt := Some at_ |}) =>
      let filled := withToolAccess (withToolResult (content (state m)) at_ result) st access in
      let move p := p + length filled - length (content (state m)) in
      (imap (λ i other,
         if bool_decide (i = n) then {| start := st; resultAt := None |}
         else if start other <? st then other
         else {| start := move (start other); resultAt := move <$> resultAt other |}) (_toolBlocks m), filled)
  | _ => (_toolBlocks m, content (state m))
  end.

Definition _failedTurnsBefore (sid : string) (savedMessages : nat) (s : ChatStreamState) : list FailedTurn :=
  if negb (bool_decide (sessionId s = Some sid)) then [] else
  match userMessage s with
  | Some q =>
      if bool_decide (status s = error_) || bool_decide (status s = aborted) then
        failedTurns s ++ [{| question := q; ft_content := content s; ft_toolCalls := toolCalls s; ft_failure := failure s;
                             stopped := bool_decide (status s = aborted); askedAt := savedBefore s; ft_savedBefore := savedMessages |}]
      else failedTurns s
  | None => failedTurns s
  end.

Definition stop (m : Manager) : Manager :=
  let m := if abortController m then withRequest (request m) false true m else m in
  if isStatus streaming m then setState (ended aborted) true m else m.

(** [startSessionChat] up to the request; it throws while an answer streams. *)
Definition startSessionChat (sid : string) (msg : text) (savedMessages : nat) (m : Manager) : Manager :=
  if isStreaming (state m) then m else
  let m := withRequest (request m) true false m in
  let m := withQueue [] false m in
  let m := withBlocks [] (withPending false m) in
  let m := setState (λ s,
    {| status := streaming; isStreaming := true; sessionId := Some sid; userMessage := Some msg; content := [];
       toolCalls := []; streamingPhase := Some waiting; failure := noFailure; savedBefore := savedMessages;
       failedTurns := _failedTurnsBefore sid savedMessages s |}) false m in
  withRequest Awaiting (abortController m) (signal m) m.

(** ** The server's events *)

(** [data.content]. *)
Definition onContent (data : value) (m : Manager) : Manager :=
  _startTypewriter (withQueue (_charQueue m ++ codePoints (textOf (data .@ "content"))) (_typewriterTimer m) m).

(** The first call of the tool without an approval gets it. *)
Fixpoint attachApproval (functionName : string) (approval : list (string * value)) (calls : list value) : list value :=
  match calls with
  | [] => []
  | tc :: calls' =>
      if isStr (tc .@ "function") functionName && negb (truthy (tc .@ "approval_id")) then spread tc approval :: calls'
      else tc :: attachApproval functionName approval calls'
  end.

Definition onApproval (data : value) (m : Manager) : Manager :=
  let approval := [("approval_id", VStr (toString (data .@ "approval_required"))); ("approval_status", VStr "pending");
                   ("cluster", data .@ "cluster"); ("expires_at", data .@ "expires_at")] in
  let functionName := toString (data .@ "function" |? VStr "") in
  setState (λ s, withPhase (Some tools) (withCalls (attachApproval functionName approval (toolCalls s)) s)) false m.

Definition newToolCall (data : value) : value :=
  VObj ([("function", data .@ "function"); ("args", data .@ "args" |? VObj []); ("result", VStr ""); ("is_json", VBool false);
         ("is_yaml", VBool false)] ++ (if isNumber (data .@ "call_id") then [("call_id", data .@ "call_id")] else [])).

Definition onFunction (data : value) (m : Manager) : Manager :=
  let m := _flushQueue m in
  let block := buildToolCallBlock stringify (data .@ "function") (data .@ "args" |? VObj []) in
  let c := appendToolBlock (content (state m)) block in
  let st := length c - length block in
  let m := withBlocks (_toolBlocks m ++ [{| start := st; resultAt := Nat.add st <$> lastIndexOfText RESULT_PLACEHOLDER block |}]) m in
  setState (λ s, withPhase (Some tools) (withContent c (withCalls (toolCalls s ++ [newToolCall data]) s))) false m.

(** The properties a result adds to its call. *)
Definition resultFields (data : value) : list (string * value) :=
  [("result", VStr (toString (data .@ "result" ?? VStr ""))); ("is_json", boolv (data .@ "is_json"));
   ("is_yaml", boolv (data .@ "is_yaml"))]
  ++ (let display := if truthy (data .@ "display") then toString (data .@ "display") else "" in
      let format := if truthy (data .@ "display_format") then toString (data .@ "display_format") else "" in
      if nonempty display then [("display", VStr display); ("display_format", VStr format)] else [])
  ++ (if truthy (data .@ "chart") then [("chart", data .@ "chart")] else [])
  ++ (if truthy (data .@ "access") then [("access", data .@ "access")] else [])
  ++ (if truthy (data .@ "requests") then [("requests", data .@ "requests")] else []).

(** The code block of a result. *)
Definition resultBlock (data : value) : text :=
  let displayText := if truthy (data .@ "display") then textOf (data .@ "display") else [] in
  let resultText := textOf (data .@ "result" ?? VStr "") in
  let bodyText := match displayText with [] => resultText | _ => displayText end in
  let fence := codeFence bodyText in
  let language := match displayText with
                  | [] => if truthy (data .@ "is_yaml") then utf16 "yaml" else if truthy (data .@ "is_json") then utf16 "json" else []
                  | _ => []
                  end in
  fence ++ language ++ newline :: bodyText ++ newline :: fence.

(** [accessSection] may throw, and then the line is ignored as a whole. *)
Definition onResult (data : value) (m : Manager) : Manager :=
  let target := resultTarget (toolCalls (state m)) (toString (data .@ "function_result")) (data .@ "call_id") in
  let merged := match target with Some i => alter (λ tc, spread tc (resultFields data)) i (toolCalls (state m))
                                | None => toolCalls (state m) end in
  match accessSection (data .@ "access") (data .@ "requests") with
  | None => m
  | Some access =>
      let '(blocks, c) := _withToolOutcome target (resultBlock data) (utf16 access) m in
      setState (λ s, withPhase (Some tools) (withContent c (withCalls merged s))) false (withBlocks blocks m)
  end.

Definition serverFailure (data : value) (f : Failure) : Failure :=
  {| error := Some (textOf (data .@ "error"));
     errorKey := match data .@ "error_key" with VStr k => Some k | _ => None end;
     errorArgs := if truthy (data .@ "error_args") && isObject (data .@ "error_args") then ServerArgs (data .@ "error_args") else NoArgs |}.

(** What one event does, and whether the loop returns. *)
Definition onData (data : value) (m : Manager) : Manager * bool :=
  if truthy (data .@ "model_info") then (m, false)
  else if truthy (data .@ "usage") then (m, false)
  else if truthy (data .@ "content") then (onContent data m, false)
  else if truthy (data .@ "approval_required") then (onApproval data m, false)
  else if truthy (data .@ "function") then (onFunction data m, false)
  else if truthy (data .@ "function_result") then (onResult data m, false)
  else if truthy (data .@ "error") then (_fail (serverFailure data) m, true)
  else (m, false).

Definition dataPrefix : text := utf16 "data: ".
Definition DONE : text := utf16 "[DONE]".

Definition onLine (rawLine : text) (m : Manager) : Manager * bool :=
  let line := trimText rawLine in
  if negb (prefixOf dataPrefix line) then (m, false) else
  let dataStr := drop 6 line in
  if bool_decide (dataStr = DONE) then (_finishWhenDrained m, true) else
  match parse dataStr with
  | None => (m, false)
  | Some data => onData data m
  end.

Fixpoint onLines (lines : list text) (m : Manager) : Manager * bool :=
  match lines with
  | [] => (m, false)
  | l :: lines' => let '(m', returned) := onLine l m in if returned then (m', true) else onLines lines' m'
  end.

(** The [finally]: the request is over. *)
Definition finally (m : Manager) : Manager := withRequest NoRequest false (signal m) m.

(** A piece of the body: its ended lines, and the rest kept. *)
Definition onChunk (buffer chunk : text) (m : Manager) : Manager :=
  let lines := splitLines (buffer ++ chunk) in
  let '(m', returned) := onLines (removelast lines) m in
  if returned then finally m' else withRequest (Reading (List.last lines [])) (abortController m') (signal m') m'.

Definition STREAM_CUT : text := utf16 "The connection closed before the answer finished, so the text above may be incomplete. Ask again for the whole answer.".
Definition STREAM_EMPTY : text := utf16 "The connection closed without an answer. Ask again.".

(** The body ended without an event that ends the answer. *)
Definition onEnd (buffer : text) (m : Manager) : Manager :=
  finally (
    if bool_decide (trimText buffer = dataPrefix ++ DONE) then _finishWhenDrained m
    else if negb (bool_decide (content (state m) = [])) || (0 <? length (_charQueue m)) then
      _fail (λ f, {| error := Some STREAM_CUT; errorKey := Some "streamCut"; errorArgs := errorArgs f |}) m
    else _fail (λ f, {| error := Some STREAM_EMPTY; errorKey := Some "streamEmpty"; errorArgs := errorArgs f |}) m).

(** [refusal]: the status and, of a JSON body, its [detail]. *)
Definition refusal (httpStatus : Z) (body : text) (f : Failure) : Failure :=
  let detail := match parse body with
                | Some v => match v .@ "detail" with VStr d => take 300 (utf16 d) | _ => [] end
                | None => []
                end in
  match detail with
  | [] => {| error := Some (utf16 "HTTP " ++ utf16 (pretty httpStatus)); errorKey := Some "streamHttpStatus"; errorArgs := HttpArgs httpStatus None |}
  | _ => {| error := Some (utf16 "HTTP " ++ utf16 (pretty httpStatus) ++ utf16 ": " ++ detail); errorKey := Some "streamHttp";
            errorArgs := HttpArgs httpStatus (Some detail) |}
  end.

(** An error thrown in the request: the abort's, or [String(error)]. *)
Definition caught (err : option text) (m : Manager) : Manager :=
  match err with
  | None => finally (setState (λ s, withPhase None (ended aborted s)) true m)
  | Some e => finally (_fail (λ f, {| error := Some e; errorKey := errorKey f; errorArgs := errorArgs f |}) m)
  end.

Inductive Response := Unauthorized | NotOk (httpStatus : Z) (body : text) | NoBody | Body.

Definition onResponse (r : Response) (m : Manager) : Manager :=
  match r with
  | Unauthorized =>
      caught (Some (utf16 "Error: Unauthorized"))
        {| state := state m; abortController := abortController m; _charQueue := _charQueue m; _typewriterTimer := _typewriterTimer m;
           pendingDone := pendingDone m; _toolBlocks := _toolBlocks m; request := request m; signal := signal m;
           heard := heard m; signedOut := S (signedOut m) |}
  | NotOk httpStatus body => finally (_fail (refusal httpStatus body) m)
  | NoBody => caught (Some (utf16 "Error: No response body")) m
  | Body => withRequest (Reading []) (abortController m) (signal m) m
  end.

(** ** Steps

    [stop]'s abort makes what the request awaits reject before anything else of
    it can happen (Fetch's abort), so nothing more comes of an aborted request
    than its AbortError, and a new question meets no old request. *)

Inductive action :=
  | Start (sid : string) (msg : text) (savedMessages : nat)
  | Stop
  | Tick
  | Answer (r : Response)
  | Chunk (t : text)
  | End
  | Throw (err : option text).

Definition step (m : Manager) (a : action) : option Manager :=
  match a, request m with
  | Start sid msg saved, NoRequest => Some (startSessionChat sid msg saved m)
  | Stop, _ => Some (stop m)
  | Tick, _ => if _typewriterTimer m then Some (_drainQueue m) else None
  | Answer r, Awaiting => if signal m then None else Some (onResponse r m)
  | Chunk t, Reading buffer => if signal m then None else Some (onChunk buffer t m)
  | End, Reading buffer => if signal m then None else Some (onEnd buffer m)
  | Throw None, Awaiting | Throw None, Reading _ => if signal m then Some (caught None m) else None
  | Throw (Some e), Awaiting | Throw (Some e), Reading _ => if signal m then None else Some (caught (Some e) m)
  | _, _ => None
  end.

Fixpoint steps (m : Manager) (acts : list action) : option Manager :=
  match acts with [] => Some m | a :: acts' => m' ← step m a; steps m' acts' end.

Inductive reachable : Manager → Prop :=
  | reachable_new : reachable newManager
  | reachable_step m a m' : reachable m → step m a = Some m' → reachable m'.

End manager.

(** ** The manager's invariant *)

Record ok (m : Manager) : Prop := {
  ok_streaming : isStreaming (state m) = bool_decide (status (state m) = streaming);
  ok_queue : _charQueue m ≠ [] → _typewriterTimer m = true ∧ status (state m) = streaming;
  ok_pending : pendingDone m = true → request m = NoRequest ∧ status (state m) = streaming ∧ _typewriterTimer m = true;
  ok_request : request m ≠ NoRequest →
    (signal m = false ∧ abortController m = true ∧ status (state m) = streaming) ∨
    (signal m = true ∧ abortController m = false ∧ status (state m) = aborted);
  ok_alone : status (state m) = streaming → request m = NoRequest → pendingDone m = true;
  ok_failure : status (state m) ≠ error_ → failure (state m) = noFailure;
  ok_buffer : ∀ b, request m = Reading b → newline ∉ b;
  ok_heard : state m = initialState ∨ last (heard m) = Some (state m)
}.

(** The manager while its request is read. *)
Record live (m : Manager) : Prop := {
  live_status : status (state m) = streaming;
  live_streaming : isStreaming (state m) = true;
  live_pending : pendingDone m = false;
  live_queue : _charQueue m ≠ [] → _typewriterTimer m = true;
  live_failure : failure (state m) = noFailure;
  live_heard : last (heard m) = Some (state m);
  live_signal : signal m = false;
  live_controller : abortController m = true
}.

Lemma ok_live m : ok m → request m ≠ NoRequest → signal m = false → live m.
Proof.
  intros [] Hr Hs. destruct (ok_request0 Hr) as [(_ & Hc & Hst)|(Hs' & _)]; [|congruence].
  split; try done.
  - rewrite ok_streaming0. by rewrite bool_decide_true.
  - destruct (pendingDone m); [|done]. by destruct ok_pending0.
  - intros Hq. by apply ok_queue0.
  - apply ok_failure0. by rewrite Hst.
  - destruct ok_heard0 as [E|E]; [|done]. by rewrite E in Hst.
Qed.

Ltac manager_cases m :=
  destruct m as [[?st ?isst ?sid ?um ?c ?tcs ?ph ?fl ?sb ?fts] ?ctl ?q ?tim ?pend ?bs ?req ?sig ?h ?so]; simpl in *.

(** Solves the fields of a manager that is written out. *)
Ltac fields := split; simpl in *; rewrite ?last_snoc; try done; try (by rewrite bool_decide_false); try (intros; intuition congruence).

Lemma finish_ok m : live m → ok (finally (_finishWhenDrained m)).
Proof.
  intros []. manager_cases m. subst. unfold _finishWhenDrained, _drainQueue. simpl. destruct q; simpl; fields.
Qed.

Lemma flush_state m : status (state (_flushQueue m)) = status (state m) ∧ isStreaming (state (_flushQueue m)) = isStreaming (state m)
  ∧ failure (state (_flushQueue m)) = failure (state m) ∧ _charQueue (_flushQueue m) = [] ∧ signal (_flushQueue m) = signal m
  ∧ abortController (_flushQueue m) = abortController m ∧ request (_flushQueue m) = request m ∧ pendingDone (_flushQueue m) = pendingDone m
  ∧ _toolBlocks (_flushQueue m) = _toolBlocks m ∧ toolCalls (state (_flushQueue m)) = toolCalls (state m)
  ∧ content (state (_flushQueue m)) = content (state m) ++ concat (_charQueue m)
  ∧ (last (heard m) = Some (state m) → last (heard (_flushQueue m)) = Some (state (_flushQueue m))).
Proof.
  manager_cases m. unfold _flushQueue. destruct q; simpl; rewrite ?last_snoc, ?app_nil_r; done.
Qed.

Lemma flush_live m : live m → live (_flushQueue m).
Proof.
  intros []. destruct (flush_state m) as (E1 & E2 & E3 & E4 & E5 & E6 & E7 & E8 & _ & _ & _ & E9).
  split; rewrite ?E1, ?E2, ?E3, ?E4, ?E5, ?E6, ?E8; auto.
Qed.

Lemma fail_ok f m : live m → ok (finally (_fail f m)).
Proof.
  intros []. manager_cases m. subst. unfold _fail, isStatus. simpl.
  unfold setState, _flushQueue. simpl. destruct q; simpl; fields.
Qed.

(** A [setState] of a live manager that keeps the fields of the status. *)
Lemma setState_live patch m : live m →
  (∀ s, status (patch s) = status s ∧ isStreaming (patch s) = isStreaming s ∧ failure (patch s) = failure s) →
  live (setState patch false m).
Proof.
  intros [] Hp. unfold setState. destruct (Hp (state m)) as (H1 & H2 & H3). split; simpl; rewrite ?H1, ?H2, ?H3; auto.
  apply last_snoc.
Qed.

Lemma onContent_live data m : live m → live (onContent data m).
Proof. intros []. split; simpl; auto. Qed.

Lemma withBlocks_live bs m : live m → live (withBlocks bs m).
Proof. intros []. split; simpl; auto. Qed.

Lemma onFunction_live stringify data m : live m → live (onFunction stringify data m).
Proof.
  intros H. unfold onFunction. apply setState_live; [|by intros []]. apply withBlocks_live. by apply flush_live.
Qed.

Lemma onResult_live data m : live m → live (onResult data m).
Proof.
  intros H. unfold onResult. destruct (accessSection _ _) as [access|]; [|done].
  destruct (_withToolOutcome _ _ _ _) as [bs c]. apply setState_live; [|by intros []]. by apply withBlocks_live.
Qed.

Lemma splitLines_last t : newline ∉ List.last (splitLines t) [].
Proof.
  induction t as [|c t IH]; [by intros ?%not_elem_of_nil|]. cbn [splitLines]. destruct (N.eqb_spec c newline) as [->|Hc].
  - destruct (splitLines t) eqn:E; [|done]. destruct t as [|d t]; [done|]. cbn [splitLines] in E. destruct (d =? newline)%N; [done|].
    by destruct (splitLines t).
  - destruct (splitLines t) as [|l [|l' ls]]; simpl in *; [|by apply not_elem_of_cons|done].
    apply not_elem_of_cons. split; [done|apply not_elem_of_nil].
Qed.

Lemma live_ok m buffer : live m → newline ∉ buffer → ok (withRequest (Reading buffer) (abortController m) (signal m) m).
Proof.
  intros [] Hb. manager_cases m. subst. fields.
Qed.

Lemma stop_ok m : ok m → ok (stop m).
Proof.
  intros []. manager_cases m. subst. unfold stop, isStatus, setState, _flushQueue.
  destruct ctl; simpl; case_bool_decide; subst; simpl; destruct q; simpl; fields.
Qed.

Lemma drain_ok m : ok m → ok (_drainQueue m).
Proof.
  intros []. manager_cases m. subst. unfold _drainQueue. simpl. destruct q as [|x q]; simpl.
  - destruct pend; simpl; fields.
  - assert (tim = true ∧ st = streaming) as [-> ->] by by apply ok_queue0. fields.
Qed.

Lemma caught_abort_ok m : ok m → request m ≠ NoRequest → signal m = true → ok (caught None m).
Proof.
  intros [] Hr Hs. manager_cases m. subst. destruct (ok_request0 Hr) as [[? _]|(_ & -> & ->)]; [done|].
  assert (q = []) as -> by (destruct q; [done|by destruct ok_queue0]). unfold caught, setState, _flushQueue. simpl. fields.
Qed.

Lemma onEnd_ok buffer m : live m → ok (onEnd buffer m).
Proof.
  intros H. unfold onEnd. case_bool_decide; [by apply finish_ok|]. destruct (_ || _); by apply fail_ok.
Qed.

Lemma start_ok sid msg saved m : ok m → request m = NoRequest → ok (startSessionChat sid msg saved m).
Proof.
  intros Hok Hr. unfold startSessionChat. destruct (isStreaming (state m)); [done|]. unfold setState. fields.
Qed.

(** ** The end of an answer *)

(** The letters still to show. *)
Definition queued (m : Manager) : text := concat (_charQueue m).

(** An answer whose server is done is shown in full, a batch a tick. *)
Lemma drain_shows m : _charQueue m ≠ [] →
  content (state (_drainQueue m)) ++ queued (_drainQueue m) = content (state m) ++ queued m ∧
  length (_charQueue (_drainQueue m)) < length (_charQueue m) ∧
  _typewriterTimer (_drainQueue m) = _typewriterTimer m ∧ pendingDone (_drainQueue m) = pendingDone m ∧
  status (state (_drainQueue m)) = status (state m).
Proof.
  intros Hq. unfold _drainQueue. destruct (_charQueue m) as [|x q] eqn:E; [done|]. cbv zeta.
  set (batch := Nat.max 1 _). assert (Hb : 1 ≤ batch) by lia. clearbody batch. unfold queued. cbn [state content _charQueue notify withQueue withPhase withContent status].
  rewrite E, <- app_assoc, <- concat_app, take_drop. split_and!; [done| |done..].
  rewrite length_drop. simpl. lia.
Qed.

(** What follows a [stop]: nothing more comes of the answer. *)
Definition stoppedWith (c : text) (calls : list value) (m : Manager) : Prop :=
  status (state m) = aborted ∧ content (state m) = c ∧ toolCalls (state m) = calls ∧ _charQueue m = [] ∧ pendingDone m = false ∧
  (request m = NoRequest ∨ signal m = true).

Lemma stop_stops m : ok m → status (state m) = streaming →
  stoppedWith (content (state m) ++ queued m) (toolCalls (state m)) (stop m).
Proof.
  intros [] Hs. manager_cases m. subst. unfold stop, isStatus, setState, _flushQueue, stoppedWith, queued.
  assert (req = NoRequest ∨ ctl = true) as Hr.
  { destruct req; [by left|right|right]; by destruct ok_request0 as [(? & ? & ?)|(? & ? & ?)]. }
  destruct ctl; simpl; destruct q; simpl; rewrite ?app_nil_r; split_and!; try done; try (by right); destruct Hr; try done; by left.
Qed.

Section steps.
Context (parse : text → option value) (stringify : value → text).

Lemma onData_live data m : live m →
  match onData stringify data m with (m', false) => live m' | (m', true) => ok (finally m') end.
Proof.
  intros H. unfold onData. repeat (destruct (truthy _); [|]); try done.
  - by apply onContent_live.
  - apply setState_live; [done|by intros []].
  - by apply onFunction_live.
  - by apply onResult_live.
  - by apply fail_ok.
Qed.

Lemma onLine_live l m : live m →
  match onLine parse stringify l m with (m', false) => live m' | (m', true) => ok (finally m') end.
Proof.
  intros H. unfold onLine. destruct (negb _); [done|]. case_bool_decide; [by apply finish_ok|].
  destruct (parse _); [by apply onData_live|done].
Qed.

Lemma onLines_live ls m : live m →
  match onLines parse stringify ls m with (m', false) => live m' | (m', true) => ok (finally m') end.
Proof.
  revert m. induction ls as [|l ls IH]; intros m H; [done|]. cbn [onLines]. pose proof (onLine_live l m H) as Hl.
  destruct (onLine _ _ l m) as [m' []]; [done|]. by apply IH.
Qed.


Lemma onChunk_ok buffer t m : live m → ok (onChunk parse stringify buffer t m).
Proof.
  intros H. unfold onChunk. cbv zeta. pose proof (onLines_live (removelast (splitLines (buffer ++ t))) m H) as Hl.
  destruct (onLines _ _ _ m) as [m' []]; [done|]. apply live_ok; [done|]. apply splitLines_last.
Qed.

Lemma onResponse_ok r m : live m → ok (onResponse parse r m).
Proof.
  intros H. destruct r; simpl.
  - apply fail_ok. destruct H. by split.
  - by apply fail_ok.
  - by apply fail_ok.
  - apply live_ok; [done|apply not_elem_of_nil].
Qed.

Lemma step_ok m a m' : ok m → step parse stringify m a = Some m' → ok m'.
Proof.
  intros Hok. assert (Hlive := ok_live m Hok). unfold step.
  destruct a as [sid msg saved| | |r|t| |[err|]].
  - destruct (request m) eqn:Er; try done. intros [= <-]. by apply start_ok.
  - intros H. assert (stop m = m') as <- by (destruct (request m); congruence). by apply stop_ok.
  - intros H. assert (_drainQueue m = m') as <- by (destruct (request m), (_typewriterTimer m); congruence). by apply drain_ok.
  - destruct (request m) eqn:Er, (signal m) eqn:Es; try done. intros [= <-]. apply onResponse_ok. by apply Hlive.
  - destruct (request m) eqn:Er, (signal m) eqn:Es; try done. intros [= <-]. apply onChunk_ok. by apply Hlive.
  - destruct (request m) eqn:Er, (signal m) eqn:Es; try done. intros [= <-]. apply onEnd_ok. by apply Hlive.
  - destruct (request m) eqn:Er, (signal m) eqn:Es; try done; intros [= <-]; apply fail_ok; by apply Hlive.
  - destruct (request m) eqn:Er, (signal m) eqn:Es; try done; intros H; injection H as <-; apply caught_abort_ok;
      try done; by rewrite Er.
Qed.

Lemma reachable_manager_ok m : reachable parse stringify m → ok m.
Proof.
  induction 1 as [|m a m' _ IH Hs]; [|by eapply step_ok]. split; simpl; try done. by left.
Qed.

Lemma step_stop m : step parse stringify m Stop = Some (stop m).
Proof. unfold step. by destruct (request m). Qed.

Lemma step_tick m : step parse stringify m Tick = if _typewriterTimer m then Some (_drainQueue m) else None.
Proof. unfold step. by destruct (request m). Qed.

Lemma steps_stopped c calls acts m m' : Forall (λ a, match a with Start _ _ _ => False | _ => True end) acts →
  stoppedWith c calls m → steps parse stringify m acts = Some m' → stoppedWith c calls m'.
Proof.
  intros Ha. revert m. induction Ha as [|a acts Ha _ IH]; intros m Hm; [by intros [= <-]|].
  cbn [steps]. destruct (step _ _ m a) as [m1|] eqn:E; [|done]. apply IH. clear IH.
  destruct Hm as (H1 & H2 & H3 & H4 & H5 & H6).
  destruct a as [| | |r|t| |[e|]]; try done; [rewrite step_stop in E|rewrite step_tick in E|unfold step in E..];
    manager_cases m; subst.
  - injection E as <-. unfold stop, isStatus. simpl.
    destruct ctl; unfold stoppedWith; simpl; split_and!; try done. by right.
  - destruct tim; [|done]. injection E as <-. unfold _drainQueue, stoppedWith. simpl. by split_and!.
  - destruct req; try done. by destruct H6 as [| ->].
  - destruct req; try done. by destruct H6 as [| ->].
  - destruct req; try done. by destruct H6 as [| ->].
  - destruct req; try done; by destruct H6 as [| ->].
  - destruct req; try done; destruct sig; try done; injection E as <-; unfold stoppedWith; simpl; split_and!; try done; by left.
Qed.

Lemma drains m : pendingDone m = true → _typewriterTimer m = true →
  ∃ k m', k ≤ S (length (_charQueue m)) ∧ steps parse stringify m (replicate k Tick) = Some m' ∧
    status (state m') = completed ∧ content (state m') = content (state m) ++ queued m.
Proof.
  remember (length (_charQueue m)) as n eqn:Hn. revert m Hn. induction (lt_wf n) as [n _ IH]. intros m -> Hp Ht.
  assert (Hs : step parse stringify m Tick = Some (_drainQueue m)) by by rewrite step_tick, Ht.
  destruct (_charQueue m) as [|x q] eqn:E.
  - exists 1, (_drainQueue m). cbn [replicate steps]. rewrite Hs. split_and!; [lia|done| |];
      unfold _drainQueue, queued; rewrite E; simpl; rewrite Hp; simpl; [done|by rewrite app_nil_r].
  - destruct (drain_shows m) as (H1 & H2 & H3 & H4 & _); [by rewrite E|]. rewrite E in H2.
    destruct (IH _ H2 (_drainQueue m) eq_refl) as (k & m' & Hk & Hr & Hst & Hc); [congruence..|].
    exists (S k), m'. cbn [replicate steps]. rewrite Hs. split_and!; [lia|done|done|]. by rewrite Hc, H1.
Qed.
End steps.

(** ** The pieces the body comes in *)

Lemma splitLines_app a b :
  splitLines (a ++ b) = removelast (splitLines a) ++ splitLines (List.last (splitLines a) [] ++ b).
Proof.
  induction a as [|c a IH]; [done|]. cbn [splitLines app]. rewrite IH. clear IH.
  assert (Hne : splitLines a ≠ []).
  { destruct a as [|d a]; [done|]. cbn [splitLines]. destruct (d =? newline)%N; [done|]. by destruct (splitLines a). }
  destruct (N.eqb_spec c newline) as [->|Hc].
  - destruct (splitLines a) as [|l ls]; [done|]. by destruct ls.
  - destruct (splitLines a) as [|l [|l' ls]]; [done| |done].
    cbn [removelast List.last app splitLines]. destruct (N.eqb_spec c newline); [done|]. done.
Qed.

(** Everything but the request. *)
Definition reRequest (r : Request) (m : Manager) : Manager := withRequest r (abortController m) (signal m) m.

Lemma reRequest_twice r r' m : reRequest r (reRequest r' m) = reRequest r m.
Proof. done. Qed.

Lemma reRequest_drain r m : _drainQueue (reRequest r m) = reRequest r (_drainQueue m).
Proof. manager_cases m. unfold _drainQueue. destruct q; [by destruct pend|done]. Qed.

Lemma reRequest_finish r m : _finishWhenDrained (reRequest r m) = reRequest r (_finishWhenDrained m).
Proof. manager_cases m. unfold _finishWhenDrained, _drainQueue. by destruct q. Qed.

Lemma reRequest_flush r m : _flushQueue (reRequest r m) = reRequest r (_flushQueue m).
Proof. manager_cases m. by destruct q. Qed.

Lemma reRequest_fail r f m : _fail f (reRequest r m) = reRequest r (_fail f m).
Proof.
  manager_cases m. unfold _fail, isStatus, setState, _flushQueue. simpl. destruct (bool_decide _); [|done]. by destruct q.
Qed.

Section pieces.
Context (parse : text → option value) (stringify : value → text).

Lemma reRequest_data r data m :
  onData stringify data (reRequest r m) = (reRequest r (onData stringify data m).1, (onData stringify data m).2).
Proof.
  unfold onData. repeat (destruct (truthy _); [|]); try done.
  - unfold onFunction. by rewrite reRequest_flush.
  - simpl. unfold onResult. cbn [reRequest withRequest state toolCalls]. destruct (accessSection _ _); [|done].
    change (_withToolOutcome ?a ?b ?c (reRequest r m)) with (_withToolOutcome a b c m).
    by destruct (_withToolOutcome _ _ _ m) as [bs c].
  - by rewrite reRequest_fail.
Qed.

Lemma reRequest_lines r ls m :
  onLines parse stringify ls (reRequest r m) =
    (reRequest r (onLines parse stringify ls m).1, (onLines parse stringify ls m).2).
Proof.
  revert m. induction ls as [|l ls IH]; intros m; [done|]. cbn [onLines].
  assert (onLine parse stringify l (reRequest r m) =
          (reRequest r (onLine parse stringify l m).1, (onLine parse stringify l m).2)) as ->.
  { unfold onLine. destruct (negb _); [done|]. case_bool_decide; [by rewrite reRequest_finish|].
    destruct (parse _); [by rewrite reRequest_data|done]. }
  destruct (onLine parse stringify l m) as [m' []]; [done|]. apply IH.
Qed.

Lemma onLines_app ls ls' m :
  onLines parse stringify (ls ++ ls') m =
    let '(m', returned) := onLines parse stringify ls m in
    if returned then (m', true) else onLines parse stringify ls' m'.
Proof.
  revert m. induction ls as [|l ls IH]; intros m; [done|]. cbn [onLines app].
  destruct (onLine parse stringify l m) as [m' []]; [done|]. apply IH.
Qed.

(** A piece read when the body is still read. *)
Definition piece (m : Manager) (t : text) : Manager := default m (step parse stringify m (Chunk t)).

Lemma piece_over m t : request m = NoRequest → piece m t = m.
Proof. intros H. unfold piece, step. by rewrite H. Qed.

Lemma pieces_over m ts : request m = NoRequest → foldl piece m ts = m.
Proof. revert m. induction ts as [|t ts IH]; intros m H; [done|]. simpl. rewrite piece_over by done. by apply IH. Qed.

Lemma splitLines_join ls t : removelast (ls ++ splitLines t) = ls ++ removelast (splitLines t) ∧
  List.last (ls ++ splitLines t) [] = List.last (splitLines t) [].
Proof.
  assert (Hne : splitLines t ≠ []).
  { destruct t as [|d t]; [done|]. cbn [splitLines]. destruct (d =? newline)%N; [done|]. by destruct (splitLines t). }
  induction ls as [|l ls [IH1 IH2]]; [done|]. cbn [app removelast List.last].
  destruct (ls ++ splitLines t) as [|x y] eqn:E; [|split; [by rewrite IH1|done]].
  by apply app_eq_nil in E as [_ ?].
Qed.

Lemma piece_app m b t t' : live m → request m = Reading b → piece (piece m t) t' = piece m (t ++ t').
Proof.
  intros Hl Hb. unfold piece at 2 3, step. rewrite Hb, (live_signal m Hl). cbn [default]. unfold onChunk. cbv zeta.
  rewrite (app_assoc b t t'), (splitLines_app (b ++ t) t'). destruct (splitLines_join (removelast (splitLines (b ++ t)))
    (List.last (splitLines (b ++ t)) [] ++ t')) as [-> ->]. rewrite onLines_app.
  pose proof (onLines_live parse stringify (removelast (splitLines (b ++ t))) m Hl) as Hm.
  destruct (onLines parse stringify _ m) as [m' []]; [by rewrite piece_over|].
  set (rest := List.last (splitLines (b ++ t)) []).
  change (withRequest (Reading rest) (abortController m') (signal m') m') with (reRequest (Reading rest) m').
  assert (Hs : signal (reRequest (Reading rest) m') = false) by apply (live_signal m' Hm).
  unfold id, piece, step. change (request (reRequest (Reading rest) m')) with (Reading rest).
  rewrite Hs.
  cbn [default]. unfold onChunk. cbv zeta. rewrite reRequest_lines. unfold id.
  by destruct (onLines parse stringify _ m') as [m2 []].
Qed.

Lemma pieces_once m b t ts : live m → request m = Reading b → foldl piece m (t :: ts) = piece m (concat (t :: ts)).
Proof.
  intros Hl Hb. revert t. induction ts as [|t' ts IH]; intros t; [simpl; by rewrite app_nil_r|].
  change (foldl piece (piece (piece m t) t') ts = piece m (t ++ t' ++ concat ts)).
  rewrite (piece_app m b) by done. rewrite app_assoc. apply IH.
Qed.
End pieces.

(** ** Where the tool blocks are *)

(** [t] stands at [p] in [c]. *)
Definition standsAt (c : text) (p : nat) (t : text) : Prop := ∃ A B, c = A ++ t ++ B ∧ length A = p.

Lemma prefixOf_spec p t : prefixOf p t = true ↔ ∃ r, t = p ++ r.
Proof.
  revert t. induction p as [|a p IH]; intros t; simpl; [split; eauto|].
  destruct t as [|b t]; [split; [done|by intros [r ?]]|]. rewrite andb_true_iff, N.eqb_eq, IH. split.
  - intros [-> [r ->]]. eauto.
  - intros [r [= -> ->]]. eauto.
Qed.

Lemma startsAt_spec p c at_ : p ≠ [] → startsAt p c at_ = true ↔ standsAt c at_ p.
Proof.
  intros Hp. unfold startsAt, standsAt. rewrite prefixOf_spec. split.
  - intros [r Hr]. exists (take at_ c), r. split; [by rewrite <- Hr, take_drop|]. rewrite length_take_le; [done|].
    destruct (decide (length c ≤ at_)); [|lia]. rewrite drop_ge in Hr by done. by destruct p.
  - intros (A & B & -> & <-). exists B. by rewrite drop_app_length.
Qed.

Lemma standsAt_app c x p t : standsAt c p t → standsAt (c ++ x) p t.
Proof. intros (A & B & -> & <-). exists A, (B ++ x). by rewrite <- !app_assoc. Qed.

(** Text put in or taken out between what stands before and after it. *)
Lemma standsAt_before A X Y p t : p + length t ≤ length A → standsAt (A ++ X) p t → standsAt (A ++ Y) p t.
Proof.
  intros Hl (C & D & E & <-). pose proof (f_equal (take (length A)) E) as Ht. rewrite take_app_length in Ht.
  rewrite take_app_ge in Ht by lia. rewrite take_app_ge in Ht by lia.
  exists C, (take (length A - length C - length t) D ++ Y). split; [|done]. rewrite Ht at 1. by rewrite <- !app_assoc.
Qed.

Lemma standsAt_after A X B p t : length A ≤ p → standsAt (A ++ B) p t → standsAt (X ++ B) (p + length X - length A) t.
Proof.
  intros Hl (C & D & E & <-). pose proof (f_equal (drop (length A)) E) as Ht. rewrite drop_app_length in Ht.
  rewrite drop_app_le in Ht by lia. exists (X ++ drop (length A) C), D. split; [by rewrite Ht, <- !app_assoc|].
  rewrite length_app, length_drop. lia.
Qed.

Lemma standsAt_bound c p t : standsAt c p t → p + length t ≤ length c.
Proof. intros (A & B & -> & <-). rewrite !length_app. lia. Qed.

(** The blocks of the answer: one for each call, at its header, its placeholder
    further on; in order, a block's placeholder before the next block. *)
Record blocksOk (c : text) (calls : list value) (bs : list ToolBlock) : Prop := {
  bo_len : length calls = length bs;
  bo_call : ∀ n tc, calls !! n = Some tc → ∃ fs, tc = VObj fs;
  bo_start : ∀ n b, bs !! n = Some b → standsAt c (start b) [60%N];
  bo_open : ∀ n b tc r, bs !! n = Some b → calls !! n = Some tc → resultAt b = Some r →
    standsAt c (start b) (blockHead (tc .@ "function")) ∧ start b + length (blockHead (tc .@ "function")) ≤ r ∧
    standsAt c r RESULT_PLACEHOLDER;
  bo_order : ∀ i j bi bj, i < j → bs !! i = Some bi → bs !! j = Some bj →
    start bi < start bj ∧ ∀ r, resultAt bi = Some r → r + length RESULT_PLACEHOLDER ≤ start bj
}.

Lemma blocksOk_nil c : blocksOk c [] [].
Proof. by split. Qed.

Lemma blocksOk_app c x calls bs : blocksOk c calls bs → blocksOk (c ++ x) calls bs.
Proof.
  intros []. split; try done.
  - intros n b Hb. by eapply standsAt_app, bo_start0.
  - intros n b tc r Hb Hc Hr. destruct (bo_open0 n b tc r) as (? & ? & ?); [done..|]. split_and!; try by apply standsAt_app.
    done.
Qed.

(** Calls that keep their names. *)
Lemma blocksOk_calls c calls calls' bs : length calls' = length calls →
  (∀ n tc', calls' !! n = Some tc' → ∃ tc, calls !! n = Some tc ∧ tc' .@ "function" = tc .@ "function" ∧ ∃ fs, tc' = VObj fs) →
  blocksOk c calls bs → blocksOk c calls' bs.
Proof.
  intros Hl Hc []. split; [congruence| |done| |done].
  - intros n tc' (tc & _ & _ & H)%Hc. done.
  - intros n b tc' r Hb (tc & Htc & -> & _)%Hc Hr. by eapply bo_open0.
Qed.

(** Trimming the end spares what ends with a letter. *)
Lemma trimEnd_spec t : ∃ s, t = trimEndText t ++ s ∧ forallb isSpace s = true ∧
  (trimEndText t = [] ∨ ∃ A x, trimEndText t = A ++ [x] ∧ isSpace x = false).
Proof.
  unfold trimEndText. assert (H : ∀ u, ∃ s, u = s ++ trimStartText u ∧ forallb isSpace s = true ∧
    (trimStartText u = [] ∨ ∃ A x, trimStartText u = x :: A ∧ isSpace x = false)).
  { induction u as [|c u (s & Hs & Hb & IH)]; [exists []; split_and!; try done; by left|]. cbn [trimStartText].
    destruct (isSpace c) eqn:Ec.
    - exists (c :: s). split_and!; [by rewrite Hs at 1|simpl; by rewrite Ec|done].
    - exists []. split_and!; try done. right. eauto. }
  destruct (H (rev t)) as (s & Hs & Hb & Hc). exists (rev s). split_and!.
  - rewrite <- rev_app_distr, <- Hs. by rewrite rev_involutive.
  - apply forallb_forall. intros x Hx%in_rev. by eapply forallb_forall in Hb.
  - destruct Hc as [->|(A & x & -> & Hx)]; [by left|]. right. by exists (rev A), x.
Qed.

Lemma trimEnd_keeps t p u x : standsAt t p (u ++ [x]) → isSpace x = false → standsAt (trimEndText t) p (u ++ [x]).
Proof.
  intros Hst Hx. destruct (trimEnd_spec t) as (s & Hs & Hb & _). rewrite Hs in Hst.
  destruct (decide (p + length (u ++ [x]) ≤ length (trimEndText t))) as [Hl|Hl].
  - pose proof (standsAt_before (trimEndText t) s [] p _ Hl Hst) as H. by rewrite app_nil_r in H.
  - exfalso. destruct Hst as (A & B & E & <-). rewrite length_app in Hl. simpl in Hl.
    assert (Hin : (trimEndText t ++ s) !! (length A + length u) = Some x).
    { rewrite E, <- !app_assoc, app_assoc, lookup_app_r by (rewrite length_app; lia).
      rewrite length_app, Nat.sub_diag. done. }
    rewrite lookup_app_r in Hin by lia. apply list_elem_of_lookup_2, list_elem_of_In in Hin.
    eapply forallb_forall in Hb; [|done]. congruence.
Qed.

Lemma blocksOk_trim c calls bs : blocksOk c calls bs → blocksOk (trimEndText c) calls bs.
Proof.
  intros []. split; try done.
  - intros n b Hb. apply (trimEnd_keeps c (start b) [] 60%N); [by apply (bo_start0 n)|done].
  - intros n b tc r Hb Hc Hr. destruct (bo_open0 n b tc r) as (H1 & H2 & H3); [done..|].
    assert (H3' : standsAt (trimEndText c) r RESULT_PLACEHOLDER).
    { change RESULT_PLACEHOLDER with (utf16 "Executing.." ++ [46%N]) in *. by apply trimEnd_keeps. }
    split_and!; [|done|].
    + pose proof (standsAt_bound _ _ _ H3') as Hb3. destruct (trimEnd_spec c) as (x & Hx & _). rewrite Hx in H1.
      apply (standsAt_before _ x []) in H1; [|simpl in Hb3; lia]. by rewrite app_nil_r in H1.
    + done.
Qed.

Lemma app_head {A} (h x : list A) c : head h = Some c → h ++ x = [c] ++ drop 1 (h ++ x).
Proof. destruct h as [|a h]; [done|]. by intros [= ->]. Qed.

Lemma blockHead_lt f : blockHead f = [60%N] ++ drop 1 (blockHead f).
Proof. apply app_head. vm_compute. reflexivity. Qed.

(** A block goes below all of them. *)
Lemma blocksOk_snoc P block k calls bs tc fs :
  blocksOk P calls bs → tc = VObj fs →
  standsAt block 0 (blockHead (tc .@ "function")) → length (blockHead (tc .@ "function")) ≤ k →
  standsAt block k RESULT_PLACEHOLDER →
  blocksOk (P ++ block) (calls ++ [tc]) (bs ++ [{| start := length P; resultAt := Some (length P + k) |}]).
Proof.
  intros Hok -> Hh Hk Hp. pose proof (blocksOk_app _ block _ _ Hok) as Hok'. set (tc := VObj fs) in *.
  assert (Hnew : ∀ p t, standsAt block p t → standsAt (P ++ block) (length P + p) t).
  { intros p t (A & B & -> & <-). exists (P ++ A), B. split; [by rewrite <- app_assoc|]. by rewrite length_app. }
  assert (Hlast : ∀ n b, (bs ++ [{| start := length P; resultAt := Some (length P + k) |}]) !! n = Some b →
    bs !! n = Some b ∨ n = length bs ∧ b = {| start := length P; resultAt := Some (length P + k) |}).
  { intros n b [H|[H H']]%lookup_app_Some; [by left|right]. apply list_lookup_singleton_Some in H' as [H1 <-]. split; [lia|done]. }
  destruct Hok as [Hlen Hcall Hstart Hopen Horder]. split.
  - by rewrite !length_app, Hlen.
  - intros n tc' [Hc|[_ Hc]]%lookup_app_Some; [by eapply Hcall|]. apply list_lookup_singleton_Some in Hc as [_ <-]. by exists fs.
  - intros n b [Hb|[_ ->]]%Hlast; [by eapply (bo_start _ _ _ Hok')|]. simpl.
    specialize (Hnew 0 [60%N]). rewrite Nat.add_0_r in Hnew. apply Hnew. destruct Hh as (A & B & -> & HA).
    exists A, (drop 1 (blockHead (tc .@ "function")) ++ B). split; [|exact HA].
    rewrite (app_assoc [60%N]), <- blockHead_lt. reflexivity.
  - intros n b tc' r [Hb|[-> ->]]%Hlast Hc Hr.
    + apply lookup_app_Some in Hc as [Hc|[Hn _]]; [by eapply (bo_open _ _ _ Hok')|].
      apply lookup_lt_Some in Hb. lia.
    + apply lookup_app_Some in Hc as [Hc|[_ Hc]]; [apply lookup_lt_Some in Hc; lia|].
      apply list_lookup_singleton_Some in Hc as [_ <-]. cbn [resultAt] in Hr. injection Hr as <-. cbn [start].
      split_and!; [|lia|by apply Hnew].
      rewrite <- (Nat.add_0_r (length P)). by apply Hnew.
  - intros i j bi bj Hij [Hi|[-> ->]]%Hlast [Hj|[-> ->]]%Hlast.
    + by eapply Horder.
    + simpl. pose proof (standsAt_bound _ _ _ (Hstart i bi Hi)) as Hb. simpl in Hb. split; [lia|]. intros r Hr.
      destruct (lookup_lt_is_Some_2 calls i) as [tc' Hc]; [rewrite Hlen; by eapply lookup_lt_Some|].
      destruct (Hopen i bi tc' r) as (_ & _ & Hs); [done..|]. by apply standsAt_bound in Hs.
    + apply lookup_lt_Some in Hj. lia.
    + lia.
Qed.

(** ** The block of a call *)

Lemma lastIndexOfText_app p x t i : lastIndexOfText p t = Some i → lastIndexOfText p (x ++ t) = Some (length x + i).
Proof. intros H. induction x as [|c x IH]; [done|]. cbn [app lastIndexOfText]. by rewrite IH. Qed.

Lemma block_shape stringify f args : ∃ X,
  buildToolCallBlock stringify f args = blockHead f ++ X ++ RESULT_PLACEHOLDER ++ blockTail ∧
  lastIndexOfText RESULT_PLACEHOLDER (buildToolCallBlock stringify f args) = Some (length (blockHead f ++ X)).
Proof.
  assert (H : lastIndexOfText RESULT_PLACEHOLDER (RESULT_PLACEHOLDER ++ blockTail) = Some 0) by reflexivity.
  unfold buildToolCallBlock. cbv zeta.
  set (section := if hasArgs args then _ else _). set (results := utf16 "

<details>
<summary><strong>📊 Results</strong></summary>

"). exists (utf16 "
" ++ section ++ results). split; [by rewrite <- !app_assoc|].
  rewrite (app_assoc _ results), (app_assoc (utf16 "
")), (app_assoc (blockHead f)). erewrite lastIndexOfText_app by exact H. by rewrite Nat.add_0_r.
Qed.

Lemma appendToolBlock_shape c block : ∃ y, appendToolBlock c block = (trimEndText c ++ y) ++ block.
Proof.
  unfold appendToolBlock. destruct (trimEndText c) as [|x t]; [by exists []|].
  eexists (match closingFence (x :: t) with Some closing => newline :: closing | None => [] end ++ [newline; newline]).
  by rewrite <- !app_assoc.
Qed.

Lemma newToolCall_obj data : ∃ fs, newToolCall data = VObj fs ∧ newToolCall data .@ "function" = data .@ "function".
Proof. eexists. split; [done|]. done. Qed.

Lemma onFunction_blocks stringify data m :
  blocksOk (content (state m)) (toolCalls (state m)) (_toolBlocks m) →
  blocksOk (content (state (onFunction stringify data m))) (toolCalls (state (onFunction stringify data m)))
    (_toolBlocks (onFunction stringify data m)).
Proof.
  intros Hok. unfold onFunction. cbv zeta. destruct (flush_state m) as (_ & _ & _ & _ & _ & _ & _ & _ & Hb & Hc & Hct & _).
  remember (data .@ "function") as f eqn:Ef. set (args := data .@ "args" |? VObj []).
  destruct (block_shape stringify f args) as (X & HX & Hl). set (block := buildToolCallBlock stringify f args) in *. clearbody block.
  destruct (appendToolBlock_shape (content (state (_flushQueue m))) block) as [y Hy].
  cbn [setState notify state content toolCalls withPhase withContent withCalls withBlocks _toolBlocks]. rewrite Hy, Hl, Hb, Hc, Hct.
  cbn [fmap option_fmap option_map]. rewrite length_app, Nat.add_sub. apply blocksOk_app with (x := y) in Hok as Hok1.
  destruct (newToolCall_obj data) as (fs & Ho & Hf).
  eapply blocksOk_snoc; [|exact Ho|rewrite Hf, <- Ef..|].
  - apply blocksOk_app. apply blocksOk_trim. by apply blocksOk_app.
  - exists [], (X ++ RESULT_PLACEHOLDER ++ blockTail). rewrite app_nil_l. split; [exact HX|reflexivity].
  - rewrite length_app. lia.
  - exists (blockHead f ++ X), blockTail. split; [|reflexivity]. rewrite <- (app_assoc (blockHead f)). exact HX.
Qed.

(** ** A result in its block *)

Lemma indexOfText_le p t i : standsAt t i p → ∃ k, indexOfText p t = Some k ∧ k ≤ i.
Proof.
  revert i. induction t as [|c t IH]; intros i (A & B & E & <-); cbn [indexOfText].
  - assert (prefixOf p [] = true) as ->; [|by exists 0; split; [|lia]]. apply prefixOf_spec. exists [].
    symmetry in E. apply app_eq_nil in E as [_ E]. by apply app_eq_nil in E as [-> _].
  - destruct (prefixOf p (c :: t)) eqn:Ep; [by exists 0; split; [|lia]|]. destruct A as [|a A].
    + exfalso. simpl in E. assert (prefixOf p (c :: t) = true); [|congruence]. apply prefixOf_spec. by exists B.
    + injection E as _ E. destruct (IH (length A)) as (k & -> & Hk); [by exists A, B|]. exists (S k). simpl. split; [done|lia].
Qed.

(** What [withToolAccess] puts in. *)
Definition accessPart (line : text) : text := match line with [] => [] | _ => newline :: line ++ [newline] end.

Lemma take_drop_app {A} (l X : list A) n : n ≤ length l → take n (l ++ X) = take n l ∧ drop n (l ++ X) = drop n l ++ X.
Proof. intros H. by rewrite take_app_le, drop_app_le. Qed.

Lemma prefixOf_app p t Z : length p ≤ length t → prefixOf p (t ++ Z) = prefixOf p t.
Proof.
  revert t. induction p as [|a p IH]; intros [|b t] H; simpl in *; try done; [lia|]. by rewrite IH by lia.
Qed.

Lemma indexOfText_bound p t k : indexOfText p t = Some k → k + length p ≤ length t.
Proof.
  revert k. induction t as [|c t IH]; intros k; cbn [indexOfText].
  - destruct (prefixOf p []) eqn:E; [|done]. intros [= <-]. by destruct p.
  - destruct (prefixOf p (c :: t)) eqn:E.
    + intros [= <-]. apply prefixOf_spec in E as [r E]. rewrite E, length_app. lia.
    + destruct (indexOfText p t) as [j|]; [|done]. intros [= <-]. specialize (IH j eq_refl). simpl. lia.
Qed.

Lemma indexOfText_app p t Z k : indexOfText p t = Some k → indexOfText p (t ++ Z) = Some k.
Proof.
  revert k. induction t as [|c t IH]; intros k H; pose proof (indexOfText_bound _ _ _ H) as Hb.
  - cbn [indexOfText] in H. destruct (prefixOf p []) eqn:E; [|done]. destruct p; [|done]. injection H as <-.
    by destruct Z.
  - cbn [indexOfText app] in *. change (c :: t ++ Z) with ((c :: t) ++ Z). rewrite prefixOf_app by lia.
    destruct (prefixOf p (c :: t)); [done|]. destruct (indexOfText p t) as [j|]; [|done]. by rewrite (IH j).
Qed.

Lemma withToolAccess_shape A st H line : standsAt A st (H ++ summaryEnd) →
  ∃ A1 A2, A = A1 ++ A2 ∧ st < length A1 ∧ ∀ Z, withToolAccess (A ++ Z) st line = A1 ++ accessPart line ++ A2 ++ Z.
Proof.
  intros Hs. pose proof (standsAt_bound _ _ _ Hs) as Hl. assert (He : length summaryEnd = 11) by reflexivity.
  rewrite length_app, He in Hl. destruct line as [|x line].
  - exists (take (S st) A), (drop (S st) A). split_and!; [by rewrite take_drop|rewrite length_take; lia|].
    intros Z. cbn [withToolAccess accessPart app]. rewrite app_assoc, take_drop. done.
  - destruct Hs as (C & D & E & HC). destruct (indexOfText_le summaryEnd (drop st A) (length H)) as (k & Hk & Hle).
    { exists H, D. split; [|done]. rewrite E, <- HC, drop_app_length. by rewrite <- app_assoc. }
    exists (take (st + k + 11) A), (drop (st + k + 11) A). split_and!; [by rewrite take_drop|rewrite length_take; lia|].
    intros Z. unfold withToolAccess, indexOfFrom. rewrite drop_app_le by lia. rewrite (indexOfText_app _ _ _ _ Hk).
    cbn [fmap option_fmap option_map]. cbv zeta. rewrite He. destruct (take_drop_app A Z (st + k + 11)) as [-> ->]; [lia|].
    cbn [accessPart app]. by rewrite <- !app_assoc.
Qed.

Lemma withToolResult_at A B result :
  withToolResult (A ++ RESULT_PLACEHOLDER ++ B) (length A) result = A ++ result ++ B.
Proof.
  assert (startsAt RESULT_PLACEHOLDER (A ++ RESULT_PLACEHOLDER ++ B) (length A) = true) as Hs.
  { apply startsAt_spec; [discriminate|]. by exists A, B. }
  unfold withToolResult. rewrite Hs. cbn [negb].
  rewrite take_app_length. do 2 f_equal. rewrite <- drop_drop, drop_app_length. by rewrite drop_app_length.
Qed.

Lemma blockHead_summary f : ∃ H, blockHead f = H ++ summaryEnd.
Proof.
  unfold blockHead. change (utf16 "</strong></summary>
") with (utf16 "</strong>" ++ summaryEnd). rewrite !app_assoc. eauto.
Qed.

(** The block of a call that waits for its result, and the text around it. *)
Lemma openBlock c calls bs n b tc r : blocksOk c calls bs → bs !! n = Some b → calls !! n = Some tc → resultAt b = Some r →
  ∃ A B, c = A ++ RESULT_PLACEHOLDER ++ B ∧ length A = r ∧ start b + length (blockHead (tc .@ "function")) ≤ length A ∧
    standsAt c (start b) (blockHead (tc .@ "function")).
Proof.
  intros Hok Hb Hc Hr. destruct (bo_open _ _ _ Hok n b tc r Hb Hc Hr) as (H1 & H2 & A & B & -> & <-).
  exists A, B. done.
Qed.

Lemma outcome_shape m n b r result access :
  blocksOk (content (state m)) (toolCalls (state m)) (_toolBlocks m) → _toolBlocks m !! n = Some b → resultAt b = Some r →
  ∃ A1 A2 B, content (state m) = A1 ++ A2 ++ RESULT_PLACEHOLDER ++ B ∧ length (A1 ++ A2) = r ∧ start b < length A1 ∧
    ∀ m' x, _toolBlocks m' = _toolBlocks m → content (state m') = content (state m) ++ x →
      (_withToolOutcome (Some n) result access m').2 = A1 ++ accessPart access ++ A2 ++ result ++ B ++ x.
Proof.
  intros Hok Hb Hr. destruct (lookup_lt_is_Some_2 (toolCalls (state m)) n) as [tc Hc].
  { rewrite (bo_len _ _ _ Hok). by eapply lookup_lt_Some. }
  destruct (openBlock _ _ _ _ _ _ _ Hok Hb Hc Hr) as (A & B & E & HA & Hl & Hs).
  destruct (blockHead_summary (tc .@ "function")) as [H HH]. rewrite HH in Hl, Hs.
  assert (Hs' : standsAt A (start b) (H ++ summaryEnd)).
  { rewrite <- (app_nil_r A). eapply standsAt_before; [exact Hl|]. rewrite E in Hs. exact Hs. }
  destruct (withToolAccess_shape A (start b) H access Hs') as (A1 & A2 & -> & Hlt & Hw).
  exists A1, A2, B. split_and!; [by rewrite E, <- app_assoc|done|done|].
  intros m' x Hm Hx. unfold _withToolOutcome. cbn [mbind option_bind]. rewrite Hm, Hb. destruct b as [st ra].
  cbn [fmap option_fmap option_map]. simpl in Hr. subst ra. cbn [snd].
  rewrite Hx, E, <- HA, <- (app_assoc (A1 ++ A2)), <- (app_assoc RESULT_PLACEHOLDER), withToolResult_at. apply Hw.
Qed.

(** The text around a block that gets its result: what stands before it stays,
    what stands after it moves by what went in. *)
Lemma around_before A1 acc A2 P result B p t :
  p + length t ≤ length A1 → standsAt (A1 ++ A2 ++ P ++ B) p t → standsAt (A1 ++ acc ++ A2 ++ result ++ B) p t.
Proof. apply standsAt_before. Qed.

Lemma around_after A1 acc A2 P result B p t :
  length (A1 ++ A2 ++ P) ≤ p → standsAt (A1 ++ A2 ++ P ++ B) p t →
  standsAt (A1 ++ acc ++ A2 ++ result ++ B)
    (p + length (A1 ++ acc ++ A2 ++ result ++ B) - length (A1 ++ A2 ++ P ++ B)) t.
Proof.
  intros Hp H. replace (A1 ++ A2 ++ P ++ B) with ((A1 ++ A2 ++ P) ++ B) in H by by rewrite <- !app_assoc.
  pose proof (standsAt_after (A1 ++ A2 ++ P) (A1 ++ acc ++ A2 ++ result) B p t Hp H) as Ha.
  rewrite <- !app_assoc in Ha. rewrite !length_app in *.
  by replace (p + _ - _) with (p + (length A1 + (length acc + (length A2 + length result))) - (length A1 + (length A2 + length P))) by lia.
Qed.

(** The blocks after a result, one by one. *)
Lemma outcome_lookup m n b r result access i (c := content (state m)) (c' := (_withToolOutcome (Some n) result access m).2) :
  _toolBlocks m !! n = Some b → resultAt b = Some r →
  (_withToolOutcome (Some n) result access m).1 !! i =
    (λ o, if bool_decide (i = n) then {| start := start b; resultAt := None |}
          else if start o <? start b then o
          else {| start := start o + length c' - length c; resultAt := (λ p, p + length c' - length c) <$> resultAt o |})
    <$> _toolBlocks m !! i.
Proof.
  intros Hb Hr. subst c c'. unfold _withToolOutcome. cbn [mbind option_bind]. rewrite Hb. destruct b as [st ra]. simpl in Hr. subst ra.
  cbn [fmap option_fmap option_map fst snd]. cbv zeta. by rewrite list_lookup_imap.
Qed.

Lemma outcome_blocks m n b r result access :
  blocksOk (content (state m)) (toolCalls (state m)) (_toolBlocks m) → _toolBlocks m !! n = Some b → resultAt b = Some r →
  blocksOk (_withToolOutcome (Some n) result access m).2 (toolCalls (state m)) (_withToolOutcome (Some n) result access m).1.
Proof.
  intros Hok Hb Hr. pose proof (outcome_lookup m n b r result access) as Hlook. cbv zeta in Hlook.
  destruct (outcome_shape m n b r result access Hok Hb Hr) as (A1 & A2 & B & Ec & HA & Hst & Ec').
  specialize (Ec' m [] eq_refl ltac:(by rewrite app_nil_r)). rewrite app_nil_r in Ec'.
  rewrite Ec, Ec' in Hlook. rewrite Ec'. rewrite Ec in Hok.
  assert (Hlen : length (_withToolOutcome (Some n) result access m).1 = length (_toolBlocks m)).
  { unfold _withToolOutcome. cbn [mbind option_bind]. rewrite Hb. destruct b as [st ra]. simpl in Hr. subst ra.
    cbn [fmap option_fmap option_map fst]. by rewrite length_imap. }
  generalize dependent (_withToolOutcome (Some n) result access m).1. intros bs' Hlook Hlen. clear Ec Ec'.
  set (P := RESULT_PLACEHOLDER) in *. set (acc := accessPart access) in *. clearbody acc.
  set (d p := p + length (A1 ++ acc ++ A2 ++ result ++ B) - length (A1 ++ A2 ++ P ++ B)).
  assert (Hb' : ∀ i o, bs' !! i = Some o →
    (i = n ∧ o = {| start := start b; resultAt := None |}) ∨ (i < n ∧ _toolBlocks m !! i = Some o) ∨
    (n < i ∧ ∃ o', _toolBlocks m !! i = Some o' ∧ o = {| start := d (start o'); resultAt := d <$> resultAt o' |})).
  { intros i o. rewrite Hlook by done. intros (o' & Ho' & ->)%fmap_Some. case_bool_decide as Ei; [by left|right].
    destruct (Nat.lt_total i n) as [Hi|[Hi|Hi]]; [left|done|right].
    - destruct (bo_order _ _ _ Hok i n o' b Hi Ho' Hb) as [Hs _]. destruct (Nat.ltb_spec (start o') (start b)); [done|lia].
    - destruct (bo_order _ _ _ Hok n i b o' Hi Hb Ho') as [Hs _]. destruct (Nat.ltb_spec (start o') (start b)); [lia|]. split; [done|]. by exists o'. }
  assert (Hafter : ∀ i o', n < i → _toolBlocks m !! i = Some o' → length (A1 ++ A2 ++ P) ≤ start o').
  { intros i o' Hi Ho'. destruct (bo_order _ _ _ Hok n i b o' Hi Hb Ho') as [_ Hs]. specialize (Hs r Hr).
    rewrite (app_assoc A1), length_app, HA. exact Hs. }
  destruct Hok as [Hl Hcall Hstart Hopen Horder]. split.
  - by rewrite Hlen.
  - done.
  - intros i o [(-> & ->)|[(Hi & Ho)|(Hi & o' & Ho' & ->)]]%Hb'.
    + cbn [start]. eapply around_before; [simpl; lia|exact (Hstart n b Hb)].
    + destruct (Horder i n o b Hi Ho Hb). eapply around_before; [|exact (Hstart i o Ho)]. simpl. lia.
    + cbn [start]. apply around_after; [exact (Hafter i o' Hi Ho')|exact (Hstart i o' Ho')].
  - intros i o tc q [(-> & ->)|[(Hi & Ho)|(Hi & o' & Ho' & ->)]]%Hb' Hc Hq; [done| |].
    + destruct (Hopen i o tc q Ho Hc Hq) as (H1 & H2 & H3). destruct (Horder i n o b Hi Ho Hb) as [_ Hs]. specialize (Hs q Hq).
      change (length RESULT_PLACEHOLDER) with (length P) in Hs.
      split_and!; [|done|]; (eapply around_before; [|eassumption]); fold P; lia.
    + cbn [start resultAt] in *. apply fmap_Some in Hq as (q' & Hq' & ->).
      destruct (Hopen i o' tc q' Ho' Hc Hq') as (H1 & H2 & H3). pose proof (Hafter i o' Hi Ho') as Ha.
      split_and!; [by apply around_after| |apply around_after; [lia|done]].
      unfold d. rewrite !length_app in Ha. rewrite !length_app. lia.
  - intros i j bi bj Hij Hbi Hbj. apply Hb' in Hbi. apply Hb' in Hbj.
    destruct Hbi as [(-> & ->)|[(Hi & Ho)|(Hi & o' & Ho' & ->)]], Hbj as [(-> & ->)|[(Hj & Hp)|(Hj & p' & Hp' & ->)]];
      try lia; cbn [start resultAt].
    + pose proof (Hafter j p' Hj Hp') as Ha. split; [|done]. unfold d. rewrite !length_app in *. lia.
    + by apply (Horder i n).
    + by apply (Horder i j).
    + pose proof (Hafter j p' Hj Hp') as Ha. destruct (Horder i n bi b Hi Ho Hb) as [H1 H2]. unfold d. rewrite !length_app in *.
      split; [lia|]. intros q Hq. specialize (H2 q Hq). change (length RESULT_PLACEHOLDER) with (length P) in *. lia.
    + pose proof (Hafter i o' Hi Ho') as Ha. pose proof (Hafter j p' Hj Hp') as Ha'. destruct (Horder i j o' p' Hij Ho' Hp') as [H1 H2].
      unfold d. rewrite !length_app in *. split; [lia|]. intros q (q' & Hq' & ->)%fmap_Some. specialize (H2 q' Hq').
      change (length RESULT_PLACEHOLDER) with (length P) in *.
      destruct (lookup_lt_is_Some_2 (toolCalls (state m)) i) as [tc Htc]; [rewrite Hl; by eapply lookup_lt_Some|].
      destruct (Hopen i o' tc q' Ho' Htc Hq') as (_ & H4 & _). lia.
Qed.

Definition placed (m : Manager) : Prop := blocksOk (content (state m)) (toolCalls (state m)) (_toolBlocks m).

(** Only letters are added. *)
Definition grows (m m' : Manager) : Prop :=
  (∃ x, content (state m') = content (state m) ++ x) ∧ toolCalls (state m') = toolCalls (state m) ∧ _toolBlocks m' = _toolBlocks m.

Lemma grows_placed m m' : grows m m' → placed m → placed m'.
Proof. intros ([x Hx] & H1 & H2). unfold placed. rewrite Hx, H1, H2. apply blocksOk_app. Qed.

Lemma grows_refl m : grows m m.
Proof. split; [exists []; by rewrite app_nil_r|done]. Qed.

Lemma grows_trans m1 m2 m3 : grows m1 m2 → grows m2 m3 → grows m1 m3.
Proof.
  intros ([x Hx] & H1 & H2) ([y Hy] & H3 & H4). split; [exists (x ++ y)|split; congruence]. by rewrite Hy, Hx, app_assoc.
Qed.

Lemma grows_drain m : grows m (_drainQueue m).
Proof.
  manager_cases m. unfold _drainQueue. destruct q; simpl.
  - destruct pend; split; try done; exists []; by rewrite app_nil_r.
  - split; [|done]. simpl. eauto.
Qed.

Lemma grows_flush m : grows m (_flushQueue m).
Proof. destruct (flush_state m) as (_ & _ & _ & _ & _ & _ & _ & _ & H1 & H2 & H3 & _). split; [eauto|done]. Qed.

Lemma grows_now patch m :
  (∀ s, content (patch s) = content s ∧ toolCalls (patch s) = toolCalls s) → grows m (setState patch true m).
Proof.
  intros Hp. destruct (Hp (state m)) as [H1 H2]. unfold setState. cbv zeta.
  match goal with |- context [_flushQueue ?x] => set (m1 := x) end.
  destruct (grows_flush m1) as ([x Hx] & H3 & H4). simpl in Hx, H3, H4. split; simpl.
  - exists x. by rewrite Hx, H1.
  - split; [by rewrite H3, H2|done].
Qed.

Lemma grows_fail f m : grows m (_fail f m).
Proof. unfold _fail. destruct (negb _); [apply grows_refl|]. by apply grows_now. Qed.

Lemma grows_finish m : grows m (_finishWhenDrained m).
Proof.
  unfold _finishWhenDrained. cbv zeta. destruct (_charQueue _); [apply (grows_drain (withPending true m))|].
  split; [exists []; by rewrite app_nil_r|done].
Qed.

Lemma grows_stop m : grows m (stop m).
Proof.
  unfold stop. cbv zeta. destruct (abortController m); destruct (isStatus _ _); try (split; [exists []; by rewrite app_nil_r|done]).
  - by apply (grows_now (ended aborted) (withRequest (request m) false true m)).
  - by apply grows_now.
Qed.

Lemma spread_function tc kvs : existsb (λ f, eqs "function" f.1) kvs = false → (∃ fs, tc = VObj fs) →
  spread tc kvs .@ "function" = tc .@ "function" ∧ ∃ fs, spread tc kvs = VObj fs.
Proof. intros Hk [fs ->]. split; [by apply spread_get_ne|apply spread_obj]. Qed.

Lemma resultFields_function data : existsb (λ f, eqs "function" f.1) (resultFields data) = false.
Proof.
  unfold resultFields. cbv zeta. rewrite !existsb_app. simpl.
  repeat match goal with |- context [if ?b then _ else _] => destruct b end; done.
Qed.

Lemma onResult_placed data m : placed m → placed (onResult data m).
Proof.
  intros Hok. unfold onResult. destruct (accessSection _ _) as [access|]; [|done]. cbv zeta.
  set (target := resultTarget _ _ _). assert (Hcalls : ∀ c bs, blocksOk c (toolCalls (state m)) bs →
    blocksOk c (match target with Some i => alter (λ tc, spread tc (resultFields data)) i (toolCalls (state m))
                                | None => toolCalls (state m) end) bs).
  { intros c bs Hc. destruct target as [i|]; [|done]. eapply blocksOk_calls; [by rewrite length_alter| |exact Hc].
    intros n tc'. destruct (decide (n = i)) as [->|Hn].
    - rewrite list_lookup_alter_eq. intros (tc & Htc & ->)%fmap_Some. exists tc. split; [done|].
      apply spread_function; [apply resultFields_function|by eapply bo_call].
    - rewrite list_lookup_alter_ne by done. intros Htc. exists tc'. split_and!; [done..|]. by eapply bo_call. }
  assert (Hout : blocksOk (_withToolOutcome target (resultBlock data) (utf16 access) m).2 (toolCalls (state m))
                   (_withToolOutcome target (resultBlock data) (utf16 access) m).1).
  { destruct target as [n|]; [|done]. destruct (_toolBlocks m !! n) as [[st [r|]]|] eqn:Eb.
    - by eapply outcome_blocks.
    - unfold _withToolOutcome. cbn [mbind option_bind]. by rewrite Eb.
    - unfold _withToolOutcome. cbn [mbind option_bind]. by rewrite Eb. }
  destruct (_withToolOutcome _ _ _ m) as [bs c]. by apply Hcalls.
Qed.

Lemma attachApproval_calls fn kvs calls : existsb (λ f, eqs "function" f.1) kvs = false →
  (∀ n tc, calls !! n = Some tc → ∃ fs, tc = VObj fs) →
  length (attachApproval fn kvs calls) = length calls ∧
  ∀ n tc', attachApproval fn kvs calls !! n = Some tc' →
    ∃ tc, calls !! n = Some tc ∧ tc' .@ "function" = tc .@ "function" ∧ ∃ fs, tc' = VObj fs.
Proof.
  intros Hk. induction calls as [|tc calls IH]; intros Hc; [done|]. cbn [attachApproval]. destruct (_ && _).
  - split; [done|]. intros [|n] tc'; [|intros H; exists tc'; split_and!; [done..|by eapply (Hc (S n))]].
    intros [= <-]. exists tc. split; [done|]. apply spread_function; [done|by apply (Hc 0)].
  - destruct IH as [IH1 IH2]; [intros n tc' H; by apply (Hc (S n))|]. split; [simpl; by rewrite IH1|].
    intros [|n] tc'; [|apply IH2]. intros [= <-]. exists tc. split_and!; [done..|by apply (Hc 0)].
Qed.

Lemma onApproval_placed data m : placed m → placed (onApproval data m).
Proof.
  intros Hok. unfold onApproval, placed. cbv zeta. cbn [setState notify state content toolCalls withPhase withCalls _toolBlocks].
  edestruct (attachApproval_calls (toString (data .@ "function" |? VStr ""))) as [H1 H2]; [| |by eapply blocksOk_calls].
  - reflexivity.
  - by eapply bo_call.
Qed.

Section placing.
Context (parse : text → option value) (stringify : value → text).

Lemma onData_placed data m : placed m → placed (onData stringify data m).1.
Proof.
  intros H. unfold onData. repeat (destruct (truthy _); [|]); try done.
  - by apply onApproval_placed.
  - by apply onFunction_blocks.
  - by apply onResult_placed.
  - eapply grows_placed; [apply grows_fail|done].
Qed.

Lemma onLine_placed l m : placed m → placed (onLine parse stringify l m).1.
Proof.
  intros H. unfold onLine. destruct (negb _); [done|]. case_bool_decide; [eapply grows_placed; [apply grows_finish|done]|].
  destruct (parse _); [by apply onData_placed|done].
Qed.

Lemma onLines_placed ls m : placed m → placed (onLines parse stringify ls m).1.
Proof.
  revert m. induction ls as [|l ls IH]; intros m H; [done|]. cbn [onLines]. pose proof (onLine_placed l m H) as Hl.
  destruct (onLine _ _ l m) as [m' []]; [done|]. by apply IH.
Qed.

Lemma onChunk_placed buffer t m : placed m → placed (onChunk parse stringify buffer t m).
Proof.
  intros H. unfold onChunk. cbv zeta. pose proof (onLines_placed (removelast (splitLines (buffer ++ t))) m H) as Hl.
  destruct (onLines _ _ _ m) as [m' []]; done.
Qed.

Lemma onEnd_placed buffer m : placed m → placed (onEnd buffer m).
Proof.
  intros H. unfold onEnd. case_bool_decide; [|destruct (_ || _)]; (eapply (grows_placed m); [|done]);
    [apply (grows_finish m)|apply (grows_fail _ m)..].
Qed.

Lemma caught_placed err m : placed m → placed (caught err m).
Proof.
  intros H. destruct err; (eapply (grows_placed m); [|done]); [apply (grows_fail _ m)|].
  by apply (grows_now (λ s, withPhase None (ended aborted s)) m).
Qed.

Lemma onResponse_placed r m : placed m → placed (onResponse parse r m).
Proof.
  intros H. destruct r; simpl; [apply (caught_placed (Some _)); exact H| |by apply (caught_placed (Some _))|exact H].
  eapply (grows_placed m); [apply (grows_fail _ m)|done].
Qed.

Lemma step_placed m a m' : placed m → step parse stringify m a = Some m' → placed m'.
Proof.
  intros Hp. destruct a as [sid msg saved| | |r|t| |err].
  - unfold step. destruct (request m); try done. intros [= <-]. unfold startSessionChat. destruct (isStreaming _); [done|].
    apply blocksOk_nil.
  - rewrite step_stop. intros [= <-]. eapply grows_placed; [apply grows_stop|done].
  - rewrite step_tick. destruct (_typewriterTimer m); [|done]. intros [= <-]. eapply grows_placed; [apply grows_drain|done].
  - unfold step. destruct (request m), (signal m); try done. intros [= <-]. by apply onResponse_placed.
  - unfold step. destruct (request m), (signal m); try done. intros [= <-]. by apply onChunk_placed.
  - unfold step. destruct (request m), (signal m); try done. intros [= <-]. by apply onEnd_placed.
  - unfold step. destruct err, (request m), (signal m); try done; intros H; injection H as <-;
      first [apply (caught_placed (Some _) m Hp)|apply (caught_placed None m Hp)].
Qed.

Lemma reachable_placed m : reachable parse stringify m → placed m.
Proof. induction 1 as [|m a m' _ IH Hs]; [apply blocksOk_nil|by eapply step_placed]. Qed.
End placing.

(** ** The typewriter

    [ahead m1 m2]: [m1] is [m2] with more letters shown. *)

Definition letters (m : Manager) : text := content (state m) ++ queued m.

(** The two answers hold the same, shown or not. *)
Record alike (m1 m2 : Manager) : Prop := {
  al_letters : letters m1 = letters m2;
  al_calls : toolCalls (state m1) = toolCalls (state m2);
  al_blocks : _toolBlocks m1 = _toolBlocks m2;
  al_request : request m1 = request m2;
  al_signal : signal m1 = signal m2
}.

Record ahead (m1 m2 : Manager) : Prop := {
  ah_alike : alike m1 m2;
  ah_live1 : live m1;
  ah_live2 : live m2;
  ah_placed : placed m2;
  ah_shown : ∃ shown, _charQueue m2 = shown ++ _charQueue m1 ∧ content (state m1) = content (state m2) ++ concat shown
}.

Lemma letters_flush m : letters (_flushQueue m) = letters m ∧ content (state (_flushQueue m)) = letters m.
Proof.
  destruct (flush_state m) as (_ & _ & _ & Hq & _ & _ & _ & _ & _ & _ & Hc & _). unfold letters, queued.
  by rewrite Hq, Hc, app_nil_r.
Qed.

Lemma letters_drain m : letters (_drainQueue m) = letters m.
Proof.
  destruct (decide (_charQueue m = [])) as [E|E]; [|by apply drain_shows].
  manager_cases m. subst. unfold _drainQueue, letters, queued. by destruct pend.
Qed.

Lemma drain_same m : toolCalls (state (_drainQueue m)) = toolCalls (state m) ∧ _toolBlocks (_drainQueue m) = _toolBlocks m ∧
  request (_drainQueue m) = request m ∧ signal (_drainQueue m) = signal m.
Proof. manager_cases m. unfold _drainQueue. destruct q; [by destruct pend|done]. Qed.

Lemma letters_fail f m : letters (_fail f m) = letters m ∧ (status (state m) = streaming → _charQueue (_fail f m) = []) ∧
  toolCalls (state (_fail f m)) = toolCalls (state m) ∧ _toolBlocks (_fail f m) = _toolBlocks m ∧
  request (_fail f m) = request m ∧ signal (_fail f m) = signal m.
Proof.
  manager_cases m. unfold _fail, isStatus, setState, _flushQueue, letters, queued. simpl. case_bool_decide; [|done].
  destruct q; simpl; rewrite ?app_nil_r; done.
Qed.

Lemma letters_finish m : letters (_finishWhenDrained m) = letters m ∧
  toolCalls (state (_finishWhenDrained m)) = toolCalls (state m) ∧ _toolBlocks (_finishWhenDrained m) = _toolBlocks m ∧
  request (_finishWhenDrained m) = request m ∧ signal (_finishWhenDrained m) = signal m.
Proof. manager_cases m. unfold _finishWhenDrained, _drainQueue, letters, queued. by destruct q. Qed.

Lemma alike_drain m1 m2 : alike m1 m2 → alike (_drainQueue m1) m2.
Proof.
  intros []. destruct (drain_same m1) as (H1 & H2 & H3 & H4). split; [by rewrite letters_drain|congruence..].
Qed.

Lemma drain_live m : live m → live (_drainQueue m).
Proof.
  intros []. manager_cases m. subst. unfold _drainQueue. simpl. destruct q; simpl; [by split|]. split; simpl; rewrite ?last_snoc; auto.
Qed.

Lemma drain_empty m : live m → _charQueue m = [] → _drainQueue m = _stopTypewriter m.
Proof. intros [] E. unfold _drainQueue. rewrite E. cbv zeta. change (pendingDone (_stopTypewriter m)) with (pendingDone m). by rewrite live_pending0. Qed.

Lemma ahead_drain m1 m2 : ahead m1 m2 → ahead (_drainQueue m1) m2.
Proof.
  intros [Ha H1 H2 Hp (shown & Hq & Hc)]. split; [by apply alike_drain|by apply drain_live|done..|].
  destruct (_charQueue m1) as [|x q] eqn:E.
  - exists shown. rewrite drain_empty by done. change (_charQueue (_stopTypewriter m1)) with (_charQueue m1). by rewrite E.
  - unfold _drainQueue. rewrite E.
    cbv zeta. set (batch := Nat.max 1 _). clearbody batch. exists (shown ++ take batch (x :: q)).
    cbn [_charQueue state content notify withQueue withPhase withContent]. split.
    + by rewrite Hq, <- app_assoc, take_drop.
    + by rewrite Hc, concat_app, app_assoc.
Qed.

Lemma ahead_content data m1 m2 : ahead m1 m2 → ahead (onContent data m1) (onContent data m2).
Proof.
  intros [[] H1 H2 Hp (shown & Hq & Hc)]. unfold letters, queued in *. split; [|by apply onContent_live|by apply onContent_live|done|].
  - split; try done. unfold letters, queued. cbn [onContent _startTypewriter withQueue state _charQueue].
    by rewrite !concat_app, !app_assoc, al_letters0.
  - exists shown. cbn [onContent _startTypewriter withQueue state _charQueue]. split; [by rewrite Hq, app_assoc|done].
Qed.

Lemma ahead_approval data m1 m2 : ahead m1 m2 → ahead (onApproval data m1) (onApproval data m2).
Proof.
  intros [[] H1 H2 Hp (shown & Hq & Hc)]. unfold letters, queued in *.
  split; [|apply setState_live; [done|by intros []]|apply setState_live; [done|by intros []]|by apply onApproval_placed|].
  - split; try done. cbn [onApproval setState notify state toolCalls withPhase withCalls]. by rewrite al_calls0.
  - by exists shown.
Qed.

Lemma ahead_function stringify data m1 m2 : ahead m1 m2 → ahead (onFunction stringify data m1) (onFunction stringify data m2).
Proof.
  intros [[] H1 H2 Hp _]. split; [|by apply onFunction_live|by apply onFunction_live|by apply onFunction_blocks|].
  - unfold onFunction. cbv zeta. destruct (letters_flush m1) as [_ E1], (letters_flush m2) as [_ E2].
    destruct (flush_state m1) as (_ & _ & _ & Hq1 & Hs1 & _ & Hr1 & _ & Hb1 & Ht1 & _ & _).
    destruct (flush_state m2) as (_ & _ & _ & Hq2 & Hs2 & _ & Hr2 & _ & Hb2 & Ht2 & _ & _).
    split; unfold letters, queued;
      cbn [setState notify state content toolCalls withPhase withContent withCalls withBlocks _charQueue _toolBlocks request signal];
      rewrite ?E1, ?E2, ?Hq1, ?Hq2, ?Hs1, ?Hs2, ?Hr1, ?Hr2, ?Hb1, ?Hb2, ?Ht1, ?Ht2; congruence.
  - unfold onFunction. cbv zeta. destruct (letters_flush m1) as [_ E1], (letters_flush m2) as [_ E2].
    destruct (flush_state m1) as (_ & _ & _ & Hq1 & _). destruct (flush_state m2) as (_ & _ & _ & Hq2 & _). exists [].
    cbn [setState notify state content withPhase withContent withCalls withBlocks _charQueue].
    rewrite Hq1, Hq2, E1, E2, al_letters0. split; [done|by rewrite app_nil_r].
Qed.

(** A result goes where it goes whatever is shown of the letters after it. *)
Lemma outcome_ahead m1 m2 target result access x :
  placed m2 → _toolBlocks m1 = _toolBlocks m2 → content (state m1) = content (state m2) ++ x →
  (_withToolOutcome target result access m1).1 = (_withToolOutcome target result access m2).1 ∧
  (_withToolOutcome target result access m1).2 = (_withToolOutcome target result access m2).2 ++ x.
Proof.
  intros Hp Hb Hx. destruct target as [n|]; [|done]. destruct (_toolBlocks m2 !! n) as [[st [r|]]|] eqn:Eb.
  - destruct (outcome_shape m2 n _ r result access Hp Eb eq_refl) as (A1 & A2 & B & Ec & _ & _ & Ho).
    pose proof (Ho m1 x Hb Hx) as Ho1. pose proof (Ho m2 [] eq_refl ltac:(by rewrite app_nil_r)) as Ho2. rewrite app_nil_r in Ho2.
    assert (H2 : (_withToolOutcome (Some n) result access m1).2 = (_withToolOutcome (Some n) result access m2).2 ++ x)
      by (rewrite Ho1, Ho2; by rewrite <- !app_assoc).
    split; [|done]. apply list_eq. intros i.
    rewrite (outcome_lookup m1 n _ r result access i) by (rewrite ?Hb; done). rewrite (outcome_lookup m2 n _ r result access i) by done.
    rewrite Hb. destruct (_toolBlocks m2 !! i) as [[so ro]|]; [|done]. cbn [fmap option_fmap option_map start resultAt].
    f_equal. destruct (bool_decide (i = n)); [done|]. destruct (so <? st); [done|]. rewrite H2, Hx, !length_app.
    f_equal; [lia|]. destruct ro; simpl; [|done]. f_equal. lia.
  - unfold _withToolOutcome. cbn [mbind option_bind]. by rewrite Hb, Eb.
  - unfold _withToolOutcome. cbn [mbind option_bind]. by rewrite Hb, Eb.
Qed.

Lemma ahead_result data m1 m2 : ahead m1 m2 → ahead (onResult data m1) (onResult data m2).
Proof.
  intros [Ha H1 H2 Hp (shown & Hq & Hc)]. pose proof (onResult_live data m1 H1) as L1. pose proof (onResult_live data m2 H2) as L2.
  pose proof (onResult_placed data m2 Hp) as P2. split; [|done..|]; destruct Ha as [El Ec Eb Er Es]; clear L1 L2 P2; unfold letters, queued in *.
  - unfold onResult. rewrite Ec. destruct (accessSection _ _) as [access|]; [|done]. cbv zeta.
    set (target := resultTarget _ _ _). destruct (outcome_ahead m1 m2 target (resultBlock data) (utf16 access) _ Hp Eb Hc) as [O1 O2].
    destruct (_withToolOutcome _ _ _ m1) as [b1 c1], (_withToolOutcome _ _ _ m2) as [b2 c2]. simpl in O1, O2. subst b1 c1.
    split; try done. unfold letters, queued.
    cbn [setState notify state content withPhase withContent withCalls withBlocks _charQueue].
    by rewrite Hq, concat_app, <- app_assoc.
  - unfold onResult. rewrite Ec. destruct (accessSection _ _) as [access|]; [|by exists shown]. cbv zeta.
    set (target := resultTarget _ _ _). destruct (outcome_ahead m1 m2 target (resultBlock data) (utf16 access) _ Hp Eb Hc) as [O1 O2].
    destruct (_withToolOutcome _ _ _ m1) as [b1 c1], (_withToolOutcome _ _ _ m2) as [b2 c2]. simpl in O1, O2. subst b1 c1.
    by exists shown.
Qed.

Lemma alike_fail f m1 m2 : alike m1 m2 → alike (_fail f m1) (_fail f m2).
Proof.
  intros []. destruct (letters_fail f m1) as (? & _ & ? & ? & ? & ?), (letters_fail f m2) as (? & _ & ? & ? & ? & ?). split; congruence.
Qed.

Lemma alike_finish m1 m2 : alike m1 m2 → alike (_finishWhenDrained m1) (_finishWhenDrained m2).
Proof.
  intros []. destruct (letters_finish m1) as (? & ? & ? & ? & ?), (letters_finish m2) as (? & ? & ? & ? & ?). split; congruence.
Qed.

(** What a part of the loop gives two managers one of which shows more. *)
Definition aheadAfter (r1 r2 : Manager * bool) : Prop :=
  r1.2 = r2.2 ∧ if r1.2 then alike r1.1 r2.1 else ahead r1.1 r2.1.

Definition isChunk (a : action) : bool := match a with Chunk _ => true | _ => false end.

Section typewriter.
Context (parse : text → option value) (stringify : value → text).

Lemma ahead_data data m1 m2 : ahead m1 m2 → aheadAfter (onData stringify data m1) (onData stringify data m2).
Proof.
  intros H. unfold onData. repeat (destruct (truthy _); [|]); (split; [done|]); simpl; try done.
  - by apply ahead_content.
  - by apply ahead_approval.
  - by apply ahead_function.
  - by apply ahead_result.
  - apply alike_fail, H.
Qed.

Lemma ahead_line l m1 m2 : ahead m1 m2 → aheadAfter (onLine parse stringify l m1) (onLine parse stringify l m2).
Proof.
  intros H. unfold onLine. destruct (negb _); [by split|]. case_bool_decide.
  - split; [done|]. apply alike_finish, H.
  - destruct (parse _); [by apply ahead_data|by split].
Qed.

Lemma ahead_lines ls m1 m2 : ahead m1 m2 → aheadAfter (onLines parse stringify ls m1) (onLines parse stringify ls m2).
Proof.
  revert m1 m2. induction ls as [|l ls IH]; intros m1 m2 H; [by split|]. cbn [onLines].
  destruct (ahead_line l m1 m2 H) as [E Ha]. destruct (onLine _ _ l m1) as [m1' r1], (onLine _ _ l m2) as [m2' r2].
  simpl in E, Ha. subst r2. destruct r1; [by split|by apply IH].
Qed.

(** Either the body is read further, or both are over. *)
Definition related (m1 m2 : Manager) : Prop :=
  (ahead m1 m2 ∧ ∃ b, request m1 = Reading b) ∨ (alike m1 m2 ∧ request m1 = NoRequest).

Lemma related_chunk buffer t m1 m2 : ahead m1 m2 →
  related (onChunk parse stringify buffer t m1) (onChunk parse stringify buffer t m2).
Proof.
  intros H. unfold onChunk. cbv zeta. destruct (ahead_lines (removelast (splitLines (buffer ++ t))) m1 m2 H) as [E Ha].
  destruct (onLines _ _ _ m1) as [m1' r1], (onLines _ _ _ m2) as [m2' r2]. simpl in E, Ha. subst r2. destruct r1.
  - right. split; [|done]. destruct Ha. by split.
  - left. split; [|eauto]. destruct Ha as [[] [] [] Hp Hs]. by split.
Qed.

Lemma steps_related acts m1 m2 m1' : related m1 m2 → Forall (λ a, a = Tick ∨ ∃ t, a = Chunk t) acts →
  steps parse stringify m1 acts = Some m1' →
  ∃ m2', steps parse stringify m2 (filterb isChunk acts) = Some m2' ∧ related m1' m2'.
Proof.
  intros Hr Ha. revert m1 m2 Hr. induction Ha as [|a acts Ha _ IH]; intros m1 m2 Hr; [intros [= <-]; by exists m2|].
  cbn [steps]. destruct (step _ _ m1 a) as [m1n|] eqn:E; [|done]. intros Hrun. destruct Ha as [->|[t ->]].
  - change (filterb isChunk (Tick :: acts)) with (filterb isChunk acts). eapply IH; [|exact Hrun]. rewrite step_tick in E.
    destruct (_typewriterTimer m1); [|done]. injection E as <-. destruct (drain_same m1) as (_ & _ & Hq & _).
    destruct Hr as [[H [b Hb]]|[H Hb]]; [left|right]; rewrite Hq; split; eauto; [by apply ahead_drain|by apply alike_drain].
  - change (filterb isChunk (Chunk t :: acts)) with (Chunk t :: filterb isChunk acts). cbn [steps].
    destruct Hr as [[H [b Hb]]|[H Hb]]; [|unfold step in E; by rewrite Hb in E].
    assert (Hs1 := live_signal _ (ah_live1 _ _ H)). assert (Hs2 := live_signal _ (ah_live2 _ _ H)).
    assert (Hb2 : request m2 = Reading b) by (rewrite <- Hb; symmetry; apply al_request, H).
    unfold step in E |- *. rewrite Hb, Hs1 in E. injection E as <-. rewrite Hb2, Hs2. cbn [mbind option_bind].
    eapply IH; [|exact Hrun]. by apply related_chunk.
Qed.
End typewriter.

(** ** A result is one code block *)

Lemma longestRun_ge l c t : Nat.max l c ≤ longestRun l c t.
Proof.
  revert l c. induction t as [|x t IH]; intros l c; cbn [longestRun]; [lia|].
  destruct (x =? backtick)%N; [specialize (IH l (S c))|specialize (IH (l `max` c) 0)]; lia.
Qed.

Lemma longestRun_app l c A X : ∃ l' c', longestRun l c (A ++ X) = longestRun l' c' X.
Proof. revert l c. induction A as [|a A IH]; intros l c; [eauto|]. cbn [app longestRun]. destruct (a =? backtick)%N; apply IH. Qed.

Lemma longestRun_run l c A m B : m ≤ longestRun l c (A ++ replicate m backtick ++ B).
Proof.
  destruct (longestRun_app l c A (replicate m backtick ++ B)) as (l' & c' & ->). revert c'.
  assert (H : ∀ c, c + m ≤ longestRun l' c (replicate m backtick ++ B)); [|intros c'; specialize (H c'); lia].
  induction m as [|m IH]; intros c0; cbn [replicate app].
  - pose proof (longestRun_ge l' c0 B). lia.
  - cbn [longestRun]. rewrite N.eqb_refl. specialize (IH (S c0)). lia.
Qed.

Lemma splitLines_in body line : line ∈ splitLines body → ∃ A B, body = A ++ line ++ B.
Proof.
  assert (Hgen : ∀ t, (∃ l ls, splitLines t = l :: ls ∧ ∃ B, t = l ++ B) ∧ ∀ x, x ∈ splitLines t → ∃ A B, t = A ++ x ++ B).
  { induction t as [|c t [(l & ls & E & B & Ht) IH]].
    - split; [exists [], []; split; [done|by exists []]|]. intros x ->%list_elem_of_singleton. by exists [], [].
    - cbn [splitLines]. destruct (c =? newline)%N.
      + split; [eexists _, _; split; [done|by exists (c :: t)]|]. intros x [->|Hx]%elem_of_cons; [by exists [], (c :: t)|].
        destruct (IH x Hx) as (A & D & ->). by exists (c :: A), D.
      + rewrite E in IH |- *. split; [eexists _, _; split; [done|]; exists B; by rewrite Ht|].
        intros x [->|Hx]%elem_of_cons; [exists [], B; by rewrite Ht|].
        destruct (IH x) as (A & D & ->); [by right|]. by exists (c :: A), D. }
  apply Hgen.
Qed.

(** No line of a text closes the fence around it. *)
Lemma codeFence_longer body line : line ∈ splitLines body → closes backtick (length (codeFence body)) line = false.
Proof.
  intros (A & B & ->)%splitLines_in. unfold codeFence, closes, FENCE_CLOSE. rewrite length_replicate.
  destruct (run 32 line) as [k r] eqn:Ek. apply run_spec in Ek as [-> _]. destruct (3 <? k); [done|].
  destruct (run backtick r) as [b s] eqn:Eb. apply run_spec in Eb as [-> _]. cbv zeta.
  destruct (3 <=? b).
  - destruct (forallb _ s); [|done]. rewrite N.eqb_refl. cbn [andb]. apply Nat.leb_gt.
    rewrite <- !app_assoc, (app_assoc A). pose proof (longestRun_run 2 0 (A ++ replicate k 32%N) b (s ++ B)). lia.
  - destruct (run tilde _) as [m s']. by destruct (_ && _).
Qed.

Lemma lineEnd_stands A l B : newline ∉ l → lineEnd (A ++ l ++ newline :: B) (length A) = length A + length l ∧
  slice (A ++ l ++ newline :: B) (length A) (length A + length l) = l.
Proof.
  intros Hl. unfold lineEnd, slice. rewrite drop_app_length. split.
  - assert (indexOfChar newline (l ++ newline :: B) = Some (length l)) as ->; [|done].
    induction l as [|c l IH]; [done|]. apply not_elem_of_cons in Hl as [Hc Hl]. cbn [app indexOfChar].
    destruct (N.eqb_spec c newline) as [->|]; [done|]. by rewrite IH.
  - replace (length A + length l - length A) with (length l) by lia. apply take_app_length.
Qed.

Lemma splitLines_cases body :
  (newline ∉ body ∧ splitLines body = [body]) ∨
  ∃ l body', newline ∉ l ∧ body = l ++ newline :: body' ∧ splitLines body = l :: splitLines body'.
Proof.
  induction body as [|c body IH]; [left; split; [apply not_elem_of_nil|done]|]. cbn [splitLines].
  destruct (N.eqb_spec c newline) as [->|Hc]; [right; exists [], body; split_and!; [apply not_elem_of_nil|done..]|].
  destruct IH as [[Hn ->]|(l & body' & Hn & -> & ->)].
  - left. split; [by apply not_elem_of_cons|done].
  - right. exists (c :: l), body'. split_and!; [by apply not_elem_of_cons|done..].
Qed.

Lemma closeFrom_line fuel A l B mark n : newline ∉ l →
  closeFrom (S fuel) (A ++ l ++ newline :: B) (length A) mark n =
    if closes mark n l then Some (length A + length l + 1)
    else closeFrom fuel (A ++ l ++ newline :: B) (length A + length l + 1) mark n.
Proof.
  intros Hl. cbn [closeFrom]. destruct (lineEnd_stands A l B Hl) as [E1 E2]. cbv zeta. rewrite E1, E2.
  assert (Hlen : length (A ++ l ++ newline :: B) = length A + length l + 1 + length B) by (rewrite !length_app; simpl; lia).
  rewrite Hlen. destruct (Nat.ltb_spec (length A + length l + 1 + length B) (length A)); [lia|].
  replace (S (length A + length l)) with (length A + length l + 1) by lia. destruct (closes mark n l); [|done]. f_equal. lia.
Qed.

Lemma closeFrom_hit fuel A body mark n f B :
  newline ∉ f → closes mark n f = true → (∀ l, l ∈ splitLines body → closes mark n l = false) → length (splitLines body) < fuel →
  closeFrom fuel (A ++ body ++ newline :: f ++ newline :: B) (length A) mark n = Some (length A + length body + length f + 2).
Proof.
  intros Hf Hcf. revert A body. induction fuel as [|fuel IH]; intros A body Hc Hfuel; [lia|].
  destruct (splitLines_cases body) as [[Hn E]|(l & body' & Hn & -> & E)]; rewrite E in Hc, Hfuel.
  - rewrite closeFrom_line, Hc by (done || left). destruct fuel as [|fuel]; [simpl in Hfuel; lia|].
    replace (A ++ body ++ newline :: f ++ newline :: B) with ((A ++ body ++ [newline]) ++ f ++ newline :: B) by by rewrite <- !app_assoc.
    replace (length A + length body + 1) with (length (A ++ body ++ [newline])) by (rewrite !length_app; simpl; lia).
    rewrite closeFrom_line, Hcf by done. f_equal. rewrite !length_app. simpl. lia.
  - rewrite <- app_assoc. cbn [app]. rewrite closeFrom_line, Hc by (done || left).
    replace (A ++ l ++ newline :: body' ++ newline :: f ++ newline :: B) with
      ((A ++ l ++ [newline]) ++ body' ++ newline :: f ++ newline :: B) by by rewrite <- !app_assoc.
    replace (length A + length l + 1) with (length (A ++ l ++ [newline])) by (rewrite !length_app; simpl; lia).
    rewrite IH; [|intros x Hx; apply Hc; by right|simpl in Hfuel; lia]. f_equal. rewrite !length_app. simpl. lia.
Qed.

Lemma codeFence_spec body : 3 ≤ length (codeFence body) ∧ newline ∉ codeFence body ∧
  codeFence body = replicate (length (codeFence body)) backtick.
Proof.
  unfold codeFence. rewrite length_replicate. pose proof (longestRun_ge 2 0 body). split_and!; [lia| |done].
  intros [Hx _]%elem_of_replicate. done.
Qed.

Lemma FENCE_OPEN_run n lang : 3 ≤ n → backtick ∉ lang → FENCE_OPEN (replicate n backtick ++ lang) = Some (backtick, n).
Proof.
  intros Hn Hl. unfold FENCE_OPEN. assert (run 32 (replicate n backtick ++ lang) = (0, replicate n backtick ++ lang)) as ->.
  { destruct n; [lia|done]. }
  rewrite run_app.
  - change (3 <? 0) with false. cbv iota. rewrite (proj2 (Nat.leb_le 3 n) Hn). assert (existsb (N.eqb backtick) lang = false) as ->; [|done].
    apply not_true_iff_false. intros (x & Hx & E)%existsb_exists. apply N.eqb_eq in E as <-. by apply list_elem_of_In in Hx.
  - intros Hh. destruct lang; [done|]. injection Hh as ->. apply Hl. left.
Qed.

Lemma length_splitLines t : length (splitLines t) ≤ S (length t).
Proof.
  induction t as [|c t IH]; [done|]. cbn [splitLines]. destruct (c =? newline)%N; simpl in *; [lia|].
  destruct (splitLines t); simpl in *; lia.
Qed.

(** A fenced body is a code block of its own, to the end of its closing line. *)
Lemma fenced_block lang body B : backtick ∉ lang → newline ∉ lang →
  (fenceEnd ((codeFence body ++ lang ++ newline :: body ++ newline :: codeFence body) ++ newline :: B) ∅ 0).2 =
    Some (S (length (codeFence body ++ lang ++ newline :: body ++ newline :: codeFence body))).
Proof.
  intros Hb Hn. destruct (codeFence_spec body) as (H3 & Hf & Hr). set (f := codeFence body) in *.
  assert (Hl : newline ∉ f ++ lang) by (rewrite elem_of_app; naive_solver).
  assert (Hclose : closes backtick (length f) f = true).
  { rewrite Hr at 2. apply (written_closes backtick (length f) 0); [done|by left|lia]. }
  replace ((f ++ lang ++ newline :: body ++ newline :: f) ++ newline :: B) with
    ([] ++ (f ++ lang) ++ newline :: body ++ newline :: f ++ newline :: B)
    by (rewrite <- !app_assoc; simpl; rewrite <- !app_assoc; done).
  destruct (lineEnd_stands [] (f ++ lang) (body ++ newline :: f ++ newline :: B) Hl) as [E1 E2].
  change (fenceEnd ?t ∅ 0) with (fenceEnd t ∅ (length (@nil N))). unfold fenceEnd. rewrite E1, E2. rewrite Hr at 1. rewrite FENCE_OPEN_run by done. rewrite lookup_empty.
  replace ([] ++ (f ++ lang) ++ newline :: body ++ newline :: f ++ newline :: B) with
    ((f ++ lang ++ [newline]) ++ body ++ newline :: f ++ newline :: B) by (rewrite <- !app_assoc; done).
  replace (S (length [] + length (f ++ lang))) with (length (f ++ lang ++ [newline])) by (rewrite !length_app; simpl; lia).
  rewrite closeFrom_hit; [cbn [snd]; f_equal; rewrite !length_app; simpl; rewrite ?length_app; simpl; lia|done|done| |].
  - intros l. apply codeFence_longer.
  - pose proof (length_splitLines body). rewrite !length_app. simpl. rewrite !length_app. simpl. lia.
Qed.

(** ** Properties *)

Section properties.
Context (parse : text → option value) (stringify : value → text).

(** C6. A result goes into the block of its own call: when the event of a call
    that waits comes, its placeholder - and nothing else - gives way to the
    result's code block, and the access line goes in between the start of the
    block and it; every other letter of the answer stays, in order. *)
Theorem result_in_its_block m data n b r access :
  reachable parse stringify m →
  resultTarget (toolCalls (state m)) (toString (data .@ "function_result")) (data .@ "call_id") = Some n →
  accessSection (data .@ "access") (data .@ "requests") = Some access →
  _toolBlocks m !! n = Some b → resultAt b = Some r →
  ∃ A1 A2 B, content (state m) = A1 ++ A2 ++ RESULT_PLACEHOLDER ++ B ∧ length (A1 ++ A2) = r ∧ start b < length A1 ∧
    (∃ tc, toolCalls (state m) !! n = Some tc ∧ standsAt (content (state m)) (start b) (blockHead (tc .@ "function"))) ∧
    content (state (onResult data m)) = A1 ++ accessPart (utf16 access) ++ A2 ++ resultBlock data ++ B.
Proof.
  intros Hm Ht Ha Hb Hr. pose proof (reachable_placed _ _ _ Hm) as Hp.
  destruct (outcome_shape m n b r (resultBlock data) (utf16 access) Hp Hb Hr) as (A1 & A2 & B & Ec & Hl & Hs & Ho).
  exists A1, A2, B. split_and!; try done.
  - destruct (lookup_lt_is_Some_2 (toolCalls (state m)) n) as [tc Hc].
    { rewrite (bo_len _ _ _ Hp). by eapply lookup_lt_Some. }
    exists tc. split; [done|]. by apply (bo_open _ _ _ Hp n b tc r).
  - unfold onResult. rewrite Ht, Ha. cbv zeta. specialize (Ho m [] eq_refl ltac:(by rewrite app_nil_r)). rewrite app_nil_r in Ho.
    destruct (_withToolOutcome _ _ _ m) as [bs c]. exact Ho.
Qed.

(** The answer does not depend on how the network cuts its body: pieces read
    one by one leave the manager exactly as their text read at once. *)
Theorem body_cut_anywhere m b t ts :
  reachable parse stringify m → request m = Reading b → signal m = false →
  foldl (piece parse stringify) m (t :: ts) = piece parse stringify m (concat (t :: ts)).
Proof. intros Hm Hb Hs. apply (pieces_once parse stringify m b); [|done]. apply ok_live; [by eapply reachable_manager_ok|by rewrite Hb|done]. Qed.

(** C7. The typewriter changes nothing but when letters are seen: however its
    ticks fall between the pieces of the body, the answer - shown or still to
    show -, its tool calls and its blocks come out the same as without a tick. *)
Theorem typewriter_invisible m b acts m1 :
  reachable parse stringify m → request m = Reading b → signal m = false →
  Forall (λ a, a = Tick ∨ ∃ t, a = Chunk t) acts → steps parse stringify m acts = Some m1 →
  ∃ m2, steps parse stringify m (filterb isChunk acts) = Some m2 ∧ alike m1 m2.
Proof.
  intros Hm Hb Hs Ha Hrun. assert (Hl : live m) by (apply ok_live; [by eapply reachable_manager_ok|by rewrite Hb|done]).
  assert (Hr : related m m).
  { left. split; [|eauto]. split; [done..|by eapply reachable_placed|]. exists []. by rewrite app_nil_r. }
  destruct (steps_related parse stringify acts m m m1 Hr Ha Hrun) as (m2 & H2 & H). exists m2. split; [done|].
  destruct H as [[H _]|[H _]]; [apply H|done].
Qed.

(** C8. An answer never stays "streaming" with nothing to come: once its request is
    over, at most one tick for each letter still to show, and one more, leave it
    completed with every letter in its content. *)
Theorem answer_completes m :
  reachable parse stringify m → status (state m) = streaming → request m = NoRequest →
  ∃ k m', k ≤ S (length (_charQueue m)) ∧ steps parse stringify m (replicate k Tick) = Some m' ∧
    status (state m') = completed ∧ content (state m') = content (state m) ++ queued m.
Proof.
  intros Hm Hs Hr. destruct (reachable_manager_ok _ _ _ Hm) as [_ _ Hp _ Ha _ _ _]. pose proof (Ha Hs Hr) as Hpend.
  destruct (Hp Hpend) as (_ & _ & Ht). by apply drains.
Qed.

(** A stopped answer stays stopped: the letters that had come are all shown,
    and whatever happens until the next question, its status, its text and its
    tool calls do not change. *)
Theorem stopped_answer_stays m acts m' :
  reachable parse stringify m → status (state m) = streaming →
  Forall (λ a, match a with Start _ _ _ => False | _ => True end) acts → steps parse stringify (stop m) acts = Some m' →
  status (state m') = aborted ∧ content (state m') = content (state m) ++ queued m ∧ toolCalls (state m') = toolCalls (state m).
Proof.
  intros Hm Hs Ha Hrun. destruct (steps_stopped parse stringify _ _ acts (stop m) m' Ha (stop_stops m (reachable_manager_ok _ _ _ Hm) Hs) Hrun)
    as (? & ? & ? & _). done.
Qed.
End properties.

(** A tool's result cannot break out of its code block: whatever it holds, the
    block that opens at its fence ends exactly after its own closing line. *)
Theorem result_is_one_code_block data rest :
  (fenceEnd (resultBlock data ++ newline :: rest) ∅ 0).2 = Some (S (length (resultBlock data))).
Proof.
  unfold resultBlock. cbv zeta. apply fenced_block.
  - destruct (if truthy _ then _ else _); [|apply not_elem_of_nil]. destruct (truthy _); [by_decide|].
    destruct (truthy _); [by_decide|apply not_elem_of_nil].
  - destruct (if truthy _ then _ else _); [|apply not_elem_of_nil]. destruct (truthy _); [by_decide|].
    destruct (truthy _); [by_decide|apply not_elem_of_nil].
Qed.

(** ** Witnesses

    A server that says little: a letter event, a call and its result. *)

Definition sampleParse (t : text) : option value :=
  if bool_decide (t = utf16 "letters") then Some (VObj [("content", VStr "Hi 🔧")])
  else if bool_decide (t = utf16 "call") then Some (VObj [("function", VStr "get_pods"); ("call_id", VNum 1)])
  else if bool_decide (t = utf16 "result") then
    Some (VObj [("function_result", VStr "get_pods"); ("call_id", VNum 1); ("result", VStr "ok")])
  else None.

Definition sampleStringify (v : value) : text := [].

Lemma reachable_steps parse stringify acts m m' :
  reachable parse stringify m → steps parse stringify m acts = Some m' → reachable parse stringify m'.
Proof.
  revert m. induction acts as [|a acts IH]; intros m Hm; [by intros [= <-]|]. cbn [steps].
  destruct (step _ _ m a) as [m1|] eqn:E; [|done]. apply IH. by econstructor.
Qed.

(** The manager after some steps from its construction. *)
Definition after (acts : list action) : Manager := default newManager (steps sampleParse sampleStringify newManager acts).

Lemma after_reachable acts : reachable sampleParse sampleStringify (after acts).
Proof.
  unfold after. destruct (steps _ _ newManager acts) as [m|] eqn:E; [|constructor]. eapply reachable_steps; [constructor|exact E].
Qed.

Definition asked : list action := [Start "s" (utf16 "why?") 0; Answer Body].
Definition callLine : text := utf16 "data: call
".
Definition lettersLine : text := utf16 "data: letters
".
Definition doneLine : text := utf16 "data: [DONE]
".
Definition sampleResult : value := VObj [("function_result", VStr "get_pods"); ("call_id", VNum 1); ("result", VStr "ok")].
Definition sampleCalled : Manager := after (asked ++ [Chunk callLine]).

Lemma result_in_its_block_witness :
  ∃ A1 A2 B, content (state (onResult sampleResult sampleCalled)) = A1 ++ accessPart (utf16 "") ++ A2 ++ resultBlock sampleResult ++ B.
Proof.
  destruct (result_in_its_block sampleParse sampleStringify sampleCalled sampleResult 0 {| start := 0; resultAt := Some 169 |} 169 "")
    as (A1 & A2 & B & _ & _ & _ & _ & H).
  - apply after_reachable.
  - vm_compute. reflexivity.
  - vm_compute. reflexivity.
  - vm_compute. reflexivity.
  - reflexivity.
  - exists A1, A2, B. exact H.
Defined.

Lemma body_cut_anywhere_witness :
  foldl (piece sampleParse sampleStringify) (after asked) [utf16 "da"; utf16 "ta: letters
data"; utf16 ": call
"] = piece sampleParse sampleStringify (after asked) (lettersLine ++ callLine).
Proof.
  apply (body_cut_anywhere sampleParse sampleStringify (after asked) [] (utf16 "da") [utf16 "ta: letters
data"; utf16 ": call
"]).
  - apply after_reachable.
  - vm_compute. reflexivity.
  - vm_compute. reflexivity.
Defined.

Lemma typewriter_invisible_witness :
  ∃ m2, steps sampleParse sampleStringify (after asked) [Chunk lettersLine; Chunk callLine] = Some m2 ∧
    alike (after (asked ++ [Chunk lettersLine; Tick; Tick; Chunk callLine])) m2.
Proof.
  apply (typewriter_invisible sampleParse sampleStringify (after asked) [] [Chunk lettersLine; Tick; Tick; Chunk callLine]).
  - apply after_reachable.
  - vm_compute. reflexivity.
  - vm_compute. reflexivity.
  - repeat (apply Forall_cons; split; [first [by left|right; by eexists]|]). apply Forall_nil_2.
  - vm_compute. reflexivity.
Defined.

Lemma answer_completes_witness :
  ∃ k m', k ≤ 5 ∧ steps sampleParse sampleStringify (after (asked ++ [Chunk (lettersLine ++ doneLine)])) (replicate k Tick) = Some m' ∧
    status (state m') = completed ∧ content (state m') = utf16 "Hi 🔧".
Proof.
  apply (answer_completes sampleParse sampleStringify (after (asked ++ [Chunk (lettersLine ++ doneLine)]))).
  - apply after_reachable.
  - vm_compute. reflexivity.
  - vm_compute. reflexivity.
Defined.

Lemma stopped_answer_stays_witness :
  status (state (after (asked ++ [Chunk lettersLine; Stop; Throw None]))) = aborted ∧
  content (state (after (asked ++ [Chunk lettersLine; Stop; Throw None]))) = utf16 "Hi 🔧".
Proof.
  destruct (stopped_answer_stays sampleParse sampleStringify (after (asked ++ [Chunk lettersLine])) [Throw None]
    (after (asked ++ [Chunk lettersLine; Stop; Throw None]))) as (H1 & H2 & _).
  - apply after_reachable.
  - vm_compute. reflexivity.
  - apply Forall_cons. split; [exact I|apply Forall_nil_2].
  - vm_compute. reflexivity.
  - split; [exact H1|exact H2].
Defined.
