(* ===== verification/Auth.v ===== *)
(** * The sign-in session: services/auth.ts

    What the browser remembers of being signed in, the notice of a session that
    ended, the one reaction to a 401, and the refresh loop that keeps the session
    of an active tab.  A [Browser] is the module's variables and the storage it
    reads and writes; storage that is switched off throws, and every function
    catches it.  Times are milliseconds.  The theorems show when the notice is
    shown, that a page signs out once however many requests are refused, and
    when the session is refreshed. *)

From stdpp Require Import sorting.
From S2P Require Import Prelude JsString.

(** [signedIn] is the mark of localStorage, [ended], [redirect] and
    [floatingChat] are kept in sessionStorage; [logouts], [refreshes] and
    [navigations] are the requests sent and the pages asked for. *)
Record Browser := {
  localOn : bool; sessionOn : bool;
  signedIn : bool; ended : bool; redirect : option string; floatingChat : option string;
  pathname : string; search : string;
  handlingUnauthorized : bool; refreshInFlight : bool;
  logouts : nat; refreshes : nat; navigations : list string
}.

Definition withMarks (mark note : bool) (b : Browser) : Browser :=
  {| localOn := localOn b; sessionOn := sessionOn b; signedIn := mark; ended := note; redirect := redirect b;
     floatingChat := floatingChat b; pathname := pathname b; search := search b;
     handlingUnauthorized := handlingUnauthorized b; refreshInFlight := refreshInFlight b;
     logouts := logouts b; refreshes := refreshes b; navigations := navigations b |}.

Definition markSignedIn (b : Browser) : Browser :=
  if localOn b then withMarks true (ended b) b else b.

(** The mark is taken before the notice is set: without sessionStorage it is
    taken all the same. *)
Definition noteSessionEnded (b : Browser) : Browser :=
  if negb (localOn b) then b
  else if negb (signedIn b) then b
  else withMarks false (if sessionOn b then true else ended b) b.

Definition sessionEndedNotice (b : Browser) : bool := sessionOn b && ended b.

Definition clearSessionEndedNotice (b : Browser) : Browser :=
  if sessionOn b then withMarks (signedIn b) false b else b.

(** The request is sent whatever the storage does. *)
Definition logoutSession (b : Browser) : Browser :=
  {| localOn := localOn b; sessionOn := sessionOn b; signedIn := if localOn b then false else signedIn b; ended := ended b;
     redirect := redirect b; floatingChat := if sessionOn b then None else floatingChat b; pathname := pathname b;
     search := search b; handlingUnauthorized := handlingUnauthorized b; refreshInFlight := refreshInFlight b;
     logouts := S (logouts b); refreshes := refreshes b; navigations := navigations b |}.

Definition getRedirectAfterLogin (b : Browser) : option string :=
  if sessionOn b then
    let value := trim (default "" (redirect b)) in if nonempty value then Some value else None
  else None.

Definition withRedirect (r : option string) (b : Browser) : Browser :=
  {| localOn := localOn b; sessionOn := sessionOn b; signedIn := signedIn b; ended := ended b;
     redirect := if sessionOn b then r else redirect b; floatingChat := floatingChat b; pathname := pathname b;
     search := search b; handlingUnauthorized := handlingUnauthorized b; refreshInFlight := refreshInFlight b;
     logouts := logouts b; refreshes := refreshes b; navigations := navigations b |}.

Definition clearRedirectAfterLogin (b : Browser) : Browser := withRedirect None b.

Definition handleUnauthorized (b : Browser) : Browser :=
  if eqs (pathname b) "/login" then b
  else if handlingUnauthorized b then b
  else
    let b := {| localOn := localOn b; sessionOn := sessionOn b; signedIn := signedIn b; ended := ended b; redirect := redirect b;
                floatingChat := floatingChat b; pathname := pathname b; search := search b; handlingUnauthorized := true;
                refreshInFlight := refreshInFlight b; logouts := logouts b; refreshes := refreshes b; navigations := navigations b |} in
    let b := logoutSession (noteSessionEnded b) in
    let b := withRedirect (Some (pathname b +:+ search b)) b in
    {| localOn := localOn b; sessionOn := sessionOn b; signedIn := signedIn b; ended := ended b; redirect := redirect b;
       floatingChat := floatingChat b; pathname := pathname b; search := search b; handlingUnauthorized := handlingUnauthorized b;
       refreshInFlight := refreshInFlight b; logouts := logouts b; refreshes := refreshes b;
       navigations := navigations b ++ ["/login"] |}.

Definition withRefresh (flight : bool) (sent : nat) (b : Browser) : Browser :=
  {| localOn := localOn b; sessionOn := sessionOn b; signedIn := signedIn b; ended := ended b; redirect := redirect b;
     floatingChat := floatingChat b; pathname := pathname b; search := search b;
     handlingUnauthorized := handlingUnauthorized b; refreshInFlight := flight;
     logouts := logouts b; refreshes := sent; navigations := navigations b |}.

(** [refreshSession], and its request's answer ([None] is a network failure). *)
Definition refreshSession (b : Browser) : Browser :=
  if refreshInFlight b then b else withRefresh true (S (refreshes b)) b.

Definition refreshSettled (httpStatus : option Z) (b : Browser) : Browser :=
  let b := if bool_decide (httpStatus = Some 401%Z) then handleUnauthorized b else b in
  withRefresh false (refreshes b) b.

Definition SESSION_END_REPEAT_MS : Z := 60 * 1000.

(** [me] is what GET /auth/me answers when it is asked; the boolean is whether the
    connection may reopen. *)
Definition liveSessionEnded (now lastEnd : Z) (me : option Z) (b : Browser) : Browser * bool :=
  if (SESSION_END_REPEAT_MS <=? now - lastEnd)%Z && negb (bool_decide (me = Some 401%Z)) then (b, true)
  else (handleUnauthorized b, false).

(** ** What happens to a tab *)

Inductive event :=
  | SignedIn | SessionLost | Refused401 | SignOut | NoticeSeen | RedirectSeen
  | Refresh | RefreshAnswered (httpStatus : option Z)
  | LiveEnded (now lastEnd : Z) (me : option Z)
  | Loaded (path query : string).

#[export] Instance event_dec : EqDecision event.
Proof. solve_decision. Defined.

(** A page loaded: the module's variables start again. *)
Definition loaded (path query : string) (b : Browser) : Browser :=
  {| localOn := localOn b; sessionOn := sessionOn b; signedIn := signedIn b; ended := ended b; redirect := redirect b;
     floatingChat := floatingChat b; pathname := path; search := query; handlingUnauthorized := false;
     refreshInFlight := false; logouts := logouts b; refreshes := refreshes b; navigations := navigations b |}.

Definition happen (b : Browser) (e : event) : Browser :=
  match e with
  | SignedIn => markSignedIn b
  | SessionLost => noteSessionEnded b
  | Refused401 => handleUnauthorized b
  | SignOut => logoutSession b
  | NoticeSeen => clearSessionEndedNotice b
  | RedirectSeen => clearRedirectAfterLogin b
  | Refresh => refreshSession b
  | RefreshAnswered s => refreshSettled s b
  | LiveEnded now lastEnd me => (liveSessionEnded now lastEnd me b).1
  | Loaded path query => loaded path query b
  end.

Definition happens (b : Browser) (es : list event) : Browser := foldl happen b es.

(** ** The refresh loop *)

Record Keepalive := { refreshAfterMs : Z; lastActivity : Z; lastRefresh : Z; sentAt : list Z }.

(** [ttlMs] and [refreshAfterMs] of a time to live in minutes; half of a whole
    number of minutes is a whole number of milliseconds. *)
Definition ttlMs (ttlMinutes : Z) : Z := Z.max 1 ttlMinutes * 60 * 1000.

Definition startSessionKeepalive (ttlMinutes now : Z) : Keepalive :=
  {| refreshAfterMs := Z.max (60 * 1000) (ttlMs ttlMinutes / 2); lastActivity := now; lastRefresh := now; sentAt := [] |}.

Definition markActivity (now : Z) (k : Keepalive) : Keepalive :=
  {| refreshAfterMs := refreshAfterMs k; lastActivity := now; lastRefresh := lastRefresh k; sentAt := sentAt k |}.

(** [sentAt] is when the loop called [refreshSession]. *)
Definition tick (now : Z) (hidden : bool) (k : Keepalive) : Keepalive :=
  if hidden then k
  else if (lastActivity k <=? lastRefresh k)%Z then k
  else if (now - lastRefresh k <? refreshAfterMs k)%Z then k
  else {| refreshAfterMs := refreshAfterMs k; lastActivity := lastActivity k; lastRefresh := now; sentAt := sentAt k ++ [now] |}.

Inductive moment := Activity (now : Z) | Ticked (now : Z) (hidden : bool).

Definition timeOf (e : moment) : Z := match e with Activity t => t | Ticked t _ => t end.
Definition pass (k : Keepalive) (e : moment) : Keepalive :=
  match e with Activity t => markActivity t k | Ticked t hidden => tick t hidden k end.
Definition passes (k : Keepalive) (es : list moment) : Keepalive := foldl pass k es.

(** ** Lemmas: the notice *)

(** The events that end in [handleUnauthorized]. *)
Definition refuses (e : event) : bool :=
  match e with
  | Refused401 => true
  | RefreshAnswered s => bool_decide (s = Some 401%Z)
  | LiveEnded now lastEnd me => negb ((SESSION_END_REPEAT_MS <=? now - lastEnd)%Z && negb (bool_decide (me = Some 401%Z)))
  | _ => false
  end.

(** Whether [e] is where the page learns that its session is over. *)
Definition loses (b : Browser) (e : event) : bool :=
  match e with
  | SessionLost => true
  | _ => refuses e && negb (eqs (pathname b) "/login") && negb (handlingUnauthorized b)
  end.

(** A browser with storage. *)
Definition stores (b : Browser) : Prop := localOn b = true ∧ sessionOn b = true.

Ltac browser_cases b :=
  destruct b as [?lo ?so ?si ?en ?rd ?fc ?pa ?se ?hu ?ri ?lg ?rf ?nv]; simpl in *.

(** [handleUnauthorized] and the marks. *)
Lemma unauthorized_marks b : stores b →
  let acts := negb (eqs (pathname b) "/login") && negb (handlingUnauthorized b) in
  stores (handleUnauthorized b) ∧
  ended (handleUnauthorized b) = (if acts && signedIn b then true else ended b) ∧
  signedIn (handleUnauthorized b) = (if acts then false else signedIn b).
Proof.
  intros [Hl Hs]. browser_cases b. subst. unfold handleUnauthorized, stores. simpl.
  destruct (eqs pa "/login"), hu, si; simpl; done.
Qed.

(** The events that reach [handleUnauthorized] do nothing else to what the page
    remembers. *)
Definition sameButFlight (b b' : Browser) : Prop :=
  b' = withRefresh (refreshInFlight b') (refreshes b') b.

Lemma happen_unauthorized b e : refuses e = true → sameButFlight (handleUnauthorized b) (happen b e).
Proof.
  unfold sameButFlight. destruct e as [| | | | | | |s|now lastEnd me|]; try discriminate; cbn [refuses happen].
  - by destruct (handleUnauthorized b).
  - intros H. unfold refreshSettled. rewrite H. reflexivity.
  - intros H%negb_true_iff. unfold liveSessionEnded. rewrite H. by destruct (handleUnauthorized b).
Qed.

(** The others leave alone what they do not name. *)
Lemma happen_other b e : refuses e = false → stores b →
  stores (happen b e) ∧
  ended (happen b e) = match e with SessionLost => signedIn b || ended b | NoticeSeen => false | _ => ended b end ∧
  signedIn (happen b e) = match e with SignedIn => true | SignOut | SessionLost => false | _ => signedIn b end.
Proof.
  intros Hr [Hl Hs]. destruct e as [| | | | | | |s|now lastEnd me|]; try discriminate Hr; cbn [happen].
  - unfold markSignedIn. rewrite Hl. done.
  - unfold noteSessionEnded. rewrite Hl, Hs. cbn [negb]. by destruct (signedIn b) eqn:E; cbn [negb]; rewrite ?E.
  - unfold logoutSession, stores. cbn [localOn sessionOn ended signedIn]. by rewrite Hl, Hs.
  - unfold clearSessionEndedNotice. rewrite Hs. done.
  - done.
  - unfold refreshSession. by destruct (refreshInFlight b).
  - unfold refreshSettled. cbn [refuses] in Hr. rewrite Hr. done.
  - apply negb_false_iff in Hr. unfold liveSessionEnded. rewrite Hr. done.
  - done.
Qed.

Lemma happen_marks b e : stores b →
  stores (happen b e) ∧
  ended (happen b e) = (signedIn b && loses b e || ended b && negb (bool_decide (e = NoticeSeen))) ∧
  signedIn (happen b e) = (bool_decide (e = SignedIn) || signedIn b && negb (bool_decide (e = SignOut)) && negb (loses b e)).
Proof.
  intros Hst. destruct (refuses e) eqn:Er.
  - pose proof (happen_unauthorized b e Er) as Hs. destruct (unauthorized_marks b Hst) as (H1 & H2 & H3).
    assert (loses b e = negb (eqs (pathname b) "/login") && negb (handlingUnauthorized b)) as ->.
    { unfold loses. rewrite Er. by destruct e. }
    assert (stores (happen b e) ∧ ended (happen b e) = ended (handleUnauthorized b) ∧
            signedIn (happen b e) = signedIn (handleUnauthorized b)) as (E1 & -> & ->) by (rewrite Hs; done).
    rewrite H2, H3. split; [done|]. destruct (_ && negb (handlingUnauthorized b)), (signedIn b), (ended b), e; done.
  - destruct (happen_other b e Er Hst) as (H1 & H2 & H3). rewrite H2, H3. split; [done|].
    unfold loses. rewrite Er. destruct (signedIn b), (ended b), e; done.
Qed.

Lemma happens_snoc b es e : happens b (es ++ [e]) = happen (happens b es) e.
Proof. apply foldl_snoc. Qed.

Lemma happens_stores b es : stores b → stores (happens b es).
Proof.
  intros H. induction es as [|e es IH] using rev_ind; [done|]. rewrite happens_snoc. by apply happen_marks.
Qed.

(** Splits of a list at an event, by its last. *)
Lemma split_snoc {A} (l : list A) x pre y post :
  l ++ [x] = pre ++ y :: post ↔ (post = [] ∧ pre = l ∧ y = x) ∨ (∃ post', post = post' ++ [x] ∧ l = pre ++ y :: post').
Proof.
  split.
  - intros H. destruct post as [|z post _] using rev_ind.
    + apply app_inj_tail in H as [-> ->]. by left.
    + right. rewrite app_comm_cons, app_assoc in H. apply app_inj_tail in H as [-> ->]. by exists post.
  - intros [(-> & -> & ->)|(post' & -> & ->)]; [done|]. by rewrite <- app_assoc.
Qed.

(** ** Lemmas: one page *)

(** What of the browser a sign-out changes, and what decides it. *)
Definition outOf (b : Browser) := (handlingUnauthorized b, navigations b, logouts b, redirect b, floatingChat b).
Definition placeOf (b : Browser) := (pathname b, search b, sessionOn b).

(** Events of one page on which nobody signs out or reads the redirect. *)
Definition onPage (e : event) : bool := match e with Loaded _ _ | SignOut | RedirectSeen => false | _ => true end.

Lemma happen_page b e : onPage e = true →
  placeOf (happen b e) = placeOf b ∧
  outOf (happen b e) = if refuses e then outOf (handleUnauthorized b) else outOf b.
Proof.
  intros He. assert (Hu : placeOf (handleUnauthorized b) = placeOf b).
  { unfold handleUnauthorized, noteSessionEnded. destruct (eqs (pathname b) "/login"); [done|].
    destruct (handlingUnauthorized b); [done|]. cbv zeta. cbn [localOn signedIn].
    by destruct (localOn b); [destruct (signedIn b)|]. }
  destruct (refuses e) eqn:Er.
  - pose proof (happen_unauthorized b e Er) as Hs. unfold sameButFlight in Hs. rewrite Hs. split; [by rewrite <- Hu|done].
  - destruct e as [| | | | | | |s|now lastEnd me|]; try discriminate; cbn [happen refuses] in *.
    + unfold markSignedIn. by destruct (localOn b).
    + unfold noteSessionEnded. by destruct (localOn b); [destruct (signedIn b)|].
    + unfold clearSessionEndedNotice. by destruct (sessionOn b).
    + unfold refreshSession. by destruct (refreshInFlight b).
    + unfold refreshSettled. by rewrite Er.
    + apply negb_false_iff in Er. unfold liveSessionEnded. by rewrite Er.
Qed.

Lemma unauthorized_first b : eqs (pathname b) "/login" = false → handlingUnauthorized b = false → sessionOn b = true →
  outOf (handleUnauthorized b) =
    (true, navigations b ++ ["/login"], S (logouts b), Some (pathname b +:+ search b), None).
Proof.
  intros Hp Hh Hs. unfold handleUnauthorized. rewrite Hp, Hh. cbv zeta. unfold noteSessionEnded. cbn [localOn signedIn].
  destruct (localOn b); [destruct (signedIn b)|]; unfold outOf; cbn [negb]; by rewrite ?Hs; simpl; rewrite ?Hs.
Qed.

Lemma unauthorized_again b : handlingUnauthorized b = true → handleUnauthorized b = b.
Proof. intros H. unfold handleUnauthorized. rewrite H. by destruct (eqs _ _). Qed.

(** ** Lemmas: the refresh loop *)

(** The loop's variables are told by what happened since it started at [t0]. *)
Record loopOk (t0 : Z) (es : list moment) (k : Keepalive) : Prop := {
  lo_last : last (t0 :: sentAt k) = Some (lastRefresh k);
  lo_activity : lastActivity k = t0 ∨ Activity (lastActivity k) ∈ es;
  lo_start : (t0 ≤ lastRefresh k ∧ 0 < refreshAfterMs k)%Z;
  lo_past : (lastActivity k ≤ default t0 (last (timeOf <$> es)))%Z;
  lo_spaced : ∀ i a b, (t0 :: sentAt k) !! i = Some a → sentAt k !! i = Some b →
    (refreshAfterMs k ≤ b - a)%Z ∧ ∃ t, Activity t ∈ es ∧ (a < t ≤ b)%Z
}.

(** Moments in order, none before [t0]. *)
Definition inOrder (t0 : Z) (es : list moment) : Prop := StronglySorted Z.le (t0 :: (timeOf <$> es)).

Lemma inOrder_snoc t0 es e : inOrder t0 (es ++ [e]) → inOrder t0 es ∧ (default t0 (last (timeOf <$> es)) ≤ timeOf e)%Z.
Proof.
  unfold inOrder. rewrite fmap_app, app_comm_cons. intros [H [H1 _]]%StronglySorted_app. split; [done|].
  apply H; [|by left]. destruct (timeOf <$> es) as [|t ts _] using rev_ind; [by left|].
  rewrite last_snoc. right. apply elem_of_app. right. by left.
Qed.

Lemma passes_snoc k es e : passes k (es ++ [e]) = pass (passes k es) e.
Proof. apply foldl_snoc. Qed.

Lemma pass_refreshAfter k e : refreshAfterMs (pass k e) = refreshAfterMs k.
Proof. destruct e; simpl; [done|]. unfold tick. repeat case_match; done. Qed.

Lemma loop_ok ttl t0 es : inOrder t0 es → loopOk t0 es (passes (startSessionKeepalive ttl t0) es).
Proof.
  induction es as [|e es IH] using rev_ind; intros Ho.
  { split; simpl; try done; [by left|unfold ttlMs; lia]. }
  apply inOrder_snoc in Ho as [Ho Hle]. destruct (IH Ho) as [H1 H2 H0 H3 H4]. clear IH. rewrite passes_snoc.
  set (k := passes _ es) in *. clearbody k.
  assert (Hlast : default t0 (last (timeOf <$> es ++ [e])) = timeOf e) by (rewrite fmap_app; csimpl; by rewrite last_snoc).
  assert (Hkeep : loopOk t0 (es ++ [e]) k).
  { split; [done|rewrite elem_of_app; naive_solver|done|rewrite Hlast; lia|]. intros i a b Ha Hb.
    destruct (H4 i a b Ha Hb) as (? & t & ? & ?). split; [done|]. exists t. rewrite elem_of_app. naive_solver. }
  destruct e as [now|now hidden]; simpl in *.
  - destruct Hkeep. split; [done|right; apply elem_of_app; right; by left|done| |done]. rewrite Hlast. simpl. lia.
  - unfold tick. destruct hidden; [done|]. destruct (Z.leb_spec (lastActivity k) (lastRefresh k)); [done|].
    destruct (Z.ltb_spec (now - lastRefresh k) (refreshAfterMs k)); [done|].
    destruct Hkeep as [K1 K2 K0 K3 K4]. split; cbn [sentAt lastRefresh lastActivity refreshAfterMs]; [by rewrite app_comm_cons, last_snoc|done|lia|done|].
    rewrite Hlast in K3. simpl in K3. intros i a b Ha Hb. apply lookup_app_Some in Hb as [Hb|[Hi Hb]].
    + apply (K4 i a b); [|done]. apply lookup_lt_Some in Hb. rewrite app_comm_cons, lookup_app_l in Ha by (simpl; lia). done.
    + apply list_lookup_singleton_Some in Hb as [Hi2 <-]. assert (i = length (sentAt k)) as -> by lia.
      rewrite app_comm_cons, lookup_app_l in Ha by (simpl; lia). rewrite last_lookup in K1. simpl in K1.
      assert (a = lastRefresh k) as -> by congruence. split; [done|]. destruct K2 as [K2|K2]; [lia|]. by exists (lastActivity k).
Qed.

Lemma sentAt_grows k es s : s ∈ sentAt k → s ∈ sentAt (passes k es).
Proof.
  revert k. induction es as [|e es IH]; intros k H; [done|]. apply IH. destruct e as [u|u hidden]; [done|].
  simpl. unfold tick. repeat case_match; try done. simpl. apply elem_of_app. by left.
Qed.

(** A visible tick that is due refreshes, unless one before it has. *)
Lemma due_tick k es t : inOrder (lastActivity k) es → Ticked t false ∈ es →
  (lastRefresh k < lastActivity k)%Z → (0 < refreshAfterMs k)%Z → (lastRefresh k + refreshAfterMs k ≤ t)%Z →
  ∃ s, s ∈ sentAt (passes k es) ∧ (lastRefresh k < s ≤ t)%Z.
Proof.
  revert k. induction es as [|e es IH]; intros k Ho Hin Hact Hpos Hdue; [by apply elem_of_nil in Hin|].
  unfold inOrder in Ho. csimpl in Ho. apply StronglySorted_cons in Ho as [Hge Ho].
  apply Forall_cons in Hge as [Hge Hall]. assert (Hrest := Ho). apply StronglySorted_cons in Hrest as [Hle Hrest].
  assert (Hkeep : StronglySorted Z.le (lastActivity k :: (timeOf <$> es))) by (apply StronglySorted_cons; done).
  destruct e as [u|u hidden]; simpl in Hge, Hle |- *.
  - destruct (IH (markActivity u k)) as (s & H1 & H2); simpl; try done; [|lia|by exists s].
    by apply elem_of_cons in Hin as [|].
  - unfold tick. destruct hidden; [apply IH; try done; by apply elem_of_cons in Hin as [|]|].
    destruct (Z.leb_spec (lastActivity k) (lastRefresh k)); [lia|].
    destruct (Z.ltb_spec (u - lastRefresh k) (refreshAfterMs k)).
    + apply IH; try done. apply elem_of_cons in Hin as [[= ->]|]; [lia|done].
    + exists u. split; [apply sentAt_grows; simpl; apply elem_of_app; right; by left|]. split; [lia|].
      apply elem_of_cons in Hin as [[= ->]|Hin]; [lia|]. rewrite Forall_forall in Hle. apply Hle.
      by apply (list_elem_of_fmap_2 timeOf _ (Ticked t false)).
Qed.

(** ** Properties *)

(** The sign-in page's notice is shown exactly when the browser, signed in,
    lost its session - a request was refused or the account query failed - and
    nobody has seen the notice since; signing out leaves none.  A browser is
    signed in when the last sign-in came after every loss and sign-out. *)
Theorem notice_means_lost b es :
  stores b → ended b = false → signedIn b = false →
  (sessionEndedNotice (happens b es) = true ↔
    ∃ pre e post, es = pre ++ e :: post ∧ signedIn (happens b pre) = true ∧ loses (happens b pre) e = true ∧ NoticeSeen ∉ post) ∧
  (signedIn (happens b es) = true ↔
    ∃ pre post, es = pre ++ SignedIn :: post ∧
      ∀ p e q, post = p ++ e :: q → e ≠ SignOut ∧ loses (happens b (pre ++ SignedIn :: p)) e = false).
Proof.
  intros Hst He Hs. assert (Hn : sessionEndedNotice (happens b es) = ended (happens b es)).
  { unfold sessionEndedNotice. by destruct (happens_stores b es Hst) as [_ ->]. }
  rewrite Hn. clear Hn. induction es as [|e es [IH1 IH2]] using rev_ind.
  - cbn [happens foldl]. rewrite He, Hs. split; split; try done; [intros (? & ? & ? & ? & _)|intros (? & ? & ? & _)];
      by destruct x.
  - rewrite happens_snoc. destruct (happen_marks (happens b es) e (happens_stores b es Hst)) as (_ & -> & ->). split.
    + rewrite orb_true_iff, !andb_true_iff, IH1, negb_true_iff, bool_decide_eq_false. split.
      * intros [[H1 H2]|[(pre & e' & post & -> & H1 & H2 & H3) H4]].
        -- exists es, e, []. split_and!; try done. apply not_elem_of_nil.
        -- exists pre, e', (post ++ [e]). split_and!; [by rewrite <- app_assoc|done|done|].
           rewrite elem_of_app, list_elem_of_singleton. naive_solver.
      * intros (pre & e' & post & [(-> & -> & ->)|(post' & -> & ->)]%split_snoc & H1 & H2 & H3); [by left|right].
        rewrite elem_of_app, list_elem_of_singleton in H3. split; [|naive_solver]. exists pre, e', post'. naive_solver.
    + rewrite orb_true_iff, !andb_true_iff, !negb_true_iff, IH2, bool_decide_eq_true, bool_decide_eq_false. split.
      * intros [->|[[(pre & post & -> & H1) H2] H3]].
        -- exists es, []. split; [done|]. by intros [|].
        -- exists pre, (post ++ [e]). split; [by rewrite <- app_assoc|].
           intros p e' q [(-> & -> & ->)|(q' & -> & ->)]%split_snoc; [done|]. by eapply H1.
      * intros (pre & post & [(-> & -> & E)|(post' & -> & ->)]%split_snoc & H); [by left|right].
        destruct (H post' e []) as [H1 H2]; [done|]. split; [split; [|done]|done]. exists pre, post'. split; [done|].
        intros p e' q ->. apply (H p e' (q ++ [e])). by rewrite <- app_assoc.
Qed.

(** C35. A page signs out once, however many of its requests are refused: the first
    refusal away from the sign-in page sends one sign-out, keeps where the user
    was for after the next sign-in, forgets the tab's chat and goes to the
    sign-in page; the rest do nothing, and without a refusal nobody signs out. *)
Theorem one_sign_out_a_page b es :
  eqs (pathname b) "/login" = false → handlingUnauthorized b = false → sessionOn b = true →
  Forall (λ e, onPage e = true) es →
  outOf (happens b es) =
    if some refuses es then (true, navigations b ++ ["/login"], S (logouts b), Some (pathname b +:+ search b), None)
    else outOf b.
Proof.
  intros Hp Hh Hs. induction es as [|e es IH] using rev_ind; intros Ha; [done|]. apply Forall_app in Ha as [Ha He].
  apply Forall_cons in He as [He _]. specialize (IH Ha).
  assert (Hplace : placeOf (happens b es) = placeOf b).
  { clear IH. induction es as [|e' es IH] using rev_ind; [done|]. apply Forall_app in Ha as [Ha He'].
    apply Forall_cons in He' as [He' _]. rewrite happens_snoc, <- IH by done. by apply happen_page. }
  rewrite happens_snoc. destruct (happen_page (happens b es) e He) as [_ ->]. unfold some in *. rewrite existsb_app. cbn [existsb].
  rewrite orb_false_r. destruct (existsb refuses es).
  - destruct (refuses e); [|done]. rewrite unauthorized_again; [done|]. by injection IH.
  - injection Hplace as P1 P2 P3. injection IH as I1 I2 I3 I4 I5. destruct (refuses e); [|by unfold outOf; rewrite I1, I2, I3, I4, I5].
    rewrite unauthorized_first by congruence. cbn [orb]. by rewrite P1, P2, I2, I3.
Qed.

(** The loop never asks twice within half the time to live (a minute at least),
    and only for a tab that was used since it last asked. *)
Theorem refreshes_spaced ttl t0 es i a b :
  inOrder t0 es →
  (t0 :: sentAt (passes (startSessionKeepalive ttl t0) es)) !! i = Some a →
  sentAt (passes (startSessionKeepalive ttl t0) es) !! i = Some b →
  (Z.max (60 * 1000) (ttlMs ttl / 2) ≤ b - a)%Z ∧ ∃ t, Activity t ∈ es ∧ (a < t ≤ b)%Z.
Proof.
  intros Ho Ha Hb. destruct (lo_spaced _ _ _ (loop_ok ttl t0 es Ho) i a b Ha Hb) as [H1 H2]. split; [|done].
  assert (E : refreshAfterMs (passes (startSessionKeepalive ttl t0) es) = Z.max (60 * 1000) (ttlMs ttl / 2)); [|by rewrite <- E].
  clear. induction es as [|e es IH] using rev_ind; [done|]. by rewrite passes_snoc, pass_refreshAfter.
Qed.

(** An active tab keeps its session: with a time to live of two minutes or more,
    a tab used since the last refresh and seen at the minute's tick after half of
    it has asked for a new token before the old one ends. *)
Theorem active_tab_keeps_session ttl t0 before later t (k := passes (startSessionKeepalive ttl t0) before) :
  inOrder t0 (before ++ later) → (2 ≤ ttl)%Z → (lastRefresh k < lastActivity k)%Z →
  Ticked t false ∈ later → (lastRefresh k + refreshAfterMs k ≤ t ≤ lastRefresh k + refreshAfterMs k + 60 * 1000)%Z →
  ∃ s, s ∈ sentAt (passes k later) ∧ (lastRefresh k < s ≤ lastRefresh k + ttlMs ttl)%Z.
Proof.
  intros Ho Httl Hact Hin Ht. unfold inOrder in Ho. rewrite fmap_app, app_comm_cons in Ho.
  apply StronglySorted_app in Ho as (Hc & Hb & Hl). pose proof (loop_ok ttl t0 before Hb) as [H1 H2 H0 H3 _]. fold k in H1, H2, H0, H3.
  assert (Hla : lastActivity k ∈ t0 :: (timeOf <$> before)).
  { destruct H2 as [->|H2]; [by left|]. right. by apply (list_elem_of_fmap_2 timeOf _ (Activity _)). }
  destruct (due_tick k later t) as (s & Hs & Hle); [|done..|lia|lia|].
  - unfold inOrder. apply StronglySorted_cons. split; [|done]. apply Forall_forall. intros x Hx. by apply Hc.
  - exists s. split; [done|]. assert (E : refreshAfterMs k = Z.max (60 * 1000) (ttlMs ttl / 2)).
    { subst k. clear. induction before as [|e es IH] using rev_ind; [done|]. by rewrite passes_snoc, pass_refreshAfter. }
    assert (Et : ttlMs ttl = (ttl * 30000 * 2)%Z) by (unfold ttlMs; lia).
    rewrite Et, Z.div_mul in E by done. rewrite Et. lia.
Qed.

(** ** Witnesses *)

(** A tab that loads, signed out. *)
Definition freshTab : Browser :=
  {| localOn := true; sessionOn := true; signedIn := false; ended := false; redirect := None; floatingChat := Some "7";
     pathname := "/pods"; search := "?ns=web"; handlingUnauthorized := false; refreshInFlight := false;
     logouts := 0; refreshes := 0; navigations := [] |}.

Lemma notice_means_lost_witness :
  sessionEndedNotice (happens freshTab [SignedIn; Refused401; Loaded "/login" ""]) = true.
Proof.
  apply (notice_means_lost freshTab [SignedIn; Refused401; Loaded "/login" ""]); [by split|reflexivity|reflexivity|].
  exists [SignedIn], Refused401, [Loaded "/login" ""]. split_and!; try reflexivity. by_decide.
Defined.

Lemma one_sign_out_a_page_witness :
  outOf (happens freshTab [SignedIn; Refused401; Refused401; RefreshAnswered (Some 401%Z)]) =
    (true, ["/login"], 1, Some "/pods?ns=web", None).
Proof.
  apply (one_sign_out_a_page freshTab [SignedIn; Refused401; Refused401; RefreshAnswered (Some 401%Z)]); [reflexivity..|].
  by_decide.
Defined.

(** Fifteen minutes to live: used at the first second, ticks each minute. *)
Definition usedTab : list moment := Activity 1000 :: ((λ n, Ticked (60000 * n)%Z false) <$> [1; 2; 3; 4; 5; 6; 7]%Z).

Lemma refreshes_spaced_witness :
  (Z.max (60 * 1000) (ttlMs 15 / 2) ≤ 480000 - 0)%Z ∧ ∃ t, Activity t ∈ usedTab ++ [Ticked 480000%Z false] ∧ (0 < t ≤ 480000)%Z.
Proof.
  apply (refreshes_spaced 15 0 (usedTab ++ [Ticked 480000%Z false]) 0 0%Z 480000%Z); [|reflexivity|vm_compute; reflexivity].
  by_decide.
Defined.

Lemma active_tab_keeps_session_witness :
  ∃ s, s ∈ sentAt (passes (passes (startSessionKeepalive 15 0) usedTab) [Ticked 480000%Z false]) ∧ (0 < s ≤ 0 + ttlMs 15)%Z.
Proof.
  apply (active_tab_keeps_session 15 0 usedTab [Ticked 480000%Z false] 480000%Z).
  - by_decide.
  - lia.
  - vm_compute. reflexivity.
  - by left.
  - vm_compute. split; discriminate.
Defined.
