(* ===== verification/Calendar.v ===== *)
(** * The calendar of [Date]

    What the scheduler uses of the language's [Date]: [Date.UTC] and the UTC
    fields of an instant, on the proleptic Gregorian calendar, as ECMAScript
    defines them (DayFromYear, MakeDay, YearFromTime).  An instant is in
    milliseconds since 1970-01-01T00:00:00Z; the limit of a [Date] (a hundred
    million days each way) and years before 100, which [Date.UTC] moves to the
    twentieth century, are out of range. *)

From S2P Require Import Prelude.

#[local] Open Scope Z_scope.

(** [lia] with division by constants. *)
Ltac Zify.zify_post_hook ::= Z.to_euclidean_division_equations.

Definition leapYear (y : Z) : bool := (y mod 4 =? 0) && (negb (y mod 100 =? 0) || (y mod 400 =? 0)).

(** The day of January 1st. *)
Definition dayFromYear (y : Z) : Z := 365 * (y - 1970) + (y - 1969) / 4 - (y - 1901) / 100 + (y - 1601) / 400.

(** How many days of a year come before month [m], counted from 0. *)
Definition monthStart (leap : bool) (m : Z) : Z :=
  nth (Z.to_nat m) [0; 31; 59; 90; 120; 151; 181; 212; 243; 273; 304; 334] 0 + (if leap && (2 <=? m) then 1 else 0).

(** The first day of month [m] (from 0) of year [y]; a month past the year's end
    runs into the years after it. *)
Definition makeDay (y m : Z) : Z :=
  let y' := y + m / 12 in dayFromYear y' + monthStart (leapYear y') (m mod 12).

(** [Date.UTC(y, m, d, h, mi, s)], in seconds. *)
Definition utcSeconds (y m d h mi s : Z) : Z := (makeDay y m + d - 1) * 86400 + h * 3600 + mi * 60 + s.

(** ** The fields of a day *)

Definition yearOfDay (d : Z) : Z :=
  let c := 1970 + 400 * d / 146097 in
  if dayFromYear (c + 1) <=? d then c + 1 else if dayFromYear c <=? d then c else c - 1.

(** The month, from 0: the first one that ends after the day. *)
Definition monthOfDay (d : Z) : Z :=
  let y := yearOfDay d in
  from_option Z.of_nat 11
    (findIndex (λ m, d <? dayFromYear y + monthStart (leapYear y) m) [1; 2; 3; 4; 5; 6; 7; 8; 9; 10; 11]).

(** [getUTCDay]: 1970-01-01 was a Thursday. *)
Definition weekday (d : Z) : Z := (d + 4) mod 7.

Example calendar_epoch : makeDay 1970 0 = 0.
Proof. reflexivity. Qed.
Example calendar_leap_day : let d := makeDay 2028 1 + 28 in (yearOfDay d, monthOfDay d, weekday d) = (2028, 1, 2).
Proof. reflexivity. Qed.

(** ** Months in a row *)

(** The first day of the [k]-th month since January of year 0. *)
Definition monthDay (k : Z) : Z := makeDay 0 k.

Lemma makeDay_monthDay y m : makeDay y m = monthDay (12 * y + m).
Proof.
  unfold monthDay, makeDay.
  replace (0 + (12 * y + m) / 12) with (y + m / 12) by lia.
  by replace ((12 * y + m) mod 12) with (m mod 12) by lia.
Qed.

Lemma mod12_cases (P : Z → Prop) :
  P 0 → P 1 → P 2 → P 3 → P 4 → P 5 → P 6 → P 7 → P 8 → P 9 → P 10 → P 11 → ∀ m, 0 <= m < 12 → P m.
Proof.
  intros. assert (m = 0 ∨ m = 1 ∨ m = 2 ∨ m = 3 ∨ m = 4 ∨ m = 5 ∨ m = 6 ∨ m = 7 ∨ m = 8 ∨ m = 9 ∨ m = 10 ∨ m = 11) as Hm by lia.
  repeat (destruct Hm as [->|Hm]; [done|]). by subst.
Qed.

Lemma leapYear_true y : leapYear y = true ↔ y mod 4 = 0 ∧ (y mod 100 ≠ 0 ∨ y mod 400 = 0).
Proof.
  unfold leapYear. rewrite andb_true_iff, orb_true_iff, negb_true_iff, !Z.eqb_eq, Z.eqb_neq. done.
Qed.

Lemma dayFromYear_succ y : dayFromYear (y + 1) = dayFromYear y + (if leapYear y then 366 else 365).
Proof.
  unfold dayFromYear. destruct (leapYear y) eqn:E.
  - apply leapYear_true in E. lia.
  - assert (¬ (y mod 4 = 0 ∧ (y mod 100 ≠ 0 ∨ y mod 400 = 0))) by (rewrite <-leapYear_true; congruence).
    lia.
Qed.

Lemma monthDay_succ k : 28 <= monthDay (k + 1) - monthDay k <= 31.
Proof.
  unfold monthDay, makeDay. rewrite !Z.add_0_l.
  assert (0 <= k mod 12 < 12) as Hm by lia. remember (k mod 12) as m eqn:Em.
  destruct (decide (m = 11)) as [E|E].
  - replace ((k + 1) / 12) with (k / 12 + 1) by lia. replace ((k + 1) mod 12) with 0 by lia. rewrite E.
    rewrite dayFromYear_succ. unfold monthStart. simpl. rewrite andb_false_r, andb_true_r.
    destruct (leapYear (k / 12)); lia.
  - replace ((k + 1) / 12) with (k / 12) by lia. replace ((k + 1) mod 12) with (m + 1) by lia.
    clear Em. revert m Hm E. apply (mod12_cases (λ m, m ≠ 11 → _)); intros; try done;
      unfold monthStart; simpl; destruct (leapYear (k / 12)); simpl; lia.
Qed.

Lemma monthDay_lt j k : j < k → monthDay j < monthDay k.
Proof.
  intros H. rewrite <-(Zplus_minus j k). assert (0 < k - j) as Hd by lia. clear H.
  pattern (k - j). apply Zlt_lower_bound_ind with (z := 1); [|lia]. intros n IH Hn.
  destruct (decide (n = 1)) as [->|]; [pose proof (monthDay_succ j); lia|].
  pose proof (IH (n - 1) ltac:(lia)). pose proof (monthDay_succ (j + (n - 1))).
  replace (j + n) with (j + (n - 1) + 1) by lia. lia.
Qed.

Lemma monthDay_le j k : j <= k → monthDay j <= monthDay k.
Proof. intros. destruct (decide (j = k)) as [->|]; [lia|]. pose proof (monthDay_lt j k). lia. Qed.

Lemma dayFromYear_monthDay y : dayFromYear y = monthDay (12 * y).
Proof.
  unfold monthDay, makeDay. replace (0 + 12 * y / 12) with y by lia. replace (12 * y mod 12) with 0 by lia.
  unfold monthStart. simpl. rewrite andb_false_r. lia.
Qed.

Lemma yearOfDay_spec d : dayFromYear (yearOfDay d) <= d < dayFromYear (yearOfDay d + 1).
Proof.
  unfold yearOfDay. remember (1970 + 400 * d / 146097) as c eqn:Ec.
  destruct (Z.leb_spec (dayFromYear (c + 1)) d); [|destruct (Z.leb_spec (dayFromYear c) d)].
  - split; [done|]. unfold dayFromYear. lia.
  - done.
  - replace (c - 1 + 1) with c by lia. split; [|done]. unfold dayFromYear. lia.
Qed.

Definition monthIndex (d : Z) : Z := 12 * yearOfDay d + monthOfDay d.

Lemma monthDay_start y m : 0 <= m < 12 → monthDay (12 * y + m) = dayFromYear y + monthStart (leapYear y) m.
Proof.
  intros Hm. unfold monthDay, makeDay. replace (0 + (12 * y + m) / 12) with y by lia.
  by replace ((12 * y + m) mod 12) with m by lia.
Qed.

Lemma months_lookup i : (i < 11)%nat → [1; 2; 3; 4; 5; 6; 7; 8; 9; 10; 11] !! i = Some (Z.of_nat i + 1).
Proof. intros. do 11 (destruct i as [|i]; [reflexivity|]). lia. Qed.

Lemma monthOfDay_spec d :
  0 <= monthOfDay d < 12 ∧ monthDay (monthIndex d) <= d < monthDay (monthIndex d + 1).
Proof.
  unfold monthIndex, monthOfDay. pose proof (yearOfDay_spec d) as Hy. set (y := yearOfDay d) in *. clearbody y.
  rewrite (dayFromYear_monthDay (y + 1)) in Hy.
  set (late := λ m, _). destruct (findIndex late _) as [i|] eqn:E; cbn [from_option].
  - apply findIndex_Some in E as (m & Hm & Hlate & Hbefore).
    assert (i < 11)%nat as Hi by (apply lookup_lt_Some in Hm; done).
    rewrite months_lookup in Hm by done. injection Hm as <-. apply Z.ltb_lt in Hlate.
    split; [lia|]. rewrite <-Z.add_assoc, (monthDay_start y (Z.of_nat i)), (monthDay_start y (Z.of_nat i + 1)) by lia.
    split; [|lia].
    destruct i as [|i].
    { unfold monthStart. simpl. rewrite andb_false_r. lia. }
    pose proof (Hbefore i _ ltac:(lia) (months_lookup i ltac:(lia))) as Hge. apply Z.ltb_ge in Hge.
    by replace (Z.of_nat (S i)) with (Z.of_nat i + 1) by lia.
  - apply findIndex_None in E. rewrite Forall_forall in E.
    split; [lia|]. replace (12 * y + 11 + 1) with (12 * (y + 1)) by lia. split; [|lia].
    rewrite monthDay_start by lia. apply Z.ltb_ge, (E 11). by_decide.
Qed.

Lemma monthIndex_unique d k : monthDay k <= d < monthDay (k + 1) → monthIndex d = k.
Proof.
  intros H. destruct (monthOfDay_spec d) as [_ Hd].
  destruct (Z.lt_trichotomy (monthIndex d) k) as [Hlt|[|Hlt]]; [|done|].
  - pose proof (monthDay_le (monthIndex d + 1) k). lia.
  - pose proof (monthDay_le (k + 1) (monthIndex d)). lia.
Qed.
