(* ===== verification/Cron.v ===== *)
(** * The schedule of a CronJob

    utils/cron.ts, the parser: the bounds of each field, [atoi], [getRange],
    [getField], the descriptors, [parseStandard] and [loadLocation].  A [Field]
    keeps the set of its values instead of a sparse array of booleans.  The
    search for the next run is in CronNext.

    A function of the code returns, throws, or leaves what is modelled here
    ([Outside]): the fractions of an [@every] duration, which are floating-point,
    and the names that every JavaScript object inherits (["constructor"] as the
    name of a month).  Texts are ASCII. *)

From S2P Require Import Prelude JsString Json.

Inductive outcome (A : Type) := Returns (a : A) | Throws | Outside.
Arguments Returns {A}. Arguments Throws {A}. Arguments Outside {A}.

#[export] Instance outcome_ret : MRet outcome := @Returns.
#[export] Instance outcome_bind : MBind outcome := λ A B f o,
  match o with Returns a => f a | Throws => Throws | Outside => Outside end.

Record Field := { bits : gset Z; star : bool }.
Record SpecSchedule := { second : Field; minute : Field; hour : Field; dom : Field; month : Field; dow : Field; zone : string }.
Inductive Schedule := Spec (s : SpecSchedule) | Every (delay : Z).
Record Bounds := { min : Z; max : Z; names : option (list (string * Z)) }.

#[local] Open Scope Z_scope.

Definition SECOND : Z := 1000.
Definition MINUTE : Z := 60 * SECOND.
Definition HOUR : Z := 60 * MINUTE.

Definition SECONDS : Bounds := {| min := 0; max := 59; names := None |}.
Definition MINUTES : Bounds := {| min := 0; max := 59; names := None |}.
Definition HOURS : Bounds := {| min := 0; max := 23; names := None |}.
Definition DOM : Bounds := {| min := 1; max := 31; names := None |}.
Definition MONTHS : Bounds :=
  {| min := 1; max := 12;
     names := Some [("jan", 1); ("feb", 2); ("mar", 3); ("apr", 4); ("may", 5); ("jun", 6); ("jul", 7); ("aug", 8);
                    ("sep", 9); ("oct", 10); ("nov", 11); ("dec", 12)] |}.
Definition DOW : Bounds :=
  {| min := 0; max := 6;
     names := Some [("sun", 0); ("mon", 1); ("tue", 2); ("wed", 3); ("thu", 4); ("fri", 5); ("sat", 6)] |}.

Definition ofOption {A} (o : option A) : outcome A := match o with Some a => Returns a | None => Throws end.

(** The digits of [/^[+-]?[0-9]+$/]. *)
Definition decimal (s : string) : option Z := if nonempty s then digitsValue 0 s else None.

Definition atoi (expr : string) : outcome Z :=
  n ← ofOption (match expr with
                | String c r =>
                    if bool_decide (c = "+"%char) then decimal r
                    else if bool_decide (c = "-"%char) then Z.opp <$> decimal r else decimal expr
                | "" => None
                end);
  if n <? 0 then Throws else Returns n.

(** What a plain object answers under these names comes from its prototype. *)
Definition inherited (name : string) : bool := eqs name "constructor" || eqs name "__proto__".

Definition intOrName (expr : string) (b : Bounds) : outcome Z :=
  match names b with
  | None => atoi expr
  | Some table =>
      match find (λ p, eqs p.1 (toLowerCase expr)) table with
      | Some (_, n) => Returns n
      | None => if inherited (toLowerCase expr) then Outside else atoi expr
      end
  end.

(** [for (let i = start; i <= end; i += step) f.bits[i] = true]. *)
Fixpoint setBits (fuel : nat) (i last step : Z) (set : gset Z) : gset Z :=
  match fuel with
  | O => set
  | S fuel => if i <=? last then setBits fuel (i + step) last step ({[i]} ∪ set) else set
  end.

Definition isStar (low : string) : bool := eqs low "*" || eqs low "?".

(** The range before the slash: its first and last value, and whether it is [*]. *)
Definition lowHigh (lowAndHigh : list string) (b : Bounds) : outcome (Z * Z * bool) :=
  match lowAndHigh with
  | [] => Throws
  | low :: rest =>
      if isStar low then Returns (min b, max b, true)
      else
        start ← intOrName low b;
        match rest with
        | [] => Returns (start, start, false)
        | [high] => last ← intOrName high b; Returns (start, last, false)
        | _ => Throws
        end
  end.

Definition getRange (expr : string) (b : Bounds) (f : Field) : outcome Field :=
  let rangeAndStep := split "/" expr in
  let lowAndHigh := split "-" (default "" (rangeAndStep !! 0%nat)) in
  '(start, last, isstar) ← lowHigh lowAndHigh b;
  '(last, step, isstar) ← (match rangeAndStep with
                           | [_] => Returns (last, 1, isstar)
                           | [_; n] =>
                               step ← atoi n;
                               Returns (match lowAndHigh with [_] => max b | _ => last end, step,
                                        if 1 <? step then false else isstar)
                           | _ => Throws
                           end);
  if (start <? min b) || (max b <? last) || (last <? start) || (step =? 0) then Throws
  else Returns {| bits := setBits (Z.to_nat (last - start + 1)) start last step (bits f); star := isstar || star f |}.

Fixpoint getRanges (exprs : list string) (b : Bounds) (f : Field) : outcome Field :=
  match exprs with
  | [] => Returns f
  | expr :: exprs => f ← getRange expr b f; getRanges exprs b f
  end.

Definition getField (field : string) (b : Bounds) : outcome Field :=
  getRanges (filterb nonempty (split "," field)) b {| bits := ∅; star := false |}.

(** [getField('*', b)]. *)
Definition all (b : Bounds) : Field :=
  match getField "*" b with Returns f => f | _ => {| bits := ∅; star := false |} end.
Definition one (n : Z) : Field := {| bits := {[n]}; star := false |}.

(** ** Durations and descriptors *)

(** The longest prefix of characters that satisfy [p], and what follows it. *)
Fixpoint span (p : ascii → bool) (s : string) : string * string :=
  match s with
  | "" => ("", "")
  | String c s' => if p c then let '(u, v) := span p s' in (String c u, v) else ("", s)
  end.

(** The units that are whole milliseconds. *)
Definition UNITS : list (string * Z) := [("ms", 1); ("s", SECOND); ("m", MINUTE); ("h", HOUR)].

(** The other names that [in UNITS] finds: fractions of a millisecond and what an
    object inherits. *)
Definition otherUnits : list string :=
  ["ns"; "us"; "µs"; "μs"; "constructor"; "__proto__"; "hasOwnProperty"; "isPrototypeOf"; "propertyIsEnumerable";
   "toLocaleString"; "toString"; "valueOf"; "__defineGetter__"; "__defineSetter__"; "__lookupGetter__"; "__lookupSetter__"].

(** One round of the loop, on [rest] not empty: the number, its unit and what is
    left. *)
Definition durationPart (rest : string) : outcome (Z * string) :=
  let '(m1, rest) := span is_digit rest in
  let '(fraction, m2, rest) :=
    match rest with
    | String "." rest => let '(m2, rest) := span is_digit rest in (true, m2, rest)
    | _ => (false, "", rest)
    end in
  let '(m3, rest) := span (λ c, negb (is_digit c || eqs (String c "") ".")) rest in
  if negb (nonempty m1) && negb (nonempty m2) then Throws
  else match find (λ p, eqs p.1 m3) UNITS with
  | Some (_, unit) => if fraction then Outside else n ← ofOption (digitsValue 0 m1); Returns (n * unit, rest)
  | None => if some (eqs m3) otherUnits then Outside else Throws
  end.

Fixpoint durationLoop (fuel : nat) (total : Z) (rest : string) : outcome Z :=
  match fuel, rest with
  | _, "" => Returns total
  | O, _ => Outside
  | S fuel, _ => '(n, rest) ← durationPart rest; durationLoop fuel (total + n) rest
  end.

(** [time.ParseDuration], in milliseconds. *)
Definition parseDuration (text : string) : outcome Z :=
  let negative := startsWith "-" text in
  let rest := if startsWith "-" text || startsWith "+" text then sdrop 1 text else text in
  if eqs rest "0" then Returns 0
  else if eqs rest "" then Throws
  else total ← durationLoop (String.length rest) 0 rest; Returns (if negative then - total else total).

Definition parseDescriptor (spec zone : string) : outcome Schedule :=
  let at_ mi h d mo w :=
    Returns (Spec {| second := one 0; minute := mi; hour := h; dom := d; month := mo; dow := w; zone := zone |}) in
  if eqs spec "@yearly" || eqs spec "@annually" then at_ (one 0) (one 0) (one 1) (one 1) (all DOW)
  else if eqs spec "@monthly" then at_ (one 0) (one 0) (one 1) (all MONTHS) (all DOW)
  else if eqs spec "@weekly" then at_ (one 0) (one 0) (all DOM) (all MONTHS) (one 0)
  else if eqs spec "@daily" || eqs spec "@midnight" then at_ (one 0) (one 0) (all DOM) (all MONTHS) (all DOW)
  else if eqs spec "@hourly" then at_ (one 0) (all HOURS) (all DOM) (all MONTHS) (all DOW)
  else if startsWith "@every " spec then
    d ← parseDuration (sdrop 7 spec);
    Returns (Every (if d <? SECOND then SECOND else d - d mod SECOND))
  else Throws.

(** [text.split(/\s+/).filter(Boolean)]. *)
Fixpoint words (s : string) : list string :=
  match s with
  | "" => []
  | String c s' =>
      if is_space c then words s'
      else match s' with
      | "" => [String c ""]
      | String c' _ =>
          if is_space c' then String c "" :: words s'
          else match words s' with w :: ws => String c w :: ws | [] => [String c ""] end
      end
  end.

Section zones.
(** The browser's time zones: which names [Intl.DateTimeFormat] knows. *)
Context (knownZone : string → bool).

Definition loadLocation (name local : string) : outcome string :=
  if eqs name "" || eqs name "UTC" then Returns "UTC"
  else if eqs name "Local" then Returns local
  else if knownZone name then Returns name else Throws.

(** The zone a specification names and what follows it. *)
Definition zonePrefix (spec local : string) : outcome (string * string) :=
  if startsWith "TZ=" spec || startsWith "CRON_TZ=" spec then
    match indexOf " " spec, indexOf "=" spec with
    | Some i, Some eq =>
        if (i <? eq + 1)%nat then Throws
        else z ← loadLocation (stake (i - (eq + 1)) (sdrop (eq + 1) spec)) local; Returns (z, trim (sdrop i spec))
    | _, _ => Throws
    end
  else Returns (local, spec).

Definition parseStandard (text local : string) : outcome Schedule :=
  if eqs text "" then Throws else
  '(zone, spec) ← zonePrefix text local;
  if startsWith "@" spec then parseDescriptor spec zone else
  match words spec with
  | [mi; h; d; mo; w] =>
      sec ← getField "0" SECONDS;
      mi ← getField mi MINUTES; h ← getField h HOURS; d ← getField d DOM; mo ← getField mo MONTHS; w ← getField w DOW;
      Returns (Spec {| second := sec; minute := mi; hour := h; dom := d; month := mo; dow := w; zone := zone |})
  | _ => Throws
  end.
End zones.

Example every_ninety_minutes : parseStandard (λ _, true) "TZ=Asia/Seoul @every 1h30m" "UTC" = Returns (Every 5400000).
Proof. reflexivity. Qed.
Example weekday_names : getField "mon-FRI,0" DOW = Returns {| bits := {[0; 1; 2; 3; 4; 5]}; star := false |}.
Proof. vm_compute. reflexivity. Qed.

(** ** What a field means

    The grammar of a field, written from what it denotes: the texts of its parts
    are put together, not taken apart. *)

(** A number as a schedule writes it. *)
Inductive numeral : string → Z → Prop :=
| numeral_digits s n : s ≠ "" → digitsValue 0 s = Some n → numeral s n
| numeral_plus s n : s ≠ "" → digitsValue 0 s = Some n → numeral ("+" +:+ s) n.

(** A value of a field: a number, or a name in either case. *)
Inductive fieldValue (b : Bounds) : string → Z → Prop :=
| value_numeral s n : numeral s n → fieldValue b s n
| value_name table s n : names b = Some table → (toLowerCase s, n) ∈ table → fieldValue b s n.

(** Before the slash: everything, one value, or two values and a hyphen.  What
    follows the hyphen after a star is not looked at.  [single] tells a base
    without a hyphen. *)
Inductive rangeBase (b : Bounds) : string → Z → Z → bool → bool → Prop :=
| base_star c : isStar c = true → rangeBase b c (min b) (max b) true true
| base_star_dash c s : isStar c = true → free_of "/" s → rangeBase b (c +:+ "-" +:+ s) (min b) (max b) true false
| base_value s n : fieldValue b s n → rangeBase b s n n false true
| base_values s n s' n' : fieldValue b s n → fieldValue b s' n' → rangeBase b (s +:+ "-" +:+ s') n n' false false.

(** A part of a field, its values [lo], [lo + step], … up to [hi], and whether it
    leaves the day free. *)
Inductive rangeText (b : Bounds) : string → Z → Z → Z → bool → Prop :=
| range_plain s lo hi any single : rangeBase b s lo hi any single → rangeText b s lo hi 1 any
| range_step s lo hi any single s' step :
    rangeBase b s lo hi any single → numeral s' step →
    rangeText b (s +:+ "/" +:+ s') lo (if single then max b else hi) step (any && (step <=? 1)).

Record Range := { first : Z; last : Z; by_ : Z; any : bool }.
Definition inRange (r : Range) (i : Z) : Prop := first r <= i <= last r ∧ ∃ k, i = first r + k * by_ r.
Definition rangeOk (b : Bounds) (s : string) (r : Range) : Prop :=
  rangeText b s (first r) (last r) (by_ r) (any r) ∧ min b <= first r ∧ first r <= last r ∧ last r <= max b ∧ 0 < by_ r.

Definition isLower (c : ascii) : bool := (97 <=? nat_of_ascii c)%nat && (nat_of_ascii c <=? 122)%nat.

(** The names of a table are words of lower case letters, each there once. *)
Definition wfBounds (b : Bounds) : Prop :=
  match names b with
  | None => True
  | Some table =>
      NoDup table.*1 ∧ Forall (λ p, sall isLower p.1 = true) table
  end.

Lemma bounds_wf : Forall wfBounds [SECONDS; MINUTES; HOURS; DOM; MONTHS; DOW].
Proof. repeat constructor; by_decide. Qed.

(** *** Splitting *)

Lemma split_one c s a : split c s = [a] ↔ s = a ∧ free_of c a.
Proof.
  split.
  - intros E. pose proof (join_split c s) as Hj. rewrite E in Hj. simpl in Hj. subst.
    pose proof (split_pieces_free c s) as Hf. rewrite E in Hf. by apply Forall_cons in Hf as [? _].
  - intros [-> ?]. by apply split_free.
Qed.

Lemma split_more c s a l : l ≠ [] → split c s = a :: l ↔ ∃ t, s = a +:+ String c t ∧ free_of c a ∧ split c t = l.
Proof.
  intros Hl. split.
  - intros E. pose proof (join_split c s) as Hj. rewrite E in Hj.
    pose proof (split_pieces_free c s) as Hf. rewrite E in Hf. apply Forall_cons in Hf as [Ha Hf].
    destruct l as [|x l]; [done|].
    exists (join (String c "") (x :: l)). split; [by rewrite <-Hj|]. split; [done|]. by apply split_join.
  - intros (t & -> & Ha & <-). by apply split_app.
Qed.

Lemma split_two c s a a' : split c s = [a; a'] ↔ s = a +:+ String c a' ∧ free_of c a ∧ free_of c a'.
Proof.
  rewrite split_more by done. split.
  - intros (t & -> & ? & Ht). apply split_one in Ht as [-> ?]. done.
  - intros (-> & ? & ?). exists a'. by rewrite split_one.
Qed.

(** *** Numbers and names *)

Lemma digitsValue_digits acc s n : digitsValue acc s = Some n → sall is_digit s = true.
Proof.
  revert acc. induction s as [|c s IH]; intros acc; simpl; [done|]. destruct (is_digit c); [|done]. apply IH.
Qed.

Lemma digitsValue_nonneg acc s n : 0 <= acc → digitsValue acc s = Some n → 0 <= n.
Proof.
  revert acc. induction s as [|c s IH]; intros acc Hacc; simpl; [by intros [= <-]|].
  destruct (is_digit c); [|done]. apply IH. lia.
Qed.

Lemma numeral_free c s n : is_digit c = false → c ≠ "+"%char → numeral s n → free_of c s.
Proof.
  intros Hc Hp. destruct 1 as [s n _ H|s n _ H]; apply digitsValue_digits, (sall_free _ _ _ Hc) in H; [done|].
  apply free_of_cons. done.
Qed.

Lemma numeral_atoi s n : numeral s n → atoi s = Returns n.
Proof.
  unfold atoi, decimal. destruct 1 as [s n Hs Hn|s n Hs Hn].
  - pose proof (digitsValue_nonneg 0 s n ltac:(lia) Hn) as Hpos. destruct s as [|c s]; [done|].
    pose proof (digitsValue_digits _ _ _ Hn) as Hd. simpl in Hd. apply andb_true_iff in Hd as [Hc _].
    rewrite !bool_decide_false by (intros ->; done). change (nonempty _) with true. cbv iota. rewrite Hn. simpl.
    by rewrite (proj2 (Z.ltb_ge n 0)).
  - pose proof (digitsValue_nonneg 0 s n ltac:(lia) Hn) as Hpos.
    rewrite app_cons_s, app_nil_l_s. rewrite (proj2 (nonempty_true s) Hs), Hn. simpl.
    by rewrite (proj2 (Z.ltb_ge n 0)).
Qed.

Lemma atoi_numeral s n : atoi s = Returns n → free_of "-" s ∨ 0 < n → numeral s n.
Proof.
  unfold atoi, decimal. intros H Hor. destruct s as [|c s]; [done|].
  case_bool_decide as Hp; [subst|case_bool_decide as Hm; [subst|]].
  - destruct (nonempty s) eqn:Es; [|done]. apply nonempty_true in Es.
    destruct (digitsValue 0 s) as [m|] eqn:Em; [|done]. simpl in H. destruct (m <? 0); simplify_eq/=. by apply numeral_plus.
  - destruct Hor as [Hf|Hpos]; [by apply free_of_cons in Hf as [? _]|].
    destruct (nonempty s); [|done]. destruct (digitsValue 0 s) as [m|] eqn:Em; [|done].
    apply digitsValue_nonneg in Em; [|lia]. simpl in H. destruct (- m <? 0) eqn:El; simplify_eq/=. apply Z.ltb_ge in El. lia.
  - change (nonempty _) with true in H. cbv iota in H. remember (String c s) as t.
    destruct (digitsValue 0 t) as [m|] eqn:Em; [|done]. simpl in H. destruct (m <? 0); simplify_eq/=.
    by apply numeral_digits.
Qed.

Lemma numeral_start s n :
  numeral s n → ∃ c s', s = String c s' ∧ isLower (lower_ascii c) = false ∧ lower_ascii c ≠ "_"%char.
Proof.
  intros Hs. assert (∃ c s', s = String c s' ∧ (is_digit c = true ∨ c = "+"%char)) as (c & s' & -> & Hc).
  { destruct Hs as [s n Hs Hn|s n Hs Hn]; [|eexists _, s; split; [done|by right]].
    destruct s as [|c s]; [done|]. apply digitsValue_digits in Hn. simpl in Hn. apply andb_true_iff in Hn as [Hc _].
    exists c, s. split; [done|by left]. }
  exists c, s'. split; [done|]. destruct Hc as [Hc | ->]; [|done].
  destruct c as [[] [] [] [] [] [] [] []]; done.
Qed.

Lemma fieldValue_free b c s n :
  wfBounds b → c = "-"%char ∨ c = "/"%char → fieldValue b s n → free_of c s.
Proof.
  intros Hb Hc. destruct 1 as [s n Hs|table s n Ht Hin].
  - destruct Hc as [-> | ->]; by eapply numeral_free.
  - unfold wfBounds in Hb. rewrite Ht in Hb. destruct Hb as [_ Hl]. rewrite Forall_forall in Hl.
    specialize (Hl _ Hin). simpl in Hl. clear Ht Hin. induction s as [|a s IH]; [done|].
    simpl in Hl. apply andb_true_iff in Hl as [Ha Hl]. apply free_of_cons. split; [|by apply IH].
    intros ->. by destruct Hc as [-> | ->].
Qed.

Lemma table_find (table : list (string * Z)) s n :
  NoDup table.*1 → (s, n) ∈ table → find (λ p, eqs p.1 s) table = Some (s, n).
Proof.
  induction table as [|[s' n'] table IH]; [by intros _ ?%elem_of_nil|]. simpl. intros [Hnot Hd]%NoDup_cons Hin.
  destruct (eqs s' s) eqn:E.
  - apply eqs_true in E as ->. apply elem_of_cons in Hin as [[= ->]|Hin]; [done|].
    destruct Hnot. by apply (list_elem_of_fmap_2 fst) in Hin.
  - apply elem_of_cons in Hin as [[= -> ->]|Hin]; [by rewrite eqs_refl in E|by apply IH].
Qed.

Lemma fieldValue_intOrName b s n : wfBounds b → fieldValue b s n → intOrName s b = Returns n.
Proof.
  unfold wfBounds, intOrName. intros Hb. destruct 1 as [s n Hs|table s n Ht Hin].
  - pose proof (numeral_atoi _ _ Hs) as Ha. destruct (names b) as [table|]; [|done]. destruct Hb as [_ Hl].
    destruct (numeral_start _ _ Hs) as (c & s' & -> & Hc & Hu). simpl.
    rewrite (proj2 (find_None _ table)).
    + assert (inherited (String (lower_ascii c) (toLowerCase s')) = false) as ->; [|done].
      unfold inherited. apply orb_false_iff. split; apply eqs_false; intros [= E _]; [|done]. by rewrite E in Hc.
    + eapply Forall_impl; [exact Hl|]. intros [k m] Hk. simpl in *. apply eqs_false. intros ->.
      simpl in Hk. apply andb_true_iff in Hk as [Hk _]. congruence.
  - rewrite Ht in *. destruct Hb as [Hd _]. by rewrite (table_find _ _ _ Hd Hin).
Qed.

Lemma intOrName_fieldValue b s n : intOrName s b = Returns n → free_of "-" s → fieldValue b s n.
Proof.
  unfold intOrName. intros H Hf. destruct (names b) as [table|] eqn:Et.
  - destruct (find _ table) as [[k m]|] eqn:E.
    + apply find_Some in E as [Hin E]. apply eqs_true in E. simpl in E. simplify_eq/=. by eapply value_name.
    + destruct (inherited _); [done|]. apply value_numeral, atoi_numeral; auto.
  - apply value_numeral, atoi_numeral; auto.
Qed.

(** *** Ranges *)

Lemma isStar_free c s : isStar s = true → c ≠ "*"%char → c ≠ "?"%char → free_of c s.
Proof.
  unfold isStar. rewrite orb_true_iff, !eqs_true. intros [-> | ->] ? ?; apply free_of_cons; by split.
Qed.

Lemma fieldValue_not_star b s n : wfBounds b → fieldValue b s n → isStar s = false.
Proof.
  intros Hb Hv. apply fieldValue_intOrName in Hv; [|done]. unfold wfBounds in Hb.
  destruct (isStar s) eqn:E; [|done]. exfalso. revert Hv. unfold isStar in E.
  unfold intOrName. destruct (names b) as [table|].
  - destruct (find _ table) as [[k m]|] eqn:Ef.
    + apply find_Some in Ef as [Hin Ek]. apply eqs_true in Ek. destruct Hb as [_ Hl].
      rewrite Forall_forall in Hl. specialize (Hl _ Hin). rewrite Ek in Hl.
      apply orb_true_iff in E as [->%eqs_true | ->%eqs_true]; done.
    + apply orb_true_iff in E as [->%eqs_true | ->%eqs_true]; done.
  - apply orb_true_iff in E as [->%eqs_true | ->%eqs_true]; done.
Qed.

Definition isOne {A} (l : list A) : bool := match l with [_] => true | _ => false end.

Lemma lowHigh_base b s lo hi any :
  wfBounds b → free_of "/" s → lowHigh (split "-" s) b = Returns (lo, hi, any) → rangeBase b s lo hi any (isOne (split "-" s)).
Proof.
  intros Hb Hs H. destruct (split "-" s) as [|low rest] eqn:E; [done|]. cbn [lowHigh] in H.
  pose proof (split_pieces_free "-" s) as Hf. rewrite E in Hf. apply Forall_cons in Hf as [Hlow Hrest].
  destruct (isStar low) eqn:Es.
  - simplify_eq/=. destruct rest as [|x rest].
    + apply split_one in E as [-> _]. by apply base_star.
    + apply split_more in E as (t & -> & _ & _); [|done]. cbn [isOne].
      apply (base_star_dash b low t Es). apply free_of_app in Hs as [_ Hs]. by apply free_of_cons in Hs as [_ Hs].
  - destruct (intOrName low b) as [start | |] eqn:Ev; try done. simpl in H.
    destruct rest as [|high [|x rest]]; simplify_eq/=.
    + apply split_one in E as [-> ?]. apply base_value. by apply intOrName_fieldValue.
    + apply split_two in E as (-> & ? & ?). destruct (intOrName high b) as [stop | |] eqn:Eh; simplify_eq/=.
      apply (base_values b low lo high hi); by apply intOrName_fieldValue.
Qed.

Lemma base_lowHigh b s lo hi any single :
  wfBounds b → rangeBase b s lo hi any single →
  free_of "/" s ∧ isOne (split "-" s) = single ∧ lowHigh (split "-" s) b = Returns (lo, hi, any).
Proof.
  intros Hb. destruct 1 as [c Hc|c s Hc Hs|s n Hv|s n s' n' Hv Hv'].
  - split; [by apply isStar_free|]. rewrite split_free by (by apply isStar_free). cbn. by rewrite Hc.
  - split; [apply free_of_app; split; [by apply isStar_free|by apply free_of_cons]|].
    change ("-" +:+ s) with (String "-" s). rewrite (split_app "-" c s) by (by apply isStar_free). cbn. rewrite Hc.
    destruct (split "-" s) eqn:E; [by apply split_ne in E|done].
  - split; [eapply fieldValue_free; eauto|]. rewrite split_free by (eapply fieldValue_free; eauto). cbn.
    by rewrite (fieldValue_not_star _ _ _ Hb Hv), (fieldValue_intOrName _ _ _ Hb Hv).
  - split.
    { apply free_of_app. split; [eapply fieldValue_free; eauto|]. apply free_of_cons. split; [done|].
      eapply fieldValue_free; eauto. }
    change ("-" +:+ s') with (String "-" s'). rewrite (split_app "-" s s'), (split_free "-" s') by (eapply fieldValue_free; eauto). cbn.
    by rewrite (fieldValue_not_star _ _ _ Hb Hv), (fieldValue_intOrName _ _ _ Hb Hv), (fieldValue_intOrName _ _ _ Hb Hv').
Qed.

(** The loop adds the values of the progression. *)
Lemma setBits_spec fuel i last step set j :
  0 < step → last - i < Z.of_nat fuel →
  j ∈ setBits fuel i last step set ↔ j ∈ set ∨ (j <= last ∧ ∃ k, 0 <= k ∧ j = i + k * step).
Proof.
  intros Hs. revert i set. induction fuel as [|fuel IH]; intros i set Hf; simpl.
  - split; [by left|]. intros [|(? & k & ? & ->)]; [done|]. nia.
  - destruct (Z.leb_spec i last).
    + rewrite IH by lia. rewrite elem_of_union, elem_of_singleton. split.
      * intros [[-> | ?]|(? & k & ? & ->)]; [right; split; [done|]; exists 0; lia|by left|].
        right. split; [done|]. exists (k + 1). lia.
      * intros [?|(? & k & ? & ->)]; [by left; right|].
        destruct (decide (k = 0)) as [->|]; [left; left; lia|]. right. split; [done|]. exists (k - 1). lia.
    + split; [by left|]. intros [|(? & k & ? & ->)]; [done|]. nia.
Qed.

Lemma setBits_range lo hi step set j :
  0 < step → lo <= hi →
  j ∈ setBits (Z.to_nat (hi - lo + 1)) lo hi step set ↔ j ∈ set ∨ inRange {| first := lo; last := hi; by_ := step; any := false |} j.
Proof.
  intros Hs Hl. rewrite setBits_spec by lia. unfold inRange. cbn. apply or_iff_compat_l. split.
  - intros (? & k & ? & ->). split; [nia|]. eauto.
  - intros ([? ?] & k & ->). split; [done|]. exists k. split; [nia|done].
Qed.

(** What [getRange] does once the text is taken apart. *)
Definition addRange (b : Bounds) (lo hi step : Z) (any : bool) (f : Field) : outcome Field :=
  if (lo <? min b) || (max b <? hi) || (hi <? lo) || (step =? 0) then Throws
  else Returns {| bits := setBits (Z.to_nat (hi - lo + 1)) lo hi step (bits f); star := any || star f |}.

Lemma addRange_spec b lo hi step any f f' :
  0 <= step →
  addRange b lo hi step any f = Returns f' ↔
  (min b <= lo ∧ lo <= hi ∧ hi <= max b ∧ 0 < step) ∧
  (∀ j, j ∈ bits f' ↔ j ∈ bits f ∨ inRange {| first := lo; last := hi; by_ := step; any := any |} j) ∧
  star f' = any || star f.
Proof.
  intros Hs. unfold addRange. destruct (_ || _) eqn:E.
  - split; [done|]. intros [? _]. rewrite !orb_true_iff, !Z.ltb_lt, Z.eqb_eq in E. lia.
  - rewrite !orb_false_iff, !Z.ltb_ge, Z.eqb_neq in E. split.
    + intros [= <-]. split_and!; [lia..| |done]. intros j. apply setBits_range; lia.
    + intros (? & Hj & Hst). destruct f' as [bits' star']. simpl in *. subst. f_equal. f_equal.
      apply set_eq. intros j. rewrite Hj. apply setBits_range; lia.
Qed.

Lemma atoi_nonneg s n : atoi s = Returns n → 0 <= n.
Proof.
  unfold atoi. destruct (ofOption _) as [m| |]; simpl; try done.
  destruct (m <? 0) eqn:E; [done|]. intros [= <-]. by apply Z.ltb_ge in E.
Qed.

Lemma getRange_one b expr f :
  free_of "/" expr → getRange expr b f = ('(lo, hi, any) ← lowHigh (split "-" expr) b; addRange b lo hi 1 any f).
Proof.
  intros Hf. unfold getRange. rewrite (split_free "/") by done. cbn.
  by destruct (lowHigh (split "-" expr) b) as [[[lo hi] any]| |].
Qed.

Lemma getRange_step b expr n f :
  free_of "/" expr → free_of "/" n →
  getRange (expr +:+ String "/" n) b f =
  ('(lo, hi, any) ← lowHigh (split "-" expr) b; step ← atoi n;
   addRange b lo (if isOne (split "-" expr) then max b else hi) step (any && (step <=? 1)) f).
Proof.
  intros Hf Hn. unfold getRange. rewrite (split_app "/"), (split_free "/" n) by done. cbn.
  destruct (lowHigh (split "-" expr) b) as [[[lo hi] any]| |]; try done. cbn.
  destruct (atoi n) as [step| |]; try done. cbn. unfold addRange.
  rewrite Z.leb_antisym. destruct (split "-" expr) as [|x [|y l]]; destruct (1 <? step), any; done.
Qed.

Lemma getRange_spec b expr f f' :
  wfBounds b →
  getRange expr b f = Returns f' ↔
  ∃ r, rangeOk b expr r ∧ (∀ j, j ∈ bits f' ↔ j ∈ bits f ∨ inRange r j) ∧ star f' = any r || star f.
Proof.
  intros Hb. split.
  - destruct (split "/" expr) as [|base [|n [|x l]]] eqn:E.
    + by apply split_ne in E.
    + apply split_one in E as [-> Hf]. rewrite getRange_one by done.
      destruct (lowHigh _ _) as [[[lo hi] any]| |] eqn:El; try done. cbn. intros H.
      apply addRange_spec in H as (? & ? & ?); [|lia]. apply lowHigh_base in El; [|done..].
      exists {| first := lo; last := hi; by_ := 1; any := any |}. split_and!; [|done..].
      split; [by econstructor|done].
    + apply split_two in E as (-> & Hf & Hn). rewrite getRange_step by done.
      destruct (lowHigh _ _) as [[[lo hi] any]| |] eqn:El; try done. cbn.
      destruct (atoi n) as [step| |] eqn:Ea; try done. cbn. intros H.
      pose proof (atoi_nonneg _ _ Ea).
      apply addRange_spec in H as (? & ? & ?); [|lia]. apply lowHigh_base in El; [|done..].
      eexists {| any := _ |}. split_and!; [|done..]. split; [|done]. cbn. apply (range_step b base lo hi any _ n step El).
      apply atoi_numeral; [done|]. right. lia.
    + unfold getRange. rewrite E. cbn. destruct (lowHigh _ _) as [[[? ?] ?]| |]; done.
  - intros ([lo hi step any] & [Ht Hok] & Hbits & Hstar). cbn in *. inversion Ht as [s lo' hi' any' single Hbase|s lo' hi' any' single s' step' Hbase Hn]; subst.
    + destruct (base_lowHigh _ _ _ _ _ _ Hb Hbase) as (Hf & Hone & Hl).
      rewrite getRange_one, Hl by done. cbn. apply addRange_spec; [lia|done].
    + destruct (base_lowHigh _ _ _ _ _ _ Hb Hbase) as (Hf & Hone & Hl). rewrite <-Hone in *.
      change ("/" +:+ s') with (String "/" s').
      rewrite getRange_step by (done || by eapply numeral_free). rewrite Hl, (numeral_atoi _ _ Hn). cbn.
      apply addRange_spec; [lia|done].
Qed.

(** *** Fields *)

(** What a field denotes: each of its parts, between commas, is a range within
    the bounds; its values are those of its parts. *)
Definition denotes (b : Bounds) (field : string) (f : Field) : Prop :=
  ∃ ranges, Forall2 (rangeOk b) (filterb nonempty (split "," field)) ranges ∧
            (∀ j, j ∈ bits f ↔ Exists (λ r, inRange r j) ranges) ∧ star f = existsb any ranges.

Lemma getRanges_spec b exprs f f' :
  wfBounds b →
  getRanges exprs b f = Returns f' ↔
  ∃ ranges, Forall2 (rangeOk b) exprs ranges ∧
            (∀ j, j ∈ bits f' ↔ j ∈ bits f ∨ Exists (λ r, inRange r j) ranges) ∧ star f' = existsb any ranges || star f.
Proof.
  intros Hb. revert f. induction exprs as [|expr exprs IH]; intros f; cbn [getRanges].
  - split.
    + intros [= ->]. exists []. split_and!; [constructor| |done]. intros j. rewrite Exists_nil. tauto.
    + intros (ranges & Hr & Hbits & Hstar). apply Forall2_nil_inv_l in Hr as ->. f_equal.
      destruct f, f'. cbn in *. subst. f_equal. apply set_eq. intros j. rewrite Hbits, Exists_nil. tauto.
  - split.
    + destruct (getRange expr b f) as [f1| |] eqn:E; try done. cbn. intros H. apply IH in H as (ranges & Hr & Hbits & Hstar).
      apply getRange_spec in E as (r & Hok & Hbits1 & Hstar1); [|done].
      exists (r :: ranges). split_and!; [by constructor| |].
      * intros j. rewrite Hbits, Hbits1, Exists_cons. tauto.
      * rewrite Hstar, Hstar1. cbn. by destruct (any r), (existsb any ranges).
    + intros (ranges & Hr & Hbits & Hstar). apply Forall2_cons_inv_l in Hr as (r & ranges' & Hok & Hr & ->).
      pose (f1 := {| bits := setBits (Z.to_nat (last r - first r + 1)) (first r) (last r) (by_ r) (bits f); star := any r || star f |}).
      assert (∀ j, j ∈ bits f1 ↔ j ∈ bits f ∨ inRange r j) as Hf1 by (intros j; destruct Hok as [_ ?]; apply setBits_range; lia).
      assert (getRange expr b f = Returns f1) as -> by (apply getRange_spec; [done|]; by exists r).
      apply IH. exists ranges'. split_and!; [done| |].
      * intros j. rewrite Hbits, Exists_cons, Hf1. tauto.
      * rewrite Hstar. cbn. by destruct (any r), (existsb any ranges').
Qed.

Lemma getField_spec b field f : wfBounds b → getField field b = Returns f ↔ denotes b field f.
Proof.
  intros Hb. unfold getField, denotes. rewrite getRanges_spec by done. cbn.
  apply exist_proper. intros ranges. rewrite orb_false_r. setoid_rewrite elem_of_empty. naive_solver.
Qed.

Lemma denotes_bounds b field f j : denotes b field f → j ∈ bits f → min b <= j <= max b.
Proof.
  intros (ranges & Hr & Hbits & _) Hj. apply Hbits, Exists_exists in Hj as (r & Hin & Hin').
  apply list_elem_of_lookup in Hin as [i Hi]. eapply Forall2_lookup_r in Hr as (s & _ & _ & Hok); [|done].
  destruct Hin' as [? _]. lia.
Qed.

(** *** What does not read *)

(** A value of the field is a name that every object inherits. *)
Definition hasInherited (field : string) : bool :=
  some (λ part, some (λ name, inherited (toLowerCase name)) (split "-" (default "" (split "/" part !! 0%nat)))) (split "," field).

Lemma atoi_not_outside s : atoi s ≠ Outside.
Proof.
  unfold atoi, ofOption. destruct (match s with "" => _ | _ => _ end) as [n|]; [|done]. cbn. by destruct (n <? 0).
Qed.

Lemma intOrName_outside s b : intOrName s b = Outside → inherited (toLowerCase s) = true.
Proof.
  unfold intOrName. destruct (names b); [|by intros ?%atoi_not_outside].
  destruct (find _ _) as [[? ?]|]; [done|]. destruct (inherited _); [done|]. by intros ?%atoi_not_outside.
Qed.

Lemma lowHigh_outside l b : lowHigh l b = Outside → ∃ name, name ∈ l ∧ inherited (toLowerCase name) = true.
Proof.
  destruct l as [|low rest]; [done|]. cbn [lowHigh]. destruct (isStar low); [done|].
  destruct (intOrName low b) eqn:E; try done.
  - cbn. destruct rest as [|high [|x rest]]; try done. destruct (intOrName high b) eqn:E'; try done.
    intros _. exists high. split; [by right; left|by eapply intOrName_outside].
  - intros _. exists low. split; [left|by eapply intOrName_outside].
Qed.

Lemma getRange_outside expr b f :
  getRange expr b f = Outside →
  some (λ name, inherited (toLowerCase name)) (split "-" (default "" (split "/" expr !! 0%nat))) = true.
Proof.
  unfold getRange. destruct (split "/" expr) as [|base rest] eqn:E; [by apply split_ne in E|]. cbn.
  destruct (lowHigh (split "-" base) b) as [[[lo hi] any]| |] eqn:El; cbn.
  - destruct rest as [|n [|x rest]]; cbn; try done; [by destruct (_ || _)|].
    destruct (atoi n) eqn:Ea; cbn; [by destruct (_ || _)|done|by apply atoi_not_outside in Ea].
  - done.
  - intros _. apply lowHigh_outside in El. by apply some_true.
Qed.

Lemma getField_outside field b : getField field b = Outside → hasInherited field = true.
Proof.
  unfold getField, hasInherited.
  assert (∀ expr, expr ∈ filterb nonempty (split "," field) → expr ∈ split "," field) as Hin
    by (intros expr ?%elem_of_filterb; tauto).
  revert Hin. generalize (filterb nonempty (split "," field)) as exprs. intros exprs.
  generalize {| bits := ∅; star := false |} as f. induction exprs as [|expr exprs IH]; intros f Hin; [done|]. cbn.
  destruct (getRange expr b f) as [f1| |] eqn:E; [|done|].
  - apply IH. intros. apply Hin. by right.
  - intros _. apply some_true. exists expr. split; [apply Hin; left|]. by eapply getRange_outside.
Qed.

Lemma getField_throws b field :
  wfBounds b → hasInherited field = false → (∀ f, ¬ denotes b field f) → getField field b = Throws.
Proof.
  intros Hb Hi Hd. destruct (getField field b) as [f| |] eqn:E; [|done|].
  - apply getField_spec in E; [|done]. by destruct (Hd f).
  - apply getField_outside in E. congruence.
Qed.

(** C18. A field of a schedule is read exactly when every part of it, between
    commas, is a range of numbers or names within the field's bounds with an
    optional step; it then holds the values of its parts and no others, all within
    the bounds; any other field throws. *)
Theorem field_values b field :
  b ∈ [SECONDS; MINUTES; HOURS; DOM; MONTHS; DOW] →
  (∀ f, getField field b = Returns f ↔ denotes b field f) ∧
  (∀ f j, getField field b = Returns f → j ∈ bits f → min b <= j <= max b) ∧
  (hasInherited field = false → (∀ f, ¬ denotes b field f) → getField field b = Throws).
Proof.
  intros Hin. assert (wfBounds b) as Hb by (revert b Hin; apply Forall_forall, bounds_wf).
  split_and!; [intros f; by apply getField_spec| |by apply getField_throws].
  intros f j Hf. eapply denotes_bounds. by apply getField_spec.
Qed.

Lemma field_values_witness :
  denotes MINUTES "5-20/5,40" {| bits := {[5; 10; 15; 20; 40]}; star := false |} ∧
  getField "3-70" MINUTES = Throws.
Proof.
  split; [|reflexivity].
  apply (proj1 (field_values MINUTES "5-20/5,40" ltac:(right; left))). vm_compute. reflexivity.
Defined.
