(* ===== verification/CronNext.v ===== *)
(** * The next run of a CronJob

    utils/cron.ts, the search: the wall clock of a zone, [goDate] and [addDate],
    [dayMatches], [specNext] and [nextCronRun].  The time-zone database of the
    browser is a parameter: [offsetAt zone t] is what the clock of a zone is
    ahead of UTC at an instant.  Instants are in milliseconds. *)

From S2P Require Import Prelude JsString Json Calendar Cron.

#[local] Open Scope Z_scope.

Record Wall := { w_y : Z; w_mo : Z; w_d : Z; w_h : Z; w_mi : Z; w_s : Z }.

(** [Date.UTC(y, mo - 1, d, h, mi, s)]. *)
Definition utcOf (w : Wall) : Z := 1000 * utcSeconds (w_y w) (w_mo w - 1) (w_d w) (w_h w) (w_mi w) (w_s w).

(** The clock that reads [x] seconds after the epoch in UTC. *)
Definition clock (x : Z) : Wall :=
  let day := x / 86400 in
  {| w_y := yearOfDay day; w_mo := monthOfDay day + 1; w_d := day - monthDay (monthIndex day) + 1;
     w_h := x mod 86400 / 3600; w_mi := x mod 3600 / 60; w_s := x mod 60 |}.

(** [loop]: how many rounds a loop is given, as a power of two. *)
Definition ROUNDS : nat := 32.

Section zones.
Context (knownZone : string → bool) (offsetAt : string → Z → Z).

Definition wall (ms : Z) (zone : string) : Wall := clock ((ms + offsetAt zone ms) / 1000).

Definition offset (ms : Z) (zone : string) : Z := utcOf (wall ms zone) - (ms - ms mod SECOND).

Definition goDate (y mo d h mi s : Z) (zone : string) : Z :=
  let unix := 1000 * utcSeconds y (mo - 1) d h mi s in
  unix - offset (unix - offset unix zone) zone.

Definition addDate (ms months days : Z) (zone : string) : Z :=
  let w := wall ms zone in goDate (w_y w) (w_mo w + months) (w_d w + days) (w_h w) (w_mi w) (w_s w) zone.

Definition has (f : Field) (n : Z) : bool := bool_decide (n ∈ bits f).

Definition dayMatches (s : SpecSchedule) (w : Wall) : bool :=
  let domMatch := has (dom s) (w_d w) in
  let dowMatch := has (dow s) (weekday (makeDay (w_y w) (w_mo w - 1) + w_d w - 1)) in
  if star (dom s) || star (dow s) then domMatch && dowMatch else domMatch || dowMatch.

(** How a [while] of the search ends: it starts over ([continue wrap]) or the
    next field is looked at. *)
Inductive ending := Wrap (t : Z) (added : bool) | Pass (t : Z) (added : bool).

(** [while (!matches(w)) { if (!added) { added = true; t = low(t, w) }
    t = next(t); w = wall(t, z); if (wraps(w)) continue wrap }]: the five loops of
    [specNext].  [w] is always the clock at [t]. *)
Definition fieldLoop (zone : string) (matches wraps : Wall → bool) (low : Z → Wall → Z) (next : Z → Z) (t : Z) (added : bool)
    : (Z * bool) + ending :=
  iterate ROUNDS (λ '(t, added),
    let w := wall t zone in
    if matches w then inr (Pass t added)
    else
      let t := if added : bool then t else low t w in
      let t := next t in
      if wraps (wall t zone) then inr (Wrap t true) else inl (t, true)) (t, added).

Definition monthLoop (s : SpecSchedule) : Z → bool → (Z * bool) + ending :=
  fieldLoop (zone s) (λ w, has (month s) (w_mo w)) (λ w, w_mo w =? 1)
    (λ t w, goDate (w_y w) (w_mo w) 1 0 0 0 (zone s)) (λ t, addDate t 1 0 (zone s)).

(** [addDate] may land beside midnight where the clock changes. *)
Definition toMidnight (t : Z) (zone : string) : Z :=
  let w := wall t zone in
  if w_h w =? 0 then t else if 12 <? w_h w then t + (24 - w_h w) * HOUR else t - w_h w * HOUR.

Definition dayLoop (s : SpecSchedule) : Z → bool → (Z * bool) + ending :=
  fieldLoop (zone s) (dayMatches s) (λ w, w_d w =? 1)
    (λ t w, goDate (w_y w) (w_mo w) (w_d w) 0 0 0 (zone s)) (λ t, toMidnight (addDate t 0 1 (zone s)) (zone s)).

Definition hourLoop (s : SpecSchedule) : Z → bool → (Z * bool) + ending :=
  fieldLoop (zone s) (λ w, has (hour s) (w_h w)) (λ w, w_h w =? 0)
    (λ t w, goDate (w_y w) (w_mo w) (w_d w) (w_h w) 0 0 (zone s)) (λ t, t + HOUR).

Definition minuteLoop (s : SpecSchedule) : Z → bool → (Z * bool) + ending :=
  fieldLoop (zone s) (λ w, has (minute s) (w_mi w)) (λ w, w_mi w =? 0) (λ t w, t - t mod MINUTE) (λ t, t + MINUTE).

Definition secondLoop (s : SpecSchedule) : Z → bool → (Z * bool) + ending :=
  fieldLoop (zone s) (λ w, has (second s) (w_s w)) (λ w, w_s w =? 0) (λ t w, t - t mod SECOND) (λ t, t + SECOND).

(** The loops one after the other; a [continue wrap] leaves the rest. *)
Fixpoint inTurn (loops : list (Z → bool → (Z * bool) + ending)) (t : Z) (added : bool) : (Z * bool) + ending :=
  match loops with
  | [] => inr (Pass t added)
  | loop :: loops =>
      match loop t added with
      | inr (Pass t added) => inTurn loops t added
      | other => other
      end
  end.

(** One round of [wrap].  [inr None] is a loop that has not ended in its
    rounds. *)
Definition wrapRound (s : SpecSchedule) (yearLimit : Z) : Z * bool → (Z * bool) + option (option Z) :=
  λ '(t, added),
    if yearLimit <? w_y (wall t (zone s)) then inr (Some None)
    else match inTurn [monthLoop s; dayLoop s; hourLoop s; minuteLoop s; secondLoop s] t added with
    | inr (Wrap t added) => inl (t, added)
    | inr (Pass t _) => inr (Some (Some t))
    | inl _ => inr None
    end.

(** [Some None] is the code's null. *)
Definition specNext (s : SpecSchedule) (from : Z) : option (option Z) :=
  let t := from - from mod SECOND + SECOND in
  let yearLimit := w_y (wall t (zone s)) + 5 in
  match iterate ROUNDS (wrapRound s yearLimit) (t, false) with
  | inr r => r
  | inl _ => None
  end.

(** [since]: the instant of the argument, [None] where there is none. *)
Definition everyNext (delay at_ : Z) (since : option Z) : Z :=
  match since with
  | None => at_ - at_ mod SECOND + delay
  | Some start =>
      let first := start - start mod SECOND in
      first + Z.max 1 ((at_ - first) / delay + 1) * delay
  end.

(** The specification the controller parses ([formatSchedule]). *)
Definition formatted (schedule : string) (timeZone : option string) (local : string) : outcome string :=
  match timeZone with
  | Some tz =>
      if negb (includes "TZ" schedule) && nonempty tz
      then _ ← loadLocation knownZone tz local; Returns ("TZ=" +:+ tz +:+ " " +:+ schedule)
      else Returns schedule
  | None => Returns schedule
  end.

(** [None] is null: no schedule, nothing in five years, or an error. *)
Definition nextCronRun (schedule timeZone : option string) (from : Z) (since : option Z) (local : string) : outcome (option Z) :=
  match schedule with
  | None => Returns None
  | Some schedule =>
      if eqs (trim schedule) "" then Returns None else
      match (spec ← formatted schedule timeZone local; parseStandard knownZone spec local) with
      | Throws => Returns None
      | Outside => Outside
      | Returns (Every delay) => Returns (Some (everyNext delay from since))
      | Returns (Spec s) => match specNext s from with Some r => Returns r | None => Outside end
      end
  end.
End zones.

Example next_in_seoul :
  nextCronRun (λ _, true) (λ z _, if eqs z "Asia/Seoul" then 32400000 else 0) (Some "0 3 * * *") (Some "Asia/Seoul")
    (1000 * utcSeconds 2026 9 10 12 0 30) None "UTC" = Returns (Some (1000 * utcSeconds 2026 9 10 18 0 0)).
Proof. vm_compute. reflexivity. Qed.
Example first_or_monday :
  nextCronRun (λ _, true) (λ _ _, 0) (Some "0 0 1 * 1") (Some "UTC")
    (1000 * utcSeconds 2026 9 10 12 0 30) None "UTC" = Returns (Some (1000 * utcSeconds 2026 9 12 0 0 0)).
Proof. vm_compute. reflexivity. Qed.
Example never : nextCronRun (λ _, true) (λ _ _, 0) (Some "0 0 30 2 *") None 1791633630000 None "UTC" = Returns None.
Proof. vm_compute. reflexivity. Qed.

(** ** Units of the clock

    A unit cuts the seconds into pieces: piece [k] is from [bound k] up to
    [bound (k + 1)]; [holds] tells whether a field of the schedule allows it. *)

Record Level := { idx : Z → Z; bound : Z → Z; holds : Z → bool }.

Record LevelOk (l : Level) : Prop := {
  bound_lt j k : j < k → bound l j < bound l k;
  bound_idx x : bound l (idx l x) <= x < bound l (idx l x + 1);
  holds_idx x y : idx l x = idx l y → holds l x = holds l y
}.

(** The bounds of a coarser unit are bounds of a finer one. *)
Definition coarser (a l : Level) : Prop := ∀ k, ∃ j, bound a k = bound l j.
Definition aligned (l : Level) (x : Z) : Prop := ∃ k, x = bound l k.

#[local] Set Default Proof Using "Type*".

Section levels.
Context {l : Level} (Hl : LevelOk l).

Lemma bound_le j k : j <= k → bound l j <= bound l k.
Proof. intros. destruct (decide (j = k)) as [->|]; [lia|]. pose proof (bound_lt l Hl j k). lia. Qed.

Lemma idx_unique x k : bound l k <= x < bound l (k + 1) → idx l x = k.
Proof.
  intros H. pose proof (bound_idx l Hl x). destruct (Z.lt_trichotomy (idx l x) k) as [|[|]]; [|done|].
  - pose proof (bound_le (idx l x + 1) k). lia.
  - pose proof (bound_le (k + 1) (idx l x)). lia.
Qed.

Lemma idx_bound k : idx l (bound l k) = k.
Proof. apply idx_unique. pose proof (bound_lt l Hl k (k + 1)). lia. Qed.

Lemma aligned_idx x : aligned l x → bound l (idx l x) = x.
Proof. intros [k ->]. by rewrite idx_bound. Qed.

(** The rest of a piece is like its first second. *)
Lemma holds_rest x y : x <= y < bound l (idx l x + 1) → holds l y = holds l x.
Proof. intros. apply (holds_idx l Hl). apply idx_unique. pose proof (bound_idx l Hl x). lia. Qed.

Lemma idx_rest x y : x <= y < bound l (idx l x + 1) → idx l y = idx l x.
Proof. intros. apply idx_unique. pose proof (bound_idx l Hl x). lia. Qed.
End levels.

(** The next piece of a unit is not past the end of a coarser one. *)
Lemma next_coarser a l x :
  LevelOk a → LevelOk l → coarser a l → bound l (idx l x + 1) <= bound a (idx a x + 1).
Proof.
  intros Ha Hl Hc. destruct (Hc (idx a x + 1)) as [j Hj]. rewrite Hj.
  apply (bound_le Hl). apply Z.le_succ_l, Z.nle_gt. intros Hle.
  pose proof (bound_le Hl _ _ Hle). pose proof (bound_idx _ Ha x). pose proof (bound_idx _ Hl x). lia.
Qed.

(** ** The search over the units *)

Section search.
(** The units with their fields, and the first second looked at. *)
Context (levels : list Level) (x0 : Z).
Context (Hlevels : ∀ l, l ∈ levels → LevelOk l).

Definition allHold (x : Z) : Prop := ∀ l, l ∈ levels → holds l x = true.

(** Nothing before [x] is allowed by every field; once time has been moved, each
    field allows [x] or [x] starts a piece of its unit. *)
Definition searched (x : Z) (added : bool) : Prop :=
  x0 <= x ∧ (∀ y, x0 <= y < x → ¬ allHold y) ∧ (added = true → ∀ l, l ∈ levels → holds l x = true ∨ aligned l x).

(** Moving on to the next piece of a unit whose field does not allow this one. *)
Lemma searched_next l x added :
  l ∈ levels → (∀ m, m ∈ levels → coarser l m ∨ (coarser m l ∧ holds m x = true)) →
  searched x added → holds l x = false → searched (bound l (idx l x + 1)) true.
Proof.
  intros Hin Hall (Hx & Hno & Hadd) Hf. pose proof (bound_idx _ (Hlevels l Hin) x) as Hb.
  split_and!; [lia| |].
  - intros y Hy. destruct (decide (y < x)); [apply Hno; lia|]. intros Hy'.
    specialize (Hy' l Hin). rewrite (holds_rest (Hlevels l Hin) x y) in Hy' by lia. congruence.
  - intros _ m Hm. destruct (Hall m Hm) as [Hc|[Hc Hh]].
    + right. destruct (Hc (idx l x + 1)) as [j ->]. by exists j.
    + pose proof (next_coarser m l x (Hlevels m Hm) (Hlevels l Hin) Hc) as Hle.
      destruct (decide (bound l (idx l x + 1) = bound m (idx m x + 1))) as [->|]; [right; by eexists|].
      left. rewrite (holds_rest (Hlevels m Hm) x) by lia. done.
Qed.

(** Where the piece starts, whether or not time has been moved. *)
Lemma searched_low l x added :
  l ∈ levels → searched x added → holds l x = false → added = true → bound l (idx l x) = x.
Proof.
  intros Hin (_ & _ & Hadd) Hf E. destruct (Hadd E l Hin) as [|]; [congruence|]. by apply (aligned_idx (Hlevels l Hin)).
Qed.
End search.

(** ** The units of a schedule *)

Definition widthLevel (w : Z) (h : Z → bool) : Level := {| idx := λ x, x / w; bound := λ k, w * k; holds := h |}.

Definition yearLevel (limit : Z) : Level :=
  {| idx := λ x, yearOfDay (x / 86400); bound := λ k, 86400 * dayFromYear k; holds := λ x, w_y (clock x) <=? limit |}.
Definition monthLevel (s : SpecSchedule) : Level :=
  {| idx := λ x, monthIndex (x / 86400); bound := λ k, 86400 * monthDay k; holds := λ x, has (month s) (w_mo (clock x)) |}.
Definition dayLevel (s : SpecSchedule) : Level := widthLevel 86400 (λ x, dayMatches s (clock x)).
Definition hourLevel (s : SpecSchedule) : Level := widthLevel 3600 (λ x, has (hour s) (w_h (clock x))).
Definition minuteLevel (s : SpecSchedule) : Level := widthLevel 60 (λ x, has (minute s) (w_mi (clock x))).
Definition secondLevel (s : SpecSchedule) : Level := widthLevel 1 (λ x, has (second s) (w_s (clock x))).

Definition levelsOf (s : SpecSchedule) (limit : Z) : list Level :=
  [yearLevel limit; monthLevel s; dayLevel s; hourLevel s; minuteLevel s; secondLevel s].

Lemma width_ok w h : 0 < w → (∀ x y, x / w = y / w → h x = h y) → LevelOk (widthLevel w h).
Proof. intros Hw Hh. split; cbn; [nia| |done]. intros x. pose proof (Z.div_mod x w). pose proof (Z.mod_pos_bound x w). nia. Qed.

Lemma year_month d : yearOfDay d = monthIndex d / 12 ∧ monthOfDay d = monthIndex d mod 12.
Proof. pose proof (monthOfDay_spec d) as [H _]. unfold monthIndex. lia. Qed.

Lemma dayFromYear_lt j k : j < k → dayFromYear j < dayFromYear k.
Proof. intros. rewrite !dayFromYear_monthDay. apply monthDay_lt. lia. Qed.

Lemma levels_ok s limit l : l ∈ levelsOf s limit → LevelOk l.
Proof.
  unfold levelsOf. rewrite !elem_of_cons, elem_of_nil. intros [-> |[-> |[-> |[-> |[-> |[-> |[]]]]]]].
  - split; cbn [idx bound holds yearLevel].
    + intros j k ?%dayFromYear_lt. lia.
    + intros x. pose proof (yearOfDay_spec (x / 86400)). lia.
    + unfold clock. cbn [w_y]. by intros x y ->.
  - split; cbn [idx bound holds monthLevel].
    + intros j k ?%monthDay_lt. lia.
    + intros x. pose proof (monthOfDay_spec (x / 86400)) as [_ H]. lia.
    + unfold clock. cbn [w_mo]. intros x y E. destruct (year_month (x / 86400)) as [_ ->], (year_month (y / 86400)) as [_ ->]. by rewrite E.
  - apply width_ok; [lia|]. intros x y E. unfold dayMatches, clock. cbn [w_y w_mo w_d]. by rewrite E.
  - apply width_ok; [lia|]. intros x y E. unfold clock. cbn [w_h]. by replace (x mod 86400 / 3600) with (y mod 86400 / 3600) by lia.
  - apply width_ok; [lia|]. intros x y E. unfold clock. cbn [w_mi]. by replace (x mod 3600 / 60) with (y mod 3600 / 60) by lia.
  - apply width_ok; [lia|]. intros x y E. unfold clock. cbn [w_s]. by replace x with y by (rewrite !Z.div_1_r in E; done).
Qed.

Lemma coarser_refl l : coarser l l.
Proof. intros k. by exists k. Qed.
Lemma coarser_trans a b c : coarser a b → coarser b c → coarser a c.
Proof. intros H1 H2 k. destruct (H1 k) as [j ->]. apply H2. Qed.

(** Each unit of the list is a whole number of the next ones. *)
Lemma levels_nested s limit i j a l :
  levelsOf s limit !! i = Some a → levelsOf s limit !! j = Some l → (i <= j)%nat → coarser a l.
Proof.
  assert (∀ i a l, levelsOf s limit !! i = Some a → levelsOf s limit !! S i = Some l → coarser a l) as Hstep.
  { intros k b m Hb Hm n. destruct k as [|[|[|[|[|k]]]]]; [..|by destruct k]; injection Hb as <-; injection Hm as <-; cbn.
    - exists (12 * n). by rewrite dayFromYear_monthDay.
    - exists (monthDay n). done.
    - exists (24 * n). lia.
    - exists (60 * n). lia.
    - exists (60 * n). lia. }
  revert l. induction j as [|j IH]; intros l Ha Hl Hij.
  - assert (i = 0)%nat as -> by lia. simplify_eq. apply coarser_refl.
  - destruct (decide (i = S j)) as [->|]; [simplify_eq; apply coarser_refl|].
    destruct (levelsOf s limit !! j) as [m|] eqn:Em.
    + apply (coarser_trans a m); [apply IH; [done|done|lia]|]. by eapply Hstep.
    + apply lookup_ge_None in Em. apply lookup_lt_Some in Hl. lia.
Qed.

Lemma piece_short s limit l k : l ∈ levelsOf s limit → bound l (k + 1) - bound l k <= 366 * 86400.
Proof.
  unfold levelsOf. rewrite !elem_of_cons, elem_of_nil.
  intros [-> |[-> |[-> |[-> |[-> |[-> |[]]]]]]]; cbn [bound yearLevel monthLevel dayLevel hourLevel minuteLevel secondLevel widthLevel]; [| |lia..].
  - rewrite dayFromYear_succ. destruct (leapYear k); lia.
  - pose proof (monthDay_succ k). lia.
Qed.

(** The clock at the start of a year, month, day, hour or minute. *)
Lemma clock_month k : clock (86400 * monthDay k) = {| w_y := k / 12; w_mo := k mod 12 + 1; w_d := 1; w_h := 0; w_mi := 0; w_s := 0 |}.
Proof.
  unfold clock. replace (86400 * monthDay k / 86400) with (monthDay k) by lia.
  assert (monthIndex (monthDay k) = k) as E by (apply monthIndex_unique; pose proof (monthDay_succ k); lia).
  destruct (year_month (monthDay k)) as [-> ->]. rewrite E. f_equal; lia.
Qed.

(** ** A zone whose clock is not changed

    The clock of the zone is [off] ahead of UTC, whole minutes, at every
    instant. *)

Lemma makeDay_clock x : makeDay (w_y (clock x)) (w_mo (clock x) - 1) = monthDay (monthIndex (x / 86400)).
Proof.
  unfold clock, monthIndex. cbn [w_y w_mo]. rewrite makeDay_monthDay. f_equal. lia.
Qed.

Lemma utcOf_clock x : utcOf (clock x) = 1000 * x.
Proof. unfold utcOf, utcSeconds. rewrite makeDay_clock. unfold clock. cbn [w_d w_h w_mi w_s]. lia. Qed.

Section fixed.
Context (offsetAt : string → Z → Z) (z : string) (off : Z).
Context (Hoff : ∀ t, offsetAt z t = off) (Hmin : off mod 60000 = 0).

(** The instant at which the zone's clock reads [x]. *)
Definition instant (x : Z) : Z := 1000 * x - off.

Lemma wall_instant x : wall offsetAt (instant x) z = clock x.
Proof. unfold wall, instant. rewrite Hoff. f_equal. lia. Qed.

Lemma goDate_instant y mo d h mi s : goDate offsetAt y mo d h mi s z = instant (utcSeconds y (mo - 1) d h mi s).
Proof.
  assert (∀ t, offset offsetAt t z = off) as Ho.
  { intros t. unfold offset, wall. rewrite utcOf_clock, Hoff. unfold SECOND. lia. }
  unfold goDate, instant. by rewrite !Ho.
Qed.

(** One loop of the search against the unit of its field. *)
Section loop.
Context (levels : list Level) (x0 : Z) (Hlevels : ∀ l, l ∈ levels → LevelOk l).
Context (l p : Level) (Hl : l ∈ levels) (Hp : p ∈ levels) (Hcl : coarser p l).
(** [A]: the units whose fields allow the time, all at least as coarse as [p]. *)
Context (A : list Level) (HA : ∀ a, a ∈ A → a ∈ levels ∧ coarser a p).
Context (Hrest : ∀ m, m ∈ levels → m ∈ A ∨ coarser l m).
Context (Hshort : ∀ k, bound p (k + 1) - bound p k < 2 ^ 32).
Context (matches wraps : Wall → bool) (low : Z → Wall → Z) (next : Z → Z).
Context (Hmatches : ∀ x, matches (clock x) = holds l x).
Context (Hwraps : ∀ k, wraps (clock (bound p k)) = true).
Context (Hlow : ∀ x, low (instant x) (clock x) = instant (bound l (idx l x))).
Context (Hnext : ∀ k, next (instant (bound l k)) = instant (bound l (k + 1))).

Definition allowed (x : Z) : Prop := ∀ a, a ∈ A → holds a x = true.

Lemma allowed_rest x y : p ∈ A → allowed x → x <= y < bound p (idx p x + 1) → allowed y.
Proof.
  intros HpA Hx Hy a Ha. destruct (HA a Ha) as [Hin Hc].
  rewrite (holds_rest (Hlevels a Hin) x); [by apply Hx|].
  pose proof (next_coarser a p x (Hlevels a Hin) (Hlevels p Hp) Hc). lia.
Qed.

(** What the loop ends with, started at [x]. *)
Definition loopEnds (x : Z) (e : ending) : Prop :=
  match e with
  | Wrap t added => ∃ x', t = instant x' ∧ added = true ∧ searched levels x0 x' true ∧ x < x' ∧
                          ∀ a, a ∈ A → x' <= bound a (idx a x + 1)
  | Pass t added => ∃ x', t = instant x' ∧ searched levels x0 x' added ∧ x <= x' ∧ holds l x' = true ∧
                          allowed x' ∧ ∀ a, a ∈ A → idx a x' = idx a x
  end.

Lemma fieldLoop_ends x added :
  p ∈ A → searched levels x0 x added → allowed x →
  ∃ e, fieldLoop offsetAt z matches wraps low next (instant x) added = inr e ∧ loopEnds x e.
Proof.
  intros HpA Hs Hall.
  pose (I := λ st : Z * bool, ∃ x', st = (instant x', st.2) ∧ searched levels x0 x' st.2 ∧ x <= x' < bound p (idx p x + 1)).
  pose proof (bound_idx _ (Hlevels p Hp) x) as Hx. pose proof (Hshort (idx p x)) as Hlen.
  apply (iterate_total _ I (loopEnds x) (λ st, bound p (idx p x + 1) - (st.1 + off) / 1000)).
  - intros st (x' & -> & _ & Hx'). cbn. unfold instant. lia.
  - intros [t a] (x' & [= ->] & Hsx & Hx'). cbn [snd] in Hsx. cbv beta iota zeta. rewrite wall_instant, Hmatches.
    destruct (holds l x') eqn:Hf.
    + exists x'. split_and!; [done|done|lia|done|by apply (allowed_rest x)|].
      intros m Hm. destruct (HA m Hm) as [Hin Hc]. apply (idx_rest (Hlevels m Hin)).
      pose proof (next_coarser m p x (Hlevels m Hin) (Hlevels p Hp) Hc). lia.
    + assert ((if a then instant x' else low (instant x') (clock x')) = instant (bound l (idx l x'))) as ->.
      { destruct a; [|apply Hlow]. by rewrite (searched_low levels x0 Hlevels l x' true). }
      rewrite Hnext, wall_instant. set (x2 := bound l (idx l x' + 1)).
      pose proof (bound_idx _ (Hlevels l Hl) x') as Hb. fold x2 in Hb.
      assert (idx p x' = idx p x) as Ep by (apply (idx_rest (Hlevels p Hp)); lia).
      assert (x2 <= bound p (idx p x + 1)) as Hle.
      { rewrite <-Ep. by apply next_coarser; auto. }
      assert (searched levels x0 x2 true) as Hs2.
      { apply (searched_next levels x0 Hlevels l x' a); [done| |done|done].
        intros m Hm. destruct (Hrest m Hm) as [HmA|]; [|by left]. right. split.
        - destruct (HA m HmA) as [_ Hc]. intros k. destruct (Hc k) as [j ->]. apply Hcl.
        - apply (allowed_rest x); auto. }
      destruct (wraps (clock x2)) eqn:Ew.
      * exists x2. split_and!; [done|done|done|lia|]. intros m Hm. destruct (HA m Hm) as [Hin Hc].
        pose proof (next_coarser m p x (Hlevels m Hin) (Hlevels p Hp) Hc). lia.
      * assert (x2 ≠ bound p (idx p x + 1)) by (intros E; rewrite E, Hwraps in Ew; done).
        split; [exists x2; split_and!; [done|done|lia|lia]|]. cbn. unfold instant. lia.
  - exists x. split_and!; [done|done|lia|lia].
  - change (2 ^ Z.of_nat ROUNDS) with (2 ^ 32). cbn [fst]. unfold instant. lia.
Qed.
End loop.

(** *** The loops in turn *)

Section turn.
Context (levels : list Level) (x0 : Z).

(** The loop of unit [l] does its work once the fields of [A] allow the time. *)
Definition stageOk (A : list Level) (l : Level) (loop : Z → bool → (Z * bool) + ending) : Prop :=
  ∀ x added, searched levels x0 x added → allowed A x →
  ∃ e, loop (instant x) added = inr e ∧ loopEnds levels x0 l A x e.

Fixpoint stagesOk (A : list Level) (stages : list (Level * (Z → bool → (Z * bool) + ending))) : Prop :=
  match stages with
  | [] => True
  | (l, loop) :: stages => stageOk A l loop ∧ stagesOk (l :: A) stages
  end.

Definition turnEnds (A stages : list Level) (x : Z) (e : ending) : Prop :=
  match e with
  | Wrap t added => ∃ x', t = instant x' ∧ added = true ∧ searched levels x0 x' true ∧ x < x' ∧
                          ∀ a, a ∈ A → x' <= bound a (idx a x + 1)
  | Pass t added => ∃ x', t = instant x' ∧ searched levels x0 x' added ∧ allowed A x' ∧ allowed stages x'
  end.

Lemma inTurn_ends A stages x added :
  stagesOk A stages → searched levels x0 x added → allowed A x →
  ∃ e, inTurn stages.*2 (instant x) added = inr e ∧ turnEnds A stages.*1 x e.
Proof.
  revert A x added. induction stages as [|[l loop] stages IH]; intros A x added Hok Hs HA.
  - eexists. split; [done|]. exists x. split_and!; [done..|]. by intros a ?%elem_of_nil.
  - destruct Hok as [Hl Hok]. destruct (Hl x added Hs HA) as (e & He & Hends). cbn [inTurn fmap list_fmap snd]. rewrite He.
    destruct e as [t a|t a].
    + eexists. by split.
    + destruct Hends as (x' & -> & Hs' & Hle & Hhold & HA' & Hidx).
      destruct (IH (l :: A) x' a Hok Hs') as (e' & He' & Hends').
      { intros m [->|Hm]%elem_of_cons; [done|by apply HA']. }
      exists e'. split; [done|]. destruct e' as [t a'|t a'].
      * destruct Hends' as (y & -> & -> & Hsy & Hlt & Hb). exists y. split_and!; [done|done|done|lia|].
        intros m Hm. rewrite <-(Hidx m Hm). apply Hb. by right.
      * destruct Hends' as (y & -> & Hsy & HAy & Hrest). exists y. split_and!; [done|done| |].
        -- intros m Hm. apply HAy. by right.
        -- intros m [->|Hm]%elem_of_cons; [apply HAy; by left|by apply Hrest].
Qed.
End turn.

(** *** The five loops of [specNext] *)

Section spec.
Context (s : SpecSchedule) (Hz : zone s = z) (limit x0 : Z).
Let levels := levelsOf s limit.

Lemma stage_ok i (p l : Level) matches wraps low next :
  levels !! i = Some p → levels !! S i = Some l →
  (∀ x, matches (clock x) = holds l x) →
  (∀ k, wraps (clock (bound p k)) = true) →
  (∀ x, low (instant x) (clock x) = instant (bound l (idx l x))) →
  (∀ k, next (instant (bound l k)) = instant (bound l (k + 1))) →
  stageOk levels x0 (reverse (take (S i) levels)) l (fieldLoop offsetAt z matches wraps low next).
Proof.
  intros Hp Hl Hm Hw Hlow Hnext x added Hs Hall.
  assert (∀ a, a ∈ reverse (take (S i) levels) ↔ ∃ j, (j <= i)%nat ∧ levels !! j = Some a) as HA.
  { intros a. rewrite elem_of_reverse, elem_of_take. split; intros (j & ? & ?); exists j; split; (done || lia). }
  apply (fieldLoop_ends levels x0 (levels_ok s limit) l p); [..|done|done]; try done.
  - by eapply list_elem_of_lookup_2.
  - by eapply list_elem_of_lookup_2.
  - eapply levels_nested; [done|done|lia].
  - intros a (j & Hj & Ha)%HA. split; [by eapply list_elem_of_lookup_2|]. by eapply levels_nested.
  - intros m Hin. apply list_elem_of_lookup in Hin as [j Hj]. destruct (decide (j <= i)%nat).
    + left. apply HA. by exists j.
    + right. eapply levels_nested; [done|done|lia].
  - intros k. pose proof (piece_short s limit p k ltac:(by eapply list_elem_of_lookup_2)). lia.
  - apply HA. exists i. split; [lia|done].
Qed.

Lemma month_stage : stageOk levels x0 [yearLevel limit] (monthLevel s) (monthLoop offsetAt s).
Proof.
  unfold monthLoop. rewrite Hz. apply (stage_ok 0 (yearLevel limit)); [done|done|done|..].
  - intros k. cbn [bound yearLevel]. rewrite dayFromYear_monthDay, clock_month. cbn [w_mo]. apply Z.eqb_eq. lia.
  - intros x. rewrite goDate_instant. f_equal. cbn [bound idx monthLevel]. unfold utcSeconds. rewrite makeDay_clock. lia.
  - intros k. cbn [bound monthLevel]. unfold addDate. rewrite wall_instant, goDate_instant, clock_month. f_equal.
    unfold utcSeconds. cbn [w_y w_mo w_d w_h w_mi w_s]. rewrite makeDay_monthDay.
    replace (12 * (k / 12) + (k mod 12 + 1 + 1 - 1)) with (k + 1) by lia. lia.
Qed.

Lemma day_stage : stageOk levels x0 [monthLevel s; yearLevel limit] (dayLevel s) (dayLoop offsetAt s).
Proof.
  unfold dayLoop. rewrite Hz. apply (stage_ok 1 (monthLevel s)); [done|done|done|..].
  - intros k. cbn [bound monthLevel]. by rewrite clock_month.
  - intros x. rewrite goDate_instant. f_equal. cbn [bound idx dayLevel widthLevel]. unfold utcSeconds. rewrite makeDay_clock.
    unfold clock. cbn [w_d]. lia.
  - intros k. cbn [bound dayLevel widthLevel].
    assert (addDate offsetAt (instant (86400 * k)) 0 1 z = instant (86400 * (k + 1))) as ->.
    { unfold addDate. rewrite wall_instant, goDate_instant. f_equal. unfold utcSeconds. rewrite Z.add_0_r, makeDay_clock.
      unfold clock. cbn [w_d w_h w_mi w_s]. lia. }
    unfold toMidnight. rewrite wall_instant. replace (w_h (clock (86400 * (k + 1)))) with 0; [done|].
    unfold clock. cbn [w_h]. lia.
Qed.

Lemma hour_stage : stageOk levels x0 [dayLevel s; monthLevel s; yearLevel limit] (hourLevel s) (hourLoop offsetAt s).
Proof.
  unfold hourLoop. rewrite Hz. apply (stage_ok 2 (dayLevel s)); [done|done|done|..]; cbn [bound idx dayLevel hourLevel widthLevel].
  - intros k. unfold clock. cbn [w_h]. apply Z.eqb_eq. lia.
  - intros x. rewrite goDate_instant. f_equal. unfold utcSeconds. rewrite makeDay_clock.
    unfold clock. cbn [w_d w_h]. lia.
  - intros k. unfold instant, HOUR, MINUTE, SECOND. lia.
Qed.

Lemma minute_stage :
  stageOk levels x0 [hourLevel s; dayLevel s; monthLevel s; yearLevel limit] (minuteLevel s) (minuteLoop offsetAt s).
Proof.
  unfold minuteLoop. rewrite Hz.
  apply (stage_ok 3 (hourLevel s)); [done|done|done|..]; cbn [bound idx hourLevel minuteLevel widthLevel].
  - intros k. unfold clock. cbn [w_mi]. apply Z.eqb_eq. lia.
  - intros x. unfold instant, MINUTE, SECOND. lia.
  - intros k. unfold instant, MINUTE, SECOND. lia.
Qed.

Lemma second_stage :
  stageOk levels x0 [minuteLevel s; hourLevel s; dayLevel s; monthLevel s; yearLevel limit] (secondLevel s) (secondLoop offsetAt s).
Proof.
  unfold secondLoop. rewrite Hz.
  apply (stage_ok 4 (minuteLevel s)); [done|done|done|..]; cbn [bound idx minuteLevel secondLevel widthLevel].
  - intros k. unfold clock. cbn [w_s]. apply Z.eqb_eq. lia.
  - intros x. unfold instant, SECOND. rewrite Z.div_1_r. lia.
  - intros k. unfold instant, SECOND. lia.
Qed.
End spec.

(** *** The whole search *)

Section whole.
Context (s : SpecSchedule) (Hz : zone s = z).

Definition stages : list (Level * (Z → bool → (Z * bool) + ending)) :=
  [(monthLevel s, monthLoop offsetAt s); (dayLevel s, dayLoop offsetAt s); (hourLevel s, hourLoop offsetAt s);
   (minuteLevel s, minuteLoop offsetAt s); (secondLevel s, secondLoop offsetAt s)].

Lemma stages_loops : stages.*2 = [monthLoop offsetAt s; dayLoop offsetAt s; hourLoop offsetAt s; minuteLoop offsetAt s; secondLoop offsetAt s].
Proof. done. Qed.

Lemma stages_ok limit x0 : stagesOk (levelsOf s limit) x0 [yearLevel limit] stages.
Proof.
  split; [by apply month_stage|]. split; [by apply day_stage|]. split; [by apply hour_stage|].
  split; [by apply minute_stage|]. split; [by apply second_stage|done].
Qed.

(** What the search finds from [x0] on. *)
Definition found (limit x0 : Z) (r : option (option Z)) : Prop :=
  match r with
  | None => False
  | Some None => ∃ x, limit < w_y (clock x) ∧ searched (levelsOf s limit) x0 x false
  | Some (Some t) => ∃ x, t = instant x ∧ searched (levelsOf s limit) x0 x false ∧ allHold (levelsOf s limit) x
  end.

Lemma searched_false levels x0 x added : searched levels x0 x added → searched levels x0 x false.
Proof. intros (? & ? & _). by split_and!. Qed.

Lemma wrapRound_found limit x0 x added :
  searched (levelsOf s limit) x0 x added →
  match wrapRound offsetAt s limit (instant x, added) with
  | inl (t, added) => ∃ x', t = instant x' ∧ searched (levelsOf s limit) x0 x' added ∧ x < x' ∧
                            x' <= 86400 * dayFromYear (limit + 1)
  | inr r => found limit x0 r
  end.
Proof.
  intros Hs. unfold wrapRound. rewrite Hz, wall_instant.
  destruct (Z.ltb_spec limit (w_y (clock x))) as [Hlt|Hle].
  - exists x. split; [done|]. by eapply searched_false.
  - destruct (inTurn_ends _ _ _ _ x added (stages_ok limit x0) Hs) as (e & He & Hends).
    { intros a ->%list_elem_of_singleton. by apply Z.leb_le. }
    rewrite stages_loops in He. rewrite He. destruct e as [t a|t a].
    + destruct Hends as (x' & -> & -> & Hs' & Hlt & Hb). exists x'. split_and!; [done|done|done|].
      specialize (Hb (yearLevel limit) ltac:(left)). cbn [bound idx yearLevel] in Hb. etrans; [exact Hb|].
      apply Z.mul_le_mono_nonneg_l; [lia|]. unfold clock in Hle. cbn [w_y] in Hle.
      destruct (decide (yearOfDay (x / 86400) = limit)) as [->|]; [lia|].
      pose proof (dayFromYear_lt (yearOfDay (x / 86400) + 1) (limit + 1)). lia.
    + destruct Hends as (x' & -> & Hs' & Hyear & Hrest). exists x'. split_and!; [done|by eapply searched_false|].
      intros l [->|Hl]%elem_of_cons; [apply Hyear; left|by apply Hrest].
Qed.

Lemma search_found limit x0 :
  86400 * dayFromYear (limit + 1) - x0 < 2 ^ 32 → x0 <= 86400 * dayFromYear (limit + 1) →
  ∃ r, iterate ROUNDS (wrapRound offsetAt s limit) (instant x0, false) = inr r ∧ found limit x0 r.
Proof.
  intros Hlen Hle.
  apply (iterate_total _
    (λ st, ∃ x, st = (instant x, st.2) ∧ searched (levelsOf s limit) x0 x st.2 ∧ x <= 86400 * dayFromYear (limit + 1)) _
    (λ st, 86400 * dayFromYear (limit + 1) - (st.1 + off) / 1000)).
  - intros st (x & -> & _ & ?). cbn [fst]. unfold instant. lia.
  - intros [t added] (x & [= ->] & Hs & Hx). cbn [snd] in Hs. pose proof (wrapRound_found limit x0 x added Hs) as H.
    destruct (wrapRound offsetAt s limit (instant x, added)) as [[t' a']|r]; [|done].
    destruct H as (x' & -> & Hs' & Hlt & Hx'). split; [by exists x'|]. cbn [fst]. unfold instant. lia.
  - exists x0. split_and!; [done| |done]. split_and!; [lia| |done]. intros y Hy. lia.
  - change (2 ^ Z.of_nat ROUNDS) with (2 ^ 32). cbn [fst]. unfold instant. lia.
Qed.

Lemma specNext_found from :
  ∃ r, specNext offsetAt s from = r ∧
       found (w_y (clock ((from - from mod SECOND + SECOND + off) / 1000)) + 5) ((from - from mod SECOND + SECOND + off) / 1000) r.
Proof.
  set (x0 := (from - from mod SECOND + SECOND + off) / 1000).
  assert (from - from mod SECOND + SECOND = instant x0) as E by (unfold x0, instant, SECOND; lia).
  unfold specNext. rewrite E, Hz, wall_instant. set (limit := w_y (clock x0) + 5).
  destruct (search_found limit x0) as (r & Hr & Hf).
  - unfold limit, clock. cbn [w_y]. pose proof (yearOfDay_spec (x0 / 86400)) as H. remember (yearOfDay (x0 / 86400)) as y.
    replace (y + 5 + 1) with (y + 6) by lia. revert H. unfold dayFromYear. lia.
  - unfold limit, clock. cbn [w_y]. pose proof (yearOfDay_spec (x0 / 86400)) as H. remember (yearOfDay (x0 / 86400)) as y.
    pose proof (dayFromYear_lt (y + 1) (y + 5 + 1)). lia.
  - rewrite Hr. by exists r.
Qed.
End whole.
End fixed.

(** ** What the search finds *)

(** The schedule runs at instant [t]: every field allows the clock of its zone;
    a day by its date and its weekday if one of the two fields leaves the day free,
    else by either. *)
Definition dueAt (offsetAt : string → Z → Z) (s : SpecSchedule) (t : Z) : Prop :=
  let w := wall offsetAt t (zone s) in
  let byDate := w_d w ∈ bits (dom s) in
  let byWeekday := weekday (makeDay (w_y w) (w_mo w - 1) + w_d w - 1) ∈ bits (dow s) in
  w_mo w ∈ bits (month s) ∧
  (if star (dom s) || star (dow s) then byDate ∧ byWeekday else byDate ∨ byWeekday) ∧
  w_h w ∈ bits (hour s) ∧ w_mi w ∈ bits (minute s) ∧ w_s w ∈ bits (second s).

(** A zone whose clock is ahead of UTC by the same whole minutes at every
    instant. *)
Definition fixedClock (offsetAt : string → Z → Z) (zone : string) : Prop :=
  ∃ off, off mod 60000 = 0 ∧ ∀ t, offsetAt zone t = off.

(** [r] is the first whole second after [from] at which the schedule runs, or
    there is none up to the end of the fifth year after it. *)
Definition firstRun (offsetAt : string → Z → Z) (s : SpecSchedule) (from : Z) (r : option Z) : Prop :=
  match r with
  | Some t => from < t ∧ t mod 1000 = 0 ∧ dueAt offsetAt s t ∧ ∀ u, from < u < t → u mod 1000 = 0 → ¬ dueAt offsetAt s u
  | None => ∀ u, from < u → u mod 1000 = 0 →
      w_y (wall offsetAt u (zone s)) <= w_y (wall offsetAt (from - from mod 1000 + 1000) (zone s)) + 5 → ¬ dueAt offsetAt s u
  end.

Lemma has_true f n : has f n = true ↔ n ∈ bits f.
Proof. apply bool_decide_eq_true. Qed.

Lemma dayMatches_spec s w :
  dayMatches s w = true ↔
  (if star (dom s) || star (dow s)
   then w_d w ∈ bits (dom s) ∧ weekday (makeDay (w_y w) (w_mo w - 1) + w_d w - 1) ∈ bits (dow s)
   else w_d w ∈ bits (dom s) ∨ weekday (makeDay (w_y w) (w_mo w - 1) + w_d w - 1) ∈ bits (dow s)).
Proof.
  unfold dayMatches, has. destruct (_ || _); rewrite ?andb_true_iff, ?orb_true_iff, !bool_decide_eq_true; done.
Qed.

Lemma allHold_due offsetAt z off s limit x :
  (∀ t, offsetAt z t = off) → off mod 60000 = 0 → zone s = z →
  allHold (levelsOf s limit) x ↔ w_y (clock x) <= limit ∧ dueAt offsetAt s (instant off x).
Proof.
  intros Hoff Hmin Hz. unfold dueAt. rewrite Hz, (wall_instant _ _ _ Hoff Hmin).
  rewrite <-dayMatches_spec. unfold allHold, levelsOf. split.
  - intros H. split; [apply Z.leb_le, (H (yearLevel limit)); left|].
    split_and!; [apply has_true, (H (monthLevel s))|apply (H (dayLevel s))|apply has_true, (H (hourLevel s))
      |apply has_true, (H (minuteLevel s))|apply has_true, (H (secondLevel s))]; rewrite !elem_of_cons; tauto.
  - intros (Hy & Hmo & Hd & Hh & Hmi & Hs) l. rewrite !elem_of_cons, elem_of_nil.
    intros [-> |[-> |[-> |[-> |[-> |[-> |[]]]]]]]; cbn [holds yearLevel monthLevel dayLevel hourLevel minuteLevel secondLevel widthLevel];
      [by apply Z.leb_le|by apply has_true|done|by apply has_true..].
Qed.

Lemma year_mono x y : x <= y → w_y (clock x) <= w_y (clock y).
Proof.
  intros H. unfold clock. cbn [w_y]. apply Z.nlt_ge. intros Hlt.
  pose proof (yearOfDay_spec (x / 86400)). pose proof (yearOfDay_spec (y / 86400)).
  destruct (decide (yearOfDay (y / 86400) + 1 = yearOfDay (x / 86400))) as [E|]; [rewrite E in *; lia|].
  pose proof (dayFromYear_lt (yearOfDay (y / 86400) + 1) (yearOfDay (x / 86400))). lia.
Qed.

Lemma specNext_firstRun offsetAt s from :
  fixedClock offsetAt (zone s) → ∃ r, specNext offsetAt s from = Some r ∧ firstRun offsetAt s from r.
Proof.
  intros (off & Hmin & Hoff). destruct (specNext_found offsetAt _ off Hoff Hmin s eq_refl from) as (r & Hr & Hf).
  set (x0 := (from - from mod SECOND + SECOND + off) / 1000) in *.
  assert (instant off x0 = from - from mod 1000 + 1000) as E0 by (unfold x0, instant, SECOND; lia).
  assert (∀ u, from < u → u mod 1000 = 0 → ∃ x, u = instant off x ∧ x0 <= x) as Hu.
  { intros u Hu Hm. exists ((u + off) / 1000). unfold x0, instant, SECOND in *. lia. }
  destruct r as [[t|]|]; [..|done].
  - destruct Hf as (x & -> & (Hx & Hno & _) & Hall). eexists. split; [done|].
    pose proof Hall as Hdue. apply (allHold_due offsetAt (zone s) off) in Hdue as [Hyear Hdue]; [|done..].
    split_and!; [unfold instant in *; lia|unfold instant; lia|done|].
    intros u [Hlo Hhi] Hm Hdu. destruct (Hu u Hlo Hm) as (y & -> & Hy).
    assert (y < x) by (unfold instant in Hhi; lia). apply (Hno y); [lia|].
    apply (allHold_due offsetAt (zone s) off); [done..|]. split; [|done]. pose proof (year_mono y x). lia.
  - destruct Hf as (x & Hlim & (Hx & Hno & _)). eexists. split; [done|]. intros u Hlo Hm Hyear Hdu.
    destruct (Hu u Hlo Hm) as (y & -> & Hy). rewrite <-E0, !(wall_instant _ _ _ Hoff Hmin) in Hyear.
    destruct (decide (y < x)); [|pose proof (year_mono x y); lia]. apply (Hno y); [lia|].
    by apply (allHold_due offsetAt (zone s) off).
Qed.

(** C17. In a zone whose clock is not changed, the next run of a schedule of fields
    is the first whole second after [from] that all its fields allow; null is
    returned only where there is none in the five years that follow. *)
Theorem cron_next_least knownZone offsetAt schedule timeZone from since local spec s :
  trim schedule ≠ "" →
  formatted knownZone schedule timeZone local = Returns spec →
  parseStandard knownZone spec local = Returns (Spec s) →
  fixedClock offsetAt (zone s) →
  ∃ r, nextCronRun knownZone offsetAt (Some schedule) timeZone from since local = Returns r ∧ firstRun offsetAt s from r.
Proof.
  intros Ht Hf Hp Hz. destruct (specNext_firstRun offsetAt s from Hz) as (r & Hr & Hfirst).
  exists r. split; [|done]. unfold nextCronRun. rewrite (proj2 (eqs_false _ _) Ht), Hf. cbn. by rewrite Hp, Hr.
Qed.

(** Every Friday the 13th at 9:30 in Tokyo: of the date and the weekday only one
    has to match. *)
Lemma cron_next_least_witness :
  ∃ r, nextCronRun (λ _, true) (λ z _, if eqs z "Asia/Tokyo" then 32400000 else 0) (Some "30 9 13 * 5") (Some "Asia/Tokyo")
         1791633630000 None "UTC" = Returns r ∧
       firstRun (λ z _, if eqs z "Asia/Tokyo" then 32400000 else 0)
         {| second := {| bits := {[0]}; star := false |}; minute := {| bits := {[30]}; star := false |};
            hour := {| bits := {[9]}; star := false |}; dom := {| bits := {[13]}; star := false |};
            month := all MONTHS; dow := {| bits := {[5]}; star := false |}; zone := "Asia/Tokyo" |} 1791633630000 r.
Proof.
  apply (cron_next_least _ _ "30 9 13 * 5" (Some "Asia/Tokyo") _ None "UTC" "TZ=Asia/Tokyo 30 9 13 * 5").
  - done.
  - reflexivity.
  - vm_compute. reflexivity.
  - exists 32400000. split; [reflexivity|]. intros t. reflexivity.
Defined.

(** The search ends, whatever the fields, even where no date satisfies them: each
    of its loops is over within its rounds, and a run it returns is in the five
    years after the second it starts from. *)
Theorem cron_search_ends offsetAt s from :
  fixedClock offsetAt (zone s) →
  ∃ r, specNext offsetAt s from = Some r ∧
       ∀ t, r = Some t → from < t ∧ w_y (wall offsetAt t (zone s)) <= w_y (wall offsetAt (from - from mod SECOND + SECOND) (zone s)) + 5.
Proof.
  intros (off & Hmin & Hoff). destruct (specNext_found offsetAt _ off Hoff Hmin s eq_refl from) as (r & Hr & Hf).
  destruct r as [[t|]|]; [..|done]; [|by eexists].
  destruct Hf as (x & -> & (Hx & _) & Hall). eexists. split; [done|]. intros t [= <-].
  apply (allHold_due offsetAt (zone s) off) in Hall as [Hyear _]; [|done..].
  split; [unfold instant, SECOND in *; lia|]. rewrite (wall_instant _ _ _ Hoff Hmin).
  unfold wall. by rewrite Hoff.
Qed.

(** February 30th. *)
Lemma cron_search_ends_witness :
  ∃ r, specNext (λ _ _, 0) {| second := one 0; minute := one 0; hour := one 0; dom := one 30; month := one 2; dow := all DOW; zone := "UTC" |}
         1791633630000 = Some r ∧
       ∀ t, r = Some t → 1791633630000 < t ∧ w_y (wall (λ _ _, 0) t "UTC") <= w_y (wall (λ _ _, 0) (1791633630000 - 1791633630000 mod SECOND + SECOND) "UTC") + 5.
Proof.
  apply (cron_search_ends (λ _ _, 0) {| second := one 0; minute := one 0; hour := one 0; dom := one 30; month := one 2; dow := all DOW; zone := "UTC" |}).
  exists 0. done.
Defined.

(** ** [@every] *)

Lemma descriptor_delay spec z d : parseDescriptor spec z = Returns (Every d) → SECOND <= d ∧ d mod SECOND = 0.
Proof.
  unfold parseDescriptor. intros H.
  repeat (match type of H with (if ?c then _ else _) = _ => destruct c; try discriminate end).
  destruct (parseDuration _) as [n| |]; [|done..]. cbn in H. injection H as <-.
  destruct (Z.ltb_spec n SECOND); unfold SECOND in *; lia.
Qed.

Lemma returns_bind {A B} (a : A) (f : A → outcome B) : (Returns a ≫= f) = f a.
Proof. done. Qed.

Lemma second_field : getField "0" SECONDS = Returns (one 0).
Proof. vm_compute. reflexivity. Qed.

Lemma parse_delay knownZone text local d :
  parseStandard knownZone text local = Returns (Every d) → SECOND <= d ∧ d mod SECOND = 0.
Proof.
  unfold parseStandard. destruct (eqs text ""); [done|]. destruct (zonePrefix _ _ _) as [[z spec]| |]; [|done..]. rewrite returns_bind.
  destruct (startsWith "@" spec); [apply descriptor_delay|]. rewrite second_field.
  destruct (words spec) as [|mi [|h [|dd [|mo [|w [|x l]]]]]]; try done.
  destruct (getField mi MINUTES), (getField h HOURS), (getField dd DOM), (getField mo MONTHS), (getField w DOW); done.
Qed.

(** An [@every] schedule runs at whole multiples of its delay, of a second at
    least, after the second of the last run: the next one is the first multiple
    past [from]; with no last run it is one delay after the second of [from]. *)
Theorem every_from_last_run knownZone offsetAt schedule timeZone from local spec d :
  trim schedule ≠ "" →
  formatted knownZone schedule timeZone local = Returns spec →
  parseStandard knownZone spec local = Returns (Every d) →
  (∀ start, ∃ k, 1 <= k ∧
     nextCronRun knownZone offsetAt (Some schedule) timeZone from (Some start) local =
       Returns (Some (start - start mod 1000 + k * d)) ∧
     from < start - start mod 1000 + k * d ∧
     (∀ k', 1 <= k' < k → start - start mod 1000 + k' * d <= from)) ∧
  nextCronRun knownZone offsetAt (Some schedule) timeZone from None local = Returns (Some (from - from mod 1000 + d)) ∧
  from < from - from mod 1000 + d.
Proof.
  intros Ht Hf Hp. destruct (parse_delay _ _ _ _ Hp) as [Hd Hm]. unfold SECOND in Hd, Hm.
  assert (∀ since, nextCronRun knownZone offsetAt (Some schedule) timeZone from since local = Returns (Some (everyNext d from since))) as Hn.
  { intros since. unfold nextCronRun. rewrite (proj2 (eqs_false _ _) Ht), Hf. cbn. by rewrite Hp. }
  split; [|by rewrite Hn; unfold everyNext, SECOND; split; [done|lia]].
  intros start. set (first := start - start mod 1000). set (q := (from - first) / d).
  exists (Z.max 1 (q + 1)). rewrite Hn.
  assert (q * d <= from - first < (q + 1) * d) as Hq.
  { unfold q. pose proof (Z.div_mod (from - first) d). pose proof (Z.mod_pos_bound (from - first) d). nia. }
  split_and!; [lia|done|nia|]. intros k Hk. nia.
Qed.

Lemma every_from_last_run_witness :
  parseStandard (λ _, true) "@every 1h30m" "UTC" = Returns (Every 5400000) ∧
  ∃ k, 1 <= k ∧
     nextCronRun (λ _, true) (λ _ _, 0) (Some "@every 1h30m") None 1791633630000 (Some 1791623700000) "UTC" =
       Returns (Some (1791623700000 - 1791623700000 mod 1000 + k * 5400000)) ∧
     1791633630000 < 1791623700000 - 1791623700000 mod 1000 + k * 5400000 ∧
     (∀ k', 1 <= k' < k → 1791623700000 - 1791623700000 mod 1000 + k' * 5400000 <= 1791633630000).
Proof.
  split; [reflexivity|].
  apply (proj1 (every_from_last_run (λ _, true) (λ _ _, 0) "@every 1h30m" None 1791633630000 "UTC" "@every 1h30m" 5400000
    ltac:(done) eq_refl eq_refl)).
Defined.

(** ** Schedules that do not read *)

Ltac by_field := rewrite !elem_of_cons; tauto.

(** A schedule of five fields, from minutes to weekdays. *)
Definition readsAs (schedule local : string) (s : SpecSchedule) : Prop :=
  ∃ mi h d mo w, words schedule = [mi; h; d; mo; w] ∧ zone s = local ∧ second s = one 0 ∧
    denotes MINUTES mi (minute s) ∧ denotes HOURS h (hour s) ∧ denotes DOM d (dom s) ∧
    denotes MONTHS mo (month s) ∧ denotes DOW w (dow s).

Lemma field_reads b field f : b ∈ [SECONDS; MINUTES; HOURS; DOM; MONTHS; DOW] → getField field b = Returns f ↔ denotes b field f.
Proof. intros Hb. apply getField_spec. revert b Hb. apply Forall_forall, bounds_wf. Qed.

Lemma field_throws b field :
  b ∈ [SECONDS; MINUTES; HOURS; DOM; MONTHS; DOW] → hasInherited field = false →
  (∃ f, denotes b field f) ∨ getField field b = Throws.
Proof.
  intros Hb Hi. destruct (getField field b) as [f| |] eqn:E.
  - left. exists f. by apply field_reads.
  - by right.
  - apply getField_outside in E. congruence.
Qed.

Lemma no_zone schedule p : includes "TZ" schedule = false → includes "TZ" p = true → startsWith p schedule = false.
Proof.
  intros Hn (u & v & ->)%includes_spec. destruct (startsWith _ schedule) eqn:E; [|done].
  apply startsWith_spec in E as [t ->]. rewrite <-Hn. symmetry. apply includes_spec.
  exists u, (v +:+ t). by rewrite !app_assoc_s.
Qed.

Lemma includes_nonempty schedule : trim schedule ≠ "" → schedule ≠ "".
Proof. by intros H ->. Qed.

Lemma plain_parse knownZone schedule local :
  trim schedule ≠ "" → includes "TZ" schedule = false → startsWith "@" schedule = false →
  parseStandard knownZone schedule local =
  match words schedule with
  | [mi; h; d; mo; w] =>
      mi ← getField mi MINUTES; h ← getField h HOURS; d ← getField d DOM; mo ← getField mo MONTHS; w ← getField w DOW;
      Returns (Spec {| second := one 0; minute := mi; hour := h; dom := d; month := mo; dow := w; zone := local |})
  | _ => Throws
  end.
Proof.
  intros Ht Hz Ha. unfold parseStandard, zonePrefix. rewrite (proj2 (eqs_false _ _) (includes_nonempty _ Ht)).
  rewrite (no_zone schedule "TZ=") by done. rewrite (no_zone schedule "CRON_TZ=") by done. cbn [orb].
  rewrite returns_bind, Ha, second_field. reflexivity.
Qed.

Section plain.
Context (knownZone : string → bool) (schedule local : string).
Context (Ht : trim schedule ≠ "") (Hz : includes "TZ" schedule = false) (Ha : startsWith "@" schedule = false).

Lemma plain_reads s : parseStandard knownZone schedule local = Returns (Spec s) ↔ readsAs schedule local s.
Proof.
  rewrite (plain_parse knownZone schedule local Ht Hz Ha). unfold readsAs. split.
  - destruct (words schedule) as [|mi [|h [|d [|mo [|w [|x l]]]]]]; try done.
    destruct (getField mi MINUTES) eqn:E1, (getField h HOURS) eqn:E2, (getField d DOM) eqn:E3, (getField mo MONTHS) eqn:E4,
      (getField w DOW) eqn:E5; try done. cbn. intros [= <-]. exists mi, h, d, mo, w.
    split_and!; [done..| | | | |]; apply field_reads; (by_field || done).
  - intros (mi & h & d & mo & w & -> & <- & Hs & H1 & H2 & H3 & H4 & H5).
    apply field_reads in H1 as ->; [|by_field]. apply field_reads in H2 as ->; [|by_field].
    apply field_reads in H3 as ->; [|by_field]. apply field_reads in H4 as ->; [|by_field].
    apply field_reads in H5 as ->; [|by_field]. cbn. rewrite <-Hs. by destruct s.
Qed.

Lemma plain_no_every d : parseStandard knownZone schedule local ≠ Returns (Every d).
Proof.
  rewrite (plain_parse knownZone schedule local Ht Hz Ha).
  destruct (words schedule) as [|mi [|h [|dd [|mo [|w [|x l]]]]]]; try done.
  destruct (getField mi MINUTES), (getField h HOURS), (getField dd DOM), (getField mo MONTHS), (getField w DOW); done.
Qed.

Lemma plain_outside : parseStandard knownZone schedule local = Outside → ∃ field, field ∈ words schedule ∧ hasInherited field = true.
Proof.
  rewrite (plain_parse knownZone schedule local Ht Hz Ha).
  destruct (words schedule) as [|mi [|h [|d [|mo [|w [|x l]]]]]]; try done.
  assert (∀ field b, getField field b = Outside → field ∈ [mi; h; d; mo; w] →
    ∃ field, field ∈ [mi; h; d; mo; w] ∧ hasInherited field = true) as Hout
    by (intros field b ?%getField_outside ?; eauto).
  destruct (getField mi MINUTES) eqn:E1; [|done|intros _; eapply Hout; [exact E1|by_field]].
  destruct (getField h HOURS) eqn:E2; [|done|intros _; eapply Hout; [exact E2|by_field]].
  destruct (getField d DOM) eqn:E3; [|done|intros _; eapply Hout; [exact E3|by_field]].
  destruct (getField mo MONTHS) eqn:E4; [|done|intros _; eapply Hout; [exact E4|by_field]].
  destruct (getField w DOW) eqn:E5; [done|done|intros _; eapply Hout; [exact E5|by_field]].
Qed.
End plain.

(** A schedule that names no zone and no descriptor is read exactly when it has
    five fields that all read, and means what they mean; any other one has no
    next run, and asking for it never throws. *)
Theorem cron_unreadable knownZone offsetAt schedule from since local :
  trim schedule ≠ "" → includes "TZ" schedule = false → startsWith "@" schedule = false →
  (∀ s, parseStandard knownZone schedule local = Returns (Spec s) ↔ readsAs schedule local s) ∧
  ((∀ s, ¬ readsAs schedule local s) → (∀ field, field ∈ words schedule → hasInherited field = false) →
   nextCronRun knownZone offsetAt (Some schedule) None from since local = Returns None).
Proof.
  intros Ht Hz Ha. pose proof (plain_reads knownZone schedule local Ht Hz Ha) as Hreads. split; [exact Hreads|].
  intros Hno Hi. unfold nextCronRun. rewrite (proj2 (eqs_false _ _) Ht). cbn [formatted]. rewrite returns_bind.
  destruct (parseStandard knownZone schedule local) as [[s|d]| |] eqn:E; [by destruct (Hno s (proj1 (Hreads s) eq_refl))| |done|].
  - by apply plain_no_every in E.
  - apply plain_outside in E as (field & Hin & Hf); [|done..]. by rewrite (Hi field Hin) in Hf.
Qed.

(** The 32nd of a month. *)
Lemma cron_unreadable_witness :
  nextCronRun (λ _, true) (λ _ _, 0) (Some "0 0 32 * *") None 0 None "UTC" = Returns None.
Proof.
  assert (∀ s, ¬ readsAs "0 0 32 * *" "UTC" s) as Hno.
  { intros s. by rewrite <-(plain_reads (λ _, true) "0 0 32 * *" "UTC"). }
  apply (proj2 (cron_unreadable (λ _, true) (λ _ _, 0) "0 0 32 * *" 0 None "UTC" ltac:(done) eq_refl eq_refl) Hno).
  apply Forall_forall. by_decide.
Defined.
