(* ===== verification/ResourceLink.v ===== *)
(** * Links to resources in the assistant's answers

    utils/resourceLink.ts: a [kubest://] link carries the kind, the namespace and
    the name of an object; [parseResourceLink] reads it back when it is clicked.
    A link is text the model wrote, so what the parser lets through matters: the
    names are checked against DNS-1123.

    [URLSearchParams] is the URL standard's: a query is pairs joined by [&], bytes
    other than letters, digits and [*-._] are written as [%XX], a space as [+].
    Strings are the bytes of their UTF-8 encoding; a byte that is not ASCII passes
    none of the checks. *)

From S2P Require Import Prelude JsString.

(** ** The checks *)

Definition is_upper (c : ascii) : bool := let n := nat_of_ascii c in ((65 <=? n) && (n <=? 90))%nat.
Definition is_lower (c : ascii) : bool := let n := nat_of_ascii c in ((97 <=? n) && (n <=? 122))%nat.
Definition is_alnum (c : ascii) : bool := is_lower c || is_digit c.

Fixpoint lastChar (c : ascii) (s : string) : ascii :=
  match s with "" => c | String a s' => lastChar a s' end.

(** [/^[a-z0-9]([-a-z0-9]*[a-z0-9])?$/]. *)
Definition DNS1123_LABEL (s : string) : bool :=
  match s with
  | "" => false
  | String c s' => is_alnum c && is_alnum (lastChar c s') && sall (λ a, is_alnum a || bool_decide (a = "-"%char)) s'
  end.

(** Labels joined by dots. *)
Definition DNS1123_SUBDOMAIN (s : string) : bool := every DNS1123_LABEL (split "." s).

(** [/^[A-Za-z][A-Za-z0-9]*$/]. *)
Definition KIND_LABEL (s : string) : bool :=
  match s with
  | "" => false
  | String c s' => (is_upper c || is_lower c) && sall (λ a, is_upper a || is_lower a || is_digit a) s'
  end.

(** [/^[a-z][a-z0-9]*$/]. *)
Definition kindLowerOk (s : string) : bool :=
  match s with "" => false | String c s' => is_lower c && sall is_alnum s' end.

(** ** The query *)

Definition hexDigit (n : nat) : ascii := ascii_of_nat (if (n <? 10)%nat then 48 + n else 55 + n).

Definition hexValue (c : ascii) : option nat :=
  let n := nat_of_ascii c in
  if is_digit c then Some (n - 48)%nat
  else if ((65 <=? n) && (n <=? 70))%nat then Some (n - 55)%nat
  else if ((97 <=? n) && (n <=? 102))%nat then Some (n - 87)%nat
  else None.

Definition unreserved (c : ascii) : bool :=
  is_upper c || is_lower c || is_digit c || bool_decide (c ∈ ["*"; "-"; "."; "_"]%char).

Fixpoint formEncode (s : string) : string :=
  match s with
  | "" => ""
  | String c s' =>
      if unreserved c then String c (formEncode s')
      else if bool_decide (c = " "%char) then String "+" (formEncode s')
      else String "%" (String (hexDigit (nat_of_ascii c / 16)) (String (hexDigit (nat_of_ascii c mod 16)) (formEncode s')))
  end.

(** A [%] that two hexadecimal digits do not follow stays. *)
Fixpoint percentDecode (s : string) : string :=
  match s with
  | String c s1 =>
      match s1 with
      | String a (String b s2) =>
          if bool_decide (c = "%"%char) then
            match hexValue a, hexValue b with
            | Some x, Some y => String (ascii_of_nat (16 * x + y)) (percentDecode s2)
            | _, _ => String c (percentDecode s1)
            end
          else String c (percentDecode s1)
      | _ => String c (percentDecode s1)
      end
  | "" => ""
  end.

Fixpoint plusToSpace (s : string) : string :=
  match s with
  | "" => ""
  | String c s' => String (if bool_decide (c = "+"%char) then " "%char else c) (plusToSpace s')
  end.

Definition formDecode (s : string) : string := percentDecode (plusToSpace s).

(** [params.toString()]. *)
Definition queryOf (pairs : list (string * string)) : string :=
  join "&" ((λ p, formEncode p.1 +:+ "=" +:+ formEncode p.2) <$> pairs).

(** [new URLSearchParams(s)]: a [?] at the start is dropped, empty pieces are
    skipped, a piece without [=] is a name with an empty value. *)
Definition pairsOf (s : string) : list (string * string) :=
  (λ piece, match indexOf "=" piece with
            | Some i => (formDecode (stake i piece), formDecode (sdrop (S i) piece))
            | None => (formDecode piece, "")
            end) <$> filterb nonempty (split "&" (if startsWith "?" s then sdrop 1 s else s)).

(** [params.get(name)]. *)
Definition getParam (name : string) (pairs : list (string * string)) : option string := snd <$> find (λ p, eqs p.1 name) pairs.

(** ** Links *)

Record ResourceLinkParts := { kind : string; name : string; namespace : option string }.

Definition SCHEME : string := "kubest://".

(** [undefined], [null] and the empty namespace are the same to the code. *)
Definition buildResourceLink (kind : string) (namespace : option string) (name : string) : option string :=
  let ns := default "" namespace in
  if negb (KIND_LABEL kind) then None
  else if negb (DNS1123_SUBDOMAIN name) then None
  else if nonempty ns && negb (DNS1123_LABEL ns) then None
  else Some (SCHEME +:+ toLowerCase kind +:+ "?" +:+ queryOf ((if nonempty ns then [("ns", ns)] else []) ++ [("name", name)])).

(** [kindLower.charAt(0).toUpperCase() + kindLower.slice(1)]. *)
Definition upper_ascii (c : ascii) : ascii := if is_lower c then ascii_of_nat (nat_of_ascii c - 32) else c.
Definition capitalize (s : string) : string := match s with "" => "" | String c s' => String (upper_ascii c) s' end.

Definition parseResourceLink (href : string) : option ResourceLinkParts :=
  if negb (startsWith SCHEME href) then None else
  let after := sdrop (String.length SCHEME) href in
  qIdx ← indexOf "?" after;
  let kindLower := stake qIdx after in
  if negb (kindLowerOk kindLower) then None else
  let params := pairsOf (sdrop (S qIdx) after) in
  name ← getParam "name" params;
  let ns := default "" (getParam "ns" params) in
  if negb (nonempty name) || negb (DNS1123_SUBDOMAIN name) then None
  else if nonempty ns && negb (DNS1123_LABEL ns) then None
  else Some {| kind := capitalize kindLower; name := name; namespace := if nonempty ns then Some ns else None |}.

Example link_of_a_pod : buildResourceLink "Pod" (Some "default") "web-1.a" = Some "kubest://pod?ns=default&name=web-1.a".
Proof. reflexivity. Qed.
Example link_read : parseResourceLink "kubest://pod?name=%77eb&ns=a" = Some {| kind := "Pod"; name := "web"; namespace := Some "a" |}.
Proof. reflexivity. Qed.
Example link_refused : parseResourceLink "kubest://pod?name=web%2F..&ns=a" = None.
Proof. reflexivity. Qed.

(** ** What the checks let through *)

(** Letters of a name: none of them means anything in a URL or a path. *)
Definition nameChar (c : ascii) : bool := is_alnum c || bool_decide (c = "-"%char) || bool_decide (c = "."%char).

Lemma label_chars s : DNS1123_LABEL s = true → sall nameChar s = true.
Proof.
  destruct s as [|c s]; [done|]. cbn [DNS1123_LABEL sall]. rewrite !andb_true_iff. intros [[Hc _] Hs]. split.
  - unfold nameChar. by rewrite Hc.
  - revert Hs. apply sall_impl. intros a. unfold nameChar. rewrite !orb_true_iff. tauto.
Qed.

Lemma sall_join p sep l : sall p sep = true → Forall (λ s, sall p s = true) l → sall p (join sep l) = true.
Proof.
  intros Hsep. assert (∀ s t, sall p s = true → sall p t = true → sall p (s +:+ t) = true) as Happ.
  { induction s as [|c s IH]; [done|]. intros t. rewrite app_cons_s. simpl. rewrite !andb_true_iff. naive_solver. }
  induction 1 as [|s l Hs Hl IH]; [done|]. cbn [join]. destruct l; [done|]. auto.
Qed.

Lemma subdomain_chars s : DNS1123_SUBDOMAIN s = true → sall nameChar s = true.
Proof.
  unfold DNS1123_SUBDOMAIN. rewrite every_true. intros H. rewrite <-(join_split "." s).
  apply sall_join; [done|]. apply Forall_forall. intros x Hx. by apply label_chars, H.
Qed.

Lemma subdomain_nonempty s : DNS1123_SUBDOMAIN s = true → nonempty s = true.
Proof. by destruct s. Qed.

Lemma nameChar_free c s : nameChar c = false → sall nameChar s = true → free_of c s.
Proof.
  intros Hc. induction s as [|a s IH]; [done|]. simpl. rewrite andb_true_iff. intros [Ha Hs].
  apply free_of_cons. split; [congruence|auto].
Qed.

Lemma formEncode_name s : sall nameChar s = true → formEncode s = s.
Proof.
  induction s as [|c s IH]; [done|]. cbn [sall formEncode]. rewrite andb_true_iff. intros [Hc Hs].
  assert (unreserved c = true) as ->; [|by rewrite IH].
  revert Hc. clear. destruct c as [[] [] [] [] [] [] [] []]; vm_compute; done.
Qed.

Lemma plusToSpace_name s : sall nameChar s = true → plusToSpace s = s.
Proof.
  induction s as [|c s IH]; [done|]. cbn [sall plusToSpace]. rewrite andb_true_iff. intros [Hc Hs].
  rewrite IH, bool_decide_false by (done || by intros ->). done.
Qed.

Lemma percentDecode_name s : sall nameChar s = true → percentDecode s = s.
Proof.
  induction s as [|c s IH]; [done|]. cbn [sall]. rewrite andb_true_iff. intros [Hc Hs].
  destruct s as [|a [|b s]]; [done| |].
  { change (percentDecode (String c (String a ""))) with (String c (percentDecode (String a ""))). by rewrite IH. }
  change (percentDecode (String c (String a (String b s)))) with
    (if bool_decide (c = "%"%char) then
       match hexValue a, hexValue b with
       | Some x, Some y => String (ascii_of_nat (16 * x + y)) (percentDecode s)
       | _, _ => String c (percentDecode (String a (String b s)))
       end
     else String c (percentDecode (String a (String b s)))).
  rewrite bool_decide_false by (by intros ->). by rewrite IH.
Qed.

Lemma formDecode_name s : sall nameChar s = true → formDecode s = s.
Proof. intros H. unfold formDecode. by rewrite plusToSpace_name, percentDecode_name. Qed.

Lemma parameter_read key s :
  sall nameChar key = true → sall nameChar s = true →
  (λ piece, match indexOf "=" piece with
            | Some i => (formDecode (stake i piece), formDecode (sdrop (S i) piece))
            | None => (formDecode piece, "")
            end) (formEncode key +:+ "=" +:+ formEncode s) = (key, s).
Proof.
  intros Hk Hs. rewrite !formEncode_name by done. change ("=" +:+ s) with (String "=" s).
  rewrite indexOf_char by (by apply nameChar_free). rewrite stake_app.
  replace (sdrop (S (String.length key)) (key +:+ String "=" s)) with s.
  - by rewrite !formDecode_name.
  - clear. induction key as [|c key IH]; [by destruct s|]. rewrite app_cons_s. exact IH.
Qed.

(** Reading a query gives back the pairs it was written from. *)
Lemma pairsOf_queryOf pairs :
  pairs ≠ [] → Forall (λ p, p.1 ≠ "" ∧ sall nameChar p.1 = true ∧ sall nameChar p.2 = true) pairs → pairsOf (queryOf pairs) = pairs.
Proof.
  intros Hne Hall. unfold pairsOf, queryOf. set (piece := λ p : string * string, formEncode p.1 +:+ "=" +:+ formEncode p.2).
  assert (∀ p, p ∈ pairs → free_of "&" (piece p) ∧ free_of "?" (piece p) ∧ nonempty (piece p) = true) as Hp.
  { intros [key s] Hin. rewrite Forall_forall in Hall. destruct (Hall _ Hin) as (Hk0 & Hk & Hs). cbn in *. unfold piece. cbn.
    rewrite !formEncode_name by done.
    split_and!; [apply free_of_app; split; [by apply nameChar_free|]; apply free_of_cons; split; [done|by apply nameChar_free]..|].
    by destruct key. }
  assert (startsWith "?" (join "&" (piece <$> pairs)) = false) as ->.
  { destruct pairs as [|p pairs]; [done|]. destruct (Hp p) as (_ & Hq & Hn); [left|]. cbn [fmap list_fmap].
    destruct (piece p) as [|c t]; [done|]. apply free_of_cons in Hq as [Hq _].
    cbn [join]. destruct (_ <$> pairs); rewrite ?app_cons_s; cbn; by rewrite bool_decide_false. }
  rewrite split_join.
  - unfold filterb. replace (List.filter nonempty (piece <$> pairs)) with (piece <$> pairs).
    + rewrite <-list_fmap_compose. rewrite <-(list_fmap_id pairs) at 2. apply list_fmap_ext. intros i [key s] Hi.
      apply list_elem_of_lookup_2 in Hi. rewrite Forall_forall in Hall. destruct (Hall _ Hi) as (_ & Hk & Hs).
      by apply parameter_read.
    + clear Hne Hall. induction pairs as [|p pairs IH]; [done|]. cbn. destruct (Hp p) as (_ & _ & ->); [left|].
      f_equal. apply IH. intros. apply Hp. by right.
  - by destruct pairs.
  - apply Forall_fmap, Forall_forall. intros p Hin. by destruct (Hp p Hin).
Qed.

(** ** Kinds *)

Lemma lower_alnum c : is_upper c || is_lower c || is_digit c = true → is_alnum (lower_ascii c) = true.
Proof. destruct c as [[] [] [] [] [] [] [] []]; vm_compute; done. Qed.

Lemma kind_lower kind : KIND_LABEL kind = true → kindLowerOk (toLowerCase kind) = true.
Proof.
  destruct kind as [|c s]; [done|]. cbn [KIND_LABEL toLowerCase kindLowerOk]. rewrite !andb_true_iff. intros [Hc Hs]. split.
  - revert Hc. clear. destruct c as [[] [] [] [] [] [] [] []]; vm_compute; done.
  - induction s as [|a s IH]; [done|]. cbn [sall toLowerCase] in *. apply andb_true_iff in Hs as [Ha Hs].
    rewrite lower_alnum by done. by apply IH.
Qed.

Lemma kindLower_chars s : kindLowerOk s = true → sall nameChar s = true.
Proof.
  destruct s as [|c s]; [done|]. cbn [kindLowerOk sall]. rewrite !andb_true_iff. intros [Hc Hs].
  unfold nameChar at 1, is_alnum. rewrite Hc. split; [done|]. revert Hs. apply sall_impl.
  intros a Ha. unfold nameChar. by rewrite Ha.
Qed.

(** A capitalized kind is a kind, and its lower case is the one it came from. *)
Lemma capitalize_kind s :
  kindLowerOk s = true → KIND_LABEL (capitalize s) = true ∧ toLowerCase (capitalize s) = s.
Proof.
  destruct s as [|c s]; [done|]. cbn [kindLowerOk capitalize KIND_LABEL toLowerCase]. rewrite !andb_true_iff. intros [Hc Hs].
  split_and!.
  - revert Hc. clear. destruct c as [[] [] [] [] [] [] [] []]; vm_compute; done.
  - revert Hs. apply sall_impl. intros a. unfold is_alnum. rewrite !orb_true_iff. tauto.
  - f_equal; [revert Hc; clear; destruct c as [[] [] [] [] [] [] [] []]; vm_compute; done|].
    clear Hc. induction s as [|a s IH]; [done|]. cbn [sall toLowerCase] in *. apply andb_true_iff in Hs as [Ha Hs].
    f_equal; [|by apply IH]. revert Ha. clear. destruct a as [[] [] [] [] [] [] [] []]; vm_compute; done.
Qed.

(** ** Links are read back *)

Lemma parse_written lower ns name :
  kindLowerOk lower = true → DNS1123_SUBDOMAIN name = true → nonempty ns = false ∨ DNS1123_LABEL ns = true →
  parseResourceLink (SCHEME +:+ lower +:+ "?" +:+ queryOf ((if nonempty ns then [("ns", ns)] else []) ++ [("name", name)])) =
  Some {| kind := capitalize lower; name := name; namespace := if nonempty ns then Some ns else None |}.
Proof.
  intros Hl Hn Hns. set (pairs := _ ++ _).
  assert (pairsOf (queryOf pairs) = pairs) as Hq.
  { apply pairsOf_queryOf; [by destruct (nonempty ns)|]. pose proof (subdomain_chars _ Hn). unfold pairs.
    destruct Hns as [-> |Hlab]; [by repeat constructor|]. apply label_chars in Hlab. destruct (nonempty ns); by repeat constructor. }
  unfold parseResourceLink. rewrite startsWith_app. cbn [negb]. rewrite sdrop_app.
  change ("?" +:+ queryOf pairs) with (String "?" (queryOf pairs)).
  rewrite indexOf_char by (by apply nameChar_free, kindLower_chars). cbn [mbind option_bind].
  rewrite stake_app, Hl. cbn [negb].
  replace (sdrop (S (String.length lower)) (lower +:+ String "?" (queryOf pairs))) with (queryOf pairs)
    by (clear; induction lower as [|c t IH]; [by destruct (queryOf pairs)|rewrite app_cons_s; exact IH]).
  cbv zeta. rewrite Hq. assert (getParam "name" pairs = Some name ∧ default "" (getParam "ns" pairs) = ns) as [-> ->].
  { unfold pairs. destruct (nonempty ns) eqn:E; [by split|]. apply negb_false_iff, eqs_true in E as ->. by split. }
  cbn [mbind option_bind]. rewrite (subdomain_nonempty _ Hn), Hn. cbn [negb orb].
  destruct Hns as [-> | ->]; [done|]. by rewrite andb_false_r.
Qed.

(** A link that could be written is read back as the object it was written for,
    its kind in lower case but for the first letter, and an empty namespace as
    none. *)
Theorem link_roundtrip kind ns name href :
  buildResourceLink kind ns name = Some href →
  parseResourceLink href =
    Some {| kind := capitalize (toLowerCase kind); name := name;
            namespace := if nonempty (default "" ns) then ns else None |}.
Proof.
  unfold buildResourceLink. destruct (KIND_LABEL kind) eqn:Hk; [|done]. cbn [negb].
  destruct (DNS1123_SUBDOMAIN name) eqn:Hn; [|done]. cbn [negb].
  destruct (nonempty (default "" ns) && negb (DNS1123_LABEL (default "" ns))) eqn:Hns; [done|]. intros [= <-].
  rewrite parse_written; [|by apply kind_lower|done|].
  - f_equal. f_equal. destruct ns; [done|]. done.
  - apply andb_false_iff in Hns as [|?%negb_false_iff]; tauto.
Qed.

Lemma link_roundtrip_witness :
  buildResourceLink "StatefulSet" (Some "prod") "db.main" = Some "kubest://statefulset?ns=prod&name=db.main" ∧
  parseResourceLink "kubest://statefulset?ns=prod&name=db.main" =
    Some {| kind := "Statefulset"; name := "db.main"; namespace := Some "prod" |}.
Proof.
  split; [reflexivity|]. apply (link_roundtrip "StatefulSet" (Some "prod") "db.main"). reflexivity.
Defined.

(** Whatever a link of an answer holds, what it opens is a kind of letters and
    digits and names of the cluster's rules, none of whose characters means
    anything in a URL; and it can be linked to again, with the same meaning. *)
Theorem link_opens_names href p :
  parseResourceLink href = Some p →
  KIND_LABEL (kind p) = true ∧
  DNS1123_SUBDOMAIN (name p) = true ∧ sall nameChar (name p) = true ∧
  (∀ ns, namespace p = Some ns → DNS1123_LABEL ns = true ∧ sall nameChar ns = true) ∧
  ∃ href', buildResourceLink (kind p) (namespace p) (name p) = Some href' ∧ parseResourceLink href' = Some p.
Proof.
  unfold parseResourceLink at 1. destruct (startsWith SCHEME href); [|done]. cbn [negb].
  destruct (indexOf "?" _) as [i|]; [|done]. cbn [mbind option_bind].
  destruct (kindLowerOk (stake i _)) eqn:Hl; [|done]. cbn [negb]. set (lower := stake i _) in *.
  destruct (getParam "name" _) as [nm|]; [|done]. cbn [mbind option_bind]. set (ns := default "" _).
  destruct (negb (nonempty nm) || negb (DNS1123_SUBDOMAIN nm)) eqn:Hn; [done|].
  apply orb_false_iff in Hn as [_ Hn%negb_false_iff].
  destruct (nonempty ns && negb (DNS1123_LABEL ns)) eqn:Hns; [done|]. intros [= <-]. cbn [kind name namespace].
  destruct (capitalize_kind _ Hl) as [Hk Hback].
  assert (nonempty ns = false ∨ DNS1123_LABEL ns = true) as Hor by (apply andb_false_iff in Hns as [|?%negb_false_iff]; tauto).
  split_and!; [done|done|by apply subdomain_chars| |].
  - destruct (nonempty ns); [|done]. intros ? [= <-]. destruct Hor as [|Hor]; [done|]. split; [done|by apply label_chars].
  - eexists. split; [|by apply (parse_written lower ns nm)].
    unfold buildResourceLink. rewrite Hk, Hn. cbn [negb]. rewrite Hback.
    destruct (nonempty ns) eqn:E; [|reflexivity]. change (default "" (Some ns)) with ns.
    rewrite E. destruct Hor as [| ->]; done.
Qed.

Lemma link_opens_names_witness :
  parseResourceLink "kubest://pod?name=%77eb&x=%2F" = Some {| kind := "Pod"; name := "web"; namespace := None |} ∧
  ∃ href', buildResourceLink "Pod" None "web" = Some href' ∧
           parseResourceLink href' = Some {| kind := "Pod"; name := "web"; namespace := None |}.
Proof.
  split; [reflexivity|].
  apply (link_opens_names "kubest://pod?name=%77eb&x=%2F" {| kind := "Pod"; name := "web"; namespace := None |}).
  reflexivity.
Defined.
