(* ===== verification/Conversation.v ===== *)
(** * The messages of a conversation on screen

    services/sessionMessages.ts: a conversation is opened at its newest page of
    messages, the earlier ones are read a page at a time above them, and newer
    answers of the newest page are merged in.  hooks/useEarlierMessages.ts asks
    for the page above and hands its answer on.

    Then what the server and the screen do together: the saved conversation as a
    list that only grows, and the screen as the rest of it from some message on. *)

From S2P Require Import Prelude JsString.

(** [number | string]. *)
Inductive ident := IdNum (z : Z) | IdStr (s : string).

#[export] Instance ident_eq : EqDecision ident.
Proof. solve_decision. Defined.

(** [{ id?: number | string }]; [None] is [undefined]. *)
Class Identified (M : Type) := idOf : M → option ident.

Section messages.
Context `{Identified M}.

Definition mergeNewestPage (shown newest : list M) : list M :=
  match findIndex (λ m, bool_decide (idOf m ∈ idOf <$> newest)) shown with
  | Some (S k) => take (S k) shown ++ newest
  | _ => newest
  end.

(** The answer of GET /sessions/{id}, what is read of it here. *)
Record Detail := { messages_before : option Z; messages : option (list M) }.

Definition firstId (l : list M) : option ident := match l with [] => None | m :: _ => idOf m end.

(** [findIndex]'s -1 as a number. *)
Definition indexNumber (i : option nat) : Z := match i with Some n => Z.of_nat n | None => -1 end.

Definition hiddenEarlier (detail : option Detail) (shown : list M) : Z :=
  let before := match detail with Some d => default 0%Z (messages_before d) | None => 0%Z end in
  let first := match detail with Some d => match messages d with Some l => firstId l | None => None end | None => None end in
  let above := match first with
               | None => (-1)%Z
               | Some id => indexNumber (findIndex (λ m, bool_decide (idOf m = Some id)) shown)
               end in
  Z.max 0 (before - Z.max 0 above).

Definition prependEarlier (shown page : list M) : list M :=
  filterb (λ m, negb (bool_decide (idOf m ∈ idOf <$> shown))) page ++ shown.

Definition olderThanNewestPage (id : option ident) (newest : list M) : bool :=
  match id, firstId newest with
  | Some (IdNum a), Some (IdNum b) => (a <? b)%Z
  | _, _ => false
  end.
End messages.
Arguments Detail M : clear implicits.

(** ** The screen and the saved conversation *)

Section conversation.
Context `{Identified M}.
Implicit Types (conv shown page rest : list M).

Lemma filter_all (P : M → bool) l : (∀ m, m ∈ l → P m = true) → List.filter P l = l.
Proof.
  induction l as [|m l IH]; [done|]. intros HP. cbn. rewrite (HP m) by left. f_equal. apply IH. intros. apply HP. by right.
Qed.

Lemma filter_none (P : M → bool) l : (∀ m, m ∈ l → P m = false) → List.filter P l = [].
Proof.
  induction l as [|m l IH]; [done|]. intros HP. cbn. rewrite (HP m) by left. apply IH. intros. apply HP. by right.
Qed.

(** A saved conversation: every message has its own id. *)
Definition saved conv : Prop := NoDup (idOf <$> conv) ∧ Forall (λ m, is_Some (idOf m)) conv.

(** Temporary bubbles have no id. *)
Definition temporary rest : Prop := Forall (λ m, idOf m = None) rest.

Lemma saved_lookup conv i j a b : saved conv → conv !! i = Some a → conv !! j = Some b → idOf a = idOf b → i = j.
Proof.
  intros [Hd _] Ha Hb E. eapply NoDup_lookup; [exact Hd| |].
  - by rewrite list_lookup_fmap, Ha.
  - by rewrite list_lookup_fmap, Hb, E.
Qed.

Lemma saved_drop_id conv p i a : saved conv → conv !! i = Some a → idOf a ∈ idOf <$> drop p conv ↔ p ≤ i.
Proof.
  intros Hs Ha. rewrite list_elem_of_fmap. split.
  - intros (b & E & Hb). apply list_elem_of_lookup in Hb as [j Hj]. rewrite lookup_drop in Hj.
    rewrite (saved_lookup conv i (p + j) a b) by done. lia.
  - intros Hp. exists a. split; [done|]. apply list_elem_of_lookup. exists (i - p). rewrite lookup_drop.
    by replace (p + (i - p)) with i by lia.
Qed.

Lemma saved_take_id conv q b i a : saved conv → conv !! i = Some a →
  idOf a ∈ idOf <$> drop q (take b conv) ↔ q ≤ i < b.
Proof.
  intros Hs Ha. rewrite list_elem_of_fmap. split.
  - intros (m & E & Hm). apply list_elem_of_lookup in Hm as [j Hj]. rewrite lookup_drop in Hj.
    apply lookup_take_Some in Hj as [Hj Hlt]. rewrite (saved_lookup conv i (q + j) a m) by done. lia.
  - intros [? ?]. exists a. split; [done|]. apply list_elem_of_lookup. exists (i - q).
    rewrite lookup_drop, lookup_take_lt by lia. by replace (q + (i - q)) with i by lia.
Qed.

Lemma temporary_id rest m conv : saved conv → temporary rest → m ∈ rest → idOf m ∉ idOf <$> conv.
Proof.
  intros [_ Hs] Ht Hm Hin. unfold temporary in Ht. rewrite Forall_forall in Ht, Hs. rewrite (Ht m Hm) in Hin.
  apply list_elem_of_fmap in Hin as (b & E & Hb). destruct (Hs b Hb) as [i Hi]. congruence.
Qed.

(** The first of a run's messages that is in the newest page. *)
Lemma meets conv more a p rest :
  saved (conv ++ more) → temporary rest → a ≤ length conv → p ≤ length (conv ++ more) →
  findIndex (λ m, bool_decide (idOf m ∈ idOf <$> drop p (conv ++ more))) (drop a conv ++ rest) =
  if decide (Nat.max a p < length conv) then Some (p - a) else None.
Proof.
  intros Hs Ht Ha Hp. destruct (decide _) as [Hlt|Hlt].
  - destruct (findIndex _ _) as [i|] eqn:E.
    + apply findIndex_Some in E as (m & Hm & Hin & Hbefore). apply bool_decide_eq_true in Hin. f_equal.
      assert (∀ j, j < length conv - a → ∃ m', (drop a conv ++ rest) !! j = Some m' ∧ (conv ++ more) !! (a + j) = Some m') as Hlook.
      { intros j Hj. destruct (lookup_lt_is_Some_2 conv (a + j)) as [m' Hm']; [lia|]. exists m'.
        rewrite lookup_app_l by (rewrite length_drop; lia). rewrite lookup_drop. split; [done|]. by apply lookup_app_l_Some. }
      destruct (Nat.lt_trichotomy i (p - a)) as [Hi|[Hi|Hi]]; [|done|].
      * destruct (Hlook i ltac:(lia)) as (m' & Hm' & Hc). simplify_eq.
        apply (saved_drop_id _ p (a + i)) in Hin; [lia|done|done].
      * destruct (Hlook (p - a) ltac:(lia)) as (m' & Hm' & Hc). specialize (Hbefore _ _ Hi Hm').
        apply bool_decide_eq_false in Hbefore. destruct Hbefore. eapply saved_drop_id; [done|done|lia].
    + apply findIndex_None in E. rewrite Forall_forall in E.
      destruct (lookup_lt_is_Some_2 conv (Nat.max a p)) as [m Hm]; [done|].
      specialize (E m). assert (m ∈ drop a conv ++ rest) as Hin.
      { apply elem_of_app. left. apply list_elem_of_lookup. exists (Nat.max a p - a). rewrite lookup_drop.
        by replace (a + (Nat.max a p - a)) with (Nat.max a p) by lia. }
      specialize (E Hin). apply bool_decide_eq_false in E. destruct E.
      eapply saved_drop_id; [done|by apply lookup_app_l_Some|lia].
  - apply findIndex_None, Forall_forall. intros m Hin. apply bool_decide_eq_false. intros Hp'.
    apply elem_of_app in Hin as [Hin|Hin].
    + apply list_elem_of_lookup in Hin as [j Hj]. rewrite lookup_drop in Hj. pose proof (lookup_lt_Some _ _ _ Hj).
      apply (saved_drop_id _ p (a + j)) in Hp'; [lia|done|by apply lookup_app_l_Some].
    + assert (idOf m ∉ idOf <$> (conv ++ more)) as Hn by (by eapply temporary_id).
      apply Hn. apply list_elem_of_fmap in Hp' as (b & E & Hb). apply list_elem_of_fmap. exists b. split; [done|].
      apply list_elem_of_lookup in Hb as [j Hj]. rewrite lookup_drop in Hj. by eapply list_elem_of_lookup_2.
Qed.

(** Merging the newest page: the screen is again the rest of the conversation
    from some message on. *)
Lemma merge_rest conv more a p rest :
  saved (conv ++ more) → temporary rest → a ≤ length conv → p < length (conv ++ more) →
  mergeNewestPage (drop a conv ++ rest) (drop p (conv ++ more)) =
  drop (if decide (p < length conv) then Nat.min a p else p) (conv ++ more).
Proof.
  intros Hs Ht Ha Hp. unfold mergeNewestPage. rewrite meets by (done || lia).
  destruct (decide (Nat.max a p < length conv)).
  - rewrite decide_True by lia. destruct (p - a) as [|k] eqn:E; [by rewrite Nat.min_r by lia|].
    rewrite Nat.min_l, <-E by lia.
    assert (take (p - a) (drop a conv ++ rest) = take (p - a) (drop a (conv ++ more))) as ->.
    { rewrite drop_app_le by lia. by rewrite !take_app_le by (rewrite length_drop; lia). }
    rewrite <-(take_drop (p - a) (drop a (conv ++ more))) at 2. rewrite drop_drop. by replace (a + (p - a)) with p by lia.
  - destruct (decide (p < length conv)); [|done]. rewrite Nat.min_r by lia. done.
Qed.

(** What the screen says is hidden is the number of messages it does not hold, and the
    ones counted too many. *)
Lemma hidden_rest conv a p k0 rest :
  saved conv → temporary rest → p < length conv → a ≤ p →
  hiddenEarlier (Some {| messages_before := Some (Z.of_nat (p + k0)); messages := Some (drop p conv) |}) (drop a conv ++ rest) = Z.of_nat (a + k0).
Proof.
  intros Hs Ht Hp Ha. unfold hiddenEarlier. cbn [messages_before messages default].
  destruct (lookup_lt_is_Some_2 conv p Hp) as [m Hm].
  assert (firstId (drop p conv) = idOf m) as ->.
  { rewrite (drop_S conv m p Hm). done. }
  destruct Hs as [Hd Hall]. pose proof Hall as Hall'. rewrite Forall_forall in Hall'.
  destruct (Hall' m) as [i Hi]; [by eapply list_elem_of_lookup_2|]. rewrite Hi.
  assert (findIndex (λ m, bool_decide (idOf m = Some i)) (drop a conv ++ rest) = Some (p - a)) as ->; [|cbn; unfold id; lia].
  destruct (findIndex _ _) as [k|] eqn:E.
  - apply findIndex_Some in E as (m' & Hm' & Hin & Hbefore). apply bool_decide_eq_true in Hin. f_equal.
    assert ((drop a conv ++ rest) !! (p - a) = Some m) as Hpm.
    { rewrite lookup_app_l by (rewrite length_drop; lia). rewrite lookup_drop. by replace (a + (p - a)) with p by lia. }
    destruct (Nat.lt_trichotomy k (p - a)) as [Hk|[Hk|Hk]]; [|done|].
    + rewrite lookup_app_l in Hm' by (rewrite length_drop; lia). rewrite lookup_drop in Hm'.
      assert (a + k = p); [|lia]. apply (saved_lookup conv _ _ m' m); [done..|congruence].
    + specialize (Hbefore _ _ Hk Hpm). apply bool_decide_eq_false in Hbefore. done.
  - apply findIndex_None in E. rewrite Forall_forall in E. specialize (E m). rewrite bool_decide_true in E by done.
    discriminate E. apply elem_of_app. left. apply list_elem_of_lookup. exists (p - a). rewrite lookup_drop.
    by replace (a + (p - a)) with p by lia.
Qed.

(** A page of the messages before [b] goes above a list that starts at [b] or
    before it. *)
Lemma prepend_rest conv q a b rest :
  saved conv → temporary rest → q ≤ b → a ≤ b → b ≤ length conv →
  prependEarlier (drop a conv ++ rest) (drop q (take b conv)) = drop (Nat.min q a) conv ++ rest.
Proof.
  intros Hs Ht Hq Ha Hb. unfold prependEarlier.
  assert (filterb (λ m, negb (bool_decide (idOf m ∈ idOf <$> (drop a conv ++ rest)))) (drop q (take b conv)) = drop q (take a conv)) as ->.
  { transitivity (filterb (λ m, negb (bool_decide (idOf m ∈ idOf <$> (drop a conv ++ rest)))) (drop q (take a conv) ++ drop (Nat.max q a) (take b conv))).
    - f_equal. destruct (decide (q ≤ a)).
      + rewrite Nat.max_r by lia. rewrite <-(take_drop (a - q) (drop q (take b conv))), drop_drop.
        replace (q + (a - q)) with a by lia. f_equal. rewrite take_drop_commute, take_take.
        by replace (q + (a - q)) with a by lia; rewrite Nat.min_l by lia.
      + rewrite Nat.max_l by lia. by rewrite (drop_ge (take a conv)) by (rewrite length_take; lia).
    - unfold filterb. rewrite List.filter_app. rewrite <-(app_nil_r (drop q (take a conv))) at 2. f_equal.
      + apply filter_all. intros m Hm. apply list_elem_of_lookup in Hm as [j Hj]. rewrite lookup_drop in Hj.
        apply lookup_take_Some in Hj as [Hj Hlt]. apply negb_true_iff, bool_decide_eq_false.
        rewrite fmap_app, elem_of_app. intros [Hin|Hin].
        * apply (saved_drop_id conv a (q + j)) in Hin; [lia|done|done].
        * apply list_elem_of_fmap in Hin as (t & E & Hin). apply (temporary_id rest t conv) in Hin; [|done..].
          apply Hin. rewrite <-E. apply list_elem_of_fmap. exists m. split; [done|]. by eapply list_elem_of_lookup_2.
      + apply filter_none. intros m Hm. apply list_elem_of_lookup in Hm as [j Hj]. rewrite lookup_drop in Hj.
        apply lookup_take_Some in Hj as [Hj Hlt]. apply negb_false_iff, bool_decide_eq_true.
        rewrite fmap_app, elem_of_app. left. apply (saved_drop_id conv a (Nat.max q a + j)); [done|done|lia]. }
  rewrite app_assoc. f_equal. destruct (decide (q ≤ a)).
  - rewrite Nat.min_l by lia. rewrite <-(take_drop (a - q) (drop q conv)), drop_drop.
    replace (q + (a - q)) with a by lia. f_equal. rewrite take_drop_commute. by replace (q + (a - q)) with a by lia.
  - rewrite Nat.min_r by lia. by rewrite (drop_ge (take a conv)) by (rewrite length_take; lia).
Qed.
End conversation.

(** ** The panel

    components/FloatingAIChat/ChatPanel.tsx holds the messages of its session and
    adjusts them whenever the session or the answer changes; its reads of earlier
    pages are answered in any order.  The server is the session service of the
    repository: its newest page and the page before a message, [pageSize] messages
    at most. *)

Section panel.
Context `{Identified M} (pageSize : nat).

(** GET /sessions/{id}: the newest page of the messages saved when it is read, then how
    many are before it, by a count read after the page. *)
Definition sessionDetail (conv : list M) (total : nat) : Detail M :=
  let page := drop (length conv - pageSize) conv in
  {| messages_before := Some (Z.of_nat (total - length page)); messages := Some page |}.

(** GET /sessions/{id}/messages?before_id: the page right before a message. *)
Definition messagesBefore (conv : list M) (before : ident) : list M :=
  match findIndex (λ m, bool_decide (idOf m = Some before)) conv with
  | Some k => drop (k - pageSize) (take k conv)
  | None => []
  end.

Record Panel := { panelSession : option string; detail : option (Detail M); held : list M; reads : list (string * ident) }.

(** A render with a new session or a new answer. *)
Definition render (s : string) (d : option (Detail M)) (p : Panel) : Panel :=
  let shown := if bool_decide (panelSession p = Some s) then held p else [] in
  let newest := match d with Some d => default [] (messages d) | None => [] end in
  {| panelSession := Some s; detail := d; held := mergeNewestPage shown newest; reads := reads p |}.

(** [load]: reads the page above the oldest message held. *)
Definition load (p : Panel) : Panel :=
  match panelSession p, firstId (held p) with
  | Some s, Some before =>
      {| panelSession := panelSession p; detail := detail p; held := held p; reads := reads p ++ [(s, before)] |}
  | _, _ => p
  end.

(** [onSuccess] of the [i]-th read: an answer for another session is dropped. *)
Definition onSuccess (i : nat) (session : string) (page : list M) (p : Panel) : Panel :=
  {| panelSession := panelSession p; detail := detail p;
     held := if bool_decide (panelSession p = Some session) then prependEarlier (held p) page else held p;
     reads := delete i (reads p) |}.

(** What is saved, the panel, and how many messages of its conversation the panel's last
    answer had read and had counted. *)
Record World := { convs : string → list M; panel : Panel; seen : nat; counted : nat }.

Definition save (s : string) (ms : list M) (w : World) : World :=
  {| convs := λ s', if bool_decide (s' = s) then convs w s ++ ms else convs w s'; panel := panel w; seen := seen w; counted := counted w |}.

(** [careful]: the answers come while the message they were asked for is still
    held. *)
Inductive step (careful : bool) : World → World → Prop :=
| step_save w s ms : saved (convs w s ++ ms) → step careful w (save s ms w)
| step_select w s :
    panelSession (panel w) ≠ Some s →
    step careful w {| convs := convs w; panel := render s None (panel w); seen := 0; counted := 0 |}
| step_answer w s n c :
    n ≤ c ≤ length (convs w s) → panelSession (panel w) ≠ Some s ∨ seen w ≤ n →
    step careful w {| convs := convs w; panel := render s (Some (sessionDetail (take n (convs w s)) c)) (panel w); seen := n; counted := c |}
| step_load w : step careful w {| convs := convs w; panel := load (panel w); seen := seen w; counted := counted w |}
| step_page w i s before :
    reads (panel w) !! i = Some (s, before) →
    (careful = true → panelSession (panel w) = Some s → Some before ∈ idOf <$> held (panel w)) →
    step careful w {| convs := convs w; panel := onSuccess i s (messagesBefore (convs w s) before) (panel w); seen := seen w; counted := counted w |}.

Definition newPanel : Panel := {| panelSession := None; detail := None; held := []; reads := [] |}.

Inductive reachable (careful : bool) : World → Prop :=
| reachable_start cs : (∀ s, saved (cs s)) → reachable careful {| convs := cs; panel := newPanel; seen := 0; counted := 0 |}
| reachable_step w w' : reachable careful w → step careful w w' → reachable careful w'.

(** The panel holds the rest, from message [a] on, of the first [seen] messages of
    its conversation, and its answer is the newest page of those. *)
Definition holdsFrom (w : World) (a : nat) : Prop :=
  match panelSession (panel w) with
  | None => held (panel w) = [] ∧ a = seen w ∧ seen w = 0
  | Some s =>
      seen w ≤ length (convs w s) ∧ a ≤ seen w ∧
      held (panel w) = drop a (take (seen w) (convs w s)) ∧
      (∀ d, detail (panel w) = Some d →
        d = sessionDetail (take (seen w) (convs w s)) (counted w) ∧ seen w ≤ counted w ≤ length (convs w s) ∧ a ≤ seen w - pageSize)
  end.

Definition worldOk (w : World) : Prop := (∀ s, saved (convs w s)) ∧ ∃ a, holdsFrom w a.

Lemma saved_app (l1 l2 : list M) : saved (l1 ++ l2) → saved l1.
Proof. intros [Hd Hs]. rewrite fmap_app in Hd. apply NoDup_app in Hd as [? _]. apply Forall_app in Hs as [? _]. by split. Qed.

Lemma saved_take n (l : list M) : saved l → saved (take n l).
Proof. intros Hs. apply (saved_app _ (drop n l)). by rewrite take_drop. Qed.

Lemma merge_nil (newest : list M) : mergeNewestPage [] newest = newest.
Proof. done. Qed.

Lemma merge_no_newest (shown : list M) : mergeNewestPage shown [] = [].
Proof.
  unfold mergeNewestPage. destruct (findIndex _ _) as [[|k]|] eqn:E; [done| |done]. exfalso.
  apply findIndex_Some in E as (m & _ & Hm & _). apply bool_decide_eq_true in Hm. by apply elem_of_nil in Hm.
Qed.

(** A newer answer of the newest page. *)
Lemma merge_newer conv n n' a :
  0 < pageSize → saved conv → n ≤ n' → n' ≤ length conv → a ≤ n →
  ∃ a', mergeNewestPage (drop a (take n conv)) (drop (n' - pageSize) (take n' conv)) = drop a' (take n' conv) ∧ a' ≤ n' - pageSize.
Proof.
  intros HN Hs Hn Hn' Ha. destruct (decide (n' = 0)) as [->|].
  { exists 0. split; [|lia]. cbn. apply merge_no_newest. }
  assert (take n' conv = take n conv ++ drop n (take n' conv)) as E.
  { rewrite <-(take_drop n (take n' conv)) at 1. by rewrite take_take, Nat.min_l. }
  assert (length (take n conv) = n) as Ln by (rewrite length_take; lia).
  assert (length (take n' conv) = n') as Ln' by (rewrite length_take; lia).
  pose proof (merge_rest (take n conv) (drop n (take n' conv)) a (n' - pageSize) []) as Hm.
  rewrite <-E, app_nil_r, Ln, Ln' in Hm. eexists. split; [apply Hm; [by apply saved_take|by constructor|lia|lia]|].
  destruct (decide _); lia.
Qed.

Lemma index_of_held conv n a before :
  saved conv → Some before ∈ idOf <$> drop a (take n conv) →
  ∃ k, findIndex (λ m, bool_decide (idOf m = Some before)) conv = Some k ∧ a ≤ k < n.
Proof.
  intros Hs Hin. apply list_elem_of_fmap in Hin as (m & Em & Hin). apply list_elem_of_lookup in Hin as [j Hj].
  rewrite lookup_drop in Hj. apply lookup_take_Some in Hj as [Hj Hlt].
  exists (a + j). split; [|lia]. destruct (findIndex _ _) as [k|] eqn:E.
  - apply findIndex_Some in E as (m' & Hm' & Hin' & _). apply bool_decide_eq_true in Hin'.
    f_equal. apply (saved_lookup conv k (a + j) m' m); [done..|congruence].
  - apply findIndex_None in E. rewrite Forall_forall in E. specialize (E m (list_elem_of_lookup_2 _ _ _ Hj)).
    apply bool_decide_eq_false in E. by destruct E.
Qed.

Lemma panel_step_ok w w' : 0 < pageSize → worldOk w → step true w w' → worldOk w'.
Proof.
  intros HN [Hs [a Ha]] Hstep. split.
  { destruct Hstep as [w s ms Hms| | | |]; try exact Hs. intros s'. cbn. case_bool_decide; [done|apply Hs]. }
  unfold holdsFrom in *. destruct Hstep as [w s ms Hms|w s Hne|w s n c [Hn Hc] Hor|w|w i s before Hread Hcare]; cbn [panel seen counted convs save] in *.
  - exists a. destruct (panelSession (panel w)) as [s'|]; [|done]. case_bool_decide as E; [subst s'|done].
    destruct Ha as (Hlen & Hle & Hheld & Hdet). rewrite length_app. rewrite take_app_le by lia. split_and!; [lia|done..|].
    intros d Hd. destruct (Hdet d Hd) as (? & ? & ?). split_and!; [done|lia..].
  - exists 0. cbn. rewrite bool_decide_false by done. split_and!; [lia|lia|done|done].
  - cbn. destruct (decide (panelSession (panel w) = Some s)) as [E|E].
    + rewrite bool_decide_true by done. rewrite E in Ha. destruct Ha as (Hlen & Hle & Hheld & Hdet). destruct Hor as [|Hor]; [done|].
      destruct (merge_newer (convs w s) (seen w) n a HN (Hs s) Hor ltac:(lia) Hle) as (a' & Hm & Ha'). exists a'.
      rewrite length_take, Nat.min_l by lia. rewrite Hheld. split_and!; [lia|lia|done|].
      intros d [= <-]. split_and!; [done|lia..].
    + rewrite bool_decide_false by done. exists (n - pageSize). rewrite merge_nil, length_take, Nat.min_l by lia.
      split_and!; [lia|lia|done|]. intros d [= <-]. split_and!; [done|lia..].
  - exists a. unfold load. destruct (panelSession (panel w)) as [s|] eqn:E; [|by rewrite E].
    destruct (firstId (held (panel w))); cbn; by rewrite ?E.
  - unfold onSuccess. cbn. destruct (panelSession (panel w)) as [s'|] eqn:E; [|by exists a].
    case_bool_decide as Es; [injection Es as ->|by exists a]. destruct Ha as (Hlen & Hle & Hheld & Hdet).
    specialize (Hcare eq_refl eq_refl). rewrite Hheld in Hcare.
    destruct (index_of_held _ _ _ _ (Hs s) Hcare) as (k & Hk & Hak). exists (Nat.min (k - pageSize) a).
    unfold messagesBefore. rewrite Hk, Hheld.
    pose proof (prepend_rest (take (seen w) (convs w s)) (k - pageSize) a k []) as Hp. rewrite !app_nil_r, take_take in Hp.
    rewrite (Nat.min_l k (seen w)) in Hp by lia. rewrite Hp; [|by apply saved_take|by constructor|lia|lia|rewrite length_take; lia].
    split_and!; [lia|lia|done|]. intros d Hd. destruct (Hdet d Hd) as (? & ? & ?). split_and!; [done|lia..].
Qed.

Lemma panel_reachable_ok w : 0 < pageSize → reachable true w → worldOk w.
Proof.
  intros HN. induction 1 as [cs Hs|w w' _ IH Hstep]; [|by eapply panel_step_ok].
  split; [done|]. exists 0. done.
Qed.
End panel.
Arguments Panel M : clear implicits.
Arguments World M : clear implicits.

(** C25. With earlier pages answered while their message is held, what the panel
    holds is always the conversation from some message on, each message once and
    in order, up to its last answer.  The number it says is hidden is never too small:
    it is how many messages are before those, with the messages saved between that
    answer's page and its count, and so exactly how many when none was. *)
Theorem panel_no_gap `{Identified M} pageSize (w : World M) s :
  0 < pageSize → reachable pageSize true w → panelSession (panel w) = Some s →
  ∃ a, held (panel w) = drop a (take (seen w) (convs w s)) ∧ NoDup (idOf <$> held (panel w)) ∧
       ∀ d, detail (panel w) = Some d →
         seen w ≤ counted w ≤ length (convs w s) ∧
         (hiddenEarlier (Some d) (held (panel w)) = Z.of_nat (a + (counted w - seen w)) ∨ held (panel w) = []).
Proof.
  intros HN Hr Hid. destruct (panel_reachable_ok pageSize w HN Hr) as [Hs [a Ha]].
  unfold holdsFrom in Ha. rewrite Hid in Ha. destruct Ha as (Hlen & Hle & Hheld & Hdet).
  exists a. split_and!; [done| |].
  - rewrite Hheld. pose proof (saved_take (seen w) _ (Hs s)) as [Hd _].
    rewrite <-(take_drop a (take (seen w) (convs w s))), fmap_app in Hd. by apply NoDup_app in Hd as (_ & _ & ?).
  - intros d Hd. destruct (Hdet d Hd) as (-> & Hc & Hap). split; [done|]. destruct (decide (seen w = 0)) as [E|E].
    { right. rewrite Hheld, E. by destruct a. }
    left. rewrite Hheld. set (conv := take (seen w) (convs w s)). assert (length conv = seen w) as Hl by (unfold conv; rewrite length_take; lia).
    pose proof (hidden_rest conv a (length conv - pageSize) (counted w - seen w) []) as Hh.
    rewrite app_nil_r in Hh. rewrite <-Hh; [|by apply saved_take|by constructor|lia|lia].
    unfold sessionDetail. repeat f_equal. rewrite length_drop. lia.
Qed.

#[local] Instance number_identified : Identified Z := λ n, Some (IdNum n).

Definition fiveMessages (s : string) : list Z := if eqs s "A" then [1; 2; 3; 4; 5]%Z else [].

Lemma fiveMessages_saved s : saved (fiveMessages s).
Proof. unfold fiveMessages. destruct (eqs s "A"); split; by_decide. Qed.

(** The panel at conversation A of five messages, pages of two. *)
Definition atA (h : list Z) (r : list (string * ident)) : World Z :=
  {| convs := fiveMessages; seen := 5; counted := 5;
     panel := {| panelSession := Some "A"; detail := Some (sessionDetail 2 [1; 2; 3; 4; 5]%Z 5); held := h; reads := r |} |}.

(** The newest page, then the page above it. *)
Lemma reader_above careful : reachable 2 careful (atA [2; 3; 4; 5]%Z []).
Proof.
  refine (reachable_step 2 careful (atA [4; 5]%Z [("A", IdNum 4)]) _ _ _).
  2: { refine (step_page 2 careful (atA [4; 5]%Z [("A", IdNum 4)]) 0 "A" (IdNum 4) eq_refl _). intros _ _. by_decide. }
  refine (reachable_step 2 careful (atA [4; 5]%Z []) _ _ (step_load 2 careful (atA [4; 5]%Z []))).
  refine (reachable_step 2 careful _ _ (reachable_start 2 careful fiveMessages fiveMessages_saved) _).
  refine (step_answer 2 careful {| convs := fiveMessages; panel := newPanel; seen := 0; counted := 0 |} "A" 5 5 _ _); [split; by_decide|by left].
Qed.

(** A panel whose answer read its page when three messages were saved and counted when
    five were: one message is before, three are said to be. *)
Definition savedBetween : World Z :=
  {| convs := fiveMessages; seen := 3; counted := 5;
     panel := {| panelSession := Some "A"; detail := Some (sessionDetail 2 [1; 2; 3]%Z 5); held := [2; 3]%Z; reads := [] |} |}.

Lemma panel_no_gap_witness :
  hiddenEarlier (detail (panel savedBetween)) (held (panel savedBetween)) = 3%Z ∧
  ∃ a, held (panel savedBetween) = drop a (take 3 [1; 2; 3; 4; 5]%Z) ∧ NoDup (idOf <$> held (panel savedBetween)) ∧
       ∀ d, detail (panel savedBetween) = Some d → 3 ≤ 5 ≤ 5 ∧
       (hiddenEarlier (Some d) (held (panel savedBetween)) = Z.of_nat (a + 2) ∨ held (panel savedBetween) = []).
Proof.
  split; [reflexivity|]. apply (panel_no_gap 2 savedBetween "A"); [lia| |reflexivity].
  refine (reachable_step 2 true _ _ (reachable_start 2 true fiveMessages fiveMessages_saved) _).
  refine (step_answer 2 true {| convs := fiveMessages; panel := newPanel; seen := 0; counted := 0 |} "A" 3 5 _ _); [split; by_decide|by left].
Defined.

(** An answer asked for before the conversation was left, and that comes after
    the reader is back, is not dropped: it is put above the newest page, without
    the messages in between, which no later page can bring. *)
Theorem returned_reader_gap :
  ∃ w : World Z, reachable 2 false w ∧ panelSession (panel w) = Some "A" ∧ convs w "A" = [1; 2; 3; 4; 5]%Z ∧
    held (panel w) = [1; 4; 5]%Z ∧
    (∀ d, detail (panel w) = Some d → hiddenEarlier (Some d) (held (panel w)) = 2%Z) ∧
    reads (load (panel w)) = [("A", IdNum 1)] ∧ messagesBefore 2 (convs w "A") (IdNum 1) = [].
Proof.
  exists (atA [1; 4; 5]%Z []). split; [|split_and!; [done..| |done|done]; intros d [= <-]; reflexivity].
  pose (atB := {| convs := fiveMessages; seen := 0; counted := 0; panel := {| panelSession := Some "B"; detail := None; held := []; reads := [("A", IdNum 2)] |} |}).
  refine (reachable_step 2 false (atA [4; 5]%Z [("A", IdNum 2)]) _ _ _).
  2: { by refine (step_page 2 false (atA [4; 5]%Z [("A", IdNum 2)]) 0 "A" (IdNum 2) eq_refl _). }
  refine (reachable_step 2 false atB _ _ _).
  2: { refine (step_answer 2 false atB "A" 5 5 _ _); [split; by_decide|by left]. }
  refine (reachable_step 2 false (atA [2; 3; 4; 5]%Z [("A", IdNum 2)]) _ _ _).
  2: { by refine (step_select 2 false (atA [2; 3; 4; 5]%Z [("A", IdNum 2)]) "B" _). }
  exact (reachable_step 2 false _ _ (reader_above false) (step_load 2 false (atA [2; 3; 4; 5]%Z []))).
Qed.
