(* ===== verification/ChatScreen.v ===== *)
(** * The messages of the AI chat page

    The hooks of pages/ai-chat: useChatHandlers (asking, stopping, choosing a
    conversation), useChatStreamSync (the answer being written), useStreamEndSync
    (its end) and useSessionDetailSync (what the server has saved).  They share
    the page's state, a [Screen]; each effect is a function on it that takes the
    state of the stream ([ChatStream.ChatStreamState]) or the answer it runs for.

    An effect reads the messages of the commit it runs after, which are also the
    [prev] of its updates.  The list of sessions in the sidebar, the cache and
    what is sent to the server are left out; a delayed refetch is counted. *)

From S2P Require Import Prelude JsString Json ChatText ChatStream Conversation.

Inductive Role := user | assistant.
#[export] Instance Role_eq : EqDecision Role.
Proof. solve_decision. Defined.

Record Message := {
  id : option Z; role : Role; msg_content : text; isTemporary : bool; msg_toolCalls : option (list value);
  msg_phase : option StreamingPhase; usage : value
}.

#[export] Instance message_identified : Identified Message := λ m, IdNum <$> id m.

Definition bubble (r : Role) (c : text) (temporary : bool) (phase : option StreamingPhase) : Message :=
  {| id := None; role := r; msg_content := c; isTemporary := temporary; msg_toolCalls := None; msg_phase := phase; usage := VUndef |}.

Definition withTemporary (b : bool) (m : Message) : Message :=
  {| id := id m; role := role m; msg_content := msg_content m; isTemporary := b; msg_toolCalls := msg_toolCalls m;
     msg_phase := msg_phase m; usage := usage m |}.
Definition withUsage (u : value) (m : Message) : Message :=
  {| id := id m; role := role m; msg_content := msg_content m; isTemporary := isTemporary m; msg_toolCalls := msg_toolCalls m;
     msg_phase := msg_phase m; usage := u |}.

Definition isAssistant (m : Message) : bool := bool_decide (role m = assistant).
Definition hasText (t : text) : bool := match t with [] => false | _ => true end.
Definition hasCalls (m : Message) : bool := match msg_toolCalls m with Some (_ :: _) => true | _ => false end.

(** ** The end of an answer: useStreamEndSync.ts *)

Definition settleMessages (messages : list Message) (errored : bool) : list Message :=
  withTemporary false <$>
    filterb (λ m, negb (errored && isTemporary m && isAssistant m && negb (hasText (msg_content m)) && negb (hasCalls m))) messages.

(** [messages.map((m) => m.role).lastIndexOf('assistant')]; [None] is -1. *)
Fixpoint lastAssistant (messages : list Message) : option nat :=
  match messages with
  | [] => None
  | m :: messages' =>
      match lastAssistant messages' with
      | Some i => Some (S i)
      | None => if isAssistant m then Some 0 else None
      end
  end.

Definition stoppedUsage : value := VObj [("stopped", VBool true)].

Definition markStoppedAnswer (messages : list Message) : list Message :=
  match lastAssistant messages with
  | None => messages
  | Some last =>
      match messages !! last with
      | None => messages
      | Some m =>
          if negb (hasText (msg_content m)) then
            if bool_decide (last = length messages - 1) && negb (hasCalls m) then take last messages else messages
          else alter (withUsage stoppedUsage) last messages
      end
  end.

(** ** The page *)

(** [tries]: the refetches of the final answer asked for so far, and for which
    session. *)
Record Screen := {
  selectedSessionId : option string; viewSessionId : option string; stoppedSessionId : option string;
  lastLoadedSessionId : option string; pendingFinalSyncSessionId : option string;
  shown : list Message; tries : option string * nat; refetches : nat; prevStreamStatus : ChatStreamStatus
}.

Definition withShown (l : list Message) (s : Screen) : Screen :=
  {| selectedSessionId := selectedSessionId s; viewSessionId := viewSessionId s; stoppedSessionId := stoppedSessionId s;
     lastLoadedSessionId := lastLoadedSessionId s; pendingFinalSyncSessionId := pendingFinalSyncSessionId s;
     shown := l; tries := tries s; refetches := refetches s; prevStreamStatus := prevStreamStatus s |}.
Definition withPendingSync (p : option string) (s : Screen) : Screen :=
  {| selectedSessionId := selectedSessionId s; viewSessionId := viewSessionId s; stoppedSessionId := stoppedSessionId s;
     lastLoadedSessionId := lastLoadedSessionId s; pendingFinalSyncSessionId := p;
     shown := shown s; tries := tries s; refetches := refetches s; prevStreamStatus := prevStreamStatus s |}.
Definition withStopped (p : option string) (s : Screen) : Screen :=
  {| selectedSessionId := selectedSessionId s; viewSessionId := viewSessionId s; stoppedSessionId := p;
     lastLoadedSessionId := lastLoadedSessionId s; pendingFinalSyncSessionId := pendingFinalSyncSessionId s;
     shown := shown s; tries := tries s; refetches := refetches s; prevStreamStatus := prevStreamStatus s |}.
Definition withSelected (p : option string) (s : Screen) : Screen :=
  {| selectedSessionId := p; viewSessionId := p; stoppedSessionId := stoppedSessionId s;
     lastLoadedSessionId := lastLoadedSessionId s; pendingFinalSyncSessionId := pendingFinalSyncSessionId s;
     shown := shown s; tries := tries s; refetches := refetches s; prevStreamStatus := prevStreamStatus s |}.
Definition withView (p : option string) (s : Screen) : Screen :=
  {| selectedSessionId := selectedSessionId s; viewSessionId := p; stoppedSessionId := stoppedSessionId s;
     lastLoadedSessionId := lastLoadedSessionId s; pendingFinalSyncSessionId := pendingFinalSyncSessionId s;
     shown := shown s; tries := tries s; refetches := refetches s; prevStreamStatus := prevStreamStatus s |}.
(** The session loaded is the one shown. *)
Definition withLoaded (p : option string) (s : Screen) : Screen :=
  {| selectedSessionId := selectedSessionId s; viewSessionId := p; stoppedSessionId := stoppedSessionId s;
     lastLoadedSessionId := p; pendingFinalSyncSessionId := pendingFinalSyncSessionId s;
     shown := shown s; tries := tries s; refetches := refetches s; prevStreamStatus := prevStreamStatus s |}.
Definition withTries (t : option string * nat) (r : nat) (s : Screen) : Screen :=
  {| selectedSessionId := selectedSessionId s; viewSessionId := viewSessionId s; stoppedSessionId := stoppedSessionId s;
     lastLoadedSessionId := lastLoadedSessionId s; pendingFinalSyncSessionId := pendingFinalSyncSessionId s;
     shown := shown s; tries := t; refetches := r; prevStreamStatus := prevStreamStatus s |}.
Definition withStatus (st : ChatStreamStatus) (s : Screen) : Screen :=
  {| selectedSessionId := selectedSessionId s; viewSessionId := viewSessionId s; stoppedSessionId := stoppedSessionId s;
     lastLoadedSessionId := lastLoadedSessionId s; pendingFinalSyncSessionId := pendingFinalSyncSessionId s;
     shown := shown s; tries := tries s; refetches := refetches s; prevStreamStatus := st |}.

(** ** The answer being written: useChatStreamSync.ts *)

Definition callsOf (st : ChatStreamState) : option (list value) :=
  match toolCalls st with [] => None | l => Some l end.

Definition isTempAssistant (m : Message) : bool := isAssistant m && isTemporary m.

(** The temporary answer with what the stream has of it. *)
Definition withAnswer (st : ChatStreamState) (m : Message) : Message :=
  {| id := id m; role := role m; msg_content := content st; isTemporary := isTemporary m; msg_toolCalls := callsOf st;
     msg_phase := match streamingPhase st with Some p => Some p | None => msg_phase m end; usage := usage m |}.

Definition streamMessages (st : ChatStreamState) (prev : list Message) : list Message :=
  match findIndex isTempAssistant prev with
  | Some i => alter (withAnswer st) i prev
  | None =>
      if negb (bool_decide (status st = streaming)) then prev
      else
        let asked := match userMessage st with
                     | Some q => if negb (some (λ m, negb (isAssistant m)) prev) && hasText q then [bubble user q true None] else []
                     | None => []
                     end in
        let phase := match streamingPhase st with Some p => p | None => waiting end in
        prev ++ asked ++ [withAnswer st (bubble assistant [] true (Some phase))]
  end.

Definition useChatStreamSync (st : ChatStreamState) (s : Screen) : Screen :=
  if bool_decide (status st = idle) then s
  else if bool_decide (sessionId st = None) then s
  else if negb (bool_decide (selectedSessionId s = sessionId st)) then s
  else if negb (bool_decide (viewSessionId s = selectedSessionId s)) then s
  else withShown (streamMessages st (shown s)) s.

(** [errorText]: what the catalog makes of the stream's failure; a failure without
    an error has none. *)
Definition useStreamEndSync (errorText : ChatStreamState → option text) (st : ChatStreamState) (s : Screen) : Screen :=
  let prev := prevStreamStatus s in
  let s := withStatus (status st) s in
  if negb (bool_decide (prev = streaming)) || bool_decide (status st = streaming) then s
  else
    let s := if bool_decide (status st = completed) && bool_decide (sessionId st ≠ None)
             then withPendingSync (sessionId st) s else s in
    let s := withShown (settleMessages (shown s) (bool_decide (status st = error_))) s in
    if bool_decide (status st = error_) && bool_decide (sessionId st ≠ None) && bool_decide (selectedSessionId s = sessionId st)
    then match errorText st with
         | Some t => withShown (shown s ++ [bubble assistant t false None]) s
         | None => s
         end
    else s.

(** ** What the server has saved: useSessionDetailSync.ts *)

Record SavedMessage := { saved_id : Z; saved_role : Role; saved_content : text; tool_calls : value; saved_usage : value }.

Definition dbMessageToMessage (m : SavedMessage) : Message :=
  {| id := Some (saved_id m); role := saved_role m; msg_content := saved_content m; isTemporary := false;
     msg_toolCalls := match tool_calls m with VArr l => Some l | _ => None end; msg_phase := None;
     usage := saved_usage m ?? VNull |}.

Record SessionDetail := { detail_id : string; detail_messages : list SavedMessage }.

(** The delayed refetch of an answer not saved yet, eight times at most. *)
Definition retryFinalSync (pending : string) (s : Screen) : Screen :=
  let t := if bool_decide ((tries s).1 = Some pending) then tries s else (Some pending, 0) in
  if (t.2 <? 8)%nat then withTries (t.1, S t.2) (S (refetches s)) s else withTries t (refetches s) s.

(** The last rule: the same conversation, whose messages stay once one of them is
    not temporary. *)
Definition sameSession (d : SessionDetail) (dbMessages : list Message) (uiHasAssistant : bool) (s : Screen) : Screen :=
  let prev := shown s in
  if uiHasAssistant && (length dbMessages <? length prev)%nat then s
  else if negb (some (λ m, negb (isTemporary m)) prev) then withView (Some (detail_id d)) (withShown dbMessages s)
  else s.

Definition useSessionDetailSync (st : ChatStreamState) (d : SessionDetail) (s : Screen) : Screen :=
  if bool_decide (stoppedSessionId s = Some (detail_id d)) then s else
  let dbMessages := dbMessageToMessage <$> detail_messages d in
  let ui := shown s in
  let uiHasAssistant := some (λ m, isAssistant m && hasText (msg_content m)) ui in
  let dbIsBehind := (length dbMessages <? length ui)%nat in
  let ofThisSession := bool_decide (sessionId st = Some (detail_id d)) in
  let streamRelated := ofThisSession && bool_decide (status st ∈ [streaming; completed; error_]) in
  if negb (bool_decide (lastLoadedSessionId s = Some (detail_id d))) then
    let uiHasTemporary := some isTemporary ui in
    let streamForThisSession := ofThisSession && bool_decide (status st = streaming) in
    if (match dbMessages with [] => true | _ => false end) && (streamForThisSession || uiHasTemporary)
    then withLoaded (Some (detail_id d)) s
    else if streamRelated && uiHasAssistant && dbIsBehind then withLoaded (Some (detail_id d)) s
    else withLoaded (Some (detail_id d)) (withShown dbMessages s)
  else if bool_decide (status st = streaming) && ofThisSession then s
  else if bool_decide (pendingFinalSyncSessionId s = Some (detail_id d)) then
    let merged := mergeNewestPage ui dbMessages in
    if (match last dbMessages with Some m => isAssistant m | None => false end) && (length ui <=? length merged)%nat
    then withPendingSync None (withLoaded (Some (detail_id d)) (withShown merged s))
    else sameSession d dbMessages uiHasAssistant (retryFinalSync (detail_id d) s)
  else sameSession d dbMessages uiHasAssistant s.

(** ** What the user does: useChatHandlers.ts *)

(** The bubbles of a question; [busy]: an answer is being written; [to]: the
    session it is asked in, a temporary one before the first answer of the server. *)
Definition handleSend (busy : bool) (message : text) (to : string) (newSession : bool) (s : Screen) : Screen :=
  if negb (hasText message) || busy then s else
  let s := withPendingSync None (withStopped None s) in
  let s := if newSession then withSelected (Some to) s else withView (Some to) s in
  withShown (shown s ++ [bubble user message true None; bubble assistant [] true (Some waiting)]) s.

(** The session is made: the screen follows unless it has moved on. *)
Definition sessionCreated (optimisticId newId : string) (s : Screen) : Screen :=
  let follow (p : option string) := if bool_decide (p = Some optimisticId) then Some newId else p in
  {| selectedSessionId := follow (selectedSessionId s); viewSessionId := follow (viewSessionId s);
     stoppedSessionId := stoppedSessionId s; lastLoadedSessionId := lastLoadedSessionId s;
     pendingFinalSyncSessionId := pendingFinalSyncSessionId s; shown := shown s; tries := tries s; refetches := refetches s;
     prevStreamStatus := prevStreamStatus s |}.

(** What a question that could not be asked leaves: the temporary bubbles go, the
    error comes. *)
Definition sendFailed (errorAnswer : text) (s : Screen) : Screen :=
  withShown (filterb (λ m, negb (isTemporary m)) (shown s) ++ [bubble assistant errorAnswer false None]) s.

Definition sessionFailed (optimisticId : string) (errorAnswer : text) (s : Screen) : Screen :=
  let leave (p : option string) := if bool_decide (p = Some optimisticId) then None else p in
  sendFailed errorAnswer
    {| selectedSessionId := leave (selectedSessionId s); viewSessionId := leave (viewSessionId s);
       stoppedSessionId := stoppedSessionId s; lastLoadedSessionId := lastLoadedSessionId s;
       pendingFinalSyncSessionId := pendingFinalSyncSessionId s; shown := shown s; tries := tries s; refetches := refetches s;
       prevStreamStatus := prevStreamStatus s |}.

(** The two updates of [handleStop], before and after the manager has stopped. *)
Definition handleStopStart (st : ChatStreamState) (s : Screen) : Screen :=
  match sessionId st with
  | Some session => if isStreaming st then withStopped (Some session) s else s
  | None => s
  end.
Definition handleStopEnd (s : Screen) : Screen := withShown (markStoppedAnswer (withTemporary false <$> shown s)) s.

Definition handleNewChat (s : Screen) : Screen :=
  withShown [] (withPendingSync None (withStopped None (withSelected None s))).

(** Once the user has confirmed. *)
Definition handleDeleteSession (id : string) (s : Screen) : Screen :=
  let s := withPendingSync None (withStopped None s) in
  if bool_decide (selectedSessionId s = Some id) then withShown [] (withSelected None s) else s.

Definition handleSelectSession (id : string) (s : Screen) : Screen :=
  if bool_decide (selectedSessionId s = Some id) then s
  else withShown [] (withPendingSync None (withStopped None (withSelected (Some id) s))).

(** ** A turn *)

(** What happens on the page while an answer is written: a state of the stream, or
    an answer of the server for the conversation. *)
Inductive event := Streamed (st : ChatStreamState) | Saved (st : ChatStreamState) (d : SessionDetail).

Definition happens (e : event) (s : Screen) : Screen :=
  match e with
  | Streamed st => useStreamEndSync (λ _, None) st (useChatStreamSync st s)
  | Saved st d => useSessionDetailSync st d s
  end.

(** The stream writes the answer of [session]. *)
Definition writes (session : string) (st : ChatStreamState) : Prop := status st = streaming ∧ sessionId st = Some session.

Definition during (session : string) (e : event) : Prop :=
  match e with
  | Streamed st => writes session st
  | Saved st d => writes session st ∧ detail_id d = session
  end.

(** The conversation is open, loaded, and its question is being answered. *)
Definition answering (session : string) (base : list Message) (question : text) (s : Screen) : Prop :=
  selectedSessionId s = Some session ∧ viewSessionId s = Some session ∧ lastLoadedSessionId s = Some session ∧
  stoppedSessionId s = None ∧
  ∃ a, isTempAssistant a = true ∧ id a = None ∧ usage a = VUndef ∧ shown s = base ++ [bubble user question true None; a].

Lemma findIndex_base base (l : list Message) :
  Forall (λ m, isTemporary m = false) base → findIndex isTempAssistant (base ++ l) = Nat.add (length base) <$> findIndex isTempAssistant l.
Proof.
  induction 1 as [|m base Hm _ IH]; cbn; [by destruct (findIndex isTempAssistant l)|].
  unfold isTempAssistant at 1. rewrite Hm, andb_false_r, IH. by destruct (findIndex isTempAssistant l).
Qed.

Lemma stream_turn st base question a :
  Forall (λ m, isTemporary m = false) base → isTempAssistant a = true →
  streamMessages st (base ++ [bubble user question true None; a]) = base ++ [bubble user question true None; withAnswer st a].
Proof.
  intros Hb Ha. unfold streamMessages. rewrite findIndex_base by done.
  assert (findIndex isTempAssistant [bubble user question true None; a] = Some 1) as -> by (cbn; by rewrite Ha).
  cbv [fmap option_fmap option_map]. by rewrite alter_app_r.
Qed.

Lemma streamed_sync session base question st s :
  Forall (λ m, isTemporary m = false) base → answering session base question s →
  sessionId st = Some session → status st ≠ idle →
  answering session base question (useChatStreamSync st s) ∧
  ∃ a, isTempAssistant a = true ∧ id a = None ∧ usage a = VUndef ∧
       shown (useChatStreamSync st s) = base ++ [bubble user question true None; withAnswer st a].
Proof.
  intros Hb (Hsel & Hview & Hload & Hstop & a & Ha & Hid & Hu & Hshown) Hst Hidle.
  assert (useChatStreamSync st s = withShown (base ++ [bubble user question true None; withAnswer st a]) s) as ->.
  { unfold useChatStreamSync. rewrite Hst, Hview, Hsel. rewrite !bool_decide_false by done. rewrite !bool_decide_true by done.
    cbn. by rewrite Hshown, stream_turn. }
  split; [|by exists a]. split_and!; try done. by exists (withAnswer st a).
Qed.

Lemma answering_end session base question st s :
  status st = streaming → answering session base question s → answering session base question (useStreamEndSync (λ _, None) st s).
Proof.
  intros Hst Hs. unfold useStreamEndSync. rewrite Hst, (bool_decide_true (streaming = streaming)) by done. rewrite orb_true_r. exact Hs.
Qed.

Lemma answering_happens session base question e s :
  Forall (λ m, isTemporary m = false) base → during session e →
  answering session base question s → answering session base question (happens e s).
Proof.
  intros Hb He Hs. destruct e as [st|st d]; cbn [happens].
  - destruct He as [Hst Hid]. apply answering_end; [done|]. apply streamed_sync; [done..|by rewrite Hst].
  - destruct He as [[Hst Hid] Hd]. destruct Hs as (Hsel & Hview & Hload & Hstop & Ha).
    unfold useSessionDetailSync. rewrite Hstop, Hload, Hd, Hid, Hst. rewrite bool_decide_false by done.
    rewrite !bool_decide_true by done. cbn. by split_and!.
Qed.

(** What a bubble shows, its phase and its usage line apart. *)
Definition face (m : Message) : option Z * Role * text * bool * option (list value) :=
  (id m, role m, msg_content m, isTemporary m, msg_toolCalls m).

(** How the turn's bubbles end: the question and the answer as the stream left it;
    after a failure, an answer with neither text nor tool call is not there, and
    the error comes last. *)
Definition turnFaces (errorText : ChatStreamState → option text) (st : ChatStreamState) (question : text)
    : list (option Z * Role * text * bool * option (list value)) :=
  let failed := bool_decide (status st = error_) in
  [(None, user, question, false, None)] ++
  (if failed && negb (hasText (content st)) && bool_decide (toolCalls st = []) then []
   else [(None, assistant, content st, false, callsOf st)]) ++
  (if failed then match errorText st with Some t => [(None, assistant, t, false, None)] | None => [] end else []).

Lemma settle_base base l errored :
  Forall (λ m, isTemporary m = false) base → settleMessages (base ++ l) errored = base ++ settleMessages l errored.
Proof.
  unfold settleMessages, filterb. induction 1 as [|m base Hm _ IH]; [done|]. cbn. rewrite Hm, andb_false_r. cbn.
  f_equal; [|exact IH]. unfold withTemporary. destruct m; cbn in *. by rewrite Hm.
Qed.

Lemma settle_turn base question st a errored :
  Forall (λ m, isTemporary m = false) base → isTempAssistant a = true → id a = None →
  face <$> settleMessages (base ++ [bubble user question true None; withAnswer st a]) errored =
  (face <$> base) ++ [(None, user, question, false, None)] ++
  (if errored && negb (hasText (content st)) && bool_decide (toolCalls st = []) then []
   else [(None, assistant, content st, false, callsOf st)]).
Proof.
  intros Hb Ha Hid. rewrite settle_base, fmap_app by done. f_equal.
  unfold isTempAssistant in Ha. apply andb_true_iff in Ha as [Hr Ht].
  assert (role a = assistant) as Hrole by by apply bool_decide_eq_true in Hr.
  unfold settleMessages, filterb, withAnswer, hasCalls, callsOf. cbn. rewrite andb_false_r. cbn.
  unfold isAssistant in *. cbn. rewrite Hr, Ht, ?andb_true_r.
  destruct errored; cbn; [|by rewrite Hid, Hrole]. destruct (hasText (content st)); cbn; [by rewrite Hid, Hrole|].
  destruct (toolCalls st) as [|v l]; cbn; [done|by rewrite Hid, Hrole].
Qed.

Lemma run_answering session base question events s :
  Forall (λ m, isTemporary m = false) base → Forall (during session) events →
  answering session base question s → prevStreamStatus s = streaming →
  answering session base question (foldl (λ s e, happens e s) s events) ∧
  prevStreamStatus (foldl (λ s e, happens e s) s events) = streaming.
Proof.
  intros Hb Hev. revert s. induction Hev as [|e events He _ IH]; intros s Hs Hp; [done|]. cbn.
  apply IH; [by apply answering_happens|]. destruct e as [st|st d]; cbn [happens].
  - destruct He as [Hst _]. unfold useStreamEndSync. rewrite Hst, (bool_decide_true (streaming = streaming)) by done.
    by rewrite orb_true_r.
  - destruct He as [[Hst Hid] Hd]. destruct Hs as (_ & _ & Hload & Hstop & _).
    unfold useSessionDetailSync. rewrite Hstop, Hload, Hd, Hid, Hst. rewrite bool_decide_false by done.
    by rewrite !bool_decide_true by done.
Qed.

(** C19. While a question is answered in a conversation the page shows and has loaded,
    however the states of its stream and the answers of the server for it come, the turn
    ends on screen as the stream ended: the messages before it untouched, the question, the answer
    with all its text and tool calls, and a failure's error under them; no bubble
    stays temporary, and a complete answer is marked to be read back. *)
Theorem turn_on_screen errorText session base question events st s :
  Forall (λ m, isTemporary m = false) base →
  answering session base question s → prevStreamStatus s = streaming →
  Forall (during session) events →
  sessionId st = Some session → status st ∈ [completed; error_; aborted] →
  face <$> shown (useStreamEndSync errorText st (useChatStreamSync st (foldl (λ s e, happens e s) s events))) =
    (face <$> base) ++ turnFaces errorText st question ∧
  (status st = completed →
   pendingFinalSyncSessionId (useStreamEndSync errorText st (useChatStreamSync st (foldl (λ s e, happens e s) s events))) = Some session).
Proof.
  intros Hb Hs Hp Hev Hid Hst. destruct (run_answering _ _ _ _ _ Hb Hev Hs Hp) as [Hs' Hp'].
  remember (foldl _ s events) as s1. clear Heqs1 Hev.
  assert (status st ≠ idle ∧ status st ≠ streaming) as [Hidle Hnot]
    by (split; intros E; rewrite E in Hst; revert Hst; by_decide).
  destruct (streamed_sync _ _ _ st s1 Hb Hs' Hid Hidle) as [(Hsel & _) (a & Ha & Hida & _ & Hshown)].
  assert (prevStreamStatus (useChatStreamSync st s1) = streaming) as Hp2.
  { unfold useChatStreamSync. repeat case_bool_decide; cbn; done. }
  remember (useChatStreamSync st s1) as s2. clear Heqs2. unfold useStreamEndSync.
  rewrite Hp2, (bool_decide_true (streaming = streaming)), (bool_decide_false (status st = streaming)) by done. cbn [negb orb].
  rewrite Hid, (bool_decide_true (Some session ≠ None)) by done.
  pose proof (settle_turn base question st a) as Hturn. unfold turnFaces. split.
  - destruct (bool_decide (status st = completed)) eqn:Ec; cbn [andb].
    + apply bool_decide_eq_true in Ec. rewrite Ec, (bool_decide_false (completed = error_)) by done.
      cbn [andb shown withShown withPendingSync withStatus]. rewrite Hshown, Hturn by done. reflexivity.
    + cbn [withShown withStatus shown selectedSessionId]. rewrite Hsel, (bool_decide_true (Some session = Some session)), !andb_true_r by done.
      destruct (bool_decide (status st = error_)); cbn [andb].
      * destruct (errorText st); cbn [shown withShown]; rewrite ?fmap_app, Hshown, Hturn by done; [by rewrite <-!app_assoc|].
        by rewrite app_nil_r.
      * cbn [shown withShown]. rewrite Hshown, Hturn by done. by rewrite app_nil_r.
  - intros Hc. rewrite Hc. by rewrite (bool_decide_false (completed = error_)) by done.
Qed.

(** A question answered with a tool call, an answer of the server in between, and
    its end. *)
Definition streamed (st : ChatStreamStatus) (c : string) (calls : list value) : ChatStreamState :=
  {| status := st; isStreaming := bool_decide (st = streaming); sessionId := Some "s1"; userMessage := Some (utf16 "Why?");
     content := utf16 c; toolCalls := calls; streamingPhase := Some answer; failure := noFailure; savedBefore := 0; failedTurns := [] |}.

Definition asked : Screen :=
  {| selectedSessionId := Some "s1"; viewSessionId := Some "s1"; stoppedSessionId := None; lastLoadedSessionId := Some "s1";
     pendingFinalSyncSessionId := None;
     shown := [bubble user (utf16 "Why?") true None; bubble assistant [] true (Some waiting)];
     tries := (None, 0); refetches := 0; prevStreamStatus := streaming |}.

Lemma turn_on_screen_witness :
  face <$> shown (useStreamEndSync (λ _, None) (streamed completed "Because" [VStr "get_pods"])
    (useChatStreamSync (streamed completed "Because" [VStr "get_pods"])
      (foldl (λ s e, happens e s) asked
        [Streamed (streamed streaming "Be" []); Saved (streamed streaming "Be" []) {| detail_id := "s1"; detail_messages := [] |}]))) =
    (face <$> []) ++ turnFaces (λ _, None) (streamed completed "Because" [VStr "get_pods"]) (utf16 "Why?").
Proof.
  apply (turn_on_screen (λ _, None) "s1" [] (utf16 "Why?")
    [Streamed (streamed streaming "Be" []); Saved (streamed streaming "Be" []) {| detail_id := "s1"; detail_messages := [] |}]
    (streamed completed "Because" [VStr "get_pods"]) asked).
  - constructor.
  - split_and!; try reflexivity. exists (bubble assistant [] true (Some waiting)). split_and!; reflexivity.
  - reflexivity.
  - repeat constructor.
  - reflexivity.
  - by_decide.
Defined.

(** A conversation must have been loaded for that.  A question asked in one that was
    selected and not read yet is taken off the screen by the answer of that read, which
    was made before the question was saved, and the states of the stream after it bring
    the answer back but not the question. *)
Theorem unloaded_question_lost session question d st s :
  selectedSessionId s = Some session → lastLoadedSessionId s ≠ Some session → stoppedSessionId s = None →
  shown s = [bubble user question true None; bubble assistant [] true (Some waiting)] →
  detail_id d = session → Exists (λ m, saved_role m = user) (detail_messages d) → writes session st →
  ∃ a, isTempAssistant a = true ∧ shown (happens (Streamed st) (happens (Saved st d) s)) = (dbMessageToMessage <$> detail_messages d) ++ [a].
Proof.
  intros Hsel Hload Hstop Hshown Hd Hex [Hst Hid]. set (db := dbMessageToMessage <$> detail_messages d).
  assert (Forall (λ m, isTemporary m = false) db) as Hdb by (apply Forall_fmap, Forall_forall; intros m _; done).
  assert (some (λ m, negb (isAssistant m)) db = true) as Huser.
  { apply some_true. apply Exists_exists in Hex as (m & Hm & Hr). exists (dbMessageToMessage m). split; [by apply list_elem_of_fmap_2|].
    unfold isAssistant. cbn. rewrite Hr. done. }
  assert (happens (Saved st d) s = withLoaded (Some session) (withShown db s)) as ->.
  { cbn [happens]. unfold useSessionDetailSync. rewrite Hstop, Hd, Hshown, bool_decide_false, (bool_decide_false (lastLoadedSessionId s = _)) by done.
    cbn [negb]. fold db. assert (some (λ m, isAssistant m && hasText (msg_content m)) [bubble user question true None; bubble assistant [] true (Some waiting)] = false) as -> by reflexivity.
    clearbody db. destruct db; [discriminate Huser|]. by rewrite andb_false_r. }
  cbn [happens]. unfold useStreamEndSync, useChatStreamSync. rewrite Hst, Hid. cbn [withLoaded withShown selectedSessionId viewSessionId shown].
  rewrite Hsel, (bool_decide_false (streaming = idle)), (bool_decide_false (Some session = None)), (bool_decide_true (Some session = Some session)) by done. cbn [negb].
  rewrite (bool_decide_true (streaming = streaming)), orb_true_r by done. cbn [shown withStatus withShown].
  unfold streamMessages. assert (findIndex isTempAssistant db = None) as ->.
  { apply findIndex_None. eapply Forall_impl; [exact Hdb|]. intros m Hm. unfold isTempAssistant. by rewrite Hm, andb_false_r. }
  rewrite Hst, (bool_decide_true (streaming = streaming)) by done. cbn [negb]. rewrite Huser. cbn [negb andb].
  eexists. split; [|destruct (userMessage st); reflexivity]. done.
Qed.

Definition savedTurn : list SavedMessage :=
  [{| saved_id := 1; saved_role := user; saved_content := utf16 "Before?"; tool_calls := VUndef; saved_usage := VUndef |};
   {| saved_id := 2; saved_role := assistant; saved_content := utf16 "That"; tool_calls := VUndef; saved_usage := VUndef |}].

Definition selectedAndAsked : Screen :=
  handleSend false (utf16 "Why?") "s1" false (handleSelectSession "s1" (handleNewChat (withLoaded (Some "s0") asked))).

Lemma unloaded_question_lost_witness :
  let s := selectedAndAsked in
  let st := streamed streaming "Be" [] in
  ∃ a, isTempAssistant a = true ∧
    shown (happens (Streamed st) (happens (Saved st {| detail_id := "s1"; detail_messages := savedTurn |}) s)) = (dbMessageToMessage <$> savedTurn) ++ [a].
Proof.
  intros s st. apply (unloaded_question_lost "s1" (utf16 "Why?") {| detail_id := "s1"; detail_messages := savedTurn |} st s); [by vm_compute|by vm_compute|done|by vm_compute|done| |done].
  by apply Exists_cons_hd.
Defined.

(** ** Answers of the server *)

(** An answer of the server for the conversation on screen takes nothing the
    reader has seen: it leaves the messages alone, or shows at least as many, or
    there was nothing yet but bubbles without an answer's text; while that
    conversation's answer is being written it always leaves them alone. *)
Theorem answer_never_shortens st d s :
  lastLoadedSessionId s = Some (detail_id d) →
  (shown (useSessionDetailSync st d s) = shown s ∨
   length (shown s) ≤ length (shown (useSessionDetailSync st d s)) ∨
   Forall (λ m, isTemporary m = true ∧ (isAssistant m && hasText (msg_content m) = false)) (shown s)) ∧
  (writes (detail_id d) st → shown (useSessionDetailSync st d s) = shown s).
Proof.
  intros Hload. split.
  2: { intros [Hst Hid]. unfold useSessionDetailSync. rewrite Hload, Hst, Hid. case_bool_decide; [done|].
       by rewrite !bool_decide_true by done. }
  assert (∀ s1, shown s1 = shown s →
    let db := dbMessageToMessage <$> detail_messages d in
    let ui := some (λ m, isAssistant m && hasText (msg_content m)) (shown s) in
    shown (sameSession d db ui s1) = shown s ∨ length (shown s) ≤ length (shown (sameSession d db ui s1)) ∨
    Forall (λ m, isTemporary m = true ∧ (isAssistant m && hasText (msg_content m) = false)) (shown s)) as Hsame.
  { intros s1 Hs1 db ui. unfold sameSession. rewrite Hs1. destruct (ui && _) eqn:E; [by left|].
    destruct (some (λ m, negb (isTemporary m)) (shown s)) eqn:Et; [by left|]. cbn [negb shown withView withShown]. right.
    apply andb_false_iff in E as [E|E].
    - right. apply Forall_forall. intros m Hm. split.
      + destruct (isTemporary m) eqn:Em; [done|]. assert (some (λ m, negb (isTemporary m)) (shown s) = true) as Hc; [|congruence].
        apply some_true. exists m. by rewrite Em.
      + destruct (isAssistant m && hasText (msg_content m)) eqn:Em; [|done]. assert (ui = true) as Hc; [|congruence].
        apply some_true. by exists m.
    - left. apply Nat.ltb_ge in E. exact E. }
  unfold useSessionDetailSync. case_bool_decide; [by left|]. rewrite Hload, bool_decide_true by done. cbn [negb].
  destruct (bool_decide (status st = streaming) && _); [by left|]. case_bool_decide; [|by apply Hsame].
  destruct ((match last _ with Some m => isAssistant m | None => false end) && _) eqn:E.
  - apply andb_true_iff in E as [_ E]. apply Nat.leb_le in E. right. left. exact E.
  - apply Hsame. unfold retryFinalSync. by destruct (_ <? 8)%nat.
Qed.

(** The saved turn is one message short: the screen stays. *)
Lemma answer_never_shortens_witness :
  shown (useSessionDetailSync (streamed streaming "Be" []) {| detail_id := "s1"; detail_messages := [] |} asked) = shown asked.
Proof.
  apply (answer_never_shortens (streamed streaming "Be" []) {| detail_id := "s1"; detail_messages := [] |} asked eq_refl). by split.
Defined.

(** ** The reads of the final answer *)

Definition triesFor (session : string) (s : Screen) : nat := if bool_decide ((tries s).1 = Some session) then (tries s).2 else 0.

(** What is left of the eight. *)
Definition readsLeft (session : string) (s : Screen) : nat := refetches s + (8 - triesFor session s).

Lemma retry_left session s : readsLeft session (retryFinalSync session s) ≤ readsLeft session s.
Proof.
  unfold retryFinalSync. set (t := if bool_decide _ then tries s else _).
  assert (t.2 = triesFor session s ∧ t.1 = Some session) as [Ht1 Ht2].
  { unfold t, triesFor. case_bool_decide; done. }
  destruct (Nat.ltb_spec t.2 8); unfold readsLeft, triesFor at 1; cbn [tries refetches withTries fst snd].
  - rewrite bool_decide_true by done. lia.
  - rewrite bool_decide_true by done. lia.
Qed.

Lemma sync_left session st d s :
  detail_id d = session → readsLeft session (useSessionDetailSync st d s) ≤ readsLeft session s.
Proof.
  intros Hd. assert (∀ db ui s, readsLeft session (sameSession d db ui s) = readsLeft session s) as Hsame.
  { intros db ui s1. unfold sameSession. destruct (ui && _); [done|]. by destruct (negb _). }
  unfold useSessionDetailSync. case_bool_decide; [done|]. destruct (negb _).
  - repeat (match goal with |- context [if ?b then _ else _] => destruct b end); done.
  - destruct (bool_decide (status st = streaming) && _); [done|]. case_bool_decide; [|by rewrite Hsame].
    destruct ((match last _ with Some m => isAssistant m | None => false end) && _); [done|].
    rewrite Hsame, Hd. apply retry_left.
Qed.

(** An answer of the server, or the end of a turn of the conversation. *)
Definition readEvent (session : string) (a : option (ChatStreamState * SessionDetail)) (s : Screen) : Screen :=
  match a with
  | Some (st, d) => useSessionDetailSync st d s
  | None => withPendingSync (Some session) s
  end.

(** The page stops asking for an answer that is never saved: however many answers
    of a conversation come, and whatever turns of it end, they lead to eight more
    reads at most.  The eight are shared by those turns: no turn of the same
    conversation starts over. *)
Theorem final_reads_bounded session (answers : list (option (ChatStreamState * SessionDetail))) s :
  Forall (λ a, match a with Some (_, d) => detail_id d = session | None => True end) answers →
  refetches (foldl (λ s a, readEvent session a s) s answers) ≤ refetches s + 8.
Proof.
  intros Ha. assert (readsLeft session (foldl (λ s a, readEvent session a s) s answers) ≤ readsLeft session s) as H.
  { revert s. induction Ha as [|[[st d]|] answers Hd _ IH]; intros s; cbn; [done| |].
    - etrans; [apply IH|]. by apply sync_left.
    - etrans; [apply IH|]. done. }
  unfold readsLeft in H. lia.
Qed.

(** Six answers without the final message in one turn, and six in the next. *)
Lemma final_reads_bounded_witness :
  refetches (foldl (λ s a, readEvent "s1" a s) asked
    (None :: replicate 6 (Some (streamed completed "Because" [], {| detail_id := "s1"; detail_messages := [] |})) ++
     None :: replicate 6 (Some (streamed completed "Because" [], {| detail_id := "s1"; detail_messages := [] |})))) ≤ 0 + 8.
Proof. apply (final_reads_bounded "s1" _ asked). repeat constructor. Defined.
