(* ===== verification/Rbac.v ===== *)
(** * The permissions of a pod's service account

    pages/cluster-view/rbacUtils.ts: the tab lists what the roles bound to the
    account grant, one row per resource (or URL) with all its verbs.  The server's
    answer is a JSON value in which verbs, API groups and names are arrays of
    strings, and the two lists of bindings are arrays or absent.

    [localeCompare] is the browser's collation. *)

From stdpp Require Import sorting.
From S2P Require Import Prelude JsString OrderedMap Json ObjectRows.

(** ** Bindings *)

Definition isAuthenticatedOnlyGrant (binding : value) : bool :=
  match binding .@ "matched_by" with
  | VArr ((_ :: _) as l) => every (λ m, isStr (m .@ "reason") "group:system:authenticated") l
  | _ => truthy (binding .@ "is_broad")
  end.

Record RbacBindingList := { read : bool; error : value; all : list value; normal : list value; broad : list value }.

Definition rbacBindingList (rbac : value) (key : string) : RbacBindingList :=
  let rows := rbac .@ key in
  let all := asArray rows in
  {| read := isArray rows; error := rbac .@ (key +:+ "_error") |? VStr ""; all := all;
     normal := filterb (λ b, negb (isAuthenticatedOnlyGrant b)) all; broad := filterb isAuthenticatedOnlyGrant all |}.

(** ** Items *)

(** What a row is about; no names stands for [undefined], every object. *)
Inductive Target := Resource (apiGroup resource : string) (resourceNames : list string) | Url (nonResourceURL : string).

#[export] Instance Target_eq : EqDecision Target.
Proof. solve_decision. Defined.

(** [verbs] is a Set: each verb once, in the order they came. *)
Record Item := { target : Target; verbs : list string }.

Record Accumulated := { items : list Item; resourceIndex : gmap string nat; nonResourceIndex : gmap string nat }.

(** The strings of an array. *)
Definition textsOf (v : value) : list string := omap (λ x, match x with VStr s => Some s | _ => None end) (asArray v).

(** [for (const v of verbs) set.add(v)]. *)
Definition addVerbs (set new : list string) : list string := foldl (λ set v, setAdd v set) set new.

Definition moreVerbs (new : list string) (i : Item) : Item := {| target := target i; verbs := addVerbs (verbs i) new |}.

Definition sorted (names : list string) : list string := CRDs.sortTexts names.

Definition resourceKey (apiGroup resource : string) (names : list string) : string :=
  apiGroup +:+ "::" +:+ resource +:+ "::" +:+ join "," (sorted names).

Definition addResource (apiGroup resource : string) (names new : list string) (acc : Accumulated) : Accumulated :=
  let key := resourceKey apiGroup resource names in
  match resourceIndex acc !! key with
  | Some i => {| items := alter (moreVerbs new) i (items acc); resourceIndex := resourceIndex acc; nonResourceIndex := nonResourceIndex acc |}
  | None =>
      {| items := items acc ++ [{| target := Resource apiGroup resource (sorted names); verbs := addVerbs [] new |}];
         resourceIndex := <[key := length (items acc)]> (resourceIndex acc); nonResourceIndex := nonResourceIndex acc |}
  end.

Definition addNonResource (url : string) (new : list string) (acc : Accumulated) : Accumulated :=
  match nonResourceIndex acc !! url with
  | Some i => {| items := alter (moreVerbs new) i (items acc); resourceIndex := resourceIndex acc; nonResourceIndex := nonResourceIndex acc |}
  | None =>
      {| items := items acc ++ [{| target := Url url; verbs := addVerbs [] new |}]; resourceIndex := resourceIndex acc;
         nonResourceIndex := <[url := length (items acc)]> (nonResourceIndex acc) |}
  end.

(** ** Rules *)

Definition nonBlank (s : string) : bool := nonempty (trim s).

(** A rule with URLs is about them only; one without API groups is about the core
    group. *)
Definition addRule (acc : Accumulated) (rule : value) : Accumulated :=
  let new := textsOf (rule .@ "verbs") in
  match asArray (rule .@ "non_resource_urls") with
  | _ :: _ => foldl (λ acc url, addNonResource url new acc) acc (filterb nonBlank (textsOf (rule .@ "non_resource_urls")))
  | [] =>
      let apiGroups := match asArray (rule .@ "api_groups") with [] => [""] | _ => textsOf (rule .@ "api_groups") end in
      let resources := filterb nonBlank (textsOf (rule .@ "resources")) in
      let names := textsOf (rule .@ "resource_names") in
      foldl (λ acc ag, let apiGroup := if eqs ag "" then "(core)" else ag in
                       foldl (λ acc res, addResource apiGroup res names new acc) acc resources) acc apiGroups
  end.

Definition bindingsOf (rbac : value) : list value :=
  asArray (rbac .@ "role_bindings") ++ asArray (rbac .@ "cluster_role_bindings").

Definition addBinding (acc : Accumulated) (b : value) : Accumulated :=
  foldl addRule acc (asArray (b .@ "resolved_role" .@ "rules")).

Definition accumulate (rbac : value) : list Item :=
  items (foldl addBinding {| items := []; resourceIndex := ∅; nonResourceIndex := ∅ |} (bindingsOf rbac)).

(** ** The table *)

Section table.
Context (localeCompare : string → string → Z).

Definition isResource (i : Item) : bool := match target i with Resource _ _ _ => true | Url _ => false end.

Definition compareResource (a b : Item) : Z :=
  match target a, target b with
  | Resource ga ra na, Resource gb rb nb =>
      let ag := localeCompare ga gb in
      if negb (ag =? 0)%Z then ag else
      let r := localeCompare ra rb in
      if negb (r =? 0)%Z then r else localeCompare (join "," na) (join "," nb)
  | _, _ => 0
  end.

Definition compareUrl (a b : Item) : Z :=
  match target a, target b with Url u, Url v => localeCompare u v | _, _ => 0 end.

(** [verbsList]. *)
Definition withVerbsList (i : Item) : Item := {| target := target i; verbs := CRDs.sortTexts (verbs i) |}.

Record RbacPermissionSummary := { resourceItems : list Item; nonResourceItems : list Item; incomplete : bool }.

Definition buildRbacPermissionSummary (rbac : value) : RbacPermissionSummary :=
  let items := accumulate rbac in
  {| resourceItems := sortBy compareResource (withVerbsList <$> filterb isResource items);
     nonResourceItems := sortBy compareUrl (withVerbsList <$> filterb (λ i, negb (isResource i)) items);
     incomplete := negb (read (rbacBindingList rbac "role_bindings")) || negb (read (rbacBindingList rbac "cluster_role_bindings"))
                   || some (λ b, truthy (b .@ "resolved_role" .@ "error")) (bindingsOf rbac) |}.
End table.

(** A rule's API groups as the tab writes them. *)
Definition rbacApiGroupsText (groups : value) : string :=
  let s := join ", " ((λ g, if eqs g "" then "(core)" else g) <$> textsOf groups) in
  if nonempty s then s else "(core)".

(** The rows for the floating chat. *)
Definition permissionRows (s : RbacPermissionSummary) : list string :=
  ((λ i, match target i with
         | Resource g r names => g +:+ "|" +:+ r +:+ "|" +:+ join "," names +:+ "|" +:+ join "," (verbs i)
         | Url _ => ""
         end) <$> resourceItems s) ++
  ((λ i, match target i with Url u => u +:+ "|" +:+ join "," (verbs i) | Resource _ _ _ => "" end) <$> nonResourceItems s).

(** ** What the rules grant *)

(** What a rule is about, its names sorted. *)
Definition targetsOf (rule : value) : list Target :=
  match asArray (rule .@ "non_resource_urls") with
  | _ :: _ => Url <$> filterb nonBlank (textsOf (rule .@ "non_resource_urls"))
  | [] =>
      let apiGroups := match asArray (rule .@ "api_groups") with [] => [""] | _ => textsOf (rule .@ "api_groups") end in
      let resources := filterb nonBlank (textsOf (rule .@ "resources")) in
      apiGroups ≫= λ ag, (λ res, Resource (if eqs ag "" then "(core)" else ag) res (sorted (textsOf (rule .@ "resource_names")))) <$> resources
  end.

Definition rulesOf (rbac : value) : list value :=
  bindingsOf rbac ≫= λ b, asArray (b .@ "resolved_role" .@ "rules").

(** What Kubernetes allows: API groups and resources without a colon, names
    neither empty nor with a comma. *)
Definition plainTarget (t : Target) : Prop :=
  match t with
  | Resource g r names => free_of ":" g ∧ free_of ":" r ∧ Forall (λ n, n ≠ "" ∧ free_of "," n) names
  | Url _ => True
  end.

Definition targetKey (t : Target) : string + string :=
  match t with
  | Resource g r names => inl (g +:+ "::" +:+ r +:+ "::" +:+ join "," names)
  | Url u => inr u
  end.

Lemma join_inj l k :
  Forall (λ n, n ≠ "" ∧ free_of "," n) l → Forall (λ n, n ≠ "" ∧ free_of "," n) k → join "," l = join "," k → l = k.
Proof.
  assert (∀ l, Forall (λ n, n ≠ "" ∧ free_of "," n) l → l ≠ [] → split "," (join "," l) = l ∧ join "," l ≠ "") as Hs.
  { intros m Hm Hne. rewrite split_join; [|done|by eapply Forall_impl; [apply Hm|intros ? []]]. split; [done|].
    destruct m as [|x [|y m]]; [done|..]; apply Forall_cons in Hm as [[Hx _] _]; cbn; [done|]. by destruct x. }
  intros Hl Hk E. destruct l as [|x l], k as [|y k]; [done|..].
  - by destruct (Hs _ Hk) as [_ []].
  - by destruct (Hs _ Hl) as [_ []].
  - destruct (Hs _ Hl) as [<- _]; [done|]. destruct (Hs _ Hk) as [E' _]; [done|]. by rewrite E, E'.
Qed.

Lemma colon_inj g g' s s' : free_of ":" g → free_of ":" g' → g +:+ "::" +:+ s = g' +:+ "::" +:+ s' → g = g' ∧ s = s'.
Proof.
  revert g'. induction g as [|c g IH]; intros [|c' g'] Hg Hg' E; rewrite ?app_nil_l_s, ?app_cons_s in E.
  - injection E as E. by rewrite !app_nil_l_s in E.
  - apply free_of_cons in Hg' as []. injection E. congruence.
  - apply free_of_cons in Hg as []. injection E. congruence.
  - apply free_of_cons in Hg as [_ Hg], Hg' as [_ Hg']. injection E as -> E. by destruct (IH _ Hg Hg' E) as [-> ->].
Qed.

Lemma targetKey_inj t t' : plainTarget t → plainTarget t' → targetKey t = targetKey t' → t = t'.
Proof.
  destruct t as [g r ns|u], t' as [g' r' ns'|u']; cbn [targetKey plainTarget]; try congruence.
  intros (Hg & Hr & Hn) (Hg' & Hr' & Hn') [=E].
  apply colon_inj in E as [-> E]; [|done..]. apply colon_inj in E as [-> E]; [|done..].
  by rewrite (join_inj ns ns').
Qed.

(** ** Accumulating *)

Definition indexed (acc : Accumulated) (k : string + string) : option nat :=
  match k with inl k => resourceIndex acc !! k | inr k => nonResourceIndex acc !! k end.

(** The items' targets are plain, and each is where its key says. *)
Definition Inv (acc : Accumulated) : Prop :=
  (∀ i, i ∈ items acc → plainTarget (target i)) ∧
  (∀ k i, indexed acc k = Some i ↔ ∃ it, items acc !! i = Some it ∧ targetKey (target it) = k).

(** [addResource] or [addNonResource]. *)
Definition addTarget (new : list string) (acc : Accumulated) (t : Target) : Accumulated :=
  let k := targetKey t in
  match indexed acc k with
  | Some i => {| items := alter (moreVerbs new) i (items acc); resourceIndex := resourceIndex acc; nonResourceIndex := nonResourceIndex acc |}
  | None =>
      {| items := items acc ++ [{| target := t; verbs := addVerbs [] new |}];
         resourceIndex := match k with inl k => <[k := length (items acc)]> (resourceIndex acc) | inr _ => resourceIndex acc end;
         nonResourceIndex := match k with inr k => <[k := length (items acc)]> (nonResourceIndex acc) | inl _ => nonResourceIndex acc end |}
  end.

Lemma addRule_targets acc rule : addRule acc rule = foldl (addTarget (textsOf (rule .@ "verbs"))) acc (targetsOf rule).
Proof.
  unfold addRule, targetsOf. destruct (asArray (rule .@ "non_resource_urls")).
  - set (ags := match asArray (rule .@ "api_groups") with [] => _ | _ => _ end). clearbody ags.
    revert acc. induction ags as [|ag ags IH]; intros acc; [done|]. cbn [foldl mbind list_bind].
    rewrite foldl_app, <-IH. f_equal. by rewrite foldl_fmap.
  - by rewrite foldl_fmap.
Qed.

(** [t] is a row with verb [v]. *)
Definition listed (l : list Item) (t : Target) (v : string) : Prop := ∃ it, it ∈ l ∧ target it = t ∧ v ∈ verbs it.

Lemma elem_of_addVerbs new set v : v ∈ addVerbs set new ↔ v ∈ set ∨ v ∈ new.
Proof.
  revert set. induction new as [|w new IH]; intros set; cbn [addVerbs foldl]; [set_solver|].
  unfold addVerbs in IH. rewrite IH, elem_setAdd. set_solver.
Qed.

Lemma Inv_indexed acc t : Inv acc → plainTarget t → ∀ i, indexed acc (targetKey t) = Some i ↔ ∃ it, items acc !! i = Some it ∧ target it = t.
Proof.
  intros [Hp Hk] Ht i. rewrite Hk. split; intros (it & Hi & E); exists it; (split; [done|]); [|by rewrite E].
  apply targetKey_inj; [|done..]. by apply Hp, list_elem_of_lookup_2 in Hi || (eapply Hp, list_elem_of_lookup_2; done).
Qed.

Lemma addTarget_Inv new acc t : plainTarget t → Inv acc → Inv (addTarget new acc t).
Proof.
  intros Ht HI. pose proof (Inv_indexed _ _ HI Ht) as Hi. destruct HI as [Hp Hk]. unfold addTarget.
  destruct (indexed acc (targetKey t)) as [n|] eqn:E; split; cbn [items].
  - intros it (m & Hm)%list_elem_of_lookup. rewrite list_lookup_alter in Hm. case_decide.
    + apply fmap_Some in Hm as (it' & Hm & ->). by eapply (Hp it'), list_elem_of_lookup_2.
    + by eapply Hp, list_elem_of_lookup_2.
  - intros k i. change (indexed _ k) with (indexed acc k) at 1. rewrite Hk, list_lookup_alter. case_decide; [subst|done].
    split; intros (it & Hit & <-).
    + rewrite Hit. by eexists.
    + apply fmap_Some in Hit as (it' & Hm & ->). by exists it'.
  - intros it [| ->%list_elem_of_singleton]%elem_of_app; [by apply Hp|done].
  - intros k i. trans (if decide (k = targetKey t) then length (items acc) = i else indexed acc k = Some i).
    { destruct k as [k|k], (targetKey t) as [k'|k'] eqn:Ek; cbn [indexed resourceIndex nonResourceIndex]; case_decide; simplify_eq;
      rewrite ?lookup_insert_eq, ?lookup_insert_ne by congruence; try done; split; congruence. }
    case_decide as Hd.
    + subst k. split; [intros <-|].
      * eexists. split; [by apply list_lookup_middle|done].
      * intros (it & Hit & Ek). apply lookup_app_Some in Hit as [Hit|[Hl [Hj <-]%list_lookup_singleton_Some]]; [|lia].
        assert (indexed acc (targetKey t) = Some i) by (apply Hk; eauto). congruence.
    + rewrite Hk. split; intros (it & Hit & <-); exists it; (split; [|done]).
      * by apply lookup_app_l_Some.
      * apply lookup_app_Some in Hit as [|[_ [_ <-]%list_lookup_singleton_Some]]; [done|]. by destruct Hd.
Qed.

Lemma elem_of_alter {A} (f : A → A) (n : nat) (l : list A) y : y ∈ alter f n l ↔ ∃ (i : nat) x, l !! i = Some x ∧ y = if decide (n = i) then f x else x.
Proof.
  rewrite list_elem_of_lookup. setoid_rewrite list_lookup_alter. split.
  - intros (i & Hi). exists i. destruct (decide (n = i)); [|by exists y]. apply fmap_Some in Hi as (x & Hx & ->). exists x. by subst.
  - intros (i & x & Hi & ->). exists i. destruct (decide (n = i)); [|done]. subst. by rewrite Hi.
Qed.

Lemma addTarget_listed new acc t t' v :
  plainTarget t → Inv acc → listed (items (addTarget new acc t)) t' v ↔ listed (items acc) t' v ∨ t = t' ∧ v ∈ new.
Proof.
  intros Ht HI. pose proof (Inv_indexed _ _ HI Ht) as Hi. unfold addTarget, listed.
  destruct (indexed acc (targetKey t)) as [n|] eqn:E; cbn [items].
  - destruct (proj1 (Hi n) eq_refl) as (it & Hn & <-). setoid_rewrite elem_of_alter. split.
    + intros (x & (i & y & Hy & ->) & <- & Hv). case_decide.
      * subst. simplify_eq. cbn in Hv. apply elem_of_addVerbs in Hv as [|]; [left|by right]. exists it. split_and!; try done.
        by eapply list_elem_of_lookup_2.
      * left. exists y. split_and!; try done. by eapply list_elem_of_lookup_2.
    + intros [(x & (i & Hx)%list_elem_of_lookup & <- & Hv)|[<- Hv]].
      * exists (if decide (n = i) then moreVerbs new x else x). split; [by exists i, x|]. case_decide; [|done].
        split; [done|]. apply elem_of_addVerbs. by left.
      * exists (moreVerbs new it). split; [exists n, it; by rewrite decide_True|]. split; [done|]. apply elem_of_addVerbs. by right.
  - setoid_rewrite elem_of_app. setoid_rewrite list_elem_of_singleton. split.
    + intros (x & [Hx| ->] & <- & Hv); [left; by exists x|]. apply elem_of_addVerbs in Hv as [[]%elem_of_nil|]. by right.
    + intros [(x & Hx & <- & Hv)|[<- Hv]]; [exists x; auto|]. eexists. split; [by right|]. split; [done|].
      apply elem_of_addVerbs. by right.
Qed.

Lemma Inv_once acc : Inv acc → NoDup (target <$> items acc).
Proof.
  intros [Hp Hk]. apply NoDup_alt. intros i j t. rewrite !list_lookup_fmap.
  intros (x & Hx & ->)%fmap_Some (y & Hy & E)%fmap_Some.
  assert (indexed acc (targetKey (target x)) = Some i) as Hi by (apply Hk; eauto).
  assert (indexed acc (targetKey (target x)) = Some j) as Hj by (apply Hk; rewrite E; eauto). congruence.
Qed.

(** ** The whole answer *)

(** A rule of the bindings is about [t] and gives verb [v]. *)
Definition granted (rules : list value) (t : Target) (v : string) : Prop :=
  ∃ rule, rule ∈ rules ∧ t ∈ targetsOf rule ∧ v ∈ textsOf (rule .@ "verbs").

Definition plainRules (rules : list value) : Prop := ∀ rule t, rule ∈ rules → t ∈ targetsOf rule → plainTarget t.

Lemma addTargets_listed new ts acc :
  Forall plainTarget ts → Inv acc →
  Inv (foldl (addTarget new) acc ts) ∧
  ∀ t v, listed (items (foldl (addTarget new) acc ts)) t v ↔ listed (items acc) t v ∨ t ∈ ts ∧ v ∈ new.
Proof.
  revert acc. induction ts as [|u ts IH]; intros acc Hts HI; [split; [done|set_solver]|].
  apply Forall_cons in Hts as [Hu Hts]. cbn [foldl]. destruct (IH (addTarget new acc u)) as [HI' H]; [done|by apply addTarget_Inv|].
  split; [done|]. intros t v. rewrite H, addTarget_listed by done. rewrite elem_of_cons. naive_solver.
Qed.

Lemma addRules_listed rules acc :
  plainRules rules → Inv acc →
  Inv (foldl addRule acc rules) ∧
  ∀ t v, listed (items (foldl addRule acc rules)) t v ↔ listed (items acc) t v ∨ granted rules t v.
Proof.
  revert acc. induction rules as [|r rules IH]; intros acc Hp HI; cbn [foldl].
  { split; [done|]. intros t v. split; [by left|]. intros [|(? & []%elem_of_nil & _)]. done. }
  rewrite addRule_targets.
  destruct (addTargets_listed (textsOf (r .@ "verbs")) (targetsOf r) acc) as [HI1 H1]; [|done|].
  { apply Forall_forall. intros t Ht. apply (Hp r); [by left|done]. }
  destruct (IH (foldl (addTarget (textsOf (r .@ "verbs"))) acc (targetsOf r))) as [HI2 H2]; [|done|].
  { intros r' t Hr Ht. apply (Hp r'); [by right|done]. }
  split; [done|]. intros t v. rewrite H2, H1. unfold granted. setoid_rewrite elem_of_cons. naive_solver.
Qed.

Lemma accumulate_rules rbac :
  accumulate rbac = items (foldl addRule {| items := []; resourceIndex := ∅; nonResourceIndex := ∅ |} (rulesOf rbac)).
Proof.
  unfold accumulate, rulesOf. f_equal. generalize {| items := []; resourceIndex := ∅; nonResourceIndex := ∅ |}.
  induction (bindingsOf rbac) as [|b l IH]; intros acc; [done|]. cbn [foldl mbind list_bind]. by rewrite foldl_app, <-IH.
Qed.

Definition rowsOf (s : RbacPermissionSummary) : list Item := resourceItems s ++ nonResourceItems s.

Lemma filterb_partition {A} (p : A → bool) l : filterb p l ++ filterb (λ x, negb (p x)) l ≡ₚ l.
Proof.
  induction l as [|x l IH]; [done|]. unfold filterb in *. cbn [List.filter]. destruct (p x); cbn [negb].
  - by rewrite <-IH at 3.
  - by rewrite <-Permutation_middle, IH.
Qed.

Lemma rowsOf_permutation cmp rbac : rowsOf (buildRbacPermissionSummary cmp rbac) ≡ₚ withVerbsList <$> accumulate rbac.
Proof.
  unfold rowsOf, buildRbacPermissionSummary. cbn [resourceItems nonResourceItems].
  by rewrite !sortBy_permutation, <-fmap_app, filterb_partition.
Qed.

Section table_is.
Context (localeCompare : string → string → Z).

(** C29. Whatever the collation, the table of a service account says what the
    rules of its roles grant, as long as their API groups and resources have no
    colon and their object names no comma: each resource (with its object names)
    or URL has one row, and a row has a verb exactly when some rule of some
    binding gives that verb for it. *)
Theorem table_is_the_rules rbac :
  plainRules (rulesOf rbac) →
  NoDup (target <$> rowsOf (buildRbacPermissionSummary localeCompare rbac)) ∧
  ∀ t v, listed (rowsOf (buildRbacPermissionSummary localeCompare rbac)) t v ↔ granted (rulesOf rbac) t v.
Proof.
  intros Hp. pose proof (rowsOf_permutation localeCompare rbac) as HP.
  destruct (addRules_listed (rulesOf rbac) {| items := []; resourceIndex := ∅; nonResourceIndex := ∅ |}) as [HI HL]; [done| |].
  { split; [by intros ? []%elem_of_nil|]. intros [k|k] i; cbn; (split; [done|by intros (? & ? & _)]). }
  rewrite <-accumulate_rules in HL. split.
  - rewrite HP, <-list_fmap_compose. change (target ∘ withVerbsList) with target. rewrite accumulate_rules. by apply Inv_once.
  - intros t v. trans (listed (accumulate rbac) t v).
    + unfold listed. setoid_rewrite HP. setoid_rewrite list_elem_of_fmap. split.
      * intros (it & (x & -> & Hx) & <- & Hv). exists x. split_and!; [done..|]. cbn in Hv. unfold CRDs.sortTexts in Hv.
        by rewrite merge_sort_Permutation in Hv.
      * intros (x & Hx & <- & Hv). exists (withVerbsList x). split; [by exists x|]. split; [done|]. cbn. unfold CRDs.sortTexts.
        by rewrite merge_sort_Permutation.
    + rewrite HL. unfold listed at 1. cbn. split; [|by right]. intros [(? & []%elem_of_nil & _)|]; done.
Qed.
End table_is.

(** Two bindings: one reads pods and a URL, the other watches pods and changes a
    named config map. *)
Definition sampleRbac : value :=
  let strs l := VArr (VStr <$> l) in
  let binding rules := VObj [("resolved_role", VObj [("rules", VArr rules)])] in
  VObj [("role_bindings", VArr [binding
           [VObj [("verbs", strs ["list"; "get"]); ("api_groups", strs [""]); ("resources", strs ["pods"; "pods/log"])];
            VObj [("verbs", strs ["get"]); ("non_resource_urls", strs ["/healthz"])]]]);
        ("cluster_role_bindings", VArr [binding
           [VObj [("verbs", strs ["watch"; "get"]); ("resources", strs ["pods"])];
            VObj [("verbs", strs ["patch"]); ("api_groups", strs [""]); ("resources", strs ["configmaps"]);
                  ("resource_names", strs ["b"; "a"])]]])].

Definition byCode (a b : string) : Z := if eqs a b then 0 else if bool_decide (CRDs.textLe a b) then -1 else 1.

Example sample_permissions :
  permissionRows (buildRbacPermissionSummary byCode sampleRbac) =
    ["(core)|configmaps|a,b|patch"; "(core)|pods||get,list,watch"; "(core)|pods/log||get,list"; "/healthz|get"].
Proof. by vm_compute. Qed.

Lemma table_is_the_rules_witness :
  plainRules (rulesOf sampleRbac) ∧
  listed (rowsOf (buildRbacPermissionSummary byCode sampleRbac)) (Resource "(core)" "pods" []) "watch".
Proof.
  assert (plainRules (rulesOf sampleRbac)) as Hp.
  { intros rule t Hr Ht. vm_compute in Hr. repeat (apply elem_of_cons in Hr as [->|Hr]; [|]); try (by apply elem_of_nil in Hr);
    vm_compute in Ht; repeat (apply elem_of_cons in Ht as [->|Ht]; [repeat constructor; done|]); by apply elem_of_nil in Ht. }
  split; [exact Hp|]. apply (proj2 (table_is_the_rules byCode sampleRbac Hp)).
  exists (VObj [("verbs", VArr (VStr <$> ["watch"; "get"])); ("resources", VArr (VStr <$> ["pods"]))]).
  split_and!; [by vm_compute; repeat constructor|by vm_compute; repeat constructor|by vm_compute; repeat constructor].
Defined.
