(* ===== verification/InferTypes.v ===== *)
(** * The types of the search editor

    components/search/inferTypes.ts reads the objects to be searched and declares,
    for each of their top-level keys, the TypeScript type of the values found
    under it, which the editor completes expressions with.

    The objects are what [JSON.parse] gives.  The order in which a Set or a Map
    keeps its entries does not show in the result, which is sorted. *)

From stdpp Require Import sorting.
From S2P Require Import Prelude JsString OrderedMap Json ObjectRows.

Definition MAX_STRING_LITERALS : nat := 200.
Definition MAX_STRING_LITERAL_LENGTH : nat := 20.

(** ** What was seen of a value *)

Inductive TypeInfoNode := mkNode {
  primitiveTypes : list string;
  stringLiterals : list string;
  hasStringType : bool;
  isArrayNode : bool;
  arrayElementInfo : option TypeInfoNode;
  isObjectNode : bool;
  objectProperties : list (string * TypeInfoNode);
  presenceCount : nat;
  parentObjectCount : nat }.

Definition createTypeInfoNode : TypeInfoNode :=
  {| primitiveTypes := []; stringLiterals := []; hasStringType := false; isArrayNode := false; arrayElementInfo := None;
     isObjectNode := false; objectProperties := []; presenceCount := 0; parentObjectCount := 0 |}.

Definition setCounts (presence parent : nat) (n : TypeInfoNode) : TypeInfoNode :=
  {| primitiveTypes := primitiveTypes n; stringLiterals := stringLiterals n; hasStringType := hasStringType n;
     isArrayNode := isArrayNode n; arrayElementInfo := arrayElementInfo n; isObjectNode := isObjectNode n;
     objectProperties := objectProperties n; presenceCount := presence; parentObjectCount := parent |}.

Definition setParent (parent : nat) (n : TypeInfoNode) : TypeInfoNode := setCounts (presenceCount n) parent n.

Definition addPrimitive (t : string) (n : TypeInfoNode) : TypeInfoNode :=
  {| primitiveTypes := setAdd t (primitiveTypes n); stringLiterals := stringLiterals n; hasStringType := hasStringType n;
     isArrayNode := isArrayNode n; arrayElementInfo := arrayElementInfo n; isObjectNode := isObjectNode n;
     objectProperties := objectProperties n; presenceCount := presenceCount n; parentObjectCount := parentObjectCount n |}.

(** At the limit the literals are dropped. *)
Definition addLiteral (s : string) (n : TypeInfoNode) : TypeInfoNode :=
  let literals :=
    if Nat.ltb (length (stringLiterals n)) MAX_STRING_LITERALS
    then if Nat.ltb (String.length s) MAX_STRING_LITERAL_LENGTH then setAdd s (stringLiterals n) else stringLiterals n
    else [] in
  {| primitiveTypes := setAdd "string" (primitiveTypes n); stringLiterals := literals; hasStringType := true;
     isArrayNode := isArrayNode n; arrayElementInfo := arrayElementInfo n; isObjectNode := isObjectNode n;
     objectProperties := objectProperties n; presenceCount := presenceCount n; parentObjectCount := parentObjectCount n |}.

Definition setElement (e : TypeInfoNode) (n : TypeInfoNode) : TypeInfoNode :=
  {| primitiveTypes := primitiveTypes n; stringLiterals := stringLiterals n; hasStringType := hasStringType n;
     isArrayNode := true; arrayElementInfo := Some e; isObjectNode := isObjectNode n;
     objectProperties := objectProperties n; presenceCount := presenceCount n; parentObjectCount := parentObjectCount n |}.

Definition setProperties (ps : list (string * TypeInfoNode)) (n : TypeInfoNode) : TypeInfoNode :=
  {| primitiveTypes := primitiveTypes n; stringLiterals := stringLiterals n; hasStringType := hasStringType n;
     isArrayNode := isArrayNode n; arrayElementInfo := arrayElementInfo n; isObjectNode := true;
     objectProperties := ps; presenceCount := presenceCount n; parentObjectCount := parentObjectCount n |}.

(** The node of a key is created when missing, then changed. *)
Definition visit (k : string) (f : TypeInfoNode → TypeInfoNode) (ps : list (string * TypeInfoNode)) : list (string * TypeInfoNode) :=
  upsert createTypeInfoNode k f ps.

Fixpoint aggregateTypeInfo (v : value) (parentObjectCount : nat) (node : TypeInfoNode) : TypeInfoNode :=
  let node := setCounts (S (presenceCount node)) parentObjectCount node in
  match v with
  | VUndef => node
  | VNull => addPrimitive "null" node
  | VStr s => addLiteral s node
  | VNum _ | VNaN => addPrimitive "number" node
  | VBool _ => addPrimitive "boolean" node
  | VArr l =>
      let arrayPresenceCount := presenceCount node in
      let element := default createTypeInfoNode (arrayElementInfo node) in
      let element := (fix each l e := match l with [] => e | x :: l' => each l' (aggregateTypeInfo x arrayPresenceCount e) end) l element in
      setElement (setParent arrayPresenceCount element) node
  | VObj fs =>
      let numObjectOccurrences := presenceCount node in
      let ps := (fix each fs ps := match fs with
                 | [] => ps
                 | (k, x) :: fs' => each fs' (visit k (aggregateTypeInfo x numObjectOccurrences) ps)
                 end) fs (objectProperties node) in
      setProperties ((λ p, if hasKey p.1 fs then p else (p.1, setParent numObjectOccurrences p.2)) <$> ps) node
  end.

(** ** The types' text *)

Definition quote : string := String "034" "".
Definition newline : string := String "010" "".

(** Backslashes and quotes escaped. *)
Fixpoint escaped (s : string) : string :=
  match s with
  | "" => ""
  | String c s' =>
      if bool_decide (c = "\"%char) || bool_decide (c = "034"%char) then String "\" (String c (escaped s'))
      else String c (escaped s')
  end.

Definition isIdentStart (c : ascii) : bool :=
  let n := nat_of_ascii c in
  (Nat.leb 97 n && Nat.leb n 122) || (Nat.leb 65 n && Nat.leb n 90) || Nat.eqb n 95 || Nat.eqb n 36.

(** [validIdentifierRegex]. *)
Definition validIdentifier (s : string) : bool :=
  match s with
  | "" => false
  | String c s' => isIdentStart c && sall (λ c, isIdentStart c || is_digit c) s'
  end.

Definition formattedKey (k : string) : string := if validIdentifier k then k else quote +:+ k +:+ quote.

Definition propertyLine (ind : string) (p : string * bool * string) : string :=
  ind +:+ formattedKey p.1.1 +:+ (if p.1.2 : bool then "?" else "") +:+ ": " +:+ p.2 +:+ ";".

Definition keyLe (p q : string * bool * string) : Prop := CRDs.textLe p.1.1 q.1.1.
#[global] Instance keyLe_dec : RelDecision keyLe.
Proof. intros p q. unfold keyLe. apply _. Defined.

Definition isOptional (n : TypeInfoNode) : bool :=
  Nat.ltb 0 (parentObjectCount n) && Nat.ltb (presenceCount n) (parentObjectCount n).

Definition literalText (s : string) : string := quote +:+ escaped s +:+ quote.

Definition objectText (indentation : string) (lines : list (string * bool * string)) : string :=
  "{" +:+ newline +:+ join newline (propertyLine (indentation +:+ "  ") <$> merge_sort keyLe lines) +:+ newline +:+ indentation +:+ "}".

Definition arrayText (elementTypeString : string) : string :=
  if includes "|" elementTypeString || startsWith "{" elementTypeString || includes "&" elementTypeString
  then "(" +:+ elementTypeString +:+ ")[]" else elementTypeString +:+ "[]".

(** [types.join] of the parts. *)
Definition unionText (types : list string) : string :=
  match types with [] => "any" | [t] => t | _ => join " | " (CRDs.sortTexts types) end.

Definition literalsListed (n : TypeInfoNode) : bool :=
  Nat.ltb 0 (length (stringLiterals n)) && Nat.ltb (length (stringLiterals n)) MAX_STRING_LITERALS.

Definition propertiesListed (maxKeysPerObject : nat) (n : TypeInfoNode) : bool :=
  Nat.ltb 0 (length (objectProperties n)) && Nat.ltb (length (objectProperties n)) maxKeysPerObject.

Definition elementSeen (e : TypeInfoNode) : bool :=
  Nat.ltb 0 (presenceCount e) || Nat.ltb 0 (length (primitiveTypes e)) || Nat.ltb 0 (length (stringLiterals e))
  || isObjectNode e || isArrayNode e.

(** The elements' type is written with the default number of keys. *)
Definition MAX_KEYS : nat := 25.

Fixpoint generateTypeString (node : TypeInfoNode) (indentation : string) (maxKeysPerObject : nat) : string :=
  unionText (
    filterb (λ t, negb (eqs t "string")) (primitiveTypes node) ++
    (if hasStringType node
     then if literalsListed node then literalText <$> stringLiterals node else ["string"]
     else []) ++
    (if isObjectNode node
     then if propertiesListed maxKeysPerObject node
          then [objectText indentation
                  ((fix each ps := match ps with
                    | [] => []
                    | (k, n) :: ps' => (k, isOptional n, generateTypeString n (indentation +:+ "  ") maxKeysPerObject) :: each ps'
                    end) (objectProperties node))]
          else ["Record<string, any>"]
     else []) ++
    (if isArrayNode node
     then match arrayElementInfo node with
          | Some e => if elementSeen e then [arrayText (generateTypeString e indentation MAX_KEYS)] else ["any[]"]
          | None => ["any[]"]
          end
     else [])).

(** ** The declarations *)

Definition aggregateObject (nodes : list (string * TypeInfoNode)) (obj : value) : list (string * TypeInfoNode) :=
  match obj with
  | VObj fs => foldl (λ nodes f, visit f.1 (aggregateTypeInfo f.2 1) nodes) nodes fs
  | _ => nodes
  end.

Definition isPlainObject (v : value) : bool := match v with VObj _ => true | _ => false end.

Definition nodeKeyLe (p q : string * TypeInfoNode) : Prop := CRDs.textLe p.1 q.1.
#[global] Instance nodeKeyLe_dec : RelDecision nodeKeyLe.
Proof. intros p q. unfold nodeKeyLe. apply _. Defined.

Definition declaration (maxKeysPerObject : nat) (p : string * TypeInfoNode) : list string :=
  if validIdentifier p.1 then
    let node := setParent (presenceCount p.2) p.2 in
    let typeString := generateTypeString node "" maxKeysPerObject in
    if negb (eqs typeString "any") || Nat.ltb 0 (presenceCount node)
    then ["declare var " +:+ p.1 +:+ ": " +:+ typeString +:+ ";"] else []
  else [].

Definition generateGlobalVarDeclarations (objects : list value) (maxKeysPerObject : option nat) : string :=
  if negb (some isPlainObject objects) then "" else
  let nodes := foldl aggregateObject [] objects in
  join (newline +:+ newline) (merge_sort nodeKeyLe nodes ≫= declaration (default MAX_KEYS maxKeysPerObject)).

(** ** TypeScript types *)

(** [TKeyword] is null, number, boolean, string, any or [Record<string, any>];
    an object type has its properties with whether they are optional; a union of
    nothing is any. *)
Inductive Ty :=
  | TKeyword (word : string)
  | TLiteral (s : string)
  | TObject (properties : list (string * bool * Ty))
  | TArray (element : Ty)
  | TUnion (types : list Ty).

(** How a type is written. *)
Fixpoint print (t : Ty) (indentation : string) : string :=
  match t with
  | TKeyword w => w
  | TLiteral s => literalText s
  | TObject ps => objectText indentation ((λ p, (p.1, print p.2 (indentation +:+ "  "))) <$> ps)
  | TArray e => arrayText (print e indentation)
  | TUnion ts => unionText ((λ t, print t indentation) <$> ts)
  end.

Definition declareVar (d : string * Ty) : string := "declare var " +:+ d.1 +:+ ": " +:+ print d.2 "" +:+ ";".

(** The values of a type.  An object has no property but the type's, and the type's
    except the optional ones; a literal is the type of its own string alone. *)
Inductive admits : Ty → value → Prop :=
  | admits_null : admits (TKeyword "null") VNull
  | admits_boolean b : admits (TKeyword "boolean") (VBool b)
  | admits_number z : admits (TKeyword "number") (VNum z)
  | admits_nan : admits (TKeyword "number") VNaN
  | admits_string s : admits (TKeyword "string") (VStr s)
  | admits_literal s : admits (TLiteral s) (VStr s)
  | admits_any v : admits (TKeyword "any") v
  | admits_record fs : admits (TKeyword "Record<string, any>") (VObj fs)
  | admits_array e l : (∀ v, v ∈ l → admits e v) → admits (TArray e) (VArr l)
  | admits_object ps fs :
      (∀ k, k ∈ fs.*1 → k ∈ ps.*1.*1) →
      (∀ k o t v, (k, o, t) ∈ ps → assoc k fs = Some v → admits t v) →
      (∀ k o t, (k, o, t) ∈ ps → assoc k fs = None → o = true) →
      admits (TObject ps) (VObj fs)
  | admits_union t ts v : t ∈ ts → admits t v → admits (TUnion ts) v
  | admits_nothing v : admits (TUnion []) v.

(** A type with every literal in it widened to [string]. *)
Fixpoint widen (t : Ty) : Ty :=
  match t with
  | TLiteral _ => TKeyword "string"
  | TObject ps => TObject ((λ p, (p.1, widen p.2)) <$> ps)
  | TArray e => TArray (widen e)
  | TUnion ts => TUnion (widen <$> ts)
  | TKeyword w => TKeyword w
  end.

(** A member of a union for a value of its sort. *)
Inductive sortOf : Ty → value → Prop :=
  | sort_null : sortOf (TKeyword "null") VNull
  | sort_boolean b : sortOf (TKeyword "boolean") (VBool b)
  | sort_number z : sortOf (TKeyword "number") (VNum z)
  | sort_nan : sortOf (TKeyword "number") VNaN
  | sort_string s : sortOf (TKeyword "string") (VStr s)
  | sort_literal s : sortOf (TLiteral s) (VStr s)
  | sort_record fs : sortOf (TKeyword "Record<string, any>") (VObj fs)
  | sort_object ps fs : sortOf (TObject ps) (VObj fs)
  | sort_array e l : sortOf (TArray e) (VArr l).

(** What [JSON.parse] gives, with strings in [P]: no [undefined] and no key twice. *)
Inductive json (P : string → Prop) : value → Prop :=
  | json_null : json P VNull
  | json_bool b : json P (VBool b)
  | json_num z : json P (VNum z)
  | json_nan : json P VNaN
  | json_str s : P s → json P (VStr s)
  | json_arr l : (∀ v, v ∈ l → json P v) → json P (VArr l)
  | json_obj fs : NoDup fs.*1 → (∀ k v, (k, v) ∈ fs → json P v) → json P (VObj fs).

(** The type [generateTypeString] writes. *)
Fixpoint typeOf (node : TypeInfoNode) (maxKeysPerObject : nat) : Ty :=
  TUnion (
    (TKeyword <$> filterb (λ t, negb (eqs t "string")) (primitiveTypes node)) ++
    (if hasStringType node
     then if literalsListed node then TLiteral <$> stringLiterals node else [TKeyword "string"]
     else []) ++
    (if isObjectNode node
     then if propertiesListed maxKeysPerObject node
          then [TObject ((fix each ps := match ps with
                          | [] => []
                          | (k, n) :: ps' => (k, isOptional n, typeOf n maxKeysPerObject) :: each ps'
                          end) (objectProperties node))]
          else [TKeyword "Record<string, any>"]
     else []) ++
    (if isArrayNode node
     then match arrayElementInfo node with
          | Some e => if elementSeen e then [TArray (typeOf e MAX_KEYS)] else [TArray (TKeyword "any")]
          | None => [TArray (TKeyword "any")]
          end
     else [])).

(** *** Both readings at once

    [admits] of the type itself when [exact], of the widened type when not. *)
Inductive fits (exact : bool) : Ty → value → Prop :=
  | fits_null : fits exact (TKeyword "null") VNull
  | fits_boolean b : fits exact (TKeyword "boolean") (VBool b)
  | fits_number z : fits exact (TKeyword "number") (VNum z)
  | fits_nan : fits exact (TKeyword "number") VNaN
  | fits_string s : fits exact (TKeyword "string") (VStr s)
  | fits_literal l s : (exact = true → l = s) → fits exact (TLiteral l) (VStr s)
  | fits_any v : fits exact (TKeyword "any") v
  | fits_record fs : fits exact (TKeyword "Record<string, any>") (VObj fs)
  | fits_array e l : (∀ v, v ∈ l → fits exact e v) → fits exact (TArray e) (VArr l)
  | fits_object ps fs :
      (∀ k, k ∈ fs.*1 → k ∈ ps.*1.*1) →
      (∀ k o t v, (k, o, t) ∈ ps → assoc k fs = Some v → fits exact t v) →
      (∀ k o t, (k, o, t) ∈ ps → assoc k fs = None → o = true) →
      fits exact (TObject ps) (VObj fs)
  | fits_union t ts v : t ∈ ts → fits exact t v → fits exact (TUnion ts) v
  | fits_nothing v : fits exact (TUnion []) v.

Lemma fits_admits exact t v : fits exact t v → admits (if exact then t else widen t) v.
Proof.
  induction 1 as [|b|z| |s|l s Hl|v|fs|e l _ IH|ps fs Hk _ IH Ho|t ts v Hin _ IH|v]; destruct exact; cbn [widen]; try (by constructor).
  - rewrite (Hl eq_refl). constructor.
  - constructor; [|..].
    + intros k Hin. apply Hk in Hin. rewrite <-list_fmap_compose in *. rewrite <-list_fmap_compose. exact Hin.
    + intros k o t v ([[k' o'] t'] & [= -> -> ->] & Hin)%list_elem_of_fmap Hv. by eapply IH.
    + intros k o t ([[k' o'] t'] & [= -> -> ->] & Hin)%list_elem_of_fmap Hv. by eapply Ho.
  - by eapply admits_union.
  - eapply admits_union; [|exact IH]. apply list_elem_of_fmap. by exists t.
Qed.

(** ** Writing *)

Lemma TypeInfoNode_nested (P : TypeInfoNode → Prop) :
  (∀ n, (∀ k p, (k, p) ∈ objectProperties n → P p) → (∀ e, arrayElementInfo n = Some e → P e) → P n) → ∀ n, P n.
Proof.
  intros H. fix IH 1. intros [ps ls hs ia ae io op pc po]. apply H; cbn.
  - assert (Forall (λ p, P p.2) op) as Hop by (clear -IH; induction op as [|[k n] op IHop]; constructor; [apply IH|apply IHop]).
    intros k p Hin. by apply (proj1 (Forall_forall _ _) Hop (k, p)).
  - assert (from_option P True ae) as He by (destruct ae as [e|]; [apply IH|exact I]). intros e ->. exact He.
Qed.

Definition linesOf (ps : list (string * TypeInfoNode)) (ind : string) (mk : nat) : list (string * bool * string) :=
  (λ p, (p.1, isOptional p.2, generateTypeString p.2 ind mk)) <$> ps.
Definition typesOf (ps : list (string * TypeInfoNode)) (mk : nat) : list (string * bool * Ty) :=
  (λ p, (p.1, isOptional p.2, typeOf p.2 mk)) <$> ps.

(** The members of the union. *)
Definition members (n : TypeInfoNode) (mk : nat) : list Ty :=
    (TKeyword <$> filterb (λ t, negb (eqs t "string")) (primitiveTypes n)) ++
    (if hasStringType n then if literalsListed n then TLiteral <$> stringLiterals n else [TKeyword "string"] else []) ++
    (if isObjectNode n
     then if propertiesListed mk n then [TObject (typesOf (objectProperties n) mk)] else [TKeyword "Record<string, any>"]
     else []) ++
    (if isArrayNode n
     then match arrayElementInfo n with
          | Some e => if elementSeen e then [TArray (typeOf e MAX_KEYS)] else [TArray (TKeyword "any")]
          | None => [TArray (TKeyword "any")]
          end
     else []).

Lemma typeOf_eq n mk : typeOf n mk = TUnion (members n mk).
Proof.
  unfold members. destruct n as [ps ls hs ia ae io op pc po]. cbn [typeOf]. do 4 f_equal.
  cbn [objectProperties isObjectNode]. destruct io; [|done]. case_match; [|done]. do 2 f_equal.
  clear. induction op as [|[k n] op IH]; [done|]. cbn. by f_equal.
Qed.

Lemma generateTypeString_eq n ind mk :
  generateTypeString n ind mk = unionText (
    filterb (λ t, negb (eqs t "string")) (primitiveTypes n) ++
    (if hasStringType n then if literalsListed n then literalText <$> stringLiterals n else ["string"] else []) ++
    (if isObjectNode n
     then if propertiesListed mk n then [objectText ind (linesOf (objectProperties n) (ind +:+ "  ") mk)] else ["Record<string, any>"]
     else []) ++
    (if isArrayNode n
     then match arrayElementInfo n with
          | Some e => if elementSeen e then [arrayText (generateTypeString e ind MAX_KEYS)] else ["any[]"]
          | None => ["any[]"]
          end
     else [])).
Proof.
  destruct n as [ps ls hs ia ae io op pc po]. cbn [generateTypeString]. do 4 f_equal.
  cbn [objectProperties isObjectNode]. destruct io; [|done]. case_match; [|done]. do 2 f_equal.
  clear. generalize (ind +:+ "  ") as ind'. intros ind'. induction op as [|[k n] op IH]; [done|]. cbn. by f_equal.
Qed.

(** What is written is the type. *)
Lemma generateTypeString_print n ind mk : generateTypeString n ind mk = print (typeOf n mk) ind.
Proof.
  revert ind mk. induction n as [n IHp IHe] using TypeInfoNode_nested. intros ind mk.
  rewrite generateTypeString_eq, typeOf_eq. unfold members. cbn [print]. f_equal. rewrite !fmap_app. f_equal; [|f_equal; [|f_equal]].
  - rewrite <-list_fmap_compose. by rewrite list_fmap_id.
  - repeat case_match; [|done..]. by rewrite <-list_fmap_compose.
  - repeat case_match; [|done..]. cbn. do 2 f_equal. unfold linesOf, typesOf. rewrite <-list_fmap_compose.
    apply list_fmap_ext. intros i [k p] Hp%list_elem_of_lookup_2. cbn. by rewrite (IHp _ _ Hp).
  - repeat case_match; try done. cbn. by rewrite (IHe t).
Qed.

(** ** Seeing *)

(** The properties after an object's. *)
Fixpoint visitAll (n : nat) (fs : list (string * value)) (ps : list (string * TypeInfoNode)) : list (string * TypeInfoNode) :=
  match fs with [] => ps | (k, x) :: fs' => visitAll n fs' (visit k (aggregateTypeInfo x n) ps) end.

Lemma visitAll_nodup n fs ps : NoDup ps.*1 → NoDup (visitAll n fs ps).*1.
Proof. revert ps. induction fs as [|[k x] fs IH]; intros ps H; [done|]. by apply IH, upsert_nodup. Qed.

Lemma assoc_visitAll n fs ps k :
  NoDup fs.*1 →
  assoc k (visitAll n fs ps) =
    match assoc k fs with
    | Some x => Some (aggregateTypeInfo x n (default createTypeInfoNode (assoc k ps)))
    | None => assoc k ps
    end.
Proof.
  revert ps. induction fs as [|[k' x] fs IH]; intros ps; [done|]. cbn [visitAll fmap list_fmap fst]. intros [Hn Hnd]%NoDup_cons.
  rewrite IH by done. cbn [assoc]. unfold visit. rewrite !assoc_upsert. destruct (eqs k k') eqn:E; [|done].
  apply eqs_true in E as ->. apply assoc_None in Hn. by rewrite Hn.
Qed.

Fixpoint visitElements (n : nat) (l : list value) (e : TypeInfoNode) : TypeInfoNode :=
  match l with [] => e | x :: l' => visitElements n l' (aggregateTypeInfo x n e) end.

Lemma aggregate_arr l parent n :
  aggregateTypeInfo (VArr l) parent n =
  setElement (setParent (S (presenceCount n)) (visitElements (S (presenceCount n)) l (default createTypeInfoNode (arrayElementInfo n))))
    (setCounts (S (presenceCount n)) parent n).
Proof.
  cbn [aggregateTypeInfo presenceCount setCounts arrayElementInfo]. do 2 f_equal.
  generalize (default createTypeInfoNode (arrayElementInfo n)). induction l as [|x l IH]; intros e; [done|]. apply IH.
Qed.

Lemma aggregate_obj fs parent n :
  aggregateTypeInfo (VObj fs) parent n =
  setProperties ((λ p, if hasKey p.1 fs then p else (p.1, setParent (S (presenceCount n)) p.2)) <$>
                 visitAll (S (presenceCount n)) fs (objectProperties n)) (setCounts (S (presenceCount n)) parent n).
Proof.
  cbn [aggregateTypeInfo presenceCount setCounts objectProperties]. do 2 f_equal.
  generalize (objectProperties n). clear. induction fs as [|[k x] fs IH]; intros ps; [done|]. apply IH.
Qed.

Lemma aggregate_counts v parent n :
  presenceCount (aggregateTypeInfo v parent n) = S (presenceCount n) ∧ parentObjectCount (aggregateTypeInfo v parent n) = parent.
Proof. by destruct v. Qed.

Lemma assoc_settled (fs : list (string * value)) N k ps :
  assoc k ((λ p, if hasKey p.1 fs then p else (p.1, setParent N p.2)) <$> ps) =
  (λ p, if hasKey k fs then p else setParent N p) <$> assoc k ps.
Proof.
  induction ps as [|[k' p] ps IH]; [done|]. cbn. destruct (eqs k k') eqn:E; [|destruct (hasKey k' fs); cbn; by rewrite E].
  apply eqs_true in E as <-. destruct (hasKey k fs); cbn; by rewrite eqs_refl.
Qed.

Lemma assoc_properties fs parent n k :
  NoDup fs.*1 →
  assoc k (objectProperties (aggregateTypeInfo (VObj fs) parent n)) =
    match assoc k fs with
    | Some x => Some (aggregateTypeInfo x (S (presenceCount n)) (default createTypeInfoNode (assoc k (objectProperties n))))
    | None => setParent (S (presenceCount n)) <$> assoc k (objectProperties n)
    end.
Proof.
  intros Hnd. rewrite aggregate_obj. cbn [objectProperties setProperties]. rewrite assoc_settled, assoc_visitAll by done.
  rewrite hasKey_assoc. destruct (assoc k fs); [done|]. by destruct (assoc k (objectProperties n)).
Qed.

Lemma isOptional_lt n : isOptional n = true ↔ presenceCount n < parentObjectCount n.
Proof. unfold isOptional. rewrite andb_true_iff, !Nat.ltb_lt. lia. Qed.

(** A value the objects have under a key. *)
Definition heldUnder (objs : list value) (k : string) (v : value) : Prop := ∃ fs, VObj fs ∈ objs ∧ (k, v) ∈ fs.

Section seen.
Context (exact : bool) (L : list string).

(** The strings an exact type can list. *)
Definition listable (s : string) : Prop := exact = true → s ∈ L.

(** A node's type has the value. *)
Inductive covers : TypeInfoNode → value → Prop :=
  | covers_null n : "null" ∈ primitiveTypes n → covers n VNull
  | covers_bool n b : "boolean" ∈ primitiveTypes n → covers n (VBool b)
  | covers_num n z : "number" ∈ primitiveTypes n → covers n (VNum z)
  | covers_nan n : "number" ∈ primitiveTypes n → covers n VNaN
  | covers_str n s : hasStringType n = true → (exact = true → s ∈ stringLiterals n) → covers n (VStr s)
  | covers_arr n l e :
      isArrayNode n = true → arrayElementInfo n = Some e → (∀ x, x ∈ l → 0 < presenceCount e ∧ covers e x) → covers n (VArr l)
  | covers_obj n fs :
      isObjectNode n = true → 0 < presenceCount n →
      (∀ k x, (k, x) ∈ fs → ∃ p, assoc k (objectProperties n) = Some p ∧ covers p x) →
      (∀ k p, assoc k (objectProperties n) = Some p → assoc k fs = None → isOptional p = true) →
      covers n (VObj fs).

(** Literals from the list, each once; a property was there at most as often as an
    object, and that at most as often as anything. *)
Inductive ok : TypeInfoNode → Prop :=
  ok_node n :
    (exact = true → NoDup (stringLiterals n) ∧ stringLiterals n ⊆ L) →
    NoDup (objectProperties n).*1 →
    (∀ k p, assoc k (objectProperties n) = Some p → ok p) →
    (∀ k p, assoc k (objectProperties n) = Some p →
       presenceCount p ≤ parentObjectCount p ∧ parentObjectCount p ≤ presenceCount n) →
    (∀ e, arrayElementInfo n = Some e → ok e) → ok n.

Lemma ok_create : ok createTypeInfoNode.
Proof. constructor; cbn; try done; [intros _; split; [constructor|set_solver]|constructor]. Qed.

Lemma covers_same n n' v :
  covers n v → primitiveTypes n' = primitiveTypes n → stringLiterals n' = stringLiterals n → hasStringType n' = hasStringType n →
  isArrayNode n' = isArrayNode n → arrayElementInfo n' = arrayElementInfo n → isObjectNode n' = isObjectNode n →
  objectProperties n' = objectProperties n → presenceCount n ≤ presenceCount n' → covers n' v.
Proof.
  intros [] E1 E2 E3 E4 E5 E6 E7 E8.
  - constructor; congruence.
  - constructor; congruence.
  - constructor; congruence.
  - constructor; congruence.
  - constructor; [congruence|by rewrite E2].
  - econstructor; [congruence|by rewrite E5|done].
  - constructor; [congruence|lia|by rewrite E7..].
Qed.

Lemma covers_setCounts a b n v : covers n v → presenceCount n ≤ a → covers (setCounts a b n) v.
Proof. intros. by eapply covers_same. Qed.

Lemma ok_props n : ok n → NoDup (objectProperties n).*1 ∧ ∀ k p, assoc k (objectProperties n) = Some p → ok p.
Proof. by intros []. Qed.

Lemma ok_setCounts a b n : ok n → presenceCount n ≤ a → ok (setCounts a b n).
Proof.
  intros [? H1 H2 H3 H4 H5] Ha. constructor; cbn; [done..| |done]. intros k p Hp. destruct (H4 k p Hp). lia.
Qed.
Lemma addPrimitive_covers t n w : covers n w → covers (addPrimitive t n) w.
Proof.
  intros []; try (constructor; cbn; try done; apply elem_setAdd; by left). econstructor; cbn; done.
Qed.

Lemma addPrimitive_ok t n : ok n → ok (addPrimitive t n).
Proof. intros []. by constructor. Qed.

Hypothesis L_short : exact = true → length L < MAX_STRING_LITERALS ∧ Forall (λ s, String.length s < MAX_STRING_LITERAL_LENGTH) L.

#[local] Set Default Proof Using "Type*".

Definition seen (v : value) : Prop := ∀ parent n, ok n →
  ok (aggregateTypeInfo v parent n) ∧ covers (aggregateTypeInfo v parent n) v ∧
  ∀ w, covers n w → covers (aggregateTypeInfo v parent n) w.

(** In an exact reading the literals never reach the limit. *)
Lemma addLiteral_exact s n :
  ok n → s ∈ L → exact = true → stringLiterals (addLiteral s n) = setAdd s (stringLiterals n).
Proof.
  intros Hok Hs Hx. destruct Hok as [n H1 _ _ _ _]. destruct (H1 Hx) as [Hnd Hsub]. destruct (L_short Hx) as [HL HF].
  unfold addLiteral. cbn [stringLiterals]. assert (length (stringLiterals n) ≤ length L) as Hle by (by apply NoDup_incl_length; [apply NoDup_ListNoDup|intros y ?%list_elem_of_In%Hsub; apply list_elem_of_In]).
  rewrite (proj2 (Nat.ltb_lt _ _)) by lia. by rewrite (proj2 (Nat.ltb_lt _ _)) by (eapply (proj1 (Forall_forall _ _) HF); done).
Qed.

Lemma addLiteral_covers s n w : ok n → listable s → covers n w → covers (addLiteral s n) w.
Proof.
  intros Hok Hs Hw. pose proof (addLiteral_exact s n Hok) as Hx. destruct Hw; try (constructor; cbn; try done; apply elem_setAdd; by left).
  - constructor; [done|]. intros He. rewrite Hx by auto. apply elem_setAdd. auto.
  - by econstructor.
Qed.

Lemma addLiteral_ok s n : ok n → listable s → ok (addLiteral s n).
Proof.
  intros Hok Hs. pose proof (addLiteral_exact s n Hok) as Hx. destruct Hok as [n H1 H2 H3 H4 H5]. constructor; [|done..].
  intros He. rewrite Hx by auto. destruct (H1 He) as [Hnd Hsub]. split; [by apply setAdd_nodup|].
  intros y [| ->]%elem_setAdd; auto.
Qed.

(** Elements one after the other. *)
Lemma elements_seen l N e :
  (∀ x, x ∈ l → seen x) → ok e → presenceCount e + length l ≤ presenceCount (visitElements N l e) ∧
  ok (visitElements N l e) ∧ (∀ x, x ∈ l → 0 < presenceCount (visitElements N l e) ∧ covers (visitElements N l e) x) ∧
  ∀ w, covers e w → covers (visitElements N l e) w.
Proof.
  revert e. induction l as [|x l IH]; intros e Hl He; cbn [visitElements length].
  { split; [lia|]. split_and!; [done|by intros ? []%elem_of_nil|done]. }
  destruct (Hl x ltac:(left) N e He) as (Hok & Hx & Hm). pose proof (proj1 (aggregate_counts x N e)) as Hp.
  destruct (IH (aggregateTypeInfo x N e)) as (H1 & H2 & H3 & H4); [by intros; apply Hl; right|done|].
  split_and!; [lia|done| |auto]. intros y [->|Hy]%elem_of_cons; [|auto]. split; [lia|auto].
Qed.

Lemma seen_arr l : (∀ x, x ∈ l → seen x) → seen (VArr l).
Proof.
  intros Hl parent n Hok. rewrite aggregate_arr. set (N := S (presenceCount n)).
  assert (ok (default createTypeInfoNode (arrayElementInfo n))) as He.
  { destruct Hok as [n _ _ _ _ H5]. destruct (arrayElementInfo n) as [e|] eqn:E; [by apply H5|apply ok_create]. }
  destruct (elements_seen l N _ Hl He) as (H1 & H2 & H3 & H4). set (e' := visitElements _ _ _) in *.
  split_and!.
  - destruct Hok as [n G1 G2 G3 G4 G5]. constructor; cbn; [done..| |].
    + intros k p Hp. destruct (G4 k p Hp). unfold N. lia.
    + intros e [= <-]. by apply ok_setCounts.
  - econstructor; [done..|]. intros x Hx. destruct (H3 x Hx). split; [done|]. by apply covers_setCounts.
  - intros w Hw. inversion Hw as [| | | | | n0 k e Ha E Hk|]; subst; try (by constructor).
    + econstructor; [done..|]. rewrite E in H1, H4. cbn in H1, H4. intros x Hx. destruct (Hk x Hx).
      split; [cbn; lia|]. apply covers_setCounts; auto.
    + constructor; cbn; [done|unfold N; lia|done..].
Qed.

Lemma seen_obj fs : NoDup fs.*1 → (∀ k x, (k, x) ∈ fs → seen x) → seen (VObj fs).
Proof.
  intros Hnd Hfs parent n Hok. pose proof (λ k, assoc_properties fs parent n k Hnd) as HA.
  assert (∀ k x, assoc k fs = Some x → seen x) as Hseen by (intros k x Hx%assoc_elem; by eapply Hfs).
  set (n' := aggregateTypeInfo _ _ _) in *. set (N := S (presenceCount n)) in *.
  assert (presenceCount n' = N) as HN by done.
  assert (∀ k, ok (default createTypeInfoNode (assoc k (objectProperties n)))) as Hokd.
  { intros k. destruct Hok as [n0 _ _ G3 _ _]. destruct (assoc k (objectProperties n0)) eqn:E; [by eapply G3|apply ok_create]. }
  assert (∀ k p, assoc k (objectProperties n) = Some p → presenceCount p ≤ parentObjectCount p ∧ parentObjectCount p < N) as Hc.
  { intros k p Hp. destruct Hok as [n0 _ _ _ G4 _]. destruct (G4 k p Hp). unfold N. lia. }
  split_and!.
  - constructor.
    + by destruct Hok.
    + unfold n'. rewrite aggregate_obj. cbn. rewrite <-list_fmap_compose.
      rewrite (list_fmap_ext _ fst); [by apply visitAll_nodup; destruct Hok|]. intros i [k p] _. cbn. by destruct (hasKey k fs).
    + intros k p. rewrite HA. destruct (assoc k fs) as [x|] eqn:E.
      * intros [= <-]. by apply (Hseen k x E N _ (Hokd k)).
      * intros (q & Hq & ->)%fmap_Some. destruct (Hc k q Hq). specialize (Hokd k). rewrite Hq in Hokd. by apply ok_setCounts.
    + intros k p. rewrite HA, HN. destruct (assoc k fs) as [x|] eqn:E.
      * intros [= <-]. destruct (aggregate_counts x N (default createTypeInfoNode (assoc k (objectProperties n)))) as [-> ->].
        destruct (assoc k (objectProperties n)) as [q|] eqn:Eq; cbn; [|unfold N; lia]. destruct (Hc k q Eq). lia.
      * intros (q & Hq & ->)%fmap_Some. destruct (Hc k q Hq). cbn. lia.
    + by destruct Hok.
  - constructor; [done|lia| |].
    + intros k x Hx. apply elem_assoc in Hx; [|done]. exists (aggregateTypeInfo x N (default createTypeInfoNode (assoc k (objectProperties n)))).
      rewrite HA, Hx. split; [done|]. exact (proj1 (proj2 (Hseen k x Hx N _ (Hokd k)))).
    + intros k p. rewrite HA. intros Hp E. rewrite E in Hp. apply fmap_Some in Hp as (q & Hq & ->). destruct (Hc k q Hq).
      apply isOptional_lt. cbn. lia.
  - intros w Hw. inversion Hw as [| | | | | | n0 fs' Ho Hp Hk Hopt]; subst; try (by econstructor).
    constructor; [done|lia| |].
    + intros k x (p & Hp' & Hx)%Hk. rewrite HA, Hp'. destruct (assoc k fs) as [y|] eqn:E; cbn.
      * eexists. split; [done|]. specialize (Hokd k). rewrite Hp' in Hokd. by apply (proj2 (proj2 (Hseen k y E N p Hokd))).
      * eexists. split; [done|]. by apply covers_setCounts.
    + intros k p. rewrite HA. intros Hp' E. apply isOptional_lt.
      destruct (assoc k fs) as [y|]; [injection Hp' as <-|].
      * destruct (aggregate_counts y N (default createTypeInfoNode (assoc k (objectProperties n)))) as [-> ->].
        destruct (assoc k (objectProperties n)) as [q|] eqn:Eq; cbn; [|unfold N; lia].
        pose proof (proj1 (isOptional_lt q) (Hopt k q Eq E)).
        destruct (Hc k q Eq). lia.
      * apply fmap_Some in Hp' as (q & Hq & ->). destruct (Hc k q Hq). cbn. lia.
Qed.

Lemma json_seen v : json listable v → seen v.
Proof.
  induction 1 as [|b|z| |s Hs|l _ IH|fs Hnd _ IH]; [..|by apply seen_arr|by apply seen_obj]; intros parent n Hok;
    set (m := setCounts (S (presenceCount n)) parent n);
    assert (ok m) as Hm by (by apply ok_setCounts; [|lia]);
    assert (∀ w, covers n w → covers m w) as Hc by (by intros; apply covers_setCounts; [|lia]).
  - split_and!; [by apply addPrimitive_ok|constructor; apply elem_setAdd; by right|intros; by apply addPrimitive_covers, Hc].
  - split_and!; [by apply addPrimitive_ok|constructor; apply elem_setAdd; by right|intros; by apply addPrimitive_covers, Hc].
  - split_and!; [by apply addPrimitive_ok|constructor; apply elem_setAdd; by right|intros; by apply addPrimitive_covers, Hc].
  - split_and!; [by apply addPrimitive_ok|constructor; apply elem_setAdd; by right|intros; by apply addPrimitive_covers, Hc].
  - split_and!; [by apply addLiteral_ok| |intros; apply addLiteral_covers; auto].
    constructor; [done|]. intros Hx. change (s ∈ stringLiterals (addLiteral s m)). rewrite (addLiteral_exact s m) by auto. apply elem_setAdd. by right.
Qed.

Lemma assoc_typesOf ps mk k o t : (k, o, t) ∈ typesOf ps mk → ∃ p, (k, p) ∈ ps ∧ o = isOptional p ∧ t = typeOf p mk.
Proof using Type. intros ([k' p] & [= -> -> ->] & Hp)%list_elem_of_fmap. by exists p. Qed.

Lemma elementSeen_present e : 0 < presenceCount e → elementSeen e = true.
Proof using Type. intros H. unfold elementSeen. by rewrite (proj2 (Nat.ltb_lt _ _) H). Qed.

(** A member of the union [typeOf] builds. *)
Lemma member_of n mk t :
  (∃ w, t = TKeyword w ∧ w ∈ primitiveTypes n ∧ w ≠ "string") ∨
  (hasStringType n = true ∧ if literalsListed n then ∃ s, t = TLiteral s ∧ s ∈ stringLiterals n else t = TKeyword "string") ∨
  (isObjectNode n = true ∧ t = if propertiesListed mk n then TObject (typesOf (objectProperties n) mk) else TKeyword "Record<string, any>") ∨
  (isArrayNode n = true ∧ ∃ e, arrayElementInfo n = Some e ∧ t = if elementSeen e then TArray (typeOf e MAX_KEYS) else TArray (TKeyword "any")) →
  t ∈ members n mk.
Proof using Type.
  unfold members. rewrite !elem_of_app. intros [(w & -> & Hw & Hs)|[[Hh H]|[[Hh ->]|[Hh (e & He & ->)]]]].
  - left. apply list_elem_of_fmap. exists w. split; [done|]. apply elem_of_filterb. split; [done|]. by apply negb_true_iff, eqs_false.
  - right; left. rewrite Hh. destruct (literalsListed n); [|subst; by left]. destruct H as (s & -> & Hs).
    apply list_elem_of_fmap. by exists s.
  - do 2 right; left. rewrite Hh. case_match; by left.
  - do 3 right. rewrite Hh, He. case_match; by left.
Qed.

Lemma typeOf_member n mk t v :
  fits exact t v →
  (∃ w, t = TKeyword w ∧ w ∈ primitiveTypes n ∧ w ≠ "string") ∨
  (hasStringType n = true ∧ if literalsListed n then ∃ s, t = TLiteral s ∧ s ∈ stringLiterals n else t = TKeyword "string") ∨
  (isObjectNode n = true ∧ t = if propertiesListed mk n then TObject (typesOf (objectProperties n) mk) else TKeyword "Record<string, any>") ∨
  (isArrayNode n = true ∧ ∃ e, arrayElementInfo n = Some e ∧ t = if elementSeen e then TArray (typeOf e MAX_KEYS) else TArray (TKeyword "any")) →
  fits exact (typeOf n mk) v.
Proof using Type. intros Ht H. rewrite typeOf_eq. apply (fits_union exact t); [by apply member_of|done]. Qed.

(** Every value a node covers has its member. *)
Lemma covered_members n mk v : covers n v → members n mk ≠ [].
Proof using Type.
  intros Hv. assert (∃ t, t ∈ members n mk) as [t Ht]; [|by intros E; rewrite E in Ht; apply elem_of_nil in Ht].
  destruct Hv as [n Hw|n b Hw|n z Hw|n Hw|n s Hh Hs|n l e Ha He _|n fs Ho _ _ _];
    [(eexists; apply member_of; left; by eexists)..| | |].
  - destruct (literalsListed n) eqn:E; [|eexists; apply member_of; right; left; by rewrite E].
    destruct (stringLiterals n) as [|x ls] eqn:El; [by unfold literalsListed in E; rewrite El in E|].
    exists (TLiteral x). apply member_of. right; left. rewrite E, El. split; [done|]. exists x. by split; [|left].
  - eexists. apply member_of. do 3 right. split; [done|]. by exists e.
  - eexists. apply member_of. do 2 right; left. by split.
Qed.

Lemma literalsListed_exact n : ok n → exact = true → stringLiterals n ≠ [] → literalsListed n = true.
Proof.
  intros Hok Hx Hne. destruct Hok as [n H1 _ _ _ _]. destruct (H1 Hx) as [Hnd Hsub]. destruct (L_short Hx) as [HL _].
  assert (length (stringLiterals n) ≤ length L) by (by apply NoDup_incl_length; [apply NoDup_ListNoDup|intros y ?%list_elem_of_In%Hsub; apply list_elem_of_In]).
  unfold literalsListed. rewrite andb_true_iff, !Nat.ltb_lt. destruct (stringLiterals n); [done|cbn in *; lia].
Qed.

Lemma typed v : json listable v → ∀ n mk, ok n → covers n v → fits exact (typeOf n mk) v.
Proof.
  induction 1 as [|b|z| |s Hs|l _ IH|fs Hnd _ IH]; intros n mk Hok Hv;
    inversion Hv as [| | | |n0 s0 Hh Hsl|n0 l0 e Ha He Hk|n0 fs0 Ho Hp Hk Hopt]; subst.
  - eapply typeOf_member; [constructor|left; by eexists].
  - eapply typeOf_member; [constructor|left; by eexists].
  - eapply typeOf_member; [constructor|left; by eexists].
  - eapply typeOf_member; [constructor|left; by eexists].
  - destruct (literalsListed n) eqn:E.
    + assert (∃ l, l ∈ stringLiterals n ∧ (exact = true → l = s)) as (l & Hl & He).
      { destruct exact; [by exists s; auto|]. unfold literalsListed in E. destruct (stringLiterals n) as [|l ?]; [done|].
        exists l. split; [left|done]. }
      eapply (typeOf_member n mk (TLiteral l)); [by constructor|]. right; left. rewrite E. split; [done|]. by exists l.
    + eapply (typeOf_member n mk (TKeyword "string")); [constructor|]. right; left. by rewrite E.
  - destruct (elementSeen e) eqn:E.
    + eapply (typeOf_member n mk (TArray (typeOf e MAX_KEYS))).
      * constructor. intros v Hin. apply IH; [done| |by apply Hk]. by destruct Hok as [n _ _ _ _ G5]; apply G5.
      * do 3 right. split; [done|]. exists e. by rewrite E.
    + eapply (typeOf_member n mk (TArray (TKeyword "any"))); [constructor; constructor|].
      do 3 right. split; [done|]. exists e. by rewrite E.
  - destruct (propertiesListed mk n) eqn:E.
    + eapply (typeOf_member n mk (TObject (typesOf (objectProperties n) mk))); [|do 2 right; left; by rewrite E].
      destruct (ok_props n Hok) as [G2 G3]. constructor.
      * intros k ([k' x] & -> & Hin)%list_elem_of_fmap. destruct (Hk k' x Hin) as (p & Hpk%assoc_elem & _).
        apply list_elem_of_fmap. exists (k', isOptional p). split; [done|]. apply list_elem_of_fmap.
        exists (k', isOptional p, typeOf p mk). split; [done|]. apply list_elem_of_fmap. by exists (k', p).
      * intros k o t v (p & Hpk & -> & ->)%assoc_typesOf Hx%assoc_elem. apply elem_assoc in Hpk; [|done].
        destruct (Hk k v Hx) as (p' & Hp' & Hc). rewrite Hpk in Hp'. injection Hp' as <-. apply (IH k v Hx p mk); [by eapply G3|done].
      * intros k o t (p & Hpk & -> & ->)%assoc_typesOf Hx. apply elem_assoc in Hpk; [|done]. by eapply Hopt.
    + eapply (typeOf_member n mk (TKeyword "Record<string, any>")); [constructor|]. do 2 right; left. by rewrite E.
Qed.

(** ** All the objects *)

Definition tops (nodes : list (string * TypeInfoNode)) : Prop :=
  NoDup nodes.*1 ∧ ∀ k n, assoc k nodes = Some n → ok n ∧ 0 < presenceCount n.

Definition known (nodes : list (string * TypeInfoNode)) (k : string) (v : value) : Prop :=
  ∃ n, assoc k nodes = Some n ∧ covers n v.

Lemma visit_tops k v nodes :
  json listable v → tops nodes →
  tops (visit k (aggregateTypeInfo v 1) nodes) ∧ known (visit k (aggregateTypeInfo v 1) nodes) k v ∧
  ∀ k' w, known nodes k' w → known (visit k (aggregateTypeInfo v 1) nodes) k' w.
Proof.
  intros Hv [Hnd Ht]. set (n0 := default createTypeInfoNode (assoc k nodes)).
  assert (ok n0) as H0.
  { unfold n0. destruct (assoc k nodes) as [n|] eqn:E; [by apply (Ht k n)|apply ok_create]. }
  destruct (json_seen v Hv 1 n0 H0) as (H1 & H2 & H3). unfold known. split_and!; [split| |].
  - by apply upsert_nodup.
  - intros k' n. unfold visit. rewrite assoc_upsert. destruct (eqs k' k); [|by apply Ht]. intros [= <-]. split; [done|].
    destruct (aggregate_counts v 1 n0). fold n0. lia.
  - exists (aggregateTypeInfo v 1 n0). by unfold visit; rewrite assoc_upsert, eqs_refl.
  - intros k' w (n & Hn & Hw). unfold visit. rewrite assoc_upsert. destruct (eqs k' k) eqn:E; [|by exists n]. apply eqs_true in E as ->.
    eexists. split; [done|]. fold n0. apply H3. unfold n0. by rewrite Hn.
Qed.

Lemma object_tops fs nodes :
  (∀ k v, (k, v) ∈ fs → json listable v) → tops nodes →
  tops (aggregateObject nodes (VObj fs)) ∧ (∀ k v, (k, v) ∈ fs → known (aggregateObject nodes (VObj fs)) k v) ∧
  ∀ k' w, known nodes k' w → known (aggregateObject nodes (VObj fs)) k' w.
Proof.
  cbn [aggregateObject]. revert nodes. induction fs as [|[k x] fs IH]; intros nodes Hj Ht; cbn [foldl fst snd].
  { split_and!; [done|by intros ? ? []%elem_of_nil|done]. }
  destruct (visit_tops k x nodes) as (H1 & H2 & H3); [by apply (Hj k); left|done|].
  destruct (IH (visit k (aggregateTypeInfo x 1) nodes)) as (H4 & H5 & H6); [by intros; apply (Hj k0); right|done|].
  split_and!; [done| |by auto]. intros k' v [[= -> ->]|Hin]%elem_of_cons; auto.
Qed.

Lemma objects_tops objs nodes :
  Forall (json listable) objs → tops nodes →
  tops (foldl aggregateObject nodes objs) ∧
  (∀ fs k v, VObj fs ∈ objs → (k, v) ∈ fs → known (foldl aggregateObject nodes objs) k v) ∧
  ∀ k w, known nodes k w → known (foldl aggregateObject nodes objs) k w.
Proof.
  revert nodes. induction objs as [|o objs IH]; intros nodes Hj Ht; cbn [foldl].
  { split_and!; [done|by intros ? ? ? []%elem_of_nil|done]. }
  apply Forall_cons in Hj as [Ho Hj].
  assert (tops (aggregateObject nodes o) ∧ (∀ fs k v, o = VObj fs → (k, v) ∈ fs → known (aggregateObject nodes o) k v) ∧
          ∀ k w, known nodes k w → known (aggregateObject nodes o) k w) as (H1 & H2 & H3).
  { destruct Ho as [| | | | | |fs Hnd Hfs]; [split; [exact Ht|split; [intros ? ? ? E; discriminate E|intros ? ? Hw; exact Hw]]..|].
    destruct (object_tops fs nodes Hfs Ht) as (G1 & G2 & G3).
    split; [exact G1|]. split; [|exact G3]. intros fs' k v E. injection E as <-. apply G2. }
  destruct (IH (aggregateObject nodes o) Hj H1) as (H4 & H5 & H6). split_and!; [done| |by auto].
  intros fs k v [<-|Hin]%elem_of_cons Hk; [|by eauto]. apply H6. by eapply H2.
Qed.

Lemma typeOf_setParent n a mk : typeOf (setParent a n) mk = typeOf n mk.
Proof using Type. by rewrite !typeOf_eq. Qed.

Definition declsOf (nodes : list (string * TypeInfoNode)) (mk : nat) : list (string * Ty) :=
  (λ p, (p.1, typeOf p.2 mk)) <$> filterb (λ p, validIdentifier p.1) nodes.

Lemma declarations_text nodes mk :
  (∀ k n, (k, n) ∈ nodes → 0 < presenceCount n) → nodes ≫= declaration mk = declareVar <$> declsOf nodes mk.
Proof using Type.
  unfold declsOf, filterb. induction nodes as [|[k n] nodes IH]; intros Hp; [done|]. cbn [mbind list_bind List.filter fst].
  rewrite IH by (intros k' n' Hin; eapply Hp; right; exact Hin). unfold declaration. cbn [fst snd].
  destruct (validIdentifier k); [|done]. rewrite generateTypeString_print, typeOf_setParent.
  assert (Nat.ltb 0 (presenceCount (setParent (presenceCount n) n)) = true) as ->.
  { apply Nat.ltb_lt. cbn. apply (Hp k n). left. }
  by rewrite orb_true_r.
Qed.

Lemma filterb_fst_nodup {A} (p : string * A → bool) (l : list (string * A)) : NoDup l.*1 → NoDup (filterb p l).*1.
Proof using Type.
  induction l as [|[k x] l IH]; [done|]. cbn. intros [Hn Hnd]%NoDup_cons. unfold filterb in *. cbn [List.filter].
  destruct (p (k, x)); [|auto]. cbn. apply NoDup_cons. split; [|auto]. intros (y & -> & Hy)%list_elem_of_fmap.
  apply Hn, list_elem_of_fmap. exists y. split; [done|]. by apply (elem_of_filterb p) in Hy as [].
Qed.

Lemma declared objs mk :
  Forall (json listable) objs →
  (∀ k n, (k, n) ∈ foldl aggregateObject [] objs → 0 < presenceCount n) ∧ NoDup (foldl aggregateObject [] objs).*1 ∧
  (∀ k n v, (k, n) ∈ foldl aggregateObject [] objs → heldUnder objs k v → fits exact (typeOf n mk) v ∧ members n mk ≠ []) ∧
  ∀ k v, heldUnder objs k v → ∃ n, (k, n) ∈ foldl aggregateObject [] objs.
Proof.
  intros Hj. destruct (objects_tops objs [] Hj) as ([Hnd Ht] & Hk & _); [split; [constructor|done]|].
  set (nodes := foldl aggregateObject [] objs) in *. split_and!.
  - intros k n Hin%elem_assoc; [|done]. by apply (Ht k).
  - done.
  - intros k n v Hin%elem_assoc (fs & Hfs & Hkv); [|done]. destruct (Hk fs k v Hfs Hkv) as (n' & Hn & Hc). rewrite Hin in Hn. injection Hn as <-.
    assert (json listable v) as Hv. { apply (proj1 (Forall_forall _ _) Hj) in Hfs. inversion Hfs as [| | | | | |fs0 Hn0 Hv]; subst. by eapply Hv. }
    split; [apply typed; [done|by apply (Ht k)|done]|]. by eapply covered_members.
  - intros k v (fs & Hfs & Hkv). destruct (Hk fs k v Hfs Hkv) as (n & Hn & _). exists n. by apply assoc_elem.
Qed.
End seen.

(** ** Every member is of a value that was seen *)

Definition drawn (V : value → Prop) (n : TypeInfoNode) : Prop :=
  (∀ w, w ∈ primitiveTypes n → w ≠ "string" → ∃ v, V v ∧ sortOf (TKeyword w) v) ∧
  (hasStringType n = true → ∃ s, V (VStr s)) ∧ (∀ s, s ∈ stringLiterals n → V (VStr s)) ∧
  (isObjectNode n = true → ∃ fs, V (VObj fs)) ∧ (isArrayNode n = true → ∃ l, V (VArr l)).

Lemma drawn_create V : drawn V createTypeInfoNode.
Proof. split_and!; cbn; try done; by intros ? ?%elem_of_nil. Qed.

Lemma drawn_aggregate V v parent n : V v → drawn V n → drawn V (aggregateTypeInfo v parent n).
Proof.
  intros Hv (H1 & H2 & H3 & H4 & H5).
  destruct v; cbn [aggregateTypeInfo]; split_and!; cbn; try done; try (by eauto);
    try (intros w [Hw| ->]%elem_setAdd ?; [by apply H1|]; first [done|by eexists; split; [exact Hv|constructor]]).
  intros x. repeat case_match; [intros [Hx| ->]%elem_setAdd; [by apply H3|done]|apply H3|by intros ?%elem_of_nil].
Qed.

Lemma drawn_mono (V V' : value → Prop) n : (∀ v, V v → V' v) → drawn V n → drawn V' n.
Proof. intros H (H1 & H2 & H3 & H4 & H5). split_and!; naive_solver. Qed.

Lemma drawn_member V n mk m : drawn V n → m ∈ members n mk → ∃ v, V v ∧ sortOf m v.
Proof.
  intros (H1 & H2 & H3 & H4 & H5). unfold members. rewrite !elem_of_app. intros [Hm|[Hm|[Hm|Hm]]].
  - apply list_elem_of_fmap in Hm as (w & -> & [Hw Hs]%elem_of_filterb). apply H1; [done|]. by apply eqs_false, negb_true_iff.
  - destruct (hasStringType n); [|by apply elem_of_nil in Hm]. destruct (literalsListed n).
    + apply list_elem_of_fmap in Hm as (x & -> & Hx). exists (VStr x). split; [by apply H3|constructor].
    + apply list_elem_of_singleton in Hm as ->. destruct (H2 eq_refl) as [x Hx]. exists (VStr x). split; [done|constructor].
  - destruct (isObjectNode n); [|by apply elem_of_nil in Hm]. destruct (H4 eq_refl) as [fs Hfs]. exists (VObj fs). split; [done|].
    case_match; apply list_elem_of_singleton in Hm as ->; constructor.
  - destruct (isArrayNode n); [|by apply elem_of_nil in Hm]. destruct (H5 eq_refl) as [l Hl]. exists (VArr l). split; [done|].
    repeat case_match; apply list_elem_of_singleton in Hm as ->; constructor.
Qed.

Lemma member_object n mk ps : TObject ps ∈ members n mk → ps = typesOf (objectProperties n) mk.
Proof.
  unfold members. rewrite !elem_of_app. intros [Hm|[Hm|[Hm|Hm]]].
  - by apply list_elem_of_fmap in Hm as (w & [=] & _).
  - destruct (hasStringType n); [|by apply elem_of_nil in Hm]. destruct (literalsListed n); [by apply list_elem_of_fmap in Hm as (x & [=] & _)|].
    by apply list_elem_of_singleton in Hm as [=].
  - destruct (isObjectNode n); [|by apply elem_of_nil in Hm]. case_match; by apply list_elem_of_singleton in Hm as [= ->].
  - destruct (isArrayNode n); [|by apply elem_of_nil in Hm]. repeat case_match; by apply list_elem_of_singleton in Hm as [=].
Qed.

(** A value that is no object with the key. *)
Definition lacks (k : string) (v : value) : Prop := ∀ fs, v = VObj fs → k ∉ fs.*1.

(** A property was there less often than anything only if some value lacks it. *)
Definition spare (V : value → Prop) (n : TypeInfoNode) : Prop :=
  ∀ k, default 0 (presenceCount <$> assoc k (objectProperties n)) < presenceCount n → ∃ v, V v ∧ lacks k v.
Definition below (n : TypeInfoNode) : Prop := ∀ k p, assoc k (objectProperties n) = Some p → parentObjectCount p ≤ presenceCount n.

Lemma aggregate_same_properties v parent n k :
  (∀ fs, v ≠ VObj fs) → assoc k (objectProperties (aggregateTypeInfo v parent n)) = assoc k (objectProperties n).
Proof. intros H. destruct v; try done. by destruct (H fields). Qed.

Lemma spare_aggregate V v parent n :
  V v → (∀ fs, v = VObj fs → NoDup fs.*1) → spare V n ∧ below n → spare V (aggregateTypeInfo v parent n) ∧ below (aggregateTypeInfo v parent n).
Proof.
  intros Hv Hd [Hs Hb]. unfold spare, below. destruct (aggregate_counts v parent n) as [-> _].
  assert ((∀ fs, v ≠ VObj fs) ∨ ∃ fs, v = VObj fs) as [Hno|[fs ->]] by (destruct v; eauto; left; done).
  - setoid_rewrite aggregate_same_properties; [|done..]. split; [|intros k p Hp; specialize (Hb k p Hp); lia].
    intros k _. exists v. split; [done|]. intros fs ->. by destruct (Hno fs).
  - specialize (Hd fs eq_refl). split; intros k; rewrite assoc_properties by done; destruct (assoc k fs) as [x|] eqn:E.
    + cbn. destruct (aggregate_counts x (S (presenceCount n)) (default createTypeInfoNode (assoc k (objectProperties n)))) as [-> _].
      intros H. apply Hs. destruct (assoc k (objectProperties n)); cbn in *; lia.
    + intros _. exists (VObj fs). split; [done|]. intros fs' [= <-]. by apply assoc_None.
    + intros p [= <-]. by destruct (aggregate_counts x (S (presenceCount n)) (default createTypeInfoNode (assoc k (objectProperties n)))) as [_ ->].
    + intros p (q & Hq & ->)%fmap_Some. cbn. lia.
Qed.

Lemma spare_optional V n k p : spare V n → below n → assoc k (objectProperties n) = Some p → isOptional p = true → ∃ v, V v ∧ lacks k v.
Proof. intros Hs Hb Hp Ho%isOptional_lt. apply Hs. specialize (Hb k p Hp). rewrite Hp. cbn. lia. Qed.

Definition sourced (U : string → value → Prop) (nodes : list (string * TypeInfoNode)) : Prop :=
  ∀ k n, assoc k nodes = Some n → (∃ v, U k v) ∧ drawn (U k) n ∧ spare (U k) n ∧ below n ∧ NoDup (objectProperties n).*1.

Lemma sourced_visit U k v nodes :
  U k v → (∀ fs, v = VObj fs → NoDup fs.*1) → sourced U nodes → sourced U (visit k (aggregateTypeInfo v 1) nodes).
Proof.
  intros Hu Hd H k' n. unfold visit. rewrite assoc_upsert. destruct (eqs k' k) eqn:E; [|by apply H]. apply eqs_true in E as ->.
  intros [= <-]. split; [by exists v|].
  assert (∃ m, default createTypeInfoNode (assoc k nodes) = m ∧ drawn (U k) m ∧ (spare (U k) m ∧ below m) ∧ NoDup (objectProperties m).*1) as (m & -> & Hdr & Hsp & Hnd).
  { eexists. split; [done|]. destruct (assoc k nodes) as [m|] eqn:Em; [by destruct (H k m Em) as (_ & ? & ? & ? & ?)|].
    split; [apply drawn_create|]. split; [|constructor]. split; [intros ?; cbn; lia|done]. }
  destruct (spare_aggregate (U k) v 1 m Hu Hd Hsp) as [Hs Hb]. split_and!; [by apply drawn_aggregate|done..|].
  assert ((∃ fs, v = VObj fs) ∨ objectProperties (aggregateTypeInfo v 1 m) = objectProperties m) as [[fs ->]| ->]; [destruct v; eauto| |done].
  rewrite aggregate_obj. cbn. rewrite <-list_fmap_compose.
  rewrite (list_fmap_ext _ fst); [by apply visitAll_nodup|]. intros i [k0 p] _. cbn. by destruct (hasKey k0 fs).
Qed.

Lemma sourced_objects U objs nodes :
  Forall (json (λ _, True)) objs → (∀ k v, heldUnder objs k v → U k v) → sourced U nodes → sourced U (foldl aggregateObject nodes objs).
Proof.
  intros Hj. revert nodes. induction Hj as [|o objs Ho Hj IH]; intros nodes HU H; [done|]. cbn [foldl]. apply IH.
  { intros k v (fs & Hfs & Hkv). apply HU. exists fs. by split; [right|]. }
  destruct o as [| | | | | | |fs]; try exact H. assert (∀ k v, (k, v) ∈ fs → U k v ∧ ∀ gs, v = VObj gs → NoDup gs.*1) as Hfs.
  { intros k v Hkv. split; [apply HU; exists fs; by split; [left|]|]. intros gs ->. inversion Ho as [| | | | | |fs0 _ Hv]; subst.
    specialize (Hv k _ Hkv). by inversion Hv. }
  clear IH HU Ho. cbn [aggregateObject]. revert nodes H. induction fs as [|[k v] fs IH]; intros nodes H; [done|]. cbn [foldl fst snd].
  apply IH; [by intros k' v' ?; apply Hfs; right|]. apply sourced_visit; [by apply (Hfs k v); left|by apply (Hfs k v); left|done].
Qed.

Lemma json_mono (P Q : string → Prop) v : (∀ s, P s → Q s) → json P v → json Q v.
Proof. intros H. induction 1; constructor; auto. Qed.

(** The declarations, and their text. *)
Definition declarations (objs : list value) (mk : nat) : list (string * Ty) :=
  declsOf (merge_sort nodeKeyLe (foldl aggregateObject [] objs)) mk.

Lemma declarations_elem objs mk k t :
  (k, t) ∈ declarations objs mk ↔ validIdentifier k = true ∧ ∃ n, (k, n) ∈ foldl aggregateObject [] objs ∧ t = typeOf n mk.
Proof.
  assert (merge_sort nodeKeyLe (foldl aggregateObject [] objs) ≡ₚ foldl aggregateObject [] objs) as HP by apply merge_sort_Permutation.
  unfold declarations, declsOf. rewrite list_elem_of_fmap. split.
  - intros ([k' n] & [= -> ->] & [Hin Hv]%elem_of_filterb). rewrite HP in Hin. split; [done|]. by exists n.
  - intros (Hv & n & Hin & ->). exists (k, n). split; [done|]. apply elem_of_filterb. by rewrite HP.
Qed.

Lemma declarations_printed objs mk :
  (∀ k n, (k, n) ∈ foldl aggregateObject [] objs → 0 < presenceCount n) →
  generateGlobalVarDeclarations objs mk = join (newline +:+ newline) (declareVar <$> declarations objs (default MAX_KEYS mk)).
Proof.
  intros Hp. unfold generateGlobalVarDeclarations, declarations.
  assert (merge_sort nodeKeyLe (foldl aggregateObject [] objs) ≡ₚ foldl aggregateObject [] objs) as HP by apply merge_sort_Permutation.
  destruct (some isPlainObject objs) eqn:E; cbn [negb].
  - f_equal. apply declarations_text. intros k n Hin. rewrite HP in Hin. by apply (Hp k).
  - assert (foldl aggregateObject [] objs = []) as ->; [|done]. clear Hp HP. induction objs as [|o objs IH]; [done|].
    cbn in E. apply orb_false_iff in E as [Eo E]. by destruct o; [apply IH..|].
Qed.


Definition twoObjects : list value :=
  [VObj [("kind", VStr "Pod"); ("spec", VObj [("replicas", VNum 1)])];
   VObj [("kind", VStr "Job"); ("spec", VObj [("args", VArr [VStr "a"; VNull])])]].

Ltac prove_json :=
  lazymatch goal with
  | |- Forall _ [] => constructor
  | |- Forall _ (_ :: _) => constructor; prove_json
  | |- json _ (VObj _) =>
      apply json_obj;
      [by_decide|
       let H := fresh in intros ? ? H;
       repeat (apply elem_of_cons in H as [[= -> ->]|H]; [prove_json|]); by apply elem_of_nil in H]
  | |- json _ (VArr _) =>
      apply json_arr;
      let H := fresh in intros ? H; repeat (apply elem_of_cons in H as [->|H]; [prove_json|]); by apply elem_of_nil in H
  | |- json _ (VStr _) => apply json_str; first [exact I|by_decide]
  | _ => constructor
  end.


(** Of the strings under a key the long ones are not listed, nor those before the
    two hundredth. *)
Example long_kind_not_declared :
  generateGlobalVarDeclarations [VObj [("kind", VStr "Pod")]; VObj [("kind", VStr "HorizontalPodAutoscaler")]] None =
  "declare var kind: " +:+ quote +:+ "Pod" +:+ quote +:+ ";".
Proof. by vm_compute. Qed.

Example literals_start_again :
  generateGlobalVarDeclarations ((λ i, VObj [("n", VStr (pretty i))]) <$> seq 0 202) None =
  "declare var n: " +:+ quote +:+ "201" +:+ quote +:+ ";".
Proof. by vm_compute. Qed.

Example declared_two :
  generateGlobalVarDeclarations
    [VObj [("kind", VStr "Pod"); ("spec", VObj [("replicas", VNum 1)])];
     VObj [("kind", VStr "Job"); ("spec", VObj [("args", VArr [VStr "a"; VNull])])]] None =
  "declare var kind: " +:+ quote +:+ "Job" +:+ quote +:+ " | " +:+ quote +:+ "Pod" +:+ quote +:+ ";" +:+ newline +:+ newline +:+
  "declare var spec: {" +:+ newline +:+ "  args?: (" +:+ quote +:+ "a" +:+ quote +:+ " | null)[];" +:+ newline +:+
  "  replicas?: number;" +:+ newline +:+ "};".
Proof. by vm_compute. Qed.
