(* ===== verification/Traffic.v ===== *)
(** * The traffic of the resource graph

    pages/resource-graph/traffic.ts: where the ends of each line go on the graph,
    and the rows of ports in the boxes lines arrive at.  Counts are integers; an
    absent text and the empty one are the same here, as both are falsy.  The width
    of an edge (a logarithm) and the curves' geometry are left out.

    [localeCompare] is the browser's collation. *)

From S2P Require Import Prelude JsString OrderedMap Sums Json.

(** ** Lines *)

Record TrafficEnd := { namespace : string; kind : string; name : string; outside : string; unnamed : bool }.

Record Port := { protocol : option string; port : option Z; p_allowed : option Z; p_dropped : option Z }.

(** Of a connection, the addresses of its two ends. *)
Record Connection := { source_ip : string; destination_ip : string }.

Record TrafficLine := {
  from : TrafficEnd; to : TrafficEnd; allowed : Z; dropped : Z; ports : list Port; connections : list Connection }.

Inductive TrafficSource := Relay | Hour | Day.

(** What the features and the cluster say: flows of its relay, metrics enabled. *)
Definition trafficSources (networkFlows prometheusEnabled prometheusAvailable : bool) : list TrafficSource :=
  (if networkFlows then [Relay] else []) ++ (if prometheusEnabled && prometheusAvailable then [Hour; Day] else []).

Definition trafficParams (source : TrafficSource) : string * option string :=
  match source with Relay => ("relay", None) | Hour => ("metrics", Some "1h") | Day => ("metrics", Some "24h") end.

Inductive LineState := Allowed | Dropped | Mixed.

Definition lineStateOf (allowed dropped : Z) : LineState :=
  if (0 <? dropped)%Z then if (0 <? allowed)%Z then Mixed else Dropped else Allowed.

Definition lineState (l : TrafficLine) : LineState := lineStateOf (allowed l) (dropped l).

(** ** Ends on the graph *)

Record GraphNode := { n_id : string; n_kind : string; n_namespace : string; n_group : bool; n_members : list string }.

Record PeerNode := { peer_id : string; peer_name : string; peer_namespace : string; peer_end : TrafficEnd }.

Definition END_KINDS : list string := ["Pod"; "Deployment"; "StatefulSet"; "DaemonSet"; "ReplicaSet"; "Job"; "CronJob"].

Definition nodeId (kind namespace name : string) : string := kind +:+ "/" +:+ namespace +:+ "/" +:+ name.

(** The node of the end among the kinds looked for. *)
Fixpoint shownAs (shown : list (string * GraphNode)) (inGroup : list (string * string)) (e : TrafficEnd) (kinds : list string) : option string :=
  match kinds with
  | [] => None
  | kind :: kinds' =>
      let id := nodeId kind (namespace e) (name e) in
      if hasKey id shown then Some id else
      match assoc id inGroup with
      | Some group => if nonempty group && hasKey group shown then Some group else shownAs shown inGroup e kinds'
      | None => shownAs shown inGroup e kinds'
      end
  end.

Definition peer (id name namespace : string) (e : TrafficEnd) : string * option PeerNode :=
  (id, Some {| peer_id := id; peer_name := name; peer_namespace := namespace; peer_end := e |}).

Definition anchorOf (e : TrafficEnd) (shown : list (string * GraphNode)) (inGroup : list (string * string)) : string * option PeerNode :=
  if nonempty (namespace e) && nonempty (name e) then
    match shownAs shown inGroup e (if nonempty (kind e) then [kind e] else END_KINDS) with
    | Some id => (id, None)
    | None => peer ("traffic:" +:+ namespace e +:+ "/" +:+ kind e +:+ "/" +:+ name e) (name e) (namespace e) e
    end
  else if nonempty (namespace e) then peer ("traffic:ns:" +:+ namespace e) (namespace e) (namespace e) e
  else if unnamed e then peer "traffic:unnamed" "not named" "" e
  else
    let out := if nonempty (outside e) then outside e else "unknown" in
    peer ("traffic:out:" +:+ out) out "" e.

Record TrafficEdge := { id : string; source : string; target : string; line : TrafficLine; state : LineState }.

Definition groupsOf (shown : list (string * GraphNode)) : list (string * string) :=
  foldl (λ m f, let n := f.2 in
    if n_group n then foldl (λ m member, upsert "" (nodeId (n_kind n) (n_namespace n) member) (λ _, n_id n) m) m (n_members n) else m)
    [] shown.

Record Built := { peers : list (string * PeerNode); edges : list TrafficEdge; selfLoops : nat }.

Definition addPeer (a : string * option PeerNode) (peers : list (string * PeerNode)) : list (string * PeerNode) :=
  match a.2 with
  | Some p => if hasKey a.1 peers then peers else upsert p a.1 (λ p, p) peers
  | None => peers
  end.

Definition placeLine (shown : list (string * GraphNode)) (inGroup : list (string * string)) (b : Built) (il : nat * TrafficLine) : Built :=
  let l := il.2 in
  let f := anchorOf (from l) shown inGroup in
  let t := anchorOf (to l) shown inGroup in
  if eqs f.1 t.1 then {| peers := peers b; edges := edges b; selfLoops := S (selfLoops b) |} else
  {| peers := addPeer t (addPeer f (peers b));
     edges := edges b ++ [{| id := "traffic-" +:+ pretty il.1; source := f.1; target := t.1; line := l; state := lineState l |}];
     selfLoops := selfLoops b |}.

Definition buildTraffic (lines : list TrafficLine) (shown : list (string * GraphNode)) : Built :=
  foldl (placeLine shown (groupsOf shown)) {| peers := []; edges := []; selfLoops := 0 |} (imap pair lines).

(** ** What a line says *)

Definition endText (e : TrafficEnd) : string :=
  if nonempty (namespace e) && nonempty (name e) then namespace e +:+ "/" +:+ name e
  else if unnamed e then "not named"
  else if nonempty (namespace e) then namespace e else if nonempty (outside e) then outside e else "unknown".

Definition openableEnd (e : TrafficEnd) : bool :=
  nonempty (kind e) && nonempty (name e) && nonempty (namespace e) && bool_decide (kind e ∈ END_KINDS).

Definition CHECK_KINDS : list (string * string) :=
  [("Pod", "pod"); ("Deployment", "deployment"); ("StatefulSet", "statefulset"); ("DaemonSet", "daemonset")].

Definition checkable (e : TrafficEnd) : bool :=
  nonempty (namespace e) && nonempty (name e) && nonempty (kind e) && hasKey (kind e) CHECK_KINDS.

(** The other end of a check: by kind, or an address. *)
Inductive OtherEnd := OfKind (kind namespace name : string) | OfAddress (ip : string).

Record LineCheck := {
  self : string; selfName : string; c_namespace : string; outgoing : bool; c_port : option string; c_protocol : option string;
  other : OtherEnd }.

Definition checkKind (e : TrafficEnd) : string := default "" (assoc (kind e) CHECK_KINDS).

Definition checkSide (port protocol : option string) (self other : TrafficEnd) (outgoing : bool) (otherIP : string) : option LineCheck :=
  if negb (checkable self) then None else
  let check o :=
    Some {| self := checkKind self +:+ "/" +:+ namespace self +:+ "/" +:+ name self; selfName := name self; c_namespace := namespace self;
            outgoing := outgoing; c_port := port; c_protocol := protocol; other := o |} in
  if checkable other then check (OfKind (checkKind other) (namespace other) (name other))
  else if nonempty (outside other) && nonempty otherIP then check (OfAddress otherIP)
  else None.

Definition checkFor (l : TrafficLine) : option LineCheck :=
  if (dropped l =? 0)%Z then None else
  let one := match ports l with [p] => Some p | _ => None end in
  let port := p ← one; n ← port p; if (n =? 0)%Z then None else Some (pretty n) in
  let proto := p ← one; s ← protocol p; if bool_decide (s ∈ ["TCP"; "UDP"; "SCTP"]) then Some s else None in
  let conn := head (connections l) in
  match checkSide port proto (from l) (to l) true (from_option destination_ip "" conn) with
  | Some c => Some c
  | None => checkSide port proto (to l) (from l) false (from_option source_ip "" conn)
  end.

Definition portName (p : Port) : string :=
  let n := from_option pretty "" (port p) in
  match protocol p with
  | Some s => if nonempty s && negb (eqs s "TCP") then trim (s +:+ " " +:+ n) else n
  | None => n
  end.

Definition portText (ports : list Port) : string :=
  let names := filterb nonempty (portName <$> ports) in
  if Nat.leb (length names) 2 then join ", " names else default "" (head names) +:+ " +" +:+ pretty (length names - 1).

(** ** Rows of ports *)

Definition BOX_HEIGHT : nat := 60.
Definition ROW_HEIGHT : nat := 18.
Definition ROWS_PADDING : nat := 6.
Definition MAX_ROWS : nat := 6.
Definition MORE_ROW : string := "more".

Record PortRow := { key : string; text : string; r_allowed : Z; r_dropped : Z }.

Record PortEdge := {
  e_id : string; e_source : string; e_target : string; e_line : TrafficLine; e_state : LineState;
  lineId : string; row : option string; rowText : option string; e_allowed : Z; e_dropped : Z }.

Definition rowKey (p : Port) : string := default "" (protocol p) +:+ "/" +:+ pretty (default 0%Z (port p)).

Definition rowTextOf (p : Port) : string :=
  join " " (filterb nonempty [default "" (protocol p); match port p with Some n => if (n =? 0)%Z then "" else pretty n | None => "" end]).

Definition boxHeight (rows : nat) : nat := if Nat.ltb 0 rows then BOX_HEIGHT + rows * ROW_HEIGHT + ROWS_PADDING else BOX_HEIGHT.

(** Twice the height of a row's middle. *)
Definition rowCenter2 (i : nat) : nat := 2 * BOX_HEIGHT + ROWS_PADDING + 2 * i * ROW_HEIGHT + ROW_HEIGHT.

Definition portAllowed (p : Port) : Z := default 0%Z (p_allowed p).
Definition portDropped (p : Port) : Z := default 0%Z (p_dropped p).

Definition newRow (p : Port) : PortRow := {| key := rowKey p; text := rowTextOf p; r_allowed := 0; r_dropped := 0 |}.
Definition addToRow (p : Port) (r : PortRow) : PortRow :=
  {| key := key r; text := text r; r_allowed := r_allowed r + portAllowed p; r_dropped := r_dropped r + portDropped p |}.

Definition boxMap := list (string * PortRow).

Definition addPort (target : string) (perBox : list (string * boxMap)) (p : Port) : list (string * boxMap) :=
  upsert [] target (upsert (newRow p) (rowKey p) (addToRow p)) perBox.

Definition perBoxOf (edges : list TrafficEdge) : list (string * boxMap) :=
  foldl (λ perBox e, foldl (addPort (target e)) perBox (ports (line e))) [] edges.

Section rows.
Context (localeCompare : string → string → Z).

(** Busiest first. *)
Definition busier (a b : PortRow) : Z :=
  let d := (r_allowed b + r_dropped b - (r_allowed a + r_dropped a))%Z in
  if negb (d =? 0)%Z then d else localeCompare (key a) (key b).

(** The number of a row's port, which its key ends with. *)
Definition keyPort (k : string) : Z := default 0%Z (parseNumber (default "" (nth_error (split "/" k) 1))).

Definition rowOrder (a b : PortRow) : Z :=
  let rank r := if eqs (key r) MORE_ROW then (2%Z, "", 0%Z) else (0%Z, default "" (head (split "/" (key r))), keyPort (key r)) in
  let d := ((rank a).1.1 - (rank b).1.1)%Z in
  if negb (d =? 0)%Z then d else
  let c := localeCompare (rank a).1.2 (rank b).1.2 in
  if negb (c =? 0)%Z then c else ((rank a).2 - (rank b).2)%Z.

Definition sumRows (f : PortRow → Z) (l : list PortRow) : Z := foldl (λ n r, n + f r)%Z 0%Z l.

(** The rows of a box, and the row each port key is counted in. *)
Definition boxRows (byKey : boxMap) : list PortRow * list (string * string) :=
  let list_ := byKey.*2 in
  if Nat.ltb MAX_ROWS (length list_) then
    let busiest := take (MAX_ROWS - 1) (sortBy busier list_) in
    let kept := key <$> busiest in
    let rest := filterb (λ r, negb (bool_decide (key r ∈ kept))) list_ in
    (sortBy rowOrder (busiest ++ [{| key := MORE_ROW; text := "+" +:+ pretty (length rest);
                                     r_allowed := sumRows r_allowed rest; r_dropped := sumRows r_dropped rest |}]),
     foldl (λ m r, upsert "" (key r) (λ _, if bool_decide (key r ∈ kept) then key r else MORE_ROW) m) [] list_)
  else
    (sortBy rowOrder list_, foldl (λ m r, upsert "" (key r) (λ _, key r) m) [] list_).

Definition newShare (e : TrafficEdge) (rows : list PortRow) (row : string) (p : Port) : PortEdge :=
  {| e_id := id e +:+ ":" +:+ row; e_source := source e; e_target := target e; e_line := line e; e_state := state e;
     lineId := id e; row := Some row;
     rowText := Some (if eqs row MORE_ROW then from_option text "" (find (λ r, eqs (key r) MORE_ROW) rows) else rowTextOf p);
     e_allowed := 0; e_dropped := 0 |}.

Definition addToShare (p : Port) (s : PortEdge) : PortEdge :=
  {| e_id := e_id s; e_source := e_source s; e_target := e_target s; e_line := e_line s; e_state := e_state s; lineId := lineId s;
     row := row s; rowText := rowText s; e_allowed := e_allowed s + portAllowed p; e_dropped := e_dropped s + portDropped p |}.

(** The edges of a line. *)
Definition splitEdge (rows : list (string * list PortRow)) (rowOf : list (string * list (string * string))) (e : TrafficEdge) : list PortEdge :=
  match ports (line e) with
  | [] => [{| e_id := id e; e_source := source e; e_target := target e; e_line := line e; e_state := state e; lineId := id e;
              row := None; rowText := None; e_allowed := allowed (line e); e_dropped := dropped (line e) |}]
  | _ =>
      (foldl (λ shares p,
         let row := default "" (assoc (rowKey p) (default [] (assoc (target e) rowOf))) in
         upsert (newShare e (default [] (assoc (target e) rows)) row p) row (addToShare p) shares) [] (ports (line e))).*2
  end.

Definition settleEdge (e : PortEdge) : PortEdge :=
  {| e_id := e_id e; e_source := e_source e; e_target := e_target e; e_line := e_line e;
     e_state := lineStateOf (e_allowed e) (e_dropped e);
     lineId := lineId e; row := row e; rowText := rowText e; e_allowed := e_allowed e; e_dropped := e_dropped e |}.

Definition rowsOf (edges : list TrafficEdge) : list (string * list PortRow) :=
  (λ b, (b.1, (boxRows b.2).1)) <$> perBoxOf edges.
Definition rowOfs (edges : list TrafficEdge) : list (string * list (string * string)) :=
  (λ b, (b.1, (boxRows b.2).2)) <$> perBoxOf edges.

Definition byPort (edges : list TrafficEdge) : list PortEdge * list (string * list PortRow) :=
  (settleEdge <$> (edges ≫= splitEdge (rowsOf edges) (rowOfs edges)), rowsOf edges).
End rows.

Definition podEnd (n : string) : TrafficEnd := {| namespace := "shop"; kind := "Pod"; name := n; outside := ""; unnamed := false |}.
Definition tcp (p a d : Z) : Port := {| protocol := Some "TCP"; port := Some p; p_allowed := Some a; p_dropped := Some d |}.
Definition podNode (n : string) : string * GraphNode :=
  (nodeId "Pod" "shop" n, {| n_id := nodeId "Pod" "shop" n; n_kind := "Pod"; n_namespace := "shop"; n_group := false; n_members := [] |}).
Definition sampleLine (a b : string) (ps : list Port) : TrafficLine :=
  {| from := podEnd a; to := podEnd b; allowed := 7; dropped := 1; ports := ps; connections := [] |}.
Definition sampleLines : list TrafficLine :=
  [sampleLine "web" "api" [tcp 80 3 1; tcp 81 1 0; tcp 82 1 0; tcp 83 1 0; tcp 84 1 0; tcp 85 0 0; tcp 86 0 0];
   sampleLine "job" "api" [tcp 80 4 0; tcp 86 0 1]; sampleLine "api" "api" []; sampleLine "api" "db" []].
Definition sampleBuilt : Built := buildTraffic sampleLines [podNode "web"; podNode "api"].
Definition byCodeOrder (a b : string) : Z := if eqs a b then 0 else if String.leb a b then -1 else 1.

(** ** The lines' ends *)

Lemma shownAs_shown shown g e kinds i : shownAs shown g e kinds = Some i → i ∈ shown.*1.
Proof.
  induction kinds as [|k kinds IH]; cbn [shownAs]; [done|]. destruct (hasKey _ shown) eqn:E.
  - intros [= <-]. by apply hasKey_true.
  - destruct (assoc _ g) as [gr|]; [|done]. destruct (nonempty gr); [|done]. cbn [andb].
    destruct (hasKey gr shown) eqn:E2; [|done]. intros [= <-]. by apply hasKey_true.
Qed.

Lemma anchorOf_cases e shown g :
  (∃ i, anchorOf e shown g = (i, None) ∧ i ∈ shown.*1) ∨
  (∃ p, anchorOf e shown g = (peer_id p, Some p) ∧ peer_end p = e).
Proof.
  assert (∀ i n ns, ∃ p, peer i n ns e = (peer_id p, Some p) ∧ peer_end p = e) as Hp.
  { intros i n ns. by exists {| peer_id := i; peer_name := n; peer_namespace := ns; peer_end := e |}. }
  unfold anchorOf. case_match.
  - destruct (shownAs _ _ _ _) as [i|] eqn:E; [left|right; apply Hp]. exists i. split; [done|]. by eapply shownAs_shown.
  - right. repeat case_match; apply Hp.
Qed.

Lemma addPeer_keys a ps k : k ∈ (addPeer a ps).*1 ↔ k ∈ ps.*1 ∨ (is_Some a.2 ∧ k = a.1).
Proof.
  unfold addPeer. destruct a as [i [p|]]; cbn [fst snd]; [|split; [by left|by intros [|[[? [=]] _]]]].
  destruct (hasKey i ps) eqn:E.
  - apply hasKey_true in E. split; [by left|]. by intros [|[_ ->]].
  - rewrite elem_upsert_keys. split; [intros [| ->]|intros [|[_ ->]]]; auto.
Qed.

Lemma addPeer_nodup a ps : NoDup ps.*1 → NoDup (addPeer a ps).*1.
Proof. unfold addPeer. intros H. repeat case_match; [done|by apply upsert_nodup|done]. Qed.

(** An end is drawn at [i]: a node of the graph, or one of the stand-ins. *)
Definition drawnAt (shown : list (string * GraphNode)) (b : Built) (e : TrafficEnd) (i : string) : Prop :=
  i = (anchorOf e shown (groupsOf shown)).1 ∧ (i ∈ shown.*1 ∨ i ∈ (peers b).*1).

Definition drawn (lines : list TrafficLine) (shown : list (string * GraphNode)) (b : Built) (e : TrafficEdge) : Prop :=
  ∃ i, lines !! i = Some (line e) ∧ id e = "traffic-" +:+ pretty i ∧ state e = lineState (line e) ∧ source e ≠ target e ∧
       drawnAt shown b (from (line e)) (source e) ∧ drawnAt shown b (to (line e)) (target e).

Lemma buildTraffic_snoc lines l shown :
  buildTraffic (lines ++ [l]) shown = placeLine shown (groupsOf shown) (buildTraffic lines shown) (length lines, l).
Proof. unfold buildTraffic. rewrite imap_app, foldl_app. cbn. by rewrite Nat.add_0_r. Qed.

Lemma drawnAt_more shown b b' e i : (∀ k, k ∈ (peers b).*1 → k ∈ (peers b').*1) → drawnAt shown b e i → drawnAt shown b' e i.
Proof. intros Hp [-> [|]]; split; auto. Qed.

Lemma drawn_more lines l shown b b' e :
  (∀ k, k ∈ (peers b).*1 → k ∈ (peers b').*1) → drawn lines shown b e → drawn (lines ++ [l]) shown b' e.
Proof.
  intros Hp (i & Hi & ? & ? & ? & ? & ?). exists i. split_and!; try done; [by apply lookup_app_l_Some|..]; by eapply drawnAt_more.
Qed.

Lemma end_drawn shown b e :
  (is_Some (anchorOf e shown (groupsOf shown)).2 → (anchorOf e shown (groupsOf shown)).1 ∈ (peers b).*1) →
  drawnAt shown b e (anchorOf e shown (groupsOf shown)).1.
Proof.
  intros H. split; [done|]. destruct (anchorOf_cases e shown (groupsOf shown)) as [(i & E & Hi)|(p & E & _)]; rewrite E in *; [by left|].
  right. by apply H.
Qed.

Definition placed (lines : list TrafficLine) (shown : list (string * GraphNode)) (b : Built) : Prop :=
  length (edges b) + selfLoops b = length lines ∧
  NoDup (id <$> edges b) ∧ NoDup (peers b).*1 ∧
  (∀ e, e ∈ edges b → drawn lines shown b e) ∧
  (∀ k, k ∈ (peers b).*1 → ∃ e, e ∈ edges b ∧ (k = source e ∨ k = target e)).

Lemma placeLine_placed lines l shown b :
  placed lines shown b → placed (lines ++ [l]) shown (placeLine shown (groupsOf shown) b (length lines, l)).
Proof.
  intros (Hl & Hid & Hp & He & Hk). unfold placeLine. cbn [fst snd].
  set (f := anchorOf (from l) shown (groupsOf shown)). set (t := anchorOf (to l) shown (groupsOf shown)).
  destruct (eqs f.1 t.1) eqn:E; split; cbn [edges selfLoops peers]; rewrite ?length_app; cbn [length]; try lia.
  { split_and!; [done..| |done]. intros e Hin. by eapply drawn_more, He. }
  apply eqs_false in E.
  assert (∀ k, k ∈ (addPeer t (addPeer f (peers b))).*1 ↔ k ∈ (peers b).*1 ∨ is_Some f.2 ∧ k = f.1 ∨ is_Some t.2 ∧ k = t.1) as Hkeys
    by (intros k; rewrite !addPeer_keys; tauto).
  split_and!.
  - rewrite fmap_app. apply NoDup_app. split; [done|]. split; [|by apply NoDup_singleton].
    intros i (e & -> & Hin)%list_elem_of_fmap Hi%list_elem_of_singleton. destruct (He e Hin) as (j & Hj & Hid' & _).
    cbn [id] in Hi. rewrite Hid' in Hi. assert (pretty j = pretty (length lines)) as Hpr by (by apply (inj (String.append "traffic-"))).
    apply (inj pretty) in Hpr. apply lookup_lt_Some in Hj. lia.
  - by apply addPeer_nodup, addPeer_nodup.
  - intros e [Hin| ->%list_elem_of_singleton]%elem_of_app.
    + eapply drawn_more; [|by apply He]. intros k Hin'. apply Hkeys. by left.
    + exists (length lines). cbn [id line state source target]. split_and!; try done; [by apply list_lookup_middle|..];
        apply end_drawn; intros H; apply Hkeys; [right; left|right; right]; done.
  - intros k [(e & Hin & Hs)%Hk|[[_ ->]|[_ ->]]]%Hkeys; [exists e|..];
      [split; [apply elem_of_app; by left|done]|eexists; (split; [apply elem_of_app; right; by left|])..]; [by left|by right].
Qed.

Lemma buildTraffic_placed lines shown : placed lines shown (buildTraffic lines shown).
Proof.
  induction lines as [|l lines IH] using rev_ind.
  - split_and!; [done|constructor|constructor|by intros ? []%elem_of_nil|by intros ? []%elem_of_nil].
  - rewrite buildTraffic_snoc. by apply placeLine_placed.
Qed.

(** Every line of the traffic is on the graph or counted as a loop: each edge is
    one line, under its own id, from where the line comes to where it goes, which
    are two different nodes, shown or standing in; there is one stand-in for an
    id and none without an edge; and an end whose kind is known goes to its node
    when the graph shows it. *)
Theorem traffic_lines_placed lines shown :
  length (edges (buildTraffic lines shown)) + selfLoops (buildTraffic lines shown) = length lines ∧
  NoDup (id <$> edges (buildTraffic lines shown)) ∧ NoDup (peers (buildTraffic lines shown)).*1 ∧
  (∀ e, e ∈ edges (buildTraffic lines shown) → drawn lines shown (buildTraffic lines shown) e) ∧
  (∀ k, k ∈ (peers (buildTraffic lines shown)).*1 → ∃ e, e ∈ edges (buildTraffic lines shown) ∧ (k = source e ∨ k = target e)) ∧
  (∀ x i, kind x ≠ "" → namespace x ≠ "" → name x ≠ "" → nodeId (kind x) (namespace x) (name x) ∈ shown.*1 →
     drawnAt shown (buildTraffic lines shown) x i → i = nodeId (kind x) (namespace x) (name x)).
Proof.
  destruct (buildTraffic_placed lines shown) as (H1 & H2 & H3 & H4 & H5). split_and!; [done..|].
  intros x i Hk Hns Hn Hin [-> _]. unfold anchorOf. rewrite !(proj2 (nonempty_true _)) by done. cbn [andb shownAs].
  by rewrite (proj2 (hasKey_true _ _) Hin).
Qed.

(** ** Counting *)

(** A count of rows, of ports and of edges: [allowed] or [dropped]. *)
Record Count := { ofRow : PortRow → Z; ofPort : Port → Z; ofEdge : PortEdge → Z; ofLine : TrafficLine → Z }.
Definition allowedCount : Count := {| ofRow := r_allowed; ofPort := portAllowed; ofEdge := e_allowed; ofLine := allowed |}.
Definition droppedCount : Count := {| ofRow := r_dropped; ofPort := portDropped; ofEdge := e_dropped; ofLine := dropped |}.

Definition isCount (c : Count) : Prop := c = allowedCount ∨ c = droppedCount.

Lemma isCount_row c p : isCount c → ofRow c (newRow p) = 0%Z ∧ ∀ r, ofRow c (addToRow p r) = (ofRow c r + ofPort c p)%Z.
Proof. by intros [-> | ->]. Qed.

Lemma isCount_share c e rows row p : isCount c → ofEdge c (newShare e rows row p) = 0%Z ∧ ∀ s, ofEdge c (addToShare p s) = (ofEdge c s + ofPort c p)%Z.
Proof. by intros [-> | ->]. Qed.

(** ** The boxes *)

Definition boxAt (b : string) (perBox : list (string * boxMap)) : boxMap := default [] (assoc b perBox).

Definition inBox (c : Count) (P : string → bool) (b : string) (e : TrafficEdge) : Z :=
  cond (eqs b (target e)) (sumOf (λ p, cond (P (rowKey p)) (ofPort c p)) (ports (line e))).

Definition rowsSum (c : Count) (P : string → bool) (box : boxMap) : Z := sumOf (λ e, cond (P e.1) (ofRow c e.2)) box.

(** A box's entries are under their rows' keys, each once. *)
Definition goodBox (box : boxMap) : Prop := NoDup box.*1 ∧ ∀ k r, (k, r) ∈ box → key r = k ∧ ∃ p, k = rowKey p.

Lemma boxAt_addPort b t perBox p :
  boxAt b (addPort t perBox p) =
  if eqs b t then upsert (newRow p) (rowKey p) (addToRow p) (boxAt b perBox) else boxAt b perBox.
Proof.
  unfold boxAt, addPort. rewrite assoc_upsert. destruct (eqs b t) eqn:E; [|done]. apply eqs_true in E as ->. done.
Qed.

Lemma addPorts_sum c P b t ps perBox :
  isCount c →
  rowsSum c P (boxAt b (foldl (addPort t) perBox ps)) =
  (rowsSum c P (boxAt b perBox) + cond (eqs b t) (sumOf (λ p, cond (P (rowKey p)) (ofPort c p)) ps))%Z.
Proof.
  intros Hc. revert perBox. induction ps as [|p ps IH]; intros perBox; cbn [foldl sumOf]; [destruct (eqs b t); cbn; lia|].
  rewrite IH, boxAt_addPort. destruct (isCount_row c p Hc) as [H0 Ha]. destruct (eqs b t); cbn [cond]; [|done].
  unfold rowsSum. rewrite (sumOf_upsert (ofRow c) P _ _ _ _ (ofPort c p) H0 Ha). lia.
Qed.

Lemma perBox_sum c P b edges : isCount c → rowsSum c P (boxAt b (perBoxOf edges)) = sumOf (inBox c P b) edges.
Proof.
  intros Hc. unfold perBoxOf. change (sumOf (inBox c P b) edges) with (rowsSum c P (boxAt b []) + sumOf (inBox c P b) edges)%Z.
  generalize (@nil (string * boxMap)). induction edges as [|e edges IH]; intros perBox; cbn [foldl sumOf]; [lia|].
  rewrite IH, addPorts_sum by done. unfold inBox. lia.
Qed.

Lemma goodBox_upsert p box : goodBox box → goodBox (upsert (newRow p) (rowKey p) (addToRow p) box).
Proof.
  intros [Hnd Hk]. split; [by apply upsert_nodup|]. intros k r Hin.
  apply elem_assoc in Hin; [|by apply upsert_nodup]. rewrite assoc_upsert in Hin. destruct (eqs k (rowKey p)) eqn:E.
  - apply eqs_true in E as ->. injection Hin as <-. split; [|by exists p].
    destruct (assoc (rowKey p) box) as [r|] eqn:Er; [|done]. cbn. by apply Hk, assoc_elem.
  - by apply Hk, assoc_elem.
Qed.

Lemma addPorts_boxes t ps perBox :
  NoDup perBox.*1 → (∀ b, goodBox (boxAt b perBox)) →
  NoDup (foldl (addPort t) perBox ps).*1 ∧ (∀ b, goodBox (boxAt b (foldl (addPort t) perBox ps))) ∧
  (∀ b k, k ∈ (boxAt b perBox).*1 → k ∈ (boxAt b (foldl (addPort t) perBox ps)).*1) ∧
  (∀ p, p ∈ ps → rowKey p ∈ (boxAt t (foldl (addPort t) perBox ps)).*1).
Proof.
  revert perBox. induction ps as [|p ps IH]; intros perBox Hnd Hg; cbn [foldl].
  { split_and!; [done|done|done|by intros ? []%elem_of_nil]. }
  destruct (IH (addPort t perBox p)) as (H1 & H2 & H3 & H4).
  { by apply upsert_nodup. }
  { intros b. rewrite boxAt_addPort. destruct (eqs b t); [by apply goodBox_upsert|done]. }
  split_and!; [done|done| |].
  - intros b k Hk. apply H3. rewrite boxAt_addPort. destruct (eqs b t); [|done]. apply elem_upsert_keys. by left.
  - intros q [->|Hq]%elem_of_cons; [|auto]. apply H3. rewrite boxAt_addPort, eqs_refl. apply elem_upsert_keys. by right.
Qed.

Lemma perBox_boxes edges :
  NoDup (perBoxOf edges).*1 ∧ (∀ b, goodBox (boxAt b (perBoxOf edges))) ∧
  (∀ e p, e ∈ edges → p ∈ ports (line e) → rowKey p ∈ (boxAt (target e) (perBoxOf edges)).*1).
Proof.
  unfold perBoxOf. assert (∀ b, goodBox (boxAt b [])) as H0 by (intros b; split; [constructor|by intros ? ? []%elem_of_nil]).
  assert (NoDup (@nil (string * boxMap)).*1) as Hn by constructor. revert H0 Hn. generalize (@nil (string * boxMap)).
  cut (∀ perBox, (∀ b, goodBox (boxAt b perBox)) → NoDup perBox.*1 →
         let m := foldl (λ perBox e, foldl (addPort (target e)) perBox (ports (line e))) perBox edges in
         NoDup m.*1 ∧ (∀ b, goodBox (boxAt b m)) ∧ (∀ b k, k ∈ (boxAt b perBox).*1 → k ∈ (boxAt b m).*1) ∧
         ∀ e p, e ∈ edges → p ∈ ports (line e) → rowKey p ∈ (boxAt (target e) m).*1).
  { intros H l H0 Hn. destruct (H l H0 Hn) as (? & ? & ? & ?). done. }
  induction edges as [|e edges IH]; intros perBox Hg Hnd; cbn [foldl].
  { split_and!; [done|done|done|by intros ? ? []%elem_of_nil]. }
  destruct (addPorts_boxes (target e) (ports (line e)) perBox Hnd Hg) as (H1 & H2 & H3 & H4).
  destruct (IH _ H2 H1) as (H5 & H6 & H7 & H8). split_and!; [done|done|auto|].
  intros e' p [->|Hin]%elem_of_cons Hp; [|by apply H8]. by apply H7, H4.
Qed.

Lemma rowKey_not_more p : rowKey p ≠ MORE_ROW.
Proof.
  intros E. assert (free_of "/" (rowKey p)) as H by (by rewrite E). unfold rowKey in H. apply free_of_app in H as [_ H]. done.
Qed.

(** Every key of a list kept under what [h] says. *)
Lemma assoc_keep (h : string → string) k (l : list PortRow) m :
  assoc k (foldl (λ m r, upsert "" (key r) (λ _, h (key r)) m) m l) =
  if bool_decide (k ∈ key <$> l) then Some (h k) else assoc k m.
Proof.
  revert m. induction l as [|r l IH]; intros m; [done|]. cbn [foldl fmap list_fmap]. rewrite IH, assoc_upsert.
  destruct (eqs k (key r)) eqn:E.
  - apply eqs_true in E as ->. rewrite (bool_decide_true (key r ∈ key r :: _)) by left. by case_bool_decide.
  - apply eqs_false in E. case_bool_decide as H1; case_bool_decide as H2; try done.
    + destruct H2. by right.
    + apply elem_of_cons in H2 as [|]; done.
Qed.

Section counting.
Context (localeCompare : string → string → Z).

Lemma goodBox_keys box : goodBox box → box.*1 = key <$> box.*2.
Proof.
  intros [_ Hk]. induction box as [|[k r] box IH]; [done|]. cbn. rewrite IH by (intros; apply Hk; by right).
  f_equal. symmetry. apply (Hk k r). left.
Qed.

(** The box's total at the keys a row stands for. *)
Definition rowIs (c : Count) (box : boxMap) (keep : list (string * string)) (r : PortRow) : Prop :=
  ofRow c r = rowsSum c (λ k, eqs (default "" (assoc k keep)) (key r)) box.

Lemma rowsSum_ext c P Q box : (∀ k, k ∈ box.*1 → P k = Q k) → rowsSum c P box = rowsSum c Q box.
Proof. intros H. apply sumOf_ext. intros [k r] Hin. cbn. rewrite (H k); [done|]. apply list_elem_of_fmap. by exists (k, r). Qed.

Lemma rowsSum_one c box r : goodBox box → r ∈ box.*2 → rowsSum c (λ k, eqs k (key r)) box = ofRow c r.
Proof.
  intros [Hnd Hk] ([k r'] & -> & Hin)%list_elem_of_fmap. cbn. destruct (Hk _ _ Hin) as [-> _].
  exact (sumOf_only (λ e, ofRow c e.2) fst box (k, r') Hnd Hin).
Qed.

Lemma fewRows_spec box :
  goodBox box → length box.*2 ≤ MAX_ROWS →
  let keep := foldl (λ m r, upsert "" (key r) (λ _, key r) m) [] box.*2 in
  (∀ c r, r ∈ box.*2 → rowIs c box keep r) ∧ (∀ k, k ∈ box.*1 → default "" (assoc k keep) ∈ key <$> box.*2).
Proof.
  intros Hg Hl keep. pose proof (goodBox_keys box Hg) as Hkeys.
  assert (∀ k, k ∈ box.*1 → assoc k keep = Some k) as Hkeep.
  { intros k Hk. unfold keep. rewrite (assoc_keep (λ k, k)), bool_decide_true; [done|]. by rewrite <-Hkeys. }
  split.
  - intros c r Hr. unfold rowIs. rewrite <-(rowsSum_one c box r) by done. apply rowsSum_ext. intros k Hk. by rewrite Hkeep.
  - intros k Hk. rewrite Hkeep by done. by rewrite <-Hkeys.
Qed.

Lemma sumRows_sumOf f l : sumRows f l = sumOf f l.
Proof.
  unfold sumRows. rewrite <-(Z.add_0_l (sumOf f l)). generalize 0%Z. induction l as [|r l IH]; intros z; cbn [foldl sumOf]; [lia|].
  rewrite IH. lia.
Qed.

Lemma sumOf_snd {A} (f : A → Z) (l : list (string * A)) : sumOf f l.*2 = sumOf (λ e, f e.2) l.
Proof. apply sumOf_fmap. Qed.

Definition moreRow (kept : list string) (l : list PortRow) : PortRow :=
  let rest := filterb (λ r, negb (bool_decide (key r ∈ kept))) l in
  {| key := MORE_ROW; text := "+" +:+ pretty (length rest); r_allowed := sumRows r_allowed rest; r_dropped := sumRows r_dropped rest |}.

Lemma moreRow_sum c kept box :
  isCount c → goodBox box → ofRow c (moreRow kept box.*2) = rowsSum c (λ k, negb (bool_decide (k ∈ kept))) box.
Proof.
  intros Hc [_ Hk]. trans (sumOf (ofRow c) (filterb (λ r, negb (bool_decide (key r ∈ kept))) box.*2)).
  { destruct Hc as [-> | ->]; apply sumRows_sumOf. }
  rewrite sumOf_filterb, sumOf_snd. apply sumOf_ext. intros [k r] Hin. cbn. by destruct (Hk _ _ Hin) as [-> _].
Qed.

Lemma manyRows_spec box busiest :
  goodBox box → busiest ⊆ box.*2 →
  let kept := key <$> busiest in
  let keep := foldl (λ m r, upsert "" (key r) (λ _, if bool_decide (key r ∈ kept) then key r else MORE_ROW) m) [] box.*2 in
  (∀ c r, isCount c → r ∈ busiest ++ [moreRow kept box.*2] → rowIs c box keep r) ∧
  (∀ k, k ∈ box.*1 → default "" (assoc k keep) ∈ key <$> (busiest ++ [moreRow kept box.*2])).
Proof.
  intros Hg Hsub kept keep. pose proof (goodBox_keys box Hg) as Hkeys.
  assert (∀ k, k ∈ box.*1 → assoc k keep = Some (if bool_decide (k ∈ kept) then k else MORE_ROW)) as Hkeep.
  { intros k Hk. trans (if bool_decide (k ∈ key <$> box.*2) then Some (if bool_decide (k ∈ kept) then k else MORE_ROW) else assoc k []);
      [exact (assoc_keep (λ k, if bool_decide (k ∈ kept) then k else MORE_ROW) k box.*2 [])|].
    rewrite bool_decide_true; [done|]. by rewrite <-Hkeys. }
  assert (∀ k, k ∈ box.*1 → eqs k MORE_ROW = false) as Hmore.
  { intros k ([k' r] & -> & Hin)%list_elem_of_fmap. destruct Hg as [_ Hk]. destruct (Hk _ _ Hin) as [_ (p & Hp)].
    apply eqs_false. cbn. rewrite Hp. apply rowKey_not_more. }
  split.
  - intros c r Hc [Hr| ->%list_elem_of_singleton]%elem_of_app; unfold rowIs.
    + rewrite <-(rowsSum_one c box r Hg) by auto. apply rowsSum_ext. intros k Hk. rewrite Hkeep by done. cbn.
      case_bool_decide as H; [done|]. assert (key r ∈ kept) by (by apply list_elem_of_fmap_2).
      assert (key r ∈ box.*1) as Hrk by (rewrite Hkeys; by apply list_elem_of_fmap_2, Hsub).
      assert (eqs k (key r) = false) as -> by (apply eqs_false; congruence).
      symmetry. apply eqs_false. apply Hmore, eqs_false in Hrk. congruence.
    + rewrite moreRow_sum by done. apply rowsSum_ext. intros k Hk. rewrite Hkeep by done. cbn.
      case_bool_decide as H; cbn; [symmetry; by apply Hmore|symmetry; apply eqs_refl].
  - intros k Hk. rewrite Hkeep by done. cbn. rewrite fmap_app, elem_of_app. case_bool_decide; [by left|by right; left].
Qed.

Lemma boxRows_spec box :
  goodBox box →
  length (boxRows localeCompare box).1 ≤ MAX_ROWS ∧ NoDup (key <$> (boxRows localeCompare box).1) ∧
  (∀ c r, isCount c → r ∈ (boxRows localeCompare box).1 → rowIs c box (boxRows localeCompare box).2 r) ∧
  (∀ k, k ∈ box.*1 → default "" (assoc k (boxRows localeCompare box).2) ∈ key <$> (boxRows localeCompare box).1).
Proof.
  intros Hg. pose proof (goodBox_keys box Hg) as Hkeys. assert (NoDup (key <$> box.*2)) as Hnd by (rewrite <-Hkeys; apply Hg).
  unfold boxRows. destruct (Nat.ltb MAX_ROWS (length box.*2)) eqn:E; cbn [fst snd].
  - set (sorted := sortBy (busier localeCompare) box.*2). set (busiest := take (MAX_ROWS - 1) sorted).
    assert (busiest ⊆ box.*2) as Hsub.
    { intros r Hr. rewrite <-(sortBy_permutation (busier localeCompare)). by apply elem_of_take in Hr as (i & Hi%list_elem_of_lookup_2 & _). }
    change {| key := MORE_ROW; text := _; r_allowed := _; r_dropped := _ |} with (moreRow (key <$> busiest) box.*2).
    destruct (manyRows_spec box busiest Hg Hsub) as [H1 H2].
    pose proof (sortBy_permutation (rowOrder localeCompare) (busiest ++ [moreRow (key <$> busiest) box.*2])) as HP.
    split_and!.
    + rewrite HP, length_app. unfold busiest. rewrite length_take. cbn [length]. unfold MAX_ROWS. lia.
    + rewrite HP, fmap_app. apply NoDup_app. split_and!.
      * unfold busiest. rewrite <-firstn_map. fold (fmap (M := list) key). apply (sublist_NoDup _ (key <$> sorted)); [|apply sublist_take].
        unfold sorted. by rewrite sortBy_permutation.
      * intros k (r & -> & Hr)%list_elem_of_fmap Hm%list_elem_of_singleton. apply Hsub in Hr.
        apply list_elem_of_fmap in Hr as ([k' r'] & -> & Hin). destruct Hg as [_ Hk]. destruct (Hk _ _ Hin) as [Hkey (p & Hp)].
        cbn in Hm. rewrite Hkey, Hp in Hm. by apply rowKey_not_more in Hm.
      * apply NoDup_singleton.
    + intros c r Hc Hr. rewrite HP in Hr. by apply H1.
    + intros k Hk. rewrite HP. by apply H2.
  - apply Nat.ltb_ge in E. pose proof (sortBy_permutation (rowOrder localeCompare) box.*2) as HP.
    destruct (fewRows_spec box Hg E) as [H1 H2]. split_and!.
    + by rewrite HP.
    + by rewrite HP.
    + intros c r Hc Hr. rewrite HP in Hr. by apply H1.
    + intros k Hk. rewrite HP. by apply H2.
Qed.

(** ** The edges of a line *)

Definition sharesOf (e : TrafficEdge) (rows : list PortRow) (f : Port → string) (ps : list Port) (shares : list (string * PortEdge)) :=
  foldl (λ shares p, upsert (newShare e rows (f p) p) (f p) (addToShare p) shares) shares ps.

(** A share says its row, and the edge it is part of. *)
Definition shareOf (e : TrafficEdge) (ρ : string) (s : PortEdge) : Prop :=
  row s = Some ρ ∧ e_target s = target e ∧ e_source s = source e ∧ lineId s = id e ∧ e_line s = line e ∧ e_id s = id e +:+ ":" +:+ ρ.

Lemma shares_sum c e rows f ps shares P :
  isCount c →
  sumOf (λ s, cond (P s.1) (ofEdge c s.2)) (sharesOf e rows f ps shares) =
  (sumOf (λ s, cond (P s.1) (ofEdge c s.2)) shares + sumOf (λ p, cond (P (f p)) (ofPort c p)) ps)%Z.
Proof.
  intros Hc. revert shares. unfold sharesOf. induction ps as [|p ps IH]; intros shares; cbn [foldl sumOf]; [lia|].
  destruct (isCount_share c e rows (f p) p Hc) as [H0 Ha]. rewrite IH, (sumOf_upsert (ofEdge c) P _ _ _ _ (ofPort c p) H0 Ha). lia.
Qed.

Lemma shares_rows e rows f ps shares :
  NoDup shares.*1 → (∀ ρ s, (ρ, s) ∈ shares → shareOf e ρ s) →
  NoDup (sharesOf e rows f ps shares).*1 ∧
  ∀ ρ s, (ρ, s) ∈ sharesOf e rows f ps shares → shareOf e ρ s ∧ (ρ ∈ shares.*1 ∨ ∃ p, p ∈ ps ∧ ρ = f p).
Proof.
  revert shares. unfold sharesOf. induction ps as [|p ps IH]; intros shares Hnd Hs; cbn [foldl].
  { split; [done|]. intros ρ s Hin. split; [by apply Hs|]. left. apply list_elem_of_fmap. by exists (ρ, s). }
  destruct (IH (upsert (newShare e rows (f p) p) (f p) (addToShare p) shares)) as [H1 H2].
  { by apply upsert_nodup. }
  { intros ρ s Hin. apply elem_assoc in Hin; [|by apply upsert_nodup]. rewrite assoc_upsert in Hin.
    destruct (eqs ρ (f p)) eqn:E; [|by apply Hs, assoc_elem]. apply eqs_true in E as ->. injection Hin as <-.
    destruct (assoc (f p) shares) as [s|] eqn:Es; [|done]. cbn. by apply assoc_elem, Hs in Es. }
  split; [done|]. intros ρ s Hin. destruct (H2 _ _ Hin) as [Hsh [Hk|(q & Hq & ->)]]; (split; [done|]).
  - apply elem_upsert_keys in Hk as [| ->]; [by left|]. right. exists p. split; [left|done].
  - right. exists q. split; [by right|done].
Qed.

(** The row a line's port is counted in. *)
Definition rowAt (edges : list TrafficEdge) (b : string) (p : Port) : string :=
  default "" (assoc (rowKey p) (default [] (assoc b (rowOfs localeCompare edges)))).

Lemma splitEdge_shares edges e :
  ports (line e) ≠ [] →
  splitEdge (rowsOf localeCompare edges) (rowOfs localeCompare edges) e =
  (sharesOf e (default [] (assoc (target e) (rowsOf localeCompare edges))) (rowAt edges (target e)) (ports (line e)) []).*2.
Proof. intros H. unfold splitEdge. by destruct (ports (line e)). Qed.

Lemma splitEdge_in edges e s :
  s ∈ splitEdge (rowsOf localeCompare edges) (rowOfs localeCompare edges) e →
  e_target s = target e ∧ e_source s = source e ∧ lineId s = id e ∧ e_line s = line e ∧
  ∀ ρ, row s = Some ρ → ∃ p, p ∈ ports (line e) ∧ ρ = rowAt edges (target e) p.
Proof.
  destruct (decide (ports (line e) = [])) as [E|E].
  { unfold splitEdge. rewrite E. by intros ->%list_elem_of_singleton. }
  rewrite splitEdge_shares by done. intros ([ρ s'] & -> & Hin)%list_elem_of_fmap.
  destruct (shares_rows e (default [] (assoc (target e) (rowsOf localeCompare edges))) (rowAt edges (target e)) (ports (line e)) [])
    as [_ H]; [constructor|by intros ? ? []%elem_of_nil|].
  destruct (H _ _ Hin) as [(Hr & ? & ? & ? & ? & _) [[]%elem_of_nil|Hp]]. split_and!; [done..|].
  cbn. intros ρ' E'. rewrite Hr in E'. by injection E' as <-.
Qed.

(** A line has a share, and its shares have ids of their own: the line's, alone or before a row. *)
Lemma splitEdge_some edges e : ∃ s, s ∈ splitEdge (rowsOf localeCompare edges) (rowOfs localeCompare edges) e.
Proof.
  destruct (decide (ports (line e) = [])) as [E|E]; [unfold splitEdge; rewrite E; eexists; left|]. rewrite splitEdge_shares by done.
  set (rows := default [] (assoc (target e) (rowsOf localeCompare edges))). set (f := rowAt edges (target e)).
  assert (∀ ps shares k, k ∈ shares.*1 ∨ ps ≠ [] → ∃ s, s ∈ (sharesOf e rows f ps shares).*2) as H; [|by apply (H _ [] ""); right].
  unfold sharesOf. induction ps as [|p ps IH]; intros shares k Hk; cbn [foldl].
  - destruct Hk as [([k' s] & -> & Hin)%list_elem_of_fmap|]; [|done]. exists s. apply list_elem_of_fmap. by exists (k', s).
  - apply (IH _ (f p)). left. apply elem_upsert_keys. by right.
Qed.

Lemma splitEdge_ids edges e :
  NoDup (e_id <$> splitEdge (rowsOf localeCompare edges) (rowOfs localeCompare edges) e) ∧
  ∀ x, x ∈ e_id <$> splitEdge (rowsOf localeCompare edges) (rowOfs localeCompare edges) e → x = id e ∨ ∃ ρ, x = id e +:+ ":" +:+ ρ.
Proof.
  destruct (decide (ports (line e) = [])) as [E|E].
  { unfold splitEdge. rewrite E. split; [apply NoDup_singleton|]. intros x ->%list_elem_of_singleton. by left. }
  rewrite splitEdge_shares by done. set (sh := sharesOf _ _ _ _ _).
  destruct (shares_rows e (default [] (assoc (target e) (rowsOf localeCompare edges))) (rowAt edges (target e)) (ports (line e)) [])
    as [Hnd H]; [constructor|by intros ? ? []%elem_of_nil|]. fold sh in Hnd, H.
  assert (e_id <$> sh.*2 = (λ ρ, id e +:+ ":" +:+ ρ) <$> sh.*1) as ->.
  { rewrite <-!list_fmap_compose. apply list_fmap_ext. intros k [ρ s] Hin. cbn. by destruct (H ρ s) as [(_ & _ & _ & _ & _ & Hid) _]; [by eapply list_elem_of_lookup_2|]. }
  split; [|intros x (ρ & -> & _)%list_elem_of_fmap; right; by exists ρ].
  apply NoDup_fmap_2; [|done]. intros a b Hab. by apply (inj (String.append (id e))), (inj (String.append ":")) in Hab.
Qed.

(** An edge into row [ρ] of box [b]. *)
Definition into (b ρ : string) (s : PortEdge) : bool := eqs b (e_target s) && bool_decide (row s = Some ρ).

Lemma splitEdge_into c edges b ρ e :
  isCount c →
  sumOf (λ s, cond (into b ρ s) (ofEdge c s)) (splitEdge (rowsOf localeCompare edges) (rowOfs localeCompare edges) e) =
  cond (eqs b (target e)) (sumOf (λ p, cond (eqs (rowAt edges (target e) p) ρ) (ofPort c p)) (ports (line e))).
Proof.
  intros Hc. destruct (decide (ports (line e) = [])) as [E|E].
  { unfold splitEdge. rewrite E. cbn. unfold into. cbn. rewrite andb_false_r. by destruct (eqs b (target e)). }
  rewrite splitEdge_shares, sumOf_snd by done.
  set (sh := sharesOf _ _ _ _ _).
  assert (∀ r s, (r, s) ∈ sh → shareOf e r s) as Hsh.
  { intros r s Hin. by apply (shares_rows e (default [] (assoc (target e) (rowsOf localeCompare edges))) (rowAt edges (target e))
      (ports (line e)) []) in Hin as [? _]; [|constructor|intros ? ? []%elem_of_nil]. }
  trans (sumOf (λ s, cond (eqs b (target e)) (cond (eqs s.1 ρ) (ofEdge c s.2))) sh).
  { apply sumOf_ext. intros [r s] Hin. destruct (Hsh r s Hin) as (Hr & Ht & _). cbn. unfold into. rewrite Hr, Ht.
    destruct (eqs b (target e)); [|done]. cbn. f_equal. unfold eqs. apply bool_decide_ext. split; congruence. }
  destruct (eqs b (target e)); cbn [cond].
  - unfold sh. by rewrite (shares_sum c e _ _ _ [] (λ r, eqs r ρ)).
  - by apply sumOf_zero.
Qed.

Lemma splitEdge_total c edges e :
  isCount c →
  sumOf (ofEdge c) (splitEdge (rowsOf localeCompare edges) (rowOfs localeCompare edges) e) =
  match ports (line e) with [] => ofLine c (line e) | ps => sumOf (ofPort c) ps end.
Proof.
  intros Hc. destruct (decide (ports (line e) = [])) as [E|E].
  { unfold splitEdge. rewrite E. destruct Hc as [-> | ->]; cbn; lia. }
  rewrite splitEdge_shares, sumOf_snd by done.
  pose proof (shares_sum c e (default [] (assoc (target e) (rowsOf localeCompare edges))) (rowAt edges (target e)) (ports (line e)) []
    (λ _, true) Hc) as Hs. cbn in Hs. rewrite Hs. by destruct (ports (line e)).
Qed.

(** ** All the boxes *)

Lemma assoc_fmap_snd {A B} (g : A → B) k (l : list (string * A)) : assoc k ((λ b, (b.1, g b.2)) <$> l) = g <$> assoc k l.
Proof. induction l as [|[k' x] l IH]; [done|]. cbn. destruct (eqs k k'); [done|]. apply IH. Qed.

Lemma rowsOf_entry edges b rows :
  (b, rows) ∈ rowsOf localeCompare edges →
  rows = (boxRows localeCompare (boxAt b (perBoxOf edges))).1 ∧
  default [] (assoc b (rowOfs localeCompare edges)) = (boxRows localeCompare (boxAt b (perBoxOf edges))).2.
Proof.
  intros ([b' box] & [= -> ->] & Hin)%list_elem_of_fmap. destruct (perBox_boxes edges) as (Hnd & _ & _).
  apply elem_assoc in Hin; [|done]. unfold boxAt, rowOfs. rewrite (assoc_fmap_snd (λ x, (boxRows localeCompare x).2)). by rewrite Hin.
Qed.

Lemma settleEdge_sum c (q : PortEdge → bool) l :
  isCount c → (∀ s, q (settleEdge s) = q s) →
  sumOf (λ s, cond (q s) (ofEdge c s)) (settleEdge <$> l) = sumOf (λ s, cond (q s) (ofEdge c s)) l.
Proof. intros Hc Hq. rewrite sumOf_fmap. apply sumOf_ext. intros s _. rewrite Hq. by destruct Hc as [-> | ->]. Qed.

(** A row counts what its edges do. *)
Lemma row_counts c edges b rows r :
  isCount c → (b, rows) ∈ rowsOf localeCompare edges → r ∈ rows →
  ofRow c r = sumOf (λ s, cond (into b (key r) s) (ofEdge c s)) (byPort localeCompare edges).1.
Proof.
  intros Hc Hb Hr. destruct (rowsOf_entry _ _ _ Hb) as [-> Hkeep]. destruct (perBox_boxes edges) as (_ & Hg & _).
  destruct (boxRows_spec _ (Hg b)) as (_ & _ & Hrow & _). rewrite (Hrow c r Hc Hr), perBox_sum by done.
  unfold byPort. cbn [fst]. rewrite settleEdge_sum, sumOf_bind by done. apply sumOf_ext. intros e _.
  rewrite splitEdge_into by done. unfold inBox, rowAt. destruct (eqs b (target e)) eqn:E; [|done]. apply eqs_true in E as <-.
  by rewrite Hkeep.
Qed.

Lemma boxAt_entry edges b k : k ∈ (boxAt b (perBoxOf edges)).*1 → ∃ rows, (b, rows) ∈ rowsOf localeCompare edges.
Proof.
  unfold boxAt. destruct (assoc b (perBoxOf edges)) as [box|] eqn:E; [|by intros []%elem_of_nil]. intros _.
  exists (boxRows localeCompare box).1. apply list_elem_of_fmap. exists (b, box). split; [done|]. by apply assoc_elem.
Qed.

(** An edge ends at a row of its box. *)
Lemma edge_row edges s ρ :
  s ∈ (byPort localeCompare edges).1 → row s = Some ρ →
  ∃ rows r, (e_target s, rows) ∈ rowsOf localeCompare edges ∧ r ∈ rows ∧ key r = ρ.
Proof.
  intros (s' & -> & (e & Hs & He)%list_elem_of_bind)%list_elem_of_fmap Hr. destruct (splitEdge_in _ _ _ Hs) as (Ht & _ & _ & _ & Hrow).
  destruct (Hrow ρ Hr) as (p & Hp & ->). cbn [e_target settleEdge]. rewrite Ht. destruct (perBox_boxes edges) as (_ & Hg & Hk).
  specialize (Hk e p He Hp). destruct (boxAt_entry _ _ _ Hk) as (rows & Hin). destruct (rowsOf_entry _ _ _ Hin) as [-> Hkeep].
  destruct (boxRows_spec _ (Hg (target e))) as (_ & _ & _ & Hlast). specialize (Hlast _ Hk). unfold rowAt. rewrite Hkeep.
  apply list_elem_of_fmap in Hlast as (r & Hkr & Hrin). exists (boxRows localeCompare (boxAt (target e) (perBoxOf edges))).1, r. done.
Qed.

(** A line's edges count what its ports do. *)
Lemma line_counts c edges e :
  isCount c → NoDup (id <$> edges) → e ∈ edges →
  sumOf (λ s, cond (eqs (lineId s) (id e)) (ofEdge c s)) (byPort localeCompare edges).1 =
  match ports (line e) with [] => ofLine c (line e) | ps => sumOf (ofPort c) ps end.
Proof.
  intros Hc Hnd He. rewrite <-(splitEdge_total c edges) by done. unfold byPort. cbn [fst]. rewrite settleEdge_sum, sumOf_bind by done.
  rewrite <-(sumOf_only (λ e', sumOf (ofEdge c) (splitEdge (rowsOf localeCompare edges) (rowOfs localeCompare edges) e')) id edges e) by done.
  apply sumOf_ext. intros e' _.
  trans (sumOf (λ s, cond (eqs (id e') (id e)) (ofEdge c s)) (splitEdge (rowsOf localeCompare edges) (rowOfs localeCompare edges) e')).
  { apply sumOf_ext. intros s Hs. by destruct (splitEdge_in _ _ _ Hs) as (_ & _ & -> & _). }
  destruct (eqs (id e') (id e)); [done|by apply sumOf_zero].
Qed.

(** Whatever the collation, splitting the lines by port loses and adds nothing,
    of what was let through and of what was dropped.  A box has at most six rows,
    their keys different; each row counts exactly what the edges ending at it do;
    each edge with a row ends at a row of its box; and the edges of one line count
    together what its ports do, or the line itself when it has none. *)
Theorem port_rows_add_up edges :
  NoDup (id <$> edges) →
  (∀ b rows, (b, rows) ∈ (byPort localeCompare edges).2 →
     length rows ≤ MAX_ROWS ∧ NoDup (key <$> rows) ∧
     ∀ c r, isCount c → r ∈ rows →
       ofRow c r = sumOf (λ s, cond (into b (key r) s) (ofEdge c s)) (byPort localeCompare edges).1) ∧
  (∀ s ρ, s ∈ (byPort localeCompare edges).1 → row s = Some ρ →
     ∃ rows r, (e_target s, rows) ∈ (byPort localeCompare edges).2 ∧ r ∈ rows ∧ key r = ρ) ∧
  (∀ c e, isCount c → e ∈ edges →
     sumOf (λ s, cond (eqs (lineId s) (id e)) (ofEdge c s)) (byPort localeCompare edges).1 =
     match ports (line e) with [] => ofLine c (line e) | ps => sumOf (ofPort c) ps end).
Proof.
  intros Hnd. split_and!.
  - intros b rows Hb. split_and!.
    + destruct (rowsOf_entry _ _ _ Hb) as [-> _]. apply boxRows_spec. apply (perBox_boxes edges).
    + destruct (rowsOf_entry _ _ _ Hb) as [-> _]. apply boxRows_spec. apply (perBox_boxes edges).
    + intros c r Hc Hr. by apply (row_counts c edges b rows).
  - intros s ρ. apply edge_row.
  - intros c e Hc He. by apply line_counts.
Qed.
End counting.

Definition sampleEdge : TrafficEdge :=
  {| id := "traffic-0"; source := "Pod/shop/web"; target := "Pod/shop/api"; state := Mixed;
     line := sampleLine "web" "api" [tcp 80 3 1; tcp 81 1 0; tcp 82 1 0; tcp 83 1 0; tcp 84 1 0; tcp 85 0 0; tcp 86 0 0] |}.

Lemma port_rows_add_up_witness :
  NoDup (id <$> edges sampleBuilt) ∧
  sumOf (λ s, cond (eqs (lineId s) (id sampleEdge)) (ofEdge droppedCount s)) (byPort byCodeOrder (edges sampleBuilt)).1 = 1%Z.
Proof.
  assert (NoDup (id <$> edges sampleBuilt)) as Hnd by by_decide.
  assert (sampleEdge ∈ edges sampleBuilt) as Hin by (vm_compute; left).
  split; [exact Hnd|].
  exact (eq_trans (proj2 (proj2 (port_rows_add_up byCodeOrder (edges sampleBuilt) Hnd)) droppedCount sampleEdge (or_intror eq_refl) Hin) eq_refl).
Defined.

Example sample_placed :
  (selfLoops sampleBuilt, (peers sampleBuilt).*1, target <$> edges sampleBuilt) =
  (1, ["traffic:shop/Pod/job"; "traffic:shop/Pod/db"], ["Pod/shop/api"; "Pod/shop/api"; "traffic:shop/Pod/db"]).
Proof. by vm_compute. Qed.

Example sample_rows :
  map (λ b, (b.1, map (λ r, (text r, r_allowed r, r_dropped r)) b.2)) (byPort byCodeOrder (edges sampleBuilt)).2 =
  [("Pod/shop/api", [("TCP 80", 7, 1); ("TCP 81", 1, 0); ("TCP 82", 1, 0); ("TCP 83", 1, 0); ("TCP 84", 1, 0); ("+2", 0, 1)])]%Z.
Proof. by vm_compute. Qed.
