(* ===== verification/Follower.v ===== *)
(** * A window that follows its object

    components/resource-detail/useDrawerFollowsObject.ts: an open window shows the
    server's description of one object, watches the object, and reads the
    description again when a frame says it changed, a second apart and never over
    a read under way.  The frames come through [applyWatchMessage]
    (services/useKubeWatchList.ts), which reads it again on a RESYNC.

    The query client is a library: what it is asked for is recorded ([asked]), and
    what it answers (the description it holds, which keys are being read) comes
    with each step.  [JSON.stringify] is an argument.  [key in held]
    is asked of the object's own fields: no field of a Kubernetes object is named as a
    member of [Object.prototype].  A key is a text.  Times are
    milliseconds; a step is a frame, the timer, or the window's closing. *)

From Stdlib Require Import Sorted.
From S2P Require Import Prelude JsString Json.

#[local] Open Scope Z_scope.

Definition READ_AT_MOST_EVERY_MS : Z := 1000.

Record Follower := { timer : option Z; started : bool; waiting : list string }.

Definition newFollower : Follower := {| timer := None; started := false; waiting := [] |}.

Section follower.
Context (stringify : value → string) (describeKey : string) (everyMs : Z) (alsoRead : list string).

(** Whether a frame says something else than the answer does, in what both hold. *)
Definition differsFromAnswer (frame answer : value) : bool :=
  if negb (isObject answer) || nullish answer then false else
  some (λ k, hasOwn answer k && negb (eqs (stringify (frame .@ k)) (stringify (answer .@ k)))) (keysOf frame).

(** The keys asked for, and the follower after. *)
Definition read (isFetching : string → bool) (now : Z) (f : Follower) : Follower * list string :=
  let underWay := filterb isFetching (waiting f) in
  ({| timer := match underWay with [] => None | _ => Some (now + everyMs) end; started := started f; waiting := underWay |},
   filterb (λ k, negb (bool_decide (k ∈ underWay))) (waiting f)).

Definition readSoon (keys : list string) (now : Z) (f : Follower) : Follower :=
  {| timer := match timer f with Some d => Some d | None => Some (now + everyMs) end; started := started f; waiting := keys |}.

Definition stop (f : Follower) : Follower := {| timer := None; started := started f; waiting := [] |}.

(** [answer] is [client.getQueryData(describeKey)]. *)
Definition onEvent (type : option string) (object answer : value) (now : Z) (f : Follower) : Follower :=
  if negb (truthy object) then f else
  if bool_decide (type = Some "DELETED") then stop f else
  let opening := negb (started f) && bool_decide (type = Some "ADDED") in
  let f' := {| timer := timer f; started := true; waiting := waiting f |} in
  if opening && negb (differsFromAnswer object answer) then f' else readSoon (describeKey :: alsoRead) now f'.

Definition onResync (now : Z) (f : Follower) : Follower :=
  match alsoRead with [] => f | _ => readSoon alsoRead now f end.

(** ** What happens to a window *)

Inductive Happening :=
  | Frame (type : option string) (object answer : value)
  | Resync
  | Timer (isFetching : string → bool)
  | Closed.

(** A happening and the keys asked for.  The timer runs only once its time has
    come. *)
Definition happen (now : Z) (h : Happening) (f : Follower) : Follower * list string :=
  match h with
  | Frame type object answer => (onEvent type object answer now f, [])
  | Resync => (onResync now f, [describeKey])
  | Timer isFetching =>
      match timer f with
      | Some d => if d <=? now then read isFetching now f else (f, [])
      | None => (f, [])
      end
  | Closed => (stop f, [])
  end.

Fixpoint follow (hs : list (Z * Happening)) (f : Follower) : Follower * list (Z * string) :=
  match hs with
  | [] => (f, [])
  | (now, h) :: hs' =>
      let (f', asked) := happen now h f in
      let (f'', later) := follow hs' f' in
      (f'', ((λ k, (now, k)) <$> asked) ++ later)
  end.

(** ** Reading what changed *)

(** A frame that says the object is not as the answer has it, or that came after
    another: the window should show something new. *)
Definition change (h : Happening) (f : Follower) : Prop :=
  match h with
  | Frame type object answer =>
      truthy object = true ∧ type ≠ Some "DELETED" ∧
      (started f = true ∨ type ≠ Some "ADDED" ∨ differsFromAnswer object answer = true)
  | _ => False
  end.

(** The window stays open and its object exists. *)
Definition goesOn (h : Happening) : Prop :=
  match h with
  | Frame type object _ => truthy object = true → type ≠ Some "DELETED"
  | Closed => False
  | _ => True
  end.

(** Happenings in the order of time, none before [t]. *)
Fixpoint inOrder (t : Z) (hs : list (Z * Happening)) : Prop :=
  match hs with [] => True | (now, _) :: hs' => t <= now ∧ inOrder now hs' end.

Fixpoint lastTime (t : Z) (hs : list (Z * Happening)) : Z :=
  match hs with [] => t | (now, _) :: hs' => lastTime now hs' end.

(** What waits has a timer, which is at most one interval away. *)
Definition timed (t : Z) (f : Follower) : Prop :=
  (waiting f ≠ [] → is_Some (timer f)) ∧ ∀ d, timer f = Some d → d <= t + everyMs.

Lemma timed_later t t' f : t <= t' → timed t f → timed t' f.
Proof. intros Ht [H1 H2]. split; [done|]. intros d Hd. specialize (H2 d Hd). lia. Qed.

Lemma readSoon_timed keys t f : timed t f → timed t (readSoon keys t f).
Proof.
  intros [_ H]. split; cbn; destruct (timer f) as [d|] eqn:E; try by eexists.
  - intros d' [= <-]. by apply H.
  - intros d' [= <-]. lia.
Qed.

Lemma happen_timed t now h f : t <= now → timed t f → timed now (happen now h f).1.
Proof.
  intros Ht Hf. apply (timed_later _ now) in Hf; [|done]. destruct h as [ty ob an| |fe|]; cbn [happen].
  - unfold onEvent. repeat case_match; cbn [fst].
    + done.
    + by split.
    + by destruct Hf.
    + apply readSoon_timed. by destruct Hf.
  - unfold onResync. cbn [fst]. case_match; [done|]. by apply readSoon_timed.
  - destruct (timer f) as [d|] eqn:E; [|done]. case_match; [|done]. unfold read, timed. cbn.
    destruct (filterb fe (waiting f)) as [|k l] eqn:Ef; (split; [try done; by eexists|]); intros d' [= <-]. lia.
  - by split.
Qed.

Lemma follow_timed t hs f : inOrder t hs → timed t f → timed (lastTime t hs) (follow hs f).1.
Proof.
  revert t f. induction hs as [|[now h] hs IH]; intros t f Ho Hf; [done|]. destruct Ho as [Ht Ho]. cbn [follow lastTime].
  pose proof (happen_timed _ _ h f Ht Hf) as Hf'. destruct (happen now h f) as [f' asked].
  specialize (IH now f' Ho Hf'). by destruct (follow hs f') as [f'' later].
Qed.

(** Once waited for, the description stays waited for until it is asked for. *)
Lemma happen_waits now h f :
  goesOn h → describeKey ∈ waiting f →
  describeKey ∈ waiting (happen now h f).1 ∨ describeKey ∈ (happen now h f).2.
Proof.
  intros Hg Hw. destruct h as [ty ob an| |fe|]; cbn [happen goesOn] in *.
  - left. cbn [fst]. unfold onEvent. destruct (truthy ob) eqn:E; [|done]. cbn [negb]. rewrite bool_decide_false by auto.
    case_match; [done|]. left.
  - right. left.
  - destruct (timer f) as [d|]; [|by left]. case_match; [|by left]. unfold read. cbn [fst snd waiting].
    destruct (decide (describeKey ∈ filterb fe (waiting f))); [by left|right]. apply elem_of_filterb. split; [done|].
    by rewrite bool_decide_false.
  - done.
Qed.

Lemma follow_waits hs f :
  Forall (λ h, goesOn h.2) hs → describeKey ∈ waiting f →
  describeKey ∈ waiting (follow hs f).1 ∨ describeKey ∈ (follow hs f).2.*2.
Proof.
  revert f. induction hs as [|[now h] hs IH]; intros f Hg Hw; [by left|]. apply Forall_cons in Hg as [Hg Hgs]. cbn [follow].
  destruct (happen_waits now h f Hg Hw) as [H|H].
  - destruct (happen now h f) as [f' asked]. specialize (IH f' Hgs H). destruct (follow hs f') as [f'' later]. cbn [fst snd] in *.
    rewrite fmap_app, elem_of_app. tauto.
  - right. destruct (happen now h f) as [f' asked]. destruct (follow hs f') as [f'' later]. cbn [fst snd] in *.
    rewrite fmap_app, elem_of_app, <-list_fmap_compose. left. by rewrite list_fmap_id.
Qed.

Lemma change_waits now h f : change h f → describeKey ∈ waiting (happen now h f).1.
Proof.
  destruct h as [ty ob an| | |]; [|done..]. intros (Ho & Ht & Hc). cbn [happen fst]. unfold onEvent. rewrite Ho. cbn [negb].
  rewrite bool_decide_false by done. case_match eqn:E; [|left]. exfalso.
  apply andb_true_iff in E as [[E1%negb_true_iff E2%bool_decide_eq_true]%andb_true_iff E3%negb_true_iff].
  destruct Hc as [|[|]]; congruence.
Qed.

Lemma follow_app hs ks f :
  (follow (hs ++ ks) f).1 = (follow ks (follow hs f).1).1 ∧ (follow (hs ++ ks) f).2 = (follow hs f).2 ++ (follow ks (follow hs f).1).2.
Proof.
  revert f. induction hs as [|[now h] hs IH]; intros f; [done|]. cbn [follow app]. destruct (happen now h f) as [f' asked].
  specialize (IH f'). destruct (follow (hs ++ ks) f') as [f1 a1]. destruct (follow hs f') as [f2 a2]. cbn [fst snd] in *.
  destruct IH as [-> ->]. by rewrite app_assoc.
Qed.

Lemma inOrder_app t hs ks : inOrder t (hs ++ ks) ↔ inOrder t hs ∧ inOrder (lastTime t hs) ks.
Proof. revert t. induction hs as [|[now h] hs IH]; intros t; cbn; [tauto|]. rewrite IH. tauto. Qed.

(** A change is read.  However frames, resyncs and the timer came before and
    come after, as long as the window stays open and the object exists: once a
    frame says something new, either its description has been asked for since,
    or a timer is set, at most one interval after the last thing that happened,
    and when it runs with no read of it under way it asks for it. *)
Theorem change_is_read t0 before t h after :
  inOrder t0 (before ++ (t, h) :: after) →
  change h (follow before newFollower).1 →
  Forall (λ h, goesOn h.2) after →
  describeKey ∈ (follow after (happen t h (follow before newFollower).1).1).2.*2 ∨
  ∃ d, timer (follow after (happen t h (follow before newFollower).1).1).1 = Some d ∧ d <= lastTime t after + everyMs ∧
    ∀ now isFetching, d <= now → isFetching describeKey = false →
      describeKey ∈ (happen now (Timer isFetching) (follow after (happen t h (follow before newFollower).1).1).1).2.
Proof.
  intros [Hb [Ht Ha]]%inOrder_app Hc Hg. set (f0 := (follow before newFollower).1) in *.
  assert (timed (lastTime t0 before) f0) as H0 by (apply follow_timed; [done|by split]).
  pose proof (change_waits t h f0 Hc) as Hw. pose proof (happen_timed _ _ h f0 Ht H0) as H1.
  set (f1 := (happen t h f0).1) in *. destruct (follow_waits after f1 Hg Hw) as [Hw'|]; [right|by left].
  pose proof (follow_timed _ _ _ Ha H1) as [Hsome Hd]. set (f2 := (follow after f1).1) in *.
  destruct (Hsome ltac:(intros E; rewrite E in Hw'; by apply elem_of_nil in Hw')) as [d Ed].
  exists d. split_and!; [done|by apply Hd|]. intros now fe Hdn Hfe. cbn [happen]. rewrite Ed, (proj2 (Z.leb_le _ _)) by done.
  unfold read. cbn [snd]. apply elem_of_filterb. split; [done|]. rewrite bool_decide_false; [done|].
  intros [_ E]%elem_of_filterb. congruence.
Qed.

(** The times at which the timer asks for something. *)
Fixpoint readTimes (hs : list (Z * Happening)) (f : Follower) : list Z :=
  match hs with
  | [] => []
  | (now, h) :: hs' =>
      (match h, (happen now h f).2 with Timer _, _ :: _ => [now] | _, _ => [] end) ++ readTimes hs' (happen now h f).1
  end.

(** No timer runs less than an interval after [r]. *)
Definition notBefore (r : Z) (f : Follower) : Prop := ∀ d, timer f = Some d → r + everyMs <= d.

Lemma readSoon_notBefore r keys now f : r <= now → notBefore r f → notBefore r (readSoon keys now f).
Proof. intros Hr H d. cbn. destruct (timer f) as [d'|] eqn:E; intros [= <-]; [by apply H|lia]. Qed.

Lemma happen_notBefore r now h f : r <= now → notBefore r f → notBefore r (happen now h f).1.
Proof.
  intros Hr H. destruct h as [ty ob an| |fe|]; cbn [happen].
  - unfold onEvent. repeat case_match; cbn [fst]; [done..| |]; [exact H|]. apply readSoon_notBefore; [done|exact H].
  - unfold onResync. cbn [fst]. case_match; [done|]. by apply readSoon_notBefore.
  - destruct (timer f) as [d|] eqn:E; [|done]. case_match; [|done]. intros d'. cbn. case_match; [done|]. intros [= <-]. lia.
  - done.
Qed.

Lemma read_notBefore now fe f : (happen now (Timer fe) f).2 ≠ [] → notBefore now (happen now (Timer fe) f).1.
Proof.
  cbn [happen]. destruct (timer f) as [d|] eqn:E; [|done]. case_match; [|done]. intros _ d'. cbn. case_match; [done|]. intros [= <-]. lia.
Qed.

Lemma read_due now fe f r : notBefore r f → (happen now (Timer fe) f).2 ≠ [] → r + everyMs <= now.
Proof.
  intros H. cbn [happen]. destruct (timer f) as [d|] eqn:E; [|done]. destruct (d <=? now) eqn:El; [|done]. intros _.
  apply Z.leb_le in El. specialize (H d E). lia.
Qed.

Lemma readTimes_spaced r hs f :
  inOrder r hs → notBefore r f →
  Sorted (λ a b, a + everyMs <= b) (readTimes hs f) ∧ HdRel (λ a b, a + everyMs <= b) r (readTimes hs f).
Proof.
  revert r f. cut (∀ hs r t f, r <= t → inOrder t hs → notBefore r f →
    Sorted (λ a b, a + everyMs <= b) (readTimes hs f) ∧ HdRel (λ a b, a + everyMs <= b) r (readTimes hs f)).
  { intros H r f Ho Hf. by apply (H hs r r). }
  clear hs. induction hs as [|[now h] hs IH]; intros r t f Hr Ho Hf; [split; constructor|]. destruct Ho as [Ht Ho]. cbn [readTimes].
  assert (∀ (q : Prop), (Sorted (λ a b, a + everyMs <= b) (readTimes hs (happen now h f).1) ∧
            HdRel (λ a b, a + everyMs <= b) r (readTimes hs (happen now h f).1) → q) → q) as Hskip.
  { intros q Hq. apply Hq. apply (IH r now); [lia|done|]. apply happen_notBefore; [lia|done]. }
  destruct h as [ty ob an| |fe|]; try (by apply Hskip).
  destruct (happen now (Timer fe) f).2 as [|k l] eqn:E; [by apply Hskip|]. cbn [app].
  assert ((happen now (Timer fe) f).2 ≠ []) as Hne by (by rewrite E).
  destruct (IH now now (happen now (Timer fe) f).1) as [H1 H2]; [lia|done|by apply read_notBefore|].
  split; [by constructor|]. constructor. by apply (read_due now fe f r).
Qed.

(** However fast the object changes, the timer's reads of a window are an interval
    apart. *)
Theorem reads_an_interval_apart t0 hs : inOrder t0 hs → Sorted (λ a b, a + everyMs <= b) (readTimes hs newFollower).
Proof. intros Ho. by apply (readTimes_spaced t0). Qed.
End follower.

Definition sampleFrame (n : Z) : Happening := Frame (Some "MODIFIED") (VObj [("replicas", VNum n)]) VUndef.
Definition idle : Happening := Timer (λ _, false).
Definition busy : Happening := Timer (λ _, true).
Definition sampleHappenings : list (Z * Happening) := [(0, sampleFrame 1); (10, sampleFrame 2); (1000, busy); (1500, sampleFrame 3)].

Lemma change_is_read_witness :
  change toString (sampleFrame 1) newFollower ∧
  ("pod" ∈ (happen toString "pod" 1000 [] 2000 idle
              (follow toString "pod" 1000 [] sampleHappenings newFollower).1).2).
Proof.
  assert (change toString (sampleFrame 1) newFollower) as Hc by (split; [done|split; [done|right; left; done]]).
  split; [exact Hc|].
  destruct (change_is_read toString "pod" 1000 [] 0 [] 0 (sampleFrame 1) [(10, sampleFrame 2); (1000, busy); (1500, sampleFrame 3)])
    as [H|(d & Hd & Hle & Hread)].
  - vm_compute. repeat split; discriminate.
  - exact Hc.
  - repeat constructor; cbn; done.
  - vm_compute in H. by apply elem_of_nil in H.
  - exact (Hread 2000 (λ _, false) ltac:(vm_compute in Hd; injection Hd as <-; lia) eq_refl).
Defined.

Lemma reads_an_interval_apart_witness :
  inOrder 0 (sampleHappenings ++ [(2000, idle); (2001, sampleFrame 4); (3001, idle)]) ∧
  Sorted (λ a b, a + 1000 <= b) (readTimes toString "pod" 1000 [] (sampleHappenings ++ [(2000, idle); (2001, sampleFrame 4); (3001, idle)]) newFollower).
Proof.
  assert (inOrder 0 (sampleHappenings ++ [(2000, idle); (2001, sampleFrame 4); (3001, idle)])) as Ho by (vm_compute; repeat split; discriminate).
  split; [exact Ho|]. exact (reads_an_interval_apart toString "pod" 1000 [] 0 _ Ho).
Defined.

Example sample_reads :
  readTimes toString "pod" 1000 [] (sampleHappenings ++ [(2000, idle); (2001, sampleFrame 4); (3001, idle)]) newFollower = [2000; 3001].
Proof. by vm_compute. Qed.
