(* ===== verification/SecretYaml.v ===== *)
(** * The YAML window of a Secret

    components/resource-detail/utils.ts: the window shows the [data] of a Secret
    as [stringData], each value's letters instead of its base64
    ([decodeSecretYaml]), and turns it back when it is saved ([encodeSecretYaml]).
    Both read the text line by line; what the code says with regular expressions
    is written out as the one way they can match.

    A text is its UTF-16 code units.  [JSON.stringify] of a text is the language's:
    half a surrogate pair is written as an escape. *)

From S2P Require Import Prelude JsString ChatText Bytes.

#[local] Open Scope N_scope.

Definition BINARY_TAG : text := utf16 "!!binary".

(** ** Regular expressions *)

(** The line terminators [.] does not match. *)
Definition isLineEnd (c : N) : bool := bool_decide (c ∈ [10; 13; 8232; 8233]).
Definition dots (t : text) : bool := negb (some isLineEnd t).

Fixpoint prefixOf (p t : text) : bool :=
  match p, t with
  | [], _ => true
  | a :: p', b :: t' => (a =? b) && prefixOf p' t'
  | _, _ => false
  end.

(** A word, then spaces. *)
Definition isHeader (word line : text) : bool := prefixOf word line && every isSpace (drop (length word) line).

(** Up to the end spaces and perhaps a comment: with [\s*] before it (BLOCK_HEADER) or
    [\s+] (the quoted values). *)
Definition blankOrComment (t : text) : bool :=
  match trimStartText t with [] => true | c :: t' => (c =? 35) && dots t' end.
Definition endOrComment (t : text) : bool :=
  match t with [] => true | c :: _ => isSpace c && match trimStartText t with d :: t' => (d =? 35) && dots t' | [] => false end end.

(** The spaces a line starts with, and the rest. *)
Fixpoint spaces (t : text) : text :=
  match t with c :: t' => if isSpace c then c :: spaces t' else [] | [] => [] end.

(** The shortest key before a colon after which [ok] holds, and what is after. *)
Fixpoint findKey (ok : text → bool) (key t : text) : option (text * text) :=
  match t with
  | [] => None
  | c :: t' =>
      if (c =? 58) && negb (bool_decide (key = [])) && ok t' then Some (key, t')
      else if isSpace c then None else findKey ok (key ++ [c]) t'
  end.

(** An entry of a block: the indent, the shortest key and the value, which is
    trimmed where it is used.  In [data] a value has a character at least. *)
Definition hasValue (t : text) : bool :=
  match trimStartText t with [] => match List.last t 10 with c => negb (isLineEnd c) end | v => dots v end.

Definition entryOf (ok : text → bool) (line : text) : option (text * text * text) :=
  match spaces line with
  | [] => None
  | indent => '(key, value) ← findKey ok [] (drop (length indent) line); Some (indent, key, trimText value)
  end.

Definition dataEntry : text → option (text * text * text) := entryOf hasValue.
Definition stringDataEntry : text → option (text * text * text) := entryOf (λ _, true).

Definition isDigit19 (c : N) : bool := (49 <=? c) && (c <=? 57).
Definition isSign (c : N) : bool := (c =? 45) || (c =? 43).

(** [BLOCK_HEADER]: [|] or [>], and the indicators. *)
Definition blockHeader (t : text) : option (N * text) :=
  match t with
  | c :: r =>
      if (c =? 124) || (c =? 62) then
        let n1 := match r with s :: _ => if isSign s then 1%nat else 0%nat | [] => 0%nat end in
        let n2 := match drop n1 r with d :: _ => if isDigit19 d then 1%nat else 0%nat | [] => 0%nat end in
        let m1 := match r with d :: _ => if isDigit19 d then 1%nat else 0%nat | [] => 0%nat end in
        let m2 := match drop m1 r with s :: _ => if isSign s then 1%nat else 0%nat | [] => 0%nat end in
        let tries := [n1 + n2; n1; 0]%nat ++ (if bool_decide (m1 = 1%nat) then [m1 + m2; m1]%nat else []) in
        match find (λ n, blankOrComment (drop n r)) tries with Some n => Some (c, take n r) | None => None end
      else None
  | [] => None
  end.

(** [BINARY_VALUE]: the word after the tag. *)
Fixpoint word (t : text) : text := match t with c :: t' => if isSpace c then [] else c :: word t' | [] => [] end.

Definition binaryValue (t : text) : option text :=
  if negb (prefixOf BINARY_TAG t) then None else
  let r := drop (length BINARY_TAG) t in
  match spaces r with
  | [] => None
  | s =>
      let w := word (drop (length s) r) in
      if bool_decide (w = []) then None else
      if endOrComment (drop (length w) (drop (length s) r)) then Some w else None
  end.

(** The body of [DOUBLE_QUOTED] after the opening quote. *)
Fixpoint doubleQuoted (body t : text) : option text :=
  match t with
  | [] => None
  | c :: t' =>
      if c =? 34 then if endOrComment t' then Some body else None
      else if c =? 92 then
        match t' with d :: t'' => if isLineEnd d then None else doubleQuoted (body ++ [c; d]) t'' | [] => None end
      else doubleQuoted (body ++ [c]) t'
  end.

(** The body of [SINGLE_QUOTED], its doubled quotes made one. *)
Fixpoint singleQuoted (body t : text) : option text :=
  match t with
  | [] => None
  | c :: t' =>
      if c =? 39 then
        match t' with
        | d :: t'' => if d =? 39 then singleQuoted (body ++ [39]) t'' else if endOrComment t' then Some body else None
        | [] => Some body
        end
      else singleQuoted (body ++ [c]) t'
  end.

(** Without a comment after a space. *)
Fixpoint cutComment (t : text) : text :=
  match t with
  | [] => []
  | c :: t' =>
      if isSpace c && match trimStartText t with d :: r => (d =? 35) && dots r | [] => false end then [] else c :: cutComment t'
  end.

(** ** What the window shows *)

(** Letters an editor would hide or take for a line ending. *)
Definition staysEscaped (c : N) : bool := (0x7f <=? c) && (c <=? 0x9f) || (c =? 0x2028) || (c =? 0x2029) || (c =? 0xfeff).

(** An empty value written as nothing would read as null. *)
Definition encodedText (t : text) : text := match t with [] => [34; 34] | _ => toBase64 (utf8Encode t) end.

(** A value's letters; [None] for what no text holds as it is. *)
Definition lettersOf (bytes : list N) : option text :=
  t ← utf8Decode bytes;
  if some (λ c, (c <=? 8) || (14 <=? c) && (c <=? 31)) t then None else Some t.

Definition readsPlainly (t : text) : bool :=
  if bool_decide (t = []) || negb (bool_decide (t = trimText t)) || some (λ c, bool_decide (c ∈ [58; 35; 34; 39])) t
     || prefixOf BINARY_TAG t || bool_decide (is_Some (blockHeader t)) then false
  else negb (some (λ c, (c <? 32) || staysEscaped c) t).

Definition hexDigit (n : N) : N := if n <? 10 then 48 + n else 87 + n.
Definition hex4 (c : N) : text := [hexDigit (c / 4096); hexDigit (c / 256 mod 16); hexDigit (c / 16 mod 16); hexDigit (c mod 16)].
Definition unicodeEscape (c : N) : text := 92 :: 117 :: hex4 c.

(** One unit of [JSON.stringify], when it is no half of a pair. *)
Definition jsonUnit (c : N) : text :=
  if c =? 34 then [92; 34] else if c =? 92 then [92; 92]
  else if c =? 8 then [92; 98] else if c =? 12 then [92; 102] else if c =? 10 then [92; 110]
  else if c =? 13 then [92; 114] else if c =? 9 then [92; 116]
  else if c <? 32 then unicodeEscape c else [c].

Fixpoint jsonBody (t : text) : text :=
  match t with
  | [] => []
  | c :: t' =>
      if isLead c then
        match t' with
        | d :: t'' => if isTrail d then c :: d :: jsonBody t'' else unicodeEscape c ++ jsonBody t'
        | [] => unicodeEscape c
        end
      else if isTrail c then unicodeEscape c ++ jsonBody t'
      else jsonUnit c ++ jsonBody t'
  end.

Definition stringifyText (t : text) : text := 34 :: jsonBody t ++ [34].

(** What is shown for a value of data; [None] leaves the line as it is. *)
Definition shownValue (base64 : text) : option text :=
  bytes ← fromBase64 base64;
  match if bool_decide (toBase64 bytes = base64) then lettersOf bytes else None with
  | None => Some (BINARY_TAG ++ [32] ++ base64)
  | Some t =>
      if readsPlainly t then Some t
      else Some (stringifyText t ≫= λ c, if staysEscaped c then unicodeEscape c else [c])
  end.

Definition joinLines (ls : list text) : text :=
  match ls with [] => [] | l :: ls' => l ++ (ls' ≫= λ l, newline :: l) end.

Definition entryLine (indent key value : text) : text := indent ++ key ++ [58; 32] ++ value.

(** A line that is not empty and does not start with a space ends a block. *)
Definition endsBlock (line : text) : bool := match line with c :: _ => negb (c =? 32) | [] => false end.

(** In a block the indent of its first entry, if there was one. *)
Inductive Block := Outside | Inside (indent : option nat).

Fixpoint decodeLines (b : Block) (lines : list text) : list text :=
  match lines with
  | [] => []
  | line :: lines' =>
      if isHeader (utf16 "data:") line then utf16 "stringData:" :: decodeLines (Inside None) lines'
      else match b with
      | Outside => line :: decodeLines Outside lines'
      | Inside d =>
          let leave d := if endsBlock line then Outside else Inside d in
          match dataEntry line with
          | Some (indent, key, value) =>
              let d := default (length indent) d in
              if Nat.eqb (length indent) d then
                (match shownValue value with Some s => entryLine indent key s | None => line end) :: decodeLines (Inside (Some d)) lines'
              else line :: decodeLines (leave (Some d)) lines'
          | None => line :: decodeLines (leave d) lines'
          end
      end
  end.

Definition decodeSecretYaml (yaml : text) : text := joinLines (decodeLines Outside (splitLines yaml)).

(** ** What is saved *)

Definition hexWidth (c : N) : option nat :=
  if c =? 120 then Some 2%nat else if c =? 117 then Some 4%nat else if c =? 85 then Some 8%nat else None.

Definition hexValue (c : N) : option N :=
  if (48 <=? c) && (c <=? 57) then Some (c - 48)
  else if (97 <=? c) && (c <=? 102) then Some (c - 87)
  else if (65 <=? c) && (c <=? 70) then Some (c - 55) else None.

Definition hexNumber (digits : text) : option N :=
  vs ← mapM hexValue digits; Some (foldl (λ n v, n * 16 + v) 0 vs).

(** [YAML_ESCAPES]. *)
Definition yamlEscape (c : N) : option N :=
  match find (λ p, p.1 =? c)
    [(48, 0); (97, 7); (98, 8); (116, 9); (9, 9); (110, 10); (118, 11); (102, 12); (114, 13); (101, 27); (32, 32);
     (34, 34); (47, 47); (92, 92); (78, 0x85); (95, 0xa0); (76, 0x2028); (80, 0x2029)] with
  | Some p => Some p.2
  | None => None
  end.

(** [skip] units were read with the escape before them. *)
Fixpoint doubleQuotedText (skip : nat) (body : text) : option text :=
  match body with
  | [] => Some []
  | c :: body' =>
      match skip with
      | S k => doubleQuotedText k body'
      | O =>
          if negb (c =? 92) then cons c <$> doubleQuotedText 0 body'
          else match body' with
          | [] => None
          | e :: body'' =>
              match hexWidth e with
              | Some width =>
                  if Nat.eqb (length (take width body'')) width then
                    match hexNumber (take width body'') with
                    | Some code => if code <=? 0x10ffff then app (units code) <$> doubleQuotedText (S width) body' else None
                    | None => None
                    end
                  else None
              | None => match yamlEscape e with Some x => cons x <$> doubleQuotedText 1 body' | None => None end
              end
          end
      end
  end.

(** The value a line of one line says. *)
Definition savedText (raw : text) : text :=
  match raw with
  | 34 :: t =>
      match doubleQuoted [] t with
      | Some body => default raw (doubleQuotedText 0 body)
      | None => cutComment raw
      end
  | 39 :: t => match singleQuoted [] t with Some body => body | None => cutComment raw end
  | _ => cutComment raw
  end.

Fixpoint dropBlank (t : list text) : list text :=
  match t with l :: t' => if bool_decide (l = []) then dropBlank t' else t | [] => [] end.

(** [foldedText]; [first]: no line was written yet. *)
Fixpoint foldLines (first : bool) (blanks : nat) (afterDeeper : bool) (lines : list text) : text :=
  match lines with
  | [] => []
  | line :: lines' =>
      if bool_decide (line = []) then foldLines first (S blanks) afterDeeper lines'
      else
        let deeper := match line with c :: _ => (c =? 32) || (c =? 9) | [] => false end in
        let between :=
          if first then replicate blanks newline
          else if deeper || afterDeeper then replicate (S blanks) newline
          else match blanks with O => [32] | _ => replicate blanks newline end in
        between ++ line ++ foldLines false 0 deeper lines'
  end.

Definition foldedText (lines : list text) : text := foldLines true 0 false lines.

Definition blank (line : text) : bool := bool_decide (trimText line = []).
Definition indentWidth (line : text) : nat := length (spaces line).

(** How many lines below the key a block takes. *)
Fixpoint blockLength (keyIndent : nat) (lines : list text) : nat :=
  match lines with
  | line :: lines' => if blank line || Nat.ltb keyIndent (indentWidth line) then S (blockLength keyIndent lines') else 0
  | [] => 0
  end.

(** The value of a block, and the lines it takes. *)
Definition blockValue (lines : list text) (keyIndent : nat) (header : N * text) : text * nat :=
  let n := blockLength keyIndent lines in
  let endsTheText := Nat.eqb n (length lines) in
  let finalBreak := negb endsTheText || (Nat.ltb 0 n && bool_decide (List.last lines [0] = [])) in
  let end_ := if endsTheText && finalBreak then pred n else n in
  let body := take end_ lines in
  let indent :=
    match find isDigit19 header.2 with
    | Some d => (keyIndent + N.to_nat (d - 48))%nat
    | None => match find (λ l, negb (blank l)) body with Some l => indentWidth l | None => 0%nat end
    end in
  let texts := (λ line, if blank line && Nat.leb (length line) indent then [] else drop indent line) <$> body in
  let kept := rev (dropBlank (rev texts)) in
  let trailing := (length texts - length kept)%nat in
  let content := if header.1 =? 124 then joinLines kept else foldedText kept in
  let breaks := replicate trailing newline in
  (if some (λ c, c =? 45) header.2 then content
   else if some (λ c, c =? 43) header.2 then match kept with [] => breaks | _ => content ++ [newline] ++ breaks end
   else if negb (bool_decide (kept = [])) && (Nat.ltb 0 trailing || finalBreak) then content ++ [newline] else content,
   end_).

(** [skip] lines were read with the block before them. *)
Fixpoint encodeLines (b : Block) (skip : nat) (lines : list text) : list text :=
  match lines with
  | [] => []
  | line :: lines' =>
      match skip with
      | S k => encodeLines b k lines'
      | O =>
          if isHeader (utf16 "stringData:") line then utf16 "data:" :: encodeLines (Inside None) 0 lines'
          else match b with
          | Outside => line :: encodeLines Outside 0 lines'
          | Inside d =>
              let leave d := if endsBlock line then Outside else Inside d in
              match stringDataEntry line with
              | Some (indent, key, raw) =>
                  let d := default (length indent) d in
                  if Nat.eqb (length indent) d then
                    match blockHeader raw with
                    | Some header =>
                        let block := blockValue lines' (length indent) header in
                        entryLine indent key (encodedText block.1) :: encodeLines (Inside (Some d)) block.2 lines'
                    | None =>
                        (if bool_decide (raw = []) then line
                         else entryLine indent key (default (encodedText (savedText raw)) (binaryValue raw)))
                        :: encodeLines (Inside (Some d)) 0 lines'
                    end
                  else line :: encodeLines (leave (Some d)) 0 lines'
              | None => line :: encodeLines (leave d) 0 lines'
              end
          end
      end
  end.

Definition encodeSecretYaml (yaml : text) : text := joinLines (encodeLines Outside 0 (splitLines yaml)).

(** ** Examples of the repository's tests *)

Definition windowOf (value : text) : text := utf16 "stringData:
  value: " ++ value ++ utf16 "
kind: Secret
".

Example a_block_is_saved : encodeSecretYaml (utf16 "stringData:
  value: |
    a
    b
  next: n
kind: Secret
") = utf16 "data:
  value: YQpiCg==
  next: bg==
kind: Secret
".
Proof. by vm_compute. Qed.

Example a_mask_is_saved : encodeSecretYaml (windowOf (utf16 "'***' # kept")) = utf16 "data:
  value: Kioq
kind: Secret
".
Proof. by vm_compute. Qed.

Example hangul_round_trip : encodeSecretYaml (decodeSecretYaml (utf16 "data:
    other: c3RheXM=
    value: IOqwgOynnCDruYTrsIDrsojtmLgg
kind: Secret
")) = utf16 "data:
    other: c3RheXM=
    value: IOqwgOynnCDruYTrsIDrsojtmLgg
kind: Secret
".
Proof. by vm_compute. Qed.

(** ** Quoting *)

(** A body and the letters it stands for. *)
Inductive quoted : text → text → Prop :=
  | quoted_nil : quoted [] []
  | quoted_unit c E t : c ≠ 34 → c ≠ 92 → quoted E t → quoted (c :: E) (c :: t)
  | quoted_escape d x E t :
      yamlEscape d = Some x → hexWidth d = None → isLineEnd d = false → quoted E t → quoted (92 :: d :: E) (x :: t)
  | quoted_hex c E t : c < 65536 → quoted E t → quoted (unicodeEscape c ++ E) (c :: t).

Lemma hexDigit_value n : n < 16 → hexValue (hexDigit n) = Some n ∧ hexDigit n ≠ 34 ∧ hexDigit n ≠ 92 ∧ 32 <= hexDigit n < 127.
Proof.
  intros Hn. assert (n ∈ [0; 1; 2; 3; 4; 5; 6; 7; 8; 9; 10; 11; 12; 13; 14; 15]) as H.
  { rewrite !elem_of_cons. lia. }
  repeat (apply elem_of_cons in H as [->|H]; [by split_and!|]). by apply elem_of_nil in H.
Qed.

Lemma hex4_digits c : c < 65536 → Forall (λ n, n < 16) [c / 4096; c / 256 mod 16; c / 16 mod 16; c mod 16].
Proof. intros Hc. repeat constructor; lia. Qed.

Lemma hex4_number c : c < 65536 → hexNumber (hex4 c) = Some c.
Proof.
  intros Hc. pose proof (hex4_digits c Hc) as H. repeat (apply Forall_cons in H as [? H]). unfold hexNumber, hex4. cbn [mapM].
  rewrite !(λ n Hn, proj1 (hexDigit_value n Hn)) by done. cbn. f_equal. lia.
Qed.

Lemma hex4_units c : c < 65536 → Forall (λ d, d ≠ 34 ∧ d ≠ 92 ∧ 32 <= d < 127) (hex4 c).
Proof.
  intros Hc. pose proof (hex4_digits c Hc) as H. unfold hex4. repeat (apply Forall_cons in H as [? H]).
  repeat (constructor; [by apply hexDigit_value|]). constructor.
Qed.

Lemma doubleQuoted_app acc (l : text) r : Forall (λ d, d ≠ 34 ∧ d ≠ 92) l → doubleQuoted acc (l ++ r) = doubleQuoted (acc ++ l) r.
Proof.
  revert acc. induction l as [|d l IH]; intros acc H; cbn [app]; [by rewrite app_nil_r|]. apply Forall_cons in H as [[H1 H2] H].
  cbn [doubleQuoted]. rewrite !(proj2 (N.eqb_neq _ _)) by done. rewrite IH by done. by rewrite <-app_assoc.
Qed.

Lemma doubleQuoted_quoted acc E t : quoted E t → doubleQuoted acc (E ++ [34]) = Some (acc ++ E).
Proof.
  intros H. revert acc. induction H as [|c E t H1 H2 _ IH|d x E t _ _ Hd _ IH|c E t Hc _ IH]; intros acc; cbn [app].
  - cbn. by rewrite app_nil_r.
  - cbn [doubleQuoted]. rewrite !(proj2 (N.eqb_neq _ _)) by done. rewrite IH. by rewrite <-app_assoc.
  - cbn [doubleQuoted]. change (92 =? 34) with false. change (92 =? 92) with true. cbv iota. rewrite Hd, IH. by rewrite <-app_assoc.
  - unfold unicodeEscape. cbn [app doubleQuoted]. change (92 =? 34) with false. change (92 =? 92) with true. cbv iota.
    change (isLineEnd 117) with false. cbv iota. rewrite <-app_assoc, doubleQuoted_app.
    + rewrite IH. by rewrite <-!app_assoc.
    + eapply Forall_impl; [by apply hex4_units|]. by intros ? (? & ? & _).
Qed.

Lemma doubleQuotedText_skip (l : text) r : doubleQuotedText (length l) (l ++ r) = doubleQuotedText 0 r.
Proof. induction l as [|c l IH]; [done|]. exact IH. Qed.

Lemma doubleQuotedText_quoted E t : quoted E t → doubleQuotedText 0 E = Some t.
Proof.
  induction 1 as [|c E t H1 H2 _ IH|d x E t Hy Hh _ _ IH|c E t Hc _ IH].
  - done.
  - cbn [doubleQuotedText]. rewrite (proj2 (N.eqb_neq _ _)) by done. cbn [negb]. by rewrite IH.
  - cbn [doubleQuotedText]. change (negb (92 =? 92)) with false. cbv iota. rewrite Hh, Hy. by rewrite IH.
  - unfold unicodeEscape. cbn [app doubleQuotedText]. change (negb (92 =? 92)) with false. change (hexWidth 117) with (Some 4%nat). cbv iota.
    rewrite (take_app_length' (hex4 c) E 4) by done. change (Nat.eqb (length (hex4 c)) 4) with true. cbv iota.
    rewrite hex4_number by done. rewrite (proj2 (N.leb_le _ _)) by lia.
    change 4%nat with (length (hex4 c)). rewrite doubleQuotedText_skip, IH. unfold units. by rewrite (proj2 (N.ltb_lt _ _)) by lia.
Qed.

Definition escapeUnit (c : N) : text := if staysEscaped c then unicodeEscape c else [c].

Lemma staysEscaped_small c : c < 127 → staysEscaped c = false.
Proof.
  intros Hc. unfold staysEscaped. rewrite (proj2 (N.leb_gt _ _)) by lia.
  by rewrite !(proj2 (N.eqb_neq _ _)) by lia.
Qed.

Lemma escapeUnits_small (l : text) : Forall (λ c, c < 127) l → l ≫= escapeUnit = l.
Proof.
  induction 1 as [|c l Hc _ IH]; [done|]. cbn [mbind list_bind]. unfold escapeUnit at 1. rewrite staysEscaped_small by done.
  cbn [app]. f_equal. exact IH.
Qed.

Lemma unicodeEscape_small c : c < 65536 → Forall (λ d, d < 127) (unicodeEscape c).
Proof. intros Hc. repeat (constructor; [lia|]). eapply Forall_impl; [by apply hex4_units|]. cbn. lia. Qed.

Lemma quoted_jsonUnit c E t : c < 65536 → quoted E t → quoted ((jsonUnit c ≫= escapeUnit) ++ E) (c :: t).
Proof.
  intros Hc HE. unfold jsonUnit.
  repeat (match goal with |- context [if c =? ?k then _ else _] => destruct (N.eqb_spec c k) as [->|] end;
          [rewrite escapeUnits_small by (repeat constructor; lia); by apply quoted_escape|]).
  destruct (c <? 32) eqn:E1.
  - rewrite escapeUnits_small by (by apply unicodeEscape_small). by apply quoted_hex.
  - cbn [mbind list_bind]. rewrite app_nil_r. unfold escapeUnit. destruct (staysEscaped c); [by apply quoted_hex|by apply quoted_unit].
Qed.

Lemma surrogate_unit c E t : 0xD800 <= c <= 0xDFFF → quoted E t → quoted (([c] ≫= escapeUnit) ++ E) (c :: t).
Proof.
  intros Hc HE. cbn [mbind list_bind]. rewrite app_nil_r. unfold escapeUnit. assert (staysEscaped c = false) as ->.
  { unfold staysEscaped. rewrite (proj2 (N.leb_gt c 0x9f)) by lia. rewrite andb_false_r. by rewrite !(proj2 (N.eqb_neq _ _)) by lia. }
  apply quoted_unit; [lia..|done].
Qed.

Lemma jsonBody_quoted t : paired t = true → Forall (λ c, c < 65536) t → quoted (jsonBody t ≫= escapeUnit) t.
Proof.
  cut (∀ n t, (length t ≤ n)%nat → paired t = true → Forall (λ c, c < 65536) t → quoted (jsonBody t ≫= escapeUnit) t);
    [intros H; by eapply H|].
  clear. induction n as [|n IH]; intros [|c t] Hn Hp Hf; [constructor|cbn in Hn; lia|constructor|].
  apply Forall_cons in Hf as [Hc Hf]. cbn [paired jsonBody] in *. destruct (isLead c) eqn:El.
  - destruct t as [|d t]; [done|]. apply andb_true_iff in Hp as [Ht Hp]. rewrite Ht. apply Forall_cons in Hf as [Hd Hf].
    unfold isLead in El. unfold isTrail in Ht. apply andb_true_iff in El as [?%N.leb_le ?%N.leb_le], Ht as [?%N.leb_le ?%N.leb_le].
    change (c :: d :: jsonBody t) with ([c] ++ [d] ++ jsonBody t). rewrite !bind_app.
    apply surrogate_unit; [lia|]. apply surrogate_unit; [lia|]. apply IH; [cbn in Hn; lia|done..].
  - apply andb_true_iff in Hp as [Ht%negb_true_iff Hp]. rewrite Ht. rewrite bind_app. apply quoted_jsonUnit; [done|].
    apply IH; [cbn in Hn; lia|done..].
Qed.

(** ** One value *)

Lemma trim_solid s : trimStartText s = s → trimStartText (rev s) = rev s → trimText s = s.
Proof. intros H1 H2. unfold trimText, trimEndText. by rewrite H1, H2, rev_involutive. Qed.

Lemma trimStart_solid c s : isSpace c = false → trimStartText (c :: s) = c :: s.
Proof. intros H. cbn. by rewrite H. Qed.

(** A text without spaces. *)
Definition solid (s : text) : Prop := Forall (λ c, isSpace c = false) s.

Lemma solid_trimStart s : solid s → trimStartText s = s.
Proof. destruct s as [|c s]; [done|]. intros [H _]%Forall_cons. by apply trimStart_solid. Qed.

Lemma trim_ends s b : b ≠ [] → solid b → trimStartText (s ++ b) = s ++ b → trimText (s ++ b) = s ++ b.
Proof.
  intros Hne Hb Hs. apply trim_solid; [done|]. rewrite rev_app_distr. destruct (rev b) as [|c r] eqn:E.
  - apply (f_equal (@rev N)) in E. rewrite rev_involutive in E. by subst.
  - apply trimStart_solid. apply (proj1 (Forall_forall _ _) Hb), list_elem_of_In, in_rev. rewrite E. by left.
Qed.

Lemma solid_spaces s r : solid s → s ≠ [] → spaces (s ++ r) = [].
Proof. destruct s as [|c s]; [done|]. intros [H _]%Forall_cons _. cbn. by rewrite H. Qed.

Lemma word_solid s : solid s → word s = s.
Proof. induction 1 as [|c s Hc _ IH]; [done|]. cbn. by rewrite Hc, IH. Qed.

Lemma trimStart_sub c s : c ∈ trimStartText s → c ∈ s.
Proof. induction s as [|d s IH]; [done|]. cbn. destruct (isSpace d); [|done]. intros H. right. by apply IH. Qed.

Lemma cutComment_none s : 35 ∉ s → cutComment s = s.
Proof.
  induction s as [|c s IH]; intros H; [done|]. cbn [cutComment].
  assert ((match trimStartText (c :: s) with d :: r => (d =? 35) && dots r | [] => false end) = false) as ->.
  { destruct (trimStartText (c :: s)) as [|d r] eqn:E; [done|]. destruct (N.eqb_spec d 35) as [->|]; [|done].
    destruct H. apply trimStart_sub. rewrite E. left. }
  rewrite andb_false_r, IH; [done|]. intros Hin. apply H. by right.
Qed.

Lemma savedText_other c s : c ≠ 34 → c ≠ 39 → savedText (c :: s) = cutComment (c :: s).
Proof. intros H1 H2. unfold savedText. repeat (case_match; try done). Qed.

Lemma binary_saved b : b ≠ [] → solid b → binaryValue (BINARY_TAG ++ [32] ++ b) = Some b.
Proof.
  intros Hne Hb. unfold binaryValue. change (prefixOf BINARY_TAG (BINARY_TAG ++ [32] ++ b)) with true. cbv iota. cbn [negb].
  rewrite drop_app_length. cbn [app spaces]. change (isSpace 32) with true. cbv iota. rewrite <-(app_nil_r b), solid_spaces by done.
  rewrite app_nil_r. cbn [length drop]. rewrite word_solid by done. rewrite bool_decide_false by done. by rewrite drop_all.
Qed.

Lemma readsPlainly_true t :
  readsPlainly t = true →
  t ≠ [] ∧ t = trimText t ∧ Forall (λ c, c ≠ 58 ∧ c ≠ 35 ∧ c ≠ 34 ∧ c ≠ 39) t ∧ prefixOf BINARY_TAG t = false ∧ blockHeader t = None ∧
  Forall (λ c, 32 <= c) t.
Proof.
  unfold readsPlainly. case_match eqn:E; [done|]. apply orb_false_iff in E as [E E5]. apply orb_false_iff in E as [E E4].
  apply orb_false_iff in E as [E E3]. apply orb_false_iff in E as [E1 E2]. intros E6%negb_true_iff.
  apply bool_decide_eq_false in E1, E5. apply negb_false_iff, bool_decide_eq_true in E2. split_and!; try done.
  - apply Forall_forall. intros c Hc. apply not_true_iff_false in E3. rewrite some_true in E3.
    assert (c ∉ [58; 35; 34; 39]) as Hn by (intros Hin; apply E3; exists c; split; [done|by apply bool_decide_eq_true]).
    rewrite !not_elem_of_cons in Hn. tauto.
  - by apply eq_None_not_Some.
  - apply Forall_forall. intros c Hc. apply not_true_iff_false in E6. rewrite some_true in E6.
    destruct (N.le_gt_cases 32 c) as [|Hlt]; [done|]. destruct E6. exists c. split; [done|]. by rewrite (proj2 (N.ltb_lt _ _)).
Qed.

Lemma jsonBody_printable t : Forall (λ c, c < 65536) t → Forall (λ c, 32 <= c) (jsonBody t).
Proof.
  assert (∀ c, c < 65536 → Forall (λ d, 32 <= d) (unicodeEscape c)) as Hu.
  { intros c Hc. repeat (constructor; [lia|]). eapply Forall_impl; [by apply hex4_units|]. cbn. lia. }
  cut (∀ n t, (length t ≤ n)%nat → Forall (λ c, c < 65536) t → Forall (λ c, 32 <= c) (jsonBody t)); [intros H; by eapply H|].
  clear t. induction n as [|n IH]; intros [|c t] Hn Hf; [constructor|cbn in Hn; lia|constructor|]. cbn in Hn.
  apply Forall_cons in Hf as [Hc Hf]. cbn [jsonBody].
  assert (Forall (λ d, 32 <= d) (jsonBody t)) as Ht by (apply IH; [lia|done]).
  destruct (isLead c) eqn:El.
  - unfold isLead in El. apply andb_true_iff in El as [?%N.leb_le _]. destruct t as [|d t]; [by apply Hu|].
    apply Forall_cons in Hf as [Hd Hf]. cbn in Hn. destruct (isTrail d) eqn:Et.
    + unfold isTrail in Et. apply andb_true_iff in Et as [?%N.leb_le _]. constructor; [lia|]. constructor; [lia|]. apply IH; [lia|done].
    + apply Forall_app. split; [by apply Hu|done].
  - destruct (isTrail c); apply Forall_app; (split; [|done]); [by apply Hu|]. unfold jsonUnit.
    repeat (case_match; [repeat constructor; lia|]). case_match eqn:E; [by apply Hu|]. apply N.ltb_ge in E. by repeat constructor.
Qed.

Lemma escapeUnits_printable (l : text) : Forall (λ c, 32 <= c) l → Forall (λ c, 32 <= c) (l ≫= escapeUnit).
Proof.
  induction 1 as [|c l Hc _ IH]; [constructor|]. cbn [mbind list_bind]. apply Forall_app. split; [|exact IH].
  unfold escapeUnit. destruct (staysEscaped c) eqn:E; [|by repeat constructor]. repeat (constructor; [lia|]).
  eapply Forall_impl; [apply hex4_units|cbn; lia]. unfold staysEscaped in E. rewrite !orb_true_iff, andb_true_iff, !N.leb_le, !N.eqb_eq in E. lia.
Qed.

(** What the window shows for [b] is one line, read back as [b]. *)
Definition readBack (s b : text) : Prop :=
  trimText s = s ∧ s ≠ [] ∧ newline ∉ s ∧ blockHeader s = None ∧ default (encodedText (savedText s)) (binaryValue s) = b.

Lemma printable_no_newline s : Forall (λ c, 32 <= c) s → newline ∉ s.
Proof. intros H Hin. apply (proj1 (Forall_forall _ _) H) in Hin. unfold newline in Hin. lia. Qed.

Lemma plain_readBack t b :
  readsPlainly t = true → toBase64 (utf8Encode t) = b → readBack t b.
Proof.
  intros Hp Hb. destruct (readsPlainly_true t Hp) as (Hne & Ht & Hc & Hpre & Hh & Hpr). split_and!; [done|done|by apply printable_no_newline|done|].
  unfold binaryValue. rewrite Hpre. cbn [negb default from_option]. destruct t as [|c t]; [done|].
  pose proof Hc as [(_ & _ & H34 & H39) _]%Forall_cons.
  rewrite savedText_other, cutComment_none by (done || intros Hin; by apply (proj1 (Forall_forall _ _) Hc) in Hin as (_ & ? & _)). done.
Qed.

Lemma json_readBack t b :
  paired t = true → Forall (λ c, c < 65536) t → encodedText t = b → readBack (stringifyText t ≫= escapeUnit) b.
Proof.
  intros Hp Hf Hb. pose proof (jsonBody_quoted t Hp Hf) as Hq.
  assert (stringifyText t ≫= escapeUnit = 34 :: (jsonBody t ≫= escapeUnit) ++ [34]) as ->.
  { unfold stringifyText. change (34 :: jsonBody t ++ [34]) with ([34] ++ jsonBody t ++ [34]). by rewrite !bind_app. }
  split_and!.
  - apply (trim_ends (34 :: (jsonBody t ≫= escapeUnit)) [34]); [done|by repeat constructor|by apply trimStart_solid].
  - done.
  - apply printable_no_newline. constructor; [lia|]. apply Forall_app. split; [by apply escapeUnits_printable, jsonBody_printable|by repeat constructor].
  - done.
  - unfold binaryValue. change (prefixOf BINARY_TAG (34 :: _)) with false. cbn [negb default from_option].
    unfold savedText. rewrite (doubleQuoted_quoted [] _ _ Hq). change ([] ++ (jsonBody t ≫= escapeUnit)) with (jsonBody t ≫= escapeUnit). by rewrite (doubleQuotedText_quoted _ _ Hq).
Qed.

Lemma binary_readBack b : b ≠ [] → solid b → readBack (BINARY_TAG ++ [32] ++ b) b.
Proof.
  intros Hne Hb. split; [|split; [|split; [|split]]].
  - rewrite app_assoc. apply (trim_ends (BINARY_TAG ++ [32]) b); [done..|]. by apply trimStart_solid.
  - done.
  - intros [Hin|[Hin|Hin]%elem_of_cons]%elem_of_app; [|done|].
    + vm_compute in Hin. repeat (apply elem_of_cons in Hin as [[=]|Hin]). by apply elem_of_nil in Hin.
    + apply (proj1 (Forall_forall _ _) Hb) in Hin. by vm_compute in Hin.
  - reflexivity.
  - by rewrite binary_saved.
Qed.

Lemma shown_readBack b s : b ≠ [] → solid b → shownValue b = Some s → readBack s b.
Proof.
  intros Hne Hb. unfold shownValue. destruct (fromBase64 b) as [bytes|]; [|done]. cbn [mbind option_bind].
  destruct (if bool_decide (toBase64 bytes = b) then lettersOf bytes else None) as [t|] eqn:E.
  - case_bool_decide as Hcan; [|done]. unfold lettersOf in E. destruct (utf8Decode bytes) as [t'|] eqn:Hd; [|done]. cbn in E.
    case_match; [done|]. injection E as ->. pose proof (utf8_decoded _ _ Hd) as He. destruct (utf8_paired _ _ Hd) as [Hp Hf].
    destruct (readsPlainly t) eqn:Hr; intros [= <-].
    + apply plain_readBack; [done|]. by rewrite He.
    + apply json_readBack; [done..|]. destruct t as [|c t]; [|cbn [encodedText]; by rewrite He]. cbn in He. subst bytes. by destruct Hne.
  - intros E'. injection E' as <-. by apply binary_readBack.
Qed.

(** ** The document *)

Definition MASK : text := utf16 "'***'".

(** What the server writes for a value: base64, the empty text, or the mask. *)
Definition sentValue (v : text) : Prop :=
  v = [34; 34] ∨ v = MASK ∨ (v ≠ [] ∧ solid v ∧ is_Some (fromBase64 v)).

(** What is saved for it: the same, and for the mask its letters. *)
Definition savedAs (v : text) : text := if bool_decide (v = MASK) then utf16 "Kioq" else v.

Definition plainKey (k : text) : Prop := k ≠ [] ∧ solid k ∧ 58 ∉ k.

(** A line outside of the blocks. *)
Definition otherLine (l : text) : Prop :=
  newline ∉ l ∧ isHeader (utf16 "data:") l = false ∧ isHeader (utf16 "stringData:") l = false.

Definition startsPlain (l : text) : Prop := match l with c :: _ => isSpace c = false | [] => False end.

Definition entryLines (n : nat) (entries : list (text * text)) : list text :=
  (λ e, entryLine (replicate (S n) 32) e.1 e.2) <$> entries.

Definition document (header : text) (pre : list text) (n : nat) (entries : list (text * text)) (post : list text) : text :=
  joinLines (pre ++ [header] ++ entryLines n entries ++ post).

Lemma splitLines_break l t : newline ∉ l → splitLines (l ++ newline :: t) = l :: splitLines t.
Proof.
  induction l as [|c l IH]; intros H; [done|]. apply not_elem_of_cons in H as [Hc H]. cbn [app splitLines].
  rewrite (proj2 (N.eqb_neq _ _)) by done. by rewrite IH.
Qed.

Lemma splitLines_one l : newline ∉ l → splitLines l = [l].
Proof.
  induction l as [|c l IH]; intros H; [done|]. apply not_elem_of_cons in H as [Hc H]. cbn [splitLines].
  rewrite (proj2 (N.eqb_neq _ _)) by done. by rewrite IH.
Qed.

Lemma joinLines_cons l l' ls : joinLines (l :: l' :: ls) = l ++ newline :: joinLines (l' :: ls).
Proof. done. Qed.

Lemma lines_of_join ls : ls ≠ [] → Forall (λ l, newline ∉ l) ls → splitLines (joinLines ls) = ls.
Proof.
  intros Hne Hf. induction Hf as [|l ls Hl Hls IH]; [done|]. destruct ls as [|l' ls].
  - cbn [joinLines mbind list_bind]. rewrite app_nil_r. by apply splitLines_one.
  - rewrite joinLines_cons, splitLines_break by done. f_equal. by apply IH.
Qed.

Lemma spaces_indent n s : startsPlain s → spaces (replicate n 32 ++ s) = replicate n 32.
Proof.
  intros Hs. induction n as [|n IH]; cbn [replicate app spaces].
  - destruct s as [|c s]; [done|]. cbn. by rewrite Hs.
  - change (isSpace 32) with true. cbv iota. by rewrite IH.
Qed.

Lemma plainKey_start k r : plainKey k → startsPlain (k ++ r).
Proof. intros (Hne & Hs & _). destruct k as [|c k]; [done|]. by apply Forall_cons in Hs as [? _]. Qed.

Lemma findKey_plain ok acc k r :
  solid k → 58 ∉ k → acc ++ k ≠ [] → ok r = true → findKey ok acc (k ++ 58 :: r) = Some (acc ++ k, r).
Proof.
  intros Hs. revert acc. induction Hs as [|c k Hc _ IH]; intros acc Hn Hne Hr; cbn [app findKey].
  - rewrite app_nil_r in Hne |- *. change (58 =? 58) with true. by rewrite bool_decide_false, Hr.
  - apply not_elem_of_cons in Hn as [Hn1 Hn]. rewrite (proj2 (N.eqb_neq _ _)) by done. cbn [andb]. rewrite Hc, IH.
    + by rewrite <-app_assoc.
    + done.
    + by rewrite <-app_assoc.
    + done.
Qed.

Lemma entryOf_line ok n k v :
  plainKey k → ok (32 :: v) = true → entryOf ok (entryLine (replicate (S n) 32) k v) = Some (replicate (S n) 32, k, trimText v).
Proof.
  intros Hk Hok. unfold entryOf, entryLine. rewrite spaces_indent by (by apply plainKey_start). cbn [replicate].
  change (32 :: replicate n 32) with (replicate (S n) 32). rewrite drop_app_length. change ([58; 32] ++ v) with (58 :: 32 :: v).
  destruct Hk as (Hne & Hs & Hc). by rewrite (findKey_plain ok [] k (32 :: v) Hs Hc Hne Hok).
Qed.

Lemma header_indented w n s : startsPlain w → isHeader w (replicate (S n) 32 ++ s) = false.
Proof.
  intros Hw. destruct w as [|c w]; [done|]. unfold isHeader. cbn [replicate app prefixOf]. destruct (N.eqb_spec c 32) as [->|]; [done|done].
Qed.

Lemma solid_dots v : solid v → dots v = true.
Proof.
  intros Hs. unfold dots. apply negb_true_iff, not_true_iff_false. rewrite some_true. intros (c & Hc & Hl).
  apply (proj1 (Forall_forall _ _) Hs) in Hc. unfold isLineEnd in Hl. apply bool_decide_eq_true in Hl.
  repeat (apply elem_of_cons in Hl as [->|Hl]; [by vm_compute in Hc|]). by apply elem_of_nil in Hl.
Qed.

Lemma sent_solid v : sentValue v → v ≠ [] ∧ solid v.
Proof.
  intros [->|[->|(? & ? & _)]]; [| |done]; (split; [done|]); apply Forall_forall; intros c Hc; vm_compute in Hc;
    repeat (apply elem_of_cons in Hc as [->|Hc]; [done|]); by apply elem_of_nil in Hc.
Qed.

Lemma solid_trim v : solid v → trimText v = v.
Proof.
  intros Hs. apply trim_solid; [by apply solid_trimStart|]. apply solid_trimStart. apply Forall_forall. intros c Hc.
  apply (proj1 (Forall_forall _ _) Hs), list_elem_of_In, in_rev. by apply list_elem_of_In in Hc.
Qed.

Lemma dataEntry_line n k v :
  plainKey k → v ≠ [] → solid v → dataEntry (entryLine (replicate (S n) 32) k v) = Some (replicate (S n) 32, k, v).
Proof.
  intros Hk Hne Hv. unfold dataEntry. rewrite entryOf_line; [by rewrite solid_trim|done|]. unfold hasValue. cbn [trimStartText].
  change (isSpace 32) with true. cbv iota. rewrite solid_trimStart by done. destruct v; [done|]. by apply solid_dots.
Qed.

(** The value on screen. *)
Definition onScreen (v : text) : text := default v (shownValue v).

Lemma sent_readBack v : sentValue v → readBack (onScreen v) (savedAs v).
Proof.
  intros [->|[->|(Hne & Hs & (bytes & Hb))]].
  - split_and!; try by vm_compute. intros Hin. vm_compute in Hin. repeat (apply elem_of_cons in Hin as [[=]|Hin]). by apply elem_of_nil in Hin.
  - split_and!; try by vm_compute. intros Hin. vm_compute in Hin. repeat (apply elem_of_cons in Hin as [[=]|Hin]). by apply elem_of_nil in Hin.
  - unfold onScreen. assert (∃ s, shownValue v = Some s) as (s & Hsh).
    { unfold shownValue. rewrite Hb. cbn [mbind option_bind]. repeat case_match; by eexists. }
    rewrite Hsh. unfold savedAs. rewrite bool_decide_false; [by apply shown_readBack|]. intros ->. by vm_compute in Hb.
Qed.

Section document.
Context (n : nat).

Definition entryOk (e : text * text) : Prop := plainKey e.1 ∧ sentValue e.2.

Lemma decode_other lines rest : Forall otherLine lines → decodeLines Outside (lines ++ rest) = lines ++ decodeLines Outside rest.
Proof. induction 1 as [|l lines (_ & Hl & _) _ IH]; [done|]. cbn [app decodeLines]. by rewrite Hl, IH. Qed.

Lemma encode_other lines rest : Forall otherLine lines → encodeLines Outside 0 (lines ++ rest) = lines ++ encodeLines Outside 0 rest.
Proof. induction 1 as [|l lines (_ & _ & Hl) _ IH]; [done|]. cbn [app encodeLines]. by rewrite Hl, IH. Qed.

Lemma decode_entries entries rest d :
  Forall entryOk entries → default (S n) d = S n →
  ∃ d', decodeLines (Inside d) (entryLines n entries ++ rest) =
        entryLines n ((λ e, (e.1, onScreen e.2)) <$> entries) ++ decodeLines (Inside d') rest.
Proof.
  intros He. revert d. induction He as [|[k v] entries [Hk Hv] _ IH]; intros d Hd; [by exists d|].
  cbn [entryLines fmap list_fmap app decodeLines fst snd] in *.
  assert (isHeader (utf16 "data:") (entryLine (replicate (S n) 32) k v) = false) as -> by (by apply header_indented).
  destruct (sent_solid v Hv) as [Hne Hs]. rewrite dataEntry_line by done. rewrite length_replicate, Hd, Nat.eqb_refl.
  destruct (IH (Some (S n))) as (d' & E); [done|]. exists d'. unfold entryLines in E. rewrite E. f_equal.
  unfold onScreen. by destruct (shownValue v).
Qed.

Lemma encode_entries entries rest d :
  Forall entryOk entries → default (S n) d = S n →
  ∃ d', encodeLines (Inside d) 0 (entryLines n ((λ e, (e.1, onScreen e.2)) <$> entries) ++ rest) =
        entryLines n ((λ e, (e.1, savedAs e.2)) <$> entries) ++ encodeLines (Inside d') 0 rest.
Proof.
  intros He. revert d. induction He as [|[k v] entries [Hk Hv] _ IH]; intros d Hd; [by exists d|].
  cbn [entryLines fmap list_fmap app encodeLines fst snd] in *.
  destruct (sent_readBack v Hv) as (Htrim & Hne & _ & Hbh & Hsaved). set (s := onScreen v) in *.
  assert (isHeader (utf16 "stringData:") (entryLine (replicate (S n) 32) k s) = false) as -> by (by apply header_indented).
  unfold stringDataEntry. rewrite entryOf_line by done. rewrite length_replicate, Hd, Nat.eqb_refl, Htrim, Hbh.
  rewrite bool_decide_false, Hsaved by done.
  destruct (IH (Some (S n))) as (d' & E); [done|]. exists d'. unfold entryLines in E. by rewrite E.
Qed.

Lemma starts_entry ok l : startsPlain l → entryOf ok l = None.
Proof. destruct l as [|c l]; [done|]. intros H. unfold entryOf. cbn [spaces]. cbn in H. by rewrite H. Qed.

Lemma starts_ends l : startsPlain l → endsBlock l = true.
Proof. destruct l as [|c l]; [done|]. intros H. cbn in *. apply negb_true_iff, N.eqb_neq. intros ->. by vm_compute in H. Qed.

Lemma decode_leaves d post :
  Forall otherLine post → from_option startsPlain True (head post) → decodeLines (Inside d) post = post.
Proof.
  intros Hp Hs. destruct Hp as [|l post Hl Hp]; [done|]. cbn [head from_option] in Hs. cbn [decodeLines].
  destruct Hl as (_ & -> & _). unfold dataEntry. rewrite starts_entry, starts_ends by done. f_equal.
  rewrite <-(app_nil_r post) at 1. rewrite decode_other by done. apply app_nil_r.
Qed.

Lemma encode_leaves d post :
  Forall otherLine post → from_option startsPlain True (head post) → encodeLines (Inside d) 0 post = post.
Proof.
  intros Hp Hs. destruct Hp as [|l post Hl Hp]; [done|]. cbn [head from_option] in Hs. cbn [encodeLines].
  destruct Hl as (_ & _ & ->). unfold stringDataEntry. rewrite starts_entry, starts_ends by done. f_equal.
  rewrite <-(app_nil_r post) at 1. rewrite encode_other by done. apply app_nil_r.
Qed.

Lemma entryLine_no_newline k s : plainKey k → newline ∉ s → newline ∉ entryLine (replicate (S n) 32) k s.
Proof.
  intros (_ & Hk & _) Hs. unfold entryLine. rewrite !not_elem_of_app. split_and!; [| | |done].
  - intros [[=] _]%elem_of_replicate.
  - intros Hin. apply (proj1 (Forall_forall _ _) Hk) in Hin. by vm_compute in Hin.
  - by intros [[=]|[[=]|[]%elem_of_nil]%elem_of_cons]%elem_of_cons.
Qed.

Lemma document_lines header pre (f : text → text) entries post :
  newline ∉ header → Forall otherLine pre → Forall otherLine post →
  Forall (λ e, plainKey e.1 ∧ newline ∉ f e.2) entries →
  splitLines (document header pre n ((λ e, (e.1, f e.2)) <$> entries) post) =
  pre ++ [header] ++ entryLines n ((λ e, (e.1, f e.2)) <$> entries) ++ post.
Proof.
  intros Hh Hpre Hpost He. apply lines_of_join; [by destruct pre|].
  assert (∀ ls, Forall otherLine ls → Forall (λ l, newline ∉ l) ls) as Hlines by (intros ls Hls; eapply Forall_impl; [exact Hls|by intros l [? _]]).
  rewrite !Forall_app. split_and!; [by apply Hlines|by constructor| |by apply Hlines].
  unfold entryLines. rewrite !Forall_fmap. eapply Forall_impl; [exact He|]. intros [k v] [Hk Hv]. by apply entryLine_no_newline.
Qed.
End document.

(** C31. Saving the YAML window of a Secret without a change saves every value byte
    for byte, whatever its bytes are: the document the server sent, turned into
    letters for the window and back, is the document again; only the mask, which
    stands for a value the reader may not see, comes back as the base64 of its
    letters, which the server takes for the mask. *)
Theorem secret_saved_as_sent pre n entries post :
  Forall otherLine pre → Forall otherLine post → from_option startsPlain True (head post) → Forall entryOk entries →
  encodeSecretYaml (decodeSecretYaml (document (utf16 "data:") pre n entries post)) =
  document (utf16 "data:") pre n ((λ e, (e.1, savedAs e.2)) <$> entries) post.
Proof.
  intros Hpre Hpost Hs He. unfold decodeSecretYaml.
  assert ((λ e : text * text, (e.1, e.2)) <$> entries = entries) as Hid by (rewrite <-list_fmap_id; apply list_fmap_ext; by intros i [] _).
  rewrite <-Hid at 1. rewrite (document_lines n _ pre (λ v, v)), Hid.
  - rewrite decode_other by done. cbn [app decodeLines]. change (isHeader (utf16 "data:") (utf16 "data:")) with true. cbv iota.
    destruct (decode_entries n entries post None He eq_refl) as (d & ->). rewrite decode_leaves by done.
    unfold encodeSecretYaml. change (joinLines (pre ++ utf16 "stringData:" :: ?r)) with (joinLines (pre ++ [utf16 "stringData:"] ++ r)).
    fold (document (utf16 "stringData:") pre n ((λ e, (e.1, onScreen e.2)) <$> entries) post).
    rewrite document_lines.
    + rewrite encode_other by done. cbn [app encodeLines]. change (isHeader (utf16 "stringData:") (utf16 "stringData:")) with true. cbv iota.
      destruct (encode_entries n entries post None He eq_refl) as (d' & ->). by rewrite encode_leaves.
    + intros Hin. vm_compute in Hin. repeat (apply elem_of_cons in Hin as [[=]|Hin]). by apply elem_of_nil in Hin.
    + done.
    + done.
    + eapply Forall_impl; [exact He|]. intros [k v] [Hk Hv]. split; [done|]. apply (sent_readBack v Hv).
  - intros Hin. vm_compute in Hin. repeat (apply elem_of_cons in Hin as [[=]|Hin]). by apply elem_of_nil in Hin.
  - done.
  - done.
  - eapply Forall_impl; [exact He|]. intros [k v] [Hk Hv]. split; [done|]. apply sent_solid in Hv as [_ Hv]. cbn in *.
    intros Hin. apply (proj1 (Forall_forall _ _) Hv) in Hin. by vm_compute in Hin.
Qed.

Lemma secret_saved_as_sent_witness :
  ∃ pre entries post,
    Forall otherLine pre ∧ Forall otherLine post ∧ from_option startsPlain True (head post) ∧ Forall entryOk entries ∧
    encodeSecretYaml (decodeSecretYaml (document (utf16 "data:") pre 1 entries post)) =
    document (utf16 "data:") pre 1 ((λ e, (e.1, savedAs e.2)) <$> entries) post.
Proof.
  set (pre := [utf16 "apiVersion: v1"]).
  set (entries := [(utf16 "letters", utf16 "IOqwgOynnCDruYTrsIDrsojtmLgg"); (utf16 "bytes", utf16 "/wA="); (utf16 "hidden", MASK);
                   (utf16 "none", [34; 34])]).
  set (post := [utf16 "kind: Secret"; []]). exists pre, entries, post.
  assert (∀ l : text, bool_decide (newline ∈ l) = false → isHeader (utf16 "data:") l = false →
            isHeader (utf16 "stringData:") l = false → otherLine l) as Hl.
  { intros l H1 H2 H3. split_and!; [by apply bool_decide_eq_false in H1|done|done]. }
  assert (∀ t : text, negb (bool_decide (t = [])) && forallb (λ c, negb (isSpace c) && negb (c =? 58)) t = true → plainKey t) as Hk.
  { intros t [Hne Ht]%andb_prop. apply negb_true_iff, bool_decide_eq_false in Hne. rewrite forallb_forall in Ht. split_and!; [done| |].
    - apply Forall_forall. intros c Hc. apply list_elem_of_In, Ht, andb_prop in Hc as [Hc _]. by apply negb_true_iff in Hc.
    - intros Hc. apply list_elem_of_In, Ht, andb_prop in Hc as [_ Hc]. done. }
  assert (∀ t : text, negb (bool_decide (t = [])) && forallb (λ c, negb (isSpace c)) t = true → is_Some (fromBase64 t) → sentValue t) as Hv.
  { intros t [Hne Ht]%andb_prop Hb. apply negb_true_iff, bool_decide_eq_false in Hne. rewrite forallb_forall in Ht. right; right.
    split_and!; [done| |done]. apply Forall_forall. intros c Hc. apply list_elem_of_In, Ht in Hc. by apply negb_true_iff in Hc. }
  assert (Forall otherLine pre) as Hpre by (repeat constructor; by apply Hl).
  assert (Forall otherLine post) as Hpost by (repeat (apply Forall_cons; split); [by apply Hl..|done]).
  assert (from_option startsPlain True (head post)) as Hs by reflexivity.
  assert (Forall entryOk entries) as He.
  { repeat (apply Forall_cons; split; [split; [by apply Hk|]|]); [| | | |done].
    - apply Hv; [done|]. by eexists.
    - apply Hv; [done|]. by eexists.
    - by right; left.
    - by left. }
  split_and!; [exact Hpre|exact Hpost|exact Hs|exact He|]. exact (secret_saved_as_sent pre 1 entries post Hpre Hpost Hs He).
Defined.

(** ** Documents *)

(** What the window shows for letters, for bytes that are no text, for an empty
    value and for letters a plain word would not hold. *)
Example shown_letters :
  map shownValue [utf16 "c2VjcmV0"; utf16 "/wA="; utf16 "YTogYg=="; [34; 34]] =
  [Some (utf16 "secret"); Some (utf16 "!!binary /wA="); Some ([34] ++ utf16 "a: b" ++ [34]); None].
Proof. vm_compute. reflexivity. Qed.

(** A value typed over several lines. *)
Example block_saved :
  encodeSecretYaml (joinLines [utf16 "stringData:"; utf16 "  key: |"; utf16 "    one"; utf16 "    two"; utf16 "  next: >-"; utf16 "    a"; utf16 "    b"; utf16 "kind: Secret"]) =
  joinLines [utf16 "data:"; utf16 "  key: b25lCnR3bwo="; utf16 "  next: YSBi"; utf16 "kind: Secret"].
Proof. vm_compute. reflexivity. Qed.

(** Words that start like quotes or a comment are the words typed. *)
Example word_saved :
  map savedText [utf16 "!abc"; utf16 "#abc"; utf16 "abc # why"; utf16 "'it''s'"] = [utf16 "!abc"; utf16 "#abc"; utf16 "abc"; utf16 "it's"].
Proof. vm_compute. reflexivity. Qed.
