(* ===== verification/ObjectActions.v ===== *)
(** * Deleting and editing the object of a window

    components/resource-detail/useResourceDelete.ts and useResourceYaml.ts send the
    requests; the requests themselves are the functions of services/api.  crDetail.ts
    says which right the buttons ask the cluster about ([deleteTarget]), utils.ts the
    resource of a kind ([kindToPlural]).  Afterwards both hooks invalidate what the
    query client holds.

    A request is its URL; the client adds the cluster to the query.  The path the
    server sees ends at the first [?] or [#] (the URL standard).  A table of the
    code keyed by kind is a list; a kind is never the name of a member of
    [Object.prototype].  The query client is a library: [partialMatch] is how it
    compares an invalidated key with a query's. *)

From S2P Require Import Prelude JsString OrderedMap Json ChatText SecretYaml.

(** ** The object of a window *)

Record Target := { kind : string; namespace : option string; name : string; rawJson : value }.

(** [ns], where it is truthy. *)
Definition nsOf (t : Target) : option string :=
  match namespace t with Some s => if nonempty s then Some s else None | None => None end.

(** [(v as string) || '']. *)
Definition orEmpty (v : value) : string := if truthy v then toString v else "".

(** ** The requests of services/api *)

Definition deletePod (namespace podName : string) : string := "/cluster/namespaces/" +:+ namespace +:+ "/pods/" +:+ podName.
Definition deleteNamespace (name : string) : string := "/cluster/namespaces/" +:+ name.
Definition deleteNode (name : string) : string := "/cluster/nodes/" +:+ name.
Definition deleteDeployment (namespace deploymentName : string) : string := "/cluster/namespaces/" +:+ namespace +:+ "/deployments/" +:+ deploymentName.
Definition deleteStatefulSet (namespace name : string) : string := "/cluster/namespaces/" +:+ namespace +:+ "/statefulsets/" +:+ name.
Definition deleteDaemonSet (namespace name : string) : string := "/cluster/namespaces/" +:+ namespace +:+ "/daemonsets/" +:+ name.
Definition deleteJob (namespace name : string) : string := "/cluster/namespaces/" +:+ namespace +:+ "/jobs/" +:+ name.
Definition deleteReplicaSet (namespace name : string) : string := "/cluster/namespaces/" +:+ namespace +:+ "/replicasets/" +:+ name.
Definition deleteCronJob (namespace name : string) : string := "/cluster/namespaces/" +:+ namespace +:+ "/cronjobs/" +:+ name.
Definition deletePVC (namespace name : string) : string := "/cluster/namespaces/" +:+ namespace +:+ "/pvcs/" +:+ name.
Definition deletePV (name : string) : string := "/cluster/pvs/" +:+ name.
Definition deleteStorageClass (name : string) : string := "/cluster/storageclasses/" +:+ name.
Definition deleteVolumeAttachment (name : string) : string := "/cluster/volumeattachments/" +:+ name.
Definition deleteService (namespace name : string) : string := "/cluster/namespaces/" +:+ namespace +:+ "/services/" +:+ name.
Definition deleteEndpoint (namespace name : string) : string := "/cluster/namespaces/" +:+ namespace +:+ "/endpoints/" +:+ name.
Definition deleteEndpointSlice (namespace name : string) : string := "/cluster/namespaces/" +:+ namespace +:+ "/endpointslices/" +:+ name.
Definition deleteIngress (namespace name : string) : string := "/cluster/namespaces/" +:+ namespace +:+ "/ingresses/" +:+ name.
Definition deleteIngressClass (name : string) : string := "/cluster/ingressclasses/" +:+ name.
Definition deleteNetworkPolicy (namespace name : string) : string := "/cluster/namespaces/" +:+ namespace +:+ "/networkpolicies/" +:+ name.
Definition deleteGateway (namespace name : string) : string := "/cluster/namespaces/" +:+ namespace +:+ "/gateways/" +:+ name.
Definition deleteGatewayClass (name : string) : string := "/cluster/gatewayclasses/" +:+ name.
Definition deleteHTTPRoute (namespace name : string) : string := "/cluster/namespaces/" +:+ namespace +:+ "/httproutes/" +:+ name.
Definition deleteGRPCRoute (namespace name : string) : string := "/cluster/namespaces/" +:+ namespace +:+ "/grpcroutes/" +:+ name.
Definition deleteReferenceGrant (namespace name : string) : string := "/cluster/namespaces/" +:+ namespace +:+ "/referencegrants/" +:+ name.
Definition deleteBackendTLSPolicy (namespace name : string) : string := "/cluster/namespaces/" +:+ namespace +:+ "/backendtlspolicies/" +:+ name.
Definition deleteDeviceClass (name : string) : string := "/cluster/deviceclasses/" +:+ name.
Definition deleteResourceClaim (namespace name : string) : string := "/cluster/namespaces/" +:+ namespace +:+ "/resourceclaims/" +:+ name.
Definition deleteResourceClaimTemplate (namespace name : string) : string := "/cluster/namespaces/" +:+ namespace +:+ "/resourceclaimtemplates/" +:+ name.
Definition deleteResourceSlice (name : string) : string := "/cluster/resourceslices/" +:+ name.
Definition deleteServiceAccount (namespace name : string) : string := "/cluster/namespaces/" +:+ namespace +:+ "/serviceaccounts/" +:+ name.
Definition deleteRole (namespace name : string) : string := "/cluster/namespaces/" +:+ namespace +:+ "/roles/" +:+ name.
Definition deleteRoleBinding (namespace name : string) : string := "/cluster/namespaces/" +:+ namespace +:+ "/rolebindings/" +:+ name.
Definition deleteClusterRole (name : string) : string := "/cluster/clusterroles/" +:+ name.
Definition deleteClusterRoleBinding (name : string) : string := "/cluster/clusterrolebindings/" +:+ name.
Definition deleteConfigMap (namespace name : string) : string := "/cluster/namespaces/" +:+ namespace +:+ "/configmaps/" +:+ name.
Definition deleteSecret (namespace name : string) : string := "/cluster/namespaces/" +:+ namespace +:+ "/secrets/" +:+ name.
Definition deleteHPA (namespace name : string) : string := "/cluster/namespaces/" +:+ namespace +:+ "/hpas/" +:+ name.
Definition deleteVPA (namespace name : string) : string := "/cluster/namespaces/" +:+ namespace +:+ "/vpas/" +:+ name.
Definition deletePDB (namespace name : string) : string := "/cluster/namespaces/" +:+ namespace +:+ "/pdbs/" +:+ name.
Definition deletePriorityClass (name : string) : string := "/cluster/priorityclasses/" +:+ name.
Definition deleteRuntimeClass (name : string) : string := "/cluster/runtimeclasses/" +:+ name.
Definition deleteLease (namespace name : string) : string := "/cluster/namespaces/" +:+ namespace +:+ "/leases/" +:+ name.
Definition deleteResourceQuota (namespace name : string) : string := "/cluster/namespaces/" +:+ namespace +:+ "/resourcequotas/" +:+ name.
Definition deleteLimitRange (namespace name : string) : string := "/cluster/namespaces/" +:+ namespace +:+ "/limitranges/" +:+ name.
Definition deleteMutatingWebhookConfiguration (name : string) : string := "/cluster/mutatingwebhookconfigurations/" +:+ name.
Definition deleteValidatingWebhookConfiguration (name : string) : string := "/cluster/validatingwebhookconfigurations/" +:+ name.
Definition deleteCRD (name : string) : string := "/cluster/crds/" +:+ name.
Definition deleteCustomResourceInstance (group version plural namespace name : string) : string :=
  "/cluster/custom-resources/" +:+ group +:+ "/" +:+ version +:+ "/" +:+ plural +:+ "/" +:+ namespace +:+ "/" +:+ name.

(** ** Deleting *)

Inductive Delete := Namespaced (call : string → string → string) | ClusterScoped (call : string → string).

(** What is called for each kind. *)
Definition deletes : list (string * Delete) :=
  [("Pod", Namespaced deletePod); ("Namespace", ClusterScoped deleteNamespace);
   ("Node", ClusterScoped deleteNode); ("Deployment", Namespaced deleteDeployment);
   ("StatefulSet", Namespaced deleteStatefulSet); ("DaemonSet", Namespaced deleteDaemonSet);
   ("Job", Namespaced deleteJob); ("ReplicaSet", Namespaced deleteReplicaSet);
   ("CronJob", Namespaced deleteCronJob); ("PersistentVolumeClaim", Namespaced deletePVC);
   ("PersistentVolume", ClusterScoped deletePV); ("StorageClass", ClusterScoped deleteStorageClass);
   ("VolumeAttachment", ClusterScoped deleteVolumeAttachment); ("Service", Namespaced deleteService);
   ("Endpoints", Namespaced deleteEndpoint); ("EndpointSlice", Namespaced deleteEndpointSlice);
   ("Ingress", Namespaced deleteIngress); ("IngressClass", ClusterScoped deleteIngressClass);
   ("NetworkPolicy", Namespaced deleteNetworkPolicy); ("Gateway", Namespaced deleteGateway);
   ("GatewayClass", ClusterScoped deleteGatewayClass); ("HTTPRoute", Namespaced deleteHTTPRoute);
   ("GRPCRoute", Namespaced deleteGRPCRoute); ("ReferenceGrant", Namespaced deleteReferenceGrant);
   ("BackendTLSPolicy", Namespaced deleteBackendTLSPolicy); ("DeviceClass", ClusterScoped deleteDeviceClass);
   ("ResourceClaim", Namespaced deleteResourceClaim);
   ("ResourceClaimTemplate", Namespaced deleteResourceClaimTemplate);
   ("ResourceSlice", ClusterScoped deleteResourceSlice); ("ServiceAccount", Namespaced deleteServiceAccount);
   ("Role", Namespaced deleteRole); ("RoleBinding", Namespaced deleteRoleBinding);
   ("ClusterRole", ClusterScoped deleteClusterRole);
   ("ClusterRoleBinding", ClusterScoped deleteClusterRoleBinding); ("ConfigMap", Namespaced deleteConfigMap);
   ("Secret", Namespaced deleteSecret); ("HorizontalPodAutoscaler", Namespaced deleteHPA);
   ("VerticalPodAutoscaler", Namespaced deleteVPA); ("PodDisruptionBudget", Namespaced deletePDB);
   ("PriorityClass", ClusterScoped deletePriorityClass); ("RuntimeClass", ClusterScoped deleteRuntimeClass);
   ("Lease", Namespaced deleteLease); ("ResourceQuota", Namespaced deleteResourceQuota);
   ("LimitRange", Namespaced deleteLimitRange);
   ("MutatingWebhookConfiguration", ClusterScoped deleteMutatingWebhookConfiguration);
   ("ValidatingWebhookConfiguration", ClusterScoped deleteValidatingWebhookConfiguration);
   ("CustomResourceDefinition", ClusterScoped deleteCRD)].

(** The group, the version and the plural of a custom resource; [split] throws on
    what is no string. *)
Definition groupOf (t : Target) : string := orEmpty (rawJson t .@ "group").
Definition versionOf (t : Target) : string := orEmpty (rawJson t .@ "version").
Definition firstPart (s : string) : string := match split "." s with p :: _ => p | [] => "" end.
Definition pluralOf (t : Target) : option string :=
  match rawJson t .@ "crd_name" with VStr s => Some (firstPart s) | v => if truthy v then None else Some "" end.

(** [mutationFn]: the URL of the DELETE; [None]: it throws before. *)
Definition mutationFn (t : Target) : option string :=
  match assoc (kind t) deletes with
  | Some (Namespaced call) => (λ ns, call ns (name t)) <$> nsOf t
  | Some (ClusterScoped call) => Some (call (name t))
  | None =>
      if kind t === "CustomResourceInstance" then
        pl ← pluralOf t;
        if nonempty (groupOf t) && nonempty (versionOf t) && nonempty pl then
          Some (deleteCustomResourceInstance (groupOf t) (versionOf t) pl (default "-" (nsOf t)) (name t))
        else None
      else None
  end.

(** ** The right asked for *)

Definition DRAWER_GROUPS : list (string * string) :=
  [("Pod", ""); ("Node", ""); ("Namespace", ""); ("Service", ""); ("ConfigMap", ""); ("Secret", "");
   ("ServiceAccount", ""); ("Endpoints", ""); ("PersistentVolume", ""); ("PersistentVolumeClaim", "");
   ("ResourceQuota", ""); ("LimitRange", ""); ("Deployment", "apps"); ("StatefulSet", "apps");
   ("DaemonSet", "apps"); ("ReplicaSet", "apps"); ("Job", "batch"); ("CronJob", "batch");
   ("HorizontalPodAutoscaler", "autoscaling"); ("VerticalPodAutoscaler", "autoscaling.k8s.io");
   ("PodDisruptionBudget", "policy"); ("Ingress", "networking.k8s.io"); ("IngressClass", "networking.k8s.io");
   ("NetworkPolicy", "networking.k8s.io"); ("EndpointSlice", "discovery.k8s.io");
   ("StorageClass", "storage.k8s.io"); ("VolumeAttachment", "storage.k8s.io");
   ("Role", "rbac.authorization.k8s.io"); ("RoleBinding", "rbac.authorization.k8s.io");
   ("ClusterRole", "rbac.authorization.k8s.io"); ("ClusterRoleBinding", "rbac.authorization.k8s.io");
   ("PriorityClass", "scheduling.k8s.io"); ("RuntimeClass", "node.k8s.io"); ("Lease", "coordination.k8s.io");
   ("MutatingWebhookConfiguration", "admissionregistration.k8s.io");
   ("ValidatingWebhookConfiguration", "admissionregistration.k8s.io");
   ("ValidatingAdmissionPolicy", "admissionregistration.k8s.io");
   ("MutatingAdmissionPolicy", "admissionregistration.k8s.io");
   ("CustomResourceDefinition", "apiextensions.k8s.io"); ("Gateway", "gateway.networking.k8s.io");
   ("GatewayClass", "gateway.networking.k8s.io"); ("HTTPRoute", "gateway.networking.k8s.io");
   ("GRPCRoute", "gateway.networking.k8s.io"); ("ReferenceGrant", "gateway.networking.k8s.io");
   ("BackendTLSPolicy", "gateway.networking.k8s.io"); ("DeviceClass", "resource.k8s.io");
   ("ResourceClaim", "resource.k8s.io"); ("ResourceClaimTemplate", "resource.k8s.io");
   ("ResourceSlice", "resource.k8s.io")].

Definition endsWith (p s : string) : bool := startsWith (String.rev p) (String.rev s).
Definition isVowel (c : ascii) : bool := bool_decide (c ∈ ["a"; "e"; "i"; "o"; "u"]%char).

(** [/[^aeiou]y$/], and without its [y]. *)
Definition consonantY (k : string) : option string :=
  match String.rev k with
  | String "y" (String c r) => if isVowel c then None else Some (String.rev (String c r))
  | _ => None
  end.

Definition kindResource (kind : string) : string :=
  let k := toLowerCase kind in
  if endsWith "endpoints" k then k
  else if endsWith "s" k then k +:+ "es"
  else match consonantY k with Some s => s +:+ "ies" | None => k +:+ "s" end.

Record AccessTarget := { group : string; resource : string; a_namespace : string; a_name : string }.

Definition stringOr (v : value) : string := match v with VStr s => s | _ => "" end.

Definition deleteTarget (kind : string) (namespace : option string) (name : string) (rawJson : value) : option AccessTarget :=
  if kind === "CustomResourceInstance" then
    let g := stringOr (rawJson .@ "group") in
    let pl := match rawJson .@ "crd_name" with VStr s => firstPart s | _ => "" end in
    if nonempty g && nonempty pl then
      Some {| group := g; resource := pl; a_namespace := default "" namespace; a_name := name |}
    else None
  else
    g ← assoc kind DRAWER_GROUPS;
    Some {| group := g; resource := kindResource kind;
            a_namespace := if kind === "Namespace" then name else default "" namespace; a_name := name |}.

(** ** The YAML *)

Definition pluralNames : list (string * string) :=
  [("Pod", "pod"); ("Node", "node"); ("Namespace", "namespace"); ("Service", "service");
   ("Deployment", "deployment"); ("ReplicaSet", "replicaset"); ("StatefulSet", "statefulset");
   ("DaemonSet", "daemonset"); ("Job", "job"); ("CronJob", "cronjob"); ("ConfigMap", "configmap");
   ("Secret", "secret"); ("Ingress", "ingress"); ("NetworkPolicy", "networkpolicy");
   ("PersistentVolumeClaim", "persistentvolumeclaim"); ("PersistentVolume", "persistentvolume");
   ("HorizontalPodAutoscaler", "horizontalpodautoscaler"); ("VerticalPodAutoscaler", "verticalpodautoscaler");
   ("ValidatingAdmissionPolicy", "validatingadmissionpolicy");
   ("MutatingAdmissionPolicy", "mutatingadmissionpolicy"); ("Endpoints", "endpoints");
   ("EndpointSlice", "endpointslice"); ("IngressClass", "ingressclass"); ("Gateway", "gateway");
   ("GatewayClass", "gatewayclass"); ("HTTPRoute", "httproute"); ("GRPCRoute", "grpcroute");
   ("ReferenceGrant", "referencegrant"); ("BackendTLSPolicy", "backendtlspolicy");
   ("DeviceClass", "deviceclass"); ("ResourceClaim", "resourceclaim");
   ("ResourceClaimTemplate", "resourceclaimtemplate"); ("ResourceSlice", "resourceslice");
   ("StorageClass", "storageclass"); ("VolumeAttachment", "volumeattachment");
   ("ServiceAccount", "serviceaccount"); ("Role", "role"); ("RoleBinding", "rolebinding");
   ("ClusterRole", "clusterrole"); ("ClusterRoleBinding", "clusterrolebinding");
   ("PodDisruptionBudget", "poddisruptionbudget"); ("PriorityClass", "priorityclass");
   ("RuntimeClass", "runtimeclass"); ("Lease", "lease"); ("ResourceQuota", "resourcequota");
   ("LimitRange", "limitrange"); ("MutatingWebhookConfiguration", "mutatingwebhookconfiguration");
   ("ValidatingWebhookConfiguration", "validatingwebhookconfiguration");
   ("CustomResourceDefinition", "customresourcedefinition");
   ("CustomResourceInstance", "customresourceinstance")].

Definition kindToPlural (kind : string) : string := default (toLowerCase kind) (assoc kind pluralNames).

(** What is read or applied: a path of its own, or a resource named in the request. *)
Inductive Yaml := OfPath (path : string) | OfResource (resource_type resource_name : string) (inNamespace : option string).

Definition getNodeYaml (name : string) : Yaml := OfPath ("/cluster/nodes/" +:+ name +:+ "/yaml").
Definition getNamespaceYaml (name : string) : Yaml := OfPath ("/cluster/namespaces/" +:+ name +:+ "/yaml").
Definition getSecretYaml (namespace name : string) : Yaml :=
  OfPath ("/cluster/namespaces/" +:+ namespace +:+ "/secrets/" +:+ name +:+ "/yaml").
Definition notDash (namespace : option string) : option string :=
  match namespace with Some n => if nonempty n && negb (n === "-") then Some n else None | None => None end.
Definition getResourceYaml (resourceType name : string) (namespace : option string) : Yaml :=
  OfResource resourceType name (notDash namespace).
Definition applyNodeYaml (name : string) : Yaml := OfPath ("/cluster/nodes/" +:+ name +:+ "/yaml/apply").
Definition applyNamespaceYaml (name : string) : Yaml := OfPath ("/cluster/namespaces/" +:+ name +:+ "/yaml/apply").
Definition applyResourceYaml (resourceType name : string) (namespace : option string) : Yaml :=
  OfResource resourceType name (notDash namespace).

(** [queryFn] of the YAML tab. *)
Definition readYaml (t : Target) : Yaml :=
  let other := getResourceYaml (kindToPlural (kind t)) (name t) (nsOf t) in
  if kind t === "Node" then getNodeYaml (name t)
  else if kind t === "Namespace" then getNamespaceYaml (name t)
  else match (if kind t === "Secret" then nsOf t else None) with
  | Some ns => getSecretYaml ns (name t)
  | None =>
      if kind t === "CustomResourceDefinition" then getResourceYaml "customresourcedefinitions" (name t) None
      else if kind t === "CustomResourceInstance" then
        let crdN := orEmpty (rawJson t .@ "crd_name") in
        if nonempty crdN then getResourceYaml crdN (name t) (nsOf t) else other
      else other
  end.

(** What is sent and where; [None]: nothing is. *)
Definition handleApplyYaml (t : Target) (canEditYaml : bool) (rawYaml : text) : text * option Yaml :=
  (if (kind t === "Secret") && canEditYaml then encodeSecretYaml rawYaml else rawYaml,
   if kind t === "Node" then Some (applyNodeYaml (name t))
   else if kind t === "Namespace" then Some (applyNamespaceYaml (name t))
   else if kind t === "CustomResourceDefinition" then Some (applyResourceYaml "customresourcedefinitions" (name t) None)
   else if kind t === "CustomResourceInstance" then
     let crdN := orEmpty (rawJson t .@ "crd_name") in
     if nonempty crdN then Some (applyResourceYaml crdN (name t) (nsOf t)) else None
   else Some (applyResourceYaml (kindToPlural (kind t)) (name t) (nsOf t))).

(** ** What is read again *)

(** A part of a query's key; [None] is [null]. *)
Definition Key := list (option string).
Definition key (parts : list string) : Key := Some <$> parts.

Inductive Invalidated :=
  | OfNamespaced (keys : string → string → list Key)
  | OfCluster (keys : string → list Key)
  | OfAny (keys : option string → string → list Key).

Definition invalidated (table : list (string * Invalidated)) (t : Target) : list Key :=
  match assoc (kind t) table with
  | Some (OfNamespaced keys) => match nsOf t with Some ns => keys ns (name t) | None => [] end
  | Some (OfCluster keys) => keys (name t)
  | Some (OfAny keys) => keys (namespace t) (name t)
  | None => []
  end.

Definition afterDelete : list (string * Invalidated) :=
  [("Pod", OfNamespaced (λ ns name, [key ["workloads"; "pods"]; key ["workloads"; "pods"; ns]; key ["pod-describe"; ns; name];
      key ["namespace-pods"; ns]]));
   ("Node", OfCluster (λ name, [key ["cluster"; "nodes"]; key ["cluster"; "nodes"; "describe"; name];
      key ["cluster"; "nodes"; "pods"; name]; key ["cluster"; "node-metrics"]]));
   ("Namespace", OfCluster (λ name, [key ["namespaces"]; key ["namespace-describe"; name]; key ["namespace-pods"; name];
      key ["namespace-rq"; name]; key ["namespace-lr"; name]]));
   ("Deployment", OfNamespaced (λ ns name, [key ["workloads"; "deployments"]; key ["workloads"; "deployments"; ns]]));
   ("StatefulSet", OfNamespaced (λ ns name, [key ["workloads"; "statefulsets"]; key ["workloads"; "statefulsets"; ns];
      key ["statefulset-describe"; ns; name]]));
   ("DaemonSet", OfNamespaced (λ ns name, [key ["workloads"; "daemonsets"]; key ["workloads"; "daemonsets"; ns];
      key ["daemonset-describe"; ns; name]; key ["workload-describe"; "DaemonSet"; ns; name]]));
   ("Job", OfNamespaced (λ ns name, [key ["workloads"; "jobs"]; key ["workloads"; "jobs"; ns];
      key ["workload-describe"; "Job"; ns; name]]));
   ("ReplicaSet", OfNamespaced (λ ns name, [key ["workloads"; "replicasets"]; key ["workloads"; "replicasets"; ns];
      key ["replicasets"; ns]; key ["workload-describe"; "ReplicaSet"; ns; name]]));
   ("CronJob", OfNamespaced (λ ns name, [key ["workloads"; "cronjobs"]; key ["workloads"; "cronjobs"; ns];
      key ["workload-describe"; "CronJob"; ns; name]]));
   ("PersistentVolumeClaim", OfNamespaced (λ ns name, [key ["storage"; "pvcs"]; key ["storage"; "pvcs"; "all"];
      key ["storage"; "pvcs"; ns]; key ["pvc-describe"; ns; name]]));
   ("PersistentVolume", OfCluster (λ name, [key ["storage"; "pvs"]; key ["pv-describe"; name]]));
   ("StorageClass", OfCluster (λ name, [key ["storage"; "storageclasses"]; key ["storageclass-describe"; name]]));
   ("VolumeAttachment", OfCluster (λ name, [key ["storage"; "volumeattachments"]; key ["volumeattachment-describe"; name]]));
   ("Service", OfNamespaced (λ ns name, [key ["network"; "services"]; key ["network"; "services"; ns];
      key ["service-describe"; ns; name]]));
   ("Endpoints", OfNamespaced (λ ns name, [key ["network"; "endpoints"]; key ["network"; "endpoints"; ns];
      key ["endpoint-describe"; ns; name]]));
   ("EndpointSlice", OfNamespaced (λ ns name, [key ["network"; "endpointslices"]; key ["network"; "endpointslices"; ns];
      key ["endpointslice-describe"; ns; name]]));
   ("Ingress", OfNamespaced (λ ns name, [key ["network"; "ingresses"]; key ["network"; "ingresses"; ns];
      key ["ingress-detail"; ns; name]]));
   ("IngressClass", OfCluster (λ name, [key ["network"; "ingressclasses"]; key ["ingressclass-describe"; name]]));
   ("NetworkPolicy", OfNamespaced (λ ns name, [key ["network"; "networkpolicies"]; key ["network"; "networkpolicies"; ns];
      key ["networkpolicy-describe"; ns; name]]));
   ("Gateway", OfNamespaced (λ ns name, [key ["gateway"; "gateways"]; key ["gateway"; "gateways"; ns];
      key ["gateway-describe"; ns; name]]));
   ("GatewayClass", OfCluster (λ name, [key ["gateway"; "gatewayclasses"]; key ["gatewayclass-describe"; name]]));
   ("HTTPRoute", OfNamespaced (λ ns name, [key ["gateway"; "httproutes"]; key ["gateway"; "httproutes"; ns];
      key ["httproute-describe"; ns; name]]));
   ("GRPCRoute", OfNamespaced (λ ns name, [key ["gateway"; "grpcroutes"]; key ["gateway"; "grpcroutes"; ns];
      key ["grpcroute-describe"; ns; name]]));
   ("ReferenceGrant", OfNamespaced (λ ns name, [key ["gateway"; "referencegrants"]; key ["gateway"; "referencegrants"; ns];
      key ["referencegrant-describe"; ns; name]]));
   ("BackendTLSPolicy", OfNamespaced (λ ns name, [key ["gateway"; "backendtlspolicies"]; key ["gateway"; "backendtlspolicies"; ns];
      key ["backendtlspolicy-describe"; ns; name]]));
   ("DeviceClass", OfCluster (λ name, [key ["gpu"; "deviceclasses"]; key ["deviceclass-describe"; name]]));
   ("ResourceClaim", OfNamespaced (λ ns name, [key ["gpu"; "resourceclaims"]; key ["resourceclaim-describe"; ns; name]]));
   ("ResourceClaimTemplate", OfNamespaced (λ ns name, [key ["gpu"; "resourceclaimtemplates"];
      key ["resourceclaimtemplate-describe"; ns; name]]));
   ("ResourceSlice", OfCluster (λ name, [key ["gpu"; "resourceslices"]; key ["resourceslice-describe"; name]]));
   ("ServiceAccount", OfNamespaced (λ ns name, [key ["security"; "serviceaccounts"]; key ["security"; "serviceaccounts"; ns];
      key ["serviceaccount-describe"; ns; name]]));
   ("Role", OfNamespaced (λ ns name, [key ["security"; "roles"]; key ["security"; "roles"; ns]; key ["role-describe"; ns; name]]));
   ("RoleBinding", OfNamespaced (λ ns name, [key ["security"; "rolebindings"]; key ["security"; "rolebindings"; ns];
      key ["rolebinding-describe"; ns; name]]));
   ("ClusterRole", OfCluster (λ name, [key ["security"; "clusterroles"]; key ["clusterrole-describe"; name]]));
   ("ClusterRoleBinding", OfCluster (λ name, [key ["security"; "clusterrolebindings"]; key ["clusterrolebinding-describe"; name]]));
   ("ConfigMap", OfNamespaced (λ ns name, [key ["configuration"; "configmaps"]; key ["configuration"; "configmaps"; ns];
      key ["configmap-describe"; ns; name]]));
   ("Secret", OfNamespaced (λ ns name, [key ["configuration"; "secrets"]; key ["configuration"; "secrets"; ns];
      key ["secret-describe"; ns; name]]));
   ("HorizontalPodAutoscaler", OfNamespaced (λ ns name, [key ["workloads"; "hpas"]; key ["workloads"; "hpas"; ns];
      key ["hpa-describe"; ns; name]]));
   ("VerticalPodAutoscaler", OfNamespaced (λ ns name, [key ["workloads"; "vpas"]; key ["workloads"; "vpas"; ns];
      key ["vpa-describe"; ns; name]]));
   ("PodDisruptionBudget", OfNamespaced (λ ns name, [key ["workloads"; "pdbs"]; key ["workloads"; "pdbs"; ns];
      key ["pdb-describe"; ns; name]]));
   ("PriorityClass", OfCluster (λ name, [key ["cluster"; "priorityclasses"]; key ["priorityclass-describe"; name]]));
   ("RuntimeClass", OfCluster (λ name, [key ["cluster"; "runtimeclasses"]; key ["runtimeclass-describe"; name]]));
   ("Lease", OfNamespaced (λ ns name, [key ["cluster"; "leases"]; key ["cluster"; "leases"; ns]; key ["lease-describe"; ns; name]]));
   ("ResourceQuota", OfNamespaced (λ ns name, [key ["cluster"; "resourcequotas"]; key ["cluster"; "resourcequotas"; ns];
      key ["resourcequota-describe"; ns; name]; key ["namespace-rq"; ns]]));
   ("LimitRange", OfNamespaced (λ ns name, [key ["cluster"; "limitranges"]; key ["cluster"; "limitranges"; ns];
      key ["limitrange-describe"; ns; name]; key ["namespace-lr"; ns]]));
   ("MutatingWebhookConfiguration", OfCluster (λ name, [key ["cluster"; "mutatingwebhookconfigurations"];
      key ["mutatingwebhookconfiguration-describe"; name]]));
   ("ValidatingWebhookConfiguration", OfCluster (λ name, [key ["cluster"; "validatingwebhookconfigurations"];
      key ["validatingwebhookconfiguration-describe"; name]]));
   ("CustomResourceDefinition", OfCluster (λ name, [key ["custom-resources"; "crds"]; key ["crd-describe"; name]]));
   ("CustomResourceInstance", OfCluster (λ name, [key ["custom-resources"; "instances"]; key ["cr-instance-describe"]]))].

Definition afterApply : list (string * Invalidated) :=
  [("Node", OfCluster (λ name, [key ["cluster"; "nodes"]; key ["cluster"; "nodes"; "describe"; name];
      key ["cluster"; "nodes"; "pods"; name]; key ["cluster"; "node-metrics"]]));
   ("Namespace", OfCluster (λ name, [key ["namespace-describe"; name]; key ["namespaces"]; key ["namespace-resource-quotas"; name];
      key ["namespace-limit-ranges"; name]]));
   ("Pod", OfAny (λ ns name, [[Some "pod-describe"; ns; Some name]; key ["cluster"; "pods"]]));
   ("PersistentVolumeClaim", OfNamespaced (λ ns name, [key ["storage"; "pvcs"]; key ["storage"; "pvcs"; ns];
      key ["pvc-describe"; ns; name]]));
   ("PersistentVolume", OfCluster (λ name, [key ["storage"; "pvs"]; key ["pv-describe"; name]]));
   ("StorageClass", OfCluster (λ name, [key ["storage"; "storageclasses"]; key ["storageclass-describe"; name]]));
   ("VolumeAttachment", OfCluster (λ name, [key ["storage"; "volumeattachments"]; key ["volumeattachment-describe"; name]]));
   ("Endpoints", OfNamespaced (λ ns name, [key ["network"; "endpoints"]; key ["network"; "endpoints"; ns];
      key ["endpoint-describe"; ns; name]]));
   ("EndpointSlice", OfNamespaced (λ ns name, [key ["network"; "endpointslices"]; key ["network"; "endpointslices"; ns];
      key ["endpointslice-describe"; ns; name]]));
   ("Ingress", OfNamespaced (λ ns name, [key ["network"; "ingresses"]; key ["network"; "ingresses"; ns];
      key ["ingress-detail"; ns; name]]));
   ("IngressClass", OfCluster (λ name, [key ["network"; "ingressclasses"]; key ["ingressclass-describe"; name]]));
   ("NetworkPolicy", OfNamespaced (λ ns name, [key ["network"; "networkpolicies"]; key ["network"; "networkpolicies"; ns];
      key ["networkpolicy-describe"; ns; name]]));
   ("Gateway", OfNamespaced (λ ns name, [key ["gateway"; "gateways"]; key ["gateway"; "gateways"; ns];
      key ["gateway-describe"; ns; name]]));
   ("GatewayClass", OfCluster (λ name, [key ["gateway"; "gatewayclasses"]; key ["gatewayclass-describe"; name]]));
   ("HTTPRoute", OfNamespaced (λ ns name, [key ["gateway"; "httproutes"]; key ["gateway"; "httproutes"; ns];
      key ["httproute-describe"; ns; name]]));
   ("GRPCRoute", OfNamespaced (λ ns name, [key ["gateway"; "grpcroutes"]; key ["gateway"; "grpcroutes"; ns];
      key ["grpcroute-describe"; ns; name]]));
   ("ReferenceGrant", OfNamespaced (λ ns name, [key ["gateway"; "referencegrants"]; key ["gateway"; "referencegrants"; ns];
      key ["referencegrant-describe"; ns; name]]));
   ("BackendTLSPolicy", OfNamespaced (λ ns name, [key ["gateway"; "backendtlspolicies"]; key ["gateway"; "backendtlspolicies"; ns];
      key ["backendtlspolicy-describe"; ns; name]]));
   ("DeviceClass", OfCluster (λ name, [key ["gpu"; "deviceclasses"]; key ["deviceclass-describe"; name]]));
   ("ResourceClaim", OfNamespaced (λ ns name, [key ["gpu"; "resourceclaims"]; key ["resourceclaim-describe"; ns; name]]));
   ("ResourceClaimTemplate", OfNamespaced (λ ns name, [key ["gpu"; "resourceclaimtemplates"];
      key ["resourceclaimtemplate-describe"; ns; name]]));
   ("ResourceSlice", OfCluster (λ name, [key ["gpu"; "resourceslices"]; key ["resourceslice-describe"; name]]));
   ("ServiceAccount", OfNamespaced (λ ns name, [key ["security"; "serviceaccounts"]; key ["security"; "serviceaccounts"; ns];
      key ["serviceaccount-describe"; ns; name]]));
   ("Role", OfNamespaced (λ ns name, [key ["security"; "roles"]; key ["security"; "roles"; ns]; key ["role-describe"; ns; name]]));
   ("RoleBinding", OfNamespaced (λ ns name, [key ["security"; "rolebindings"]; key ["security"; "rolebindings"; ns];
      key ["rolebinding-describe"; ns; name]]));
   ("ClusterRole", OfCluster (λ name, [key ["security"; "clusterroles"]; key ["clusterrole-describe"; name]]));
   ("ClusterRoleBinding", OfCluster (λ name, [key ["security"; "clusterrolebindings"]; key ["clusterrolebinding-describe"; name]]));
   ("ConfigMap", OfNamespaced (λ ns name, [key ["configuration"; "configmaps"]; key ["configuration"; "configmaps"; ns];
      key ["configmap-describe"; ns; name]]));
   ("Secret", OfNamespaced (λ ns name, [key ["configuration"; "secrets"]; key ["configuration"; "secrets"; ns];
      key ["secret-describe"; ns; name]]));
   ("PodDisruptionBudget", OfNamespaced (λ ns name, [key ["workloads"; "pdbs"]; key ["workloads"; "pdbs"; ns];
      key ["pdb-describe"; ns; name]]));
   ("PriorityClass", OfCluster (λ name, [key ["cluster"; "priorityclasses"]; key ["priorityclass-describe"; name]]));
   ("RuntimeClass", OfCluster (λ name, [key ["cluster"; "runtimeclasses"]; key ["runtimeclass-describe"; name]]));
   ("Lease", OfNamespaced (λ ns name, [key ["cluster"; "leases"]; key ["cluster"; "leases"; ns]; key ["lease-describe"; ns; name]]));
   ("ResourceQuota", OfNamespaced (λ ns name, [key ["cluster"; "resourcequotas"]; key ["cluster"; "resourcequotas"; ns];
      key ["resourcequota-describe"; ns; name]]));
   ("LimitRange", OfNamespaced (λ ns name, [key ["cluster"; "limitranges"]; key ["cluster"; "limitranges"; ns];
      key ["limitrange-describe"; ns; name]]));
   ("MutatingWebhookConfiguration", OfCluster (λ name, [key ["cluster"; "mutatingwebhookconfigurations"];
      key ["mutatingwebhookconfiguration-describe"; name]]));
   ("ValidatingWebhookConfiguration", OfCluster (λ name, [key ["cluster"; "validatingwebhookconfigurations"];
      key ["validatingwebhookconfiguration-describe"; name]]));
   ("ValidatingAdmissionPolicy", OfCluster (λ name, [key ["cluster"; "validatingadmissionpolicies"];
      key ["admissionpolicy-describe"; "ValidatingAdmissionPolicy"; name]]));
   ("MutatingAdmissionPolicy", OfCluster (λ name, [key ["cluster"; "mutatingadmissionpolicies"];
      key ["admissionpolicy-describe"; "MutatingAdmissionPolicy"; name]]));
   ("CustomResourceDefinition", OfCluster (λ name, [key ["custom-resources"; "crds"]; key ["crd-describe"; name]]));
   ("CustomResourceInstance", OfCluster (λ name, [key ["custom-resources"; "instances"]; key ["cr-instance-describe"]]))].

(** [onSuccess] of the deletion, once the window is closed. *)
Definition onSuccess (t : Target) : list Key := invalidated afterDelete t.

Definition invalidateAfterApply (t : Target) : list Key :=
  key ["resource-yaml"] ::
  match assoc (kind t) afterApply with
  | Some (OfNamespaced keys) => match nsOf t with Some ns => keys ns (name t) | None => [key ["search-resources"]] end
  | Some _ => invalidated afterApply t
  | None => [key ["search-resources"]]
  end.

(** The keys some windows read their description at. *)
Definition ingressDescribe (namespace : option string) (name : string) : Key := [Some "ingress-describe"; namespace; Some name].
Definition endpointsDescribe (namespace : option string) (name : string) : Key := [Some "endpoints-describe"; namespace; Some name].
Definition workloadDescribe (kind : string) (namespace : option string) (name : string) : Key :=
  [Some "workload-describe"; Some kind; namespace; Some name].

(** ** One object *)

(** The characters of Kubernetes' names that a URL's path holds as they are. *)
Definition plainChar (c : ascii) : bool :=
  let n := nat_of_ascii c in
  ((48 <=? n) && (n <=? 58) || (65 <=? n) && (n <=? 90) || (97 <=? n) && (n <=? 122) || (n =? 45) || (n =? 46) || (n =? 95))%nat.
Definition plain (s : string) : Prop := s ≠ "." ∧ s ≠ ".." ∧ s ≠ "" ∧ sall plainChar s = true.

Fixpoint requestedPath (url : string) : string :=
  match url with
  | "" => ""
  | String c r => if bool_decide (c = "?"%char ∨ c = "#"%char) then "" else String c (requestedPath r)
  end.

(** A window's object as the cluster has it: named plainly, in a namespace exactly
    when its kind is, a custom resource with its definition. *)
Definition clean (t : Target) : Prop :=
  plain (name t) ∧ (∀ ns, nsOf t = Some ns → plain ns ∧ ns ≠ "-") ∧
  (∀ call, assoc (kind t) deletes = Some (ClusterScoped call) → nsOf t = None) ∧
  (kind t = "CustomResourceInstance" →
   ∃ g v crd, rawJson t .@ "group" = VStr g ∧ rawJson t .@ "version" = VStr v ∧ rawJson t .@ "crd_name" = VStr crd ∧
     plain g ∧ plain v ∧ plain (firstPart crd)).

(** What a target says the object is. *)
Definition objectOf (t : Target) : string * option string * string * option (string * string * option string) :=
  (kind t, nsOf t, name t, if kind t === "CustomResourceInstance" then Some (groupOf t, versionOf t, pluralOf t) else None).

Definition slashes (l : list string) : string := join "/" l.

(** The name of a kind in its path. *)
Definition pathName (d : Delete) : string :=
  match d with
  | Namespaced call => nth 4 (split "/" (call "x" "y")) ""
  | ClusterScoped call => nth 2 (split "/" (call "y")) ""
  end.

Definition namespaced (d : Delete) : bool := match d with Namespaced _ => true | ClusterScoped _ => false end.

Lemma deletes_paths :
  Forall (λ e, match e.2 with
               | Namespaced call => ∀ ns n, call ns n = slashes [""; "cluster"; "namespaces"; ns; pathName e.2; n]
               | ClusterScoped call => ∀ n, call n = slashes [""; "cluster"; pathName e.2; n]
               end) deletes.
Proof. unfold deletes. repeat (apply Forall_cons; split; [hnf; intros; reflexivity|]). by apply Forall_nil. Qed.

Lemma path_names_plain : Forall (λ e, sall plainChar (pathName e.2) = true) deletes.
Proof. apply (bool_decide_unpack _). by vm_compute. Qed.

(** No two kinds have one path. *)
Lemma path_names_differ : NoDup ((λ e, (namespaced e.2, pathName e.2)) <$> deletes).
Proof. apply (bool_decide_unpack _). by vm_compute. Qed.

Lemma deleted_kinds_differ : NoDup (deletes.*1).
Proof. apply (bool_decide_unpack _). by vm_compute. Qed.

(** Every kind a window deletes is one whose right is asked for. *)
Lemma deleted_kinds_asked : Forall (λ k, is_Some (assoc k DRAWER_GROUPS)) (deletes.*1).
Proof. apply (bool_decide_unpack _). by vm_compute. Qed.

Lemma plainChar_no c d : plainChar c = true → plainChar d = false → negb (bool_decide (c = d)) = true.
Proof. intros Hc Hd. rewrite bool_decide_false; [done|]. intros ->. congruence. Qed.

Lemma plain_free s : sall plainChar s = true → free_of "/" s.
Proof. apply sall_impl. intros c Hc. by apply plainChar_no. Qed.

Definition pathChar (c : ascii) : bool := plainChar c || bool_decide (c = "/"%char).

Lemma plain_path s : sall plainChar s = true → sall pathChar s = true.
Proof. apply sall_impl. intros c Hc. unfold pathChar. by rewrite Hc. Qed.

Lemma slashes_path l : Forall (λ s, sall plainChar s = true) l → sall pathChar (slashes l) = true.
Proof.
  induction 1 as [|s l Hs Hl IH]; [done|]. unfold slashes in *. destruct l as [|s' l]; [by apply plain_path|].
  change (join "/" (s :: s' :: l)) with (s +:+ "/" +:+ join "/" (s' :: l)). rewrite !sall_app, IH, plain_path by done. done.
Qed.

Lemma path_requested u : sall pathChar u = true → requestedPath u = u.
Proof.
  induction u as [|c u IH]; [done|]. cbn. intros [Hc Hu]%andb_prop. rewrite bool_decide_false, IH; [done..|].
  intros [-> | ->]; by vm_compute in Hc.
Qed.

(** The segments of the path a target's deletion requests. *)
Definition segments (t : Target) : list string :=
  match assoc (kind t) deletes with
  | Some (Namespaced _ as d) => [""; "cluster"; "namespaces"; default "" (nsOf t); pathName d; name t]
  | Some d => [""; "cluster"; pathName d; name t]
  | None => [""; "cluster"; "custom-resources"; groupOf t; versionOf t; default "" (pluralOf t); default "-" (nsOf t); name t]
  end.

Lemma custom_parts t g v crd :
  rawJson t .@ "group" = VStr g → rawJson t .@ "version" = VStr v → rawJson t .@ "crd_name" = VStr crd →
  groupOf t = g ∧ versionOf t = v ∧ pluralOf t = Some (firstPart crd).
Proof.
  intros Hg Hv Hc. unfold groupOf, versionOf, pluralOf, orEmpty. rewrite Hg, Hv, Hc. cbn [truthy toString].
  split_and!; [by destruct g|by destruct v|done].
Qed.

Lemma delete_request t u : clean t → mutationFn t = Some u → u = slashes (segments t) ∧ Forall (λ s, sall plainChar s = true) (segments t).
Proof.
  intros ((_ & _ & _ & Hname) & Hns & Hcl & Hcr). unfold mutationFn, segments.
  destruct (assoc (kind t) deletes) as [d|] eqn:Hd.
  - apply assoc_elem in Hd as Hin. pose proof (proj1 (Forall_forall _ _) deletes_paths _ Hin) as Hp.
    pose proof (proj1 (Forall_forall _ _) path_names_plain _ Hin) as Hpl. destruct d as [call|call]; cbn [fst snd] in *.
    + destruct (nsOf t) as [ns|] eqn:En; [|done]. intros [= <-]. rewrite Hp. split; [done|].
      destruct (Hns _ eq_refl) as [(_ & _ & _ & Hpn) _]. by repeat (apply Forall_cons; split).
    + intros [= <-]. rewrite Hp. split; [done|]. by repeat (apply Forall_cons; split).
  - destruct (decide (kind t = "CustomResourceInstance")) as [Hk|Hk]; [|by rewrite (bool_decide_false (kind t = _))].
    rewrite bool_decide_true by done. destruct (Hcr Hk) as (g & v & crd & Hg & Hv & Hc & Pg & Pv & Pc).
    destruct (custom_parts t g v crd Hg Hv Hc) as (-> & -> & ->). cbn [mbind option_bind].
    destruct (nonempty g && nonempty v && nonempty (firstPart crd)); [|done]. intros [= <-]. split; [done|].
    destruct Pg as (_ & _ & _ & Pg), Pv as (_ & _ & _ & Pv), Pc as (_ & _ & _ & Pc).
    repeat (apply Forall_cons; split); try done. destruct (nsOf t) as [ns|]; [|done]. by destruct (Hns _ eq_refl) as [(_ & _ & _ & ?) _].
Qed.

Lemma delete_segments t u : clean t → mutationFn t = Some u → split "/" (requestedPath u) = segments t.
Proof.
  intros Hc Hu. destruct (delete_request t u Hc Hu) as [-> Hp]. rewrite path_requested by (by apply slashes_path). apply split_join.
  - unfold segments. by repeat case_match.
  - eapply Forall_impl; [exact Hp|]. apply plain_free.
Qed.

Lemma kind_of_path t1 t2 d1 d2 :
  assoc (kind t1) deletes = Some d1 → assoc (kind t2) deletes = Some d2 →
  namespaced d1 = namespaced d2 → pathName d1 = pathName d2 → kind t1 = kind t2.
Proof.
  intros H1%assoc_elem H2%assoc_elem Hn Hp. apply list_elem_of_lookup in H1 as [i Hi]. apply list_elem_of_lookup in H2 as [j Hj].
  assert (i = j) as ->; [|congruence]. apply (NoDup_lookup _ _ _ (namespaced d1, pathName d1) path_names_differ); rewrite list_lookup_fmap.
  - by rewrite Hi.
  - rewrite Hj. cbn. by rewrite Hn, Hp.
Qed.

Lemma nsOf_asked t : default "" (namespace t) = default "" (nsOf t).
Proof. unfold nsOf. destruct (namespace t) as [s|]; [|done]. destruct (nonempty s) eqn:E; [done|]. by destruct s. Qed.

Definition asked (t : Target) : option AccessTarget := deleteTarget (kind t) (namespace t) (name t) (rawJson t).

(** The right asked for, from what the target says the object is. *)
Lemma asked_of_object t u :
  clean t → mutationFn t = Some u →
  asked t =
  match assoc (kind t) deletes with
  | Some _ =>
      Some {| group := default "" (assoc (kind t) DRAWER_GROUPS); resource := kindResource (kind t);
              a_namespace := if kind t === "Namespace" then name t else default "" (nsOf t); a_name := name t |}
  | None =>
      Some {| group := groupOf t; resource := default "" (pluralOf t); a_namespace := default "" (nsOf t); a_name := name t |}
  end.
Proof.
  intros (_ & _ & _ & Hcr). unfold mutationFn, asked, deleteTarget. rewrite nsOf_asked.
  destruct (assoc (kind t) deletes) as [d|] eqn:Hd.
  - intros _. destruct (decide (kind t = "CustomResourceInstance")) as [Hk|Hk]; [by rewrite Hk in Hd; vm_compute in Hd|].
    rewrite bool_decide_false by done. apply assoc_elem in Hd as Hin.
    destruct (proj1 (Forall_forall _ _) deleted_kinds_asked (kind t)) as [g Hg].
    + apply list_elem_of_fmap. by exists (kind t, d).
    + by rewrite Hg.
  - case_bool_decide as Hk; [|done]. destruct (Hcr Hk) as (g & v & crd & Hg & Hv & Hc & Pg & _ & Pc).
    destruct (custom_parts t g v crd Hg Hv Hc) as (-> & _ & ->). intros _. rewrite Hg, Hc. cbn [stringOr default].
    destruct Pg as (_ & _ & Pg & _), Pc as (_ & _ & Pc & _). apply nonempty_true in Pg, Pc. cbn [from_option id]. by rewrite Pg, Pc.
Qed.

Lemma segments_object t1 t2 u1 u2 :
  clean t1 → clean t2 → mutationFn t1 = Some u1 → mutationFn t2 = Some u2 → segments t1 = segments t2 → objectOf t1 = objectOf t2.
Proof.
  intros (_ & Hns1 & Hcl1 & Hcr1) (_ & Hns2 & Hcl2 & Hcr2). unfold mutationFn, segments, objectOf.
  assert (∀ t d, assoc (kind t) deletes = Some d → bool_decide (kind t = "CustomResourceInstance") = false) as Hnot.
  { intros t d Hd. rewrite bool_decide_false; [done|]. intros Hk. by rewrite Hk in Hd; vm_compute in Hd. }
  destruct (assoc (kind t1) deletes) as [d1|] eqn:H1, (assoc (kind t2) deletes) as [d2|] eqn:H2.
  - rewrite (Hnot _ _ H1), (Hnot _ _ H2). intros Hu1 Hu2 E.
    assert (kind t1 = kind t2 ∧ nsOf t1 = nsOf t2 ∧ name t1 = name t2) as (-> & -> & ->); [|done].
    destruct d1 as [c1|c1], d2 as [c2|c2]; [| |done|].
    + destruct (nsOf t1), (nsOf t2); try done. cbn [default from_option id] in E. injection E as -> Ep ->.
      split_and!; [|done..]. by apply (kind_of_path t1 t2 _ _ H1 H2).
    + done.
    + injection E as Ep ->. rewrite (Hcl1 _ eq_refl), (Hcl2 _ eq_refl). split_and!; [|done..]. by apply (kind_of_path t1 t2 _ _ H1 H2).
  - intros _ _ E. by destruct d1.
  - intros _ _ E. by destruct d2.
  - case_bool_decide as Hk1; [|done]. case_bool_decide as Hk2; [|done].
    destruct (Hcr1 Hk1) as (g1 & v1 & crd1 & A1 & B1 & C1 & _), (Hcr2 Hk2) as (g2 & v2 & crd2 & A2 & B2 & C2 & _).
    destruct (custom_parts t1 _ _ _ A1 B1 C1) as (-> & -> & ->), (custom_parts t2 _ _ _ A2 B2 C2) as (-> & -> & ->).
    intros _ _ [= -> -> -> Ens ->]. rewrite Hk1, Hk2. assert (nsOf t1 = nsOf t2) as ->; [|done].
    destruct (nsOf t1) as [n1|], (nsOf t2) as [n2|]; cbn [default from_option id] in Ens; [by subst| | |done].
    + by destruct (Hns1 _ eq_refl) as [_ ?].
    + by destruct (Hns2 _ eq_refl) as [_ ?].
Qed.

(** ** What the server deletes

    The routes of k8s-service-go/internal/routes, which the gateway serves under
    /cluster: whether an object is named in a namespace, its segment, and the resource
    of the Kubernetes API its handler deletes, by group and plural. *)

Record Route := { r_kind : string; r_namespaced : bool; r_segment : string; r_group : string; r_plural : string }.

Definition routes : list Route :=
  [Build_Route "Namespace" false "namespaces" "" "namespaces";
   Build_Route "Node" false "nodes" "" "nodes";
   Build_Route "ConfigMap" true "configmaps" "" "configmaps";
   Build_Route "Secret" true "secrets" "" "secrets";
   Build_Route "HorizontalPodAutoscaler" true "hpas" "autoscaling" "horizontalpodautoscalers";
   Build_Route "VerticalPodAutoscaler" true "vpas" "autoscaling.k8s.io" "verticalpodautoscalers";
   Build_Route "PodDisruptionBudget" true "pdbs" "policy" "poddisruptionbudgets";
   Build_Route "PriorityClass" false "priorityclasses" "scheduling.k8s.io" "priorityclasses";
   Build_Route "RuntimeClass" false "runtimeclasses" "node.k8s.io" "runtimeclasses";
   Build_Route "ResourceQuota" true "resourcequotas" "" "resourcequotas";
   Build_Route "LimitRange" true "limitranges" "" "limitranges";
   Build_Route "MutatingWebhookConfiguration" false "mutatingwebhookconfigurations" "admissionregistration.k8s.io" "mutatingwebhookconfigurations";
   Build_Route "ValidatingWebhookConfiguration" false "validatingwebhookconfigurations" "admissionregistration.k8s.io" "validatingwebhookconfigurations";
   Build_Route "Lease" true "leases" "coordination.k8s.io" "leases";
   Build_Route "CustomResourceDefinition" false "crds" "apiextensions.k8s.io" "customresourcedefinitions";
   Build_Route "Gateway" true "gateways" "gateway.networking.k8s.io" "gateways";
   Build_Route "GatewayClass" false "gatewayclasses" "gateway.networking.k8s.io" "gatewayclasses";
   Build_Route "HTTPRoute" true "httproutes" "gateway.networking.k8s.io" "httproutes";
   Build_Route "GRPCRoute" true "grpcroutes" "gateway.networking.k8s.io" "grpcroutes";
   Build_Route "ReferenceGrant" true "referencegrants" "gateway.networking.k8s.io" "referencegrants";
   Build_Route "BackendTLSPolicy" true "backendtlspolicies" "gateway.networking.k8s.io" "backendtlspolicies";
   Build_Route "DeviceClass" false "deviceclasses" "resource.k8s.io" "deviceclasses";
   Build_Route "ResourceClaim" true "resourceclaims" "resource.k8s.io" "resourceclaims";
   Build_Route "ResourceClaimTemplate" true "resourceclaimtemplates" "resource.k8s.io" "resourceclaimtemplates";
   Build_Route "ResourceSlice" false "resourceslices" "resource.k8s.io" "resourceslices";
   Build_Route "Service" true "services" "" "services";
   Build_Route "Ingress" true "ingresses" "networking.k8s.io" "ingresses";
   Build_Route "IngressClass" false "ingressclasses" "networking.k8s.io" "ingressclasses";
   Build_Route "Endpoints" true "endpoints" "" "endpoints";
   Build_Route "EndpointSlice" true "endpointslices" "discovery.k8s.io" "endpointslices";
   Build_Route "NetworkPolicy" true "networkpolicies" "networking.k8s.io" "networkpolicies";
   Build_Route "Pod" true "pods" "" "pods";
   Build_Route "ServiceAccount" true "serviceaccounts" "" "serviceaccounts";
   Build_Route "Role" true "roles" "rbac.authorization.k8s.io" "roles";
   Build_Route "RoleBinding" true "rolebindings" "rbac.authorization.k8s.io" "rolebindings";
   Build_Route "ClusterRole" false "clusterroles" "rbac.authorization.k8s.io" "clusterroles";
   Build_Route "ClusterRoleBinding" false "clusterrolebindings" "rbac.authorization.k8s.io" "clusterrolebindings";
   Build_Route "PersistentVolumeClaim" true "pvcs" "" "persistentvolumeclaims";
   Build_Route "PersistentVolume" false "pvs" "" "persistentvolumes";
   Build_Route "StorageClass" false "storageclasses" "storage.k8s.io" "storageclasses";
   Build_Route "VolumeAttachment" false "volumeattachments" "storage.k8s.io" "volumeattachments";
   Build_Route "Deployment" true "deployments" "apps" "deployments";
   Build_Route "StatefulSet" true "statefulsets" "apps" "statefulsets";
   Build_Route "DaemonSet" true "daemonsets" "apps" "daemonsets";
   Build_Route "ReplicaSet" true "replicasets" "apps" "replicasets";
   Build_Route "Job" true "jobs" "batch" "jobs";
   Build_Route "CronJob" true "cronjobs" "batch" "cronjobs"].

Definition routePath (r : Route) (ns : option string) (n : string) : list string :=
  if r_namespaced r then [""; "cluster"; "namespaces"; default "" ns; r_segment r; n] else [""; "cluster"; r_segment r; n].

(** The namespace of the right on an object: the API server takes a Namespace for one
    in itself. *)
Definition rightNamespace (k : string) (ns : option string) (n : string) : string := if k === "Namespace" then n else default "" ns.

(** What a deletion may be of: an object of a kind the server has a route for, or a
    custom resource, whose definition is named by its plural and group. *)
Inductive DeletionOf (t : Target) : list string → AccessTarget → Prop :=
  | of_route r :
      r ∈ routes → r_kind r = kind t → is_Some (nsOf t) ∨ r_namespaced r = false →
      DeletionOf t (routePath r (nsOf t) (name t))
        {| group := r_group r; resource := r_plural r; a_namespace := rightNamespace (kind t) (nsOf t) (name t); a_name := name t |}
  | of_custom g v pl rest :
      kind t = "CustomResourceInstance" → rawJson t .@ "group" = VStr g → rawJson t .@ "version" = VStr v →
      rawJson t .@ "crd_name" = VStr (pl +:+ rest) → free_of "." pl → rest = "" ∨ (∃ r, rest = "." +:+ r) →
      DeletionOf t [""; "cluster"; "custom-resources"; g; v; pl; default "-" (nsOf t); name t]
        {| group := g; resource := pl; a_namespace := default "" (nsOf t); a_name := name t |}.

Lemma routes_match :
  Forall (λ e, ∃ r, r ∈ routes ∧ r_kind r = e.1 ∧ r_namespaced r = namespaced e.2 ∧ r_segment r = pathName e.2 ∧
                    assoc e.1 DRAWER_GROUPS = Some (r_group r) ∧ r_plural r = kindResource e.1) deletes.
Proof.
  assert (Forall (λ e, Exists (λ r, r_kind r = e.1 ∧ r_namespaced r = namespaced e.2 ∧ r_segment r = pathName e.2 ∧
                    assoc e.1 DRAWER_GROUPS = Some (r_group r) ∧ r_plural r = kindResource e.1) routes) deletes) as H by (apply (bool_decide_unpack _); by vm_compute).
  eapply Forall_impl; [exact H|]. intros e (r & Hr & He)%Exists_exists. by exists r.
Qed.

Lemma firstPart_spec s : ∃ rest, s = firstPart s +:+ rest ∧ free_of "." (firstPart s) ∧ (rest = "" ∨ ∃ r, rest = "." +:+ r).
Proof.
  unfold firstPart. pose proof (join_split "." s) as Hj. pose proof (split_pieces_free "." s) as Hf. destruct (split "." s) as [|w ws] eqn:E; [by apply split_ne in E|].
  apply Forall_cons in Hf as [Hw _]. destruct ws as [|w' ws].
  - exists "". rewrite app_nil_r_s. split_and!; [done|done|by left].
  - exists ("." +:+ join "." (w' :: ws)). split_and!; [done|done|right; by eexists].
Qed.

Lemma deletion_of t u :
  clean t → mutationFn t = Some u → ∃ right_, asked t = Some right_ ∧ DeletionOf t (segments t) right_.
Proof.
  intros Hc Hu. rewrite (asked_of_object t u) by done. destruct Hc as (_ & _ & _ & Hcr). unfold segments. revert Hu. unfold mutationFn.
  destruct (assoc (kind t) deletes) as [d|] eqn:Hd.
  - intros Hu. eexists. split; [reflexivity|]. apply assoc_elem in Hd as Hin.
    destruct (proj1 (Forall_forall _ _) routes_match _ Hin) as (r & Hr & Hk & Hn & Hs & Hg & Hp). cbn [fst snd] in *.
    rewrite Hg, <-Hp. replace (match d with Namespaced _ => _ | ClusterScoped _ => _ end) with (routePath r (nsOf t) (name t)).
    + apply (of_route t r); [done..|]. destruct d; [|by right]. destruct (nsOf t); [left; by eexists|done].
    + unfold routePath. rewrite Hn, Hs. by destruct d.
  - case_bool_decide as Hk; [|done]. intros _. destruct (Hcr Hk) as (g & v & crd & Hg & Hv & Hcrd & _).
    destruct (custom_parts t g v crd Hg Hv Hcrd) as (-> & -> & ->). cbn [default from_option id]. destruct (firstPart_spec crd) as (rest & E & Hf & Hrest).
    eexists. split; [reflexivity|]. apply (of_custom t g v (firstPart crd) rest); congruence || done.
Qed.

(** C5. A window deletes the object it shows, by the right it asked for: its deletion
    requests the server's route for its kind, with its namespace and name; the right
    the Delete button asked the cluster about is the one on the resource that route
    deletes; and no window of another object requests that path. *)
Theorem delete_names_its_object t u :
  clean t → mutationFn t = Some u →
  (∃ right_, asked t = Some right_ ∧ DeletionOf t (split "/" (requestedPath u)) right_) ∧
  ∀ t' u', clean t' → mutationFn t' = Some u' → requestedPath u' = requestedPath u → objectOf t' = objectOf t.
Proof.
  intros Hc H. rewrite (delete_segments t u) by done. split; [by apply (deletion_of t u)|]. intros t' u' Hc' H' E.
  apply (segments_object t' t u' u); [done..|]. by rewrite <-(delete_segments t' u'), <-(delete_segments t u), E.
Qed.

Definition letterTarget (kind : string) (namespace : option string) (name : string) : Target :=
  {| kind := kind; namespace := namespace; name := name; rawJson := VUndef |}.

Lemma delete_names_its_object_witness :
  let t := letterTarget "PersistentVolumeClaim" (Some "team-a") "web" in
  mutationFn t = Some "/cluster/namespaces/team-a/pvcs/web" ∧
  ∃ right_, asked t = Some right_ ∧ DeletionOf t (split "/" (requestedPath "/cluster/namespaces/team-a/pvcs/web")) right_.
Proof.
  intros t. assert (clean t) as Hc.
  { split_and!.
    - split_and!; done.
    - intros ns [= <-]. split; [split_and!; done|done].
    - intros call [=].
    - intros [=]. }
  split; [reflexivity|]. exact (proj1 (delete_names_its_object t "/cluster/namespaces/team-a/pvcs/web" Hc eq_refl)).
Defined.

(** The names of RBAC's objects may hold characters a URL ends its path at, which
    the window does not encode: deleting such a ClusterRole requests the deletion of
    another one, while the Delete button asked for the right on the one shown. *)
Theorem delete_hits_another (a b : string) :
  sall plainChar a = true →
  let shown := letterTarget "ClusterRole" None (a +:+ "?" +:+ b) in
  let other := letterTarget "ClusterRole" None a in
  ∃ u v, mutationFn shown = Some u ∧ mutationFn other = Some v ∧ requestedPath u = requestedPath v ∧
    a_name <$> asked shown = Some (a +:+ "?" +:+ b).
Proof.
  intros Ha shown other. exists (deleteClusterRole (a +:+ "?" +:+ b)), (deleteClusterRole a). split_and!; [done..| |done].
  assert (∀ p s, sall pathChar p = true → requestedPath (p +:+ s) = p +:+ requestedPath s) as Happ.
  { intros p s. induction p as [|c p IH]; [done|]. rewrite !app_cons_s. cbn. intros [Hc Hp]%andb_prop.
    rewrite bool_decide_false, IH; [done..|]. intros [-> | ->]; by vm_compute in Hc. }
  unfold deleteClusterRole. rewrite !(Happ "/cluster/clusterroles/") by done. f_equal. rewrite Happ by (by apply plain_path).
  rewrite (path_requested a) by (by apply plain_path). cbn. apply app_nil_r_s.
Qed.

Lemma delete_hits_another_witness :
  ∃ u v, mutationFn (letterTarget "ClusterRole" None "view?old") = Some u ∧ mutationFn (letterTarget "ClusterRole" None "view") = Some v ∧
    requestedPath u = requestedPath v ∧ a_name <$> asked (letterTarget "ClusterRole" None "view?old") = Some "view?old".
Proof. exact (delete_hits_another "view" "old" eq_refl). Defined.

(** ** One YAML *)

Lemma plural_lower k : kindToPlural k = toLowerCase k.
Proof.
  unfold kindToPlural. assert (∀ k p, assoc k pluralNames = Some p → p = toLowerCase k) as H.
  { intros k' p Hp%assoc_elem. assert (Forall (λ e, e.2 = toLowerCase e.1) pluralNames) as Hf by (apply (bool_decide_unpack _); by vm_compute).
    by apply (proj1 (Forall_forall _ _) Hf) in Hp. }
  destruct (assoc k pluralNames) eqn:E; [by apply H|done].
Qed.

(** What a request of the YAML tab is about: its reading and its applying. *)
Definition applyOf (r : Yaml) : Yaml :=
  match r with OfPath path => OfPath (path +:+ "/apply") | OfResource _ _ _ => r end.

Lemma own_path p n : Some (OfPath (p +:+ n +:+ "/yaml/apply")) = Some (applyOf (OfPath (p +:+ n +:+ "/yaml"))).
Proof. cbn [applyOf]. by rewrite !app_assoc_s. Qed.

(** The YAML tab saves to the object it read: the edit of a window goes to the
    resource its YAML came from (a Secret's, read at a path of its own, to the same
    Secret), unless the window is a custom resource's that does not say its
    definition, whose edit goes nowhere. *)
Theorem edits_what_was_read t canEdit raw :
  (handleApplyYaml t canEdit raw).2 =
  if (kind t === "CustomResourceInstance") && negb (nonempty (orEmpty (rawJson t .@ "crd_name"))) then None
  else Some match (if kind t === "Secret" then nsOf t else None) with
            | Some ns => OfResource "secret" (name t) (notDash (Some ns))
            | None => applyOf (readYaml t)
            end.
Proof.
  destruct t as [k ns n rj]. unfold handleApplyYaml, readYaml. cbn [snd kind name rawJson].
  destruct (decide (k = "Node")) as [->|H1]; [exact (own_path "/cluster/nodes/" n)|]. rewrite (bool_decide_false (k = "Node")) by done.
  destruct (decide (k = "Namespace")) as [->|H2]; [exact (own_path "/cluster/namespaces/" n)|]. rewrite (bool_decide_false (k = "Namespace")) by done.
  destruct (decide (k = "Secret")) as [->|H3].
  - cbn -[nsOf]. by destruct (nsOf _).
  - rewrite (bool_decide_false (k = "Secret")) by done.
    destruct (decide (k = "CustomResourceDefinition")) as [->|H4]; [reflexivity|].
    rewrite (bool_decide_false (k = "CustomResourceDefinition")) by done.
    destruct (k === "CustomResourceInstance"); [|done]. by destruct (nonempty _).
Qed.

(** ** What stays stale *)

Section client.
#[local] Set Default Proof Using "Type*".
Context (partialMatch : Key → Key → bool).
(** TanStack Query matches a query whose key starts with the one invalidated. *)
Hypothesis partialMatch_prefix : ∀ asked q, partialMatch asked q = true ↔ asked `prefix_of` q.

Definition readAgain (keys : list Key) (q : Key) : bool := some (λ k, partialMatch k q) keys.

Lemma readAgain_false keys q : forallb (λ k, negb (bool_decide (k `prefix_of` q))) keys = true → readAgain keys q = false.
Proof.
  intros H. unfold readAgain. apply not_true_iff_false. rewrite some_true. intros (k & Hk & Hm). apply partialMatch_prefix in Hm.
  rewrite forallb_forall in H. apply list_elem_of_In, H, negb_true_iff, bool_decide_eq_false in Hk. done.
Qed.

Definition staleKinds : list string :=
  ["Ingress"; "Endpoints"; "Deployment"; "StatefulSet"; "DaemonSet"; "ReplicaSet"; "Job"; "CronJob"].

Definition describeKey (t : Target) : Key :=
  if kind t === "Ingress" then ingressDescribe (namespace t) (name t)
  else if kind t === "Endpoints" then endpointsDescribe (namespace t) (name t)
  else workloadDescribe (kind t) (namespace t) (name t).

(** Applying the YAML of an Ingress, of Endpoints or of a workload does not read again
    the description its window shows: none of the keys it invalidates is the one
    the window reads. *)
Theorem edit_leaves_window_stale t :
  kind t ∈ staleKinds → readAgain (invalidateAfterApply t) (describeKey t) = false.
Proof.
  destruct t as [k ns n rj]. cbn [kind]. intros Hk. apply readAgain_false. unfold invalidateAfterApply, invalidated, nsOf. cbn [kind name namespace].
  unfold staleKinds in Hk. repeat (apply elem_of_cons in Hk as [->|Hk]; [destruct ns as [s|]; [destruct (nonempty s)|]; reflexivity|]).
  by apply elem_of_nil in Hk.
Qed.
End client.

Definition prefixMatch (asked q : Key) : bool := bool_decide (asked `prefix_of` q).

Lemma edit_leaves_window_stale_witness :
  readAgain prefixMatch (invalidateAfterApply (letterTarget "Ingress" (Some "team-a") "web")) [Some "ingress-describe"; Some "team-a"; Some "web"] = false.
Proof.
  exact (edit_leaves_window_stale prefixMatch (λ a q, bool_decide_eq_true (a `prefix_of` q)) (letterTarget "Ingress" (Some "team-a") "web")
           ltac:(apply (bool_decide_unpack _); reflexivity)).
Defined.
