(* ===== verification/ToolExport.v ===== *)
(** * Downloading the results of an answer's tools

    pages/ai-chat/exportToolCalls.ts: the tool calls of a message are looked up in
    the saved conversation, and each is a file of a ZIP.  The two answers of
    [api.getSession] are arguments ([None]: it failed), and so is the text of
    [JSON.stringify]; the ZIP is the list of the calls of [zip.file], and the clock
    the fields of [now].  The saved tool calls are an array or absent. *)

From S2P Require Import Prelude JsString Json ChatText Conversation.

#[local] Open Scope N_scope.

Definition TRUNCATED_MARKER : string := "... (truncated) ...".

Definition hasTruncatedToolCalls (toolCalls : list value) : bool :=
  some (λ tc, truthy tc && (match tc .@ "result" with VStr r => includes TRUNCATED_MARKER r | _ => false end
                            || match tc .@ "display" with VStr d => includes TRUNCATED_MARKER d | _ => false end)) toolCalls.

(** A message of the saved conversation. *)
Record Saved := { m_id : option ident; role : string; m_content : value; tool_calls : option (list value) }.

#[export] Instance saved_id : Identified Saved := m_id.

Definition isToolMessage (m : Saved) : bool :=
  (role m === "assistant") && match tool_calls m with Some (_ :: _) => true | _ => false end.

(** [s.includes(p)]. *)
Fixpoint textPrefix (p t : text) : bool :=
  match p, t with
  | [], _ => true
  | a :: p', b :: t' => (a =? b) && textPrefix p' t'
  | _, _ => false
  end.
Fixpoint textIncludes (p t : text) : bool :=
  textPrefix p t || match t with [] => false | _ :: t' => textIncludes p t' end.

Definition savedCalls (m : Saved) : list value := default [] (tool_calls m).

(** The names of the tools of the message, and of a saved one. *)
Definition currentFns (current : list value) : list string :=
  filterb nonempty ((λ tc, match (if truthy tc then tc .@ "function" else VUndef) with VStr f => f | _ => "" end) <$> current).

Definition savedFns (m : Saved) : list string :=
  filterb nonempty ((λ tc, let f := tc .@ "function" in if truthy f then toString f else "") <$> savedCalls m).

Definition sameOrder (fns : list string) (m : Saved) : bool := savedFns m === fns.

Definition sameSet (fns : list string) (m : Saved) : bool :=
  Nat.eqb (length (savedFns m)) (length fns) && (list_to_set (C := gset string) (savedFns m) === list_to_set fns).

(** The saved message taken for the one on screen.  [position] is the place of the
    message among those of the screen with tool calls. *)
Definition dbMessage (id : option ident) (current : list value) (content : text) (position : option nat) (saved : list Saved) : option Saved :=
  let dbToolMessages := filterb isToolMessage saved in
  let fns := currentFns current in
  let orElse (a b : option Saved) := match a with Some _ => a | None => b end in
  orElse (match id with Some i => find (λ m, m_id m === Some i) saved | None => None end)
  (orElse (match fns with [] => None | _ => find (sameOrder fns) dbToolMessages end)
  (orElse (match fns with [] => None | _ => find (sameSet fns) dbToolMessages end)
  (orElse (last dbToolMessages)
  (orElse (match position with Some i => dbToolMessages !! i | None => None end)
  (let hint := take 200 (trimText content) in
   if Nat.leb 20 (length hint) then
     find (λ m, match m_content m with VStr c => textIncludes hint (utf16 c) | _ => false end) dbToolMessages
   else None))))).

Definition resolveToolCallsForDownload (id : option ident) (current : list value) (content : text) (position : option nat)
    (session : option (list Saved)) : list value :=
  match session with
  | None => current
  | Some saved =>
      if olderThanNewestPage id saved then current
      else match dbMessage id current content position saved with
           | Some m => match savedCalls m with [] => current | calls => calls end
           | None => current
           end
  end.

(** A second look when a result is cut. *)
Definition recovered (id : option ident) (toolCalls : list value) (session : option (list Saved)) : list value :=
  match session with
  | None => toolCalls
  | Some saved =>
      let candidates := if olderThanNewestPage id saved then [] else rev (filterb isToolMessage saved) in
      match find (λ m, negb (hasTruncatedToolCalls (savedCalls m))) candidates with
      | Some full => match savedCalls full with [] => toolCalls | calls => calls end
      | None => toolCalls
      end
  end.

(** What is downloaded of a message with tool calls; [inSession]: the conversation has
    an identifier. *)
Definition exported (inSession : bool) (id : option ident) (current : list value) (content : text) (position : option nat)
    (session session' : option (list Saved)) : list value :=
  let toolCalls := if inSession then resolveToolCallsForDownload id current content position session else current in
  if hasTruncatedToolCalls toolCalls && inSession then recovered id toolCalls session' else toolCalls.

(** ** The files *)

Definition nameChar (c : N) : bool :=
  (97 <=? c) && (c <=? 122) || (65 <=? c) && (c <=? 90) || (48 <=? c) && (c <=? 57) || (c =? 46) || (c =? 95) || (c =? 45).

(** [.replace(/[^a-zA-Z0-9._-]+/g, '_')]. *)
Fixpoint squeeze (inRun : bool) (t : text) : text :=
  match t with
  | [] => []
  | c :: t' => if nameChar c then c :: squeeze false t' else if inRun then squeeze true t' else 95 :: squeeze true t'
  end.

Fixpoint dropUnders (t : text) : text := match t with c :: t' => if c =? 95 then dropUnders t' else t | [] => [] end.

Definition sanitizeName (value : text) : text :=
  match take 40 (rev (dropUnders (rev (dropUnders (squeeze false value))))) with [] => utf16 "tool" | t => t end.

Definition number (n : N) : text := utf16 (pretty n).

Definition getUniqueBase (base : text) (nameCounts : gmap text N) : text * gmap text N :=
  let next := default 0 (nameCounts !! base) + 1 in
  (if 1 <? next then base ++ 95 :: number next else base, <[base := next]> nameCounts).

Definition pushPart (label : string) (v : value) : list text :=
  if nullish v then [] else
  match trimText (utf16 (toString v)) with [] => [] | trimmed => [utf16 label ++ 45 :: take 40 trimmed] end.

Definition argParts (args : value) : list text :=
  pushPart "ns" (args .@ "namespace") ++ pushPart "type" (args .@ "resource_type") ++ pushPart "name" (args .@ "resource_name") ++
  pushPart "pod" (args .@ "pod_name") ++ pushPart "svc" (args .@ "service_name") ++ pushPart "name" (args .@ "name") ++
  pushPart "out" (args .@ "output") ++ pushPart "ctr" (args .@ "container").

Fixpoint joinUnder (l : list text) : text :=
  match l with [] => [] | [t] => t | t :: l' => t ++ 95 :: joinUnder l' end.

Definition buildParamSuffix (args : value) : text :=
  match argParts args with
  | [] => []
  | parts => match take 60 (sanitizeName (joinUnder (take 4 parts))) with [] => [] | safe => 95 :: safe end
  end.

(** The clock's fields, the month from 1. *)
Record Now := { year : N; month : N; day : N; hour : N; minute : N; second : N }.

Definition pad (n : N) : text := if n <? 10 then 48 :: number n else number n.
Definition dateOf (now : Now) : text := number (year now) ++ pad (month now) ++ pad (day now).
Definition timestamp (now : Now) : text := dateOf now ++ 45 :: pad (hour now) ++ pad (minute now) ++ pad (second now).

Section zip.
Context (stringify : value → text) (now : Now).

Definition functionName (tc : value) : string := match tc .@ "function" with VStr f => f | _ => "tool" end.
Definition contentOf (tc : value) : text :=
  match tc .@ "result" with VStr r => utf16 r | r => stringify (r ?? VNull) end.
Definition ext (tc : value) : text :=
  if (functionName tc === "get_pod_logs") || (functionName tc === "k8s_get_pod_logs") then utf16 "log"
  else if truthy (tc .@ "is_yaml") then utf16 "yaml"
  else if truthy (tc .@ "is_json") then utf16 "json"
  else utf16 "txt".

(** The calls of [zip.file]. *)
Fixpoint files (nameCounts : gmap text N) (toolCalls : list value) : list (text * text) :=
  match toolCalls with
  | [] => []
  | tc :: rest =>
      if truthy tc then
        let (uniqueBase, nameCounts') := getUniqueBase (sanitizeName (utf16 (functionName tc))) nameCounts in
        (uniqueBase ++ buildParamSuffix (tc .@ "args") ++ 95 :: timestamp now ++ 46 :: ext tc, contentOf tc) :: files nameCounts' rest
      else files nameCounts rest
  end.

(** [exportToolCallsAsZip]; [None]: nothing to download. *)
Definition exportToolCallsAsZip (inSession : bool) (id : option ident) (toolCalls : option (list value)) (content : text)
    (position : option nat) (session session' : option (list Saved)) : option (list (text * text)) :=
  match toolCalls with
  | None | Some [] => None
  | Some current => Some (files ∅ (exported inSession id current content position session session'))
  end.
End zip.

(** ** Whose results *)

Lemma find_unique {A} (P : A → bool) l x : x ∈ l → P x = true → (∀ y, y ∈ l → P y = true → y = x) → find P l = Some x.
Proof.
  intros Hx Hp Hu. destruct (find P l) as [y|] eqn:E.
  - apply find_Some in E as [Hy Hpy]. f_equal. by apply Hu.
  - apply find_None in E. by rewrite (proj1 (Forall_forall _ _) E x Hx) in Hp.
Qed.

(** The saved conversation: its messages are numbered upwards. *)
Definition before (x y : Saved) : Prop := ∃ i j, m_id x = Some (IdNum i) ∧ m_id y = Some (IdNum j) ∧ (i < j)%Z.

Fixpoint numbered (saved : list Saved) : Prop :=
  match saved with
  | [] => True
  | m :: saved' => (∃ i, m_id m = Some (IdNum i)) ∧ Forall (before m) saved' ∧ numbered saved'
  end.

Lemma numbered_app a b : numbered (a ++ b) → numbered b ∧ ∀ x y, x ∈ a → y ∈ b → before x y.
Proof.
  induction a as [|m a IH]; [by intros H; split; [|intros x y Hx%elem_of_nil]|]. intros (_ & Hf & H). apply IH in H as [Hb Hab].
  split; [done|]. intros x y [->|Hx]%elem_of_cons Hy; [|by apply Hab]. apply (proj1 (Forall_forall _ _) Hf). rewrite elem_of_app. by right.
Qed.

Lemma numbered_unique l x y : numbered l → x ∈ l → y ∈ l → m_id x = m_id y → x = y.
Proof.
  induction l as [|m l IH]; [by intros _ Hx%elem_of_nil|]. intros (_ & Hf & Hl) Hx Hy E.
  assert (∀ z, z ∈ l → m_id z ≠ m_id m) as Hne.
  { intros z Hz Ez. apply (proj1 (Forall_forall _ _) Hf) in Hz as (i & j & Hi & Hj & Hlt). rewrite Hi, Hj in Ez. injection Ez as ->. lia. }
  apply elem_of_cons in Hx as [->|Hx], Hy as [->|Hy]; [done| | |by apply IH].
  - by destruct (Hne y Hy).
  - by destruct (Hne x Hx).
Qed.

Lemma older_first id p page :
  olderThanNewestPage id (p :: page) = match id, m_id p with Some (IdNum a), Some (IdNum b) => (a <? b)%Z | _, _ => false end.
Proof. done. Qed.

Lemma not_older page m : numbered page → m ∈ page → olderThanNewestPage (m_id m) page = false.
Proof.
  destruct page as [|p page]; [by intros _ Hx%elem_of_nil|]. intros ((i & Hi) & Hf & _) Hm. rewrite older_first, Hi.
  apply elem_of_cons in Hm as [->|Hm]; [rewrite Hi; apply Z.ltb_irrefl|].
  apply (proj1 (Forall_forall _ _) Hf) in Hm as (i' & j & Hi' & -> & Hlt). rewrite Hi in Hi'. injection Hi' as <-. apply Z.ltb_ge. lia.
Qed.

Lemma saved_found page m : numbered page → m ∈ page → find (λ y, m_id y === m_id m) page = Some m.
Proof.
  intros Hn Hm. apply find_unique; [done|by apply bool_decide_eq_true|]. intros y Hy E%bool_decide_eq_true. by apply (numbered_unique page).
Qed.

Lemma in_page page m current content position :
  numbered page → m ∈ page → savedCalls m ≠ [] → resolveToolCallsForDownload (m_id m) current content position (Some page) = savedCalls m.
Proof.
  intros Hn Hm Hc. unfold resolveToolCallsForDownload. rewrite not_older by done. unfold dbMessage.
  assert (∃ i, m_id m = Some (IdNum i)) as [i Hi].
  { clear -Hn Hm. induction page as [|p page IH]; [by apply elem_of_nil in Hm|]. destruct Hn as (Hp & _ & Hn).
    apply elem_of_cons in Hm as [->|Hm]; [done|by apply IH]. }
  pose proof (saved_found page m Hn Hm) as E. rewrite Hi in E |- *. rewrite E. by destruct (savedCalls m).
Qed.

(** A saved answer's download is its own results, wherever it is in the conversation
    and whatever the screen holds of it: the copies the screen keeps of its calls
    may be cut, while those of an answer read above the newest page are the
    server's own.  (Its saved results are not cut themselves.) *)
Theorem download_own_results above page m current content position session' :
  numbered (above ++ page) → page ≠ [] → m ∈ above ++ page → savedCalls m ≠ [] → hasTruncatedToolCalls (savedCalls m) = false →
  (m ∈ above → current = savedCalls m) →
  exported true (m_id m) current content position (Some page) session' = savedCalls m.
Proof.
  intros Hn Hp Hm Hc Ht Hcur. apply numbered_app in Hn as [Hn Hb]. unfold exported.
  assert (resolveToolCallsForDownload (m_id m) current content position (Some page) = savedCalls m) as ->; [|by rewrite Ht].
  apply elem_of_app in Hm as [Hm|Hm]; [|by apply in_page]. unfold resolveToolCallsForDownload.
  destruct page as [|p page]; [done|]. destruct (Hb m p Hm ltac:(left)) as (i & j & Hi & Hj & Hlt).
  rewrite older_first, Hi, Hj, (proj2 (Z.ltb_lt _ _)) by done. by apply Hcur.
Qed.

(** When a saved answer's own results are cut, what is downloaded as its results
    are those of the newest saved answer whose results are not cut: another
    answer's. *)
Theorem cut_answer_gives_anothers page m other current content position :
  numbered page → m ∈ page → isToolMessage m = true → hasTruncatedToolCalls (savedCalls m) = true →
  find (λ x, negb (hasTruncatedToolCalls (savedCalls x))) (rev (filterb isToolMessage page)) = Some other →
  exported true (m_id m) current content position (Some page) (Some page) = savedCalls other ∧ m_id other ≠ m_id m.
Proof.
  intros Hn Hm Htool Ht Ho. assert (savedCalls m ≠ []) as Hc by (intros E; by rewrite E in Ht).
  unfold exported. rewrite in_page, Ht by done. cbn [andb]. unfold recovered. rewrite not_older, Ho by done.
  apply find_Some in Ho as [Hin Hot%negb_true_iff]. apply list_elem_of_In, in_rev, list_elem_of_In, elem_of_filterb in Hin as [Hin Htm].
  split; [|intros E; apply (numbered_unique page) in E as ->; [congruence|done..]].
  unfold isToolMessage in Htm. unfold savedCalls. destruct (tool_calls other) as [[|c l]|]; [by rewrite andb_false_r in Htm|done|by rewrite andb_false_r in Htm].
Qed.

(** ** One file each *)

Definition digit (c : N) : bool := (48 <=? c) && (c <=? 57).
Definition digits (t : text) : Prop := Forall (λ c, digit c = true) t.

Lemma utf16_digit c s : is_digit c = true → utf16 (String c s) = (N_of_ascii c :: utf16 s) ∧ digit (N_of_ascii c) = true.
Proof.
  intros H. unfold is_digit, nat_of_ascii in H. apply andb_prop in H as [H1%Nat.leb_le H2%Nat.leb_le]. cbn [utf16].
  assert (48 <= N_of_ascii c <= 57) as [Hl Hu] by lia. rewrite (proj2 (N.ltb_lt _ _)) by lia. split; [done|].
  unfold digit. by rewrite (proj2 (N.leb_le _ _) Hl), (proj2 (N.leb_le _ _) Hu).
Qed.

Lemma utf16_digits s : sall is_digit s = true → digits (utf16 s).
Proof.
  induction s as [|c s IH]; [constructor|]. cbn [sall]. intros [Hc Hs]%andb_prop. destruct (utf16_digit c s Hc) as [-> Hd].
  constructor; [done|by apply IH].
Qed.

Lemma utf16_digits_inj s t : sall is_digit s = true → sall is_digit t = true → utf16 s = utf16 t → s = t.
Proof.
  revert t. induction s as [|c s IH]; intros [|d t]; cbn [sall]; intros Hs Ht E; try apply andb_prop in Hs as [Hc Hs]; try apply andb_prop in Ht as [Hd Ht]; [done|..].
  - by rewrite (proj1 (utf16_digit d t Hd)) in E.
  - by rewrite (proj1 (utf16_digit c s Hc)) in E.
  - rewrite (proj1 (utf16_digit d t Hd)), (proj1 (utf16_digit c s Hc)) in E. injection E as Ec E.
    f_equal; [by rewrite <-(ascii_N_embedding c), Ec, ascii_N_embedding|by apply IH].
Qed.

Lemma number_digits n : digits (number n).
Proof. apply utf16_digits, number_string. Qed.

Lemma number_inj n m : number n = number m → n = m.
Proof. intros E. apply utf16_digits_inj in E; [by apply (inj pretty)|apply number_string..]. Qed.

Lemma digits_no t c : digits t → digit c = false → c ∉ t.
Proof. intros Ht Hc Hin. apply (proj1 (Forall_forall _ _) Ht) in Hin. congruence. Qed.

Lemma pad_digits n : digits (pad n).
Proof. unfold pad. case_match; [constructor; [done|]|]; apply number_digits. Qed.

(** Where a text is cut at the first, or at the last, of a character. *)
Lemma first_cut {A} `{EqDecision A} (c : A) a b r s : c ∉ a → c ∉ b → a ++ c :: r = b ++ c :: s → a = b.
Proof.
  revert b. induction a as [|x a IH]; intros [|y b] Ha Hb E; [done|..]; cbn [app] in E; injection E as Ex E.
  - subst y. by destruct Hb; left.
  - subst x. by destruct Ha; left.
  - subst y. f_equal. apply not_elem_of_cons in Ha as [_ Ha], Hb as [_ Hb]. by apply IH.
Qed.

Lemma last_cut {A} `{EqDecision A} (c : A) a b r s : c ∉ r → c ∉ s → a ++ c :: r = b ++ c :: s → a = b ∧ r = s.
Proof.
  intros Hr Hs E. apply (f_equal (@rev A)) in E. rewrite !rev_app_distr in E. cbn [rev] in E. rewrite <-!app_assoc in E.
  assert (rev r = rev s) as Er.
  { apply (first_cut c _ _ (rev a) (rev b)); [| |exact E]; by rewrite list_elem_of_In, <-in_rev, <-list_elem_of_In. }
  rewrite Er in E. apply app_inv_head in E. injection E as E. split; apply rev_inj; done.
Qed.

Definition plainName (t : text) : Prop := Forall (λ c, nameChar c = true) t.

Lemma squeeze_plain b t : plainName (squeeze b t).
Proof.
  revert b. induction t as [|c t IH]; intros b; cbn [squeeze]; [constructor|].
  destruct (nameChar c) eqn:E; [|destruct b]; [constructor; [done|]| |constructor; [done|]]; apply IH.
Qed.

Lemma squeeze_app p t : plainName p → p ≠ [] → squeeze false (p ++ t) = p ++ squeeze false t.
Proof.
  intros Hp _. induction Hp as [|c p Hc Hp IH]; [done|]. cbn [app squeeze]. by rewrite Hc, IH.
Qed.

Lemma dropUnders_plain t : plainName t → plainName (dropUnders t).
Proof. induction 1 as [|c t Hc Ht IH]; cbn [dropUnders]; [constructor|]. case_match; [done|by constructor]. Qed.

Lemma dropUnders_app a c b : c ≠ 95 → dropUnders (a ++ c :: b) = dropUnders a ++ c :: b.
Proof.
  intros Hc. induction a as [|x a IH]; cbn [app dropUnders]; [by rewrite (proj2 (N.eqb_neq _ _))|]. by case_match.
Qed.

Lemma plain_rev t : plainName t → plainName (rev t).
Proof. unfold plainName. rewrite !Forall_forall. intros H c Hc. apply H. by rewrite list_elem_of_In, in_rev, <-list_elem_of_In. Qed.

Lemma sanitize_plain t : plainName (sanitizeName t).
Proof.
  unfold sanitizeName. assert (plainName (take 40 (rev (dropUnders (rev (dropUnders (squeeze false t))))))) as H.
  { apply Forall_take, plain_rev, dropUnders_plain, plain_rev, dropUnders_plain, squeeze_plain. }
  destruct (take 40 _); [|done]. apply (bool_decide_unpack _). by vm_compute.
Qed.

(** A word and a dash at the start of a text stay. *)
Lemma sanitize_word c w t :
  plainName (c :: w) → c ≠ 95 → (length w < 39)%nat → ∃ y, sanitizeName (c :: w ++ 45 :: t) = c :: w ++ 45 :: y ∧ plainName y.
Proof.
  intros Hp Hc Hl. exists (take (38 - length w) (rev (dropUnders (rev (squeeze false t))))).
  unfold sanitizeName. change (c :: w ++ 45 :: t) with ((c :: w) ++ 45 :: t).
  rewrite squeeze_app by done. change (squeeze false (45 :: t)) with (45 :: squeeze false t).
  cbn [app dropUnders]. rewrite (proj2 (N.eqb_neq c 95)) by done. cbn [rev]. rewrite rev_app_distr. cbn [rev].
  rewrite <-!app_assoc. cbn [app]. rewrite dropUnders_app by done.
  rewrite !rev_app_distr. cbn [rev]. rewrite !rev_app_distr, !rev_involutive. cbn [rev app]. rewrite <-!app_assoc. cbn [app].
  cbn [take]. rewrite take_app, take_ge by lia. replace (39 - length w)%nat with (S (38 - length w)) by lia. cbn [take]. split; [done|].
  apply Forall_take, plain_rev, dropUnders_plain, plain_rev, squeeze_plain.
Qed.

Definition labels : list string := ["ns"; "type"; "name"; "pod"; "svc"; "out"; "ctr"].

Lemma argParts_labels args : Forall (λ p, ∃ l x, l ∈ labels ∧ p = utf16 l ++ 45 :: x) (argParts args).
Proof.
  assert (∀ l v, l ∈ labels → Forall (λ p, ∃ l x, l ∈ labels ∧ p = utf16 l ++ 45 :: x) (pushPart l v)) as H.
  { intros l v Hl. unfold pushPart. destruct (nullish v); [constructor|]. destruct (trimText _) as [|c t]; [constructor|].
    constructor; [by exists l, (take 40 (c :: t))|constructor]. }
  unfold argParts. repeat (apply Forall_app; split); apply H; apply (bool_decide_unpack _); reflexivity.
Qed.

Lemma label_shape l : l ∈ labels → ∃ c w, utf16 l = c :: w ∧ plainName (c :: w) ∧ c ≠ 95 ∧ (length w < 39)%nat ∧ 45 ∉ (c :: w) ∧ 95 ∉ (c :: w).
Proof.
  intros Hl. unfold labels in Hl. repeat (apply elem_of_cons in Hl as [->|Hl]; [eexists _, _; split; [vm_compute; reflexivity|];
    split_and!; apply (bool_decide_unpack _); by vm_compute|]).
  by apply elem_of_nil in Hl.
Qed.

Lemma suffix_shape args :
  buildParamSuffix args = [] ∨ ∃ w y, buildParamSuffix args = 95 :: w ++ 45 :: y ∧ 45 ∉ w ∧ 95 ∉ w ∧ plainName w ∧ plainName y.
Proof.
  unfold buildParamSuffix. pose proof (argParts_labels args) as H. destruct (argParts args) as [|p ps]; [by left|right].
  apply Forall_cons in H as [(l & x & Hl & ->) _]. destruct (label_shape l Hl) as (c & w & -> & Hp & Hc & Hlen & H45 & H95).
  assert (∃ t, joinUnder (take 4 (((c :: w) ++ 45 :: x) :: ps)) = c :: w ++ 45 :: t) as [t ->].
  { cbn [take joinUnder]. destruct (take 3 ps) as [|q qs]; [by exists x|]. exists (x ++ 95 :: joinUnder (q :: qs)). cbn [app]. by rewrite <-app_assoc. }
  destruct (sanitize_word c w t Hp Hc Hlen) as (y & -> & Hy). cbn [take].
  rewrite take_app, take_ge by lia. replace (59 - length w)%nat with (S (58 - length w)) by lia. cbn [take].
  exists (c :: w), (take (58 - length w) y). split_and!; [done..|by apply Forall_take].
Qed.

(** The base a tool's name gives, and what [getUniqueBase] makes of its [k]th. *)
Definition baseOf (tc : value) : text := sanitizeName (utf16 (functionName tc)).
Definition numbered_base (b : text) (k : N) : text := if 1 <? k then b ++ 95 :: number k else b.

(** No base has a dash, or is another one with a number. *)
Definition separate (bases : list text) : Prop :=
  (∀ b, b ∈ bases → 45 ∉ b) ∧ ∀ b b' k, b ∈ bases → b' ∈ bases → b ≠ b' ++ 95 :: number k.

Lemma number_no n c : digit c = false → c ∉ number n.
Proof. apply digits_no, number_digits. Qed.

Lemma numbered_base_no bases b k : separate bases → b ∈ bases → 45 ∉ numbered_base b k.
Proof.
  intros [H _] Hb. unfold numbered_base. case_match; [|by apply H]. rewrite not_elem_of_app, not_elem_of_cons.
  split_and!; [by apply H|done|by apply number_no].
Qed.

Lemma numbered_base_inj bases b b' k k' :
  separate bases → b ∈ bases → b' ∈ bases → 0 < k → 0 < k' → numbered_base b k = numbered_base b' k' → b = b' ∧ k = k'.
Proof.
  intros [_ H] Hb Hb' Hk Hk'. unfold numbered_base. destruct (1 <? k) eqn:E, (1 <? k') eqn:E'; intros Eq.
  - apply last_cut in Eq as [-> Eq%number_inj]; [done|by apply number_no..].
  - by destruct (H b' b k Hb' Hb).
  - by destruct (H b b' k' Hb Hb').
  - apply N.ltb_ge in E, E'. split; [done|lia].
Qed.

Lemma date_no now c : digit c = false → c ∉ dateOf now.
Proof. intros Hc. unfold dateOf. rewrite !not_elem_of_app. split_and!; apply digits_no; try done; [apply number_digits|apply pad_digits..]. Qed.

Lemma digits_plain t : digits t → plainName t.
Proof.
  intros H. eapply Forall_impl; [exact H|]. intros c. unfold digit, nameChar. intros ->. by rewrite !orb_true_r.
Qed.

Lemma timestamp_plain now : plainName (timestamp now).
Proof.
  unfold timestamp, dateOf, plainName. rewrite !Forall_app, Forall_cons, !Forall_app.
  split_and!; try done; apply digits_plain; try apply pad_digits. apply number_digits.
Qed.

Section archive.
Context (stringify : value → text) (now : Now).

Definition fileName (uniqueBase : text) (tc : value) : text :=
  uniqueBase ++ buildParamSuffix (tc .@ "args") ++ 95 :: timestamp now ++ 46 :: ext tc.

(** The base is what comes before the last underscore before the first dash. *)
Lemma fileName_shape b tc : ∃ w r, fileName b tc = (b ++ 95 :: w) ++ 45 :: r ∧ 45 ∉ w ∧ 95 ∉ w.
Proof.
  unfold fileName, timestamp. destruct (suffix_shape (tc .@ "args")) as [->|(w & y & -> & H45 & H95 & _)].
  - eexists (dateOf now), _. split; [|by split; apply date_no]. cbn [app]. by rewrite <-!app_assoc.
  - eexists w, _. split; [|done]. cbn [app]. by rewrite <-!app_assoc.
Qed.

Lemma fileName_base b b' tc tc' : 45 ∉ b → 45 ∉ b' → fileName b tc = fileName b' tc' → b = b'.
Proof.
  intros Hb Hb' E. destruct (fileName_shape b tc) as (w & r & Ew & W1 & W2), (fileName_shape b' tc') as (w' & r' & Ew' & W1' & W2').
  rewrite Ew, Ew' in E. apply first_cut in E.
  - by apply last_cut in E as [-> _].
  - rewrite not_elem_of_app, not_elem_of_cons. by split_and!.
  - rewrite not_elem_of_app, not_elem_of_cons. by split_and!.
Qed.

Lemma files_cons counts tc rest (k := default 0 (counts !! baseOf tc) + 1) :
  files stringify now counts (tc :: rest) =
  if truthy tc then (fileName (numbered_base (baseOf tc) k) tc, contentOf stringify tc) :: files stringify now (<[baseOf tc := k]> counts) rest
  else files stringify now counts rest.
Proof. done. Qed.

Lemma files_contents counts l : (files stringify now counts l).*2 = contentOf stringify <$> filterb truthy l.
Proof.
  revert counts. induction l as [|tc l IH]; intros counts; [done|]. rewrite files_cons. unfold filterb in *. cbn [List.filter].
  destruct (truthy tc); [|apply IH]. cbn [fmap list_fmap snd]. by rewrite IH.
Qed.

Lemma files_names counts l n :
  n ∈ (files stringify now counts l).*1 →
  ∃ b k tc, n = fileName (numbered_base b k) tc ∧ b ∈ baseOf <$> filterb truthy l ∧ default 0 (counts !! b) < k.
Proof.
  revert counts. induction l as [|tc l IH]; intros counts; [by intros Hn%elem_of_nil|]. rewrite files_cons. unfold filterb in *.
  cbn [List.filter]. destruct (truthy tc); [|apply IH]. cbn [fmap list_fmap fst]. intros [->|Hn]%elem_of_cons.
  - eexists _, _, tc. split_and!; [reflexivity|by left|lia].
  - destruct (IH _ Hn) as (b & k & tc' & -> & Hb & Hk). exists b, k, tc'. split_and!; [done|by right|].
    destruct (decide (b = baseOf tc)) as [->|Hne]; [rewrite lookup_insert_eq in Hk|by rewrite lookup_insert_ne in Hk]. cbn in Hk. lia.
Qed.

Lemma files_apart bases counts l :
  separate bases → baseOf <$> filterb truthy l ⊆ bases → NoDup (files stringify now counts l).*1.
Proof.
  intros Hs. revert counts. induction l as [|tc l IH]; intros counts Hb; [constructor|]. rewrite files_cons. unfold filterb in *.
  cbn [List.filter] in Hb. destruct (truthy tc); [|by apply IH]. cbn [fmap list_fmap fst] in *.
  assert (baseOf tc ∈ bases) as Htc by (apply Hb; left). constructor; [|apply IH; set_solver].
  intros (b & k & tc' & E & Hin & Hk)%files_names. assert (b ∈ bases) as Hbb by (apply Hb; by right).
  apply fileName_base in E; [|by apply (numbered_base_no bases)..].
  apply (numbered_base_inj bases) in E as [Eb Ek]; [subst b|done..|lia|lia]. rewrite lookup_insert_eq in Hk. cbn in Hk. lia.
Qed.

Lemma fileName_plain b tc : plainName b → plainName (fileName b tc).
Proof.
  intros Hb. unfold fileName, plainName. rewrite !Forall_app, Forall_cons, Forall_app, Forall_cons. split_and!; try done.
  - destruct (suffix_shape (tc .@ "args")) as [->|(w & y & -> & _ & _ & Hw & Hy)]; [constructor|].
    rewrite Forall_cons, Forall_app, Forall_cons. by split_and!.
  - apply timestamp_plain.
  - unfold ext. repeat case_match; apply (bool_decide_unpack _); by vm_compute.
Qed.

(** The archive keeps every result: each tool call has a file of its own, in the order
    of the calls and with the call's result, under a name of letters, digits, dots,
    dashes and underscores, which names no other directory.  (No tool's name has a
    dash or is another's with a number, as the assistant's tools are named.) *)
Theorem archive_keeps_every_result toolCalls :
  separate (baseOf <$> filterb truthy toolCalls) →
  NoDup (files stringify now ∅ toolCalls).*1 ∧
  (files stringify now ∅ toolCalls).*2 = contentOf stringify <$> filterb truthy toolCalls ∧
  Forall plainName (files stringify now ∅ toolCalls).*1.
Proof.
  intros Hs. split_and!; [by apply (files_apart _ _ _ Hs)|apply files_contents|]. apply Forall_forall.
  intros n (b & k & tc & -> & Hb & _)%files_names. apply fileName_plain. unfold numbered_base.
  apply list_elem_of_fmap in Hb as (tc' & -> & _). case_match; [|apply sanitize_plain].
  apply Forall_app. split; [apply sanitize_plain|]. constructor; [done|]. apply digits_plain, number_digits.
Qed.
End archive.

Definition sampleCall (f result : string) : value :=
  VObj [("function", VStr f); ("args", VObj [("namespace", VStr "team/a")]); ("result", VStr result)].
Definition sampleNow : Now := {| year := 2026; month := 8; day := 1; hour := 9; minute := 30; second := 5 |}.
Definition sampleCalls : list value := [sampleCall "get_pods" "one"; sampleCall "get_pods" "two"; VNull; sampleCall "get_pod_logs" "log"].

Lemma archive_keeps_every_result_witness :
  separate (baseOf <$> filterb truthy sampleCalls) ∧ NoDup (files (λ _, []) sampleNow ∅ sampleCalls).*1.
Proof.
  assert (separate (baseOf <$> filterb truthy sampleCalls)) as Hs.
  { assert (∀ b, b ∈ baseOf <$> filterb truthy sampleCalls → b = utf16 "get_pods" ∨ b = utf16 "get_pod_logs") as Hb.
    { intros b Hb. vm_compute in Hb. repeat (apply elem_of_cons in Hb as [->|Hb]; [by vm_compute; tauto|]). by apply elem_of_nil in Hb. }
    split.
    - intros b [->| ->]%Hb; apply (bool_decide_unpack _); by vm_compute.
    - intros b b' k Hin _ E. assert (115 ∈ (95 :: number k)) as H115.
      { apply last_Some_elem_of. rewrite <-(last_app_cons b'), <-E. by apply Hb in Hin as [->| ->]. }
      apply elem_of_cons in H115 as [[=]|Hk]. by apply number_no in Hk. }
  split; [exact Hs|]. exact (proj1 (archive_keeps_every_result (λ _, []) sampleNow sampleCalls Hs)).
Defined.

Definition ownCall : value := VObj [("function", VStr "get_pods"); ("result", VStr "own")].
Definition cutCall : value := VObj [("function", VStr "get_pods"); ("result", VStr "own ... (truncated) ...")].
Definition savedAnswer (id : Z) (calls : list value) : Saved :=
  {| m_id := Some (IdNum id); role := "assistant"; m_content := VStr "answer"; tool_calls := Some calls |}.
Definition otherCall : value := VObj [("function", VStr "get_events"); ("result", VStr "other")].

Lemma download_own_results_witness :
  exported true (Some (IdNum 3)) [cutCall] [] None (Some [savedAnswer 2 [otherCall]; savedAnswer 3 [ownCall]]) None = [ownCall].
Proof.
  exact (download_own_results [savedAnswer 1 [otherCall]] [savedAnswer 2 [otherCall]; savedAnswer 3 [ownCall]] (savedAnswer 3 [ownCall])
           [cutCall] [] None None
           ltac:(repeat (split; [by eexists|]; split; [repeat (apply Forall_cons; split; [by eexists _, _|]); apply Forall_nil_2|]); exact I)
           ltac:(discriminate) ltac:(do 2 right; left) ltac:(discriminate) eq_refl
           ltac:(intros [[=]|H%elem_of_nil]%elem_of_cons; destruct H)).
Defined.

Lemma cut_answer_gives_anothers_witness :
  exported true (Some (IdNum 3)) [cutCall] [] None (Some [savedAnswer 2 [otherCall]; savedAnswer 3 [cutCall]])
    (Some [savedAnswer 2 [otherCall]; savedAnswer 3 [cutCall]]) = [otherCall] ∧
  m_id (savedAnswer 2 [otherCall]) ≠ m_id (savedAnswer 3 [cutCall]).
Proof.
  exact (cut_answer_gives_anothers [savedAnswer 2 [otherCall]; savedAnswer 3 [cutCall]] (savedAnswer 3 [cutCall]) (savedAnswer 2 [otherCall])
           [cutCall] [] None
           ltac:(repeat (split; [by eexists|]; split; [repeat (apply Forall_cons; split; [by eexists _, _|]); apply Forall_nil_2|]); exact I)
           ltac:(right; left) eq_refl eq_refl eq_refl).
Defined.

(** A message without an identifier yet takes the first saved answer that called the
    same tools, not the newest. *)
Example first_of_the_same_tools :
  exported true None [ownCall] [] None
    (Some [savedAnswer 1 [VObj [("function", VStr "get_pods"); ("result", VStr "old")]]; savedAnswer 2 [ownCall]]) None =
  [VObj [("function", VStr "get_pods"); ("result", VStr "old")]].
Proof. by vm_compute. Qed.

(** The third file's name is the second's, which it replaces in the archive. *)
Example names_meet :
  (files (λ _, []) sampleNow ∅ [VObj [("function", VStr "scan")]; VObj [("function", VStr "scan")]; VObj [("function", VStr "scan_2")]]).*1 =
  [utf16 "scan_20260801-093005.txt"; utf16 "scan_2_20260801-093005.txt"; utf16 "scan_2_20260801-093005.txt"].
Proof. by vm_compute. Qed.
