(* ===== verification/OwnedResources.v ===== *)
(** * What a workload's window shows of its children

    components/resource-detail/workload-info/useOwnedWatchedResources.ts: the Pods,
    ReplicaSets and Jobs of a workload are read with the list of the namespace and then
    followed by its watch, whose frames go through the apply functions of Pods,
    ReplicaSets and Jobs (WorkloadRows) and a filter.  The claims of a StatefulSet's Pods
    are found by their names.

    [encodeURIComponent] is an argument; identifiers are ASCII. *)

From S2P Require Import Prelude JsString OrderedMap Json WatchRows WorkloadRows.

(** ** What is read *)

Record Params := { kind : string; namespace : string; name : string; selector : list (string * string); volumeClaimTemplates : value }.

Definition selectorToString (selector : list (string * string)) : string := join "," ((λ e, e.1 +:+ "=" +:+ e.2) <$> selector).

Definition podsKind (kind : string) : bool :=
  (kind === "DaemonSet") || (kind === "ReplicaSet") || (kind === "StatefulSet") || (kind === "Job") || (kind === "Deployment").

Definition podsEnabled (p : Params) : bool := podsKind (kind p) && nonempty (namespace p) && nonempty (selectorToString (selector p)).
Definition rsEnabled (p : Params) : bool := (kind p === "Deployment") && nonempty (namespace p) && nonempty (selectorToString (selector p)).
Definition jobsEnabled (p : Params) : bool := (kind p === "CronJob") && nonempty (namespace p) && nonempty (name p).

Inductive Children := OwnPods | OwnReplicaSets | OwnJobs.

Definition enabled (c : Children) (p : Params) : bool :=
  match c with OwnPods => podsEnabled p | OwnReplicaSets => rsEnabled p | OwnJobs => jobsEnabled p end.

(** The watch of each: its path and query. *)
Definition watched (encodeURIComponent : string → string) (c : Children) (p : Params) : string * string :=
  let labelled := "watch=1&labelSelector=" +:+ encodeURIComponent (selectorToString (selector p)) in
  match c with
  | OwnPods => ("/api/v1/namespaces/" +:+ namespace p +:+ "/pods", labelled)
  | OwnReplicaSets => ("/apis/apps/v1/namespaces/" +:+ namespace p +:+ "/replicasets", labelled)
  | OwnJobs => ("/apis/batch/v1/namespaces/" +:+ namespace p +:+ "/jobs", "watch=1")
  end.

(** ** Whose they are *)

(** The owner references of a row of the list's answer, and of a row after a frame. *)
Definition listRefs (row : value) : value := row .@ "owner_references" |? row .@ "metadata" .@ "ownerReferences" |? VArr [].
Definition watchRefs (row : value) : value := row .@ "owner_references" |? VArr [].

(** A Pod without owners is the window's too. *)
Definition ownsPod (p : Params) (refs : value) : bool :=
  (kind p === "Deployment") ||
  match refs with VArr ((_ :: _) as rs) => some (λ r, isStr (r .@ "name") (name p)) rs | _ => true end.

Definition ownedBy (ownerKind : string) (p : Params) (refs : value) : bool :=
  match refs with VArr rs => some (λ r, isStr (r .@ "name") (name p) && isStr (r .@ "kind") ownerKind) rs | _ => false end.

Definition owns (c : Children) (p : Params) : value → bool :=
  match c with OwnPods => ownsPod p | OwnReplicaSets => ownedBy "Deployment" p | OwnJobs => ownedBy "CronJob" p end.

(** [queryFn]: what is kept of the list of the namespace. *)
Definition queryFn (c : Children) (p : Params) (all : list value) : list value := filterb (λ r, owns c p (listRefs r)) all.

Definition applyPage (c : Children) : option (list value) → value → list value :=
  match c with
  | OwnPods => Pods.applyPodWatchEvent
  | OwnReplicaSets => ReplicaSets.applyReplicaSetWatchEvent
  | OwnJobs => Jobs.applyJobWatchEvent
  end.

(** [applyEvent] of the window's watch. *)
Definition applyEventOf (c : Children) (p : Params) (prev : option (list value)) (event : value) : list value :=
  filterb (λ r, owns c p (watchRefs r)) (applyPage c prev event).

(** ** The claims of a StatefulSet's Pods *)

Definition vctNames (volumeClaimTemplates : value) : list string :=
  omap (λ v, match v .@ "metadata" .@ "name" ?? v .@ "name" with VStr s => if nonempty s then Some s else None | _ => None end)
    (asArray volumeClaimTemplates).

Definition pvcsEnabled (p : Params) : bool :=
  (kind p === "StatefulSet") && nonempty (namespace p) && negb (bool_decide (vctNames (volumeClaimTemplates p) = [])).

Definition pvcByName (pvcs : list value) : list (string * value) :=
  foldl (λ m pvc, let n := pvc .@ "name" ?? pvc .@ "metadata" .@ "name" in
                  if truthy n then upsert VUndef (toString n) (λ _, pvc) m else m) [] pvcs.

Definition pvcsByPodName (pvcs : option (list value)) (pods : list value) (p : Params) : list (string * list (string * option value)) :=
  match pvcs, vctNames (volumeClaimTemplates p) with
  | Some pvcs, ((_ :: _) as names) =>
      foldl (λ m pod, upsert [] (toString (pod .@ "name"))
                        (λ _, (λ vct, (vct, assoc (vct +:+ "-" +:+ toString (pod .@ "name")) (pvcByName pvcs))) <$> names) m) [] pods
  | _, _ => []
  end.

(** ** The window and the page *)

(** The rows after the list's answer and some frames. *)
Definition followed (apply : option (list value) → value → list value) (rows : list value) (events : list value) : list value :=
  foldl (λ rows e, apply (Some rows) e) rows events.

Section filtered.
Context (P : value → bool).

Definition shownMap (m : gmap string value) : gmap string value := filter (λ kv, P kv.2 = true) m.

Lemma rowsMap_filter rows : keysNoDup pathKey rows → rowsMap pathKey (filterb P rows) = shownMap (rowsMap pathKey rows).
Proof.
  unfold keysNoDup, shownMap, filterb. induction rows as [|r rows IH].
  { intros _. symmetry. apply (map_filter_empty (M := gmap string)). }
  cbn [fmap list_fmap]. intros [Hr Hnd]%NoDup_cons. rewrite rowsMap_cons. cbn [List.filter]. destruct (P r) eqn:E.
  - rewrite rowsMap_cons, IH by done. by rewrite map_filter_insert_True.
  - rewrite IH by done. rewrite map_filter_insert_False by (cbn; congruence).
    rewrite delete_id; [done|]. by apply rowsMap_None.
Qed.

Lemma filter_keysNoDup rows : keysNoDup pathKey rows → keysNoDup pathKey (filterb P rows).
Proof.
  unfold keysNoDup, filterb. induction rows as [|r rows IH]; [done|]. cbn [fmap list_fmap List.filter]. intros [Hr Hnd]%NoDup_cons.
  destruct (P r); [|by apply IH]. cbn [fmap list_fmap]. apply NoDup_cons. split; [|by apply IH]. intros Hin. apply Hr.
  apply list_elem_of_fmap in Hin as (x & Hx & [Hin _]%elem_of_filterb). apply list_elem_of_fmap. by exists x.
Qed.

(** A frame does the same to what is shown of the rows. *)
Lemma specOp_shown op m : shownMap (specOp pathKey op (shownMap m)) = shownMap (specOp pathKey op m).
Proof.
  unfold shownMap. destruct op as [|row|k]; cbn [specOp].
  - apply map_filter_filter_l. done.
  - apply map_eq. intros k. apply option_eq. intros v. rewrite !map_lookup_filter_Some.
    destruct (decide (k = pathKey row)) as [->|Hne]; [by rewrite !lookup_insert_eq|].
    rewrite !lookup_insert_ne, map_lookup_filter_Some by done. tauto.
  - apply map_eq. intros k'. apply option_eq. intros v. rewrite !map_lookup_filter_Some, !lookup_delete_Some, map_lookup_filter_Some. tauto.
Qed.

Lemma followed_filtered normalize all shown events :
  keysNoDup pathKey all → keysNoDup pathKey shown → rowsMap pathKey shown = shownMap (rowsMap pathKey all) →
  rowsMap pathKey (followed (λ prev e, filterb P (applyNormalized normalize prev e)) shown events) =
  shownMap (rowsMap pathKey (followed (applyNormalized normalize) all events)).
Proof.
  revert all shown. induction events as [|e events IH]; intros all shown Ha Hs Hm; [done|]. unfold followed in *. cbn [foldl].
  destruct (applyOp_refines pathKey (normalizedOp normalize e) all Ha) as [Ha' Em].
  destruct (applyOp_refines pathKey (normalizedOp normalize e) shown Hs) as [Hs' Es].
  apply IH.
  - by rewrite applyNormalized_op.
  - apply filter_keysNoDup. by rewrite applyNormalized_op.
  - rewrite !applyNormalized_op. cbn [default from_option id]. rewrite rowsMap_filter, Es, Em, Hm by done. apply specOp_shown.
Qed.
End filtered.

Lemma followed_server normalize all events :
  keysNoDup pathKey all →
  rowsMap pathKey (followed (applyNormalized normalize) all events) =
  foldl (λ m e, specOp pathKey (normalizedOp normalize e) m) (rowsMap pathKey all) events.
Proof.
  revert all. induction events as [|e events IH]; intros all Hnd; [done|]. unfold followed in *. cbn [foldl].
  destruct (applyOp_refines pathKey (normalizedOp normalize e) all Hnd) as [Hnd' E]. rewrite !applyNormalized_op. cbn [default from_option id].
  by rewrite IH, E.
Qed.

Definition normalizeOf (c : Children) : value → value :=
  match c with
  | OwnPods => Pods.normalizeWatchPodObject
  | OwnReplicaSets => ReplicaSets.normalizeWatchReplicaSetObject
  | OwnJobs => Jobs.normalizeWatchJobObject
  end.

(** The rows the server's objects make, by their keys: those of the list, with each
    frame put in or taken out. *)
Definition serverSide (c : Children) (all events : list value) : gmap string value :=
  foldl (λ m e, specOp pathKey (normalizedOp (normalizeOf c) e) m) (rowsMap pathKey all) events.

(** The owner references a row carries. *)
Definition ownerOf (row r : value) : Prop := ∃ rs, row .@ "owner_references" = VArr rs ∧ r ∈ rs.

(** Whose a row is.  Every Pod of the selector is a Deployment's; for the other kinds a
    Pod has an owner of the workload's name, of whatever kind, or no owner; a ReplicaSet
    has the Deployment of that name for an owner, a Job the CronJob. *)
Inductive Owned (p : Params) (row : value) : Children → Prop :=
  | pod_of_deployment : kind p = "Deployment" → Owned p row OwnPods
  | pod_without_owner : (∀ r, ¬ ownerOf row r) → Owned p row OwnPods
  | pod_of_name r : ownerOf row r → r .@ "name" = VStr (name p) → Owned p row OwnPods
  | replicaset_of r : ownerOf row r → r .@ "name" = VStr (name p) → r .@ "kind" = VStr "Deployment" → Owned p row OwnReplicaSets
  | job_of r : ownerOf row r → r .@ "name" = VStr (name p) → r .@ "kind" = VStr "CronJob" → Owned p row OwnJobs.

Lemma watchRefs_owner row r : (∃ rs, watchRefs row = VArr rs ∧ r ∈ rs) ↔ ownerOf row r.
Proof.
  unfold watchRefs, ownerOf, or_else. destruct (truthy (row .@ "owner_references")) eqn:E; [done|].
  split; [intros (rs & [= <-] & Hr); by apply not_elem_of_nil in Hr|intros (rs & Hrs & _); by rewrite Hrs in E].
Qed.

Lemma ownedBy_true k p row :
  ownedBy k p (watchRefs row) = true ↔ ∃ r, ownerOf row r ∧ r .@ "name" = VStr (name p) ∧ r .@ "kind" = VStr k.
Proof.
  setoid_rewrite <-watchRefs_owner. unfold ownedBy. destruct (watchRefs row) as [| | | | | |rs|]; try (split; [done|intros (r & (rs' & [=] & _) & _)]).
  setoid_rewrite some_true. setoid_rewrite andb_true_iff. setoid_rewrite isStr_true. naive_solver.
Qed.

Lemma ownsPod_true p row :
  ownsPod p (watchRefs row) = true ↔
  kind p = "Deployment" ∨ (∀ r, ¬ ownerOf row r) ∨ ∃ r, ownerOf row r ∧ r .@ "name" = VStr (name p).
Proof.
  setoid_rewrite <-watchRefs_owner. unfold ownsPod. rewrite orb_true_iff, bool_decide_eq_true. apply or_iff_compat_l.
  destruct (watchRefs row) as [| | | | | |rs|]; try (split; [intros _; left; intros r (rs' & [=] & _)|done]).
  destruct rs as [|r0 rs]; [split; [intros _; left; intros r (rs' & [= <-] & Hr); by apply not_elem_of_nil in Hr|done]|].
  rewrite some_true. setoid_rewrite isStr_true. split.
  - intros (r & Hr & Hn). right. exists r. naive_solver.
  - intros [H|(r & (rs' & [= <-] & Hr) & Hn)]; [|by exists r]. destruct (H r0). exists (r0 :: rs). split; [done|left].
Qed.

Lemma owns_Owned c p row : owns c p (watchRefs row) = true ↔ Owned p row c.
Proof.
  destruct c; cbn [owns]; [rewrite ownsPod_true|rewrite ownedBy_true..]; split;
    first [intros [H|[H|(r & H & Hn)]]|intros (r & H & Hn & Hk)|inversion 1; subst]; eauto using Owned.
Qed.

(** C2. A workload's window follows the server: after the list's answer and any frames
    it shows the rows the server's objects make that are the workload's, each with the
    row made last, and no other.  A Pod the selector finds is a Deployment's; otherwise
    it has an owner of the workload's name or no owner at all.  A ReplicaSet or a Job
    has the workload for an owner, by name and kind. *)
Theorem children_are_the_servers c p all events :
  keysNoDup pathKey all → Forall (λ r, isArray (r .@ "owner_references") = true) all →
  ∀ k row, rowsMap pathKey (followed (applyEventOf c p) (queryFn c p all) events) !! k = Some row ↔
    serverSide c all events !! k = Some row ∧ Owned p row c.
Proof.
  intros Hnd Hrefs k row. assert (queryFn c p all = filterb (λ r, owns c p (watchRefs r)) all) as ->.
  { unfold queryFn, filterb. apply filter_ext_in. intros r Hr%list_elem_of_In. apply (proj1 (Forall_forall _ _) Hrefs) in Hr.
    unfold listRefs, watchRefs, or_else. by destruct (r .@ "owner_references"). }
  pose proof (followed_filtered (λ r, owns c p (watchRefs r)) (normalizeOf c) all _ events Hnd (filter_keysNoDup _ _ Hnd) (rowsMap_filter _ _ Hnd)) as H.
  rewrite followed_server in H by done. rewrite <-owns_Owned.
  assert (followed (applyEventOf c p) = followed (λ prev e, filterb (λ r, owns c p (watchRefs r)) (applyNormalized (normalizeOf c) prev e))) as -> by (by destruct c).
  rewrite H. unfold shownMap, serverSide. apply map_lookup_filter_Some.
Qed.

Definition samplePod (n owner : string) : value :=
  VObj [("name", VStr n); ("namespace", VStr "prod"); ("owner_references", VArr [VObj [("kind", VStr owner); ("name", VStr "web")]])].
Definition sampleParams : Params :=
  {| kind := "StatefulSet"; namespace := "prod"; name := "web"; selector := [("app", "web")]; volumeClaimTemplates := VUndef |}.
Definition lonePod (n : string) : value :=
  VObj [("name", VStr n); ("namespace", VStr "prod"); ("owner_references", VArr [VObj [("kind", VStr "StatefulSet"); ("name", VStr "db")]])].
Definition sampleEvents : list value := [VObj [("type", VStr "ADDED"); ("object", lonePod "db-1")]; VObj [("type", VStr "DELETED"); ("object", samplePod "web-0" "StatefulSet")]].

Lemma children_are_the_servers_witness :
  let all := [samplePod "web-0" "StatefulSet"; samplePod "web-1" "StatefulSet"; lonePod "db-0"] in
  rowsMap pathKey (followed (applyEventOf OwnPods sampleParams) (queryFn OwnPods sampleParams all) sampleEvents) !! "prod/web-1" = Some (samplePod "web-1" "StatefulSet") ↔
  serverSide OwnPods all sampleEvents !! "prod/web-1" = Some (samplePod "web-1" "StatefulSet") ∧ Owned sampleParams (samplePod "web-1" "StatefulSet") OwnPods.
Proof.
  exact (children_are_the_servers OwnPods sampleParams [samplePod "web-0" "StatefulSet"; samplePod "web-1" "StatefulSet"; lonePod "db-0"] sampleEvents
           ltac:(apply (bool_decide_unpack _); reflexivity) ltac:(repeat (apply Forall_cons; split; [reflexivity|]); apply Forall_nil_2) "prod/web-1" _).
Defined.

(** The Pod of a Job is a StatefulSet's when the two have one name: the kind of the
    owner is not looked at. *)
Example namesake_pod : owns OwnPods sampleParams (watchRefs (samplePod "web-x7k2p" "Job")) = true.
Proof. vm_compute. reflexivity. Qed.

Example sample_children :
  (λ r, toString (r .@ "name")) <$>
  followed (applyEventOf OwnPods sampleParams)
    (queryFn OwnPods sampleParams [samplePod "web-0" "StatefulSet"; samplePod "web-1" "StatefulSet"; lonePod "db-0"]) sampleEvents = ["web-1"].
Proof. vm_compute. reflexivity. Qed.
