(* ===== verification/Optimization.v ===== *)
(** * The stream of optimization suggestions

    pages/dashboard/hooks/useOptimizationStream.ts, the window of the dashboard that
    asks the assistant for a namespace's suggestions and types its answer, over
    [suggestOptimizationStream] (services/api/ai.ts), which reads the server's
    events block by block.

    The hook's state and refs are a [Window]; a run is a request, and an aborted
    one stays with what its reader still holds: between two blocks the reader waits
    for a timer, which an abort does not end.  A [step] is a click, a tick of the
    typewriter, or something a request comes to.  [JSON.parse] is an argument
    ([None]: it throws), and so are [chatErrorText] with the catalog and its words for
    an answer without meta ([missingMeta]).  The animation frame and the pending text
    the hook resets are never set and left out. *)

From S2P Require Import Prelude JsString Json ChatText.

(** ** The server's events *)

(** What the reader calls. *)
Inductive Handler :=
  | OnObserved (content : text)
  | OnContent (chunk : text)
  | OnUsage (usage : value)
  | OnMeta (finish_reason max_tokens : value)
  | OnError (message : text) (key : option string) (args : value)
  | OnDone.

Definition isNewline (c : N) : bool := (c =? newline)%N.

(** What is before the first blank line, and after it. *)
Fixpoint cutBlock (buffer : text) : option (text * text) :=
  match buffer with
  | [] => None
  | c :: rest =>
      match rest with
      | d :: rest' => if isNewline c && isNewline d then Some ([], rest') else (λ p, (c :: p.1, p.2)) <$> cutBlock rest
      | [] => None
      end
  end.

Fixpoint startsText (p t : text) : option text :=
  match p, t with
  | [], _ => Some t
  | a :: p', b :: t' => if (a =? b)%N then startsText p' t' else None
  | _ :: _, [] => None
  end.

(** The data of a line, when it has some. *)
Definition payloadOf (rawLine : text) : option text :=
  match startsText (utf16 "data:") (trimEndText rawLine) with
  | Some r => match trimText r with [] => None | payload => Some payload end
  | None => None
  end.

Section stream.
Context (parse : text → option value) (chatErrorText : text → option string → value → text) (missingMeta : text).

(** One payload that is not [[DONE]]: its calls, and whether it sets [didEmit]. *)
Definition onPayload (parsed : value) : list Handler * bool :=
  let kind := match parsed .@ "kind" with VStr k => Some k | _ => None end in
  if bool_decide (kind = Some "usage") && truthy (parsed .@ "usage") then ([OnUsage (parsed .@ "usage")], true)
  else if bool_decide (kind = Some "meta") then ([OnMeta (parsed .@ "finish_reason") (parsed .@ "max_tokens")], true)
  else
    let errors :=
      if nullish (parsed .@ "error") then [] else
      [OnError (utf16 (toString (parsed .@ "error"))) (match parsed .@ "error_key" with VStr k => Some k | _ => None end)
         (if truthy (parsed .@ "error_args") && isObject (parsed .@ "error_args") then parsed .@ "error_args" else VNull)] in
    match parsed .@ "content" with
    | VStr c => (errors ++ [if bool_decide (kind = Some "observed") then OnObserved (utf16 c) else OnContent (utf16 c)], true)
    | _ => (errors, false)
    end.

(** The lines of a block: the calls, whether the stream is done, and [didEmit]. *)
Fixpoint processLines (lines : list text) : list Handler * bool * bool :=
  match lines with
  | [] => ([], false, false)
  | line :: lines' =>
      match payloadOf line with
      | None => processLines lines'
      | Some payload =>
          if bool_decide (payload = utf16 "[DONE]") then ([OnDone], true, false)
          else match parse payload with
          | None => processLines lines'
          | Some parsed =>
              let '(calls, emits) := onPayload parsed in
              let '(more, done_, emits') := processLines lines' in
              (calls ++ more, done_, emits || emits')
          end
      end
  end.

Definition processEventBlock (block : text) : list Handler * bool * bool := processLines (splitLines block).

(** A request: its answer awaited, its body read, the timer between two blocks, and
    its end. *)
Inductive Phase := Fetching | Reading (buffer : text) | Pausing (buffer : text) | Over.

(** The blocks of the buffer, up to the first that ends the stream or waits. *)
Fixpoint readBlocks (fuel : nat) (buffer : text) : list Handler * Phase :=
  match fuel with
  | O => ([], Reading buffer)
  | S fuel =>
      match cutBlock buffer with
      | None => ([], Reading buffer)
      | Some (eventBlock, rest) =>
          let '(calls, done_, didEmit) := processEventBlock eventBlock in
          if done_ then (calls, Over)
          else if didEmit then (calls, Pausing rest)
          else let '(more, phase) := readBlocks fuel rest in (calls ++ more, phase)
      end
  end.

Definition readBuffer (buffer : text) : list Handler * Phase := readBlocks (length buffer) buffer.

(** ** The window *)

Record Window := {
  isOpen : bool; optimizationNamespace : string; isDropdownOpen : bool; isCopied : bool;
  abortRef : option nat; isStreaming : bool; observed : text; answered : text; streamError : text;
  doneRef : bool; charQueue : list text; typewriter : bool; metaReceived : bool; usageReceived : bool;
  usage : option value; meta : option (value * value)
}.

(** Three backticks, perhaps [markdown] or [md] in any case, a line end, the text, and
    three backticks on a line of their own. *)
Definition fence : text := [backtick; backtick; backtick].
Definition lowerUnit (c : N) : N := if ((65 <=? c) && (c <=? 90))%N then (c + 32)%N else c.

Definition afterOpening (t : text) : option text :=
  match startsText fence t with
  | None => None
  | Some r =>
      let word (w : text) := if bool_decide (lowerUnit <$> take (length w) r = w) then startsText [newline] (drop (length w) r) else None in
      match word (utf16 "markdown"), word (utf16 "md"), word [] with
      | Some b, _, _ | None, Some b, _ | None, None, Some b => Some b
      | None, None, None => None
      end
  end.

Definition unwrapOuterMarkdownFence (t : text) : text :=
  match afterOpening (trimText t) with
  | Some r =>
      match startsText (fence ++ [newline]) (rev r) with Some body => rev body | None => t end
  | None => t
  end.

Definition withTyping (answered' : text) (queue : list text) (timer : bool) (w : Window) : Window :=
  {| isOpen := isOpen w; optimizationNamespace := optimizationNamespace w; isDropdownOpen := isDropdownOpen w; isCopied := isCopied w;
     abortRef := abortRef w; isStreaming := isStreaming w; observed := observed w; answered := answered'; streamError := streamError w;
     doneRef := doneRef w; charQueue := queue; typewriter := timer; metaReceived := metaReceived w; usageReceived := usageReceived w;
     usage := usage w; meta := meta w |}.

Definition withEnd (done_ streaming : bool) (ref : option nat) (w : Window) : Window :=
  {| isOpen := isOpen w; optimizationNamespace := optimizationNamespace w; isDropdownOpen := isDropdownOpen w; isCopied := isCopied w;
     abortRef := ref; isStreaming := streaming; observed := observed w; answered := answered w; streamError := streamError w;
     doneRef := done_; charQueue := charQueue w; typewriter := typewriter w; metaReceived := metaReceived w; usageReceived := usageReceived w;
     usage := usage w; meta := meta w |}.

Definition withError (e : text) (w : Window) : Window :=
  {| isOpen := isOpen w; optimizationNamespace := optimizationNamespace w; isDropdownOpen := isDropdownOpen w; isCopied := isCopied w;
     abortRef := abortRef w; isStreaming := isStreaming w; observed := observed w; answered := answered w; streamError := e;
     doneRef := doneRef w; charQueue := charQueue w; typewriter := typewriter w; metaReceived := metaReceived w; usageReceived := usageReceived w;
     usage := usage w; meta := meta w |}.

(** What opening and closing reset: not the typewriter, nor what it has to type. *)
Definition resetWindow (open_ : bool) (ns : string) (w : Window) : Window :=
  {| isOpen := open_; optimizationNamespace := ns; isDropdownOpen := false; isCopied := false;
     abortRef := None; isStreaming := false; observed := []; answered := []; streamError := [];
     doneRef := false; charQueue := charQueue w; typewriter := typewriter w; metaReceived := metaReceived w; usageReceived := usageReceived w;
     usage := usage w; meta := meta w |}.

Definition openOptimizationModal (initialNamespace : string) (w : Window) : Window := resetWindow true initialNamespace w.
Definition handleCloseOptimizationModal (w : Window) : Window := resetWindow false (optimizationNamespace w) w.

Definition drainOptimizationQueue (w : Window) : Window :=
  match charQueue w with
  | [] =>
      if doneRef w then withTyping (unwrapOuterMarkdownFence (answered w)) [] false (withEnd false false (abortRef w) w)
      else withTyping (answered w) [] false w
  | queue =>
      let batch := Nat.max 1 (Nat.div (length queue + 7) 8) in
      withTyping (answered w ++ concat (take batch queue)) (drop batch queue) (typewriter w) w
  end.

(** [handleRunOptimizationSuggestions] up to its request, the [id]th. *)
Definition startRun (id : nat) (w : Window) : Window :=
  {| isOpen := isOpen w; optimizationNamespace := optimizationNamespace w; isDropdownOpen := false; isCopied := false;
     abortRef := Some id; isStreaming := true; observed := []; answered := []; streamError := [];
     doneRef := false; charQueue := []; typewriter := false; metaReceived := false; usageReceived := false; usage := None; meta := None |}.


(** What one of the reader's calls does. *)
Definition handle (h : Handler) (w : Window) : Window :=
  match h with
  | OnObserved content =>
      {| isOpen := isOpen w; optimizationNamespace := optimizationNamespace w; isDropdownOpen := isDropdownOpen w; isCopied := isCopied w;
         abortRef := abortRef w; isStreaming := isStreaming w; observed := observed w ++ content; answered := answered w; streamError := streamError w;
         doneRef := doneRef w; charQueue := charQueue w; typewriter := typewriter w; metaReceived := metaReceived w; usageReceived := usageReceived w;
         usage := usage w; meta := meta w |}
  | OnContent chunk => withTyping (answered w) (charQueue w ++ codePoints chunk) true w
  | OnUsage u =>
      {| isOpen := isOpen w; optimizationNamespace := optimizationNamespace w; isDropdownOpen := isDropdownOpen w; isCopied := isCopied w;
         abortRef := abortRef w; isStreaming := isStreaming w; observed := observed w; answered := answered w; streamError := streamError w;
         doneRef := doneRef w; charQueue := charQueue w; typewriter := typewriter w; metaReceived := metaReceived w; usageReceived := true;
         usage := Some u; meta := meta w |}
  | OnMeta r m =>
      {| isOpen := isOpen w; optimizationNamespace := optimizationNamespace w; isDropdownOpen := isDropdownOpen w; isCopied := isCopied w;
         abortRef := abortRef w; isStreaming := isStreaming w; observed := observed w; answered := answered w; streamError := streamError w;
         doneRef := doneRef w; charQueue := charQueue w; typewriter := typewriter w; metaReceived := true; usageReceived := usageReceived w;
         usage := usage w; meta := Some (r, m) |}
  | OnError message key args => withError (chatErrorText message key args) w
  | OnDone =>
      let w := if metaReceived w then w else withError (match streamError w with [] => missingMeta | e => e end) w in
      let w := withEnd true (isStreaming w) (abortRef w) w in
      let w := match charQueue w with [] => drainOptimizationQueue w | _ => w end in
      withEnd (doneRef w) (isStreaming w) None w
  end.

Definition handleAll (hs : list Handler) (w : Window) : Window := foldl (λ w h, handle h w) w hs.

(** The [catch] of the run, for a failure that is no abort. *)
Definition runFailed (message : text) (w : Window) : Window :=
  withEnd false false None (withTyping (answered w) [] false (withError message w)).

Definition handleStopOptimizationSuggestions (w : Window) : Window :=
  withEnd false false None (withTyping (answered w ++ concat (charQueue w)) [] false w).

(** ** What happens *)

(** A request and whether its controller was aborted. *)
Record Run := { phase : Phase; isAborted : bool }.

(** The window and its runs, the first first. *)
Record Page := { window : Window; runs : list Run }.

Definition abortCurrent (p : Page) : list Run :=
  match abortRef (window p) with
  | Some i => alter (λ r, {| phase := phase r; isAborted := true |}) i (runs p)
  | None => runs p
  end.

Inductive Event :=
  | Opened (initialNamespace : string)
  | Closed
  | NamespaceChosen (ns : string)
  | Asked (aiEnabled : bool)
  | Stopped
  | Typed
  | Answered (i : nat) (status : Z) (body : bool)
  | Piece (i : nat) (text_ : text)
  | Resumed (i : nat)
  | Ended (i : nat)
  | Failed (i : nat) (message : text)
  | Refused (i : nat).

Definition chooseNamespace (ns : string) (w : Window) : Window :=
  {| isOpen := isOpen w; optimizationNamespace := ns; isDropdownOpen := isDropdownOpen w; isCopied := isCopied w;
     abortRef := abortRef w; isStreaming := isStreaming w; observed := observed w; answered := answered w; streamError := streamError w;
     doneRef := doneRef w; charQueue := charQueue w; typewriter := typewriter w; metaReceived := metaReceived w; usageReceived := usageReceived w;
     usage := usage w; meta := meta w |}.

Definition setPhase (i : nat) (ph : Phase) (rs : list Run) : list Run := alter (λ r, {| phase := ph; isAborted := isAborted r |}) i rs.

(** The request's end by an exception: [onError], then the [catch]. *)
Definition fails (i : nat) (message : text) (p : Page) : Page :=
  {| window := runFailed message (handle (OnError message None VNull) (window p)); runs := setPhase i Over (runs p) |}.

Definition httpStatusText (status : Z) : text := if (status =? 401)%Z then utf16 "Unauthorized" else utf16 ("HTTP " +:+ pretty status).

(** [None]: it cannot happen now. *)
Definition step (e : Event) (p : Page) : option Page :=
  match e with
  | Opened ns => Some {| window := openOptimizationModal ns (window p); runs := abortCurrent p |}
  | Closed => Some {| window := handleCloseOptimizationModal (window p); runs := abortCurrent p |}
  | NamespaceChosen ns => Some {| window := chooseNamespace ns (window p); runs := runs p |}
  | Asked aiEnabled =>
      if nonempty (optimizationNamespace (window p)) && aiEnabled then
        Some {| window := startRun (length (runs p)) (window p); runs := abortCurrent p ++ [{| phase := Fetching; isAborted := false |}] |}
      else Some p
  | Stopped => Some {| window := handleStopOptimizationSuggestions (window p); runs := abortCurrent p |}
  | Typed => if typewriter (window p) then Some {| window := drainOptimizationQueue (window p); runs := runs p |} else None
  | Answered i status body =>
      match runs p !! i with
      | Some {| phase := Fetching; isAborted := false |} =>
          if negb ((200 <=? status)%Z && (status <=? 299)%Z) then Some (fails i (httpStatusText status) p)
          else if negb body then Some (fails i (utf16 "No response body") p)
          else Some {| window := window p; runs := setPhase i (Reading []) (runs p) |}
      | _ => None
      end
  | Piece i t =>
      match runs p !! i with
      | Some {| phase := Reading buffer; isAborted := false |} =>
          let '(calls, ph) := readBuffer (buffer ++ t) in
          Some {| window := handleAll calls (window p); runs := setPhase i ph (runs p) |}
      | _ => None
      end
  | Resumed i =>
      match runs p !! i with
      | Some {| phase := Pausing buffer |} =>
          let '(calls, ph) := readBuffer buffer in
          Some {| window := handleAll calls (window p); runs := setPhase i ph (runs p) |}
      | _ => None
      end
  | Ended i =>
      match runs p !! i with
      | Some {| phase := Reading _; isAborted := false |} => Some (fails i (utf16 "Stream ended unexpectedly (missing [DONE])") p)
      | _ => None
      end
  | Failed i message =>
      match runs p !! i with
      | Some {| phase := Fetching; isAborted := false |} => Some {| window := runFailed message (window p); runs := setPhase i Over (runs p) |}
      | Some {| phase := Reading _; isAborted := false |} => Some (fails i message p)
      | _ => None
      end
  | Refused i =>
      match runs p !! i with
      | Some {| phase := (Fetching | Reading _); isAborted := true |} => Some {| window := window p; runs := setPhase i Over (runs p) |}
      | _ => None
      end
  end.

Fixpoint happens (es : list Event) (p : Page) : option Page :=
  match es with [] => Some p | e :: es' => p' ← step e p; happens es' p' end.
End stream.

(** ** What a body says *)

Section answer.
Context (parse : text → option value) (chatErrorText : text → option string → value → text) (missingMeta : text).

(** The calls of a body, block by block to the first [[DONE]]. *)
Inductive says : text → list Handler → Prop :=
  | says_more buffer : cutBlock buffer = None → says buffer []
  | says_done buffer b rest calls emits :
      cutBlock buffer = Some (b, rest) → processEventBlock parse b = (calls, true, emits) → says buffer calls
  | says_next buffer b rest calls emits more :
      cutBlock buffer = Some (b, rest) → processEventBlock parse b = (calls, false, emits) → says rest more → says buffer (calls ++ more).

Lemma cutBlock_cons c d b :
  cutBlock (c :: d :: b) =
    if isNewline c && isNewline d then Some ([], b) else (λ p, (c :: p.1, p.2)) <$> cutBlock (d :: b).
Proof. done. Qed.

Lemma cutBlock_app b t x r : cutBlock b = Some (x, r) → cutBlock (b ++ t) = Some (x, r ++ t).
Proof.
  revert x. induction b as [|c b IH]; [done|]. intros x. destruct b as [|d b]; [done|].
  change ((c :: d :: b) ++ t) with (c :: d :: b ++ t). rewrite !cutBlock_cons.
  destruct (isNewline c && isNewline d); [by intros [= <- <-]|]. rewrite !fmap_Some.
  intros ([y s] & Hy & [= -> ->]). exists (y, s ++ t). by rewrite <-(IH _ Hy).
Qed.

Lemma cutBlock_shorter b x r : cutBlock b = Some (x, r) → length r < length b.
Proof.
  revert x. induction b as [|c b IH]; [done|]. intros x. destruct b as [|d b]; [done|]. rewrite cutBlock_cons.
  destruct (isNewline c && isNewline d); [intros [= _ <-]; cbn [length]; lia|]. rewrite fmap_Some.
  intros ([y s] & Hy & [= _ ->]). specialize (IH _ Hy). cbn in *. lia.
Qed.

(** What was read, with what the rest says, is what the whole says. *)
Definition readsAs (buffer : text) (calls : list Handler) (ph : Phase) : Prop :=
  match ph with
  | Over => ∀ t, says (buffer ++ t) calls
  | Reading rest | Pausing rest => ∀ t more, says (rest ++ t) more → says (buffer ++ t) (calls ++ more)
  | Fetching => False
  end.

(** The end is called at the end only. *)
Definition endsRight (calls : list Handler) (ph : Phase) : Prop :=
  match ph with Over => ∃ pre, calls = pre ++ [OnDone] ∧ OnDone ∉ pre | _ => OnDone ∉ calls end.

Lemma onPayload_no_end parsed : OnDone ∉ (onPayload parsed).1.
Proof.
  unfold onPayload. set (kind := match _ with VStr k => Some k | _ => None end).
  destruct (_ && _); [apply not_elem_of_cons; split; [done|apply not_elem_of_nil]|].
  destruct (bool_decide (kind = Some "meta")); [apply not_elem_of_cons; split; [done|apply not_elem_of_nil]|].
  set (errors := if nullish _ then _ else _). assert (OnDone ∉ errors) as He.
  { unfold errors. destruct (nullish _); [apply not_elem_of_nil|]. apply not_elem_of_cons. split; [done|apply not_elem_of_nil]. }
  destruct (parsed .@ "content"); try exact He. cbn [fst]. apply not_elem_of_app. split; [exact He|].
  destruct (bool_decide _); (apply not_elem_of_cons; split; [done|apply not_elem_of_nil]).
Qed.

Lemma processLines_end lines calls done_ emits :
  processLines parse lines = (calls, done_, emits) →
  if done_ then ∃ pre, calls = pre ++ [OnDone] ∧ OnDone ∉ pre else OnDone ∉ calls.
Proof.
  revert calls done_ emits. induction lines as [|l lines IH]; intros calls done_ emits; cbn [processLines].
  { intros [= <- <- _]. apply not_elem_of_nil. }
  destruct (payloadOf l) as [payload|]; [|apply IH]. case_bool_decide.
  { intros [= <- <- _]. exists []. split; [done|apply not_elem_of_nil]. }
  destruct (parse payload) as [parsed|]; [|apply IH]. pose proof (onPayload_no_end parsed) as Hp.
  destruct (onPayload parsed) as [c e]. cbn [fst] in Hp. destruct (processLines parse lines) as [[more d] e'] eqn:E.
  intros [= <- <- _]. specialize (IH _ _ _ eq_refl). destruct d.
  - destruct IH as (pre & -> & Hpre). exists (c ++ pre). split; [by rewrite app_assoc|]. by rewrite not_elem_of_app.
  - by rewrite not_elem_of_app.
Qed.

Lemma readBlocks_reads fuel buffer calls ph :
  length buffer ≤ fuel → readBlocks parse fuel buffer = (calls, ph) → readsAs buffer calls ph ∧ endsRight calls ph.
Proof.
  revert buffer calls. induction fuel as [|fuel IH]; intros buffer calls Hl; cbn [readBlocks].
  { intros [= <- <-]. split; [by intros t more H|apply not_elem_of_nil]. }
  destruct (cutBlock buffer) as [[b rest]|] eqn:Ec.
  2: { intros [= <- <-]. split; [by intros t more H|apply not_elem_of_nil]. }
  pose proof (cutBlock_shorter _ _ _ Ec) as Hs. destruct (processEventBlock parse b) as [[c d] e] eqn:Eb.
  pose proof (processLines_end _ _ _ _ Eb) as Hend. destruct d.
  { intros [= <- <-]. split; [|done]. intros t. eapply says_done; [by apply cutBlock_app|exact Eb]. }
  destruct e.
  { intros [= <- <-]. split; [|done]. intros t more Hm. eapply says_next; [by apply cutBlock_app|exact Eb|exact Hm]. }
  destruct (readBlocks parse fuel rest) as [more ph'] eqn:Er. intros [= <- <-].
  destruct (IH rest more ltac:(lia) Er) as [H1 H2].
  assert (∀ t more', says (rest ++ t) more' → says (buffer ++ t) (c ++ more')) as Hstep.
  { intros t more' Hm. eapply says_next; [by apply cutBlock_app|exact Eb|exact Hm]. }
  split.
  - destruct ph'; [done|..]; cbn [readsAs] in *.
    + intros t m Hm. rewrite <-app_assoc. apply Hstep. by apply H1.
    + intros t m Hm. rewrite <-app_assoc. apply Hstep. by apply H1.
    + intros t. apply Hstep, H1.
  - destruct ph'; cbn [endsRight] in *; [by rewrite not_elem_of_app..|].
    destruct H2 as (pre & -> & Hpre). exists (c ++ pre). split; [by rewrite app_assoc|]. by rewrite not_elem_of_app.
Qed.

(** ** What the window shows *)

Definition contentsOf (calls : list Handler) : text := concat ((λ h, match h with OnContent c => c | _ => [] end) <$> calls).
Definition observedOf (calls : list Handler) : text := concat ((λ h, match h with OnObserved c => c | _ => [] end) <$> calls).

Definition said (w : Window) : text := answered w ++ concat (charQueue w).

(** The window of a run after some calls, the typewriter somewhere. *)
Definition typing (ended : bool) (calls : list Handler) (w : Window) : Prop :=
  observed w = observedOf calls ∧
  if ended then
    if doneRef w then said w = contentsOf calls ∧ typewriter w = true
    else answered w = unwrapOuterMarkdownFence (contentsOf calls) ∧ isStreaming w = false ∧ typewriter w = false
  else said w = contentsOf calls ∧ doneRef w = false ∧ (charQueue w ≠ [] → typewriter w = true).

#[local] Arguments unwrapOuterMarkdownFence : simpl never.
#[local] Arguments codePoints : simpl never.

Lemma contentsOf_app a b : contentsOf (a ++ b) = contentsOf a ++ contentsOf b.
Proof. unfold contentsOf. by rewrite fmap_app, concat_app. Qed.
Lemma observedOf_app a b : observedOf (a ++ b) = observedOf a ++ observedOf b.
Proof. unfold observedOf. by rewrite fmap_app, concat_app. Qed.

Lemma handle_typing calls h w :
  h ≠ OnDone → typing false calls w → typing false (calls ++ [h]) (handle chatErrorText missingMeta h w).
Proof.
  unfold typing, said. rewrite contentsOf_app, observedOf_app. intros Hh (Ho & Ha & Hd & Ht).
  destruct h; try done; cbn; rewrite ?app_nil_r; try (split_and!; done).
  - by rewrite Ho.
  - split_and!; try done. by rewrite concat_app, codePoints_concat, app_assoc, Ha.
Qed.

Lemma handle_done calls w : typing false calls w → typing true (calls ++ [OnDone]) (handle chatErrorText missingMeta OnDone w).
Proof.
  unfold typing, said. rewrite contentsOf_app, observedOf_app. cbn. rewrite !app_nil_r. intros (Ho & Ha & Hd & Ht).
  destruct (charQueue w) as [|l q] eqn:Eq; cbn in Ha; rewrite ?app_nil_r in Ha; destruct (metaReceived w);
    unfold drainOptimizationQueue; cbn; rewrite ?Eq; cbn; rewrite ?Ho, <-?Ha; split_and!; first [done | by apply Ht | by rewrite Eq].
Qed.

Lemma handleAll_typing pre calls w :
  OnDone ∉ pre → typing false calls w → typing false (calls ++ pre) (handleAll chatErrorText missingMeta pre w).
Proof.
  revert calls w. induction pre as [|h pre IH]; intros calls w Hn Ht; [by rewrite app_nil_r|].
  apply not_elem_of_cons in Hn as [Hh Hn]. specialize (IH (calls ++ [h]) _ Hn (handle_typing _ _ _ (not_eq_sym Hh) Ht)).
  by rewrite <-app_assoc in IH.
Qed.

Definition isOver (ph : Phase) : bool := match ph with Over => true | _ => false end.

Lemma handleAll_ends calls0 calls ph w :
  endsRight calls ph → typing false calls0 w → typing (isOver ph) (calls0 ++ calls) (handleAll chatErrorText missingMeta calls w).
Proof.
  intros He Ht. destruct ph; cbn [endsRight isOver] in *; try (by apply handleAll_typing).
  destruct He as (pre & -> & Hn). unfold handleAll. rewrite foldl_app, app_assoc. by apply handle_done, handleAll_typing.
Qed.

Lemma drain_typing ended calls w : typewriter w = true → typing ended calls w → typing ended calls (drainOptimizationQueue w).
Proof.
  clear parse chatErrorText missingMeta. unfold typing, said, drainOptimizationQueue. intros Hw [Ho H]. destruct (charQueue w) as [|l q] eqn:Eq.
  - cbn in H. rewrite app_nil_r in H. destruct ended, (doneRef w) eqn:Ed; cbn; rewrite ?Ed, ?app_nil_r;
      (split; [done|]); try (by naive_solver). destruct H as [-> _]. by split_and!.
  - cbn [withTyping charQueue answered observed doneRef typewriter isStreaming]. split; [done|].
    rewrite <-app_assoc, <-concat_app, take_drop.
    destruct ended; [destruct (doneRef w); [done|by destruct H as (_ & _ & H); rewrite H in Hw]|]. destruct H as (H1 & H2 & _). by split_and!.
Qed.

Lemma reads_on b calls rest t calls' ph :
  readsAs b calls (Reading rest) → readsAs (rest ++ t) calls' ph → readsAs (b ++ t) (calls ++ calls') ph.
Proof.
  cbn. intros H1 H2. destruct ph; cbn in *; [done|..].
  - intros u more Hm. rewrite <-!app_assoc. apply H1. rewrite app_assoc. by apply H2.
  - intros u more Hm. rewrite <-!app_assoc. apply H1. rewrite app_assoc. by apply H2.
  - intros u. rewrite <-app_assoc. apply H1. rewrite app_assoc. apply H2.
Qed.

(** ** The run, from its request to its last letter *)

(** What a run left to itself comes to. *)
Definition ofRun (i : nat) (e : Event) : Prop :=
  match e with Typed => True | Piece j _ | Resumed j => j = i | _ => False end.

Definition piecesOf (es : list Event) : text := concat ((λ e, match e with Piece _ t => t | _ => [] end) <$> es).

(** The run has read so much of its body, and the window shows what that said. *)
Definition follows (i : nat) (body : text) (p : Page) : Prop :=
  ∃ calls ph, runs p !! i = Some {| phase := ph; isAborted := false |} ∧ readsAs body calls ph ∧ (ph ≠ Over → OnDone ∉ calls)
    ∧ (ph = Over → OnDone ∈ calls) ∧ typing (isOver ph) calls (window p).

Lemma read_follows i body t calls rest w rs pause :
  rs !! i = Some {| phase := (if pause : bool then Pausing rest else Reading rest); isAborted := false |} →
  readsAs body calls (Reading rest) → OnDone ∉ calls → typing false calls w →
  let '(calls', ph) := readBuffer parse (rest ++ t) in
  follows i (body ++ t) {| window := handleAll chatErrorText missingMeta calls' w; runs := setPhase i ph rs |}.
Proof.
  intros Hi Hr Hn Ht. unfold readBuffer. destruct (readBlocks _ _ _) as [calls' ph] eqn:E.
  destruct (readBlocks_reads _ _ _ _ (le_n _) E) as [Hr' He]. exists (calls ++ calls'), ph. cbn [window runs]. split_and!.
  - unfold setPhase. by rewrite list_lookup_alter_eq, Hi.
  - by eapply reads_on.
  - intros Ho. rewrite not_elem_of_app. split; [done|]. by destruct ph.
  - intros ->. destruct He as (pre & -> & _). rewrite !elem_of_app, list_elem_of_singleton. auto.
  - by apply handleAll_ends.
Qed.

Lemma step_follows i body e p p' :
  ofRun i e → follows i body p → step parse chatErrorText missingMeta e p = Some p' →
  follows i (body ++ piecesOf [e]) p'.
Proof.
  intros He (calls & ph & Hi & Hr & Hn & Hd & Ht). destruct e; try done; cbn [ofRun] in He; subst; cbn [step]; unfold piecesOf; cbn; rewrite ?app_nil_r.
  - destruct (typewriter (window p)) eqn:Ew; [|done]. intros [= <-]. exists calls, ph. cbn [window runs].
    split_and!; try done. by apply drain_typing.
  - rewrite Hi. destruct ph as [|b|b|]; try done. pose proof (read_follows i body text_ calls b _ _ false Hi Hr (Hn ltac:(done)) Ht) as H.
    destruct (readBuffer _ _). by intros [= <-].
  - rewrite Hi. destruct ph as [|b|b|]; try done. pose proof (read_follows i body [] calls b _ _ true Hi Hr (Hn ltac:(done)) Ht) as H.
    rewrite !app_nil_r in H. destruct (readBuffer _ _). by intros [= <-].
Qed.

Lemma happens_follows i es body p p' :
  Forall (ofRun i) es → follows i body p → happens parse chatErrorText missingMeta es p = Some p' → follows i (body ++ piecesOf es) p'.
Proof.
  revert body p. induction es as [|e es IH]; intros body p; cbn [happens].
  { intros _ H [= <-]. unfold piecesOf. cbn. by rewrite app_nil_r. }
  intros [He Hes]%Forall_cons H. destruct (step _ _ _ e p) as [q|] eqn:Es; [|done]. cbn. intros Hh.
  specialize (IH _ _ Hes (step_follows _ _ _ _ _ He H Es) Hh). unfold piecesOf in *. cbn in IH. by rewrite app_nil_r, <-app_assoc in IH.
Qed.

(** The typewriter stops by itself. *)
Lemma typed_out calls p :
  typing true calls (window p) → ∃ k p', k ≤ S (length (charQueue (window p))) ∧ happens parse chatErrorText missingMeta (repeat Typed k) p = Some p'
    ∧ typing true calls (window p') ∧ doneRef (window p') = false.
Proof.
  remember (length (charQueue (window p))) as n eqn:En. revert p En. induction (lt_wf n) as [n _ IH]. intros p -> Ht.
  destruct (doneRef (window p)) eqn:Ed; [|by exists 0, p; split_and!; [lia|..]].
  pose proof Ht as [_ Hw]. rewrite Ed in Hw. destruct Hw as [_ Hw].
  pose proof (drain_typing _ _ _ Hw Ht) as Ht'.
  destruct (charQueue (window p)) as [|l q] eqn:Eq.
  { exists 1, {| window := drainOptimizationQueue (window p); runs := runs p |}. cbn [repeat happens step]. rewrite Hw. cbn [window].
    split_and!; [lia|done|done|]. unfold drainOptimizationQueue. by rewrite Eq, Ed. }
  set (p1 := {| window := drainOptimizationQueue (window p); runs := runs p |}).
  assert (length (charQueue (window p1)) < length (l :: q)) as Hs.
  { unfold p1, drainOptimizationQueue. cbn [window]. rewrite Eq. cbn [withTyping charQueue]. rewrite length_drop.
    cbn [length]. lia. }
  destruct (IH _ Hs p1 eq_refl Ht') as (k & p' & Hk & Hp & H). exists (S k), p'. cbn [repeat happens step]. rewrite Hw.
  split_and!; [lia|exact Hp|apply H..].
Qed.
End answer.

(** ** What the window promises *)

(** C9. A run left to itself shows its answer: whatever pieces the body came in and
    however the typewriter ran between, once the run is over at most one more tick than
    letters waiting ends it, with the contents of the body's events, unwrapped, and
    what was observed. *)
Theorem suggestions_shown (parse : text → option value) (chatErrorText : text → option string → value → text) (missingMeta : text) p status es p' :
  let i := length (runs p) in
  nonempty (optimizationNamespace (window p)) = true → (200 ≤ status ≤ 299)%Z → Forall (ofRun i) es →
  happens parse chatErrorText missingMeta (Asked true :: Answered i status true :: es) p = Some p' → phase <$> runs p' !! i = Some Over →
  ∃ calls k p'', says parse (piecesOf es) calls ∧ OnDone ∈ calls
    ∧ k ≤ S (length (charQueue (window p'))) ∧ happens parse chatErrorText missingMeta (repeat Typed k) p' = Some p''
    ∧ isStreaming (window p'') = false ∧ observed (window p'') = observedOf calls
    ∧ answered (window p'') = unwrapOuterMarkdownFence (contentsOf calls).
Proof.
  intros i Hns Hs He. cbn [happens step]. rewrite Hns. cbn [andb mbind option_bind runs window].
  assert (length (abortCurrent p) = i) as Hl. { unfold abortCurrent. destruct (abortRef _); [apply length_alter|done]. }
  rewrite <-Hl at 1. rewrite lookup_app_r, Nat.sub_diag by lia. cbn [lookup list_lookup].
  replace (_ && _) with true by (symmetry; apply andb_true_iff; lia). cbn [negb mbind option_bind]. intros Hh Hover.
  apply (happens_follows _ _ _ i _ []) in Hh; [|exact He|].
  2: { exists [], (Reading []). cbn [window runs]. unfold setPhase. rewrite <-Hl, list_lookup_alter_eq, lookup_app_r, Nat.sub_diag by lia.
       split_and!; [done|by intros t more|by intros _ ?%elem_of_nil|done|]. split; [done|]. by split_and!. }
  destruct Hh as (calls & ph & Hi & Hr & _ & Hd & Ht). rewrite Hi in Hover. injection Hover as ->.
  destruct (typed_out parse chatErrorText missingMeta calls p' Ht) as (k & p'' & Hk & Hp & [Ho Hw] & Hdone). rewrite Hdone in Hw.
  exists calls, k, p''. specialize (Hr []). rewrite app_nil_r in Hr. naive_solver.
Qed.

(** Closing the window does not stop the typewriter: the letters that waited are
    typed in the window opened next, which asked for nothing. *)
Theorem letters_outlive_window (parse : text → option value) (chatErrorText : text → option string → value → text) (missingMeta : text) ns l q p :
  charQueue (window p) = l :: q → l ≠ [] → typewriter (window p) = true →
  ∃ p', happens parse chatErrorText missingMeta [Closed; Opened ns; Typed] p = Some p' ∧ answered (window p') ≠ []
    ∧ isStreaming (window p') = false ∧ abortRef (window p') = None ∧ optimizationNamespace (window p') = ns.
Proof.
  destruct p as [w rs], w. cbn. intros -> Hl ->. eexists. split; [done|]. cbn [window]. unfold drainOptimizationQueue. cbn -[Nat.div Nat.max].
  split_and!; try done. destruct (Nat.max 1 _) as [|k] eqn:E; [lia|]. by destruct l.
Qed.

(** Stopping does not stop the reader: between two blocks it waits for a timer, and
    the letters it holds are typed after the button was pressed. *)
Theorem stopped_still_types (parse : text → option value) (chatErrorText : text → option string → value → text) (missingMeta : text) i buffer c l q rest p :
  abortRef (window p) = Some i → runs p !! i = Some {| phase := Pausing buffer; isAborted := false |} →
  readBuffer parse buffer = ([OnContent c], Pausing rest) → codePoints c = l :: q → l ≠ [] →
  ∃ ps p', happens parse chatErrorText missingMeta [Stopped] p = Some ps ∧ isStreaming (window ps) = false
    ∧ happens parse chatErrorText missingMeta [Resumed i; Typed] ps = Some p' ∧ answered (window p') ≠ answered (window ps).
Proof.
  intros Ha Hi Hr Hc Hl. eexists _, _. split; [done|]. split; [done|]. cbn [happens step runs]. unfold abortCurrent. rewrite Ha.
  rewrite list_lookup_alter_eq, Hi. cbn [fmap option_fmap option_map phase isAborted]. rewrite Hr. split; [done|].
  cbn [window handleAll foldl handle withTyping handleStopOptimizationSuggestions withEnd charQueue answered app]. rewrite Hc.
  unfold drainOptimizationQueue. cbn [charQueue withTyping answered]. destruct (Nat.max 1 _) as [|k] eqn:E; [lia|].
  intros H%(f_equal length). rewrite !length_app in H. cbn [take concat] in H. rewrite length_app in H. by destruct l; cbn in H; [|lia].
Qed.

(** ** Concrete runs *)

Definition sampleParse (payload : text) : option value :=
  if bool_decide (payload = utf16 "hello") then Some (VObj [("content", VStr "```md" )]) else
  if bool_decide (payload = utf16 "meta") then Some (VObj [("kind", VStr "meta"); ("finish_reason", VStr "stop")]) else
  if bool_decide (payload = utf16 "table") then Some (VObj [("kind", VStr "observed"); ("content", VStr "cpu")]) else None.
Definition sampleErrors (message : text) (_ : option string) (_ : value) : text := message.

Definition sampleMissing : text := utf16 "Server did not send meta (finish reason). ai-service may not be rebuilt/restarted.".

Definition sampleWindow : Window :=
  {| isOpen := true; optimizationNamespace := "default"; isDropdownOpen := false; isCopied := false; abortRef := None; isStreaming := false;
     observed := []; answered := []; streamError := []; doneRef := false; charQueue := []; typewriter := false; metaReceived := false;
     usageReceived := false; usage := None; meta := None |}.
Definition samplePage : Page := {| window := sampleWindow; runs := [] |}.
Definition lf : text := [newline].
Definition blankLine : text := [newline; newline].

(** A body in three pieces, the second cut in a line. *)
Definition sampleRun : list Event :=
  [Piece 0 (utf16 "data: table" ++ blankLine); Resumed 0; Piece 0 (utf16 "data: hel"); Piece 0 (utf16 "lo" ++ blankLine ++ utf16 "data: meta" ++ blankLine);
   Resumed 0; Typed; Resumed 0; Piece 0 (utf16 "data: [DONE]" ++ blankLine)].

Definition after (es : list Event) : Page := default samplePage (happens sampleParse sampleErrors sampleMissing es samplePage).

Lemma suggestions_shown_witness :
  let p' := after (Asked true :: Answered 0 200 true :: sampleRun) in
  ∃ calls k p'', says sampleParse (piecesOf sampleRun) calls ∧ OnDone ∈ calls
    ∧ k ≤ S (length (charQueue (window p'))) ∧ happens sampleParse sampleErrors sampleMissing (repeat Typed k) p' = Some p''
    ∧ isStreaming (window p'') = false ∧ observed (window p'') = observedOf calls
    ∧ answered (window p'') = unwrapOuterMarkdownFence (contentsOf calls).
Proof.
  apply (suggestions_shown sampleParse sampleErrors sampleMissing samplePage 200 sampleRun (after (Asked true :: Answered 0 200 true :: sampleRun))).
  - by vm_compute.
  - lia.
  - repeat (apply Forall_cons; split; [by cbn|]). by apply Forall_nil_2.
  - by vm_compute.
  - by vm_compute.
Defined.

(** The window while letters wait. *)
Definition halfway : Page := after (Asked true :: Answered 0 200 true :: take 5 sampleRun).

Lemma letters_outlive_window_witness :
  ∃ p', happens sampleParse sampleErrors sampleMissing [Closed; Opened "kube-system"; Typed] halfway = Some p' ∧ answered (window p') ≠ []
    ∧ isStreaming (window p') = false ∧ abortRef (window p') = None ∧ optimizationNamespace (window p') = "kube-system".
Proof.
  apply (letters_outlive_window sampleParse sampleErrors sampleMissing "kube-system" (utf16 "`") (codePoints (utf16 "``md"))); by vm_compute.
Defined.

(** The reader of two blocks that came together, between them. *)
Definition betweenBlocks : Page :=
  after [Asked true; Answered 0 200 true; Piece 0 (utf16 "data: table" ++ blankLine ++ utf16 "data: hello" ++ blankLine)].

Lemma stopped_still_types_witness :
  ∃ ps p', happens sampleParse sampleErrors sampleMissing [Stopped] betweenBlocks = Some ps ∧ isStreaming (window ps) = false
    ∧ happens sampleParse sampleErrors sampleMissing [Resumed 0; Typed] ps = Some p' ∧ answered (window p') ≠ answered (window ps).
Proof.
  apply (stopped_still_types sampleParse sampleErrors sampleMissing 0 (utf16 "data: hello" ++ blankLine) (utf16 "```md") (utf16 "`") (codePoints (utf16 "``md")) []);
    by vm_compute.
Defined.

(** A body whose end never comes is an error on screen. *)
Example unended_body :
  streamError (window (after [Asked true; Answered 0 200 true; Piece 0 (utf16 "data: meta" ++ blankLine); Resumed 0; Ended 0])) =
  utf16 "Stream ended unexpectedly (missing [DONE])".
Proof. by vm_compute. Qed.

Example fence_unwrapped :
  unwrapOuterMarkdownFence (utf16 "```Markdown" ++ lf ++ utf16 "a" ++ lf ++ utf16 "```") = utf16 "a" ∧
  unwrapOuterMarkdownFence (utf16 "```sh" ++ lf ++ utf16 "a" ++ lf ++ utf16 "```") =
    utf16 "```sh" ++ lf ++ utf16 "a" ++ lf ++ utf16 "```".
Proof. by vm_compute. Qed.
