(* ===== verification/AiRoutes.v ===== *)
(** * The page an address is

    utils/aiContext/routeMatcher.ts, which names the page of a path for the floating
    assistant, and utils/aiContext/privateScreens.ts, which says whose content it is
    never told. *)

From S2P Require Import Prelude JsString OrderedMap.

Record RouteContextMeta := {
  pageType : string; pageTitle : string; titleKey : option string; path : string;
  resourceKind : option string; namespace : option string; resourceName : option string
}.

Record StaticEntry := { e_pageType : string; e_titleKey : string; e_pageTitle : string; e_resourceKind : option string }.
Definition entry (t k title : string) (kind : option string) : StaticEntry :=
  {| e_pageType := t; e_titleKey := k; e_pageTitle := title; e_resourceKind := kind |}.

Definition STATIC_MAP : list (string * StaticEntry) := [
  ("/", entry "dashboard" "nav.dashboard" "대시보드" (None));
  ("/cluster/namespaces", entry "resource-list" "nav.namespaces" "네임스페이스" (Some "Namespace"));
  ("/cluster/nodes", entry "resource-list" "nav.nodes" "노드" (Some "Node"));
  ("/cluster/search", entry "search" "nav.advancedSearch" "고급 검색" (None));
  ("/cluster/resource-graph", entry "graph" "nav.resourceGraph" "리소스 그래프" (None));
  ("/timeline", entry "timeline" "nav.timeline" "변경 이력" (None));
  ("/workloads/pods", entry "resource-list" "nav.pods" "파드" (Some "Pod"));
  ("/workloads/deployments", entry "resource-list" "nav.deployments" "디플로이먼트" (Some "Deployment"));
  ("/workloads/statefulsets", entry "resource-list" "nav.statefulSets" "스테이트풀셋" (Some "StatefulSet"));
  ("/workloads/daemonsets", entry "resource-list" "nav.daemonSets" "데몬셋" (Some "DaemonSet"));
  ("/workloads/replicasets", entry "resource-list" "nav.replicaSets" "레플리카셋" (Some "ReplicaSet"));
  ("/workloads/jobs", entry "resource-list" "nav.jobs" "잡" (Some "Job"));
  ("/workloads/cronjobs", entry "resource-list" "nav.cronJobs" "크론잡" (Some "CronJob"));
  ("/workloads/hpas", entry "resource-list" "nav.hpas" "수평 파드 오토스케일러" (Some "HorizontalPodAutoscaler"));
  ("/workloads/vpas", entry "resource-list" "nav.vpas" "수직 파드 오토스케일러" (Some "VerticalPodAutoscaler"));
  ("/workloads/pdbs", entry "resource-list" "nav.pdbs" "파드 디스럽션 버짓" (Some "PodDisruptionBudget"));
  ("/storage", entry "resource-list" "nav.storage" "스토리지" (None));
  ("/network/services", entry "resource-list" "nav.services" "서비스" (Some "Service"));
  ("/network/endpoints", entry "resource-list" "nav.endpoints" "엔드포인트" (Some "Endpoints"));
  ("/network/endpointslices", entry "resource-list" "nav.endpointSlices" "엔드포인트 슬라이스" (Some "EndpointSlice"));
  ("/network/ingresses", entry "resource-list" "nav.ingresses" "인그레스" (Some "Ingress"));
  ("/network/ingressclasses", entry "resource-list" "nav.ingressClasses" "인그레스 클래스" (Some "IngressClass"));
  ("/network/networkpolicies", entry "resource-list" "nav.networkPolicies" "네트워크 폴리시" (Some "NetworkPolicy"));
  ("/gateway/gateways", entry "resource-list" "nav.gateways" "게이트웨이" (Some "Gateway"));
  ("/gateway/gatewayclasses", entry "resource-list" "nav.gatewayClasses" "게이트웨이 클래스" (Some "GatewayClass"));
  ("/gateway/httproutes", entry "resource-list" "nav.httpRoutes" "HTTP 라우트" (Some "HTTPRoute"));
  ("/gateway/grpcroutes", entry "resource-list" "nav.grpcRoutes" "GRPC 라우트" (Some "GRPCRoute"));
  ("/gateway/referencegrants", entry "resource-list" "nav.referenceGrants" "레퍼런스 그랜트" (Some "ReferenceGrant"));
  ("/gateway/backendtlspolicies", entry "resource-list" "nav.backendTlsPolicies" "백엔드 TLS 폴리시" (Some "BackendTLSPolicy"));
  ("/gateway/policies", entry "resource-list" "nav.policies" "Gateway 정책" (Some "CustomResource"));
  ("/gpu/dashboard", entry "gpu" "nav.gpuDashboard" "GPU 대시보드" (None));
  ("/gpu/nodes", entry "gpu" "nav.gpuNodes" "GPU 노드" (Some "Node"));
  ("/gpu/pods", entry "gpu" "nav.gpuPods" "GPU 파드" (Some "Pod"));
  ("/gpu/deviceclasses", entry "resource-list" "nav.deviceClasses" "디바이스 클래스" (Some "DeviceClass"));
  ("/gpu/resourceclaims", entry "resource-list" "nav.resourceClaims" "리소스 클레임" (Some "ResourceClaim"));
  ("/gpu/resourceclaimtemplates", entry "resource-list" "nav.resourceClaimTemplates" "리소스 클레임 템플릿" (Some "ResourceClaimTemplate"));
  ("/gpu/resourceslices", entry "resource-list" "nav.resourceSlices" "리소스 슬라이스" (Some "ResourceSlice"));
  ("/security/serviceaccounts", entry "resource-list" "nav.serviceAccounts" "서비스 어카운트" (Some "ServiceAccount"));
  ("/security/roles", entry "resource-list" "nav.roles" "롤" (Some "Role"));
  ("/security/clusterroles", entry "resource-list" "nav.clusterRoles" "클러스터 롤" (Some "ClusterRole"));
  ("/security/rolebindings", entry "resource-list" "nav.roleBindings" "롤 바인딩" (Some "RoleBinding"));
  ("/security/clusterrolebindings", entry "resource-list" "nav.clusterRoleBindings" "클러스터 롤 바인딩" (Some "ClusterRoleBinding"));
  ("/configuration/configmaps", entry "resource-list" "nav.configMaps" "컨피그맵" (Some "ConfigMap"));
  ("/configuration/secrets", entry "resource-list" "nav.secrets" "시크릿" (Some "Secret"));
  ("/cluster/resourcequotas", entry "resource-list" "nav.resourceQuotas" "리소스 쿼터" (Some "ResourceQuota"));
  ("/cluster/limitranges", entry "resource-list" "nav.limitRanges" "리밋 레인지" (Some "LimitRange"));
  ("/cluster/priorityclasses", entry "resource-list" "nav.priorityClasses" "우선순위 클래스" (Some "PriorityClass"));
  ("/cluster/runtimeclasses", entry "resource-list" "nav.runtimeClasses" "런타임 클래스" (Some "RuntimeClass"));
  ("/cluster/leases", entry "resource-list" "nav.leases" "리스" (Some "Lease"));
  ("/cluster/mutatingwebhookconfigurations", entry "resource-list" "nav.mutatingWebhooks" "변경 웹훅 구성" (Some "MutatingWebhookConfiguration"));
  ("/cluster/validatingwebhookconfigurations", entry "resource-list" "nav.validatingWebhooks" "검증 웹훅 구성" (Some "ValidatingWebhookConfiguration"));
  ("/cluster/validatingadmissionpolicies", entry "resource-list" "nav.validatingAdmissionPolicies" "검증 어드미션 정책" (Some "ValidatingAdmissionPolicy"));
  ("/cluster/mutatingadmissionpolicies", entry "resource-list" "nav.mutatingAdmissionPolicies" "변경 어드미션 정책" (Some "MutatingAdmissionPolicy"));
  ("/custom-resources/instances", entry "resource-list" "nav.customInstances" "커스텀 리소스 인스턴스" (Some "CustomResource"));
  ("/custom-resources/groups", entry "resource-list" "nav.customGroups" "커스텀 리소스 정의" (Some "CustomResourceDefinition"));
  ("/helm/releases", entry "helm-list" "nav.helmReleases" "Releases" (None));
  ("/monitoring", entry "monitoring" "nav.monitoring" "리소스 모니터링" (None));
  ("/cost", entry "cost" "nav.cost" "비용" (None));
  ("/security/policyreports", entry "policy-reports" "nav.policyReports" "정책 보고서" (None));
  ("/cluster-view", entry "cluster-view" "nav.clusterView" "클러스터 뷰" (None));
  ("/ai-chat", entry "ai-chat" "nav.aiChat" "AI 챗" (None));
  ("/account", entry "account" "layout.account" "설정" (None));
  ("/cluster/hygiene", entry "cluster-hygiene" "nav.clusterHygiene" "Cluster Hygiene" (None));
  ("/admin/investigations", entry "investigations" "nav.investigations" "Investigations" (None))
].

(** [/^\/helm\/releases\/([^/]+)\/([^/]+)$/]: the two names. *)
Definition helmRelease (p : string) : option (string * string) :=
  match split "/" p with
  | [a; b; c; ns; name] =>
      if eqs a "" && eqs b "helm" && eqs c "releases" && nonempty ns && nonempty name then Some (ns, name) else None
  | _ => None
  end.

Definition pathLetter (c : ascii) : bool := let n := N_of_ascii c in ((97 <=? n) && (n <=? 122) || (n =? 45))%N.

(** [/^\/admin\/[a-z-]+$/]. *)
Definition adminPage (p : string) : bool :=
  startsWith "/admin/" p && (let rest := sdrop 7 p in nonempty rest && sall pathLetter rest).

Definition resolveRouteMeta (pathname : string) : RouteContextMeta :=
  match assoc pathname STATIC_MAP with
  | Some e =>
      {| pageType := e_pageType e; pageTitle := e_pageTitle e; titleKey := Some (e_titleKey e); path := pathname;
         resourceKind := e_resourceKind e; namespace := None; resourceName := None |}
  | None =>
      match helmRelease pathname with
      | Some (ns, name) =>
          {| pageType := "resource-detail"; pageTitle := "Helm · " +:+ name; titleKey := None; path := pathname;
             resourceKind := Some "HelmRelease"; namespace := Some ns; resourceName := Some name |}
      | None =>
          if adminPage pathname then
            {| pageType := "admin"; pageTitle := "관리"; titleKey := None; path := pathname; resourceKind := None; namespace := None; resourceName := None |}
          else {| pageType := "other"; pageTitle := ""; titleKey := None; path := pathname; resourceKind := None; namespace := None; resourceName := None |}
      end
  end.

(** ** The private screens *)

Definition READABLE_ADMIN_PATHS : list string := ["/admin/investigations"].

Definition under (p prefix : string) : bool := eqs p prefix || startsWith (prefix +:+ "/") p.

Definition isPrivateScreen (p : string) : bool :=
  if under p "/account" then true else under p "/admin" && negb (some (under p) READABLE_ADMIN_PATHS).

(** ** Paths by their segments *)

(** A path is under another when its segments begin with the other's. *)
Lemma under_segments p q : under p q = true ↔ split "/" q `prefix_of` split "/" p.
Proof.
  unfold under. rewrite orb_true_iff, eqs_true, startsWith_spec. split.
  - intros [-> | (t & ->)]; [done|]. rewrite app_assoc_s. change ("/" +:+ t) with (String "/" t). rewrite split_app_any. by exists (split "/" t).
  - intros [k Hk]. pose proof (join_split "/" p) as Hp. pose proof (join_split "/" q) as Hq. rewrite Hk in Hp.
    destruct k as [|x k]; [left; by rewrite app_nil_r, Hq in Hp|]. right.
    rewrite join_app, Hq in Hp by (done || apply split_ne). exists (join "/" (x :: k)). by rewrite app_assoc_s.
Qed.

(** The private screens by their first segments, read as a specification. *)
Definition privateSegments (segments : list string) : bool :=
  match segments with
  | a :: b :: rest =>
      eqs a "" && (eqs b "account" || (eqs b "admin" && negb (match rest with c :: _ => eqs c "investigations" | [] => false end)))
  | _ => false
  end.

Lemma under_pair p q b : split "/" q = [""; b] →
  under p q = match split "/" p with a :: x :: _ => eqs a "" && eqs x b | _ => false end.
Proof.
  intros Hq. apply eq_bool_prop_intro. rewrite !Is_true_true, under_segments, Hq. destruct (split "/" p) as [|a [|x l]].
  - split; [by intros [? [=]]|done].
  - split; [by intros [? [=]]|done].
  - rewrite andb_true_iff, !eqs_true. split; [by intros [? [= -> -> _]]|]. intros [-> ->]. by exists l.
Qed.

Lemma under_triple p q b c : split "/" q = [""; b; c] →
  under p q = match split "/" p with a :: x :: y :: _ => eqs a "" && eqs x b && eqs y c | _ => false end.
Proof.
  intros Hq. apply eq_bool_prop_intro. rewrite !Is_true_true, under_segments, Hq. destruct (split "/" p) as [|a [|x [|y l]]].
  - split; [by intros [? [=]]|done].
  - split; [by intros [? [=]]|done].
  - split; [by intros [? [=]]|done].
  - rewrite !andb_true_iff, !eqs_true. split; [by intros [? [= -> -> -> _]]|]. intros [[-> ->] ->]. by exists l.
Qed.

(** A screen is private by its whole first segments: the account's, and an admin page's
    that is not the investigations'. *)
Theorem private_by_segments p : isPrivateScreen p = privateSegments (split "/" p).
Proof.
  unfold isPrivateScreen, READABLE_ADMIN_PATHS, some, privateSegments. cbn [existsb].
  rewrite (under_pair _ _ "account"), (under_pair _ _ "admin"), (under_triple _ _ "admin" "investigations") by done.
  destruct (split "/" p) as [|a [|b [|c rest]]]; [done..| |];
    destruct (eqs a ""), (eqs b "account"), (eqs b "admin"); cbn; rewrite ?orb_false_r; done.
Qed.

Lemma pathLetter_no_slash s : sall pathLetter s = true → free_of "/" s.
Proof. apply sall_impl. intros c Hc. case_bool_decide; [by subst|done]. Qed.

(** Whatever address is read as an admin page, its content is kept from the
    assistant. *)
Theorem admin_pages_private p : pageType (resolveRouteMeta p) = "admin" → isPrivateScreen p = true.
Proof.
  unfold resolveRouteMeta. destruct (assoc p STATIC_MAP) as [e|] eqn:Es.
  { apply assoc_elem in Es. cbn [pageType]. intros He. exfalso.
    assert (Forall (λ e : string * StaticEntry, e_pageType e.2 ≠ "admin") STATIC_MAP) as Hall by (apply (bool_decide_unpack _); by vm_compute).
    rewrite Forall_forall in Hall. by apply Hall in Es. }
  destruct (helmRelease p) as [[ns name]|]; [done|]. destruct (adminPage p) eqn:Ea; [|done]. intros _.
  apply andb_true_iff in Ea as [[t ->]%startsWith_spec [_ Hl]%andb_true_iff]. change 7 with (String.length "/admin/") in Hl. rewrite sdrop_app in Hl.
  apply pathLetter_no_slash in Hl. rewrite private_by_segments. change ("/admin/" +:+ t) with (("/admin" +:+ "/" +:+ t)).
  change ("/" +:+ t) with (String "/" t). rewrite split_app_any, (split_free _ t) by done. cbn. apply negb_true_iff, eqs_false. intros ->.
  done.
Qed.

(** The address of a release names it. *)
Theorem helm_release_named ns name : ns ≠ "" → name ≠ "" → free_of "/" ns → free_of "/" name →
  let m := resolveRouteMeta ("/helm/releases/" +:+ ns +:+ "/" +:+ name) in
  resourceKind m = Some "HelmRelease" ∧ namespace m = Some ns ∧ resourceName m = Some name.
Proof.
  intros Hns Hn Fns Fn. cbv zeta. unfold resolveRouteMeta.
  assert (split "/" ("/helm/releases/" +:+ ns +:+ "/" +:+ name) = [""; "helm"; "releases"; ns; name]) as Hs.
  { change ("/helm/releases/" +:+ ns +:+ "/" +:+ name) with ("/helm/releases" +:+ String "/" (ns +:+ String "/" name)).
    by rewrite !split_app_any, (split_free _ ns Fns), (split_free _ name Fn). }
  destruct (assoc _ STATIC_MAP) as [e|] eqn:Es.
  { exfalso. apply assoc_elem in Es.
    assert (Forall (λ e : string * StaticEntry, length (split "/" e.1) ≠ 5) STATIC_MAP) as Hall by (apply (bool_decide_unpack _); by vm_compute).
    rewrite Forall_forall in Hall. apply Hall in Es. cbn [fst] in Es. by rewrite Hs in Es. }
  unfold helmRelease. rewrite Hs. cbn [eqs]. rewrite !eqs_refl. cbn [andb].
  rewrite !(proj2 (nonempty_true _)) by done. done.
Qed.

Example routes_read :
  resourceKind (resolveRouteMeta "/workloads/pods") = Some "Pod" ∧ pageType (resolveRouteMeta "/admin/ai-usage") = "admin" ∧
  pageType (resolveRouteMeta "/helm/releases/a/b/c") = "other" ∧ isPrivateScreen "/accounts-report" = false ∧
  isPrivateScreen "/admin/investigations" = false ∧ isPrivateScreen "/admin/investigationsx" = true.
Proof. by vm_compute. Qed.

Lemma admin_pages_private_witness : pageType (resolveRouteMeta "/admin/ai-usage") = "admin" ∧ isPrivateScreen "/admin/ai-usage" = true.
Proof. split; [reflexivity|]. exact (admin_pages_private "/admin/ai-usage" eq_refl). Defined.
