(* ===== verification/AiContext.v ===== *)
(** * What the assistant is told of the screen

    hooks/useAIContext.ts registers what a component shows as a layer, through
    utils/aiContext/equalLayer.ts, throttle.ts and tokenBudget.ts; the provider
    (components/PageContextProvider.tsx, PageContext.ts) keeps the layers and hands
    the question a snapshot of them.

    A component is known by its [useId]; it has the layer it last rendered and the
    state of its throttle.  A step is an effect of React ([Renders], [Unmounts],
    [Navigates]), the throttle's timer, or a question.  Times are milliseconds.
    [JSON.stringify] is an argument, of a layer and of its data. *)

From S2P Require Import Prelude JsString OrderedMap Bytes Json AiRoutes.

#[local] Open Scope Z_scope.

Record VisibleDataLayer := { source : string; summary : text; data : option value }.

(** ** The throttle *)

Section throttle.
Context {A : Type} (waitMs : Z).

Record Throttle := { lastCall : Z; pendingArgs : option A; timer : option Z }.
Definition newThrottle : Throttle := {| lastCall := 0; pendingArgs := None; timer := None |}.

(** The throttle after a call, and what it passes on. *)
Definition throttled (args : A) (now : Z) (th : Throttle) : Throttle * option A :=
  let remaining := waitMs - (now - lastCall th) in
  if remaining <=? 0 then ({| lastCall := now; pendingArgs := pendingArgs th; timer := None |}, Some args)
  else ({| lastCall := lastCall th; pendingArgs := Some args; timer := match timer th with Some d => Some d | None => Some (now + remaining) end |}, None).

(** Its timer. *)
Definition fire (now : Z) (th : Throttle) : Throttle * option A :=
  match pendingArgs th with
  | Some a => ({| lastCall := now; pendingArgs := None; timer := None |}, Some a)
  | None => ({| lastCall := lastCall th; pendingArgs := None; timer := None |}, None)
  end.

Definition cancel : Throttle := newThrottle.
End throttle.
Arguments Throttle : clear implicits.

(** ** The budget of a layer *)

Section context.
Context (layerJson : VisibleDataLayer → text) (dataJson : value → text).

Definition MAX_LAYER_BYTES : nat := 8192.
Definition MAX_SUMMARY_LEN : nat := 300.

(** [new Blob([JSON.stringify(v)]).size]. *)
Definition byteSize (v : value) : nat := length (utf8Encode (dataJson v)).

Definition halved (l : list value) : list value := take (Nat.max 1 (Nat.div (length l) 2)) l.

(** The arrays of the keys halved in turn, up to the first that makes it fit. *)
Fixpoint truncateKeys (maxBytes : nat) (keys : list string) (result : value) : option value :=
  match keys with
  | [] => None
  | key :: keys' =>
      match result .@ key with
      | VArr l =>
          let result := withField key (VArr (halved l)) result in
          if Nat.leb (byteSize result) maxBytes then Some result else truncateKeys maxBytes keys' result
      | _ => truncateKeys maxBytes keys' result
      end
  end.

Definition onlySummary (d : value) : value := VObj [("__truncated__", VBool true); ("summary", d .@ "summary" ?? VNull)].

Definition truncateData (d : value) (maxBytes : nat) : value := default (onlySummary d) (truncateKeys maxBytes (keysOf d) d).

Definition ellipsis : N := 0x2026.

Definition enforceTokenBudget (l : VisibleDataLayer) : VisibleDataLayer :=
  {| source := source l;
     summary := if Nat.ltb MAX_SUMMARY_LEN (length (summary l)) then take (MAX_SUMMARY_LEN - 1) (summary l) ++ [ellipsis] else summary l;
     data := match data l with
             | Some d => Some (if truthy d && Nat.ltb MAX_LAYER_BYTES (byteSize d) then truncateData d MAX_LAYER_BYTES else d)
             | None => None
             end |}.

Definition equalLayer (a b : VisibleDataLayer) : bool := bool_decide (layerJson a = layerJson b).

(** ** The screen *)

Definition THROTTLE_MS : Z := 200.

Record AIContextInput := { i_source : option string; i_summary : text; i_data : option value }.

Definition layerOf (i : AIContextInput) : VisibleDataLayer :=
  {| source := default "base" (i_source i); summary := i_summary i; data := i_data i |}.

(** A component with its refs. *)
Record Component := { lastLayer : option VisibleDataLayer; throttledRegister : Throttle (string * VisibleDataLayer) }.
Definition newComponent : Component := {| lastLayer := None; throttledRegister := newThrottle |}.

Record Screen := {
  pathname : string; contextChanged : bool; layers : list (string * VisibleDataLayer); components : list (string * Component)
}.

Definition startScreen (p : string) : Screen := {| pathname := p; contextChanged := true; layers := []; components := [] |}.

Definition without {B} (id : string) (l : list (string * B)) : list (string * B) := filterb (λ e, negb (eqs id e.1)) l.

Definition registerLayer (args : string * VisibleDataLayer) (ls : list (string * VisibleDataLayer)) : list (string * VisibleDataLayer) :=
  upsert args.2 args.1 (λ _, args.2) ls.
Definition unregisterLayer (id : string) (ls : list (string * VisibleDataLayer)) : list (string * VisibleDataLayer) := without id ls.

Definition componentOf (id : string) (s : Screen) : Component := default newComponent (assoc id (components s)).

Definition setComponent (id : string) (c : Component) (s : Screen) : Screen :=
  {| pathname := pathname s; contextChanged := contextChanged s; layers := layers s; components := upsert newComponent id (λ _, c) (components s) |}.
Definition withLayers (ls : list (string * VisibleDataLayer)) (s : Screen) : Screen :=
  {| pathname := pathname s; contextChanged := contextChanged s; layers := ls; components := components s |}.

Definition passOn (out : option (string * VisibleDataLayer)) (s : Screen) : Screen :=
  match out with Some args => withLayers (registerLayer args (layers s)) s | None => s end.

(** The effect of [useAIContext]. *)
Definition useAIContext (id : string) (input : option AIContextInput) (now : Z) (s : Screen) : Screen :=
  match input with
  | None => setComponent id {| lastLayer := None; throttledRegister := cancel |} (withLayers (unregisterLayer id (layers s)) s)
  | Some i =>
      let c := componentOf id s in
      let next := layerOf i in
      let skip := match lastLayer c with Some l => equalLayer l next | None => false end in
      if skip then s
      else
        let '(th, out) := throttled THROTTLE_MS (id, enforceTokenBudget next) now (throttledRegister c) in
        passOn out (setComponent id {| lastLayer := Some next; throttledRegister := th |} s)
  end.

Definition unmount (id : string) (s : Screen) : Screen :=
  {| pathname := pathname s; contextChanged := contextChanged s; layers := unregisterLayer id (layers s); components := without id (components s) |}.

(** The timer of a component's throttle, when one waits. *)
Definition timerFires (id : string) (now : Z) (s : Screen) : Screen :=
  match assoc id (components s) with
  | Some c =>
      match timer (throttledRegister c) with
      | Some due =>
          if due <=? now then
            let '(th, out) := fire now (throttledRegister c) in
            passOn out (setComponent id {| lastLayer := lastLayer c; throttledRegister := th |} s)
          else s
      | None => s
      end
  | None => s
  end.

(** ** The snapshot *)

Definition isNotice (l : VisibleDataLayer) : bool := eqs (source l) "WatchProblemNotice".

Definition overlaysInOrder (overlays : list VisibleDataLayer) : list VisibleDataLayer :=
  filterb isNotice overlays ++ filterb (λ l, negb (isNotice l)) overlays.

Record PageContextSnapshot := {
  meta : RouteContextMeta; s_contextChanged : bool; base : option VisibleDataLayer; overlays : list VisibleDataLayer
}.

Definition isBase (l : VisibleDataLayer) : bool := eqs (source l) "base".

Definition getSnapshot (s : Screen) : PageContextSnapshot :=
  let all := if isPrivateScreen (pathname s) then [] else (layers s).*2 in
  {| meta := resolveRouteMeta (pathname s); s_contextChanged := contextChanged s; base := find isBase all;
     overlays := overlaysInOrder (filterb (λ l, negb (isBase l)) all) |}.

Definition consumeContextChanged (s : Screen) : Screen :=
  {| pathname := pathname s; contextChanged := false; layers := layers s; components := components s |}.

Definition navigate (p : string) (s : Screen) : Screen :=
  {| pathname := p; contextChanged := if eqs (pathname s) p then contextChanged s else true; layers := layers s; components := components s |}.

(** ** What happens *)

Inductive Event :=
  | Renders (id : string) (input : option AIContextInput)
  | Unmounts (id : string)
  | TimerFires (id : string)
  | Navigates (p : string)
  | Asks.

(** One event, and the snapshot a question takes. *)
Definition step (s : Screen) (te : Z * Event) : Screen :=
  match te.2 with
  | Renders id input => useAIContext id input te.1 s
  | Unmounts id => unmount id s
  | TimerFires id => timerFires id te.1 s
  | Navigates p => navigate p s
  | Asks => consumeContextChanged s
  end.

Definition run (s : Screen) (es : list (Z * Event)) : Screen := foldl step s es.

(** ** Where the layers come from *)

Lemma without_cons {B} id k (x : B) l : without id ((k, x) :: l) = if eqs id k then without id l else (k, x) :: without id l.
Proof. unfold without, filterb. cbn. by destruct (eqs id k). Qed.

Lemma assoc_without {B} id id' (l : list (string * B)) : assoc id' (without id l) = if eqs id' id then None else assoc id' l.
Proof.
  induction l as [|[k x] l IH]; [by destruct (eqs id' id)|]. rewrite without_cons. cbn [assoc].
  destruct (eqs id k) eqn:E.
  - apply eqs_true in E as <-. rewrite IH. by destruct (eqs id' id).
  - cbn [assoc]. rewrite IH. destruct (eqs id' k) eqn:E1; [|done]. apply eqs_true in E1 as ->.
    destruct (eqs k id) eqn:E2; [|done]. apply eqs_true in E2 as ->. by rewrite eqs_refl in E.
Qed.

Lemma componentOf_set id id' c s : componentOf id' (setComponent id c s) = if eqs id' id then c else componentOf id' s.
Proof. unfold componentOf. cbn. rewrite assoc_upsert. by destruct (eqs id' id). Qed.

Lemma layer_registered args id ls : assoc id (registerLayer args ls) = if eqs id args.1 then Some args.2 else assoc id ls.
Proof. unfold registerLayer. by rewrite assoc_upsert. Qed.

Lemma componentOf_passOn id out s : componentOf id (passOn out s) = componentOf id s.
Proof. by destruct out. Qed.

Lemma layer_passed id out s :
  assoc id (layers (passOn out s)) = match out with Some args => if eqs id args.1 then Some args.2 else assoc id (layers s) | None => assoc id (layers s) end.
Proof. destruct out; [apply layer_registered|done]. Qed.

(** The input a component rendered last, and when. *)
Definition rendered (id : string) (li : option (Z * AIContextInput)) (te : Z * Event) : option (Z * AIContextInput) :=
  match te.2 with
  | Renders id' input => if eqs id id' then (λ i, (te.1, i)) <$> input else li
  | Unmounts id' => if eqs id id' then None else li
  | _ => li
  end.

Definition lastInput (id : string) (es : list (Z * Event)) : option (Z * AIContextInput) := foldl (rendered id) None es.

Fixpoint chronological (since : Z) (es : list (Z * Event)) : Prop :=
  match es with [] => True | te :: es' => since ≤ te.1 ∧ chronological te.1 es' end.

(** What a component's layer and throttle say of its last input. *)
Definition tells (id : string) (now : Z) (li : option (Z * AIContextInput)) (c : Component) (shown : option VisibleDataLayer) : Prop :=
  let th := throttledRegister c in
  lastCall th ≤ now ∧
  match li with
  | None => lastLayer c = None ∧ timer th = None ∧ shown = None
  | Some (t, i) =>
      t ≤ now ∧ ∃ l, lastLayer c = Some l ∧ layerJson l = layerJson (layerOf i) ∧
        (timer th = None ∧ shown = Some (enforceTokenBudget l) ∨
         timer th = Some (lastCall th + THROTTLE_MS) ∧ lastCall th ≤ t ∧ pendingArgs th = Some (id, enforceTokenBudget l))
  end.

Definition told (now : Z) (li : string → option (Z * AIContextInput)) (s : Screen) : Prop :=
  ∀ id, tells id now (li id) (componentOf id s) (assoc id (layers s)).

Lemma tells_later id now now' li c shown : now ≤ now' → tells id now li c shown → tells id now' li c shown.
Proof. unfold tells. intros Hn [H1 H2]. split; [lia|]. destruct li as [[t i]|]; [|done]. destruct H2 as [? ?]. split; [lia|done]. Qed.

Lemma useAIContext_told id input now s li :
  0 ≤ now → told now li s → told now (λ id', if eqs id' id then (λ i, (now, i)) <$> input else li id') (useAIContext id input now s).
Proof.
  intros H0 H id'. specialize (H id'). unfold useAIContext. destruct input as [i|].
  2: { rewrite componentOf_set. cbn [layers setComponent withLayers]. unfold unregisterLayer. rewrite assoc_without.
       destruct (eqs id' id); [by unfold tells; cbn|exact H]. }
  set (c := componentOf id s). destruct (match lastLayer c with Some l => _ | None => false end) eqn:Es.
  { destruct (eqs id' id) eqn:E; [|exact H]. apply eqs_true in E as ->. fold c in H. destruct (lastLayer c) as [l|] eqn:El; [|done].
    apply bool_decide_eq_true in Es. destruct H as [Hc H]. split; [done|]. cbn. split; [lia|]. exists l. split; [done|]. split; [done|].
    destruct (li id) as [[t j]|]; [|by destruct H as [? _]; congruence].
    destruct H as (Ht & l' & El' & _ & H). rewrite El in El'. injection El' as <-. destruct H as [H|(? & ? & ?)]; [by left|]. right. split_and!; [done|by etrans|done]. }
  destruct (throttled _ _ _ _) as [th out] eqn:Et. rewrite componentOf_passOn, componentOf_set, layer_passed. cbn [layers setComponent].
  unfold throttled in Et. destruct (eqs id' id) eqn:E.
  - apply eqs_true in E as ->. fold c in H. destruct H as [Hc H]. destruct (_ <=? 0) eqn:Er; injection Et as <- <-; unfold tells; cbn.
    + split; [lia|]. split; [lia|]. eexists. split_and!; [done|done|]. left. by rewrite eqs_refl.
    + split; [done|]. split; [lia|]. eexists. split_and!; [done|done|]. right. split_and!; [|done|done].
      destruct (timer (throttledRegister c)) as [d|] eqn:Ed; [|f_equal; lia].
      destruct (li id) as [[t j]|]; [|by destruct H as (_ & H & _)]. destruct H as (_ & l & _ & _ & [[H _]|[H _]]); congruence.
  - destruct (_ <=? 0); injection Et as <- <-; [cbn; rewrite E|]; exact H.
Qed.

Lemma timerFires_told id now s li : told now li s → told now li (timerFires id now s).
Proof.
  intros H. unfold timerFires. destruct (assoc id (components s)) as [c|] eqn:Ec; [|done].
  destruct (timer (throttledRegister c)) as [due|] eqn:Ed; [|done]. destruct (due <=? now) eqn:Edue; [|done].
  assert (componentOf id s = c) as Hc by (unfold componentOf; by rewrite Ec).
  pose proof (H id) as Hid. rewrite Hc in Hid. destruct Hid as [Hl Hid]. destruct (li id) as [[t i]|] eqn:Eli; [|by destruct Hid as (_ & ? & _); congruence].
  destruct Hid as (Ht & l & Ell & Ej & [[? _]|(Hd & Hlt & Hp)]); [congruence|]. unfold fire. rewrite Hp. intros id'.
  rewrite componentOf_passOn, componentOf_set, layer_passed. cbn [fst snd layers setComponent]. destruct (eqs id' id) eqn:E; [|apply H].
  apply eqs_true in E as ->. rewrite Eli. unfold tells. cbn. split; [lia|]. split; [lia|]. exists l. split_and!; [done|done|by left].
Qed.

Lemma step_told now s li te : 0 ≤ now ≤ te.1 → told now li s → told te.1 (λ id, rendered id (li id) te) (step s te).
Proof.
  destruct te as [t e]. cbn [fst]. intros [H0 Hn] H. assert (told t li s) as Ht by (intros id; eapply tells_later; [exact Hn|apply H]).
  unfold step, rendered. cbn [fst snd]. destruct e as [id input|id|id|p|]; try exact Ht.
  - by apply useAIContext_told; [lia|].
  - intros id'. specialize (Ht id'). cbn [layers unmount]. unfold componentOf in *. cbn [components unmount]. unfold unregisterLayer.
    rewrite !assoc_without. destruct (eqs id' id); [|exact Ht]. unfold tells. cbn. split_and!; [lia|done..].
  - by apply timerFires_told.
Qed.

Lemma run_told since es s li :
  0 ≤ since → chronological since es → told since li s →
  ∃ now, told now (λ id, foldl (rendered id) (li id) es) (run s es).
Proof.
  revert since s li. induction es as [|te es IH]; intros since s li H0 Hc Ht; [by exists since|].
  destruct Hc as [Hs Hc]. cbn [run foldl]. apply (IH te.1 _ (λ id, rendered id (li id) te)); [lia|done|].
  by apply (step_told since).
Qed.
End context.

(** ** What the theorems say *)

(** C11. The assistant is told what each component shows: after any renderings, timers and
    navigation, a component that shows something has its last input as its layer, cut
    to the budget, or will have it when its timer fires, at most [THROTTLE_MS] after
    that input; one that shows nothing, or is gone, has no layer. *)
Theorem screen_is_told (layerJson : VisibleDataLayer → text) (dataJson : value → text) p es id :
  chronological 0 es →
  let s := run layerJson dataJson (startScreen p) es in
  match lastInput id es with
  | None => assoc id (layers s) = None
  | Some (t, i) =>
      ∃ l, layerJson l = layerJson (layerOf i) ∧
        (assoc id (layers s) = Some (enforceTokenBudget dataJson l) ∨
         ∃ due, due ≤ t + THROTTLE_MS ∧
           ∀ now, due ≤ now → assoc id (layers (step layerJson dataJson s (now, TimerFires id))) = Some (enforceTokenBudget dataJson l))
  end.
Proof.
  intros Hc s. assert (told layerJson dataJson 0 (λ _, None) (startScreen p)) as H0 by (intros id'; by unfold tells).
  destruct (run_told layerJson dataJson 0 es (startScreen p) (λ _, None) (Z.le_refl 0) Hc H0) as [now H].
  specialize (H id). fold s in H. unfold lastInput. destruct (foldl (rendered id) None es) as [[t i]|]; [|by destruct H as (_ & _ & _ & H)].
  destruct H as (_ & _ & l & Hl & Hj & [[_ H]|(Hd & Ht & Hp)]); exists l; (split; [done|]); [by left|right].
  exists (lastCall (throttledRegister (componentOf id s)) + THROTTLE_MS). split; [lia|]. intros now' Hnow.
  unfold step, timerFires, componentOf in *. cbn [fst snd]. destruct (assoc id (components s)) as [c|]; [|done].
  change (default newComponent (Some c)) with c in *.
  rewrite Hd. rewrite (proj2 (Z.leb_le _ _)) by done. unfold fire. rewrite Hp. rewrite layer_passed. cbn [fst]. by rewrite eqs_refl.
Qed.

(** Some arrays of an object cut short, the rest as it was. *)
Definition cutShort (d d' : value) : Prop :=
  ∀ k, d' .@ k = d .@ k ∨ ∃ l n, d .@ k = VArr l ∧ d' .@ k = VArr (take n l).

Lemma cutShort_halved fs k l d : cutShort d (VObj fs) → VObj fs .@ k = VArr l → cutShort d (withField k (VArr (halved l)) (VObj fs)).
Proof.
  intros H Hk k'. destruct (decide (k = k')) as [<-|Hne]; [|rewrite get_setField_ne by done; apply H].
  rewrite get_setField_eq. right. destruct (H k) as [E|(l0 & n & E0 & E)]; rewrite Hk in E.
  - by exists l, (Nat.max 1 (Nat.div (length l) 2)).
  - injection E as ->. exists l0, (Nat.min (Nat.max 1 (Nat.div (length (take n l0)) 2)) n). split; [done|]. unfold halved. by rewrite take_take.
Qed.

Lemma truncateKeys_spec (dataJson : value → text) maxBytes keys fs d r :
  cutShort d (VObj fs) → truncateKeys dataJson maxBytes keys (VObj fs) = Some r → (byteSize dataJson r ≤ maxBytes)%nat ∧ cutShort d r.
Proof.
  revert fs. induction keys as [|k keys IH]; intros fs Hc; [done|]. cbn [truncateKeys].
  destruct (VObj fs .@ k) eqn:Ek; try (by apply IH). pose proof (cutShort_halved fs k l d Hc Ek) as Hc'.
  destruct (Nat.leb _ maxBytes) eqn:Eb; [|by apply IH]. intros [= <-]. split; [by apply Nat.leb_le|done].
Qed.

(** What is told of a component is within its budget: the summary is at most
    [MAX_SUMMARY_LEN] long; data that fits is told as it is, data that does not with
    some of its arrays cut so that it fits, or else its summary alone. *)
Theorem layer_in_budget (dataJson : value → text) l d :
  data l = Some d → isObject d = true →
  (length (summary (enforceTokenBudget dataJson l)) ≤ MAX_SUMMARY_LEN)%nat ∧
  ∃ d', data (enforceTokenBudget dataJson l) = Some d' ∧
    (d' = d ∧ (d = VNull ∨ byteSize dataJson d ≤ MAX_LAYER_BYTES)%nat
     ∨ (byteSize dataJson d > MAX_LAYER_BYTES)%nat ∧ ((byteSize dataJson d' ≤ MAX_LAYER_BYTES)%nat ∧ cutShort d d' ∨ d' = onlySummary d)).
Proof.
  intros Hd Ho. unfold enforceTokenBudget. cbn [summary data]. rewrite Hd. split.
  { destruct (Nat.ltb MAX_SUMMARY_LEN (length (summary l))) eqn:E; [|by apply Nat.ltb_ge in E].
    rewrite length_app, length_take. cbn [length]. unfold MAX_SUMMARY_LEN in *. lia. }
  eexists. split; [done|]. destruct (Nat.ltb MAX_LAYER_BYTES (byteSize dataJson d)) eqn:E.
  2: { rewrite andb_false_r. left. apply Nat.ltb_ge in E. by auto. }
  rewrite andb_true_r. apply Nat.ltb_lt in E. destruct (truthy d) eqn:Et; [|left; split; [done|]; left; by destruct d].
  right. split; [lia|]. unfold truncateData. destruct (truncateKeys _ _ _ _) as [r|] eqn:Er; [left|by right]. cbn [default].
  destruct d; try done. by apply (truncateKeys_spec dataJson _ _ _ _ _ (λ k, or_introl eq_refl) Er).
Qed.

(** Nothing of a private screen goes to the model. *)
Lemma private_says_nothing s : isPrivateScreen (pathname s) = true → base (getSnapshot s) = None ∧ overlays (getSnapshot s) = [].
Proof. intros H. unfold getSnapshot. cbn [base overlays]. by rewrite H. Qed.

(** ** Concrete screens *)

Definition sampleLayerJson (l : VisibleDataLayer) : text := summary l.

(** The letters of a value. *)
Fixpoint sampleJson (v : value) : text :=
  match v with
  | VStr s => utf16 s
  | VArr l => 91%N :: concat (map sampleJson l) ++ [93%N]
  | VObj fs => 123%N :: concat (map (λ f, utf16 f.1 ++ sampleJson f.2) fs) ++ [125%N]
  | _ => [48%N]
  end.

Definition shows (s : option string) (words : string) : option AIContextInput :=
  Some {| i_source := s; i_summary := utf16 words; i_data := Some (VObj [("pods", VNum 3)]) |}.

Definition sampleDay : list (Z * Event) :=
  [(1000, Renders "list" (shows None "3 pods")); (1050, Renders "list" (shows None "4 pods")); (1060, Renders "drawer" (shows (Some "Drawer") "Pod a"));
   (1100, Renders "list" (shows None "5 pods"))].

Lemma screen_is_told_witness :
  let s := run sampleLayerJson sampleJson (startScreen "/workloads/pods") sampleDay in
  chronological 0 sampleDay ∧
  ∃ l, sampleLayerJson l = utf16 "5 pods" ∧
    (assoc "list" (layers s) = Some (enforceTokenBudget sampleJson l) ∨
     ∃ due, due ≤ 1100 + THROTTLE_MS ∧
       ∀ now, due ≤ now → assoc "list" (layers (step sampleLayerJson sampleJson s (now, TimerFires "list"))) = Some (enforceTokenBudget sampleJson l)).
Proof.
  assert (chronological 0 sampleDay) as Hc by (cbn; lia). split; [exact Hc|].
  exact (screen_is_told sampleLayerJson sampleJson "/workloads/pods" sampleDay "list" Hc).
Defined.

Definition longText : string := "0123456789012345678901234567890123456789012345678901234567890123456789012345678901234567890123456789".

(** An array a quarter too long, beside a short field. *)
Definition longData : value := VObj [("events", VArr (repeat (VStr longText) 120)); ("total", VNum 120)].
Definition longLayer : VisibleDataLayer := {| source := "base"; summary := utf16 "events"; data := Some longData |}.

Lemma layer_in_budget_witness :
  (length (summary (enforceTokenBudget sampleJson longLayer)) ≤ MAX_SUMMARY_LEN)%nat ∧
  ∃ d', data (enforceTokenBudget sampleJson longLayer) = Some d' ∧
    (d' = longData ∧ (longData = VNull ∨ byteSize sampleJson longData ≤ MAX_LAYER_BYTES)%nat
     ∨ (byteSize sampleJson longData > MAX_LAYER_BYTES)%nat
       ∧ ((byteSize sampleJson d' ≤ MAX_LAYER_BYTES)%nat ∧ cutShort longData d' ∨ d' = onlySummary longData)).
Proof. exact (layer_in_budget sampleJson longLayer longData eq_refl eq_refl). Defined.

(** An array more than twice too long is not halved until it fits: all the data is lost. *)
Example halved_once_only :
  data (enforceTokenBudget sampleJson {| source := "base"; summary := []; data := Some (VObj [("events", VArr (repeat (VStr longText) 200)); ("total", VNum 200)]) |}) =
  Some (VObj [("__truncated__", VBool true); ("summary", VNull)]).
Proof. by vm_compute. Qed.

(** The summary of data that did not fit is told whole, whatever its length. *)
Example summary_over_budget :
  let d := VObj [("summary", VArr (repeat (VStr longText) 200))] in
  (byteSize sampleJson (truncateData sampleJson d MAX_LAYER_BYTES) <=? MAX_LAYER_BYTES)%nat = false.
Proof. by vm_compute. Qed.

(** A window that loads again, under another, is told of as the one on top. *)
Example reloaded_window_on_top :
  let s := run sampleLayerJson sampleJson (startScreen "/")
             [(1000, Renders "list" (shows (Some "List") "pods")); (2000, Renders "drawer" (shows (Some "Drawer") "Pod a"));
              (3000, Renders "list" None); (3500, Renders "list" (shows (Some "List") "pods"))] in
  source <$> overlays (getSnapshot s) = ["Drawer"; "List"].
Proof. by vm_compute. Qed.

(** Nothing of an admin page is told, whatever window on it registered a layer. *)
Example nothing_of_admin :
  let s := run sampleLayerJson sampleJson (startScreen "/admin/users") [(1000, Renders "drawer" (shows (Some "Drawer") "a user"))] in
  overlays (getSnapshot s) = [] ∧ contextChanged (step sampleLayerJson sampleJson s (2000, Asks)) = false.
Proof. by vm_compute. Qed.
