(* ===== verification/AiSummaries.v ===== *)
(** * The words a page tells the assistant

    utils/aiContext/podCounts.ts, summarizeList.ts and summarizeKPI.ts: the counts of
    pods, the list of a page cut short, and the serialized snapshot
    (serializeSnapshot.ts).  A row is a value; the callbacks of a page are arguments. *)

From S2P Require Import Prelude JsString OrderedMap Json Sums.

#[local] Open Scope Z_scope.

(** ** The pods *)

Definition NOTHING_TO_LOOK_AT : list string := ["Running"; "Completed"; "Succeeded"].

Definition quiet (word : value) : bool := some (λ w, isStr word w) NOTHING_TO_LOOK_AT.

Definition podNotRunning (pod : value) : bool :=
  let word := pod .@ "status" |? pod .@ "phase" in truthy word && negb (quiet word).

Definition notRunningFirst (pods : list value) : list value :=
  filterb podNotRunning pods ++ filterb (λ p, negb (podNotRunning p)) pods.

Definition podNeedsALook (pod : value) : bool := podNotRunning pod || jsLt (VNum 5) (pod .@ "restart_count" ?? VNum 0).

Definition countWord (word : value) (by_ : list (string * Z)) : list (string * Z) := upsert 0 (toString word) (λ n, n + 1) by_.

Record PodCounts := { notRunning : Z; byPhase : list (string * Z); byStatus : list (string * Z) }.

Definition podCounts (pods : list value) : PodCounts :=
  {| notRunning := vlength (filterb podNotRunning pods);
     byPhase := foldl (λ m pod, countWord (pod .@ "phase" |? pod .@ "status" |? VStr "Unknown") m) [] pods;
     byStatus := foldl (λ m pod, countWord (pod .@ "status" |? pod .@ "phase" |? VStr "Unknown") m) [] pods |}.

(** ** A list *)

Section list_.
Context (pickFields : option (list string)) (filterProblematic : option (value → bool)) (interpret : option (list value → list value))
  (linkBuilder : option (value → value)).

Definition slim (item : value) : value :=
  let base := match pickFields with
              | Some fields => foldl (λ acc f, withField f (item .@ f) acc) (VObj []) fields
              | None => item
              end in
  match linkBuilder with
  | Some build => let link := build item in if truthy link then withField "_link" link base else base
  | None => base
  end.

Record Pagination := { current_page : Z; total_pages : Z; page_size : Z; total_count : Z; showing_count : Z }.
Record SummarizeListResult := {
  pagination : Pagination; visible_items : list value; problematic_items : option (list value); interpretations : option (list value)
}.

Definition nonemptyList (l : list value) : option (list value) := match l with [] => None | _ => Some l end.

Definition summarizeList (items : list value) (total currentPage pageSize topN : option Z) : SummarizeListResult :=
  let n := vlength items in
  let pageSize := default (if n =? 0 then 1 else n) pageSize in
  let total := default n total in
  let topN := default 10 topN in
  let top l := take (Z.to_nat topN) l in
  {| pagination := {| current_page := default 1 currentPage; total_pages := Z.max 1 (ceilDiv total pageSize); page_size := pageSize;
                      total_count := total; showing_count := Z.min n topN |};
     visible_items := slim <$> top items;
     problematic_items := match filterProblematic with Some f => nonemptyList (slim <$> top (filterb f items)) | None => None end;
     interpretations := match interpret with Some f => nonemptyList (filterb truthy (f items)) | None => None end |}.
End list_.

(** ** Counts *)

(** How many words of a kind are counted. *)
Definition weight (P : string → bool) (m : list (string * Z)) : Z := foldr (λ e acc, (if P e.1 then e.2 else 0) + acc) 0 m.

Lemma weight_upsert P k m : weight P (upsert 0 k (λ n, n + 1) m) = weight P m + (if P k then 1 else 0).
Proof.
  induction m as [|[k' n] m IH]; cbn [upsert weight foldr fst snd]; [destruct (P k); lia|]. destruct (eqs k k') eqn:E; cbn [weight foldr fst snd].
  - apply eqs_true in E as <-. destruct (P k); lia.
  - fold (weight P (upsert 0 k (λ n, n + 1) m)) (weight P m). rewrite IH. lia.
Qed.

Lemma weight_words {A} P (word : A → value) l m :
  weight P (foldl (λ m x, countWord (word x) m) m l) = weight P m + Z.of_nat (length (filterb (λ x, P (toString (word x))) l)).
Proof.
  revert m. induction l as [|x l IH]; intros m; [by rewrite Z.add_0_r|]. cbn [foldl]. rewrite IH. unfold countWord at 1. rewrite weight_upsert.
  unfold filterb. cbn [List.filter]. destruct (P (toString (word x))); cbn [length]; lia.
Qed.

(** A pod with a word to show. *)
Definition hasWord (pod : value) : Prop := ∃ s, (pod .@ "status" |? pod .@ "phase") = VStr s ∧ s ≠ "".

Definition looksBad (word : string) : bool := negb (some (eqs word) NOTHING_TO_LOOK_AT).

Lemma shown_word pod : hasWord pod → podNotRunning pod = looksBad (toString (pod .@ "status" |? pod .@ "phase" |? VStr "Unknown")).
Proof.
  intros (s & Hs & Hn). unfold podNotRunning, looksBad, quiet.
  assert ((pod .@ "status" |? pod .@ "phase" |? VStr "Unknown") = VStr s) as ->.
  { unfold or_else in *. destruct (truthy (pod .@ "status")); [done|]. rewrite Hs. cbn. by rewrite (proj2 (nonempty_true s)). }
  rewrite Hs. cbn [truthy toString]. rewrite (proj2 (nonempty_true s)) by done. done.
Qed.

(** Every pod is under one status and one phase, and what is counted as not running is
    what the statuses that look bad count. *)
Theorem pod_counts_add_up pods :
  weight (λ _, true) (byStatus (podCounts pods)) = vlength pods ∧
  weight (λ _, true) (byPhase (podCounts pods)) = vlength pods ∧
  (Forall hasWord pods → notRunning (podCounts pods) = weight looksBad (byStatus (podCounts pods))).
Proof.
  assert (∀ l : list value, filterb (λ _, true) l = l) as Hid by (induction l as [|x l IH]; [done|]; unfold filterb in *; cbn; by rewrite IH).
  cbn [byStatus byPhase notRunning podCounts]. rewrite !weight_words, !Hid. split_and!; [done..|]. intros Hw. unfold vlength. cbn [weight foldr]. rewrite Z.add_0_l. f_equal.
  induction Hw as [|pod pods Hp _ IH]; [done|]. unfold filterb in *. cbn [List.filter]. rewrite (shown_word pod Hp).
  destruct (looksBad _); cbn [length]; by rewrite IH.
Qed.

(** A list cut short keeps the pods that need a look, in their order. *)
Theorem cut_keeps_problems pods n :
  (length (filterb podNotRunning pods) ≤ n)%nat → filterb podNotRunning (take n (notRunningFirst pods)) = filterb podNotRunning pods.
Proof.
  intros Hn. unfold notRunningFirst. rewrite take_app_ge by done. unfold filterb. rewrite List.filter_app.
  assert (∀ l, List.filter podNotRunning (List.filter podNotRunning l) = List.filter podNotRunning l) as Hff.
  { induction l as [|x l IH]; [done|]. cbn. destruct (podNotRunning x) eqn:E; cbn; [by rewrite E, IH|done]. }
  rewrite Hff. rewrite <-(app_nil_r (List.filter podNotRunning pods)) at 3. f_equal.
  assert (∀ l m, List.filter podNotRunning (take m (List.filter (λ p, negb (podNotRunning p)) l)) = []) as Hnone.
  { intros l. induction l as [|x l IH]; intros m; [cbn; by rewrite take_nil|]. cbn. destruct (podNotRunning x) eqn:E; cbn; [apply IH|].
    destruct m; [done|]. cbn. by rewrite E. }
  apply Hnone.
Qed.

(** What a page lists has as many items as it says, and its problems are looked for in
    every item, not only in those it lists. *)
Theorem summary_counts pick problematic interp link items total page size topN :
  0 ≤ default 10 topN →
  let r := summarizeList pick problematic interp link items total page size topN in
  vlength (visible_items r) = showing_count (pagination r) ∧
  (∀ f x, problematic = Some f → x ∈ items → f x = true → is_Some (problematic_items r) ∨ default 10 topN = 0).
Proof.
  intros Ht r. split.
  - cbn. unfold vlength. rewrite length_fmap, length_take. lia.
  - intros f x -> Hx Hf. cbn. assert (x ∈ filterb f items) as Hin by (by apply elem_of_filterb).
    destruct (filterb f items) as [|y l]; [by apply elem_of_nil in Hin|]. destruct (Z.to_nat (default 10 topN)) eqn:E; [right; lia|left; by eexists].
Qed.

(** Whole pages: every item is on one of them. *)
Lemma pages_enough pick problematic interp link items page size topN :
  0 < default 1 size → let r := summarizeList pick problematic interp link items None page size topN in
  vlength items ≤ total_pages (pagination r) * page_size (pagination r).
Proof.
  intros Hs. cbn. unfold ceilDiv, vlength. destruct size as [b|]; cbn in *.
  - pose proof (Z.div_mod (- Z.of_nat (length items)) b ltac:(lia)) as Hd.
    pose proof (Z.mod_pos_bound (- Z.of_nat (length items)) b ltac:(lia)). nia.
  - destruct (Z.of_nat (length items) =? 0) eqn:E; [lia|]. pose proof (Z.mul_le_mono_nonneg_r 1 (Z.max 1 (- (- Z.of_nat (length items) / Z.of_nat (length items)))) (Z.of_nat (length items))). lia.
Qed.

Example pods_counted :
  let pod s p := VObj [("status", VStr s); ("phase", VStr p)] in
  podCounts [pod "Running" "Running"; pod "CrashLoopBackOff" "Running"; pod "Completed" "Succeeded"; VObj [("phase", VStr "Pending")]] =
  {| notRunning := 2; byPhase := [("Running", 2); ("Succeeded", 1); ("Pending", 1)];
     byStatus := [("Running", 1); ("CrashLoopBackOff", 1); ("Completed", 1); ("Pending", 1)] |}.
Proof. by vm_compute. Qed.
