(* ===== verification/FloatingChat.v ===== *)
(** * The list of the floating chat

    components/FloatingAIChat/turnsOnScreen.ts: the saved messages of a conversation
    with what they do not hold (failed and stopped turns, the turn going on), over the
    state of [ChatStream].  The words of a failure ([errorText]) are an argument. *)

From S2P Require Import Prelude JsString Json ChatStream.

Inductive Role := user | assistant | error_.
#[export] Instance Role_dec : EqDecision Role.
Proof. solve_decision. Defined.

Record DisplayMessage := { role : Role; m_content : text; m_toolCalls : option (list value); pending : bool }.

Definition hasLetters (t : text) : bool := match t with [] => false | _ => true end.

Definition asks (message : option DisplayMessage) (q : text) : bool :=
  match message with Some m => bool_decide (role m = user) && bool_decide (m_content m = q) | None => false end.

Definition question_ (q : text) (pending : bool) : DisplayMessage := {| role := user; m_content := q; m_toolCalls := None; pending := pending |}.

Section turns.
Context (errorText : Failure → text) (saved : list DisplayMessage).

(** What is on screen so far, and how many saved messages of it. *)
Record Shown := { out : list DisplayMessage; shown : nat }.

Definition savedUpTo (end_ : nat) (s : Shown) : Shown :=
  {| out := out s ++ take (end_ - shown s) (drop (shown s) saved); shown := Nat.max (shown s) end_ |}.

Definition push (m : DisplayMessage) (s : Shown) : Shown := {| out := out s ++ [m]; shown := shown s |}.

Definition answer (c : text) (calls : list value) (pending : bool) (s : Shown) : Shown :=
  if hasLetters c || pending then
    push {| role := assistant; m_content := c; m_toolCalls := match calls with [] => None | _ => Some calls end; pending := pending |} s
  else s.

Definition failure (f : Failure) (s : Shown) : Shown :=
  match error f with
  | Some (_ :: _) => push {| role := error_; m_content := errorText f; m_toolCalls := None; pending := false |} s
  | _ => s
  end.

Definition lettersSaved (turn : FailedTurn) (s : Shown) : bool :=
  stopped turn && hasLetters (ft_content turn) &&
  some (λ m, bool_decide (role m = assistant) && bool_decide (m_content m = ft_content turn)) (drop (Nat.max (shown s) (askedAt turn)) saved).

(** A turn that failed, [next] the question after it. *)
Definition failedTurn (turn : FailedTurn) (next : option text) (s : Shown) : Shown :=
  if lettersSaved turn s then s else
  let at0 := Nat.max (shown s) (ft_savedBefore turn) in
  let reachedScreen := (shown s <? at0) && asks (saved !! (at0 - 1)) (question turn) in
  let at_ := if reachedScreen then at0 - 1 else at0 in
  let s := savedUpTo at_ s in
  let s :=
    if asks (saved !! at_) (question turn) && (reachedScreen || negb (bool_decide (next = Some (question turn))) || asks (saved !! (at_ + 1)) (question turn))
    then savedUpTo (at_ + 1) s
    else push (question_ (question turn) false) s in
  failure (ft_failure turn) (answer (ft_content turn) (ft_toolCalls turn) false s).

Fixpoint failedTurns_ (turns : list FailedTurn) (userMessage : option text) (s : Shown) : Shown :=
  match turns with
  | [] => s
  | turn :: rest =>
      let next := match rest with t :: _ => Some (question t) | [] => userMessage end in
      failedTurns_ rest userMessage (failedTurn turn next s)
  end.

(** The last message that asks the question. *)
Fixpoint lastAsked (q : text) (l : list DisplayMessage) : option nat :=
  match l with
  | [] => None
  | m :: l' => match lastAsked q l' with Some i => Some (S i) | None => if asks (Some m) q then Some 0 else None end
  end.

Definition turnsOnScreen (state : ChatStreamState) : list DisplayMessage :=
  let s := failedTurns_ (failedTurns state) (userMessage state) {| out := []; shown := 0 |} in
  match userMessage state with
  | None => out (savedUpTo (length saved) s)
  | Some q =>
      if bool_decide (status state = idle) then out (savedUpTo (length saved) s) else
      let from := Nat.max (shown s) (savedBefore state) in
      let at_ := match lastAsked q saved with Some i => if from <=? i then Some i else None | None => None end in
      let s := savedUpTo (match at_ with Some i => i + 1 | None => length saved end) s in
      let s := match at_ with Some _ => s | None => push (question_ q (isStreaming state)) s end in
      let answerSaved :=
        match at_ with
        | Some i =>
            match saved !! (i + 1) with Some m => bool_decide (role m = assistant) | None => false end
            && (bool_decide (status state = completed) || bool_decide (status state = aborted))
        | None => false
        end in
      let s := savedUpTo (length saved) s in
      if answerSaved then out s
      else out (failure (ChatStream.failure state) (answer (content state) (toolCalls state) (isStreaming state) s))
  end.

(** ** What is on screen *)

(** [o] is [s] with messages of its own between. *)
Inductive holds (own : DisplayMessage → Prop) : list DisplayMessage → list DisplayMessage → Prop :=
  | holds_nil : holds own [] []
  | holds_saved m s o : holds own s o → holds own (m :: s) (m :: o)
  | holds_own m s o : own m → holds own s o → holds own s (m :: o).

Lemma holds_app own s o s' o' : holds own s o → holds own s' o' → holds own (s ++ s') (o ++ o').
Proof. induction 1; intros H'; [done|by apply holds_saved; auto|by apply holds_own; auto]. Qed.

Lemma holds_refl own s : holds own s s.
Proof. induction s; [apply holds_nil|by apply holds_saved]. Qed.

(** So far, the first saved messages, each once and in order. *)
Definition inOrder (own : DisplayMessage → Prop) (s : Shown) : Prop := holds own (take (shown s) saved) (out s).

Lemma savedUpTo_inOrder own n s : inOrder own s → inOrder own (savedUpTo n s).
Proof.
  unfold inOrder. cbn. intros H. replace (take (Nat.max (shown s) n) saved) with (take (shown s) saved ++ take (n - shown s) (drop (shown s) saved)).
  - apply holds_app; [exact H|apply holds_refl].
  - rewrite take_take_drop. f_equal. lia.
Qed.

Lemma push_inOrder (own : DisplayMessage → Prop) m s : own m → inOrder own s → inOrder own (push m s).
Proof.
  unfold inOrder. cbn. intros Hm H. rewrite <-(app_nil_r (take _ _)). apply holds_app; [exact H|]. apply holds_own; [exact Hm|apply holds_nil].
Qed.

(** A message of a turn: its question, its letters or its error. *)
Definition ofTurn (q c : text) (m : DisplayMessage) : Prop :=
  match role m with user => m_content m = q | assistant => m_content m = c | error_ => True end.

Definition ofTurns (state : ChatStreamState) (m : DisplayMessage) : Prop :=
  (∃ t, t ∈ failedTurns state ∧ ofTurn (question t) (ft_content t) m) ∨ ∃ q, userMessage state = Some q ∧ ofTurn q (content state) m.

Lemma answer_inOrder (own : DisplayMessage → Prop) c calls p s :
  (∀ m, role m = assistant → m_content m = c → own m) → inOrder own s → inOrder own (answer c calls p s).
Proof. intros Ho H. unfold answer. destruct (_ || _); [|done]. apply push_inOrder; [by apply Ho|done]. Qed.

Lemma failure_inOrder (own : DisplayMessage → Prop) f s : (∀ m, role m = error_ → own m) → inOrder own s → inOrder own (failure f s).
Proof. intros Ho H. unfold failure. destruct (error f) as [[|c e]|]; try done. apply push_inOrder; [by apply Ho|done]. Qed.

Lemma failedTurn_inOrder (own : DisplayMessage → Prop) turn next s :
  (∀ m, ofTurn (question turn) (ft_content turn) m → own m) → inOrder own s → inOrder own (failedTurn turn next s).
Proof.
  intros Ho H. unfold failedTurn. destruct (lettersSaved turn s); [done|].
  apply failure_inOrder; [intros m Hm; apply Ho; unfold ofTurn; by rewrite Hm|].
  apply answer_inOrder; [intros m Hm Hc; apply Ho; unfold ofTurn; by rewrite Hm|].
  destruct (asks _ _ && _).
  - by do 2 apply savedUpTo_inOrder.
  - apply push_inOrder; [by apply Ho|by apply savedUpTo_inOrder].
Qed.

Lemma failedTurns_inOrder (own : DisplayMessage → Prop) turns u s :
  (∀ t, t ∈ turns → ∀ m, ofTurn (question t) (ft_content t) m → own m) → inOrder own s → inOrder own (failedTurns_ turns u s).
Proof.
  revert s. induction turns as [|t turns IH]; intros s Ho H; [done|]. cbn [failedTurns_]. apply IH.
  - intros t' Ht. apply Ho. by right.
  - apply failedTurn_inOrder; [|done]. apply Ho. left.
Qed.
End turns.

Lemma lastAsked_lt q l i : lastAsked q l = Some i → i < length l.
Proof.
  revert i. induction l as [|m l IH]; [done|]. intros i. cbn [lastAsked length]. destruct (lastAsked q l) as [j|].
  - intros [= <-]. specialize (IH j eq_refl). lia.
  - destruct (asks _ q); [|done]. intros [= <-]. lia.
Qed.

Lemma lastAsked_app q l k i : lastAsked q k = Some i → lastAsked q (l ++ k) = Some (length l + i).
Proof. intros H. induction l as [|m l IH]; [done|]. cbn [app lastAsked length]. by rewrite IH. Qed.

Lemma savedUpTo_all saved n : n = length saved → out (savedUpTo saved n {| out := []; shown := 0 |}) = saved.
Proof. intros ->. cbn. by rewrite Nat.sub_0_r, take_ge. Qed.

Lemma shown_answer c calls p s : shown (answer c calls p s) = shown s.
Proof. unfold answer. by destruct (_ || _). Qed.

Lemma shown_failure errorText f s : shown (failure errorText f s) = shown s.
Proof. unfold failure. by destruct (error f) as [[|c e]|]. Qed.

(** C10. Every saved message is in the floating chat's list once, in its order, whatever
    turns failed, were stopped or are going on; all the list has besides is a question,
    the letters or the error of one of those turns. *)
Theorem saved_once_in_order errorText saved state : holds (ofTurns state) saved (turnsOnScreen errorText saved state).
Proof.
  assert (inOrder saved (ofTurns state) {| out := []; shown := 0 |}) as H0 by apply holds_nil.
  assert (∀ s, inOrder saved (ofTurns state) s → length saved ≤ shown s → holds (ofTurns state) saved (out s)) as Hall.
  { intros s H Hl. unfold inOrder in H. by rewrite take_ge in H. }
  pose proof (failedTurns_inOrder errorText saved (ofTurns state) (failedTurns state) (userMessage state) _ (λ t Ht m Hm, or_introl (ex_intro _ t (conj Ht Hm))) H0) as H1.
  unfold turnsOnScreen. set (s1 := failedTurns_ _ _ _ _ _) in *. destruct (userMessage state) as [q|] eqn:Eq.
  2: { apply Hall; [by apply savedUpTo_inOrder|cbn; lia]. }
  case_bool_decide; [apply Hall; [by apply savedUpTo_inOrder|cbn; lia]|].
  assert (∀ m, ofTurn q (content state) m → ofTurns state m) as Ho by (intros m Hm; right; by exists q).
  set (at_ := match lastAsked q saved with Some i => _ | None => None end).
  set (s2 := savedUpTo saved (match at_ with Some i => i + 1 | None => _ end) s1).
  assert (inOrder saved (ofTurns state) s2) as H2 by by apply savedUpTo_inOrder.
  set (s3 := match at_ with Some _ => s2 | None => _ end).
  assert (inOrder saved (ofTurns state) s3) as H3 by (unfold s3; destruct at_; [done|apply push_inOrder; [by apply Ho|done]]).
  set (b := match at_ with Some i => _ | None => false end).
  assert (inOrder saved (ofTurns state) (savedUpTo saved (length saved) s3)) as H4 by by apply savedUpTo_inOrder.
  destruct b; [apply Hall; [done|cbn; lia]|]. apply Hall.
  - apply failure_inOrder; [intros m Hm; apply Ho; unfold ofTurn; by rewrite Hm|].
    apply answer_inOrder; [intros m Hm Hc; apply Ho; unfold ofTurn; by rewrite Hm|done].
  - rewrite shown_failure, shown_answer. cbn. lia.
Qed.

(** What a message looks like. *)
Definition face (m : DisplayMessage) : Role * text := (role m, m_content m).

(** The turn of a question stays on screen while it is saved: before its question is
    saved, after it is, and once its answer is too, the list ends with the same two
    bubbles under the messages before. *)
Theorem turn_stays errorText old q asked answered state saved :
  failedTurns state = [] → userMessage state = Some q → status state ≠ idle → savedBefore state = length old →
  error (ChatStream.failure state) = None → hasLetters (content state) || isStreaming state = true →
  face asked = (user, q) → face answered = (assistant, content state) →
  saved = old ∨ saved = old ++ [asked] ∨ saved = old ++ [asked; answered] ∧ (status state = completed ∨ status state = aborted) →
  face <$> turnsOnScreen errorText saved state = (face <$> old) ++ [(user, q); (assistant, content state)].
Proof.
  intros Hf Hq Hs Hb He Hl [= Har Hac] [= Hnr Hnc] Hsaved. unfold turnsOnScreen. rewrite Hf, Hq, Hb. cbn [failedTurns_ shown].
  rewrite bool_decide_false by done. rewrite Nat.max_0_l.
  assert (asks (Some asked) q = true) as Hasks by (unfold asks; by rewrite Har, Hac, !bool_decide_true).
  assert (asks (Some answered) q = false) as Hno by (unfold asks; by rewrite Hnr).
  unfold failure, answer. rewrite He, Hl. destruct Hsaved as [-> |[-> |[-> Hst]]].
  - replace (match lastAsked q old with Some i => _ | None => None end) with (@None nat).
    2: { destruct (lastAsked q old) as [i|] eqn:E; [|done]. apply lastAsked_lt in E. by rewrite (proj2 (Nat.leb_gt _ _)). }
    cbn -[Nat.max]. rewrite Nat.max_0_l, Nat.sub_0_r, Nat.sub_diag, drop_0, (take_ge old), app_nil_r by lia. by rewrite !fmap_app, <-app_assoc.
  - rewrite (lastAsked_app q old [asked] 0) by (cbn [lastAsked]; by rewrite Hasks). rewrite Nat.add_0_r, Nat.leb_refl.
    rewrite (lookup_ge_None_2 (old ++ [asked])) by (rewrite length_app; cbn; lia). cbn -[Nat.max length].
    rewrite length_app. cbn [length]. rewrite Nat.max_0_l, Nat.sub_0_r, Nat.sub_diag, drop_0, (take_ge (_ ++ _)), app_nil_r by (rewrite length_app; cbn; lia).
    rewrite !fmap_app, <-app_assoc. cbn. unfold face. by rewrite Har, Hac.
  - rewrite (lastAsked_app q old [asked; answered] 0) by (cbn [lastAsked]; by rewrite Hno, Hasks). rewrite Nat.add_0_r, Nat.leb_refl.
    rewrite lookup_app_r by lia. replace (length old + 1 - length old) with 1 by lia. cbn [lookup list_lookup]. rewrite Hnr.
    rewrite bool_decide_true by done. replace (bool_decide (status state = completed) || _) with true.
    2: { symmetry. apply orb_true_iff. rewrite !bool_decide_eq_true. naive_solver. }
    cbn -[Nat.max length]. rewrite length_app. cbn [length]. rewrite Nat.max_0_l, Nat.sub_0_r, take_take_drop, take_ge by (rewrite length_app; cbn; lia).
    rewrite fmap_app. cbn. unfold face. by rewrite Har, Hac, Hnr, Hnc.
Qed.

(** ** Concrete turns *)

Definition bubble (r : Role) (c : string) : DisplayMessage := {| role := r; m_content := utf16 c; m_toolCalls := None; pending := false |}.
Definition noWords (_ : Failure) : text := utf16 "failed".

Definition turnState (st : ChatStreamStatus) (turns : list FailedTurn) (savedBefore_ : nat) (q c : string) : ChatStreamState :=
  {| status := st; isStreaming := bool_decide (st = streaming); sessionId := Some "s1"; userMessage := Some (utf16 q); content := utf16 c; toolCalls := [];
     streamingPhase := None; ChatStream.failure := noFailure; savedBefore := savedBefore_; failedTurns := turns |}.

Definition earlier : list DisplayMessage := [bubble user "pods?"; bubble assistant "3 pods"].

Lemma turn_stays_witness :
  face <$> turnsOnScreen noWords (earlier ++ [bubble user "pods?"; bubble assistant "4 pods"]) (turnState completed [] 2 "pods?" "4 pods") =
  (face <$> earlier) ++ [(user, utf16 "pods?"); (assistant, utf16 "4 pods")].
Proof.
  apply (turn_stays noWords earlier (utf16 "pods?") (bubble user "pods?") (bubble assistant "4 pods")); try reflexivity; [discriminate|].
  right. right. split; [reflexivity|left; reflexivity].
Defined.

Definition refused (q : string) (before : nat) : FailedTurn :=
  {| question := utf16 q; ft_content := []; ft_toolCalls := []; ft_failure := {| error := Some (utf16 "HTTP 502"); errorKey := None; errorArgs := NoArgs |};
     stopped := false; askedAt := 0; ft_savedBefore := before |}.

(** A failed turn stays in its place above the turn after it. *)
Example failed_turn_in_place :
  face <$> turnsOnScreen noWords [bubble user "nodes?"; bubble assistant "2"] (turnState completed [refused "pods?" 0] 0 "nodes?" "2") =
  [(user, utf16 "pods?"); (error_, utf16 "failed"); (user, utf16 "nodes?"); (assistant, utf16 "2")].
Proof. by vm_compute. Qed.

(** A saved answer read while its letters are still typed is on screen twice. *)
Example answer_saved_while_typed :
  face <$> turnsOnScreen noWords [bubble user "pods?"; bubble assistant "3 pods"] (turnState streaming [] 0 "pods?" "3 p") =
  [(user, utf16 "pods?"); (assistant, utf16 "3 pods"); (assistant, utf16 "3 p")].
Proof. by vm_compute. Qed.
