(* ===== verification/Bindings.v ===== *)
(** * The bindings of a role and of a ServiceAccount

    resource-detail/role-info/referencedBy.ts and useReverseRoleBindings.ts: the
    bindings that grant a Role or ClusterRole, kept live by their watch; and
    resource-detail/service-account-info/useEffectivePermissions.ts: the bindings
    that apply to a ServiceAccount and the rules of their roles.

    The names of a binding are texts, which [===] compares.  The lists of the
    account come through the feeds of [ObjectRows]; what the query client answers of a
    role is an argument. *)

From stdpp Require Import sorting.
From S2P Require Import Prelude JsString OrderedMap Json WatchRows ObjectRows.

(** ** What grants a role *)

Inductive RoleKind := Role | ClusterRole.
Definition roleKindText (k : RoleKind) : string := match k with Role => "Role" | ClusterRole => "ClusterRole" end.

Definition subjectOf (s : value) : value :=
  VObj [("kind", s .@ "kind" ?? VNull); ("name", s .@ "name" ?? VNull); ("namespace", s .@ "namespace" ?? VNull)].

(** [None] is null. *)
Definition normalizeBinding (item : value) : option value :=
  if negb (truthy item) then None else
  let meta := item .@ "metadata" ?? item ?? VObj [] in
  let roleRef := item .@ "roleRef" ?? item .@ "role_ref" ?? VObj [] in
  let subjects := subjectOf <$> asArray (item .@ "subjects") in
  let name := meta .@ "name" ?? item .@ "name" in
  if negb (truthy name) then None else
  Some (VObj [("name", name); ("namespace", meta .@ "namespace" ?? item .@ "namespace" ?? VStr "");
              ("role_ref_kind", roleRef .@ "kind" ?? item .@ "role_ref_kind");
              ("role_ref_name", roleRef .@ "name" ?? item .@ "role_ref_name" ?? VStr "");
              ("subjects", VArr subjects);
              ("subjects_count", if truthy (VNum (vlength subjects)) then VNum (vlength subjects) else item .@ "subjects_count" |? VNum 0)]).

Definition bindingKey (b : value) : string := toString (b .@ "namespace") +:+ "/" +:+ toString (b .@ "name").

(** [key(a) < key(b) ? -1 : key(a) > key(b) ? 1 : 0]. *)
Definition keyLe (a b : value) : Prop := CRDs.textLe (bindingKey a) (bindingKey b).
#[export] Instance keyLe_dec : RelDecision keyLe.
Proof. intros a b. apply CRDs.textLe_dec. Defined.

Definition references (kind : RoleKind) (name : string) (b : value) : bool :=
  isStr (b .@ "role_ref_name") name && isStr (b .@ "role_ref_kind") (roleKindText kind).

Definition referencingBindings (items : list value) (kind : RoleKind) (name : string) : list value :=
  merge_sort keyLe (filterb (references kind name) (omap normalizeBinding items)).

(** [subjectsText]. *)
Definition subjectsText (subjects : list value) : string :=
  match subjects with
  | [] => "-"
  | _ => join ", " ((λ s, toString (s .@ "kind" |? VStr "?") +:+ "/" +:+ toString (s .@ "name" |? VStr "-")) <$> subjects)
  end.

(** The callback of the drawer's watch. *)
Definition bindingKeys (b : value) : string * string := (toString (b .@ "name"), toString (b .@ "namespace")).

Definition applyBindingEvent (prev : option (list value)) (event : value) : list value :=
  let items := default [] prev in
  match normalizeBinding (event .@ "object") with
  | None => items
  | Some normalized =>
      let idx := findIndex (sameKey bindingKeys (bindingKeys normalized)) items in
      if isStr (event .@ "type") "DELETED" then dropRow idx items else putRow idx normalized items
  end.

Definition bindingOp (event : value) : rowOp value (string * string) :=
  match normalizeBinding (event .@ "object") with
  | None => OpSkip
  | Some normalized => if isStr (event .@ "type") "DELETED" then OpDel (bindingKeys normalized) else OpPut normalized
  end.

Lemma applyBindingEvent_op prev event : applyBindingEvent prev event = applyOp bindingKeys (bindingOp event) (default [] prev).
Proof. unfold applyBindingEvent, bindingOp. destruct (normalizeBinding _); [|done]. by destruct (isStr _ _). Qed.

#[global] Program Instance BindingFeed : RowFeed value value (string * string) := {
  rowKey := bindingKeys;
  applyEvent := applyBindingEvent;
  specEvent e := specOp bindingKeys (bindingOp e)
}.
Next Obligation. intros. cbv beta. by rewrite !applyBindingEvent_op. Qed.
Next Obligation. intros. cbv beta. rewrite applyBindingEvent_op. by apply applyOp_refines. Qed.

(** The query's answer. *)
Definition reverseBindings (all : list value) : list value := omap normalizeBinding all.

(** A row as the drawer keeps it. *)
Definition isBinding (b : value) : Prop := normalizeBinding b = Some b.

Lemma subjectOf_idem s : subjectOf (subjectOf s) = subjectOf s.
Proof. unfold subjectOf. cbn. by destruct (s .@ "kind"), (s .@ "name"), (s .@ "namespace"). Qed.

(** The fields of a row, read again. *)
Lemma normalize_row n ns k r l c :
  truthy n = true →
  normalizeBinding (VObj [("name", n); ("namespace", ns); ("role_ref_kind", k); ("role_ref_name", r); ("subjects", VArr l); ("subjects_count", c)]) =
  Some (VObj [("name", n); ("namespace", ns ?? ns ?? VStr ""); ("role_ref_kind", k); ("role_ref_name", r ?? VStr "");
              ("subjects", VArr (subjectOf <$> l));
              ("subjects_count", if truthy (VNum (vlength (subjectOf <$> l))) then VNum (vlength (subjectOf <$> l)) else c |? VNum 0)]).
Proof.
  intros Hn. assert (n ?? n = n) as Hnn by by destruct n.
  transitivity (if negb (truthy (n ?? n)) then None else
    Some (VObj [("name", n ?? n); ("namespace", ns ?? ns ?? VStr ""); ("role_ref_kind", VUndef ?? k); ("role_ref_name", VUndef ?? r ?? VStr "");
              ("subjects", VArr (subjectOf <$> l));
              ("subjects_count", if truthy (VNum (vlength (subjectOf <$> l))) then VNum (vlength (subjectOf <$> l)) else c |? VNum 0)])); [done|].
  by rewrite Hnn, Hn, !coalesce_undef.
Qed.

Lemma normalizeBinding_row item b : normalizeBinding item = Some b → isBinding b.
Proof.
  unfold isBinding, normalizeBinding at 1. destruct (truthy item) eqn:Ei; [|done]. cbn [negb].
  set (name := _ .@ "name" ?? _). destruct (truthy name) eqn:En; [|done]. intros [= <-]. rewrite normalize_row by done.
  assert (subjectOf <$> (subjectOf <$> asArray (item .@ "subjects")) = subjectOf <$> asArray (item .@ "subjects")) as Hs.
  { rewrite <-list_fmap_compose. apply list_fmap_ext. intros ? ? _. apply subjectOf_idem. }
  assert (∀ x y z : value, (x ?? y ?? VStr "") ?? z = x ?? y ?? VStr "") as Ht by (intros x y z; by destruct x, y).
  rewrite Hs, !Ht. cbn [truthy]. unfold or_else. destruct (negb (vlength _ =? 0)%Z); [done|].
  destruct (truthy (item .@ "subjects_count")) eqn:Ec; [by rewrite Ec|done].
Qed.

Lemma normalizeBinding_named item b : normalizeBinding item = Some b → truthy (b .@ "name") = true.
Proof.
  unfold normalizeBinding. destruct (truthy item); [|done]. cbn [negb]. destruct (truthy (_ ?? _)) eqn:En; [|done]. by intros [= <-].
Qed.

Lemma normalize_rows rows : Forall isBinding rows → omap normalizeBinding rows = rows.
Proof. induction 1 as [|r rows Hr _ IH]; [done|]. cbn. by rewrite Hr, IH. Qed.

Lemma reverseBindings_rows all : Forall isBinding (reverseBindings all).
Proof.
  apply Forall_forall. intros b (item & _ & H)%list_elem_of_omap. by eapply normalizeBinding_row.
Qed.

(** Rows stay rows, whatever frames come. *)
Lemma applyBindingEvent_rows rows e : Forall isBinding rows → Forall isBinding (applyBindingEvent (Some rows) e).
Proof.
  intros H. unfold applyBindingEvent. cbn [default]. destruct (normalizeBinding _) as [b|] eqn:Eb; [|done].
  apply normalizeBinding_row in Eb. destruct (isStr _ _); [unfold dropRow|unfold putRow]; destruct (findIndex _ _); try done.
  - by apply Forall_delete.
  - by apply Forall_insert.
  - by apply Forall_app_2; [|apply Forall_singleton].
Qed.

(** The drawer's list, as its query and its watch bring it. *)
Definition bindingFrames : Feed value value → list (frame value) → Feed value value :=
  @applyFrames value value (string * string) _ _ BindingFeed.

Definition serverBindings : gmap (string * string) value → list value → gmap (string * string) value :=
  @serverRows value value (string * string) _ _ BindingFeed.

Lemma bindingFrames_rows ms s rows :
  cache s = Some rows → Forall isBinding rows → ∃ rows', cache (bindingFrames s ms) = Some rows' ∧ Forall isBinding rows'.
Proof.
  revert s rows. induction ms as [|m ms IH]; intros s rows Hs Hr; [by exists rows|]. unfold bindingFrames, applyFrames in *. cbn [foldl].
  destruct m as [e| | |]; cbn [applyWatchMessage]; try (by eapply IH).
  eapply IH; [cbn [cache]; rewrite Hs; done|]. by apply applyBindingEvent_rows.
Qed.

Lemma elem_rowsMap rows b : keysNoDup bindingKeys rows → b ∈ rows ↔ ∃ k, rowsMap bindingKeys rows !! k = Some b.
Proof.
  intros Hn. unfold rowsMap. split.
  - intros Hb. exists (bindingKeys b). apply elem_of_list_to_map_1.
    + by rewrite <-list_fmap_compose.
    + apply list_elem_of_fmap. by exists b.
  - intros [k Hk]. apply elem_of_list_to_map_2, list_elem_of_fmap in Hk as (x & [= -> ->] & Hx). done.
Qed.

#[local] Instance keyLe_total : Total keyLe.
Proof. intros a b. unfold keyLe, CRDs.textLe. destruct (String.leb_total (bindingKey a) (bindingKey b)) as [H|H]; [left|right]; apply H. Qed.

Lemma isStr_text s t : isStr (VStr s) t = eqs s t.
Proof. done. Qed.

Lemma keys_filterb (P : value → bool) rows : keysNoDup bindingKeys rows → NoDup (bindingKeys <$> filterb P rows).
Proof.
  unfold keysNoDup, filterb. induction rows as [|r rows IH]; [done|]. intros [Hr Hn]%NoDup_cons. cbn [List.filter].
  destruct (P r); [|by apply IH]. rewrite fmap_cons. apply NoDup_cons. split; [|by apply IH].
  intros (x & E & [Hin _]%elem_of_filterb)%list_elem_of_fmap. apply Hr, list_elem_of_fmap. by exists x.
Qed.

(** *** As the server keeps bindings

    A binding by its name and namespace (empty in a ClusterRoleBinding) and the role
    its [roleRef] names, by the role's kind and name.  It comes as an object of the
    Kubernetes API in the frames of the watch, and as an item of the list with its
    fields side by side. *)

Definition textOrNone (v : value) (t : string) : Prop := v = VStr t ∨ t = "" ∧ nullish v = true.

Inductive BindingOf : value → string * string → string * string → Prop :=
  | of_object o n ns rk rn :
      truthy o = true → nullish (o .@ "metadata") = false → nullish (o .@ "roleRef") = false →
      o .@ "metadata" .@ "name" = VStr n → n ≠ "" → o .@ "metadata" .@ "namespace" = VStr ns ∨ ns = "" ∧ nullish (o .@ "metadata" .@ "namespace") = true ∧ o .@ "namespace" = VUndef →
      o .@ "roleRef" .@ "kind" = VStr rk → o .@ "roleRef" .@ "name" = VStr rn → BindingOf o (n, ns) (rk, rn)
  | of_item o n ns rk rn :
      truthy o = true → o .@ "metadata" = VUndef → o .@ "roleRef" = VUndef → o .@ "role_ref" = VUndef →
      o .@ "name" = VStr n → n ≠ "" → textOrNone (o .@ "namespace") ns →
      o .@ "role_ref_kind" = VStr rk → o .@ "role_ref_name" = VStr rn → BindingOf o (n, ns) (rk, rn).

(** The table the server lists, and what its frames make of one. *)
Inductive Lists : list value → gmap (string * string) (string * string) → Prop :=
  | lists_none : Lists [] ∅
  | lists_one o k r items t : BindingOf o k r → t !! k = None → Lists items t → Lists (o :: items) (<[k:=r]> t).

Inductive Hears : gmap (string * string) (string * string) → list value → gmap (string * string) (string * string) → Prop :=
  | hears_none t : Hears t [] t
  | hears_put t t' e events k r :
      (e .@ "type" = VStr "ADDED" ∨ e .@ "type" = VStr "MODIFIED") → BindingOf (e .@ "object") k r →
      Hears (<[k:=r]> t) events t' → Hears t (e :: events) t'
  | hears_gone t t' e events k r :
      e .@ "type" = VStr "DELETED" → BindingOf (e .@ "object") k r → Hears (delete k t) events t' → Hears t (e :: events) t'.

(** A row the drawer keeps of it. *)
Definition RowOf (k r : string * string) (b : value) : Prop :=
  b .@ "name" = VStr k.1 ∧ b .@ "namespace" = VStr k.2 ∧ b .@ "role_ref_kind" = VStr r.1 ∧ b .@ "role_ref_name" = VStr r.2.

Lemma normalize_binding o k r : BindingOf o k r → ∃ b, normalizeBinding o = Some b ∧ RowOf k r b.
Proof.
  assert (∀ n : string, n ≠ "" → truthy (VStr n) = true) as Hnt by (by intros []).
  assert (∀ v w : value, nullish v = false → v ?? w = v) as Hc by (by intros []).
  intros [o' n ns rk rn Ht Hm Hr Hn Hne Hns Hk Hrn| o' n ns rk rn Ht Hm Hr Hr' Hn Hne Hns Hk Hrn]; unfold normalizeBinding; rewrite Ht; cbn [negb].
  - rewrite (Hc (_ .@ "metadata")), (Hc (_ .@ "roleRef")) by done. rewrite Hn, Hk, Hrn. change (VStr n ?? _) with (VStr n). rewrite (Hnt n Hne).
    eexists. split; [done|]. split_and!; [done| |done|done]. cbn -[coalesce].
    destruct Hns as [-> |(-> & Hnull & ->)]; [done|]. by destruct (_ .@ "namespace").
  - rewrite Hm, Hr, Hr', !coalesce_undef. rewrite (Hc o') by (by destruct o'). rewrite Hn. change (VStr n ?? VStr n) with (VStr n). rewrite (Hnt n Hne).
    eexists. split; [done|]. split_and!; [done| | |]; cbn -[coalesce].
    + destruct Hns as [-> |[-> Hnull]]; [done|]. by destruct (_ .@ "namespace").
    + by rewrite Hk.
    + by rewrite Hrn.
Qed.

(** Rows and the table they are of. *)
Definition Mirrors (m : gmap (string * string) value) (t : gmap (string * string) (string * string)) : Prop :=
  ∀ k, option_Forall2 (λ b r, RowOf k r b) (m !! k) (t !! k).

Lemma rowOf_key k r b : RowOf k r b → bindingKeys b = k.
Proof. intros (Hn & Hns & _). unfold bindingKeys. rewrite Hn, Hns. by destruct k. Qed.

Lemma mirrors_put m t k r b : Mirrors m t → RowOf k r b → Mirrors (<[k:=b]> m) (<[k:=r]> t).
Proof.
  intros H Hb k'. destruct (decide (k = k')) as [<-|Hk]; [rewrite !lookup_insert_eq; by constructor|]. rewrite !lookup_insert_ne by done. apply H.
Qed.

Lemma mirrors_gone m t k : Mirrors m t → Mirrors (delete k m) (delete k t).
Proof.
  intros H k'. destruct (decide (k = k')) as [<-|Hk]; [rewrite !lookup_delete_eq; by constructor|]. rewrite !lookup_delete_ne by done. apply H.
Qed.

Lemma lists_rows all t :
  Lists all t → keysNoDup bindingKeys (reverseBindings all) ∧ Mirrors (rowsMap bindingKeys (reverseBindings all)) t.
Proof.
  unfold keysNoDup, reverseBindings. induction 1 as [|o k r items t Ho Hk _ [IHn IHm]]; [split; [constructor|intros k; constructor]|].
  destruct (normalize_binding o k r Ho) as (b & Hb & Hrow). cbn [omap list_omap]. rewrite Hb. pose proof (rowOf_key _ _ _ Hrow) as Hkey. split.
  - cbn. apply NoDup_cons. split; [|done]. rewrite Hkey. apply rowsMap_None. specialize (IHm k). rewrite Hk in IHm. by inversion IHm.
  - rewrite rowsMap_cons, Hkey. by apply mirrors_put.
Qed.

Lemma hears_rows m t events t' : Hears t events t' → Mirrors m t → Mirrors (serverBindings m events) t'.
Proof.
  intros H. revert m. unfold serverBindings, serverRows. induction H as [t|t t' e events k r Ht Ho _ IH|t t' e events k r Ht Ho _ IH]; intros m Hm; [done| |];
    cbn [foldl]; apply IH; cbn [specEvent BindingFeed]; unfold bindingOp; destruct (normalize_binding _ k r Ho) as (b & -> & Hrow);
    pose proof (rowOf_key _ _ _ Hrow) as Hkey.
  - assert (isStr (e .@ "type") "DELETED" = false) as -> by (by destruct Ht as [-> | ->]). cbn [specOp]. rewrite Hkey. by apply mirrors_put.
  - rewrite Ht. cbn [specOp]. rewrite Hkey. by apply mirrors_gone.
Qed.

Lemma keyLe_row k r b k' r' b' :
  RowOf k r b → RowOf k' r' b' → keyLe b b' ↔ CRDs.textLe (k.2 +:+ "/" +:+ k.1) (k'.2 +:+ "/" +:+ k'.1).
Proof. intros (Hn & Hns & _) (Hn' & Hns' & _). unfold keyLe, bindingKey. by rewrite Hn, Hns, Hn', Hns'. Qed.

(** Rows that mirror a table, in order, by their names. *)
Lemma sorted_names (l : list value) (t : gmap (string * string) (string * string)) :
  (∀ b, b ∈ l → ∃ k r, RowOf k r b ∧ t !! k = Some r) → Sorted keyLe l →
  (λ b, (b .@ "name", b .@ "namespace")) <$> l = (λ k, (VStr k.1, VStr k.2)) <$> (bindingKeys <$> l) ∧
  Sorted (λ a b : string * string, CRDs.textLe (a.2 +:+ "/" +:+ a.1) (b.2 +:+ "/" +:+ b.1)) (bindingKeys <$> l).
Proof.
  intros Hrow Hs. induction Hs as [|b l Hs IH Hh]; [by split; [|constructor]|].
  destruct IH as [IHe IHs]; [by intros b' Hb'; apply Hrow; right|]. destruct (Hrow b) as (k & r & Hb & _); [left|].
  pose proof (rowOf_key _ _ _ Hb) as Hk. rewrite !fmap_cons, Hk. split.
  - rewrite IHe. f_equal. destruct Hb as (-> & -> & _). done.
  - constructor; [done|]. destruct Hh as [|b' l Hle]; constructor. destruct (Hrow b') as (k' & r' & Hb' & _); [right; left|].
    rewrite (rowOf_key _ _ _ Hb'). by apply (keyLe_row k r b k' r' b').
Qed.

(** C26. The bindings a role's window shows are the server's: whatever table the server
    lists and whatever the frames of the watch then make of it, the window shows the
    bindings of the table whose [roleRef] names a role of this kind and this name - a
    Role and a ClusterRole of one name are told apart - each once, in the order of the
    text [namespace/name]. *)
Theorem references_stay_current (s : Feed value value) early all t later t' kind name :
  cache s = None → Lists all t → Hears t (dataOf later) t' →
  ∃ rows names, cache (bindingFrames (listAnswered (reverseBindings all) (bindingFrames s early)) later) = Some rows ∧
    (λ b, (b .@ "name", b .@ "namespace")) <$> referencingBindings rows kind name = (λ k, (VStr k.1, VStr k.2)) <$> names ∧
    NoDup names ∧ Sorted (λ a b : string * string, CRDs.textLe (a.2 +:+ "/" +:+ a.1) (b.2 +:+ "/" +:+ b.1)) names ∧
    ∀ k, k ∈ names ↔ t' !! k = Some (match kind with Role => "Role" | ClusterRole => "ClusterRole" end, name).
Proof.
  intros Hs Hl Hh. destruct (lists_rows all t Hl) as [Hn Hmir]. set (s1 := listAnswered _ _).
  destruct (@applyFrames_some value value (string * string) _ _ BindingFeed later s1 (reverseBindings all) eq_refl Hn) as (rows & Hc & Hnd & Hm).
  destruct (bindingFrames_rows later s1 (reverseBindings all) eq_refl (reverseBindings_rows all)) as (rows' & Hc' & Hrows).
  unfold bindingFrames in *. rewrite Hc in Hc'. injection Hc' as <-. cbn [rowKey BindingFeed] in Hm, Hnd.
  assert (Mirrors (rowsMap bindingKeys rows) t') as Hmirror by (rewrite Hm; by eapply hears_rows).
  assert (∀ b, b ∈ rows → ∃ k r, RowOf k r b ∧ t' !! k = Some r) as Hall.
  { intros b (k & Hk)%(elem_rowsMap rows b Hnd). specialize (Hmirror k). rewrite Hk in Hmirror. inversion Hmirror; subst. by eauto. }
  pose proof (merge_sort_Permutation keyLe (filterb (references kind name) rows)) as Hp.
  assert (∀ b, b ∈ referencingBindings rows kind name ↔ references kind name b = true ∧ b ∈ rows) as Hin.
  { intros b. unfold referencingBindings. rewrite (normalize_rows rows), Hp, elem_of_filterb by done. tauto. }
  destruct (sorted_names (referencingBindings rows kind name) t') as [He Hsort].
  - intros b [_ Hb]%Hin. by apply Hall.
  - apply Sorted_merge_sort. apply _.
  - exists rows, (bindingKeys <$> referencingBindings rows kind name). split_and!; [done|done| |done|].
    + unfold referencingBindings. rewrite (normalize_rows rows), Hp by done. by apply keys_filterb.
    + intros k. rewrite list_elem_of_fmap. split.
      * intros (b & -> & [Hr Hb]%Hin). destruct (Hall b Hb) as (k & [rk rn] & Hrow & Ht). rewrite (rowOf_key _ _ _ Hrow), Ht.
        destruct Hrow as (_ & _ & Hk & Hrn). cbn [fst snd] in Hk, Hrn. unfold references in Hr. rewrite Hk, Hrn in Hr. apply andb_true_iff in Hr as [->%eqs_true ->%eqs_true]. by destruct kind.
      * intros Ht. specialize (Hmirror k). rewrite Ht in Hmirror. inversion Hmirror as [b r Hrow Hb E|]; subst. exists b.
        split; [symmetry; by apply (rowOf_key _ _ _ Hrow)|]. apply Hin. split; [|by apply (elem_rowsMap rows b Hnd); eauto].
        destruct Hrow as (_ & _ & Hk & Hrn). unfold references. rewrite Hk, Hrn. cbn [fst snd]. rewrite !isStr_text.
        apply andb_true_iff. rewrite !eqs_true. by destruct kind.
Qed.

(** ** What applies to a ServiceAccount *)

Inductive BindingKind := RoleBinding | ClusterRoleBinding.

Record NormalizedBinding := {
  kind : BindingKind; b_name : value; b_namespace : value; role_ref_kind : value; role_ref_name : value; subjects : list value; matched_by : list string
}.

Definition normalizeRb (item : value) (defaultKind : BindingKind) : option NormalizedBinding :=
  if negb (truthy item) then None else
  let meta := item .@ "metadata" ?? item ?? VObj [] in
  let roleRef := item .@ "roleRef" ?? item .@ "role_ref" ?? VObj [] in
  let name := meta .@ "name" ?? item .@ "name" in
  if negb (truthy name) then None else
  Some {| kind := defaultKind; b_name := name; b_namespace := meta .@ "namespace" ?? item .@ "namespace";
          role_ref_kind := roleRef .@ "kind" ?? item .@ "role_ref_kind" ?? VStr "";
          role_ref_name := roleRef .@ "name" ?? item .@ "role_ref_name" ?? VStr "";
          subjects := subjectOf <$> asArray (item .@ "subjects"); matched_by := [] |}.

Definition namesServiceAccount (s : value) (b : NormalizedBinding) (ns saName : string) : bool :=
  isStr (s .@ "kind") "ServiceAccount" && isStr (s .@ "name") saName && isStr (s .@ "namespace" |? b_namespace b) ns.

Definition includesServiceAccount (s : value) (ns saName : string) : bool :=
  if isStr (s .@ "kind") "User" then isStr (s .@ "name") ("system:serviceaccount:" +:+ ns +:+ ":" +:+ saName)
  else if isStr (s .@ "kind") "Group" then
    isStr (s .@ "name") "system:serviceaccounts" || isStr (s .@ "name") ("system:serviceaccounts:" +:+ ns)
  else false.

Definition matchedBy (b : NormalizedBinding) (m : list string) : NormalizedBinding :=
  {| kind := kind b; b_name := b_name b; b_namespace := b_namespace b; role_ref_kind := role_ref_kind b; role_ref_name := role_ref_name b;
     subjects := subjects b; matched_by := m |}.

(** A binding that applies, with why. *)
Definition applying (ns saName : string) (b : NormalizedBinding) : option NormalizedBinding :=
  let others := filterb (λ s, includesServiceAccount s ns saName) (subjects b) in
  let direct := some (λ s, namesServiceAccount s b ns saName) (subjects b) in
  if negb direct && bool_decide (others = []) then None
  else Some (matchedBy b (if direct then [] else (λ s, toString (s .@ "kind") +:+ " " +:+ toString (s .@ "name")) <$> others)).

Definition matched (l : value) (k : BindingKind) (ns saName : string) : list NormalizedBinding :=
  omap (applying ns saName) (omap (λ b, normalizeRb b k) (asArray l)).

Definition serviceAccountBindings (rbList crbList : value) (ns saName : string) : list NormalizedBinding :=
  matched rbList RoleBinding ns saName ++ matched crbList ClusterRoleBinding ns saName.

(** *** As the API server reads a binding

    The documented authorizer: the account's user name and groups, and whether a
    subject is one of them. *)

Definition userName (ns saName : string) : string := "system:serviceaccount:" +:+ ns +:+ ":" +:+ saName.
Definition groupsOf (ns : string) : list string := ["system:serviceaccounts"; "system:serviceaccounts:" +:+ ns; "system:authenticated"].

(** [bindingNs] is the binding's, empty in a ClusterRoleBinding. *)
Definition appliesToUser (subjectKind subjectName subjectNs bindingNs : string) (ns saName : string) : Prop :=
  (subjectKind = "User" ∧ subjectName = userName ns saName) ∨
  (subjectKind = "Group" ∧ subjectName ∈ groupsOf ns) ∨
  (subjectKind = "ServiceAccount" ∧
   let home := if nonempty subjectNs then subjectNs else bindingNs in home ≠ "" ∧ userName home subjectName = userName ns saName).

(** The group of every signed-in user, account or not. *)
Definition everyone (k n : string) : Prop := k = "Group" ∧ n = "system:authenticated".

(** A subject of texts, its namespace perhaps missing. *)
Definition plainSubject (s : value) (k n ns : string) : Prop :=
  s .@ "kind" = VStr k ∧ s .@ "name" = VStr n ∧ (s .@ "namespace" = VStr ns ∨ ns = "" ∧ nullish (s .@ "namespace") = true).

Definition namespaceText (b : NormalizedBinding) (ns : string) : Prop := b_namespace b = VStr ns ∨ ns = "" ∧ nullish (b_namespace b) = true.

Lemma userName_inj ns n ns' n' : free_of ":" ns → free_of ":" ns' → userName ns n = userName ns' n' → ns = ns' ∧ n = n'.
Proof.
  unfold userName. intros H H' E. apply (f_equal (sdrop (String.length "system:serviceaccount:"))) in E. rewrite !sdrop_app in E.
  exact (free_prefix_inj ":" ns ns' n n' H H' E).
Qed.

Lemma subject_applies s b k n sns bns ns saName :
  plainSubject s k n sns → namespaceText b bns → ns ≠ "" → free_of ":" ns → free_of ":" sns → free_of ":" bns →
  namesServiceAccount s b ns saName || includesServiceAccount s ns saName = true ↔ appliesToUser k n sns bns ns saName ∧ ¬ everyone k n.
Proof.
  intros (Hk & Hn & Hs) Hb Hne Fns Fs Fb. unfold namesServiceAccount, includesServiceAccount, appliesToUser, everyone. rewrite Hk, Hn, !isStr_text.
  rewrite orb_true_iff, !andb_true_iff, !eqs_true. fold (userName ns saName). unfold groupsOf.
  assert (isStr (s .@ "namespace" |? b_namespace b) ns = true ↔ (if nonempty sns then sns else bns) = ns) as Hof.
  { assert (isStr (b_namespace b) ns = true ↔ bns = ns) as Hbn.
    { destruct Hb as [-> |[-> Hnull]]; [by rewrite isStr_text, eqs_true|]. destruct (b_namespace b); try done; (split; [done|by intros <-]). }
    unfold or_else. destruct Hs as [-> |[-> Hnull]].
    - cbn [truthy]. destruct (nonempty sns) eqn:E; [by rewrite isStr_text, eqs_true|exact Hbn].
    - rewrite (nullish_truthy _ Hnull). exact Hbn. }
  rewrite Hof. clear Hof Hk Hn Hs Hb. set (home := if nonempty sns then sns else bns).
  assert (free_of ":" home) as Fof by (unfold home; by destruct (nonempty sns)).
  assert ((k = "ServiceAccount" ∧ home ≠ "" ∧ userName home n = userName ns saName) ↔ (k = "ServiceAccount" ∧ n = saName) ∧ home = ns) as ->.
  { split.
    - intros (? & _ & E). apply userName_inj in E as [-> ->]; done.
    - intros [[? ->] ->]. done. }
  destruct (eqs k "User") eqn:Eu.
  { apply eqs_true in Eu as ->. rewrite eqs_true. split; [intros [[[H1 _] _]|H1]; [done|by split; [left|intros [? _]]]|].
    intros [[[_ H1]|[[H1 _]|[[H1 _] _]]] _]; [by right|done|done]. }
  apply eqs_false in Eu. destruct (eqs k "Group") eqn:Eg.
  { apply eqs_true in Eg as ->. rewrite orb_true_iff, !eqs_true, !elem_of_cons. split.
    - intros [[[H1 _] _]|H1]; [done|]. split; [right; left; split; [done|destruct H1; by auto]|]. intros [_ ->]. by destruct H1.
    - intros [[[H1 _]|[[_ H1]|[[H1 _] _]]] Hev]; [done| |done]. right. destruct H1 as [H1|[H1|[H1|[]%elem_of_nil]]]; [by left|by right|].
      exfalso. by apply Hev. }
  apply eqs_false in Eg. split.
  - intros [H1|H1]; [|done]. split; [by right; right|]. by intros [? _].
  - intros [[[H1 _]|[[H1 _]|H1]] _]; [done|done|by left].
Qed.

(** A binding as the API server validates it: texts, and namespaces without a colon. *)
Definition plainBinding (b : NormalizedBinding) : Prop :=
  ∃ bns, namespaceText b bns ∧ free_of ":" bns ∧ ∀ s, s ∈ subjects b → ∃ k n sns, plainSubject s k n sns ∧ free_of ":" sns.

(** A binding with a subject [who] (by its kind and name) that applies to the account:
    any subject there is, one other than the group of every signed-in user, or that
    group. *)
Definition appliesBy (who : string → string → Prop) (ns saName : string) (b : NormalizedBinding) : Prop :=
  ∃ s k n sns bns, s ∈ subjects b ∧ plainSubject s k n sns ∧ namespaceText b bns ∧ appliesToUser k n sns bns ns saName ∧ who k n.

Definition grantsTo : string → string → NormalizedBinding → Prop := appliesBy (λ _ _, True).
Definition grantsAsAccount : string → string → NormalizedBinding → Prop := appliesBy (λ k n, ¬ everyone k n).
Definition grantsEveryone : string → string → NormalizedBinding → Prop := appliesBy everyone.

Lemma grants_either ns saName b : grantsTo ns saName b ↔ grantsAsAccount ns saName b ∨ grantsEveryone ns saName b.
Proof.
  split.
  - intros (s & k & n & sns & bns & H1 & H2 & H3 & H4 & _). assert (Decision (everyone k n)) as [He|He] by apply _; [right|left]; by exists s, k, n, sns, bns.
  - by intros [(s & k & n & sns & bns & H1 & H2 & H3 & H4 & _)|(s & k & n & sns & bns & H1 & H2 & H3 & H4 & _)]; exists s, k, n, sns, bns.
Qed.

Definition allBindings (rbList crbList : value) : list NormalizedBinding :=
  omap (λ b, normalizeRb b RoleBinding) (asArray rbList) ++ omap (λ b, normalizeRb b ClusterRoleBinding) (asArray crbList).

Lemma normalizeRb_unmatched item k b : normalizeRb item k = Some b → matchedBy b [] = b.
Proof. unfold normalizeRb. destruct (truthy item); [|done]. cbn [negb]. destruct (truthy (_ ?? _)); [|done]. by intros [= <-]. Qed.

Lemma allBindings_unmatched rb crb b : b ∈ allBindings rb crb → matchedBy b [] = b.
Proof. unfold allBindings. rewrite elem_of_app. intros [H|H]; apply list_elem_of_omap in H as (i & _ & H); by eapply normalizeRb_unmatched. Qed.

Lemma bindings_of_all rb crb ns saName : serviceAccountBindings rb crb ns saName = omap (applying ns saName) (allBindings rb crb).
Proof. unfold serviceAccountBindings, matched, allBindings. by rewrite omap_app. Qed.

Lemma optional_text v a b :
  v = VStr a ∨ a = "" ∧ nullish v = true → v = VStr b ∨ b = "" ∧ nullish v = true → a = b.
Proof. by intros [-> |[-> Ha]] [[= ->]|[-> Hb]]. Qed.

Lemma applying_iff b ns saName :
  plainBinding b → ns ≠ "" → free_of ":" ns → is_Some (applying ns saName b) ↔ grantsAsAccount ns saName b.
Proof.
  intros (bns & Hb & Fb & Hs) Hne Fns. unfold applying.
  assert (some (λ s, namesServiceAccount s b ns saName || includesServiceAccount s ns saName) (subjects b) = true ↔ grantsAsAccount ns saName b) as <-.
  { rewrite some_true. unfold grantsAsAccount, appliesBy. split.
    - intros (s & Hin & H). destruct (Hs s Hin) as (k & n & sns & Hp & Fs). exists s, k, n, sns, bns.
      by destruct (proj1 (subject_applies s b k n sns bns ns saName Hp Hb Hne Fns Fs Fb) H).
    - intros (s & k & n & sns & bns' & Hin & Hp & Hb' & H). exists s. split; [done|].
      assert (bns' = bns) as ->. { exact (optional_text _ _ _ Hb' Hb). }
      destruct (Hs s Hin) as (k' & n' & sns' & (E1 & E2 & E3) & Fs). pose proof Hp as (E1' & E2' & E3').
      assert (k' = k ∧ n' = n ∧ sns' = sns) as (-> & -> & ->).
      { rewrite E1 in E1'. rewrite E2 in E2'. injection E1' as ->. injection E2' as ->. split_and!; [done..|]. exact (optional_text _ _ _ E3 E3'). }
      by apply (subject_applies s b k n sns bns). }
  set (others := filterb _ _). destruct (some (λ s, namesServiceAccount s b ns saName) (subjects b)) eqn:Ed; cbn [negb andb].
  - split; [intros _|by eexists]. apply some_true in Ed as (s & Hin & H). apply some_true. exists s. split; [done|]. by rewrite H.
  - case_bool_decide as Eo.
    + split; [by intros []|]. intros (s & Hin & H)%some_true. exfalso. apply orb_true_iff in H as [H|H].
      * apply not_true_iff_false in Ed. apply Ed, some_true. by exists s.
      * assert (s ∈ others) as Hs' by (by apply elem_of_filterb). rewrite Eo in Hs'. by apply elem_of_nil in Hs'.
    + split; [intros _|by eexists]. destruct others as [|s l] eqn:E; [done|]. assert (s ∈ others) as [Hin H]%elem_of_filterb by (rewrite E; left).
      apply some_true. exists s. split; [done|]. by rewrite H, orb_true_r.
Qed.

Lemma names_account s b ns saName :
  namesServiceAccount s b ns saName = true ↔
  s .@ "kind" = VStr "ServiceAccount" ∧ s .@ "name" = VStr saName ∧ (if truthy (s .@ "namespace") then s .@ "namespace" else b_namespace b) = VStr ns.
Proof. unfold namesServiceAccount, or_else. rewrite !andb_true_iff, !isStr_true. tauto. Qed.

Lemma applying_same b ns saName b' : applying ns saName b = Some b' → matchedBy b' [] = matchedBy b [].
Proof. unfold applying. destruct (_ && _); [done|]. by intros [= <-]. Qed.

(** C27. The bindings listed for a ServiceAccount are those the API server applies to it as
    a ServiceAccount, in their lists' order: those with a subject that is its user, the
    account itself or one of its groups, the group [system:authenticated] of every
    signed-in user apart, which the hook leaves out on purpose.  So a binding that
    grants the account anything is listed or does so by that group, and none that
    does not is shown; one that names the account itself is told apart. *)
Theorem account_bindings_apply rb crb ns saName :
  ns ≠ "" → free_of ":" ns → Forall plainBinding (allBindings rb crb) →
  (λ b, matchedBy b []) <$> serviceAccountBindings rb crb ns saName `sublist_of` allBindings rb crb ∧
  (∀ b, b ∈ allBindings rb crb →
    (b ∈ (λ b, matchedBy b []) <$> serviceAccountBindings rb crb ns saName ↔ grantsAsAccount ns saName b) ∧
    (grantsTo ns saName b ↔ b ∈ (λ b, matchedBy b []) <$> serviceAccountBindings rb crb ns saName ∨ grantsEveryone ns saName b)) ∧
  ∀ b, b ∈ serviceAccountBindings rb crb ns saName →
    matched_by b = [] ↔ ∃ s, s ∈ subjects b ∧ s .@ "kind" = VStr "ServiceAccount" ∧ s .@ "name" = VStr saName ∧
      (if truthy (s .@ "namespace") then s .@ "namespace" else b_namespace b) = VStr ns.
Proof.
  intros Hne Fns Hp. rewrite bindings_of_all. pose proof (allBindings_unmatched rb crb) as Hu. set (all := allBindings rb crb) in *. split_and!.
  - clear Hp. induction all as [|b all IH]; [done|]. cbn [omap list_omap]. assert (matchedBy b [] = b) as Hb by (apply Hu; left).
    assert (∀ b, b ∈ all → matchedBy b [] = b) as Hu' by (intros b' Hb'; apply Hu; by right). specialize (IH Hu').
    destruct (applying ns saName b) as [b'|] eqn:E; [|by apply sublist_cons]. cbn. rewrite (applying_same _ _ _ _ E), Hb. by apply sublist_skip.
  - intros b Hb. rewrite Forall_forall in Hp.
    assert (b ∈ (λ b, matchedBy b []) <$> omap (applying ns saName) all ↔ grantsAsAccount ns saName b) as Hiff; [|split; [done|by rewrite grants_either, Hiff]].
    rewrite <-(applying_iff b ns saName (Hp b Hb) Hne Fns). rewrite list_elem_of_fmap. split.
    + intros (b' & E & (b0 & Hb0 & Ea)%list_elem_of_omap). rewrite (applying_same _ _ _ _ Ea), (Hu b0 Hb0) in E. subst. by eexists.
    + intros [b' Ea]. exists b'. split; [by rewrite (applying_same _ _ _ _ Ea), Hu|]. apply list_elem_of_omap. by exists b.
  - intros b (b0 & _ & Ea)%list_elem_of_omap. unfold applying in Ea. setoid_rewrite <-names_account. rewrite <-some_true.
    destruct (some (λ s, namesServiceAccount s b0 ns saName) (subjects b0)) eqn:Ed; cbn [negb andb] in Ea.
    + injection Ea as <-. cbn [matched_by subjects matchedBy]. split; [intros _|done]. exact Ed.
    + case_bool_decide as Eo; [done|]. injection Ea as <-. cbn [matched_by subjects matchedBy]. split.
      * intros H%fmap_nil_inv. done.
      * intros H. change (some (λ s, namesServiceAccount s b0 ns saName) (subjects b0) = true) in H. congruence.
Qed.

(** ** The rules of the bound roles *)

Inductive RoleKey := OfClusterRole (name : value) | OfRole (namespace name : value).

Record RoleQuery := { q_data : value; isLoading : bool; q_error : option string }.

Record RuleEntry := { apiGroups : list value; resources : list value; verbs : list value; resourceNames : option (list value) }.

Definition normalizeRule (r : value) : RuleEntry :=
  {| apiGroups := if isArray (r .@ "apiGroups") then asArray (r .@ "apiGroups") else asArray (r .@ "api_groups");
     resources := asArray (r .@ "resources"); verbs := asArray (r .@ "verbs");
     resourceNames := match r .@ "resourceNames", r .@ "resource_names" with VArr l, _ => Some l | _, VArr l => Some l | _, _ => None end |}.

Definition normalizeRules (rulesRaw : value) : list RuleEntry := normalizeRule <$> asArray rulesRaw.

Definition roleKindOf (b : NormalizedBinding) : RoleKind := if isStr (role_ref_kind b) "ClusterRole" then ClusterRole else Role.

Definition roleKeyOf (b : NormalizedBinding) : RoleKey :=
  match roleKindOf b with
  | ClusterRole => OfClusterRole (role_ref_name b)
  | Role => OfRole (b_namespace b ?? VStr "") (role_ref_name b)
  end.

Record BoundRole := { binding : NormalizedBinding; role_kind : RoleKind; role_namespace : value; rules : list RuleEntry; loading : bool; b_error : option string }.

Record EffectivePermissions := { bound : list BoundRole; anyLoading : bool; unreadable_kinds : list BindingKind; forbidden : bool }.

(** [query] is the client's result of a role's key; an error is its status. *)
Definition useEffectivePermissions (query : RoleKey → RoleQuery) (rbList crbList : value) (rbError crbError : option Z) (ns saName : string) : EffectivePermissions :=
  let allMatched := serviceAccountBindings rbList crbList ns saName in
  let failed := filterb (λ f : BindingKind * option Z, match f.2 with Some _ => true | None => false end) [(RoleBinding, rbError); (ClusterRoleBinding, crbError)] in
  {| bound := (λ b, let q := query (roleKeyOf b) in
                {| binding := b; role_kind := roleKindOf b;
                   role_namespace := match roleKindOf b with ClusterRole => VUndef | Role => b_namespace b ?? VUndef end;
                   rules := if truthy (q_data q) then normalizeRules (q_data q .@ "rules") else [];
                   loading := isLoading q; b_error := q_error q |}) <$> allMatched;
     anyLoading := some (λ b, isLoading (query (roleKeyOf b))) allMatched;
     unreadable_kinds := failed.*1;
     forbidden := some (λ f, bool_decide (f.2 = Some 403%Z)) failed |}.

(** What is shown is whole when nothing is loading, unreadable or in error: then the
    rules of the account are those of the roles its bindings name. *)
Lemma rules_of_account query rb crb rbError crbError ns saName r :
  let e := useEffectivePermissions query rb crb rbError crbError ns saName in
  (∃ b, b ∈ bound e ∧ r ∈ rules b) ↔
  ∃ b, b ∈ serviceAccountBindings rb crb ns saName ∧ truthy (q_data (query (roleKeyOf b))) = true ∧
    r ∈ normalizeRules (q_data (query (roleKeyOf b)) .@ "rules").
Proof.
  cbn. split.
  - intros (x & (b & -> & Hb)%list_elem_of_fmap & Hr). exists b. split; [done|]. cbn [rules] in Hr. destruct (truthy _); [done|by apply elem_of_nil in Hr].
  - intros (b & Hb & Ht & Hr). eexists. split; [apply list_elem_of_fmap; by exists b|]. cbn [rules]. by rewrite Ht.
Qed.

(** ** Concrete bindings *)

Definition sampleBinding (name role : string) (subject : value) : value :=
  VObj [("metadata", VObj [("name", VStr name); ("namespace", VStr "prod")]);
        ("roleRef", VObj [("kind", VStr "Role"); ("name", VStr role)]); ("subjects", VArr [subject])].

Definition account (n : string) : value := VObj [("kind", VStr "ServiceAccount"); ("name", VStr n)].
Definition everyAccount : value := VObj [("kind", VStr "Group"); ("name", VStr "system:serviceaccounts:prod")].
Definition sampleList : value := VArr [sampleBinding "a" "read" (account "web"); sampleBinding "b" "read" (account "db"); sampleBinding "c" "log" everyAccount].

Definition listedBinding (name role : string) : value :=
  VObj [("name", VStr name); ("namespace", VStr "prod"); ("role_ref_kind", VStr "Role"); ("role_ref_name", VStr role)].
Definition deletedBinding (name role : string) : value :=
  VObj [("type", VStr "DELETED"); ("object", sampleBinding name role (account "web"))].

Lemma references_stay_current_witness :
  ∃ t t', Lists [listedBinding "b" "read"; listedBinding "a" "read"; listedBinding "c" "log"] t ∧
    Hears t [deletedBinding "a" "read"; VObj [("type", VStr "ADDED"); ("object", sampleBinding "d" "read" (account "web"))]] t' ∧
    t' !! ("d", "prod") = Some ("Role", "read") ∧ t' !! ("a", "prod") = None ∧
    ∃ rows names, cache (bindingFrames (listAnswered (reverseBindings [listedBinding "b" "read"; listedBinding "a" "read"; listedBinding "c" "log"])
        (bindingFrames {| cache := None; invalidated := 0; onResync := 0; onEvent := [] |} []))
        [DATA (deletedBinding "a" "read"); DATA (VObj [("type", VStr "ADDED"); ("object", sampleBinding "d" "read" (account "web"))])]) = Some rows ∧
      (λ b, (b .@ "name", b .@ "namespace")) <$> referencingBindings rows Role "read" = (λ k, (VStr k.1, VStr k.2)) <$> names ∧
      NoDup names ∧ Sorted (λ a b : string * string, CRDs.textLe (a.2 +:+ "/" +:+ a.1) (b.2 +:+ "/" +:+ b.1)) names ∧
      ∀ k, k ∈ names ↔ t' !! k = Some ("Role", "read").
Proof.
  set (t := <[("b", "prod"):=("Role", "read")]> (<[("a", "prod"):=("Role", "read")]> (<[("c", "prod"):=("Role", "log")]> (∅ : gmap (string * string) (string * string))))).
  assert (Lists [listedBinding "b" "read"; listedBinding "a" "read"; listedBinding "c" "log"] t) as Hl.
  { repeat (apply lists_one; [apply of_item; try reflexivity; [discriminate|by left]|reflexivity|]). constructor. }
  assert (Hears t [deletedBinding "a" "read"; VObj [("type", VStr "ADDED"); ("object", sampleBinding "d" "read" (account "web"))]]
      (<[("d", "prod"):=("Role", "read")]> (delete ("a", "prod") t))) as Hh.
  { eapply hears_gone; [reflexivity|apply of_object; try reflexivity; [discriminate|by left]|].
    eapply hears_put; [by left|apply of_object; try reflexivity; [discriminate|by left]|]. constructor. }
  exists t, (<[("d", "prod"):=("Role", "read")]> (delete ("a", "prod") t)). split; [exact Hl|]. split; [exact Hh|]. split; [reflexivity|]. split; [reflexivity|].
  exact (references_stay_current {| cache := None; invalidated := 0; onResync := 0; onEvent := [] |} [] _ t
    [DATA (deletedBinding "a" "read"); DATA (VObj [("type", VStr "ADDED"); ("object", sampleBinding "d" "read" (account "web"))])] _ Role "read" eq_refl Hl Hh).
Defined.

Definition everyUser : value := VObj [("kind", VStr "Group"); ("name", VStr "system:authenticated")].
Definition sampleLists : value :=
  VArr [sampleBinding "a" "read" (account "web"); sampleBinding "b" "read" (account "db"); sampleBinding "c" "log" everyAccount; sampleBinding "d" "log" everyUser].

Lemma account_bindings_apply_witness :
  (λ b, matchedBy b []) <$> serviceAccountBindings sampleLists VUndef "prod" "web" `sublist_of` allBindings sampleLists VUndef ∧
  (b_name <$> serviceAccountBindings sampleLists VUndef "prod" "web") = [VStr "a"; VStr "c"].
Proof.
  assert (Forall plainBinding (allBindings sampleLists VUndef)) as Hp.
  { repeat (apply Forall_cons; split;
      [exists "prod"; split; [by left|]; split; [by vm_compute|]; intros s Hs; apply list_elem_of_singleton in Hs as ->;
       (eexists _, _, ""; split; [split; [reflexivity|]; split; [reflexivity|by right]|by vm_compute])|]). by apply Forall_nil_2. }
  split; [|reflexivity].
  exact (proj1 (account_bindings_apply sampleLists VUndef "prod" "web" ltac:(discriminate) ltac:(by vm_compute) Hp)).
Defined.

(** Why a binding applies, and what references a role. *)
Example why_it_applies :
  matched_by <$> serviceAccountBindings sampleList VUndef "prod" "web" = [[]; ["Group system:serviceaccounts:prod"]] ∧
  (λ b, b .@ "name") <$> referencingBindings (reverseBindings (asArray sampleList)) Role "read" = [VStr "a"; VStr "b"].
Proof. by vm_compute. Qed.
