(* ===== verification/Setup.v ===== *)
(** * Connecting a cluster

    pages/setup/useClusterSubmit.ts: the set-up page saves a kubeconfig, waits for the
    servers to roll out and for the cluster to answer, and goes on.

    The hook's state and refs are a [Setup]; a [Poller] is one run of its polling
    effect, with the closure it keeps and what it waits for.  A turn of the code is a
    step, and the effects of the state it set run at its end ([settle]).  Times are
    milliseconds; the words of an error are arguments of the page and left out. *)

From S2P Require Import Prelude.

#[local] Open Scope Z_scope.

Inductive StepPhase := validate | save | rollout | connect.
#[export] Instance StepPhase_dec : EqDecision StepPhase.
Proof. solve_decision. Defined.

(** What a run of [poll] waits for. *)
Inductive Waits := AsksRollout | AsksHealth | Sleeps (due : Z) | Finished.

Record Poller := { cancelled : bool; startedAt : Z; rolloutDone : bool; waits : Waits }.

(** The mutation: its pause before the request, the request. *)
Inductive Mutation := Idle | Pauses (due : Z) | Submits.

(** Why an error shows. *)
Inductive SetupError := Refused | TimedOut.

Record Setup := {
  error : option SetupError; isApplying : bool; currentStep : option StepPhase; completedSteps : list StepPhase;
  navigating : bool; mutation : Mutation; polling : bool; effect : option nat; pollers : list Poller;
  leaving : list Z; connected : nat; submitted : nat
}.

Definition timeoutMs : Z := 120000.
Definition intervalMs : Z := 3000.

Definition newSetup : Setup :=
  {| error := None; isApplying := false; currentStep := None; completedSteps := []; navigating := false; mutation := Idle; polling := false;
     effect := None; pollers := []; leaving := []; connected := 0; submitted := 0 |}.

(** [setIsApplying] and [setCurrentStep], [pollingRef.current = false] where the code says so. *)
Definition goTo (applying : bool) (st : option StepPhase) (s : Setup) : Setup :=
  {| error := error s; isApplying := applying; currentStep := st; completedSteps := completedSteps s; navigating := navigating s; mutation := mutation s;
     polling := polling s; effect := effect s; pollers := pollers s; leaving := leaving s; connected := connected s; submitted := submitted s |}.

Definition withError (e : option SetupError) (done_ : list StepPhase) (s : Setup) : Setup :=
  {| error := e; isApplying := isApplying s; currentStep := currentStep s; completedSteps := done_; navigating := navigating s; mutation := mutation s;
     polling := polling s; effect := effect s; pollers := pollers s; leaving := leaving s; connected := connected s; submitted := submitted s |}.

Definition withMutation (m : Mutation) (s : Setup) : Setup :=
  {| error := error s; isApplying := isApplying s; currentStep := currentStep s; completedSteps := completedSteps s; navigating := navigating s; mutation := m;
     polling := polling s; effect := effect s; pollers := pollers s; leaving := leaving s; connected := connected s; submitted := submitted s |}.

Definition withPollers (ref : bool) (current : option nat) (ps : list Poller) (s : Setup) : Setup :=
  {| error := error s; isApplying := isApplying s; currentStep := currentStep s; completedSteps := completedSteps s; navigating := navigating s; mutation := mutation s;
     polling := ref; effect := current; pollers := ps; leaving := leaving s; connected := connected s; submitted := submitted s |}.

Definition withLeaving (l : list Z) (n : nat) (s : Setup) : Setup :=
  {| error := error s; isApplying := isApplying s; currentStep := currentStep s; completedSteps := completedSteps s; navigating := navigating s; mutation := mutation s;
     polling := polling s; effect := effect s; pollers := pollers s; leaving := l; connected := n; submitted := submitted s |}.

Definition counted (s : Setup) : Setup :=
  {| error := error s; isApplying := isApplying s; currentStep := currentStep s; completedSteps := completedSteps s; navigating := navigating s; mutation := mutation s;
     polling := polling s; effect := effect s; pollers := pollers s; leaving := leaving s; connected := connected s; submitted := S (submitted s) |}.

Definition markComplete (p : StepPhase) (s : Setup) : Setup :=
  withError (error s) (if bool_decide (p ∈ completedSteps s) then completedSteps s else completedSteps s ++ [p]) s.

(** ** Polling *)

Definition waitFor (w : Waits) (p : Poller) : Poller := {| cancelled := cancelled p; startedAt := startedAt p; rolloutDone := rolloutDone p; waits := w |}.
Definition setPoller (i : nat) (p : Poller) (s : Setup) : Setup := withPollers (polling s) (effect s) (<[i:=p]> (pollers s)) s.

(** [poll()] up to what it asks first. *)
Definition poll (leavingPage : bool) (p : Poller) : Poller :=
  waitFor (if cancelled p || leavingPage then Finished else if rolloutDone p then AsksHealth else AsksRollout) p.

(** The end of a round: the timeout, or the timer of the next. *)
Definition endOfRound (i : nat) (p : Poller) (now : Z) (s : Setup) : Setup :=
  if timeoutMs <=? now - startedAt p then
    let s := setPoller i (waitFor Finished p) s in
    if cancelled p then s
    else withError (Some TimedOut) (completedSteps s) (withPollers false (effect s) (pollers s) (goTo false None s))
  else setPoller i (waitFor (if cancelled p then Finished else Sleeps (now + intervalMs)) p) s.

(** ** The effect *)

Definition cancelPoller (p : Poller) : Poller :=
  {| cancelled := true; startedAt := startedAt p; rolloutDone := rolloutDone p; waits := match waits p with Sleeps _ => Finished | w => w end |}.

Definition cleanup (s : Setup) : Setup :=
  match effect s with
  | Some i => withPollers false None (alter cancelPoller i (pollers s)) s
  | None => s
  end.

Definition runEffect (now : Z) (s : Setup) : Setup :=
  if negb (isApplying s) then s else
  match currentStep s with
  | Some ((rollout | connect) as st) =>
      if navigating s then s else if polling s then s else
      let p := {| cancelled := false; startedAt := now; rolloutDone := bool_decide (st = connect); waits := Finished |} in
      withPollers true (Some (length (pollers s))) (pollers s ++ [poll (navigating s) p]) s
  | _ => s
  end.

(** The render after a turn: the effect runs again when what it depends on changed. *)
Definition settle (now : Z) (before after : Setup) : Setup :=
  if bool_decide (isApplying before = isApplying after ∧ currentStep before = currentStep after) then after
  else runEffect now (cleanup after).

(** ** What happens *)

Inductive Answer := Yes | No | Fails.

Inductive Event :=
  | Clicks (canSubmit : bool)
  | PauseEnds
  | Saved (ok : bool)
  | RolloutAnswered (i : nat) (a : Answer)
  | HealthAnswered (i : nat) (a : Answer)
  | Wakes (i : nat)
  | LeavesPage (k : nat)
  | Navigates.

Definition isBusy (s : Setup) : bool := match mutation s with Idle => isApplying s | _ => true end.

(** The turn of an event, before the effects; [None]: it cannot happen now. *)
Definition turn (e : Event) (now : Z) (s : Setup) : option Setup :=
  match e with
  | Clicks canSubmit =>
      if negb canSubmit || isBusy s then Some s
      else Some (goTo true (Some validate) (withMutation (Pauses (now + 400)) (counted (withError None [] s))))
  | PauseEnds =>
      match mutation s with
      | Pauses due => if due <=? now then Some (withMutation Submits (goTo (isApplying s) (Some save) (markComplete validate s))) else None
      | _ => None
      end
  | Saved ok =>
      match mutation s with
      | Submits =>
          let s := withMutation Idle s in
          Some (if ok then goTo (isApplying s) (Some rollout) (markComplete save s) else goTo false None (withError (Some Refused) [] s))
      | _ => None
      end
  | RolloutAnswered i a =>
      match pollers s !! i with
      | Some p =>
          match waits p with
          | AsksRollout =>
              match a with
              | Yes => Some (goTo (isApplying s) (Some connect) (markComplete rollout
                        (setPoller i {| cancelled := cancelled p; startedAt := startedAt p; rolloutDone := true; waits := AsksHealth |} s)))
              | No | Fails => Some (endOfRound i p now s)
              end
          | _ => None
          end
      | None => None
      end
  | HealthAnswered i a =>
      match pollers s !! i with
      | Some p =>
          match waits p with
          | AsksHealth =>
              match a with
              | Yes =>
                  if cancelled p || navigating s then Some (setPoller i (waitFor Finished p) s)
                  else Some (withLeaving (leaving s ++ [now + 600]) (connected s) (markComplete connect
                         (setPoller i {| cancelled := true; startedAt := startedAt p; rolloutDone := rolloutDone p; waits := Finished |} s)))
              | No | Fails => Some (endOfRound i p now s)
              end
          | _ => None
          end
      | None => None
      end
  | Wakes i =>
      match pollers s !! i with
      | Some p =>
          match waits p with
          | Sleeps due => if due <=? now then Some (setPoller i (poll (navigating s) p) s) else None
          | _ => None
          end
      | None => None
      end
  | LeavesPage k =>
      match leaving s !! k with
      | Some due =>
          if due <=? now then Some (withLeaving (delete k (leaving s)) (S (connected s)) (withPollers false (effect s) (pollers s) (goTo false None s)))
          else None
      | None => None
      end
  | Navigates =>
      Some {| error := error s; isApplying := isApplying s; currentStep := currentStep s; completedSteps := completedSteps s; navigating := true;
              mutation := mutation s; polling := polling s; effect := effect s; pollers := pollers s; leaving := leaving s; connected := connected s;
              submitted := submitted s |}
  end.

Definition step (te : Z * Event) (s : Setup) : option Setup := settle te.1 s <$> turn te.2 te.1 s.

Fixpoint happens (es : list (Z * Event)) (s : Setup) : option Setup :=
  match es with [] => Some s | te :: es' => s' ← step te s; happens es' s' end.

(** ** What holds at every render *)

(** The poller of the effect, when it still waits for something or the page is left. *)
Definition acting (s : Setup) (done_ : bool) : Prop :=
  effect s = None ∧ navigating s = true ∨
  ∃ i p, effect s = Some i ∧ pollers s !! i = Some p ∧ cancelled p = false ∧ rolloutDone p = done_ ∧
    match waits p with Finished => navigating s = true | AsksRollout => done_ = false | AsksHealth => done_ = true | Sleeps _ => True end.

Definition stageOk (s : Setup) : Prop :=
  match isApplying s, currentStep s with
  | false, None => mutation s = Idle ∧ effect s = None ∧ leaving s = []
  | true, Some validate => (∃ due, mutation s = Pauses due) ∧ effect s = None ∧ leaving s = []
  | true, Some save => mutation s = Submits ∧ effect s = None ∧ leaving s = [] ∧ completedSteps s = [validate]
  | true, Some rollout => mutation s = Idle ∧ leaving s = [] ∧ completedSteps s = [validate; save] ∧ acting s false
  | true, Some connect =>
      mutation s = Idle ∧
      (leaving s = [] ∧ completedSteps s = [validate; save; rollout] ∧ acting s true ∨
       (∃ due, leaving s = [due]) ∧ completedSteps s = [validate; save; rollout; connect] ∧ ∀ i p, pollers s !! i = Some p → cancelled p = true)
  | _, _ => False
  end.

Record Inv (s : Setup) : Prop := {
  inv_stage : stageOk s;
  inv_validate : currentStep s = Some validate → completedSteps s = [];
  inv_live : ∀ i p, pollers s !! i = Some p → cancelled p = false → effect s = Some i;
  inv_dead : ∀ i p, pollers s !! i = Some p → cancelled p = true → waits p = Finished ∨ waits p = AsksHealth;
  inv_ref : effect s = None → polling s = false;
  inv_count : (connected s + (if isApplying s then 1 else 0) ≤ submitted s)%nat
}.

Lemma Inv_new : Inv newSetup.
Proof. by split; cbn; try lia. Qed.

Lemma settle_same now s s' : isApplying s = isApplying s' → currentStep s = currentStep s' → settle now s s' = s'.
Proof. intros. unfold settle. by rewrite bool_decide_true. Qed.

Lemma settle_changed now s s' : isApplying s ≠ isApplying s' ∨ currentStep s ≠ currentStep s' → settle now s s' = runEffect now (cleanup s').
Proof. intros H. unfold settle. rewrite bool_decide_false; [done|]. naive_solver. Qed.

(** Only the effect's poller can be told anything. *)
Lemma live_effect s i p : Inv s → pollers s !! i = Some p → waits p = AsksRollout ∨ (∃ due, waits p = Sleeps due) → cancelled p = false ∧ effect s = Some i.
Proof.
  intros H Hp Hw. destruct (cancelled p) eqn:Ec.
  - destruct (inv_dead s H i p Hp Ec) as [E|E]; rewrite E in Hw; naive_solver.
  - split; [done|]. by apply (inv_live s H i p).
Qed.

(** A poller acting means the stage is one of the last two. *)
Lemma live_stage s i p : Inv s → pollers s !! i = Some p → cancelled p = false →
  isApplying s = true ∧ mutation s = Idle ∧ leaving s = [] ∧ effect s = Some i ∧
  (currentStep s = Some rollout ∧ completedSteps s = [validate; save] ∧ rolloutDone p = false ∧ waits p ≠ AsksHealth ∨
   currentStep s = Some connect ∧ completedSteps s = [validate; save; rollout] ∧ rolloutDone p = true ∧ waits p ≠ AsksRollout) ∧
  (waits p = Finished → navigating s = true).
Proof.
  intros H Hp Hc. pose proof (inv_live s H i p Hp Hc) as He. pose proof (inv_stage s H) as Hs. unfold stageOk in Hs.
  assert (∀ d, acting s d → rolloutDone p = d ∧ match waits p with Finished => navigating s = true | AsksRollout => d = false | AsksHealth => d = true | Sleeps _ => True end) as Ha.
  { intros d [[? _]|(j & q & Hj & Hq & _ & Hd & Hw)]; [congruence|]. rewrite He in Hj. injection Hj as <-. rewrite Hp in Hq. injection Hq as <-. done. }
  destruct (isApplying s); [|destruct (currentStep s); [done|naive_solver congruence]].
  destruct (currentStep s) as [[]|]; [naive_solver congruence|naive_solver congruence| | |done].
  - destruct Hs as (? & ? & ? & [Hd Hw]%Ha). split_and!; try done.
    + left. split_and!; try done. intros E. rewrite E in Hw. done.
    + intros E. by rewrite E in Hw.
  - destruct Hs as [? [(? & ? & [Hd Hw]%Ha)|(_ & _ & Hall)]]; [|by rewrite (Hall i p Hp) in Hc]. split_and!; try done.
    + right. split_and!; try done. intros E. rewrite E in Hw. done.
    + intros E. by rewrite E in Hw.
Qed.

(** What the turn that ends an effect leaves to its cleanup. *)
Record Closing (s : Setup) : Prop := {
  closing_live : ∀ i p, pollers s !! i = Some p → cancelled p = false → effect s = Some i ∧ waits p ≠ AsksRollout;
  closing_dead : ∀ i p, pollers s !! i = Some p → cancelled p = true → waits p = Finished ∨ waits p = AsksHealth;
  closing_ref : effect s = None → polling s = false
}.

Record Closed (s s' : Setup) : Prop := {
  closed_all : ∀ i p, pollers s' !! i = Some p → cancelled p = true ∧ (waits p = Finished ∨ waits p = AsksHealth);
  closed_effect : effect s' = None; closed_ref : polling s' = false;
  closed_same : (isApplying s', currentStep s', completedSteps s', navigating s', mutation s', leaving s', connected s', submitted s') =
                (isApplying s, currentStep s, completedSteps s, navigating s, mutation s, leaving s, connected s, submitted s)
}.

Lemma cleanup_closes s : Closing s → Closed s (cleanup s).
Proof.
  intros [Hl Hd Hr]. unfold cleanup. destruct (effect s) as [j|] eqn:Ej.
  - split; try done. intros i p. cbn [pollers withPollers]. destruct (decide (j = i)) as [->|Hne].
    + rewrite list_lookup_alter_eq. intros (q & Hq & ->)%fmap_Some. cbn. split; [done|]. destruct (cancelled q) eqn:Ec.
      * destruct (Hd i q Hq Ec) as [E|E]; rewrite E; auto.
      * destruct (Hl i q Hq Ec) as [_ Hw]. destruct (waits q); [done|auto..].
    + rewrite list_lookup_alter_ne by done. intros Hp. destruct (cancelled p) eqn:Ec; [split; [done|by apply (Hd i)]|].
      destruct (Hl i p Hp Ec) as [[= ?] _]. done.
  - split; try done; [|by apply Hr]. intros i p Hp. destruct (cancelled p) eqn:Ec; [split; [done|by apply (Hd i)]|]. by destruct (Hl i p Hp Ec).
Qed.

(** Leaving the polling: every poller is cancelled and nothing waits. *)
Lemma closed_ends now s s' : Closing s' → isApplying s = true → isApplying s' = false → currentStep s' = None → mutation s' = Idle → leaving s' = [] →
  (connected s' ≤ submitted s')%nat → Inv (settle now s s').
Proof.
  intros Hc Ha Ha' Hs Hm Hl Hn. rewrite settle_changed by (left; congruence). destruct (cleanup_closes s' Hc) as [Hall He Hr [= E1 E2 E3 E4 E5 E6 E7 E8]].
  unfold runEffect. rewrite E1, Ha'. cbn [negb]. split.
  - unfold stageOk. rewrite E1, E2, E5, E6, Ha', Hs. done.
  - rewrite E2, Hs. done.
  - intros i p Hp Hf. destruct (Hall i p Hp). congruence.
  - intros i p Hp _. by destruct (Hall i p Hp).
  - done.
  - rewrite E1, E7, E8, Ha'. lia.
Qed.

(** The effect of a new step starts one poller, unless the page is left. *)
Lemma closed_polls now s s' st : Closing s' → currentStep s ≠ Some st → isApplying s' = true → currentStep s' = Some st → st = rollout ∨ st = connect →
  mutation s' = Idle → leaving s' = [] → completedSteps s' = (if bool_decide (st = connect) then [validate; save; rollout] else [validate; save]) →
  (S (connected s') ≤ submitted s')%nat → Inv (settle now s s').
Proof.
  intros Hc Hne Ha' Hs Hst Hm Hl Hd Hn. rewrite settle_changed by (right; congruence).
  destruct (cleanup_closes s' Hc) as [Hall He Hr [= E1 E2 E3 E4 E5 E6 E7 E8]].
  set (c := cleanup s') in *. set (d := bool_decide (st = connect)) in *.
  assert (∀ s1, isApplying s1 = true → currentStep s1 = Some st → completedSteps s1 = completedSteps s' → mutation s1 = Idle → leaving s1 = [] → acting s1 d → stageOk s1) as Hstage.
  { intros s1 A1 A2 A3 A4 A5 A6. unfold stageOk. rewrite A1, A2, A3, Hd. destruct Hst as [-> | ->]; [by split_and!|]. split; [done|]. left. by split_and!. }
  assert (currentStep s' ≠ Some validate) as Hv by (rewrite Hs; destruct Hst; congruence).
  unfold runEffect. rewrite E1, E2, Ha', Hs. cbn [negb].
  assert (∀ x y : Setup, match st with rollout | connect => x | _ => y end = x) as Hmatch by (by destruct Hst as [-> | ->]).
  rewrite Hmatch, E4, Hr. destruct (navigating s') eqn:En.
  - split.
    + apply Hstage; [congruence..|]. left. split; congruence.
    + rewrite E2. done.
    + intros i p Hp Hf. destruct (Hall i p Hp). congruence.
    + intros i p Hp _. by destruct (Hall i p Hp).
    + done.
    + rewrite E1, E7, E8, Ha'. lia.
  - set (p := poll _ _). assert (cancelled p = false ∧ rolloutDone p = d ∧ waits p = if d then AsksHealth else AsksRollout) as (P1 & P2 & P3) by done.
    split.
    + apply Hstage; cbn; [congruence..|]. right. exists (length (pollers c)), p. cbn. split_and!; [done| |done|done|].
      * by rewrite lookup_app_r, Nat.sub_diag.
      * fold d. by destruct d.
    + cbn. rewrite E2. done.
    + cbn. intros i q Hq Hf. apply lookup_app_Some in Hq as [Hq|[Hge Hq]]; [destruct (Hall i q Hq); congruence|].
      apply list_lookup_singleton_Some in Hq as [Hi _]. f_equal. lia.
    + cbn. intros i q Hq Hf. apply lookup_app_Some in Hq as [Hq|[Hge Hq]]; [by destruct (Hall i q Hq)|].
      apply list_lookup_singleton_Some in Hq as [_ <-]. congruence.
    + done.
    + cbn. rewrite E1, E7, E8, Ha'. lia.
Qed.

(** A poller's own change, everything else as it was. *)
Lemma set_poller_Inv s i p p' :
  Inv s → pollers s !! i = Some p → cancelled p' = cancelled p → rolloutDone p' = rolloutDone p →
  (cancelled p = true → waits p' = Finished ∨ waits p' = AsksHealth) →
  (cancelled p = false → match waits p' with Finished => navigating s = true | AsksRollout => rolloutDone p = false | AsksHealth => rolloutDone p = true | Sleeps _ => True end) →
  Inv (setPoller i p' s).
Proof.
  intros H Hp Hc Hd Hdead Hlive. destruct H as [Hs Hv Hl Hx Hr Hn].
  assert (∀ j q, pollers (setPoller i p' s) !! j = Some q → j = i ∧ q = p' ∨ pollers s !! j = Some q) as Hlook.
  { intros j q Hq. cbn in Hq. apply list_lookup_insert_Some in Hq as [(-> & <- & _)|[_ Hq]]; auto. }
  assert (∀ d, acting s d → acting (setPoller i p' s) d) as Hact.
  { intros d [Ha|(j & q & Hj & Hq & Hqc & Hqd & Hqw)]; [by left|]. right. destruct (decide (j = i)) as [->|Hne].
    - exists i, p'. rewrite Hp in Hq. injection Hq as <-. cbn. split_and!; [done| |congruence|congruence|].
      + by rewrite list_lookup_insert_eq by (by eapply lookup_lt_Some).
      + specialize (Hlive Hqc). destruct (waits p'); try done; congruence.
    - exists j, q. cbn. rewrite list_lookup_insert_ne by done. done. }
  split; try done.
  - unfold stageOk in *. cbn [isApplying currentStep mutation effect leaving completedSteps setPoller withPollers].
    destruct (isApplying s), (currentStep s) as [[]|]; try done; [naive_solver|]. destruct Hs as [? [Ha|(Hle & Hco & Hall)]]; (split; [done|]).
    + left. naive_solver.
    + right. split_and!; [done..|]. intros j q [[-> ->]|Hq]%Hlook; [rewrite Hc; by apply (Hall i)|by apply (Hall j)].
  - intros j q [[-> ->]|Hq]%Hlook Hf; [|by apply (Hl j q)]. cbn. apply (Hl i p Hp). congruence.
  - intros j q [[-> ->]|Hq]%Hlook Hf; [apply Hdead; congruence|by apply (Hx j q)].
Qed.

Lemma Inv_Closing s s' : Inv s → effect s' = effect s → (polling s' = polling s ∨ polling s' = false) →
  (∀ j q, pollers s' !! j = Some q → pollers s !! j = Some q ∧ waits q ≠ AsksRollout ∨ effect s = Some j ∧ waits q ≠ AsksRollout ∧ (∀ due, waits q ≠ Sleeps due)) → Closing s'.
Proof.
  intros H He Hp Hq. split.
  - intros j q [[Hj Hw]|(Hj & Hw & _)]%Hq Hc; rewrite He; (split; [|done]); [by apply (inv_live s H j q)|done].
  - intros j q [[Hj Hw]|(Hj & Hw & Hd)]%Hq Hc; [by apply (inv_dead s H j q)|]. destruct (waits q) as [| |due|]; [done|by right|by destruct (Hd due)|by left].
  - rewrite He. intros Hn. destruct Hp as [-> | ->]; [by apply (inv_ref s H)|done].
Qed.

(** The other pollers of a state, one changed. *)
Lemma others_dead s i p j q : Inv s → pollers s !! i = Some p → cancelled p = false → j ≠ i → pollers s !! j = Some q → waits q ≠ AsksRollout.
Proof.
  intros H Hp Hc Hne Hq E. destruct (cancelled q) eqn:Eq; [destruct (inv_dead s H j q Hq Eq); congruence|].
  pose proof (inv_live s H i p Hp Hc). pose proof (inv_live s H j q Hq Eq). congruence.
Qed.

(** The end of a round. *)
Lemma endOfRound_Inv s i p now :
  Inv s → pollers s !! i = Some p → waits p = AsksRollout ∨ waits p = AsksHealth → Inv (settle now s (endOfRound i p now s)).
Proof.
  intros H Hp Hw. unfold endOfRound. destruct (cancelled p) eqn:Ec.
  - assert (Inv (setPoller i (waitFor Finished p) s)) as Hi.
    { apply (set_poller_Inv s i p); [done..| |]; [by left|congruence]. }
    destruct (timeoutMs <=? _); by rewrite settle_same.
  - destruct (live_stage s i p H Hp Ec) as (Ha & Hm & Hle & He & Hst & _). destruct (timeoutMs <=? _).
    + apply closed_ends; try done; [|cbn; pose proof (inv_count s H) as Hn; rewrite Ha in Hn; lia].
      apply (Inv_Closing s); [done|done|by right|]. intros j q Hq. cbn in Hq. apply list_lookup_insert_Some in Hq as [(-> & <- & _)|[Hne Hq]].
      * right. split_and!; [done|discriminate|discriminate].
      * left. split; [done|]. by apply (others_dead s i p j q).
    + rewrite settle_same by done. apply (set_poller_Inv s i p); try done; congruence.
Qed.

Lemma stage_busy s : Inv s → mutation s ≠ Idle → isApplying s = true ∧ effect s = None ∧ leaving s = [] ∧
  (currentStep s = Some validate ∧ (∃ due, mutation s = Pauses due) ∧ completedSteps s = [] ∨
   currentStep s = Some save ∧ mutation s = Submits ∧ completedSteps s = [validate]).
Proof.
  intros H Hm. pose proof (inv_stage s H) as Hs. pose proof (inv_validate s H) as Hv. unfold stageOk in Hs.
  destruct (isApplying s), (currentStep s) as [[]|]; try done; naive_solver.
Qed.

Lemma no_effect_Closing s s' : Inv s → effect s = None → effect s' = None → polling s' = polling s → pollers s' = pollers s → Closing s'.
Proof.
  intros H He He' Hp Hps. apply (Inv_Closing s); [done|congruence|by left|]. intros j q Hq. rewrite Hps in Hq. left. split; [done|].
  intros Hw. destruct (cancelled q) eqn:Ec; [destruct (inv_dead s H j q Hq Ec); congruence|]. pose proof (inv_live s H j q Hq Ec). congruence.
Qed.

Lemma clicks_Inv s now : Inv s → isBusy s = false → Inv (settle now s (goTo true (Some validate) (withMutation (Pauses (now + 400)) (counted (withError None [] s))))).
Proof.
  intros H Hb. unfold isBusy in Hb. destruct (mutation s) eqn:Em; try done. pose proof (inv_stage s H) as Hs. unfold stageOk in Hs. rewrite Hb in Hs.
  destruct (currentStep s) eqn:Est; [done|]. destruct Hs as (_ & He & Hl). rewrite settle_changed by (right; by rewrite Est).
  unfold cleanup. cbn [effect goTo withMutation counted withError]. rewrite He. unfold runEffect. cbn. pose proof (inv_count s H) as Hn. rewrite Hb in Hn.
  destruct H as [_ _ Hlive Hdead Hr _]. split; try done; cbn.
  - unfold stageOk. cbn. split_and!; eauto.
  - lia.
Qed.

Lemma rollout_yes_Inv s i p now : Inv s → pollers s !! i = Some p → waits p = AsksRollout →
  Inv (settle now s (goTo (isApplying s) (Some connect) (markComplete rollout
         (setPoller i {| cancelled := cancelled p; startedAt := startedAt p; rolloutDone := true; waits := AsksHealth |} s)))).
Proof.
  intros H Hp Hw. destruct (live_effect s i p H Hp) as [Hc He]; [by left|]. destruct (live_stage s i p H Hp Hc) as (Ha & Hm & Hle & _ & Hst & _).
  destruct Hst as [(Hst & Hco & _)|(_ & _ & _ & Hno)]; [|congruence]. apply (closed_polls now s _ connect); try done; [|congruence|by right| |].
  - apply (Inv_Closing s); [done|done|by left|]. intros j q Hq. cbn in Hq. apply list_lookup_insert_Some in Hq as [(-> & <- & _)|[Hne Hq]].
    + right. split_and!; [done|discriminate|discriminate].
    + left. split; [done|]. by apply (others_dead s i p j q).
  - cbn. by rewrite Hco.
  - cbn. pose proof (inv_count s H) as Hn. rewrite Ha in Hn. lia.
Qed.

Lemma health_yes_Inv s i p now : Inv s → pollers s !! i = Some p → waits p = AsksHealth → cancelled p = false →
  Inv (settle now s (withLeaving (leaving s ++ [now + 600]) (connected s) (markComplete connect
         (setPoller i {| cancelled := true; startedAt := startedAt p; rolloutDone := rolloutDone p; waits := Finished |} s)))).
Proof.
  intros H Hp Hw Hc. destruct (live_stage s i p H Hp Hc) as (Ha & Hm & Hle & He & Hst & _). rewrite settle_same by done.
  destruct Hst as [(_ & _ & _ & Hno)|(Hst & Hco & _)]; [congruence|]. pose proof (inv_count s H) as Hn.
  assert (∀ j q, <[i:={| cancelled := true; startedAt := startedAt p; rolloutDone := rolloutDone p; waits := Finished |}]> (pollers s) !! j = Some q →
    cancelled q = true ∧ (waits q = Finished ∨ waits q = AsksHealth)) as Hall.
  { intros j q Hq. apply list_lookup_insert_Some in Hq as [(-> & <- & _)|[Hne Hq]]; [by cbn; auto|]. destruct (cancelled q) eqn:Ec.
    - split; [done|]. by apply (inv_dead s H j q).
    - pose proof (inv_live s H j q Hq Ec). congruence. }
  split; cbn; try done.
  - unfold stageOk. cbn. rewrite Ha, Hst, Hle, Hco. cbn. split; [done|]. right. split_and!; [by eexists|done|]. intros j q Hq. by apply Hall in Hq as [].
  - by rewrite Hst.
  - intros j q Hq Hf. apply Hall in Hq as []. congruence.
  - intros j q Hq _. by apply Hall in Hq as [].
  - by apply (inv_ref s H).
Qed.

Lemma leaves_Inv s k due now : Inv s → leaving s !! k = Some due →
  isApplying s = true ∧ completedSteps s = [validate; save; rollout; connect] ∧
  Inv (settle now s (withLeaving (delete k (leaving s)) (S (connected s)) (withPollers false (effect s) (pollers s) (goTo false None s)))).
Proof.
  intros H Hk. pose proof (inv_stage s H) as Hs. pose proof (inv_count s H) as Hn. unfold stageOk in Hs.
  assert (isApplying s = true ∧ mutation s = Idle ∧ leaving s = [due] ∧ k = 0%nat ∧ completedSteps s = [validate; save; rollout; connect] ∧
    ∀ i p, pollers s !! i = Some p → cancelled p = true) as (Ha & Hm & Hl & -> & Hco & Hall).
  { destruct (isApplying s), (currentStep s) as [[]|]; try done; try (by naive_solver congruence).
    - destruct Hs as (_ & _ & E). by rewrite E in Hk.
    - destruct Hs as (_ & _ & E & _). by rewrite E in Hk.
    - destruct Hs as (_ & E & _). by rewrite E in Hk.
    - destruct Hs as [? [(E & _)|([d E] & ? & ?)]]; rewrite E in Hk; [done|]. apply list_lookup_singleton_Some in Hk as [<- ->]. by rewrite E.
    - destruct Hs as (_ & _ & E). by rewrite E in Hk. }
  split; [done|]. split; [done|]. rewrite Ha in Hn. apply closed_ends; try done; [|by rewrite Hl|cbn; lia].
  split; cbn [pollers effect polling withLeaving withPollers goTo].
  - intros j q Hq Hf. by rewrite (Hall j q Hq) in Hf.
  - intros j q Hq Hf. by apply (inv_dead s H j q).
  - done.
Qed.

Lemma step_Inv te s s' : Inv s → step te s = Some s' → Inv s'.
Proof.
  destruct te as [now e]. unfold step. cbn [fst snd]. intros H (t & Ht & ->)%fmap_Some. destruct e as [c| |ok|i a|i a|i|k|]; cbn [turn] in Ht.
  - destruct (negb c || isBusy s) eqn:Eb; injection Ht as <-; [by rewrite settle_same|]. apply orb_false_iff in Eb as [_ Eb]. by apply clicks_Inv.
  - destruct (mutation s) as [|due|] eqn:Em; try done. destruct (due <=? now); [|done]. injection Ht as <-.
    destruct (stage_busy s H) as (Ha & He & Hl & [(Hst & _ & Hco)|(_ & ? & _)]); [congruence| |congruence].
    rewrite settle_changed by (right; cbn; congruence). unfold cleanup. cbn [effect withMutation goTo markComplete withError]. rewrite He.
    unfold runEffect. cbn. rewrite Ha. cbn. pose proof (inv_count s H) as Hn. destruct H as [_ _ Hlive Hdead Hr _]. split; try done; cbn.
    + unfold stageOk. cbn. by rewrite Hco.
    + rewrite Ha in Hn. exact Hn.
  - destruct (mutation s) eqn:Em; try done. injection Ht as <-. destruct (stage_busy s H) as (Ha & He & Hl & [(_ & [? ?] & _)|(Hst & _ & Hco)]); [congruence..|].
    pose proof (inv_count s H) as Hn. rewrite Ha in Hn. destruct ok.
    + apply (closed_polls now s _ rollout); try done; [by apply (no_effect_Closing s)|congruence|by left|cbn; by rewrite Hco|cbn; lia].
    + apply closed_ends; try done; [by apply (no_effect_Closing s)|cbn; lia].
  - destruct (pollers s !! i) as [p|] eqn:Hp; [|done]. destruct (waits p) eqn:Hw; try done. destruct a; injection Ht as <-.
    + by apply rollout_yes_Inv.
    + apply endOfRound_Inv; auto.
    + apply endOfRound_Inv; auto.
  - destruct (pollers s !! i) as [p|] eqn:Hp; [|done]. destruct (waits p) eqn:Hw; try done. destruct a; [|by injection Ht as <-; apply endOfRound_Inv; auto..].
    destruct (cancelled p || navigating s) eqn:Ec; injection Ht as <-.
    + rewrite settle_same by done. apply (set_poller_Inv s i p); try done; [by left|]. cbn. intros E. by rewrite E in Ec.
    + apply orb_false_iff in Ec as [Ec _]. by apply health_yes_Inv.
  - destruct (pollers s !! i) as [p|] eqn:Hp; [|done]. destruct (waits p) as [| |due|] eqn:Hw; try done. destruct (due <=? now); [|done].
    injection Ht as <-. rewrite settle_same by done. destruct (live_effect s i p H Hp) as [Hc He]; [by right; eexists|].
    apply (set_poller_Inv s i p); try done; [congruence|]. intros _. cbn. rewrite Hc. cbn. destruct (navigating s) eqn:En; [done|].
    by destruct (rolloutDone p).
  - destruct (leaving s !! k) as [due|] eqn:Hk; [|done]. destruct (due <=? now); [|done]. injection Ht as <-. by apply (leaves_Inv s k due).
  - injection Ht as <-. rewrite settle_same by done. destruct H as [Hs Hv Hl Hd Hr Hn]. split; try done.
    unfold stageOk in *. cbn. destruct (isApplying s), (currentStep s) as [[]|]; try done.
    + destruct Hs as (? & ? & ? & Ha). split_and!; try done. destruct Ha as [[? _]|(i & p & ? & ? & ? & ? & Hw)]; [by left|].
      right. exists i, p. split_and!; try done. by destruct (waits p).
    + destruct Hs as [? [(? & ? & Ha)|?]]; split; [done| |done|by right]. left. split_and!; try done.
      destruct Ha as [[? _]|(i & p & ? & ? & ? & ? & Hw)]; [by left|]. right. exists i, p. split_and!; try done. by destruct (waits p).
Qed.

Lemma happens_Inv es s s' : Inv s → happens es s = Some s' → Inv s'.
Proof.
  revert s. induction es as [|te es IH]; intros s H; cbn [happens]; [by intros [= <-]|]. destruct (step te s) as [s1|] eqn:E; [|done].
  cbn. apply IH. by eapply step_Inv.
Qed.

(** ** How long it polls *)

Fixpoint chronological (since : Z) (es : list (Z * Event)) : Prop :=
  match es with [] => True | te :: es' => since ≤ te.1 ∧ chronological te.1 es' end.

(** The rounds of a poller after its first. *)
Definition wakes (i : nat) (es : list (Z * Event)) : nat := length (filterb (λ te, match te.2 with Wakes j => bool_decide (i = j) | _ => false end) es).

(** The rounds of a poller fit in its time. *)
Definition paced (T : Z) (w : nat) (p : Poller) : Prop :=
  (w ≤ 40)%nat ∧
  match waits p with
  | AsksRollout | AsksHealth => intervalMs * Z.of_nat w ≤ T - startedAt p
  | Sleeps due => intervalMs * (Z.of_nat w + 1) ≤ due - startedAt p < timeoutMs + intervalMs
  | Finished => True
  end.

Definition allPaced (T : Z) (w : nat → nat) (s : Setup) : Prop :=
  (∀ i p, pollers s !! i = Some p → paced T (w i) p) ∧ ∀ i, (length (pollers s) ≤ i)%nat → w i = 0%nat.

Lemma paced_later T T' w p : T ≤ T' → paced T w p → paced T' w p.
Proof. unfold paced. intros H [Hw Hp]. split; [done|]. destruct (waits p); try done; lia. Qed.

Lemma allPaced_same T w s s' : pollers s' = pollers s → allPaced T w s → allPaced T w s'.
Proof. unfold allPaced. by intros ->. Qed.

Lemma allPaced_set T w s i p : paced T (w i) p → allPaced T w s → allPaced T w (setPoller i p s).
Proof.
  intros Hp [H1 H2]. split; cbn.
  - intros j q Hq. apply list_lookup_insert_Some in Hq as [(-> & <- & _)|[_ Hq]]; [done|by apply H1].
  - intros j Hj. rewrite length_insert in Hj. by apply H2.
Qed.

Lemma settle_paced now w s s' : allPaced now w s' → allPaced now w (settle now s s').
Proof.
  intros H. unfold settle. case_bool_decide; [done|].
  assert (allPaced now w (cleanup s')) as Hc.
  { unfold cleanup. destruct (effect s') as [i|]; [|done]. destruct H as [H1 H2]. split; cbn.
    - intros j q Hq. destruct (decide (i = j)) as [->|Hne]; [|rewrite list_lookup_alter_ne in Hq by done; by apply H1].
      rewrite list_lookup_alter_eq in Hq. apply fmap_Some in Hq as (p & Hp & ->). destruct (H1 j p Hp) as [Hw Hm]. split; [done|].
      cbn. by destruct (waits p).
    - intros j Hj. rewrite length_alter in Hj. by apply H2. }
  generalize (cleanup s') Hc. clear. intros s Hc. unfold runEffect. destruct (negb _); [done|].
  destruct (currentStep s) as [[]|]; try done; destruct (navigating s); try done; destruct (polling s); try done.
  all: destruct Hc as [H1 H2]; split; cbn;
    [intros j q Hq; apply lookup_app_Some in Hq as [Hq|[Hge Hq]]; [by apply H1|];
     apply list_lookup_singleton_Some in Hq as [Hj <-]; rewrite (H2 j) by lia; split; [lia|]; cbn; unfold intervalMs, timeoutMs; case_bool_decide; lia
    |intros j Hj; rewrite length_app in Hj; cbn in Hj; apply H2; lia].
Qed.

Lemma endOfRound_paced i p now w s :
  pollers s !! i = Some p → waits p = AsksRollout ∨ waits p = AsksHealth → allPaced now w s → allPaced now w (endOfRound i p now s).
Proof.
  intros Hp Hw H. destruct (proj1 H i p Hp) as [Hwi Hm]. assert (intervalMs * Z.of_nat (w i) ≤ now - startedAt p) as Hlt by (by destruct Hw as [E|E]; rewrite E in Hm).
  unfold endOfRound. destruct (timeoutMs <=? now - startedAt p) eqn:Et.
  - assert (allPaced now w (setPoller i (waitFor Finished p) s)) as Hs by (by apply allPaced_set).
    by destruct (cancelled p).
  - apply Z.leb_gt in Et. apply allPaced_set; [|done]. destruct (cancelled p); [done|]. unfold paced, timeoutMs, intervalMs in *. cbn. split; [done|]. lia.
Qed.

Definition wakesOf (w : nat → nat) (e : Event) : nat → nat := λ i, match e with Wakes j => if bool_decide (i = j) then S (w i) else w i | _ => w i end.

Lemma step_paced T w te s s' : T ≤ te.1 → allPaced T w s → step te s = Some s' → allPaced te.1 (wakesOf w te.2) s'.
Proof.
  destruct te as [now e]. unfold step. cbn [fst snd]. intros HT H (t & Ht & ->)%fmap_Some. apply settle_paced.
  assert (allPaced now w s) as Hn by (destruct H as [H1 H2]; split; [intros i p Hp; by eapply paced_later; [|apply H1]|done]). clear H.
  destruct e as [c| |ok|i a|i a|i|k|]; cbn [turn wakesOf] in *.
  - destruct (negb c || isBusy s); by injection Ht as <-.
  - destruct (mutation s) as [|due|]; try done. destruct (due <=? now); [|done]. by injection Ht as <-.
  - destruct (mutation s); try done. injection Ht as <-. by destruct ok.
  - destruct (pollers s !! i) as [p|] eqn:Hp; [|done]. destruct (waits p) eqn:Hw; try done. pose proof (proj1 Hn i p Hp) as Hpp.
    destruct a; injection Ht as <-; [|by apply endOfRound_paced; auto..].
    apply (allPaced_same _ _ (setPoller i {| cancelled := cancelled p; startedAt := startedAt p; rolloutDone := true; waits := AsksHealth |} s)); [done|].
    apply allPaced_set; [|done]. unfold paced in *. by rewrite Hw in Hpp.
  - destruct (pollers s !! i) as [p|] eqn:Hp; [|done]. destruct (waits p) eqn:Hw; try done. pose proof (proj1 Hn i p Hp) as [Hpp _].
    destruct a; [|by injection Ht as <-; apply endOfRound_paced; auto..]. destruct (cancelled p || navigating s); injection Ht as <-; by apply allPaced_set.
  - destruct (pollers s !! i) as [p|] eqn:Hp; [|done]. destruct (waits p) as [| |due|] eqn:Hw; try done. destruct (due <=? now) eqn:Ed; [|done].
    apply Z.leb_le in Ed. injection Ht as <-. pose proof (proj1 Hn i p Hp) as [Hpp Hm]. rewrite Hw in Hm. destruct Hn as [H1 H2]. split; cbn.
    + intros j q Hq. apply list_lookup_insert_Some in Hq as [(-> & <- & _)|[Hne Hq]]; [|rewrite bool_decide_false by done; by apply H1].
      rewrite bool_decide_true by done. unfold paced, timeoutMs, intervalMs in *. cbn. split; [lia|].
      destruct (cancelled p || navigating s); [done|]. destruct (rolloutDone p); lia.
    + intros j Hj. rewrite length_insert in Hj. rewrite bool_decide_false; [by apply H2|]. intros ->. apply lookup_lt_Some in Hp. lia.
  - destruct (leaving s !! k) as [due|]; [|done]. destruct (due <=? now); [|done]. by injection Ht as <-.
  - by injection Ht as <-.
Qed.

Lemma happens_paced es T w s s' :
  chronological T es → allPaced T w s → happens es s = Some s' → ∀ i, (w i + wakes i es ≤ 40)%nat.
Proof.
  revert T w s. induction es as [|te es IH]; intros T w s Hc H Hh i.
  { unfold wakes. cbn. rewrite Nat.add_0_r. destruct (pollers s !! i) as [p|] eqn:Hp; [by apply (proj1 H i p)|]. rewrite (proj2 H i); [lia|by apply lookup_ge_None]. }
  destruct Hc as [HT Hc]. cbn [happens] in Hh. destruct (step te s) as [s1|] eqn:E; [|done]. cbn in Hh.
  specialize (IH te.1 _ s1 Hc (step_paced T w te s s1 HT H E) Hh i). unfold wakes, filterb in *. cbn [List.filter].
  destruct te as [now e]. cbn [fst snd] in *. destruct e; try exact IH. unfold wakesOf in IH. destruct (bool_decide _); cbn [length]; lia.
Qed.

(** ** What the page promises *)

(** C12. The set-up never hangs: while it is applying, and unless the page is left, its
    request is on the way, or it is about to go on, or a poller waits for an answer
    or a timer. *)
Theorem setup_never_stuck es s :
  happens es newSetup = Some s → isApplying s = true → navigating s = false →
  mutation s ≠ Idle ∨ (∃ due, leaving s = [due]) ∨ ∃ i p, pollers s !! i = Some p ∧ cancelled p = false ∧ waits p ≠ Finished.
Proof.
  intros H Ha Hn. apply (happens_Inv _ _ _ Inv_new) in H. pose proof (inv_stage s H) as Hs. unfold stageOk in Hs. rewrite Ha in Hs.
  assert (∀ d, acting s d → ∃ i p, pollers s !! i = Some p ∧ cancelled p = false ∧ waits p ≠ Finished) as Hact.
  { intros d [[_ ?]|(i & p & _ & Hp & Hc & _ & Hw)]; [congruence|]. exists i, p. split_and!; [done..|]. intros E. rewrite E in Hw. congruence. }
  destruct (currentStep s) as [[]|]; [left|left| | |done].
  - destruct Hs as ([due Hm] & _). by rewrite Hm.
  - destruct Hs as (Hm & _). by rewrite Hm.
  - right; right. destruct Hs as (_ & _ & _ & Hs). by apply (Hact false).
  - right. destruct Hs as [_ [(_ & _ & Hs)|(Hl & _)]]; [right; by apply (Hact true)|by left].
Qed.

(** C38. Polling ends: whatever is answered, however late, a poller asks again at most
    forty times; and at most one poller is at work. *)
Theorem polls_bounded es s :
  chronological 0 es → happens es newSetup = Some s →
  (∀ i, (wakes i es ≤ 40)%nat) ∧
  ∀ i j p q, pollers s !! i = Some p → pollers s !! j = Some q → cancelled p = false → cancelled q = false → i = j.
Proof.
  intros Hc H. split.
  - intros i. apply (happens_paced es 0 (λ _, 0%nat) newSetup s Hc); [|done]. split; [by intros ? ? ?|done].
  - apply (happens_Inv _ _ _ Inv_new) in H. intros i j p q Hp Hq Hcp Hcq. pose proof (inv_live s H i p Hp Hcp). pose proof (inv_live s H j q Hq Hcq). congruence.
Qed.

(** The page goes on once for a submission, and only when the kubeconfig was checked
    and saved, the servers had rolled out and the cluster had answered. *)
Theorem goes_on_once_connected es s k now s' :
  happens es newSetup = Some s → step (now, LeavesPage k) s = Some s' →
  completedSteps s' = [validate; save; rollout; connect] ∧ connected s' = S (connected s) ∧ (connected s' ≤ submitted s')%nat.
Proof.
  intros H Hs. apply (happens_Inv _ _ _ Inv_new) in H. unfold step in Hs. cbn [fst snd turn] in Hs.
  destruct (leaving s !! k) as [due|] eqn:Ek; [|done]. destruct (due <=? now); [|done]. injection Hs as <-.
  destruct (leaves_Inv s k due now H Ek) as (Ha & Hco & Hi). pose proof (inv_count _ Hi) as Hn.
  rewrite settle_changed in * by (left; cbn; congruence). unfold cleanup in *. cbn [effect withLeaving withPollers goTo] in *.
  destruct (effect s); unfold runEffect in *; cbn in *; split_and!; try done; lia.
Qed.

(** ** Concrete runs *)

(** A submission that connects. *)
Definition connects : list (Z * Event) :=
  [(0, Clicks true); (400, PauseEnds); (700, Saved true); (900, RolloutAnswered 0 No); (3900, Wakes 0); (4000, RolloutAnswered 0 Yes);
   (4100, HealthAnswered 1 Fails); (4200, HealthAnswered 0 No); (7100, Wakes 1); (7200, HealthAnswered 1 Yes)].

Definition afterEvents (es : list (Z * Event)) : Setup := default newSetup (happens es newSetup).

Lemma setup_never_stuck_witness :
  mutation (afterEvents connects) ≠ Idle ∨ (∃ due, leaving (afterEvents connects) = [due]) ∨
  ∃ i p, pollers (afterEvents connects) !! i = Some p ∧ cancelled p = false ∧ waits p ≠ Finished.
Proof. apply (setup_never_stuck connects (afterEvents connects)); by vm_compute. Defined.

Lemma polls_bounded_witness : (∀ i, (wakes i connects ≤ 40)%nat) ∧ wakes 0 connects = 1%nat.
Proof.
  split; [|reflexivity]. refine (proj1 (polls_bounded connects (afterEvents connects) _ _)); [cbn; lia|by vm_compute].
Defined.

Lemma goes_on_once_connected_witness :
  let s' := afterEvents (connects ++ [(7800, LeavesPage 0)]) in
  completedSteps s' = [validate; save; rollout; connect] ∧ connected s' = 1%nat ∧ (connected s' ≤ submitted s')%nat.
Proof.
  apply (goes_on_once_connected connects (afterEvents connects) 0 7800 (afterEvents (connects ++ [(7800, LeavesPage 0)]))); by vm_compute.
Defined.

(** Each step waits two minutes of its own: the error comes after four. *)
Example waits_twice :
  error (afterEvents ([(0, Clicks true); (400, PauseEnds); (700, Saved true); (119000, RolloutAnswered 0 Yes); (238000, HealthAnswered 1 No)])) = None ∧
  error (afterEvents ([(0, Clicks true); (400, PauseEnds); (700, Saved true); (119000, RolloutAnswered 0 Yes); (239000, HealthAnswered 1 No)])) = Some TimedOut.
Proof. by vm_compute. Qed.
