(* ===== verification/ListPage.v ===== *)
(** * The list pages

    pages/workloads/Deployments.tsx and the pages like it (the same hooks on every
    list of objects), with components/ListPager.tsx: the rows a search keeps, the
    cards that count them, the order of a chosen column, and the page shown.

    A [ListPage] is what differs from page to page: how a row is completed, the texts
    the search looks in, the columns and the cards.  [ListWorkloads] and the files
    after it give the pages.  A [Listing] is the state of the component; React runs
    the effects of a render with the values of that render ([effects]) and renders
    again while they set something ([settle]).  The collation of [localeCompare] is
    the browser's. *)

From Stdlib Require Import QArith Sorted.
From S2P Require Import Prelude JsString OrderedMap Sorting Json Time.

#[local] Open Scope string_scope.
#[local] Open Scope Z_scope.

(** ** A page *)

(** What a column sorts by. *)
Inductive Column := ByText (f : value → string) | ByNumber (f : value → Q).

Record ListPage := {
  completed : value → value;                   (* what a page adds to a row before anything *)
  searched : value → list string;              (* the texts the search looks in *)
  columns : list (string * Column);            (* [getValue], by its sort key *)
  cards : list (string * (list value → Z));    (* the cards, of the rows found *)
  needle : string → string                     (* what the search looks for *)
}.

Definition asIs (r : value) : value := r.

(** [x || ''], [x || 0] and the like, of a row's typed fields. *)
Definition textOf (v : value) : string := toString (v |? VStr "").
Definition numOf (v : value) : Z := match v with VNum n => n | _ => 0 end.
Definition byNum (f : value → Z) : Column := ByNumber (λ r, inject_Z (f r)).
Definition ratio (a b : Z) : Q := if b =? 0 then 0%Q else (inject_Z a / inject_Z b)%Q.
Definition lower (f : value → string) (r : value) : string := toLowerCase (f r).
Definition field_ (k : string) (r : value) : string := textOf (r .@ k).
Definition flag (P : value → bool) (r : value) : Z := if P r then 1 else 0.
Definition positive_ (k : string) (r : value) : bool := 0 <? numOf (r .@ k).
Definition numField (k : string) (r : value) : Z := numOf (r .@ k).

(** [(x || []).join(',')] of a list of strings. *)
Definition joined (k : string) (r : value) : string := toString (arrayOr (r .@ k)).

(** [Object.entries(x || {}).map(([k, v]) => `${k}=${v}`).join(',')]. *)
Definition entriesText (v : value) : string :=
  match v with VObj fs => join "," ((λ f, f.1 +:+ "=" +:+ toString f.2) <$> fs) | _ => "" end.

(** The counters of a summary's loop. *)
Definition total : string * (list value → Z) := ("total", λ rows, Z.of_nat (length rows)).
Definition count (P : value → bool) (rows : list value) : Z := Z.of_nat (length (filterb P rows)).
Definition sumOf (f : value → Z) (rows : list value) : Z := foldr (λ r n, f r + n) 0 rows.

Definition parseAgeSeconds (now : Z) (r : value) : Z := Time.ageSeconds now (r .@ "created_at").

(** The strings of an array, as [join] writes them. *)
Definition texts (v : value) : list string := (λ x, if nullish x then "" else toString x) <$> asArray v.

Section page.
Context (localeCompare : string → string → Z) (p : ListPage).

Definition rowsOf (data : value) : list value := completed p <$> asArray data.

Definition matches (q : string) (r : value) : bool := some (includes q) (searched p r).

Definition filtered (searchQuery : string) (data : value) : list value :=
  if eqs (trim searchQuery) "" then rowsOf data else filterb (matches (needle p searchQuery)) (rowsOf data).

Definition summary (rows : list value) : list (string * Z) := (λ c, (c.1, c.2 rows)) <$> cards p.

Definition getValue (k : string) : Column := default (ByText (λ _, "")) (assoc k (columns p)).

Definition compareQ (x y : Q) : Z := match Qcompare x y with Lt => -1 | Eq => 0 | Gt => 1 end.

Definition compareRows (asc : bool) (c : Column) (a b : value) : Z :=
  match c with
  | ByNumber f => if asc then compareQ (f a) (f b) else compareQ (f b) (f a)
  | ByText f => if asc then localeCompare (f a) (f b) else localeCompare (f b) (f a)
  end.

Definition sorted (sortKey : option string) (asc : bool) (rows : list value) : list value :=
  match sortKey with Some k => sortBy (compareRows asc (getValue k)) rows | None => rows end.

Definition totalPages (n : nat) (rowsPerPage : Z) : Z := Z.max 1 ((Z.of_nat n + rowsPerPage - 1) / rowsPerPage).

Definition paged {A} (rows : list A) (currentPage rowsPerPage : Z) : list A :=
  take (Z.to_nat rowsPerPage) (drop (Z.to_nat ((currentPage - 1) * rowsPerPage)) rows).

(** ** The component *)

Record Listing := {
  searchQuery : string; selectedNamespace : string; sortKey : option string; asc : bool; currentPage : Z; data : value; rowsPerPage : Z
}.

Definition found (s : Listing) : list value := filtered (searchQuery s) (data s).
Definition inOrder (s : Listing) : list value := sorted (sortKey s) (asc s) (found s).
Definition pages (s : Listing) : Z := totalPages (length (inOrder s)) (rowsPerPage s).
Definition shown (s : Listing) : list value := paged (inOrder s) (currentPage s) (rowsPerPage s).

Definition toPage (n : Z) (s : Listing) : Listing :=
  {| searchQuery := searchQuery s; selectedNamespace := selectedNamespace s; sortKey := sortKey s; asc := asc s; currentPage := n; data := data s;
     rowsPerPage := rowsPerPage s |}.
Definition sortBy_ (k : option string) (up : bool) (s : Listing) : Listing :=
  {| searchQuery := searchQuery s; selectedNamespace := selectedNamespace s; sortKey := k; asc := up; currentPage := currentPage s; data := data s;
     rowsPerPage := rowsPerPage s |}.

(** [handleSort] of the tables' headers. *)
Definition handleSort (k : string) (s : Listing) : Listing :=
  if negb (bool_decide (sortKey s = Some k)) then sortBy_ (Some k) true s
  else if asc s then sortBy_ (sortKey s) false s
  else sortBy_ None (asc s) s.

Inductive Event :=
  | Searches (q : string)
  | ChoosesNamespace (ns : string)
  | ClicksColumn (k : string)
  | Prev | Next
  | Loads (rows : value)
  | Fits (rows : Z).

Definition handle (e : Event) (s : Listing) : Listing :=
  match e with
  | Searches q => {| searchQuery := q; selectedNamespace := selectedNamespace s; sortKey := sortKey s; asc := asc s; currentPage := currentPage s; data := data s;
                     rowsPerPage := rowsPerPage s |}
  | ChoosesNamespace ns => {| searchQuery := searchQuery s; selectedNamespace := ns; sortKey := sortKey s; asc := asc s; currentPage := currentPage s; data := data s;
                              rowsPerPage := rowsPerPage s |}
  | ClicksColumn k => handleSort k s
  | Prev => toPage (Z.max 1 (currentPage s - 1)) s
  | Next => toPage (Z.min (pages s) (currentPage s + 1)) s
  | Loads rows => {| searchQuery := searchQuery s; selectedNamespace := selectedNamespace s; sortKey := sortKey s; asc := asc s; currentPage := currentPage s;
                     data := rows; rowsPerPage := rowsPerPage s |}
  | Fits n => {| searchQuery := searchQuery s; selectedNamespace := selectedNamespace s; sortKey := sortKey s; asc := asc s; currentPage := currentPage s; data := data s;
                 rowsPerPage := n |}
  end.

(** The two effects of a render that comes after another: each reads the values of
    its render, and the last [setCurrentPage] stands. *)
Definition effects (before now : Listing) : Listing :=
  let first := if bool_decide (searchQuery before = searchQuery now ∧ selectedNamespace before = selectedNamespace now) then None else Some 1 in
  let second := if bool_decide (currentPage before = currentPage now ∧ pages before = pages now) then None
                else if pages now <? currentPage now then Some (pages now) else None in
  match second, first with
  | Some n, _ | None, Some n => toPage n now
  | None, None => now
  end.

(** A render, and the one its effects ask for. *)
Definition settle (before now : Listing) : Listing := effects now (effects before now).

Definition step (s : Listing) (e : Event) : Listing := settle s (handle e s).

Definition newListing (ns : string) (rows : value) (n : Z) : Listing :=
  {| searchQuery := ""; selectedNamespace := ns; sortKey := None; asc := true; currentPage := 1; data := rows; rowsPerPage := n |}.

Definition used (s : Listing) (es : list Event) : Listing := foldl step s es.
End page.

(** ** Pages of a list *)

Lemma totalPages_bounds n k : 0 < k → let t := totalPages n k in 1 ≤ t ∧ Z.of_nat n ≤ t * k ∧ ((t - 1) * k < Z.of_nat n ∨ t = 1).
Proof.
  intros Hk. unfold totalPages. cbn. pose proof (Z.div_mod (Z.of_nat n + k - 1) k ltac:(lia)). pose proof (Z.mod_pos_bound (Z.of_nat n + k - 1) k Hk).
  set (d := (Z.of_nat n + k - 1) / k) in *. assert (Z.of_nat n ≤ d * k) by lia. assert ((d - 1) * k < Z.of_nat n) by lia.
  destruct (Z.le_gt_cases 1 d); [rewrite Z.max_r by done; split_and!; lia|]. rewrite Z.max_l by lia. split_and!; nia.
Qed.

Section pages.
Context (localeCompare : string → string → Z) (p : ListPage).
Notation shown := (shown localeCompare p).
Notation pages := (pages localeCompare p).
Notation inOrder := (inOrder localeCompare p).
Notation found := (found p).

Lemma paged_upto {A} (rows : list A) k m :
  0 < k → concat ((λ n, paged rows (Z.of_nat n) k) <$> seq 1 m) = take (m * Z.to_nat k) rows.
Proof.
  intros Hk. induction m as [|m IH]; [done|]. rewrite seq_S, fmap_app, concat_app, IH. cbn. rewrite app_nil_r. unfold paged.
  replace (Z.to_nat ((Z.of_nat (S m) - 1) * k)) with (m * Z.to_nat k)%nat by nia. rewrite take_take_drop. f_equal. lia.
Qed.

Lemma shown_toPage n s : shown (toPage n s) = paged (inOrder s) n (rowsPerPage s).
Proof. done. Qed.

Lemma pages_toPage n s : pages (toPage n s) = pages s.
Proof. done. Qed.

Lemma pages_bounds s : 0 < rowsPerPage s →
  1 ≤ pages s ∧ Z.of_nat (length (inOrder s)) ≤ pages s * rowsPerPage s ∧ ((pages s - 1) * rowsPerPage s < Z.of_nat (length (inOrder s)) ∨ pages s = 1).
Proof. apply totalPages_bounds. Qed.

Lemma sorted_permutation k up rows : sorted localeCompare p k up rows ≡ₚ rows.
Proof. destruct k; cbn; [apply sortBy_permutation|done]. Qed.

Lemma shown_some s : 0 < rowsPerPage s → 1 ≤ currentPage s ≤ pages s → found s ≠ [] → shown s ≠ [].
Proof.
  intros Hk Hp Hf. destruct (pages_bounds s Hk) as (_ & _ & Hb). unfold ListPage.shown, paged. intros E. apply (f_equal length) in E. rewrite length_take, length_drop in E. cbn in E.
  assert (0 < Z.of_nat (length (inOrder s))).
  { unfold ListPage.inOrder. rewrite sorted_permutation. destruct (ListPage.found p s); [done|cbn; lia]. }
  destruct Hb; nia.
Qed.

(** ** The order of a column *)

Lemma compareQ_consistent (f : value → Q) : Consistent (λ a b, compareQ (f a) (f b)).
Proof.
  unfold compareQ. split.
  - intros a b. rewrite <-(Qcompare_antisym (f a)). by destruct (f a ?= f b)%Q.
  - assert (∀ x y, match (x ?= y)%Q with Eq => 0 | Lt => -1 | Gt => 1 end ≤ 0 ↔ (x <= y)%Q) as Hle.
    { intros x y. rewrite Qle_alt. destruct (x ?= y)%Q; split; done || lia. }
    intros a b c. rewrite !Hle. apply Qle_trans.
Qed.

Lemma flip_consistent {A} (cmp : A → A → Z) : Consistent cmp → Consistent (λ a b, cmp b a).
Proof. intros [H1 H2]. split; [by intros a b|]. intros a b c ? ?. by eapply H2. Qed.

Lemma compareRows_consistent up c : Consistent localeCompare → Consistent (compareRows localeCompare up c).
Proof.
  intros C. destruct c as [f|f]; destruct up; cbn.
  - split; [intros; apply (cmp_flip C)|intros a b d; apply (cmp_trans C)].
  - apply (flip_consistent (λ a b, localeCompare (f a) (f b))). split; [intros; apply (cmp_flip C)|intros a b d; apply (cmp_trans C)].
  - apply compareQ_consistent.
  - apply (flip_consistent (λ a b, compareQ (f a) (f b))), compareQ_consistent.
Qed.

(** ** The effects *)

(** The page is one of the list's. *)
Definition OnAPage (s : Listing) : Prop := 0 < rowsPerPage s ∧ 1 ≤ currentPage s ≤ pages s.

Lemma settled s now : OnAPage s → 0 < rowsPerPage now → 1 ≤ currentPage now → OnAPage (settle localeCompare p s now) ∧ ∃ n, settle localeCompare p s now = toPage n now.
Proof.
  intros (_ & Hs) Hk Hn. destruct (pages_bounds now Hk) as (H1 & _). unfold settle. set (now' := effects localeCompare p s now).
  assert (∃ n, now' = toPage n now ∧ 1 ≤ n ≤ pages now) as (n & -> & Hn').
  { unfold now', effects. destruct (bool_decide (currentPage s = currentPage now ∧ _)) eqn:E1.
    - apply bool_decide_eq_true in E1 as [E1 E2]. destruct (bool_decide (searchQuery s = _ ∧ _)); [|by exists 1]. exists (currentPage now). split; [by destruct now|]. lia.
    - destruct (pages now <? currentPage now) eqn:E2; [by eexists|]. apply Z.ltb_ge in E2. destruct (bool_decide (searchQuery s = _ ∧ _)); [|by exists 1].
      exists (currentPage now). split; [by destruct now|]. lia. }
  assert (effects localeCompare p now (toPage n now) = toPage n now) as ->; [|split; [by split|by exists n]].
  unfold effects. rewrite (bool_decide_true (searchQuery now = _ ∧ _)) by done. rewrite pages_toPage. cbn [currentPage toPage].
  case_bool_decide; [done|]. by replace (pages now <? n) with false by (symmetry; apply Z.ltb_ge; lia).
Qed.

Lemma effects_toPage s now : ∃ m, effects localeCompare p s now = toPage m now.
Proof. unfold effects. cbv zeta. assert (∃ m, now = toPage m now) by (exists (currentPage now); by destruct now). repeat case_match; try done; by eexists. Qed.

(** A third render's effects set nothing. *)
Lemma settle_stops s now : OnAPage s → 0 < rowsPerPage now → 1 ≤ currentPage now →
  effects localeCompare p (effects localeCompare p s now) (settle localeCompare p s now) = settle localeCompare p s now.
Proof.
  intros H Hk Hn. destruct (settled s now H Hk Hn) as [Ha (n & E)]. rewrite E in *. destruct Ha as (_ & Ha). rewrite pages_toPage in Ha. cbn in Ha.
  destruct (effects_toPage s now) as (m & ->).
  unfold effects. rewrite !pages_toPage. cbn [searchQuery selectedNamespace currentPage toPage]. rewrite (bool_decide_true (searchQuery now = searchQuery now ∧ _)) by done.
  destruct (bool_decide (m = n ∧ _)); [done|]. by replace (pages now <? n) with false by (symmetry; apply Z.ltb_ge; lia).
Qed.

Definition possible (e : Event) : Prop := match e with Fits n => 0 < n | _ => True end.

Lemma handle_page s e : OnAPage s → possible e → 0 < rowsPerPage (handle localeCompare p e s) ∧ 1 ≤ currentPage (handle localeCompare p e s).
Proof.
  intros (Hk & Hp) He. destruct e; cbn [handle]; try (cbn; split; [done|lia]); [|done..].
  unfold handleSort. destruct (negb _); [cbn; split; [done|lia]|]. destruct (asc s); cbn; split; try done; lia.
Qed.

Lemma step_page s e : OnAPage s → possible e → OnAPage (step localeCompare p s e).
Proof. intros H He. destruct (handle_page s e H He) as [Hk Hn]. by apply settled. Qed.

Lemma used_page s es : OnAPage s → Forall possible es → OnAPage (used localeCompare p s es).
Proof. revert s. induction es as [|e es IH]; [done|]. intros s H [He Hes]%Forall_cons. cbn. apply IH; [|done]. by apply step_page. Qed.

Lemma new_page ns rows n : 0 < n → OnAPage (newListing ns rows n).
Proof. intros H. split; [done|]. cbn. destruct (pages_bounds (newListing ns rows n) H). lia. Qed.

(** ** What every list page does *)

(** C13. Whatever the reader does and the server sends, the page shown is one of the
    list's, it has rows when the search finds any, and the pages together are the
    rows the search keeps, each once. *)
Theorem matches_paged_once ns rows n es :
  let s := used localeCompare p (newListing ns rows n) es in
  0 < n → Forall possible es →
  1 ≤ currentPage s ≤ pages s ∧ (found s ≠ [] → shown s ≠ []) ∧
  concat ((λ i, shown (toPage (Z.of_nat i) s)) <$> seq 1 (Z.to_nat (pages s))) ≡ₚ found s ∧
  ∀ r, r ∈ found s ↔ r ∈ rowsOf p (data s) ∧ (trim (searchQuery s) = "" ∨ ∃ t, t ∈ searched p r ∧ includes (needle p (searchQuery s)) t = true).
Proof.
  intros s Hn Hes. assert (OnAPage s) as [Hk Hs] by (by apply used_page; [apply new_page|]). destruct (pages_bounds s Hk) as (H1 & H2 & _). split_and!; [lia..| | |].
  - by apply shown_some.
  - rewrite (list_fmap_ext _ (λ i, paged (inOrder s) (Z.of_nat i) (rowsPerPage s))) by done.
    rewrite paged_upto by done. rewrite take_ge by nia. apply sorted_permutation.
  - intros r. unfold ListPage.found, filtered. destruct (eqs (trim (searchQuery s)) "") eqn:E.
    + apply eqs_true in E. by rewrite E; split; [intros H; split; [done|by left]|intros [? _]].
    + assert (trim (searchQuery s) ≠ "") as Hq by (intros Hq; by rewrite Hq in E). rewrite elem_of_filterb. unfold matches. rewrite some_true.
      split; [intros [Hr ?]; split; [done|by right]|intros [Hr [He|He]]; [done|by split]].
Qed.

(** A click on a column's header, and what it leaves. *)
Lemma step_click s k :
  let s' := step localeCompare p s (ClicksColumn k) in
  sortKey s' = sortKey (handleSort k s) ∧ asc s' = asc (handleSort k s) ∧ found s' = found s ∧
  inOrder s' = sorted localeCompare p (sortKey (handleSort k s)) (asc (handleSort k s)) (found s).
Proof.
  assert (∀ b t, sortKey (effects localeCompare p b t) = sortKey t ∧ asc (effects localeCompare p b t) = asc t ∧ found (effects localeCompare p b t) = found t) as E
    by (intros b t; unfold effects; repeat case_match; done).
  cbv zeta. unfold step, settle, ListPage.inOrder. destruct (E (handle localeCompare p (ClicksColumn k) s) (effects localeCompare p s (handle localeCompare p (ClicksColumn k) s))) as (-> & -> & ->).
  destruct (E s (handle localeCompare p (ClicksColumn k) s)) as (-> & -> & ->). cbn [handle]. assert (found (handleSort k s) = found s) as ->; [|done].
  unfold handleSort. by repeat case_match.
Qed.

Lemma sorted_arranged (C : Consistent localeCompare) k up rows (R : relation value) `{Rdec : !RelDecision R} :
  (∀ a b, compareRows localeCompare up (getValue p k) a b ≤ 0 ↔ R a b) → Arranged R rows (sorted localeCompare p (Some k) up rows).
Proof. intros H. apply sortBy_arranged; [by apply compareRows_consistent|done]. Qed.

(** A search typed on a page beyond its last page of results opens that last page,
    not the first, although a search returns to page one: the effect that clamps the
    page read the page before. *)
Theorem search_opens_last_page s q :
  OnAPage s → q ≠ searchQuery s → pages (handle localeCompare p (Searches q) s) < currentPage s →
  currentPage (step localeCompare p s (Searches q)) = pages (step localeCompare p s (Searches q)).
Proof.
  intros [Hk Hs] Hq Hp. unfold step, settle. set (now := handle localeCompare p (Searches q) s) in *.
  assert (currentPage now = currentPage s) as Hc by done.
  assert (effects localeCompare p s now = toPage (pages now) now) as ->.
  { unfold effects. rewrite (bool_decide_false (currentPage s = currentPage now ∧ _)) by (intros [_ E]; lia). rewrite Hc. by apply Z.ltb_lt in Hp as ->. }
  unfold effects. rewrite (bool_decide_true (searchQuery now = _ ∧ _)) by done. rewrite pages_toPage. cbn [currentPage toPage]. rewrite Z.ltb_irrefl.
  by case_bool_decide.
Qed.
End pages.
