(* ===== verification/ListWorkloads.v ===== *)
(** * The list pages of workloads

    pages/workloads/{Deployments,StatefulSets,DaemonSets,ReplicaSets,Jobs,CronJobs,
    HPAs,VPAs,PDBs}.tsx over [ListPage], with what they use of their helpers and
    utils/workloadStatus.ts.  [tr] is the translation, [now] the clock. *)

From Stdlib Require Import QArith.
From S2P Require Import Prelude JsString OrderedMap Sorting Json Time ListPage.

#[local] Open Scope string_scope.
#[local] Open Scope Z_scope.

Definition lowerStatus (r : value) : string := toLowerCase (field_ "status" r).

(** What the cards of the workload pages tell apart. *)
Inductive Bucket := Healthy | Idle | Degraded | Unavailable.
#[export] Instance Bucket_dec : EqDecision Bucket.
Proof. solve_decision. Defined.

Definition bucketCard (name : string) (bucket : value → Bucket) (b : Bucket) : string * (list value → Z) := (name, count (λ r, bucket r === b)).

Section pages.
Context (tr : string → string → string) (now : Z).

Notation parseAge := (parseAgeSeconds now).

(** utils/workloadStatus.ts *)
Definition workloadStatus (raw : value) : option string :=
  match raw with
  | VStr s => if eqs s "Available" || eqs s "Healthy" then Some "Healthy"
              else if bool_decide (s ∈ ["Progressing"; "Degraded"; "Idle"; "Unavailable"; "Failed"]) then Some s else None
  | _ => None
  end.
Definition workloadStatusLabel (raw : value) : string :=
  match workloadStatus raw with Some s => tr ("workloadStatus." +:+ s) s | None => toString (raw |? VStr "-") end.
Definition workloadStatusText (raw : value) : string := toLowerCase (toString (raw ?? VStr "") +:+ " " +:+ workloadStatusLabel raw).

(** ** Deployments *)

Definition computeDeploymentStatus (replicas readyReplicas : Z) : string :=
  if readyReplicas =? 0 then "Unavailable" else if negb (readyReplicas =? replicas) then "Degraded" else "Healthy".

Definition noneAvailable (r : value) : bool := positive_ "replicas" r && (numField "available_replicas" r =? 0).

Definition classifyDeploymentStatus (status : string) (r : value) : Bucket :=
  if noneAvailable r then Unavailable else
  let lower := toLowerCase status in
  if includes "unavailable" lower || includes "failed" lower then Unavailable
  else if includes "healthy" lower || includes "available" lower then Healthy
  else Degraded.

Definition deploymentBucket (r : value) : Bucket :=
  classifyDeploymentStatus
    (if truthy (r .@ "status") then toString (r .@ "status") else computeDeploymentStatus (numField "replicas" r) (numField "ready_replicas" r)) r.

Definition deployments : ListPage := {|
  completed := asIs;
  searched r := [lower (field_ "name") r; lower (field_ "namespace") r; lower (field_ "image") r; workloadStatusText (r .@ "status")];
  columns := [("name", ByText (field_ "name"));
              ("ready", ByNumber (λ r, ratio (numField "ready_replicas" r) (numField "replicas" r)));
              ("updated", byNum (numField "updated_replicas"));
              ("available", byNum (numField "available_replicas"));
              ("status", ByText (field_ "status"));
              ("image", ByText (field_ "image"));
              ("age", byNum parseAge)];
  cards := [total; bucketCard "healthy" deploymentBucket Healthy; bucketCard "degraded" deploymentBucket Degraded;
            bucketCard "unavailable" deploymentBucket Unavailable];
  needle := toLowerCase
|}.

(** ** StatefulSets, DaemonSets and ReplicaSets *)

(** Their summaries read the status the same way. *)
Definition replicaBucket (r : value) : Bucket :=
  if includes "healthy" (lowerStatus r) then Healthy
  else if includes "idle" (lowerStatus r) then Idle
  else if includes "unavailable" (lowerStatus r) then Unavailable
  else Degraded.

Definition replicaCards : list (string * (list value → Z)) :=
  [total; bucketCard "healthy" replicaBucket Healthy; bucketCard "idle" replicaBucket Idle; bucketCard "degraded" replicaBucket Degraded;
   bucketCard "unavailable" replicaBucket Unavailable].

Definition statefulsets : ListPage := {|
  completed := asIs;
  searched r := [lower (field_ "name") r];
  columns := [("name", ByText (field_ "name"));
              ("ready", ByNumber (λ r, ratio (numField "ready_replicas" r) (numField "replicas" r)));
              ("upToDate", ByNumber (λ r, ratio (numOf (r .@ "updated_replicas" ?? r .@ "current_replicas")) (numField "replicas" r)));
              ("available", byNum (numField "available_replicas"));
              ("status", ByText (field_ "status"));
              ("age", byNum parseAge);
              ("service", ByText (field_ "service_name"))];
  cards := replicaCards;
  needle := toLowerCase
|}.

Definition daemonsets : ListPage := {|
  completed := asIs;
  searched r := [lower (field_ "name") r; lower (field_ "namespace") r; workloadStatusText (r .@ "status");
                 toLowerCase (entriesText (r .@ "node_selector")); lower (joined "images") r];
  columns := [("name", ByText (field_ "name"));
              ("ready", ByNumber (λ r, ratio (numField "ready" r) (numField "desired" r)));
              ("current", byNum (numField "current"));
              ("desired", byNum (numField "desired"));
              ("updated", byNum (numField "updated"));
              ("available", byNum (numField "available"));
              ("status", ByText (field_ "status"));
              ("images", ByText (joined "images"));
              ("age", byNum parseAge)];
  cards := replicaCards;
  needle := toLowerCase
|}.

(** A ReplicaSet's controller, or its first owner. *)
Definition replicaSetOwner (rs : value) : string :=
  let refs := asArray (rs .@ "owner_references") in
  let ref := default (at0 refs) (find (λ r, truthy (r .@ "controller")) refs) in
  if negb (truthy (ref .@ "name")) then toString (rs .@ "owner_deployment" |? VStr "-")
  else if isStr (ref .@ "kind") "Deployment" then toString (ref .@ "name")
  else toString (ref .@ "kind") +:+ "/" +:+ toString (ref .@ "name").

Definition replicasets : ListPage := {|
  completed := asIs;
  searched r := [lower (field_ "name") r; lower (field_ "namespace") r; lower replicaSetOwner r; workloadStatusText (r .@ "status");
                 lower (joined "images") r; lower (joined "containers") r; toLowerCase (entriesText (r .@ "selector"))];
  columns := [("name", ByText (field_ "name"));
              ("current", byNum (numField "current_replicas"));
              ("desired", byNum (numField "replicas"));
              ("ready", byNum (numField "ready_replicas"));
              ("available", byNum (numField "available_replicas"));
              ("status", ByText (field_ "status"));
              ("containers", ByText (joined "containers"));
              ("images", ByText (joined "images"));
              ("selector", ByText (λ r, entriesText (r .@ "selector")));
              ("age", byNum parseAge)];
  cards := replicaCards;
  needle := toLowerCase
|}.

(** ** Jobs and CronJobs *)

Definition computeJobStatus (job : value) : string :=
  let explicit := textOf (job .@ "status") in
  if nonempty explicit then explicit
  else if positive_ "failed" job then "Failed"
  else if positive_ "succeeded" job then "Complete"
  else if positive_ "active" job then "Running"
  else "Pending".

(** [jobDurationSeconds]: [None] for [null]. *)
Definition jobDurationSeconds (job : value) : option Z :=
  if negb (truthy (job .@ "start_time")) then None else
  start ← Time.parseDate (toString (job .@ "start_time"));
  end_ ← (if truthy (job .@ "completion_time") then Time.parseDate (toString (job .@ "completion_time")) else Some now);
  if end_ <? start then None else Some ((end_ - start) / 1000).

(** [jobSummary]'s cards. *)
Definition jobCards : list (string * (list value → Z)) :=
  let completed_ r := isStr (r .@ "status") "Complete" in
  let failed r := isStr (r .@ "status") "Failed" in
  [total; ("completed", count completed_); ("running", λ rows, Z.of_nat (length rows) - count completed_ rows - count failed rows); ("failed", count failed)].

Definition jobs : ListPage := {|
  completed job := withField "status" (VStr (computeJobStatus job)) job;
  searched r := [lower (field_ "name") r; lower (field_ "namespace") r; lower (field_ "status") r; lower (joined "containers") r; lower (joined "images") r];
  columns := [("name", ByText (field_ "name"));
              ("completions", byNum (numField "succeeded"));
              ("status", ByText (field_ "status"));
              ("duration", byNum (λ r, default (-1) (jobDurationSeconds r)));
              ("containers", ByText (joined "containers"));
              ("images", ByText (joined "images"));
              ("age", byNum parseAge)];
  cards := jobCards;
  needle := toLowerCase
|}.

(** The instant of a time of the API, which writes one that reads. *)
Definition timeOf (v : value) : Z := match v with VStr s => default 0 (Time.parseDate s) | _ => 0 end.

Definition cronjobs : ListPage := {|
  completed := asIs;
  searched r := [lower (field_ "name") r; lower (field_ "namespace") r; lower (field_ "schedule") r; lower (field_ "concurrency_policy") r;
                 lower (joined "containers") r; lower (joined "images") r];
  columns := [("name", ByText (field_ "name"));
              ("schedule", ByText (field_ "schedule"));
              ("suspend", byNum (flag (λ r, truthy (r .@ "suspend"))));
              ("active", byNum (numField "active"));
              ("lastSchedule", byNum (λ r, timeOf (r .@ "last_schedule_time")));
              ("containers", ByText (joined "containers"));
              ("images", ByText (joined "images"));
              ("age", byNum parseAge)];
  cards := [total; ("active", count (positive_ "active")); ("suspended", count (λ r, truthy (r .@ "suspend")));
            ("scheduled", count (λ r, truthy (r .@ "last_schedule_time")))];
  needle := toLowerCase
|}.

(** ** Autoscalers and disruption budgets *)

Definition hpas : ListPage := {|
  completed := asIs;
  searched r := [lower (field_ "name") r; lower (field_ "namespace") r; lower (field_ "target_ref") r];
  columns := [("name", ByText (field_ "name"));
              ("target", ByText (field_ "target_ref"));
              ("minReplicas", byNum (numField "min_replicas"));
              ("maxReplicas", byNum (numField "max_replicas"));
              ("currentReplicas", byNum (numField "current_replicas"));
              ("desiredReplicas", byNum (numField "desired_replicas"));
              ("age", byNum parseAge)];
  cards := [total; ("active", count (λ r, truthy (r .@ "scaling_active"))); ("inactive", count (λ r, negb (truthy (r .@ "scaling_active"))))];
  needle := toLowerCase
|}.

Definition vpas : ListPage := {|
  completed := asIs;
  searched r := [lower (field_ "name") r; lower (field_ "namespace") r; lower (field_ "target_ref") r];
  columns := [("name", ByText (field_ "name"));
              ("target", ByText (field_ "target_ref"));
              ("updateMode", ByText (field_ "update_mode"));
              ("cpu", ByText (field_ "cpu_target"));
              ("memory", ByText (field_ "memory_target"));
              ("provided", ByText (field_ "provided"));
              ("minReplicas", byNum (λ r, numOf (r .@ "min_replicas" ?? VNum (-1))));
              ("oomSeconds", byNum (λ r, numOf (r .@ "evict_after_oom_seconds" ?? VNum (-1))));
              ("age", byNum parseAge)];
  cards := [total; ("provided", count (λ r, isStr (r .@ "provided") "True")); ("notProvided", count (λ r, negb (isStr (r .@ "provided") "True")))];
  needle := toLowerCase
|}.

Definition undisrupted (r : value) : bool := positive_ "disruptions_allowed" r || (numField "desired_healthy" r <=? numField "current_healthy" r).

Definition pdbs : ListPage := {|
  completed := asIs;
  searched r := [lower (field_ "name") r; lower (field_ "namespace") r];
  columns := [("name", ByText (field_ "name"));
              ("minAvailable", ByText (field_ "min_available"));
              ("maxUnavailable", ByText (field_ "max_unavailable"));
              ("allowedDisruptions", byNum (numField "disruptions_allowed"));
              ("currentHealthy", byNum (numField "current_healthy"));
              ("desiredHealthy", byNum (numField "desired_healthy"));
              ("age", byNum parseAge)];
  cards := [total; ("healthy", count undisrupted); ("disrupted", count (λ r, negb (undisrupted r)))];
  needle := toLowerCase
|}.
End pages.
