(* ===== verification/ListNetwork.v ===== *)
(** * The list pages of the network

    pages/network/{Services,Endpoints,EndpointSlices,Ingresses,IngressClasses,
    NetworkPolicies}.tsx over [ListPage], with the texts their helpers write. *)

From Stdlib Require Import QArith.
From S2P Require Import Prelude JsString OrderedMap Sorting Json ListPage.

#[local] Open Scope string_scope.
#[local] Open Scope Z_scope.

(** ** Services *)

Module Services.
Definition formatPorts (ports : value) : string :=
  match asArray ports with
  | [] => "-"
  | l => join ", " ((λ p,
      let base := toString (p .@ "protocol" |? VStr "TCP") +:+ " " +:+ toString (p .@ "port") +:+ "->" +:+ toString (p .@ "target_port" |? VStr "-") in
      if nullish (p .@ "node_port") then base else base +:+ " (node:" +:+ toString (p .@ "node_port") +:+ ")") <$> l)
  end.

Definition formatSelector (selector : value) : string :=
  match selector with
  | VObj (f :: fs) => join ", " ((λ f, f.1 +:+ "=" +:+ toString f.2) <$> f :: fs)
  | _ => "-"
  end.
End Services.

Section pages.
Context (now : Z).
Notation parseAge := (parseAgeSeconds now).

Definition services : ListPage := {|
  completed := asIs;
  searched r := [lower (field_ "name") r; lower (field_ "namespace") r; lower (field_ "type") r; lower (field_ "cluster_ip") r; lower (field_ "external_ip") r;
                 toLowerCase (Services.formatPorts (r .@ "ports")); toLowerCase (Services.formatSelector (r .@ "selector"))];
  columns := [("name", ByText (field_ "name"));
              ("type", ByText (field_ "type"));
              ("clusterIp", ByText (field_ "cluster_ip"));
              ("externalIp", ByText (field_ "external_ip"));
              ("ports", ByText (λ r, Services.formatPorts (r .@ "ports")));
              ("selector", ByText (λ r, Services.formatSelector (r .@ "selector")));
              ("age", byNum parseAge)];
  cards := [total; ("clusterIP", count (λ r, eqs (lower (field_ "type") r) "clusterip"));
            ("exposed", count (λ r, eqs (lower (field_ "type") r) "nodeport" || eqs (lower (field_ "type") r) "loadbalancer"));
            ("headless", count (λ r, eqs (lower (field_ "cluster_ip") r) "none"))];
  needle := toLowerCase
|}.

(** ** Endpoints *)

Definition endpointPort (p : value) : string :=
  toString (p .@ "name" |? VStr "-") +:+ ":" +:+ toString (p .@ "port" ?? VStr "-")
    +:+ (if truthy (p .@ "protocol") then "/" +:+ toString (p .@ "protocol") else "").

Definition endpointPorts (ports : value) : string :=
  match asArray ports with [] => "-" | l => join ", " (endpointPort <$> l) end.

Definition formatAddresses (row : value) : string :=
  match texts (row .@ "ready_addresses"), texts (row .@ "not_ready_addresses") with
  | [], [] => "-"
  | ready, [] => join ", " ready
  | ready, notReady => join ", " ready +:+ " | not-ready: " +:+ join ", " notReady
  end.

Definition getEndpointAddressCount (row : value) : Z := numField "ready_count" row + numField "not_ready_count" row.

Definition endpoints : ListPage := {|
  completed := asIs;
  searched r := [lower (field_ "name") r; lower (field_ "namespace") r; lower formatAddresses r; toLowerCase (endpointPorts (r .@ "ports"));
                 toString (r .@ "ready_count"); toString (r .@ "not_ready_count")];
  columns := [("name", ByText (field_ "name"));
              ("namespace", ByText (field_ "namespace"));
              ("ready", byNum (numField "ready_count"));
              ("notReady", byNum (numField "not_ready_count"));
              ("addresses", byNum getEndpointAddressCount);
              ("ports", ByText (λ r, endpointPorts (r .@ "ports")));
              ("age", byNum parseAge)];
  cards := [total; ("withReady", count (positive_ "ready_count")); ("withNotReady", count (positive_ "not_ready_count"));
            ("totalAddresses", sumOf getEndpointAddressCount)];
  needle := toLowerCase
|}.

(** ** EndpointSlices *)

Definition slicePorts (ports : value) : string :=
  match asArray ports with
  | [] => "-"
  | l => join ", " ((λ p, endpointPort p +:+ (if truthy (p .@ "app_protocol") then " (" +:+ toString (p .@ "app_protocol") +:+ ")" else "")) <$> l)
  end.

Definition formatEndpointPreview (row : value) : string :=
  let total := numField "endpoints_total" row in
  let endpoints := asArray (row .@ "endpoints") in
  if (total =? 0) || bool_decide (endpoints = []) then "-" else
  let addresses := filterb nonempty (mjoin ((λ ep, texts (ep .@ "addresses")) <$> endpoints)) in
  if bool_decide (addresses = []) then pretty total +:+ " endpoint" +:+ (if total =? 1 then "" else "s") else
  let preview := join ", " (take 3 addresses) in
  if Nat.leb (length addresses) 3 then preview else preview +:+ " +" +:+ pretty (Z.of_nat (length addresses) - 3).

Definition resolveNotReadyCount (slice : value) : Z :=
  numOf (slice .@ "endpoints_not_ready" ?? VNum (Z.max (numField "endpoints_total" slice - numField "endpoints_ready" slice) 0)).

Definition endpointslices : ListPage := {|
  completed := asIs;
  searched r := [lower (field_ "name") r; lower (field_ "namespace") r; lower (field_ "service_name") r; lower (field_ "address_type") r;
                 lower formatEndpointPreview r; toLowerCase (slicePorts (r .@ "ports")); toString (r .@ "endpoints_total");
                 toString (r .@ "endpoints_ready"); pretty (resolveNotReadyCount r)];
  columns := [("name", ByText (field_ "name"));
              ("namespace", ByText (field_ "namespace"));
              ("service", ByText (field_ "service_name"));
              ("addressType", ByText (field_ "address_type"));
              ("endpoints", byNum (numField "endpoints_total"));
              ("ready", byNum (numField "endpoints_ready"));
              ("notReady", byNum resolveNotReadyCount);
              ("ports", ByText (λ r, slicePorts (r .@ "ports")));
              ("age", byNum parseAge)];
  cards := [total; ("withReady", count (positive_ "endpoints_ready")); ("withNotReady", count (λ r, 0 <? resolveNotReadyCount r));
            ("totalEndpoints", sumOf (numField "endpoints_total"))];
  needle := toLowerCase
|}.

(** ** Ingresses *)

Definition listed (k : string) (ing : value) : string :=
  match texts (ing .@ k) with [] => "-" | l => join ", " l end.
Definition formatHosts : value → string := listed "hosts".
Definition formatBackends : value → string := listed "backends".

Definition ingressAddresses (ing : value) : string :=
  match asArray (ing .@ "addresses") with
  | [] => "-"
  | l => join ", " ((λ a, toString (a .@ "ip" |? a .@ "hostname" |? VStr "-")) <$> l)
  end.

Definition ruleItems (rule : value) : list string :=
  let host := toString (rule .@ "host" |? VStr "*") in
  match asArray (rule .@ "paths") with
  | [] => [host +:+ ":/*"]
  | paths => (λ p, host +:+ ":" +:+ toString (p .@ "path" |? VStr "/")) <$> paths
  end.

Definition formatRules (ing : value) : string :=
  match mjoin (ruleItems <$> asArray (ing .@ "rules")) with
  | [] => "-"
  | items => if Nat.leb (length items) 2 then join ", " items
             else join ", " (take 2 items) +:+ " +" +:+ pretty (Z.of_nat (length items) - 2)
  end.

Definition hasItems (k : string) (r : value) : bool := negb (bool_decide (asArray (r .@ k) = [])).

Definition ingresses : ListPage := {|
  completed := asIs;
  searched r := [lower (field_ "name") r; lower (field_ "namespace") r; lower (field_ "class") r; lower formatHosts r; lower formatBackends r;
                 lower ingressAddresses r; lower formatRules r];
  columns := [("name", ByText (field_ "name"));
              ("namespace", ByText (field_ "namespace"));
              ("class", ByText (field_ "class"));
              ("hosts", ByText formatHosts);
              ("backends", ByText formatBackends);
              ("addresses", ByText ingressAddresses);
              ("age", byNum parseAge)];
  cards := [total; ("withClass", count (λ r, truthy (r .@ "class"))); ("withTls", count (hasItems "tls")); ("withAddress", count (hasItems "addresses"))];
  needle := toLowerCase
|}.

(** ** IngressClasses *)

Definition part (p : value) (k before after : string) : string := if truthy (p .@ k) then before +:+ toString (p .@ k) +:+ after else "".

Definition formatParameters (item : value) : string :=
  let p := item .@ "parameters" in
  if negb (truthy p) then "-" else
  let text := part p "kind" "" "" +:+ part p "api_group" "." "" +:+ part p "name" "/" "" +:+ part p "scope" " (" ")" +:+ part p "namespace" " ns=" "" in
  if nonempty text then text else "-".

Definition hasKeys (k : string) (r : value) : bool := negb (bool_decide (keysOf (r .@ k) = [])).

Definition ingressclasses : ListPage := {|
  completed := asIs;
  searched r := [lower (field_ "name") r; lower (field_ "controller") r; lower formatParameters r; toLowerCase (toString (r .@ "is_default"))];
  columns := [("name", ByText (field_ "name"));
              ("controller", ByText (field_ "controller"));
              ("default", byNum (flag (λ r, truthy (r .@ "is_default"))));
              ("parameters", ByText formatParameters);
              ("age", byNum parseAge)];
  cards := [total; ("defaults", count (λ r, truthy (r .@ "is_default"))); ("withParameters", count (λ r, truthy (r .@ "parameters")));
            ("withAnnotations", count (hasKeys "annotations"))];
  needle := toLowerCase
|}.

(** ** NetworkPolicies *)

Definition formatPolicyTypes : value → string := listed "policy_types".

Definition policySelector (policy : value) : string :=
  let selector := policy .@ "pod_selector" in
  let labels := match selector .@ "match_labels" with VObj fs => (λ f, f.1 +:+ "=" +:+ toString f.2) <$> fs | _ => [] end in
  let expressions := (λ e,
    toString (e .@ "key" |? VStr "-") +:+ " " +:+ toString (e .@ "operator" |? VStr "-")
      +:+ (if hasItems "values" e then " (" +:+ toString (e .@ "values") +:+ ")" else "")) <$> asArray (selector .@ "match_expressions") in
  match (labels ++ expressions)%list with [] => "*" | all => join ", " all end.

Definition formatDefaultDeny (policy : value) : string :=
  match ((if truthy (policy .@ "default_deny_ingress") then ["Ingress"] else []) ++ (if truthy (policy .@ "default_deny_egress") then ["Egress"] else []))%list with
  | [] => "-"
  | items => join " + " items
  end.

Definition networkpolicies : ListPage := {|
  completed := asIs;
  searched r := [lower (field_ "name") r; lower (field_ "namespace") r; lower policySelector r; lower formatPolicyTypes r;
                 toString (r .@ "ingress_rules" |? VNum 0); toString (r .@ "egress_rules" |? VNum 0); lower formatDefaultDeny r];
  columns := [("name", ByText (field_ "name"));
              ("namespace", ByText (field_ "namespace"));
              ("podSelector", ByText policySelector);
              ("types", ByText formatPolicyTypes);
              ("ingressRules", byNum (numField "ingress_rules"));
              ("egressRules", byNum (numField "egress_rules"));
              ("defaultDeny", ByText formatDefaultDeny);
              ("age", byNum parseAge)];
  cards := [total; ("defaultDenyIngress", count (λ r, truthy (r .@ "default_deny_ingress")));
            ("defaultDenyEgress", count (λ r, truthy (r .@ "default_deny_egress"))); ("selectsAllPods", count (λ r, truthy (r .@ "selects_all_pods")))];
  needle := toLowerCase
|}.
End pages.
