(* ===== verification/ListGateway.v ===== *)
(** * The list pages of the Gateway API

    pages/gateway/{Gateways,GatewayClasses,HTTPRoutes,GRPCRoutes,ReferenceGrants}.tsx
    and backend-policies/useBackendPoliciesData.ts over [ListPage], with the texts
    their helpers write. *)

From Stdlib Require Import QArith.
From S2P Require Import Prelude JsString OrderedMap Sorting Json ListPage.

#[local] Open Scope string_scope.
#[local] Open Scope Z_scope.

Definition isTrue (k : string) (r : value) : bool := truthy (r .@ k).
Definition filled (k : string) (r : value) : bool := negb (bool_decide (asArray (r .@ k) = [])).
Definition keyed (k : string) (r : value) : bool := negb (bool_decide (keysOf (r .@ k) = [])).
Definition countOf (k : string) (r : value) : string := toString (r .@ k |? VNum 0).

(** What the helpers write for a list: each item's text, or [none] without any. *)
Definition itemsText (none : string) (f : value → string) (v : value) : string :=
  match asArray v with [] => none | l => join ", " (f <$> l) end.

Section pages.
Context (now : Z).
Notation parseAge := (parseAgeSeconds now).

Definition gateways : ListPage := {|
  completed := asIs;
  searched r := [lower (field_ "name") r; lower (field_ "namespace") r; lower (field_ "gateway_class_name") r; lower (field_ "status") r;
                 countOf "listeners_count" r; countOf "attached_routes" r; countOf "addresses_count" r];
  columns := [("name", ByText (field_ "name"));
              ("namespace", ByText (field_ "namespace"));
              ("class", ByText (field_ "gateway_class_name"));
              ("status", ByText (field_ "status"));
              ("listeners", byNum (numField "listeners_count"));
              ("routes", byNum (numField "attached_routes"));
              ("addresses", byNum (numField "addresses_count"));
              ("age", byNum parseAge)];
  cards := [total; ("programmed", count (isTrue "programmed")); ("accepted", count (isTrue "accepted")); ("withAddress", count (positive_ "addresses_count"))];
  needle := toLowerCase
|}.

Definition formatParametersRef (item : value) : string :=
  let ref := item .@ "parameters_ref" in
  if negb (truthy ref && isObject ref) then "-" else
  let piece k before after := if nonempty (field_ k ref) then before +:+ field_ k ref +:+ after else "" in
  (if nonempty (field_ "kind" ref) then field_ "kind" ref else "-") +:+ piece "group" "." "" +:+ piece "name" "/" "" +:+ piece "namespace" " (ns: " ")".

Definition gatewayclasses : ListPage := {|
  completed := asIs;
  searched r := [lower (field_ "name") r; lower (field_ "controller_name") r; lower (field_ "status") r; lower formatParametersRef r];
  columns := [("name", ByText (field_ "name"));
              ("controller", ByText (field_ "controller_name"));
              ("status", ByText (field_ "status"));
              ("parameters", ByText formatParametersRef);
              ("age", byNum parseAge)];
  cards := [total; ("accepted", count (isTrue "accepted")); ("withParameters", count (isTrue "parameters_ref")); ("withAnnotations", count (keyed "annotations"))];
  needle := toLowerCase
|}.

(** ** Routes *)

Definition formatHostnames (item : value) : string := itemsText "*" (λ h, toString (h |? VStr "*")) (item .@ "hostnames").

(** The columns and the cards of the two kinds of route are the same. *)
Definition routeColumns : list (string * Column) :=
  [("name", ByText (field_ "name"));
   ("namespace", ByText (field_ "namespace"));
   ("hostnames", ByText formatHostnames);
   ("parents", byNum (numField "parent_refs_count"));
   ("rules", byNum (numField "rule_count"));
   ("backends", byNum (numField "backend_refs_count"));
   ("status", ByText (field_ "status"));
   ("age", byNum parseAge)].

Definition routeCards : list (string * (list value → Z)) :=
  [total; ("accepted", count (isTrue "accepted")); ("resolvedRefs", count (isTrue "resolved_refs")); ("withHostnames", count (filled "hostnames"))].

Definition httproutes : ListPage := {|
  completed := asIs;
  searched r := [lower (field_ "name") r; lower (field_ "namespace") r; lower formatHostnames r; lower (field_ "status") r;
                 countOf "rule_count" r; countOf "parent_refs_count" r; countOf "backend_refs_count" r];
  columns := routeColumns;
  cards := routeCards;
  needle := toLowerCase
|}.

Definition grpcroutes : ListPage := {|
  completed := asIs;
  searched r := [lower (field_ "name") r; lower (field_ "namespace") r; lower formatHostnames r; lower (field_ "status") r];
  columns := routeColumns;
  cards := routeCards;
  needle := toLowerCase
|}.

(** ** ReferenceGrants *)

Definition formatFrom (item : value) : string :=
  itemsText "-" (λ f, toString (f .@ "kind" |? VStr "-") +:+ " (" +:+ toString (f .@ "namespace" |? VStr "-") +:+ ")") (item .@ "from").
Definition formatTo (item : value) : string :=
  itemsText "-" (λ t, toString (t .@ "kind" |? VStr "-") +:+ (if truthy (t .@ "name") then " (" +:+ toString (t .@ "name") +:+ ")" else "")) (item .@ "to").

Definition lengthOf (k : string) (r : value) : Z := vlength (asArray (r .@ k)).

Definition referencegrants : ListPage := {|
  completed := asIs;
  searched r := [lower (field_ "name") r; lower (field_ "namespace") r; lower formatFrom r; lower formatTo r];
  columns := [("name", ByText (field_ "name"));
              ("namespace", ByText (field_ "namespace"));
              ("from", byNum (lengthOf "from"));
              ("to", byNum (lengthOf "to"));
              ("age", byNum parseAge)];
  cards := [total; ("withFrom", count (filled "from")); ("withTo", count (filled "to")); ("withLabels", count (keyed "labels"))];
  needle := toLowerCase
|}.

(** ** Backend policies *)

Definition formatTargetRefs (item : value) : string :=
  itemsText "-" (λ r, toString (r .@ "kind" |? VStr "Service") +:+ "/" +:+ toString (r .@ "name" |? VStr "-")) (item .@ "target_refs").

Definition policyAccepted (item : value) : bool :=
  match find (λ c, isStr (c .@ "type") "Accepted") (asArray (item .@ "conditions")) with
  | Some acc => isStr (acc .@ "status") "True"
  | None => false
  end.

Definition backendpolicies : ListPage := {|
  completed := asIs;
  searched r := [lower (field_ "name") r; lower (field_ "namespace") r; lower formatTargetRefs r];
  columns := [("name", ByText (field_ "name"));
              ("namespace", ByText (field_ "namespace"));
              ("targetRef", ByText formatTargetRefs);
              ("age", byNum parseAge)];
  cards := [total; ("accepted", count policyAccepted); ("withTargetRefs", count (filled "target_refs"))];
  needle := toLowerCase
|}.
End pages.
