(* ===== verification/ListCluster.v ===== *)
(** * The list pages of cluster settings, access and configuration

    pages/cluster/{AdmissionPolicies,Leases,LimitRanges,MutatingWebhookConfigurations,
    ValidatingWebhookConfigurations,PriorityClasses,ResourceQuotas,RuntimeClasses}.tsx,
    pages/security/{Roles,RoleBindings,ClusterRoles,ClusterRoleBindings,
    ServiceAccounts}.tsx and pages/configuration/{ConfigMaps,Secrets}.tsx over
    [ListPage]. *)

From Stdlib Require Import QArith.
From S2P Require Import Prelude JsString OrderedMap Sorting Json ListPage ListGateway.

#[local] Open Scope string_scope.
#[local] Open Scope Z_scope.

(** [new Set(l).size] *)
Definition distinct (l : list string) : Z := Z.of_nat (length (remove_dups l)).

Section pages.
Context (now : Z).
Notation parseAge := (parseAgeSeconds now).

(** ** Cluster *)

Definition rulesOf (item : value) : Z := numOf (item .@ "validations_count" ?? item .@ "mutations_count" ?? VNum 0).

Definition admissionpolicies : ListPage := {|
  completed := asIs;
  searched r := lower (field_ "name") r :: (toLowerCase <$> texts (r .@ "bindings"));
  columns := [("name", ByText (field_ "name"));
              ("rules", byNum rulesOf);
              ("bindings", byNum (numField "bindings_count"));
              ("age", byNum parseAge)];
  cards := [total; ("bindings", sumOf (numField "bindings_count"))];
  needle := toLowerCase
|}.

Definition leases : ListPage := {|
  completed := asIs;
  searched r := [lower (field_ "name") r; lower (field_ "namespace") r; lower (field_ "holder_identity") r];
  columns := [("name", ByText (field_ "name"));
              ("namespace", ByText (field_ "namespace"));
              ("holder", ByText (field_ "holder_identity"));
              ("duration", byNum (numField "lease_duration_seconds"));
              ("age", byNum parseAge)];
  cards := [total; ("withHolder", count (isTrue "holder_identity"));
            ("withoutHolder", λ rows, Z.of_nat (length rows) - count (isTrue "holder_identity") rows)];
  needle := toLowerCase
|}.

Definition getLimitTypes (lr : value) : string :=
  match foldl (λ ts t, setAdd t ts) [] (filterb nonempty (field_ "type" <$> asArray (lr .@ "limits"))) with
  | [] => "-"
  | types => join ", " types
  end.

Definition limits (t : string) (lr : value) : bool := some (λ l, isStr (l .@ "type") t) (asArray (lr .@ "limits")).

Definition limitranges : ListPage := {|
  completed := asIs;
  searched r := [lower (field_ "name") r; lower (field_ "namespace") r];
  columns := [("name", ByText (field_ "name"));
              ("namespace", ByText (field_ "namespace"));
              ("types", ByText getLimitTypes);
              ("age", byNum parseAge)];
  cards := [total; ("containerLimits", count (limits "Container")); ("podLimits", count (limits "Pod"))];
  needle := toLowerCase
|}.

Definition webhookconfigurations : ListPage := {|
  completed := asIs;
  searched r := [lower (field_ "name") r];
  columns := [("name", ByText (field_ "name"));
              ("webhooksCount", byNum (numField "webhooks_count"));
              ("age", byNum parseAge)];
  cards := [total; ("totalWebhooks", sumOf (numField "webhooks_count"))];
  needle := toLowerCase
|}.

Definition priorityclasses : ListPage := {|
  completed := asIs;
  searched r := [lower (field_ "name") r; lower (field_ "description") r; lower (field_ "preemption_policy") r];
  columns := [("name", ByText (field_ "name"));
              ("value", byNum (numField "value"));
              ("globalDefault", byNum (flag (isTrue "global_default")));
              ("preemptionPolicy", ByText (field_ "preemption_policy"));
              ("age", byNum parseAge)];
  cards := [total; ("globalDefault", count (isTrue "global_default")); ("preempting", count (λ r, isStr (r .@ "preemption_policy") "PreemptLowerPriority"))];
  needle := toLowerCase
|}.

Definition quotaOf (a b : string) (rq : value) : bool := bool_decide (a ∈ keysOf (rq .@ "status_hard") ∨ b ∈ keysOf (rq .@ "status_hard")).

Definition resourcequotas : ListPage := {|
  completed := asIs;
  searched r := [lower (field_ "name") r; lower (field_ "namespace") r];
  columns := [("name", ByText (field_ "name"));
              ("namespace", ByText (field_ "namespace"));
              ("requests", byNum (λ r, Z.of_nat (length (keysOf (r .@ "status_hard")))));
              ("age", byNum parseAge)];
  cards := [total; ("withCpu", count (quotaOf "cpu" "requests.cpu")); ("withMemory", count (quotaOf "memory" "requests.memory"))];
  needle := toLowerCase
|}.

Definition runtimeclasses : ListPage := {|
  completed := asIs;
  searched r := [lower (field_ "name") r; lower (field_ "handler") r];
  columns := [("name", ByText (field_ "name"));
              ("handler", ByText (field_ "handler"));
              ("age", byNum parseAge)];
  cards := [total; ("uniqueHandlers", λ rows, distinct (field_ "handler" <$> rows))];
  needle := toLowerCase
|}.

(** ** Access *)

Definition roles : ListPage := {|
  completed := asIs;
  searched r := [lower (field_ "name") r; lower (field_ "namespace") r];
  columns := [("name", ByText (field_ "name"));
              ("namespace", ByText (field_ "namespace"));
              ("rules", byNum (numField "rules_count"));
              ("age", byNum parseAge)];
  cards := [total; ("totalRules", sumOf (numField "rules_count"))];
  needle := toLowerCase
|}.

Definition clusterroles : ListPage := {|
  completed := asIs;
  searched r := [lower (field_ "name") r];
  columns := [("name", ByText (field_ "name"));
              ("rules", byNum (numField "rules_count"));
              ("age", byNum parseAge)];
  cards := [total; ("totalRules", sumOf (numField "rules_count"))];
  needle := toLowerCase
|}.

Definition roleRefText (r : value) : string := field_ "role_ref_kind" r +:+ "/" +:+ field_ "role_ref_name" r.

Definition rolebindings : ListPage := {|
  completed := asIs;
  searched r := [lower (field_ "name") r; lower (field_ "namespace") r; lower (field_ "role_ref_name") r];
  columns := [("name", ByText (field_ "name"));
              ("namespace", ByText (field_ "namespace"));
              ("roleRef", ByText roleRefText);
              ("subjects", byNum (numField "subjects_count"));
              ("age", byNum parseAge)];
  cards := [total; ("totalSubjects", sumOf (numField "subjects_count"))];
  needle := toLowerCase
|}.

Definition clusterrolebindings : ListPage := {|
  completed := asIs;
  searched r := [lower (field_ "name") r; lower (field_ "role_ref_name") r];
  columns := [("name", ByText (field_ "name"));
              ("roleRef", ByText roleRefText);
              ("subjects", byNum (numField "subjects_count"));
              ("age", byNum parseAge)];
  cards := [total; ("totalSubjects", sumOf (numField "subjects_count"))];
  needle := toLowerCase
|}.

Definition serviceaccounts : ListPage := {|
  completed := asIs;
  searched r := [lower (field_ "name") r; lower (field_ "namespace") r];
  columns := [("name", ByText (field_ "name"));
              ("namespace", ByText (field_ "namespace"));
              ("secrets", byNum (numField "secrets"));
              ("age", byNum parseAge)];
  cards := [total; ("withPullSecrets", count (filled "image_pull_secrets"))];
  needle := toLowerCase
|}.

(** ** Configuration *)

Definition configmaps : ListPage := {|
  completed := asIs;
  searched r := [lower (field_ "name") r; lower (field_ "namespace") r];
  columns := [("name", ByText (field_ "name"));
              ("namespace", ByText (field_ "namespace"));
              ("dataCount", byNum (numField "data_count"));
              ("age", byNum parseAge)];
  cards := [total; ("totalKeys", sumOf (numField "data_count"))];
  needle := toLowerCase
|}.

Definition secrets : ListPage := {|
  completed := asIs;
  searched r := [lower (field_ "name") r; lower (field_ "namespace") r; lower (field_ "type") r];
  columns := [("name", ByText (field_ "name"));
              ("namespace", ByText (field_ "namespace"));
              ("type", ByText (field_ "type"));
              ("data", byNum (numField "data_count"));
              ("age", byNum parseAge)];
  cards := [total; ("opaque", count (λ r, isStr (r .@ "type") "Opaque"))];
  needle := toLowerCase
|}.
End pages.
