(* ===== verification/ListStorage.v ===== *)
(** * The list pages of storage, and the rest

    pages/storage/{PersistentVolumeClaims,PersistentVolumes,StorageClasses,
    VolumeAttachments}.tsx, pages/Namespaces.tsx, pages/helm/Releases.tsx,
    pages/custom-resources/CustomResourceDefinitions.tsx and pages/gpu/{ResourceClaims,
    ResourceClaimTemplates,ResourceSlices}.tsx over [ListPage].  A size is a rational:
    the double the code computes, before it is rounded. *)

From Stdlib Require Import QArith.
From S2P Require Import Prelude JsString OrderedMap Sorting Json Time ObjectRows ListPage ListGateway.

#[local] Open Scope string_scope.
#[local] Open Scope Z_scope.

(** ** Sizes *)

Fixpoint spanDigits (s : string) : string * string :=
  match s with
  | String c s' => if is_digit c then let (d, rest) := spanDigits s' in (String c d, rest) else ("", s)
  | "" => ("", "")
  end.

Definition is_letter (c : ascii) : bool :=
  let n := nat_of_ascii c in ((65 <=? n) && (n <=? 90) || (97 <=? n) && (n <=? 122))%nat.

Definition natOf (d : string) : Z := default 0 (digitsValue 0 d).

(** The number and the unit of [/^([0-9]+(?:\.[0-9]+)?)([a-zA-Z]+)?$/]. *)
Definition sizeParts (s : string) : option (Q * string) :=
  let (whole, rest) := spanDigits s in
  if negb (nonempty whole) then None else
  let plain := if sall is_letter rest then Some (inject_Z (natOf whole), rest) else None in
  match rest with
  | String "." rest' =>
      let (frac, unit) := spanDigits rest' in
      if nonempty frac && sall is_letter unit
      then Some ((inject_Z (natOf whole) + inject_Z (natOf frac) / inject_Z (10 ^ Z.of_nat (String.length frac)))%Q, unit)
      else None
  | _ => plain
  end.

Definition bin : list (string * Z) := [("Ki", 1024); ("Mi", 1024 ^ 2); ("Gi", 1024 ^ 3); ("Ti", 1024 ^ 4); ("Pi", 1024 ^ 5); ("Ei", 1024 ^ 6)].
Definition dec : list (string * Z) := [("K", 1000); ("M", 1000 ^ 2); ("G", 1000 ^ 3); ("T", 1000 ^ 4); ("P", 1000 ^ 5); ("E", 1000 ^ 6)].

Definition parseQuantityToBytes (v : value) : option Q :=
  if negb (truthy v) then None else
  let s := trim (toString v) in
  if negb (nonempty s) then None else
  '(num, unit) ← sizeParts s;
  if negb (nonempty unit) then Some num else
  match assoc unit bin with
  | Some k => Some (num * inject_Z k)%Q
  | None => match assoc unit dec with Some k => Some (num * inject_Z k)%Q | None => None end
  end.

Definition sizeColumn (k : string) : Column := ByNumber (λ r, default (-1)%Q (parseQuantityToBytes (r .@ k))).

Definition statusWord (k w : string) (r : value) : bool := eqs (lower (field_ k) r) w.

Section pages.
Context (now : Z).
Notation parseAge := (parseAgeSeconds now).

(** ** Volumes *)

Definition pvcs : ListPage := {|
  completed := asIs;
  searched r := [lower (field_ "name") r; lower (field_ "namespace") r; lower (field_ "status") r; lower (field_ "storage_class") r;
                 lower (field_ "volume_name") r; lower (field_ "requested") r; lower (field_ "capacity") r; lower (joined "access_modes") r];
  columns := [("namespace", ByText (field_ "namespace"));
              ("name", ByText (field_ "name"));
              ("status", ByText (field_ "status"));
              ("storageClass", ByText (field_ "storage_class"));
              ("volume", ByText (field_ "volume_name"));
              ("requested", sizeColumn "requested");
              ("capacity", sizeColumn "capacity");
              ("accessModes", ByText (joined "access_modes"));
              ("age", byNum parseAge)];
  cards := [total; ("bound", count (statusWord "status" "bound")); ("pending", count (statusWord "status" "pending")); ("lost", count (statusWord "status" "lost"))];
  needle := toLowerCase
|}.

Definition claimToText (claimRef : value) : string :=
  if negb (truthy (claimRef .@ "name")) then "-"
  else if truthy (claimRef .@ "namespace") then toString (claimRef .@ "namespace") +:+ "/" +:+ toString (claimRef .@ "name")
  else toString (claimRef .@ "name").

Definition pvs : ListPage := {|
  completed := asIs;
  searched r := [lower (field_ "name") r; lower (field_ "status") r; lower (field_ "storage_class") r; lower (field_ "reclaim_policy") r;
                 lower (field_ "capacity") r; lower (field_ "volume_mode") r; lower (field_ "source") r; lower (field_ "driver") r;
                 lower (field_ "node_affinity") r; toLowerCase (claimToText (r .@ "claim_ref")); lower (joined "access_modes") r];
  columns := [("name", ByText (field_ "name"));
              ("status", ByText (field_ "status"));
              ("storageClass", ByText (field_ "storage_class"));
              ("capacity", sizeColumn "capacity");
              ("accessModes", ByText (joined "access_modes"));
              ("reclaimPolicy", ByText (field_ "reclaim_policy"));
              ("claim", ByText (λ r, claimToText (r .@ "claim_ref")));
              ("volumeMode", ByText (field_ "volume_mode"));
              ("source", ByText (λ r, toString (r .@ "source" |? r .@ "driver" |? VStr "")));
              ("age", byNum parseAge)];
  cards := [total; ("bound", count (statusWord "status" "bound")); ("available", count (statusWord "status" "available"));
            ("released", count (statusWord "status" "released")); ("failed", count (statusWord "status" "failed"))];
  needle := toLowerCase
|}.

Definition storageclasses : ListPage := {|
  completed := asIs;
  searched r := [lower (field_ "name") r; lower (field_ "provisioner") r; lower (field_ "reclaim_policy") r; lower (field_ "volume_binding_mode") r;
                 toLowerCase (toString (r .@ "allow_volume_expansion" ?? VStr "")); toLowerCase (toString (r .@ "is_default"));
                 toLowerCase (join "," (keysOf (r .@ "parameters"))); lower (joined "mount_options") r];
  columns := [("name", ByText (field_ "name"));
              ("provisioner", ByText (field_ "provisioner"));
              ("default", byNum (flag (isTrue "is_default")));
              ("reclaimPolicy", ByText (field_ "reclaim_policy"));
              ("bindingMode", ByText (field_ "volume_binding_mode"));
              ("allowExpansion", byNum (flag (isTrue "allow_volume_expansion")));
              ("age", byNum parseAge)];
  cards := [total; ("defaults", count (isTrue "is_default")); ("expandable", count (isTrue "allow_volume_expansion"));
            ("waitForFirstConsumer", count (statusWord "volume_binding_mode" "waitforfirstconsumer"))];
  needle := toLowerCase
|}.

Definition hasAttachmentError (va : value) : bool := truthy (va .@ "attach_error" .@ "message" |? va .@ "detach_error" .@ "message").

Definition attachedIs (b : bool) (va : value) : bool := match va .@ "attached" with VBool b' => Bool.eqb b b' | _ => false end.

Definition statusLabel (va : value) : string :=
  if hasAttachmentError va then "Error" else if attachedIs true va then "Attached" else if attachedIs false va then "Detached" else "Unknown".

Definition volumeattachments : ListPage := {|
  completed := asIs;
  searched r := [lower (field_ "name") r; lower (field_ "attacher") r; lower (field_ "persistent_volume_name") r; lower (field_ "node_name") r;
                 toLowerCase (toString (r .@ "attached")); lower statusLabel r; toLowerCase (textOf (r .@ "attach_error" .@ "message"));
                 toLowerCase (textOf (r .@ "detach_error" .@ "message"))];
  columns := [("name", ByText (field_ "name"));
              ("attacher", ByText (field_ "attacher"));
              ("pv", ByText (field_ "persistent_volume_name"));
              ("node", ByText (field_ "node_name"));
              ("attached", byNum (λ r, if attachedIs true r then 1 else if attachedIs false r then 0 else -1));
              ("error", byNum (flag hasAttachmentError));
              ("age", byNum parseAge)];
  cards := [total; ("attached", count (attachedIs true)); ("detached", count (attachedIs false)); ("errors", count hasAttachmentError)];
  needle := toLowerCase
|}.

(** ** Namespaces, releases, definitions *)

(** [parseCreatedDays] of a time that reads. *)
Definition parseCreatedDays (createdAt : value) : Z :=
  if truthy createdAt then (now - default 0 (parseDate (toString createdAt))) / 86400000 else 0.

Definition namespaces : ListPage := {|
  completed := asIs;
  searched r := [lower (field_ "name") r];
  columns := [("name", ByText (field_ "name"));
              ("status", ByText (field_ "status"));
              ("age", byNum (λ r, parseCreatedDays (r .@ "created_at")))];
  cards := [total; ("active", count (statusWord "status" "active")); ("terminating", count (λ r, includes "terminating" (lower (field_ "status") r)))];
  needle := toLowerCase
|}.

(** The cards of this page count every release, not those the search finds. *)
Definition releases : ListPage := {|
  completed := asIs;
  searched r := [lower (field_ "name") r; lower (field_ "chart") r];
  columns := [("name", ByText (field_ "name"));
              ("namespace", ByText (field_ "namespace"));
              ("revision", byNum (numField "revision"));
              ("status", ByText (field_ "status"));
              ("chart", ByText (field_ "chart"));
              ("chartVersion", ByText (field_ "chartVersion"));
              ("appVersion", ByText (field_ "appVersion"));
              ("updated", byNum (λ r, if truthy (r .@ "updated") then default 0 (parseDate (toString (r .@ "updated"))) else 0))];
  cards := [total; ("deployed", count (statusWord "status" "deployed")); ("failed", count (statusWord "status" "failed"));
            ("pending", count (λ r, startsWith "pending" (lower (field_ "status") r))); ("superseded", count (statusWord "status" "superseded"))];
  needle q := toLowerCase (trim q)
|}.

Definition versionsText (crd : value) : string :=
  CRDs.crdVersionsText (field_ "version" crd) (if nullish (crd .@ "served_versions") then None else Some (texts (crd .@ "served_versions"))).

Definition customresourcedefinitions : ListPage := {|
  completed := asIs;
  searched r := [lower (field_ "name") r; lower (field_ "group") r; lower (field_ "kind") r];
  columns := [("name", ByText (field_ "name"));
              ("group", ByText (field_ "group"));
              ("version", ByText versionsText);
              ("scope", ByText (field_ "scope"));
              ("kind", ByText (field_ "kind"));
              ("age", byNum parseAge)];
  cards := [total; ("namespaced", count (λ r, isStr (r .@ "scope") "Namespaced")); ("cluster", count (λ r, negb (isStr (r .@ "scope") "Namespaced")))];
  needle := toLowerCase
|}.

(** ** Dynamic resources *)

Definition stateWords (item : value) : list string := filterb nonempty (split "," (textOf (item .@ "state" ?? VStr ""))).
Definition inState (w : string) (item : value) : bool := bool_decide (w ∈ stateWords item).

Definition resourceclaims : ListPage := {|
  completed := asIs;
  searched r := [lower (field_ "name") r; lower (field_ "namespace") r; lower (field_ "state") r];
  columns := [("name", ByText (field_ "name"));
              ("namespace", ByText (field_ "namespace"));
              ("state", ByText (field_ "state"));
              ("requests", byNum (numField "request_count"));
              ("age", byNum parseAge)];
  cards := [total; ("allocated", count (inState "allocated")); ("reserved", count (inState "reserved")); ("pending", count (inState "pending"))];
  needle := toLowerCase
|}.

Definition resourceclaimtemplates : ListPage := {|
  completed := asIs;
  searched r := [lower (field_ "name") r; lower (field_ "namespace") r];
  columns := [("name", ByText (field_ "name"));
              ("namespace", ByText (field_ "namespace"));
              ("requests", byNum (numField "request_count"));
              ("age", byNum parseAge)];
  cards := [total];
  needle := toLowerCase
|}.

Definition resourceslices : ListPage := {|
  completed := asIs;
  searched r := lower (field_ "name") r :: (toLowerCase <$> filterb nonempty [field_ "node_name" r; field_ "driver_name" r; field_ "pool_name" r]);
  columns := [("name", ByText (field_ "name"));
              ("node", ByText (field_ "node_name"));
              ("driver", ByText (field_ "driver_name"));
              ("pool", ByText (field_ "pool_name"));
              ("devices", byNum (numField "device_count"));
              ("age", byNum parseAge)];
  cards := [total; ("totalDevices", sumOf (numField "device_count"))];
  needle := toLowerCase
|}.
End pages.
