(* ===== verification/ListKinds.v ===== *)
(** * The list pages of several kinds, and of GPUs

    pages/gateway/Policies.tsx and pages/custom-resources/CustomResourceInstances.tsx:
    tables of objects of any kind, with a filter that names each kind, over [ListPage];
    custom-resources/readNotice.ts: what could not be listed.  pages/gpu/GPUPods.tsx,
    gpu-nodes/useGPUNodesData.ts, gpuNodesHelpers.ts and
    device-classes/useDeviceClassesData.ts: the tables of GPUs, whose cards count every
    row ([Gpu]).

    A filter is applied to the rows before the search; a page with one goes back to its
    first page when it changes, as it does for a search. *)

From Stdlib Require Import QArith Qminmax.
From S2P Require Import Prelude JsString OrderedMap Sums Sorting Json ListPage ListGateway ListStorage.

#[local] Open Scope string_scope.
#[local] Open Scope Z_scope.

(** ** Names of kinds *)

(** A kind is told by its name, and by its group too where two groups share the name. *)
Definition labelOf (shared : bool) (kind group : string) : string := if shared then kind +:+ " (" +:+ group +:+ ")" else kind.

Section pages.
Context (now : Z) (localeCompare : string → string → Z).
Abbreviation parseAge := (parseAgeSeconds now).

(** ** Policies of the Gateway API *)

Definition formatPolicyTargets (item : value) : string :=
  itemsText "-" (λ t,
    let ns := if truthy (t .@ "namespace") then toString (t .@ "namespace") +:+ "/" else "" in
    let section := if truthy (t .@ "section") then "#" +:+ toString (t .@ "section") else "" in
    toString (t .@ "kind" |? VStr "?") +:+ " " +:+ ns +:+ textOf (t .@ "name") +:+ section) (item .@ "targets").

Definition kindKey (group kind : string) : string := group +:+ "/" +:+ kind.
Definition keyOf (i : value) : string := kindKey (field_ "group" i) (field_ "kind" i).

Definition policies : ListPage := {|
  completed := asIs;
  searched r := [lower (field_ "name") r; lower (field_ "namespace") r; lower (field_ "kind") r; lower (field_ "group") r; lower formatPolicyTargets r];
  columns := [("kind", ByText (field_ "kind"));
              ("name", ByText (field_ "name"));
              ("namespace", ByText (field_ "namespace"));
              ("target", ByText formatPolicyTargets);
              ("age", byNum parseAge)];
  cards := [total; ("kinds", λ rows, Z.of_nat (length (setOf (keyOf <$> rows)))); ("accepted", count (λ r, strictEq (r .@ "accepted") (VBool true)))];
  needle := toLowerCase
|}.

(** The groups of each kind's name, and the names two groups share. *)
Definition groupsOf (kinds : list value) : list (string * list string) :=
  tally (field_ "kind") [] (λ k, setAdd (field_ "group" k)) kinds.
Definition sharedKinds (kinds : list value) : list string := (filterb (λ g, Nat.ltb 1 (length g.2)) (groupsOf kinds)).*1.

Definition kindLabel (kinds : list value) (k : value) : string :=
  labelOf (bool_decide (field_ "kind" k ∈ sharedKinds kinds)) (field_ "kind" k) (field_ "group" k).

(** The first of the items with each key. *)
Definition firstOf (key : value → string) (items : list value) : list (string * value) :=
  foldl (λ m i, if hasKey (key i) m then m else upsert i (key i) (λ _, i) m) [] items.

Definition byLabel (a b : string * string) : Z := localeCompare a.2 b.2.

Definition kindOptions (kinds items : list value) : list (string * string) :=
  sortBy byLabel ((λ e, (keyOf e.2, kindLabel kinds e.2)) <$> firstOf keyOf items).

Definition keptPolicies (kindFilter namespaceFilter : string) (items : list value) : list value :=
  let byKind := if nonempty kindFilter then filterb (λ i, eqs (keyOf i) kindFilter) items else items in
  if nonempty namespaceFilter then filterb (λ i, isStr (i .@ "namespace") namespaceFilter) byKind else byKind.

Definition filteredPolicies (kindFilter namespaceFilter searchQuery : string) (items : list value) : list value :=
  filtered policies searchQuery (VArr (keptPolicies kindFilter namespaceFilter items)).

(** ** Instances of custom resources *)

Definition crdOf (i : value) : string := textOf (i .@ "crd_name").

Definition instances : ListPage := {|
  completed := asIs;
  searched r := [lower (field_ "name") r; lower (field_ "namespace") r; lower (field_ "kind") r; lower (field_ "group") r];
  columns := [("name", ByText (field_ "name"));
              ("namespace", ByText (field_ "namespace"));
              ("kind", ByText (field_ "kind"));
              ("group", ByText (field_ "group"));
              ("age", byNum parseAge)];
  cards := [total; ("kinds", λ rows, Z.of_nat (length (setOf (filterb nonempty (crdOf <$> rows)))));
            ("namespaces", λ rows, Z.of_nat (length (setOf (filterb nonempty (field_ "namespace" <$> rows)))))];
  needle := toLowerCase
|}.

Definition byCRD (items : list value) : list (string * value) := firstOf crdOf (filterb (λ i, nonempty (crdOf i)) items).

(** How many resources have the name of each kind. *)
Definition named (items : list value) : list (string * Z) := tally (λ e, field_ "kind" e.2) 0 (λ _ n, n + 1) (byCRD items).

Definition instanceOptions (items : list value) : list (string * string) :=
  sortBy byLabel ((λ e, (e.1, labelOf (1 <? default 0 (assoc (field_ "kind" e.2) (named items))) (field_ "kind" e.2) (field_ "group" e.2))) <$> byCRD items).

Definition keptInstances (kindFilter : string) (items : list value) : list value :=
  if nonempty kindFilter then filterb (λ i, isStr (i .@ "crd_name") kindFilter) items else items.

Definition filteredInstances (kindFilter searchQuery : string) (items : list value) : list value :=
  filtered instances searchQuery (VArr (keptInstances kindFilter items)).

(** ** What could not be listed *)

Record ListFailure := { f_kind : string; f_code : Z; f_error : string }.

(** A line: the kinds refused, or those that failed with one code (none: no answer). *)
Inductive NoticeLine := Refused (kinds : list string) | NotLoaded (code : option Z) (kinds : list string) (errors : list string).

Definition groupByCode (failed : list ListFailure) : list (string * list ListFailure) :=
  tally (λ f, pretty (f_code f)) [] (λ f l, (l ++ [f])%list) failed.

Definition codeOf (g : string * list ListFailure) : Z := match g.2 with f :: _ => f_code f | [] => 0 end.

Definition crReadNotice (forbidden : list string) (failed : list ListFailure) : list NoticeLine :=
  match forbidden with [] => [] | _ => [Refused forbidden] end ++
  ((λ g, NotLoaded (if codeOf g =? 0 then None else Some (codeOf g)) (f_kind <$> g.2) ((λ f, f_kind f +:+ ": " +:+ f_error f) <$> g.2)) <$>
    sortBy (λ a b, codeOf a - codeOf b) (groupByCode failed)).

(** ** GPUs *)

Definition deviceclasses : ListPage := {|
  completed := asIs;
  searched r := [lower (field_ "name") r];
  columns := [("name", ByText (field_ "name")); ("selectors", byNum (numField "selector_count")); ("age", byNum parseAge)];
  cards := [total];
  needle := toLowerCase
|}.

(** [vendors.map((v) => v.vendor).join(', ')]. *)
Definition vendorText (r : value) : string := join ", " ((λ v, field_ "vendor" v) <$> asArray (r .@ "gpu_vendors")).

Definition gpuPods : ListPage := {|
  completed := asIs;
  searched r := [lower (field_ "name") r; lower (field_ "namespace") r; lower (field_ "node_name") r; lower vendorText r];
  columns := [("namespace", ByText (field_ "namespace")); ("name", ByText (field_ "name")); ("node_name", ByText (field_ "node_name"));
              ("gpu_requested", byNum (numField "gpu_requested")); ("gpu_vendor", ByText vendorText); ("status", ByText (field_ "status")); ("age", byNum parseAge)];
  cards := [];
  needle := toLowerCase
|}.

Definition MEBIBYTES : list (string * Z) := [("m", 1); ("g", 1024); ("t", 1024 * 1024)].

(** A part that is [/^\s*(\d+(?:\.\d+)?)\s*([mgt])?(?:i?b)?\s*$/i], in mebibytes. *)
Definition partMiB (part : string) : Q :=
  let (whole, rest) := spanDigits (trim part) in
  let '(frac, rest) := match rest with
    | String "." r => let (f, r') := spanDigits r in if nonempty f then (f, r') else ("", rest)
    | _ => ("", rest)
    end in
  let unit := toLowerCase (trimStart rest) in
  let size := (inject_Z (natOf whole) + inject_Z (natOf frac) / inject_Z (10 ^ Z.of_nat (String.length frac)))%Q in
  let ends s := bool_decide (s ∈ [""; "b"; "ib"]) in
  if negb (nonempty whole) then (-1)%Q
  else if ends unit then size
  else match unit with
  | String c s => match assoc (String c "") MEBIBYTES with Some k => if ends s then (size * inject_Z k)%Q else (-1)%Q | None => (-1)%Q end
  | "" => size
  end.

Definition gpuMemoryMiB (memory : string) : Q :=
  match partMiB <$> split "," memory with x :: l => foldl (λ a b, Qmax a b) x l | [] => (-1)%Q end.

Definition gpuNodes : ListPage := {|
  completed := asIs;
  searched r := [lower (field_ "name") r; lower vendorText r; lower (field_ "gpu_model") r; lower (field_ "driver_version") r];
  columns := [("name", ByText (field_ "name")); ("gpu_vendor", ByText vendorText); ("gpu_model", ByText (field_ "gpu_model"));
              ("gpu_memory", ByNumber (λ r, gpuMemoryMiB (field_ "gpu_memory" r)));
              ("gpu_capacity", byNum (numField "gpu_capacity")); ("gpu_allocatable", byNum (numField "gpu_allocatable"));
              ("status", ByText (field_ "status")); ("mig_strategy", ByText (field_ "mig_strategy"))];
  cards := [];
  needle := toLowerCase
|}.
End pages.

(** ** What is told apart *)

Lemma labelOf_inj b b' k k' g g' :
  free_of " " k → free_of " " k' → labelOf b k g = labelOf b' k' g' → k = k' ∧ (b = true → b' = true → g = g').
Proof.
  intros Hk Hk' E.
  assert (∀ a c t, free_of " " a → c +:+ String " " t ≠ a) as Hne by (intros a c t Ha <-; by apply free_of_app in Ha as [_ [Hs _]%free_of_cons]).
  destruct b, b'; unfold labelOf in E.
  - apply (free_prefix_inj " " k k') in E as [-> [= E]]; [|done..]. split; [done|]. intros _ _. by apply app_inj_r_s in E.
  - by destruct (Hne k' k ("(" +:+ g +:+ ")")).
  - by destruct (Hne k k' ("(" +:+ g' +:+ ")")).
  - by split.
Qed.

Lemma firstOf_spec key items :
  NoDup (firstOf key items).*1 ∧ (∀ e, e ∈ firstOf key items → e.1 = key e.2 ∧ e.2 ∈ items) ∧ ∀ i, i ∈ items → key i ∈ (firstOf key items).*1.
Proof.
  unfold firstOf. induction items as [|i items (IHn & IHe & IHk)] using rev_ind.
  - split_and!; [by apply NoDup_nil|by intros e ?%elem_of_nil..].
  - rewrite foldl_app. cbn [foldl]. set (m := foldl _ [] items) in *. destruct (hasKey (key i) m) eqn:E.
    + split_and!; [done|..].
      * intros e He. destruct (IHe e He) as [? ?]. split; [done|]. apply elem_of_app. by left.
      * intros j [Hj| ->%list_elem_of_singleton]%elem_of_app; [by apply IHk|by apply hasKey_true].
    + split_and!; [by apply upsert_nodup|..].
      * intros e He. rewrite (upsert_new _ _ _ _ E) in He. apply elem_of_app in He as [He| ->%list_elem_of_singleton].
        -- destruct (IHe e He) as [? ?]. split; [done|]. apply elem_of_app. by left.
        -- split; [done|]. apply elem_of_app. right. by left.
      * intros j [Hj| ->%list_elem_of_singleton]%elem_of_app; apply elem_upsert_keys; [left; by apply IHk|by right].
Qed.

Section labels.
Context (e_shared : value → bool) (l : list (string * value)).
Local Abbreviation kind_ e := (field_ "kind" e.2).
Local Abbreviation group_ e := (field_ "group" e.2).

Lemma labels_nodup :
  NoDup l.*1 → (∀ e, e ∈ l → free_of " " (kind_ e)) →
  (∀ e e', e ∈ l → e' ∈ l → kind_ e = kind_ e' → e_shared e.2 = false ∨ e_shared e'.2 = false ∨ group_ e = group_ e' → e.1 = e'.1) →
  NoDup ((λ e, labelOf (e_shared e.2) (kind_ e) (group_ e)) <$> l).
Proof.
  intros Hnd Hfree Hkey. apply NoDup_fmap_2_strong; [|by apply NoDup_fmap_1 in Hnd]. intros e e' He He' E.
  assert (e.1 = e'.1) as E1.
  { destruct (labelOf_inj _ _ _ _ _ _ (Hfree e He) (Hfree e' He') E) as [Hk Hg]. apply Hkey; [done..|].
    destruct (e_shared e.2), (e_shared e'.2); [right; right; by apply Hg|by right; left|by left|by left]. }
  apply (elem_assoc e.1 l e.2) in Hnd as Ha; [|by destruct e]. apply (elem_assoc e'.1 l e'.2) in Hnd as Ha'; [|by destruct e'].
  destruct e as [k v], e' as [k' v']. cbn in *. rewrite <-E1 in *. congruence.
Qed.
End labels.

Lemma sorted_nodup (localeCompare : string → string → Z) (f : string * string → string) l :
  NoDup (f <$> l) → NoDup (f <$> sortBy (byLabel localeCompare) l).
Proof. by rewrite sortBy_permutation. Qed.

(** The kind's name is shared where two groups have it. *)
Lemma groups_of_kind kinds k k' :
  k ∈ kinds → k' ∈ kinds → field_ "kind" k = field_ "kind" k' → field_ "kind" k ∉ sharedKinds kinds → field_ "group" k = field_ "group" k'.
Proof.
  intros Hk Hk' E Hn. set (same := filterb (λ x, eqs (field_ "kind" k) (field_ "kind" x)) kinds).
  assert (k ∈ same) as H1 by (apply elem_of_filterb; by rewrite eqs_refl). assert (k' ∈ same) as H2 by (apply elem_of_filterb; by rewrite E, eqs_refl).
  assert (assoc (field_ "kind" k) (groupsOf kinds) = Some (setOf (field_ "group" <$> same))) as Ha.
  { unfold groupsOf. rewrite tally_lookup. fold same. destruct same as [|x xs]; [by apply elem_of_nil in H1|]. f_equal. unfold setOf. generalize (@nil string).
    generalize (x :: xs). intros ys. induction ys as [|y ys IH]; intros s; [done|]. cbn [foldl fmap list_fmap]. apply IH. }
  destruct (setOf (field_ "group" <$> same)) as [|g [|]] eqn:Es.
  - assert (field_ "group" k ∈ setOf (field_ "group" <$> same)) as Hin by (by apply elem_setOf, list_elem_of_fmap_2). rewrite Es in Hin. by apply elem_of_nil in Hin.
  - assert (∀ x, x ∈ same → field_ "group" x = g) as Hg; [|by rewrite (Hg k), (Hg k')].
    intros x Hx. apply list_elem_of_singleton. rewrite <-Es. by apply elem_setOf, list_elem_of_fmap_2.
  - destruct Hn. unfold sharedKinds. apply assoc_elem in Ha. apply list_elem_of_fmap. exists (field_ "kind" k, g :: s :: l). split; [done|].
    apply elem_of_filterb. by split.
Qed.

Lemma keyOf_inj i j : free_of "/" (field_ "group" i) → free_of "/" (field_ "group" j) → keyOf i = keyOf j →
  field_ "kind" i = field_ "kind" j ∧ field_ "group" i = field_ "group" j.
Proof. intros Hi Hj E. by apply (free_prefix_inj "/" _ _ _ _ Hi Hj) in E as [-> ->]. Qed.

Lemma nonempty_key i : nonempty (keyOf i) = true.
Proof. unfold keyOf, kindKey. by destruct (field_ "group" i). Qed.

(** The filter of policies has one line for each kind of its group, each with its own
    words, and the line of a policy keeps the policies of its group and kind. *)
Theorem kind_options_tell_apart localeCompare kinds items :
  (∀ i, i ∈ items → ∃ k, k ∈ kinds ∧ field_ "kind" k = field_ "kind" i ∧ field_ "group" k = field_ "group" i) →
  (∀ i, i ∈ items → free_of " " (field_ "kind" i) ∧ free_of "/" (field_ "group" i)) →
  NoDup (kindOptions localeCompare kinds items).*1 ∧ NoDup (kindOptions localeCompare kinds items).*2 ∧
  ∀ i, i ∈ items → ∃ o, o ∈ kindOptions localeCompare kinds items ∧ o.2 = kindLabel kinds i ∧
    ∀ j, j ∈ keptPolicies o.1 "" items ↔ j ∈ items ∧ field_ "kind" j = field_ "kind" i ∧ field_ "group" j = field_ "group" i.
Proof.
  intros Hk Hfree. destruct (firstOf_spec keyOf items) as (Hnd & He & Hin). unfold kindOptions. split_and!.
  - apply sorted_nodup. rewrite <-list_fmap_compose. erewrite list_fmap_ext; [exact Hnd|]. intros k e Hl. cbn. symmetry. apply He. by eapply list_elem_of_lookup_2.
  - apply sorted_nodup. rewrite <-list_fmap_compose. unfold compose, kindLabel. cbn [snd].
    set (shared := λ k, bool_decide (field_ "kind" k ∈ sharedKinds kinds)). apply (labels_nodup shared); [done|intros e Hl; by apply (Hfree e.2), He|].
    intros e e' Hl Hl' Ek Hor. destruct (He e Hl) as [E1 Hi], (He e' Hl') as [E1' Hi'].
    enough (field_ "group" e.2 = field_ "group" e'.2) as Eg by (rewrite E1, E1'; unfold keyOf; by rewrite Ek, Eg).
    destruct (Hk e.2 Hi) as (k & Hkin & K1 & K2), (Hk e'.2 Hi') as (k' & Hkin' & K1' & K2'). destruct Hor as [Hs|[Hs|Hs]]; [..|done].
    + rewrite <-K2, <-K2'. apply (groups_of_kind kinds); [done..|congruence|]. rewrite K1. by apply bool_decide_eq_false in Hs.
    + rewrite <-K2, <-K2'. apply (groups_of_kind kinds); [done..|congruence|]. rewrite K1, Ek. by apply bool_decide_eq_false in Hs.
  - intros i Hi. pose proof (Hin i Hi) as (e & Ee & Hl)%list_elem_of_fmap. destruct (He e Hl) as [E1 Hi'].
    rewrite E1 in Ee. destruct (keyOf_inj _ _ (proj2 (Hfree _ Hi)) (proj2 (Hfree _ Hi')) Ee) as [Ek Eg].
    exists (keyOf e.2, kindLabel kinds e.2). split_and!.
    + rewrite sortBy_permutation. by apply (list_elem_of_fmap_2 (λ e, (keyOf e.2, kindLabel kinds e.2))).
    + unfold kindLabel. cbn [snd]. by rewrite Ek, Eg.
    + intros j. cbn [fst]. assert (keptPolicies (keyOf e.2) "" items = filterb (λ i, eqs (keyOf i) (keyOf e.2)) items) as ->
        by (unfold keptPolicies; by rewrite nonempty_key).
      rewrite elem_of_filterb, eqs_true, <-Ee. split.
      * intros [Hj E]. destruct (keyOf_inj _ _ (proj2 (Hfree _ Hj)) (proj2 (Hfree _ Hi)) E). by split_and!.
      * intros (Hj & E & Eg'). split; [done|]. unfold keyOf. by rewrite E, Eg'.
Qed.

Lemma named_count l k : assoc k (tally (λ e : string * value, field_ "kind" e.2) 0 (λ _ n, n + 1) l) =
  match filterb (λ e, eqs k (field_ "kind" e.2)) l with [] => None | xs => Some (Z.of_nat (length xs)) end.
Proof.
  rewrite tally_lookup. destruct (filterb _ l) as [|x xs]; [done|]. f_equal. generalize (x :: xs). intros ys.
  enough (∀ n, foldl (λ b (_ : string * value), b + 1) n ys = n + Z.of_nat (length ys)) as H by apply (H 0).
  induction ys as [|y ys IH]; intros n; cbn [foldl length]; [lia|]. rewrite IH. lia.
Qed.

Lemma two_in_short {A} (x y : A) l : x ∈ l → y ∈ l → (length l ≤ 1)%nat → x = y.
Proof.
  destruct l as [|a [|b l]]; cbn [length]; [by intros ?%elem_of_nil| |lia]. by intros ->%list_elem_of_singleton ->%list_elem_of_singleton.
Qed.

(** The filter of instances has one line for each resource definition, each with its
    own words. *)
Theorem instance_options_tell_apart localeCompare items :
  (∀ i, i ∈ items → free_of " " (field_ "kind" i)) →
  (∀ i j, i ∈ items → j ∈ items → field_ "kind" i = field_ "kind" j → field_ "group" i = field_ "group" j → crdOf i = crdOf j) →
  NoDup (instanceOptions localeCompare items).*1 ∧ NoDup (instanceOptions localeCompare items).*2 ∧
  ∀ c, c ∈ (instanceOptions localeCompare items).*1 ↔ c ≠ "" ∧ ∃ i, i ∈ items ∧ crdOf i = c.
Proof.
  intros Hfree Hone. destruct (firstOf_spec crdOf (filterb (λ i, nonempty (crdOf i)) items)) as (Hnd & He & Hin).
  fold (byCRD items) in *. assert (∀ e, e ∈ byCRD items → e.1 = crdOf e.2 ∧ e.2 ∈ items ∧ crdOf e.2 ≠ "") as He'.
  { intros e H. destruct (He e H) as [? [? Hn]%elem_of_filterb]. split_and!; [done..|]. by destruct (crdOf e.2). }
  assert ((instanceOptions localeCompare items).*1 ≡ₚ (byCRD items).*1) as Hp.
  { unfold instanceOptions. rewrite sortBy_permutation, <-list_fmap_compose. done. }
  split_and!; [by rewrite Hp|..].
  - apply sorted_nodup. rewrite <-list_fmap_compose. unfold compose. cbn [snd].
    set (shared := λ v, 1 <? default 0 (assoc (field_ "kind" v) (named items))).
    apply (labels_nodup shared); [done|intros e Hl; by apply Hfree, He'|].
    assert (∀ e e', e ∈ byCRD items → e' ∈ byCRD items → field_ "kind" e.2 = field_ "kind" e'.2 → shared e.2 = false → e = e') as Hs.
    { intros e e' Hl Hl' Ek H. unfold shared, named in H. rewrite named_count in H.
      assert (∀ x, x ∈ byCRD items → field_ "kind" e.2 = field_ "kind" x.2 → x ∈ filterb (λ x, eqs (field_ "kind" e.2) (field_ "kind" x.2)) (byCRD items)) as Hf.
      { intros x Hx E. apply elem_of_filterb. split; [done|]. by apply eqs_true. }
      apply (two_in_short _ _ _ (Hf e Hl eq_refl) (Hf e' Hl' Ek)). 
      destruct (filterb (λ x, eqs (field_ "kind" e.2) (field_ "kind" x.2)) (byCRD items)) as [|x xs]; [cbn; lia|]. apply Z.ltb_ge in H. change (Z.of_nat (length (x :: xs)) ≤ 1) in H. lia. }
    intros e e' Hl Hl' Ek [H|[H|H]]; [by rewrite (Hs e e')|by rewrite (Hs e' e)|].
    destruct (He' e Hl) as (-> & ? & _), (He' e' Hl') as (-> & ? & _). by apply Hone.
  - intros c. rewrite Hp. split.
    + intros (e & -> & Hl)%list_elem_of_fmap. destruct (He' e Hl) as (-> & ? & ?). by eauto.
    + intros [Hc (i & Hi & <-)]. apply Hin, elem_of_filterb. split; [done|]. by destruct (crdOf i).
Qed.

Definition lineKinds (l : NoticeLine) : list string := match l with Refused ks => ks | NotLoaded _ ks _ => ks end.
Definition lineCode (l : NoticeLine) : option (option Z) := match l with Refused _ => None | NotLoaded c _ _ => Some c end.

(** A line of the notice for each code, in order of the codes; every kind that could
    not be listed is in the notice, as often as it was answered, and each failure is on
    the line of its code with its own words. *)
Theorem notice_has_every_failure forbidden failed :
  (crReadNotice forbidden failed ≫= lineKinds) ≡ₚ forbidden ++ (f_kind <$> failed) ∧
  NoDup (lineCode <$> crReadNotice forbidden failed) ∧
  ∀ f, f ∈ failed → ∃ kinds errors, NotLoaded (if f_code f =? 0 then None else Some (f_code f)) kinds errors ∈ crReadNotice forbidden failed ∧
    f_kind f ∈ kinds ∧ (f_kind f +:+ ": " +:+ f_error f) ∈ errors.
Proof.
  set (lineOf := λ g, NotLoaded (if codeOf g =? 0 then None else Some (codeOf g)) (f_kind <$> g.2) ((λ f, f_kind f +:+ ": " +:+ f_error f) <$> g.2)).
  set (groups := sortBy (λ a b, codeOf a - codeOf b) (groupByCode failed)).
  change (crReadNotice forbidden failed) with ((match forbidden with [] => [] | _ => [Refused forbidden] end ++ (lineOf <$> groups))%list).
  assert (groups ≡ₚ groupByCode failed) as Hp by apply sortBy_permutation.
  assert (∀ g, g ∈ groups → pretty (codeOf g) = g.1) as Hc.
  { intros g Hg. rewrite Hp in Hg. destruct (grouped_of _ _ _ Hg) as [Hn Hin]. unfold codeOf. destruct (g.2) as [|f l]; [done|]. by apply Hin; left. }
  split_and!.
  - rewrite bind_app. apply Permutation_app; [destruct forbidden; [done|]; cbn; by rewrite app_nil_r|].
    rewrite <-(grouped_permutation (λ f, pretty (f_code f)) failed), Hp. fold (groupByCode failed). clear.
    induction (groupByCode failed) as [|g l IH]; [done|]. cbn [fmap list_fmap mbind list_bind lineKinds lineOf] in *. rewrite fmap_app. by f_equiv.
  - assert (NoDup (lineCode <$> (lineOf <$> groups))) as Hnd.
    { rewrite <-list_fmap_compose. apply NoDup_fmap_2_strong.
      - intros g g' Hg Hg' E. assert (codeOf g = codeOf g') as Ec.
        { cbn in E. destruct (codeOf g =? 0) eqn:E1, (codeOf g' =? 0) eqn:E2; try (by simplify_eq); lia. }
        apply (f_equal pretty) in Ec. rewrite !Hc in Ec by done. pose proof (tally_nodup (λ f, pretty (f_code f)) [] (λ f l, (l ++ [f])%list) failed) as Hn.
        rewrite Hp in Hg, Hg'. destruct g as [k x], g' as [k' x']. cbn in Ec. subst k'. apply (elem_assoc _ _ _ Hn) in Hg. apply (elem_assoc _ _ _ Hn) in Hg'. congruence.
      - rewrite Hp. eapply NoDup_fmap_1, tally_nodup. }
    destruct forbidden as [|k ks]; [done|]. cbn [app fmap list_fmap]. apply NoDup_cons. split; [|done].
    intros (x & E & (g & -> & _)%list_elem_of_fmap)%list_elem_of_fmap. done.
  - intros f Hf. assert (pretty (f_code f) ∈ (groupByCode failed).*1) as (g & Eg & Hg)%list_elem_of_fmap.
    { apply tally_keys. by apply (list_elem_of_fmap_2 (λ f, pretty (f_code f))). }
    rewrite <-Hp in Hg. pose proof (Hc g Hg) as Ec. rewrite <-Eg in Ec. apply (inj pretty) in Ec.
    assert (f ∈ g.2) as Hin by (rewrite Hp in Hg; by apply (grouped_of _ _ _ Hg)).
    eexists _, _. split; [apply elem_of_app; right; apply list_elem_of_fmap; exists g; split; [|done]; unfold lineOf; by rewrite Ec|].
    split; [by apply list_elem_of_fmap_2|by apply (list_elem_of_fmap_2 (λ f, f_kind f +:+ ": " +:+ f_error f))].
Qed.

(** ** Concrete lists *)

Definition samplePolicy (group kind name : string) : value :=
  VObj [("name", VStr name); ("namespace", VStr "shop"); ("group", VStr group); ("kind", VStr kind); ("crd_name", VStr (kind +:+ "s." +:+ group))].
Definition samplePolicies : list value :=
  [samplePolicy "gateway.envoyproxy.io" "BackendTrafficPolicy" "retries"; samplePolicy "gateway.example.io" "BackendTrafficPolicy" "limits";
   samplePolicy "gateway.envoyproxy.io" "SecurityPolicy" "login"; samplePolicy "gateway.envoyproxy.io" "BackendTrafficPolicy" "pool"].

Lemma kind_options_tell_apart_witness :
  (kindOptions byUnits samplePolicies samplePolicies).*2 =
    ["BackendTrafficPolicy (gateway.envoyproxy.io)"; "BackendTrafficPolicy (gateway.example.io)"; "SecurityPolicy"] ∧
  NoDup (kindOptions byUnits samplePolicies samplePolicies).*2.
Proof.
  split; [by vm_compute|]. apply (kind_options_tell_apart byUnits samplePolicies samplePolicies).
  - intros i Hi. by exists i.
  - apply Forall_forall. by repeat constructor.
Defined.

Lemma instance_options_tell_apart_witness :
  instanceOptions byUnits samplePolicies =
    [("BackendTrafficPolicys.gateway.envoyproxy.io", "BackendTrafficPolicy (gateway.envoyproxy.io)");
     ("BackendTrafficPolicys.gateway.example.io", "BackendTrafficPolicy (gateway.example.io)"); ("SecurityPolicys.gateway.envoyproxy.io", "SecurityPolicy")] ∧
  NoDup (instanceOptions byUnits samplePolicies).*2.
Proof.
  split; [by vm_compute|]. apply (instance_options_tell_apart byUnits samplePolicies).
  - apply Forall_forall. by repeat constructor.
  - intros i j Hi Hj. revert i Hi j Hj. 
    assert (Forall (λ i, Forall (λ j, field_ "kind" i = field_ "kind" j → field_ "group" i = field_ "group" j → crdOf i = crdOf j) samplePolicies) samplePolicies) as H
      by (repeat constructor; by vm_compute).
    intros i Hi j Hj. by apply (proj1 (Forall_forall _ _) (proj1 (Forall_forall _ _) H i Hi) j Hj).
Defined.

Example notice_lines :
  crReadNotice ["Secret"] [{| f_kind := "Backup"; f_code := 503; f_error := "unavailable" |}; {| f_kind := "Queue"; f_code := 0; f_error := "timeout" |};
                           {| f_kind := "Topic"; f_code := 503; f_error := "no endpoints" |}] =
  [Refused ["Secret"]; NotLoaded None ["Queue"] ["Queue: timeout"]; NotLoaded (Some 503) ["Backup"; "Topic"] ["Backup: unavailable"; "Topic: no endpoints"]].
Proof. by vm_compute. Qed.

Example sizes : Qred <$> (gpuMemoryMiB <$> ["40960"; "192G"; "1.5 TiB, 80gb"; ""; "80 xb"; "5."]) = [40960; 196608; 1572864; -1; -1; -1]%Q.
Proof. by vm_compute. Qed.
