(* ===== verification/ListPages.v ===== *)
(** * The list pages together

    What every page of [ListWorkloads], [ListNetwork], [ListGateway], [ListCluster],
    [ListStorage] and [ListKinds] keeps: a row is found by its name, cards that sort the rows by
    their state add up, and the rows come in the order of the column that was clicked. *)

From Stdlib Require Import QArith Sorted.
From S2P Require Import Prelude JsString OrderedMap Sorting Json ObjectRows NetworkRows ListPage ListWorkloads ListNetwork ListGateway ListCluster ListStorage ListKinds.

#[local] Open Scope string_scope.
#[local] Open Scope Z_scope.

Section pages.
Context (tr : string → string → string) (now : Z).

Definition listPages : list ListPage :=
  [deployments tr now; statefulsets now; daemonsets tr now; replicasets tr now; jobs now; cronjobs now; hpas now; vpas now; pdbs now;
   services now; endpoints now; endpointslices now; ingresses now; ingressclasses now; networkpolicies now;
   gateways now; gatewayclasses now; httproutes now; grpcroutes now; referencegrants now; backendpolicies now;
   admissionpolicies now; leases now; limitranges now; webhookconfigurations now; priorityclasses now; resourcequotas now; runtimeclasses now;
   roles now; clusterroles now; rolebindings now; clusterrolebindings now; serviceaccounts now; configmaps now; secrets now;
   pvcs now; pvs now; storageclasses now; volumeattachments now; namespaces now; releases; customresourcedefinitions now;
   resourceclaims now; resourceclaimtemplates now; resourceslices now;
   policies now; instances now; deviceclasses now; gpuPods now; gpuNodes].

(** ** The order of a column

    What the cells of a column show, on every page that has it: a field of the row, by
    the name the API gives it, or the row's age. *)

Inductive Cell := TextField (f : string) | NumberField (f : string) | Age.
#[global] Instance Cell_dec : EqDecision Cell.
Proof. solve_decision. Defined.

Definition columnCells : list (string * Cell) :=
  [("name", TextField "name"); ("namespace", TextField "namespace"); ("status", TextField "status"); ("image", TextField "image");
   ("kind", TextField "kind"); ("group", TextField "group"); ("type", TextField "type"); ("scope", TextField "scope");
   ("schedule", TextField "schedule"); ("chart", TextField "chart"); ("appVersion", TextField "appVersion");
   ("chartVersion", TextField "chartVersion"); ("provisioner", TextField "provisioner"); ("attacher", TextField "attacher");
   ("provided", TextField "provided"); ("handler", TextField "handler"); ("state", TextField "state"); ("gpu_model", TextField "gpu_model");
   ("mig_strategy", TextField "mig_strategy"); ("node_name", TextField "node_name"); ("node", TextField "node_name");
   ("service", TextField "service_name"); ("storageClass", TextField "storage_class"); ("reclaimPolicy", TextField "reclaim_policy");
   ("bindingMode", TextField "volume_binding_mode"); ("volume", TextField "volume_name"); ("volumeMode", TextField "volume_mode");
   ("pv", TextField "persistent_volume_name"); ("clusterIp", TextField "cluster_ip"); ("externalIp", TextField "external_ip");
   ("addressType", TextField "address_type"); ("cpu", TextField "cpu_target"); ("memory", TextField "memory_target");
   ("holder", TextField "holder_identity"); ("minAvailable", TextField "min_available"); ("maxUnavailable", TextField "max_unavailable");
   ("preemptionPolicy", TextField "preemption_policy"); ("updateMode", TextField "update_mode"); ("driver", TextField "driver_name");
   ("pool", TextField "pool_name"); ("bindings", NumberField "bindings_count"); ("allowedDisruptions", NumberField "disruptions_allowed");
   ("completions", NumberField "succeeded"); ("currentHealthy", NumberField "current_healthy"); ("desiredHealthy", NumberField "desired_healthy");
   ("currentReplicas", NumberField "current_replicas"); ("desiredReplicas", NumberField "desired_replicas"); ("data", NumberField "data_count");
   ("dataCount", NumberField "data_count"); ("devices", NumberField "device_count"); ("egressRules", NumberField "egress_rules");
   ("ingressRules", NumberField "ingress_rules"); ("endpoints", NumberField "endpoints_total"); ("listeners", NumberField "listeners_count");
   ("maxReplicas", NumberField "max_replicas");
   ("revision", NumberField "revision"); ("routes", NumberField "attached_routes"); ("secrets", NumberField "secrets");
   ("selectors", NumberField "selector_count"); ("subjects", NumberField "subjects_count"); ("value", NumberField "value");
   ("webhooksCount", NumberField "webhooks_count"); ("gpu_allocatable", NumberField "gpu_allocatable"); ("gpu_capacity", NumberField "gpu_capacity");
   ("gpu_requested", NumberField "gpu_requested")].

(** The pages with a column of ages in seconds; the Namespaces count days. *)
Definition agedPages : list ListPage :=
  [deployments tr now; statefulsets now; daemonsets tr now; replicasets tr now; jobs now; cronjobs now; hpas now; vpas now; pdbs now;
   services now; endpoints now; endpointslices now; ingresses now; ingressclasses now; networkpolicies now;
   gateways now; gatewayclasses now; httproutes now; grpcroutes now; referencegrants now; backendpolicies now;
   admissionpolicies now; leases now; limitranges now; webhookconfigurations now; priorityclasses now; resourcequotas now; runtimeclasses now;
   roles now; clusterroles now; rolebindings now; clusterrolebindings now; serviceaccounts now; configmaps now; secrets now;
   pvcs now; pvs now; storageclasses now; volumeattachments now; customresourcedefinitions now;
   resourceclaims now; resourceclaimtemplates now; resourceslices now; policies now; instances now; deviceclasses now].

(** A column of a page and what its cells show. *)
Definition CellOf (p : ListPage) (k : string) (c : Cell) : Prop :=
  (p ∈ listPages ∧ (k, c) ∈ columnCells ∧ k ∈ (columns p).*1) ∨ (p ∈ agedPages ∧ k = "age" ∧ c = Age).

Definition cellColumn (c : Cell) : Column :=
  match c with TextField f => ByText (field_ f) | NumberField f => byNum (numField f) | Age => byNum (parseAgeSeconds now) end.

Lemma pages_cells : Forall (λ p, Forall (λ e, match assoc e.1 columnCells with Some c => e.2 = cellColumn c | None => True end) (columns p)) listPages.
Proof. unfold listPages. repeat (apply Forall_cons; split; [repeat (apply Forall_cons; split; [first [exact I|reflexivity]|]); apply Forall_nil_2|]). apply Forall_nil_2. Qed.

Lemma aged_cells : Forall (λ p, assoc "age" (columns p) = Some (cellColumn Age)) agedPages.
Proof. unfold agedPages. repeat (apply Forall_cons; split; [reflexivity|]). apply Forall_nil_2. Qed.

Lemma columnCells_keys : NoDup columnCells.*1.
Proof. apply (bool_decide_unpack _). by vm_compute. Qed.

Lemma column_shows p k c : CellOf p k c → getValue p k = cellColumn c.
Proof.
  unfold getValue. intros [(Hp & Hc & Hk)|(Hp & -> & ->)]; [|by rewrite (proj1 (Forall_forall _ _) aged_cells p Hp)].
  destruct (assoc k (columns p)) as [col|] eqn:E; [|by apply assoc_None in E]. apply assoc_elem in E.
  pose proof (proj1 (Forall_forall _ _) (proj1 (Forall_forall _ _) pages_cells p Hp) _ E) as H. cbv beta in H. cbn [fst snd] in H.
  by rewrite (elem_assoc _ _ _ columnCells_keys Hc) in H.
Qed.

Section ordered.
Context (localeCompare : string → string → Z).

(** One row's cell is not after another's: by the collation, the number, the age. *)
Definition cellLe (c : Cell) : relation value := λ a b,
  match c with
  | TextField f => localeCompare (field_ f a) (field_ f b) ≤ 0
  | NumberField f => numField f a ≤ numField f b
  | Age => parseAgeSeconds now a ≤ parseAgeSeconds now b
  end.
#[global] Instance cellLe_dec c : RelDecision (cellLe c).
Proof. intros a b. unfold cellLe. destruct c; apply Z_le_dec. Defined.
#[global] Instance cellGe_dec c : RelDecision (flip (cellLe c)).
Proof. intros a b. apply (cellLe_dec c b a). Defined.

Lemma compareQ_le x y : compareQ (inject_Z x) (inject_Z y) ≤ 0 ↔ x ≤ y.
Proof.
  unfold compareQ. rewrite (Zle_Qle x y), Qle_alt. destruct (inject_Z x ?= inject_Z y)%Q; split; intros H; (done || lia || by destruct H).
Qed.

Lemma cell_compare up c a b :
  compareRows localeCompare up (cellColumn c) a b ≤ 0 ↔ (if up then cellLe c else flip (cellLe c)) a b.
Proof. destruct c; destruct up; cbn [cellColumn byNum compareRows cellLe flip]; unfold flip; cbn [cellLe]; rewrite ?compareQ_le; done. Qed.

End ordered.

(** The pages whose cards put each row under one state. *)
Definition sortedByState : list ListPage :=
  [deployments tr now; statefulsets now; daemonsets tr now; replicasets tr now; jobs now; hpas now; vpas now; pdbs now; leases now;
   customresourcedefinitions now].

(** ** Found by name *)

Lemma toLowerCase_app a b : toLowerCase (a +:+ b) = toLowerCase a +:+ toLowerCase b.
Proof. induction a as [|c a IH]; [done|]. rewrite app_cons_s. cbn [toLowerCase]. by rewrite IH, app_cons_s. Qed.

Lemma includes_lower q s : includes q s = true → includes (toLowerCase q) (toLowerCase s) = true.
Proof. intros (a & b & ->)%includes_spec. apply includes_spec. exists (toLowerCase a), (toLowerCase b). by rewrite !toLowerCase_app. Qed.

Lemma includes_trim q s : includes q s = true → includes (trim q) s = true.
Proof.
  intros (a & b & ->)%includes_spec. destruct (trimStart_suffix q) as [a' Ha]. destruct (trimEnd_prefix (trimStart q)) as [b' Hb].
  apply includes_spec. exists (a +:+ a'), (b' +:+ b). unfold trim. rewrite Ha at 1. rewrite Hb at 1. by rewrite !app_assoc_s.
Qed.

(** A page looks in the name of a row, in lower case, and so does its needle. *)
Definition looksInName (p : ListPage) : Prop :=
  (∀ r, lower (field_ "name") r ∈ searched p r) ∧ ∀ q s, includes q s = true → includes (needle p q) (toLowerCase s) = true.

Lemma pages_look : Forall looksInName listPages.
Proof. unfold listPages, looksInName. repeat constructor; intros; try by apply includes_lower. by apply includes_lower, includes_trim. Qed.

(** On every list page a search for any part of a row's name, in any case, finds
    the row. *)
Theorem row_found_by_name p data r q :
  p ∈ listPages → r ∈ rowsOf p data → includes q (field_ "name" r) = true → r ∈ filtered p q data.
Proof.
  intros Hp Hr Hq. destruct (proj1 (Forall_forall _ _) pages_look p Hp) as [H1 H2]. unfold filtered. destruct (eqs (trim q) ""); [done|].
  apply elem_of_filterb. split; [done|]. apply some_true. exists (lower (field_ "name") r). split; [apply H1|by apply H2].
Qed.

(** ** Cards *)

Definition sumOfCards (cards : list (string * Z)) : Z := foldr (λ c n, c.2 + n) 0 cards.

Lemma count_bucket (f : value → Bucket) rows :
  count (λ r, f r === Healthy) rows + (count (λ r, f r === Idle) rows + (count (λ r, f r === Degraded) rows + count (λ r, f r === Unavailable) rows)) =
  Z.of_nat (length rows).
Proof. unfold count, filterb. induction rows as [|r rows IH]; [done|]. cbn [List.filter].
  destruct (f r); repeat case_bool_decide; try done; cbn [length]; lia.
Qed.

Lemma count_split (P : value → bool) rows : count P rows + count (λ r, negb (P r)) rows = Z.of_nat (length rows).
Proof. unfold count, filterb. induction rows as [|r rows IH]; [done|]. cbn [List.filter]. destruct (P r); cbn [negb length]; lia. Qed.

Lemma count_none (P : value → bool) rows : (∀ r, P r = false) → count P rows = 0.
Proof. intros H. unfold count, filterb. induction rows as [|r rows IH]; [done|]. cbn [List.filter]. by rewrite H. Qed.

(** A Deployment is never idle. *)
Lemma deployment_not_idle r : deploymentBucket r ≠ Idle.
Proof. unfold deploymentBucket, classifyDeploymentStatus. by repeat case_match. Qed.

(** On the pages whose cards tell the rows' states apart, the cards add up to the
    total: every row found is on one of them. *)
Theorem cards_add_up p rows :
  p ∈ sortedByState → ∃ rest, summary p rows = ("total", Z.of_nat (length rows)) :: rest ∧ sumOfCards rest = Z.of_nat (length rows).
Proof.
  intros Hp. unfold sortedByState in Hp. repeat (apply elem_of_cons in Hp as [->|Hp]); [eexists; split; [reflexivity|]; cbn..|by apply elem_of_nil in Hp].
  - pose proof (count_bucket deploymentBucket rows) as H. rewrite (count_none (λ r, deploymentBucket r === Idle)) in H; [lia|].
    intros r. apply bool_decide_false, deployment_not_idle.
  - pose proof (count_bucket replicaBucket rows). lia.
  - pose proof (count_bucket replicaBucket rows). lia.
  - pose proof (count_bucket replicaBucket rows). lia.
  - lia.
  - pose proof (count_split (λ r, truthy (r .@ "scaling_active")) rows). lia.
  - pose proof (count_split (λ r, isStr (r .@ "provided") "True") rows). lia.
  - pose proof (count_split undisrupted rows). lia.
  - lia.
  - pose proof (count_split (λ r, isStr (r .@ "scope") "Namespaced") rows). lia.
Qed.
End pages.

(** ** Concrete lists *)

Definition words (key fallback : string) : string := fallback.
Definition sampleDeployment (name image status : string) : value :=
  VObj [("name", VStr name); ("namespace", VStr "shop"); ("image", VStr image); ("status", VStr status); ("replicas", VNum 2); ("available_replicas", VNum 2)].

Definition sampleDeployments : value :=
  VArr [sampleDeployment "web" "nginx:1" "Available"; sampleDeployment "api" "node:20" "Progressing"; sampleDeployment "db" "postgres:16" "Available";
        sampleDeployment "Cache" "redis:7" "Failed"; sampleDeployment "jobs" "node:20" "Available"].

Definition sampleList : Listing := newListing "all" sampleDeployments 1.

Lemma matches_paged_once_witness :
  let s := used byUnits (deployments words 0) sampleList [ClicksColumn "name"; Searches "NODE"; Next] in
  (field_ "name" <$> shown byUnits (deployments words 0) s) = ["jobs"] ∧ (found (deployments words 0) s ≠ [] → shown byUnits (deployments words 0) s ≠ []).
Proof.
  split; [by vm_compute|].
  apply (proj1 (proj2 (matches_paged_once byUnits (deployments words 0) "all" sampleDeployments 1 [ClicksColumn "name"; Searches "NODE"; Next] eq_refl ltac:(by repeat constructor)))).
Defined.


(** From the fifth page, a search with five pages of results opens the first, one with
    three the third. *)
Lemma search_opens_last_page_witness :
  currentPage (step byUnits (deployments words 0) (toPage 5 sampleList) (Searches "a")) = 1 ∧
  currentPage (step byUnits (deployments words 0) (toPage 5 sampleList) (Searches "available")) = 3.
Proof.
  split; [by vm_compute|].
  apply (search_opens_last_page byUnits (deployments words 0) (toPage 5 sampleList) "available"); [|done|by vm_compute].
  split; [done|by vm_compute].
Defined.

Lemma row_found_by_name_witness : sampleDeployment "Cache" "redis:7" "Failed" ∈ filtered (deployments words 0) "ach" sampleDeployments.
Proof.
  apply (row_found_by_name words 0 (deployments words 0)); [left| |by vm_compute].
  apply list_elem_of_fmap. eexists. split; [symmetry; apply eq_refl|]. apply list_elem_of_In. cbn. tauto.
Defined.

Lemma cards_add_up_witness :
  let rows := rowsOf (deployments words 0) sampleDeployments in
  summary (deployments words 0) rows = [("total", 5); ("healthy", 3); ("degraded", 1); ("unavailable", 1)] ∧
  ∃ rest, summary (deployments words 0) rows = ("total", Z.of_nat (length rows)) :: rest ∧ sumOfCards rest = Z.of_nat (length rows).
Proof. split; [by vm_compute|]. apply (cards_add_up words 0 (deployments words 0)). left. Defined.

(** A size written with the unit Kubernetes has for thousands is not read. *)
Example thousands_not_read : parseQuantityToBytes (VStr "500k") = None ∧ parseQuantityToBytes (VStr "1e9") = None ∧ parseQuantityToBytes (VStr "500K") ≠ None.
Proof. by vm_compute. Qed.

(** A search with a space at its end finds nothing, except of releases. *)
Example space_at_the_end : filtered (deployments words 0) "web " sampleDeployments = [] ∧ length (filtered releases "web " sampleDeployments) = 1%nat.
Proof. by vm_compute. Qed.
