(* ===== verification/PodsPage.v ===== *)
(** * The Pods page

    pages/workloads/Pods.tsx: the one list the server searches, sorts and pages.  The
    page asks for blocks of rows and cuts the page from one; a poll sends the revision
    it has, and an answer "unchanged" keeps the rows.  A request that has no answer yet
    shows what was shown before ([placeholderData: keepPreviousData]).  The rows are of
    any type; what the server answers is an argument. *)

From S2P Require Import Prelude JsString.

#[local] Open Scope string_scope.
#[local] Open Scope Z_scope.

Definition PAGE_BLOCK : Z := 50.

(** ** The block of a page *)

Definition firstRow (currentPage rowsPerPage : Z) : Z := (currentPage - 1) * rowsPerPage.
Definition blockStart (currentPage rowsPerPage : Z) : Z := firstRow currentPage rowsPerPage / PAGE_BLOCK * PAGE_BLOCK.
Definition ceilBlocks (n : Z) : Z := (n + PAGE_BLOCK - 1) / PAGE_BLOCK * PAGE_BLOCK.
Definition blockLimit (currentPage rowsPerPage : Z) : Z :=
  Z.min 500 (ceilBlocks (firstRow currentPage rowsPerPage + rowsPerPage - blockStart currentPage rowsPerPage)).

Record PageParams := { namespace : option string; q : option string; sort : option string; dir : option bool; offset : Z; limit : Z }.
#[export] Instance PageParams_dec : EqDecision PageParams.
Proof. solve_decision. Defined.

Section pods.
Context {Row : Type}.

Record PodPage := { items : list Row; pageTotal : Z; revision : string; unchanged : bool }.

Record Pods := {
  searchQuery : string; search : string; pause : option Z; selectedNamespace : string; sortKey : option string; asc : bool;
  currentPage : Z; rowsPerPage : Z; totalRows : Z;
  answers : list (PageParams * PodPage);        (* the query cache *)
  previous : option PodPage;                    (* what the query showed last *)
  rendered : string * string * Z * Z            (* what the effects of the last render depended on *)
}.

Definition pageParams (s : Pods) : PageParams :=
  {| namespace := if eqs (selectedNamespace s) "all" then None else Some (selectedNamespace s);
     q := if nonempty (search s) then Some (search s) else None;
     sort := sortKey s;
     dir := match sortKey s with Some _ => Some (asc s) | None => None end;
     offset := blockStart (currentPage s) (rowsPerPage s);
     limit := blockLimit (currentPage s) (rowsPerPage s) |}.

Definition answerOf (k : PageParams) (l : list (PageParams * PodPage)) : option PodPage := snd <$> find (λ a, a.1 === k) l.

(** The query's data: its answer, or what it showed before. *)
Definition page (s : Pods) : option PodPage :=
  match answerOf (pageParams s) (answers s) with Some d => Some d | None => previous s end.

Definition pagedPods (s : Pods) : list Row :=
  match page s with
  | Some d =>
      let from := firstRow (currentPage s) (rowsPerPage s) - blockStart (currentPage s) (rowsPerPage s) in
      take (Z.to_nat (rowsPerPage s)) (drop (Z.to_nat from) (items d))
  | None => []
  end.

Definition totalPages (s : Pods) : Z := Z.max 1 ((totalRows s + rowsPerPage s - 1) / rowsPerPage s).

(** What a poll of the page sends with its parameters. *)
Definition sentRevision (s : Pods) : option string :=
  match answerOf (pageParams s) (answers s) with Some d => if nonempty (revision d) then Some (revision d) else None | None => None end.

(** The answer of a request made for [k]. *)
Definition kept (k : PageParams) (next : PodPage) (l : list (PageParams * PodPage)) : PodPage :=
  match answerOf k l with Some prev => if unchanged next then prev else next | None => next end.

Definition withAnswer (k : PageParams) (d : PodPage) (l : list (PageParams * PodPage)) : list (PageParams * PodPage) :=
  (k, d) :: filterb (λ a, negb (a.1 === k)) l.

Definition refetchInterval (statsTotal : Z) (d : option PodPage) : option Z :=
  match d with
  | None => None
  | Some d => Some (if nonempty (revision d) then (if 10000 <? statsTotal then 10000 else 3000) else 30000)
  end.
(** ** What happens *)

Inductive Event :=
  | Types (text : string) (now : Z)
  | PauseEnds (now : Z)
  | ChoosesNamespace (ns : string)
  | ClicksColumn (k : string)
  | TurnsTo (n : Z)
  | Fits (n : Z)
  | Answered (k : PageParams) (next : PodPage)
  | Renders.

Definition withQuery (text : string) (p : option Z) (s : Pods) : Pods :=
  {| searchQuery := text; search := search s; pause := p; selectedNamespace := selectedNamespace s; sortKey := sortKey s; asc := asc s;
     currentPage := currentPage s; rowsPerPage := rowsPerPage s; totalRows := totalRows s; answers := answers s; previous := previous s; rendered := rendered s |}.
Definition withSearch (text : string) (s : Pods) : Pods :=
  {| searchQuery := searchQuery s; search := text; pause := None; selectedNamespace := selectedNamespace s; sortKey := sortKey s; asc := asc s;
     currentPage := currentPage s; rowsPerPage := rowsPerPage s; totalRows := totalRows s; answers := answers s; previous := previous s; rendered := rendered s |}.
Definition withTable (ns : string) (k : option string) (up : bool) (n rows : Z) (s : Pods) : Pods :=
  {| searchQuery := searchQuery s; search := search s; pause := pause s; selectedNamespace := ns; sortKey := k; asc := up;
     currentPage := n; rowsPerPage := rows; totalRows := totalRows s; answers := answers s; previous := previous s; rendered := rendered s |}.
Definition withAnswers (l : list (PageParams * PodPage)) (s : Pods) : Pods :=
  {| searchQuery := searchQuery s; search := search s; pause := pause s; selectedNamespace := selectedNamespace s; sortKey := sortKey s; asc := asc s;
     currentPage := currentPage s; rowsPerPage := rowsPerPage s; totalRows := totalRows s; answers := l; previous := previous s; rendered := rendered s |}.

(** The effects of a render: the total, page one after a search or a namespace, the
    last page at most.  They read the values of their render. *)
Definition runEffects (s : Pods) : Pods :=
  let '(query, ns, onPage, ofPages) := rendered s in
  let n := if bool_decide (query = searchQuery s ∧ ns = selectedNamespace s) then currentPage s else 1 in
  let n := if bool_decide (onPage = currentPage s ∧ ofPages = totalPages s) then n
           else if totalPages s <? currentPage s then totalPages s else n in
  {| searchQuery := searchQuery s; search := search s; pause := pause s; selectedNamespace := selectedNamespace s; sortKey := sortKey s; asc := asc s;
     currentPage := n; rowsPerPage := rowsPerPage s;
     totalRows := match page s with Some d => pageTotal d | None => totalRows s end;
     answers := answers s; previous := page s; rendered := (searchQuery s, selectedNamespace s, currentPage s, totalPages s) |}.

Definition step (s : Pods) (e : Event) : Pods :=
  match e with
  | Types text now => withQuery text (Some (now + 250)) s
  | PauseEnds now => match pause s with Some due => if due <=? now then withSearch (trim (searchQuery s)) s else s | None => s end
  | ChoosesNamespace ns => withTable ns (sortKey s) (asc s) (currentPage s) (rowsPerPage s) s
  | ClicksColumn k =>
      if negb (bool_decide (sortKey s = Some k)) then withTable (selectedNamespace s) (Some k) true (currentPage s) (rowsPerPage s) s
      else if asc s then withTable (selectedNamespace s) (sortKey s) false (currentPage s) (rowsPerPage s) s
      else withTable (selectedNamespace s) None (asc s) (currentPage s) (rowsPerPage s) s
  | TurnsTo n => withTable (selectedNamespace s) (sortKey s) (asc s) (Z.max 1 (Z.min (totalPages s) n)) (rowsPerPage s) s
  | Fits n => withTable (selectedNamespace s) (sortKey s) (asc s) (currentPage s) n s
  | Answered k next => withAnswers (withAnswer k (kept k next (answers s)) (answers s)) s
  | Renders => runEffects s
  end.

Definition newPods (ns : string) : Pods :=
  {| searchQuery := ""; search := ""; pause := None; selectedNamespace := ns; sortKey := None; asc := true; currentPage := 1; rowsPerPage := 12; totalRows := 0;
     answers := []; previous := None; rendered := ("", ns, 1, 1) |}.
End pods.
#[global] Arguments PodPage : clear implicits.
#[global] Arguments Pods : clear implicits.
#[global] Arguments Event : clear implicits.

(** ** Blocks *)

Lemma block_bounds currentPage rowsPerPage :
  1 ≤ currentPage → 0 < rowsPerPage ≤ 451 →
  let from := firstRow currentPage rowsPerPage - blockStart currentPage rowsPerPage in
  0 ≤ from < PAGE_BLOCK ∧ from + rowsPerPage ≤ blockLimit currentPage rowsPerPage ≤ 500 ∧ 0 ≤ blockStart currentPage rowsPerPage.
Proof.
  intros Hp Hr. unfold blockLimit, blockStart, ceilBlocks, PAGE_BLOCK. cbn.
  assert (0 ≤ firstRow currentPage rowsPerPage) by (unfold firstRow; nia). set (f := firstRow currentPage rowsPerPage) in *.
  pose proof (Z.div_mod f 50 ltac:(lia)). pose proof (Z.mod_pos_bound f 50 ltac:(lia)). pose proof (Z.div_pos f 50 ltac:(lia) ltac:(lia)).
  set (n := f + rowsPerPage - f / 50 * 50) in *. pose proof (Z.div_mod (n + 50 - 1) 50 ltac:(lia)). pose proof (Z.mod_pos_bound (n + 50 - 1) 50 ltac:(lia)).
  assert (n = f + rowsPerPage - f / 50 * 50) by done. split_and!; lia.
Qed.

Lemma take_drop_take {A} (l : list A) m n k : (m + n ≤ k)%nat → take n (drop m (take k l)) = take n (drop m l).
Proof. intros H. rewrite skipn_firstn_comm, take_take. f_equal. lia. Qed.

Section rows.
Context {Row : Type}.
Implicit Types s : Pods Row.

(** What the server answers for a page of its rows. *)
Definition serves (rows : list Row) (k : PageParams) (d : PodPage Row) : Prop :=
  items d = take (Z.to_nat (limit k)) (drop (Z.to_nat (offset k)) rows) ∧ pageTotal d = Z.of_nat (length rows).

Lemma answerOf_withAnswer k (d : PodPage Row) l : answerOf k (withAnswer k d l) = Some d.
Proof. unfold answerOf, withAnswer. cbn [find]. by rewrite bool_decide_true. Qed.

(** The rows of a page of a list. *)
Definition pageOf (rows : list Row) (n k : Z) : list Row := take (Z.to_nat k) (drop (Z.to_nat ((n - 1) * k)) rows).

Definition InRange s : Prop := 1 ≤ currentPage s ∧ 0 < rowsPerPage s ≤ 100.

(** A list page shows 5 to 100 rows (useAdaptiveRowsPerPage.ts, pageSize.ts). *)
Definition possible (e : Event Row) : Prop := match e with Fits n => 0 < n ≤ 100 | _ => True end.

Lemma step_InRange s e : possible e → InRange s → InRange (step s e).
Proof.
  intros He [Hn Hr]. destruct e as [text now|now|ns|k|n|n|k next|]; cbn [step]; unfold InRange in *; try by cbn.
  - destruct (pause s) as [due|]; [|done]. by destruct (due <=? now).
  - destruct (negb _); [done|]. by destruct (asc s).
  - cbn. split; [lia|done].
  - unfold runEffects. destruct (rendered s) as [[[query ns] onPage] ofPages]. cbn. split; [|done].
    assert (1 ≤ totalPages s) by (unfold totalPages; lia). repeat case_match; lia.
Qed.

Lemma run_InRange es s : Forall possible es → InRange s → InRange (foldl step s es).
Proof. revert s. induction es as [|e es IH]; [done|]. intros s [He Hes]%Forall_cons H. cbn. apply IH; [done|]. by apply step_InRange. Qed.

(** C14. Whatever the reader did, once its request is answered the page shows its own
    rows of the server's list: the block it asked for holds them all. *)
Theorem pods_page_own_rows ns es rows d :
  let s := foldl step (newPods ns) es in
  Forall possible es → answerOf (pageParams s) (answers s) = Some d → serves rows (pageParams s) d →
  pagedPods s = pageOf rows (currentPage s) (rowsPerPage s).
Proof.
  intros s Hes Ha [Hi _]. assert (InRange s) as [Hn Hr] by (by apply run_InRange; [|by split]).
  destruct (block_bounds (currentPage s) (rowsPerPage s) Hn) as (Hf & Hl & Hb); [lia|]. unfold pagedPods, page. rewrite Ha, Hi. cbn [offset limit pageParams].
  rewrite take_drop_take by lia. rewrite drop_drop. unfold pageOf. do 2 f_equal. unfold firstRow in *. lia.
Qed.

(** A poll leaves the rows the server has: when a revision stands for its rows, the
    answer "unchanged" to the revision sent, as any other answer, leaves the page's
    request answered by the server's rows. *)
Theorem poll_keeps_current s (current : PodPage Row) next :
  (∀ prev, answerOf (pageParams s) (answers s) = Some prev → revision prev = revision current → items prev = items current ∧ pageTotal prev = pageTotal current) →
  next = (if bool_decide (sentRevision s = Some (revision current)) then {| items := []; pageTotal := pageTotal current; revision := revision current; unchanged := true |}
          else current) → unchanged current = false →
  ∃ d, answerOf (pageParams s) (answers (step s (Answered (pageParams s) next))) = Some d ∧ items d = items current ∧ pageTotal d = pageTotal current.
Proof.
  intros Hrev Hnext Hc. cbn [step withAnswers answers]. rewrite answerOf_withAnswer. eexists. split; [done|]. unfold kept, sentRevision in *.
  destruct (answerOf (pageParams s) (answers s)) as [prev|] eqn:E.
  - destruct (nonempty (revision prev)); [|rewrite bool_decide_false in Hnext by done; by rewrite Hnext, Hc].
    case_bool_decide as Hs; rewrite Hnext; [|by rewrite Hc]. cbn. apply Hrev; [done|]. congruence.
  - rewrite bool_decide_false in Hnext by done. by rewrite Hnext.
Qed.

(** On the first page the count of rows settling below fifty asks nothing new. *)
Theorem fit_asks_once s n m :
  0 < n ≤ 50 → 0 < m ≤ 50 → currentPage s = 1 →
  pageParams (step s (Fits n)) = pageParams (step s (Fits m)).
Proof.
  intros Hn Hm Hp. unfold pageParams. cbn. rewrite Hp.
  assert (∀ k, 0 < k ≤ 50 → blockStart 1 k = 0 ∧ blockLimit 1 k = 50) as H.
  { intros k Hk. assert ((k + 49) / 50 = 1) as Hd by (symmetry; apply Z.div_unique with (k - 1); lia).
    unfold blockLimit, blockStart, ceilBlocks, firstRow, PAGE_BLOCK. replace ((1 - 1) * k) with 0 by lia. split; [done|].
    replace (0 + k - 0 / 50 * 50 + 50 - 1) with (k + 49) by (rewrite Z.div_0_l; lia). by rewrite Hd. }
  by rewrite (proj1 (H n Hn)), (proj2 (H n Hn)), (proj1 (H m Hm)), (proj2 (H m Hm)).
Qed.

(** Turning to a page that begins a block not yet answered shows the rows of page
    one until it is: the rows shown before are cut at the place of the new page. *)
Theorem next_block_shows_first_page s rows d k :
  InRange s → answerOf (pageParams s) (answers s) = None → previous s = Some d → serves rows k d → offset k = 0 → rowsPerPage s ≤ limit k →
  firstRow (currentPage s) (rowsPerPage s) = blockStart (currentPage s) (rowsPerPage s) →
  pagedPods s = pageOf rows 1 (rowsPerPage s).
Proof.
  intros [Hn Hr] Ha Hp [Hi _] Ho Hl Hf. unfold pagedPods, page. rewrite Ha, Hp, Hi, Ho, Hf, Z.sub_diag. cbn. rewrite !drop_0.
  unfold pageOf. replace ((1 - 1) * rowsPerPage s) with 0 by lia. cbn. rewrite drop_0, take_take. f_equal. lia.
Qed.
End rows.

(** ** Concrete pages *)

Definition sampleRows : list Z := seqZ 1 120.
Definition sampleAnswer (k : PageParams) : PodPage Z :=
  {| items := take (Z.to_nat (limit k)) (drop (Z.to_nat (offset k)) sampleRows); pageTotal := 120; revision := "r1"; unchanged := false |}.

Definition answered (s : Pods Z) : Pods Z := step (step s (Answered (pageParams s) (sampleAnswer (pageParams s)))) Renders.
Definition fitted : Pods Z := step (newPods "all") (Fits 25).
Definition opened : list (Event Z) := [Fits 25; Answered (pageParams fitted) (sampleAnswer (pageParams fitted)); Renders; TurnsTo 2; Renders].

Lemma pods_page_own_rows_witness : pagedPods (foldl step (newPods "all") opened) = seqZ 26 25.
Proof.
  refine (pods_page_own_rows "all" opened sampleRows (sampleAnswer (pageParams fitted)) _ _ _).
  - repeat (apply Forall_cons; split; [cbn; done || lia|]). by apply Forall_nil.
  - by vm_compute.
  - split; by vm_compute.
Defined.

Definition secondPage : Pods Z := foldl step (newPods "all") opened.

Lemma poll_keeps_current_witness :
  ∃ d, answerOf (pageParams secondPage)
    (answers (step secondPage (Answered (pageParams secondPage) {| items := []; pageTotal := 120; revision := "r1"; unchanged := true |}))) = Some d ∧
    items d = items (sampleAnswer (pageParams secondPage)) ∧ pageTotal d = 120.
Proof.
  apply (poll_keeps_current secondPage (sampleAnswer (pageParams secondPage))).
  - intros prev H _. vm_compute in H. injection H as <-. by vm_compute.
  - by vm_compute.
  - done.
Defined.

Lemma fit_asks_once_witness : pageParams (step (newPods (Row := Z) "all") (Fits 12)) = pageParams (step (newPods (Row := Z) "all") (Fits 37)).
Proof. apply (fit_asks_once (newPods "all") 12 37); [lia..|done]. Defined.

(** Next on page two shows page one's rows until the answer comes. *)
Lemma next_block_shows_first_page_witness :
  let s := step secondPage (TurnsTo 3) in pagedPods s = seqZ 1 25 ∧ pagedPods (answered s) = seqZ 51 25.
Proof.
  split; [|by vm_compute].
  apply (next_block_shows_first_page (step secondPage (TurnsTo 3)) sampleRows (sampleAnswer (pageParams secondPage)) (pageParams secondPage)); by vm_compute.
Defined.
