(* ===== verification/Sessions.v ===== *)
(** * The conversations in the sidebar

    pages/ai-chat/useChatSessions.ts (the pages of conversations and the list on
    screen), hooks/useSessionMutations.ts (creating and deleting one) and what
    hooks/useChatHandlers.ts does to them: asking, choosing, deleting.

    The query cache is a list of entries by cluster.  An event is a turn of the code;
    [Created] and [CreateFails] are the ends of a request with the callbacks of the
    mutation and those of its call.  [latestOnly] is react-query's documented rule that
    the callbacks given to a call of [mutate] run for the latest call only.  The
    messages of the conversation are [ChatScreen]'s. *)

From S2P Require Import Prelude JsString OrderedMap.

#[local] Open Scope string_scope.

Definition SESSIONS_PAGE_SIZE : nat := 50.

Record Session := { sid : string; title : string; created_at : string; updated_at : string; message_count : Z }.
#[export] Instance Session_dec : EqDecision Session.
Proof. solve_decision. Defined.

(** [{}], or after a session. *)
Definition PageParam : Type := option (string * string).

Record InfiniteData := { pages : list (list Session); pageParams : list PageParam }.

Definition afterSession (s : Session) : PageParam := Some (updated_at s, sid s).

(** [None]: there is no next page. *)
Definition getNextPageParam (lastPage : list Session) : option PageParam :=
  if Nat.ltb (length lastPage) SESSIONS_PAGE_SIZE then None else afterSession <$> last lastPage.

Definition hasNextPage (d : InfiniteData) : bool :=
  match last (pages d) with Some p => bool_decide (is_Some (getNextPageParam p)) | None => false end.

(** [getFlattenedSessions]: each id once. *)
Fixpoint unseen (seen : list string) (l : list Session) : list Session :=
  match l with
  | [] => []
  | s :: l' => if bool_decide (sid s ∈ seen) then unseen seen l' else s :: unseen (sid s :: seen) l'
  end.

Definition getFlattenedSessions (d : option InfiniteData) : list Session :=
  match d with Some d => unseen [] (concat (pages d)) | None => [] end.

(** [buildSessionsInfiniteData]: its loop takes a round a page. *)
Fixpoint chunks (fuel : nat) (l : list Session) : list (list Session) :=
  match fuel, l with
  | _, [] => []
  | 0, _ => []
  | S n, _ => take SESSIONS_PAGE_SIZE l :: chunks n (drop SESSIONS_PAGE_SIZE l)
  end.

Fixpoint cursors (cursor : PageParam) (ps : list (list Session)) : list PageParam :=
  match ps with
  | [] => []
  | p :: ps' => cursor :: cursors (match last p with Some s => afterSession s | None => cursor end) ps'
  end.

Definition buildSessionsInfiniteData (sessions : list Session) : InfiniteData :=
  let ps := chunks (length sessions) sessions in
  {| pages := match ps with [] => [[]] | _ => ps end; pageParams := cursors None ps |}.

(** ** The sidebar *)

(** A creation on its way: its temporary id and the cache its [onMutate] saw. *)
Record Creation := { optimisticId : string; previousSessions : list (string * option InfiniteData); question : string }.

Record Sidebar := {
  cache : list (string * option InfiniteData);
  cluster : string;
  pinned : list (string * Session);
  selected : option string;
  view : option string;
  creations : list (option Creation);         (* each call of the mutation, [None] once it ended *)
  streams : list (string * string);           (* the questions sent, with their session *)
  multi : bool;
  chosen : list string;
  deletes : list string                       (* the deletions asked of the server *)
}.

Definition isTempSessionId (id : string) : bool := startsWith "temp:" id.

Definition upsertSessionAtFront (s : Session) (optimistic : option string) (c : list (string * option InfiniteData)) : list (string * option InfiniteData) :=
  (λ e, (e.1, Some (buildSessionsInfiniteData
    (s :: filterb (λ x, negb (eqs (sid x) (sid s)) && negb (bool_decide (optimistic = Some (sid x)))) (getFlattenedSessions e.2))))) <$> c.

Definition sessionsList (s : Sidebar) : list Session :=
  let base := getFlattenedSessions (default None (assoc (cluster s) (cache s))) in
  let baseIds := sid <$> base in
  let pinnedVisible := filterb (λ x, isTempSessionId (sid x) || negb (bool_decide (sid x ∈ baseIds))) (snd <$> pinned s) in
  pinnedVisible ++ filterb (λ x, negb (bool_decide (sid x ∈ (sid <$> pinnedVisible)))) base.

Definition unpin (id : string) (l : list (string * Session)) : list (string * Session) := filterb (λ e, negb (eqs e.1 id)) l.

(** Replacing one object's field at a time. *)
Definition withList (c : list (string * option InfiniteData)) (p : list (string * Session)) (sel v : option string) (s : Sidebar) : Sidebar :=
  {| cache := c; cluster := cluster s; pinned := p; selected := sel; view := v; creations := creations s; streams := streams s; multi := multi s;
     chosen := chosen s; deletes := deletes s |}.
Definition withCreations (cs : list (option Creation)) (ss : list (string * string)) (s : Sidebar) : Sidebar :=
  {| cache := cache s; cluster := cluster s; pinned := pinned s; selected := selected s; view := view s; creations := cs; streams := ss; multi := multi s;
     chosen := chosen s; deletes := deletes s |}.
Definition withChosen (m : bool) (ids asked : list string) (s : Sidebar) : Sidebar :=
  {| cache := cache s; cluster := cluster s; pinned := pinned s; selected := selected s; view := view s; creations := creations s; streams := streams s; multi := m;
     chosen := ids; deletes := asked |}.

Definition realSession (s : Sidebar) : option string :=
  match selected s with Some id => if nonempty id && negb (isTempSessionId id) then Some id else None | None => None end.

Definition initialTitle (userMessage : string) : string :=
  if Nat.ltb 50 (String.length userMessage) then stake 50 userMessage ++ "..." else userMessage.

(** [handleSend] of a question, with the [onMutate] of the creation it asks for. *)
Definition handleSend (message : string) (isStreaming : bool) (tempId nowIso : string) (s : Sidebar) : Sidebar :=
  if negb (nonempty message) || isStreaming then s else
  match realSession s with
  | Some id => withCreations (creations s) (streams s ++ [(id, message)]) (withList (cache s) (pinned s) (selected s) (Some id) s)
  | None =>
      let optimistic := {| sid := tempId; title := initialTitle message; created_at := nowIso; updated_at := nowIso; message_count := 0 |} in
      let shown := upsertSessionAtFront optimistic None (cache s) in
      withCreations (creations s ++ [Some {| optimisticId := tempId; previousSessions := shown; question := message |}]) (streams s)
        (withList (upsertSessionAtFront optimistic None shown) (upsert optimistic tempId (λ _, optimistic) (pinned s)) (Some tempId) (Some tempId) s)
  end.

(** [setQueryData] for each entry of a snapshot; it leaves an entry without data alone. *)
Definition restore (snapshot cache : list (string * option InfiniteData)) : list (string * option InfiniteData) :=
  foldl (λ c e, match e.2 with None => c | Some _ => upsert e.2 e.1 (λ _, e.2) c end) cache snapshot.

Definition swap (from : string) (to : option string) (id : option string) : option string := if bool_decide (id = Some from) then to else id.

Inductive Event :=
  | Sends (message : string) (isStreaming : bool) (tempId nowIso : string)
  | Created (i : nat) (session : Session)
  | CreateFails (i : nat)
  | Fetched (d : InfiniteData)
  | NewChat
  | Selects (id : string)
  | DeletesOne (id : string)
  | DeletesChosen (asked : nat)
  | TogglesMulti
  | SelectsAll
  | DeselectsAll.

Section sidebar.
Context (latestOnly : bool).

(** Whether the callbacks given to call [i] run. *)
Definition called (i : nat) (s : Sidebar) : bool := negb latestOnly || Nat.eqb (S i) (length (creations s)).

Definition toggle (id : string) (ids : list string) : list string :=
  if bool_decide (id ∈ ids) then filterb (λ x, negb (eqs x id)) ids else ids ++ [id].

Definition step (s : Sidebar) (e : Event) : Sidebar :=
  match e with
  | Sends message isStreaming tempId nowIso => handleSend message isStreaming tempId nowIso s
  | Created i session =>
      match creations s !! i with
      | Some (Some c) =>
          let mine := called i s in
          let move id := if mine then swap (optimisticId c) (Some (sid session)) id else id in
          withCreations (<[i := None]> (creations s)) (if mine then streams s ++ [(sid session, question c)] else streams s)
            (withList (upsertSessionAtFront session (Some (optimisticId c)) (cache s)) (unpin (optimisticId c) (pinned s)) (move (selected s)) (move (view s)) s)
      | _ => s
      end
  | CreateFails i =>
      match creations s !! i with
      | Some (Some c) =>
          let move id := if called i s then swap (optimisticId c) None id else id in
          withCreations (<[i := None]> (creations s)) (streams s)
            (withList (restore (previousSessions c) (cache s)) (unpin (optimisticId c) (pinned s)) (move (selected s)) (move (view s)) s)
      | _ => s
      end
  | Fetched d => withList (upsert (Some d) (cluster s) (λ _, Some d) (cache s)) (pinned s) (selected s) (view s) s
  | NewChat => withList (cache s) [] None None s
  | Selects id =>
      if multi s then withChosen (multi s) (toggle id (chosen s)) (deletes s) s
      else if bool_decide (selected s = Some id) then s
      else withList (cache s) (pinned s) (Some id) (Some id) s
  | DeletesOne id =>
      let sel := if bool_decide (selected s = Some id) then None else selected s in
      let v := if bool_decide (selected s = Some id) then None else view s in
      withChosen (multi s) (chosen s) (deletes s ++ [id]) (withList (cache s) (unpin id (pinned s)) sel v s)
  | DeletesChosen asked =>
      if bool_decide (chosen s = []) then s else
      let real := filterb (λ id, negb (isTempSessionId id)) (chosen s) in
      if Nat.ltb asked (length real)
      then
        let sel := match selected s with Some id => if bool_decide (id ∈ take asked real) then None else Some id | None => None end in
        withChosen (multi s) (chosen s) (deletes s ++ take (S asked) real) (withList (cache s) (pinned s) sel (view s) s)
      else
        let gone := match selected s with Some id => bool_decide (id ∈ chosen s) | None => false end in
        withChosen false [] (deletes s ++ real) (if gone then withList (cache s) [] None None s else s)
  | TogglesMulti => withChosen (negb (multi s)) [] (deletes s) s
  | SelectsAll =>
      match sessionsList s with
      | [] => s
      | l => withChosen (multi s) (filterb (λ id, negb (isTempSessionId id)) (sid <$> l)) (deletes s) s
      end
  | DeselectsAll => withChosen (multi s) [] (deletes s) s
  end.
End sidebar.

Definition newSidebar (c : string) : Sidebar :=
  {| cache := [(c, None)]; cluster := c; pinned := []; selected := None; view := None; creations := []; streams := []; multi := false; chosen := []; deletes := [] |}.

(** ** Lists of conversations *)

Lemma elem_unseen seen l s : s ∈ unseen seen l → s ∈ l ∧ sid s ∉ seen.
Proof.
  revert seen. induction l as [|x l IH]; intros seen; cbn; [by intros H%elem_of_nil|]. case_bool_decide as Hx.
  - intros [Hl Hs]%IH. split; [by right|done].
  - intros [->|[Hl Hs]%IH]%elem_of_cons; [split; [left|done]|]. split; [by right|]. intros H2. apply Hs. by right.
Qed.

Lemma unseen_nodup seen l : NoDup (sid <$> unseen seen l).
Proof.
  revert seen. induction l as [|x l IH]; intros seen; cbn; [by apply NoDup_nil|]. case_bool_decide; [done|]. cbn. apply NoDup_cons. split; [|done].
  intros (y & E & Hy)%list_elem_of_fmap. apply elem_unseen in Hy as [_ Hy]. apply Hy. rewrite <-E. left.
Qed.

Lemma unseen_same seen l : NoDup (sid <$> l) → (∀ s, s ∈ l → sid s ∉ seen) → unseen seen l = l.
Proof.
  revert seen. induction l as [|x l IH]; intros seen Hn Hs; [done|]. cbn in *. apply NoDup_cons in Hn as [Hx Hn].
  rewrite bool_decide_false by (apply Hs; left). f_equal. apply IH; [done|]. intros y Hy [E|H]%elem_of_cons; [|by apply (Hs y); [right|]].
  apply Hx. rewrite <-E. by apply list_elem_of_fmap_2.
Qed.

Lemma flattened_nodup d : NoDup (sid <$> getFlattenedSessions d).
Proof. destruct d; [apply unseen_nodup|by apply NoDup_nil]. Qed.

Lemma concat_chunks fuel l : (length l ≤ fuel)%nat → concat (chunks fuel l) = l.
Proof.
  revert l. induction fuel as [|n IH]; intros [|x l] H; [done|cbn in H; lia|done|].
  assert (∀ l', l' = x :: l → concat (take SESSIONS_PAGE_SIZE l' :: chunks n (drop SESSIONS_PAGE_SIZE l')) = l') as Hc.
  { intros l' E. cbn [concat]. rewrite IH by (rewrite length_drop, E; cbn in *; unfold SESSIONS_PAGE_SIZE; lia). apply take_drop. }
  by apply Hc.
Qed.

Lemma concat_build l : concat (pages (buildSessionsInfiniteData l)) = l.
Proof. pose proof (concat_chunks (length l) l ltac:(done)). unfold buildSessionsInfiniteData. cbn [pages]. by destruct (chunks (length l) l). Qed.

Lemma flattened_build l : NoDup (sid <$> l) → getFlattenedSessions (Some (buildSessionsInfiniteData l)) = l.
Proof. intros H. unfold getFlattenedSessions. rewrite concat_build. apply unseen_same; [done|]. intros s _ []%elem_of_nil. Qed.

Lemma filterb_id (P : Session → bool) l : (∀ x, x ∈ l → P x = true) → filterb P l = l.
Proof.
  induction l as [|x l IH]; intros H; [done|]. cbn. rewrite (H x) by left. f_equal. apply IH. intros y Hy. apply H. by right.
Qed.

Lemma filterb_sids (P : Session → bool) l : NoDup (sid <$> l) → NoDup (sid <$> filterb P l).
Proof.
  induction l as [|x l IH]; [done|]. cbn. intros [Hx Hn]%NoDup_cons. destruct (P x); cbn; [|by apply IH]. apply NoDup_cons. split; [|by apply IH].
  intros (y & E & [Hy _]%elem_of_filterb)%list_elem_of_fmap. apply Hx. rewrite E. by apply list_elem_of_fmap_2.
Qed.

(** The conversations of an entry after [upsertSessionAtFront]. *)
Definition others (s : Session) (optimistic : option string) (l : list Session) : list Session :=
  filterb (λ x, negb (eqs (sid x) (sid s)) && negb (bool_decide (optimistic = Some (sid x)))) l.

Lemma elem_others s o l x : x ∈ others s o l ↔ x ∈ l ∧ sid x ≠ sid s ∧ o ≠ Some (sid x).
Proof.
  unfold others. rewrite elem_of_filterb, andb_true_iff, !negb_true_iff, bool_decide_eq_false, eqs_false. tauto.
Qed.

Lemma flattened_upsert s o c k :
  k ∈ c.*1 → getFlattenedSessions (default None (assoc k (upsertSessionAtFront s o c))) = s :: others s o (getFlattenedSessions (default None (assoc k c))).
Proof.
  intros Hk. unfold upsertSessionAtFront. induction c as [|[k' d] c IH]; [by apply elem_of_nil in Hk|]. cbn [fmap list_fmap assoc fst snd] in *.
  destruct (eqs k k') eqn:E.
  - cbn [default]. apply flattened_build. cbn. apply NoDup_cons. split; [|apply filterb_sids, flattened_nodup].
    intros (y & Ey & [_ [Hy _]]%elem_others)%list_elem_of_fmap. by apply Hy.
  - apply IH. apply elem_of_cons in Hk as [->|Hk]; [by rewrite eqs_refl in E|done].
Qed.

Lemma upserted_keys s o c : (upsertSessionAtFront s o c).*1 = c.*1.
Proof. unfold upsertSessionAtFront. rewrite <-list_fmap_compose. by apply list_fmap_ext. Qed.

(** Each page of a rebuilt list asks from the last row of the page before. *)
Lemma cursors_chain c ps i p s :
  cursors c ps !! S i = Some p → (ps !! i) ≫= last = Some s → p = afterSession s.
Proof.
  revert c i. induction ps as [|q ps IH]; intros c i; [done|]. cbn. destruct i as [|i]; cbn.
  - intros Hp Hl. rewrite Hl in Hp. destruct ps; cbn in Hp; congruence.
  - apply IH.
Qed.

Lemma chunks_length fuel l p : p ∈ chunks fuel l → (length p ≤ SESSIONS_PAGE_SIZE)%nat.
Proof.
  revert l. induction fuel as [|n IH]; intros l.
  - destruct l; by intros ?%elem_of_nil.
  - intros H. assert (p = take SESSIONS_PAGE_SIZE l ∨ p ∈ chunks n (drop SESSIONS_PAGE_SIZE l)) as [->|H'].
    { destruct l as [|x l]; [by apply elem_of_nil in H|]. by apply elem_of_cons in H. }
    + rewrite length_take. lia.
    + by apply (IH (drop SESSIONS_PAGE_SIZE l)).
Qed.

(** ** The state *)

Definition Whole (s : Sidebar) : Prop :=
  NoDup (pinned s).*1 ∧ Forall (λ e, e.1 = sid e.2) (pinned s).

Lemma pinned_ids s : Whole s → NoDup (sid <$> (snd <$> pinned s)).
Proof.
  intros [Hn Hf]. assert (sid <$> (snd <$> pinned s) = (pinned s).*1) as ->; [|done].
  rewrite <-list_fmap_compose. apply list_fmap_ext. intros i e He. cbn. symmetry. by apply (Forall_lookup_1 _ _ _ _ Hf He).
Qed.

Lemma whole_unpin id s c v sel : Whole s → Whole (withList c (unpin id (pinned s)) sel v s).
Proof.
  intros [Hn Hf]. split; cbn [pinned withList].
  - unfold unpin. clear Hf. induction (pinned s) as [|e l IH]; [done|]. cbn in *. apply NoDup_cons in Hn as [Hx Hn].
    destruct (negb _); [|by apply IH]. apply NoDup_cons. split; [|by apply IH].
    intros (y & E & [Hy _]%elem_of_filterb)%list_elem_of_fmap. apply Hx. rewrite E. by apply list_elem_of_fmap_2.
  - apply Forall_forall. intros e [He _]%elem_of_filterb. by apply (proj1 (Forall_forall _ _) Hf).
Qed.

Lemma whole_step lo s e : Whole s → Whole (step lo s e).
Proof.
  intros H. destruct e; cbn [step]; repeat first [done | by apply (whole_unpin _ s) | case_match | split; [by apply NoDup_nil|by constructor]].
  unfold handleSend. case_match; [done|]. case_match; [done|]. destruct H as [Hn Hf]. split; cbn [pinned withCreations withList].
  - by apply upsert_nodup.
  - apply Forall_forall. intros e' He. cbn in He. clear Hn. induction (pinned s) as [|[k x] l IH]; cbn in He.
    + by apply list_elem_of_singleton in He as ->.
    + apply Forall_cons in Hf as [Hx Hf]. destruct (eqs tempId k) eqn:E; apply elem_of_cons in He as [->|He]; [|by apply (proj1 (Forall_forall _ _) Hf)|done|by apply IH].
      apply eqs_true in E as ->. done.
Qed.

Lemma whole_run lo es s : Whole s → Whole (foldl (step lo) s es).
Proof. revert s. induction es as [|e es IH]; intros s H; [done|]. apply IH. by apply whole_step. Qed.

(** What every state keeps: the pinned conversations are temporary ones, and the
    cluster on screen has its entry. *)
Definition asksTemporary (e : Event) : bool := match e with Sends _ _ tempId _ => isTempSessionId tempId | _ => true end.

Definition Kept (s : Sidebar) : Prop :=
  Forall (λ e, isTempSessionId (sid e.2) = true) (pinned s) ∧ cluster s ∈ (cache s).*1.

Lemma restored_keys snapshot c k : k ∈ c.*1 → k ∈ (restore snapshot c).*1.
Proof.
  revert c. induction snapshot as [|[k' d] l IH]; intros c Hk; [done|]. apply IH. cbn. destruct d; [|done]. apply elem_upsert_keys. by left.
Qed.

Lemma unpinned_temp id l : Forall (λ e, isTempSessionId (sid e.2) = true) l → Forall (λ e, isTempSessionId (sid e.2) = true) (unpin id l).
Proof. intros H. apply Forall_forall. intros e [He _]%elem_of_filterb. by apply (proj1 (Forall_forall _ _) H). Qed.

Lemma pinned_temp t x l :
  isTempSessionId (sid x) = true → Forall (λ e, isTempSessionId (sid e.2) = true) l →
  Forall (λ e, isTempSessionId (sid e.2) = true) (upsert x t (λ _, x) l).
Proof.
  intros Hx. induction 1 as [|[k y] l Hy Hl IH]; cbn; [by repeat constructor|]. destruct (eqs t k); by constructor.
Qed.

Lemma kept_send m b tempId now s : isTempSessionId tempId = true → Kept s → Kept (handleSend m b tempId now s).
Proof.
  intros He [Hp Hc]. unfold handleSend. case_match; [by split|]. case_match; [by split|].
  split; cbn [pinned cache cluster withList withCreations]; [by apply pinned_temp|by rewrite !upserted_keys].
Qed.

Lemma kept_step lo s e : asksTemporary e = true → Kept s → Kept (step lo s e).
Proof.
  intros He [Hp Hc]. destruct e; cbn [step] in *; [by apply kept_send|..];
    repeat first
      [ by split | case_match
      | split; cbn [pinned cache cluster withList withCreations withChosen];
        [by first [done | apply unpinned_temp | constructor]
        | first [done | by rewrite upserted_keys | by apply restored_keys | apply elem_upsert_keys; by right]] ].
Qed.

Lemma kept_run lo es s : Forall (λ e, asksTemporary e = true) es → Kept s → Kept (foldl (step lo) s es).
Proof. intros Hf. revert s. induction Hf as [|e es He Hes IH]; intros s H; [done|]. apply IH. by apply kept_step. Qed.

Definition base (s : Sidebar) : list Session := getFlattenedSessions (default None (assoc (cluster s) (cache s))).

(** The pinned conversations of a kept state are all on screen, before the others. *)
Lemma listed s :
  Kept s → sessionsList s = ((snd <$> pinned s) ++ filterb (λ x, negb (bool_decide (sid x ∈ (sid <$> (snd <$> pinned s))))) (base s))%list.
Proof.
  intros [Hp _]. unfold sessionsList. rewrite (filterb_id _ (snd <$> pinned s)); [done|]. intros x (e & -> & He)%list_elem_of_fmap.
  by rewrite (proj1 (Forall_forall _ _) Hp e He).
Qed.

Lemma elem_listed s x :
  Kept s → x ∈ sessionsList s ↔ x ∈ snd <$> pinned s ∨ x ∈ base s ∧ sid x ∉ (sid <$> (snd <$> pinned s)).
Proof. intros H. by rewrite listed, elem_of_app, elem_of_filterb, negb_true_iff, bool_decide_eq_false by done. Qed.

Lemma pinned_is_temp s x : Kept s → x ∈ snd <$> pinned s → isTempSessionId (sid x) = true.
Proof. intros [Hp _] (e & -> & He)%list_elem_of_fmap. by apply (proj1 (Forall_forall _ _) Hp). Qed.

Lemma base_upserted s x o p sel v :
  cluster s ∈ (cache s).*1 → base (withList (upsertSessionAtFront x o (cache s)) p sel v s) = x :: others x o (base s).
Proof. intros H. unfold base. cbn [cluster cache withList]. by apply flattened_upsert. Qed.

Lemma elem_unpin id l e : e ∈ unpin id l ↔ e ∈ l ∧ e.1 ≠ id.
Proof. unfold unpin. by rewrite elem_of_filterb, negb_true_iff, eqs_false. Qed.

Definition initial (es : list Event) (lo : bool) (c : string) : Sidebar := foldl (step lo) (newSidebar c) es.

Lemma whole_initial es lo c : Whole (initial es lo c).
Proof. apply whole_run. split; [by apply NoDup_nil|by constructor]. Qed.

Lemma kept_initial es lo c : Forall (λ e, asksTemporary e = true) es → Kept (initial es lo c).
Proof. intros H. apply kept_run; [done|]. split; [by constructor|left]. Qed.

(** ** Properties *)

(** Whatever happened, the sidebar lists each conversation once: the pages of the
    server, the conversations pinned before the server knows them and the optimistic
    rows written into the cache never show the same id twice. *)
Theorem sidebar_once es lo c : NoDup (sid <$> sessionsList (initial es lo c)).
Proof.
  pose proof (pinned_ids _ (whole_initial es lo c)) as Hp. generalize dependent (initial es lo c). intros s Hp.
  unfold sessionsList. rewrite fmap_app. apply NoDup_app. split; [by apply filterb_sids|]. split; [|apply filterb_sids, flattened_nodup].
  intros id Hid (x & -> & [_ Hx]%elem_of_filterb)%list_elem_of_fmap. apply negb_true_iff, bool_decide_eq_false in Hx. done.
Qed.

(** C15. When the server has made the conversation of a first question, the temporary
    row gives way to the real one: its id is gone from the sidebar, the conversation is
    listed, and every other conversation listed before is still there. *)
Theorem created_replaces_temp es lo c i session cr :
  Forall (λ e, asksTemporary e = true) es → creations (initial es lo c) !! i = Some (Some cr) →
  isTempSessionId (sid session) = false → isTempSessionId (optimisticId cr) = true →
  let s := initial es lo c in
  let s' := step lo s (Created i session) in
  optimisticId cr ∉ sid <$> sessionsList s' ∧ session ∈ sessionsList s' ∧
  ∀ x, x ∈ sessionsList s → sid x ≠ optimisticId cr → sid x ≠ sid session → x ∈ sessionsList s'.
Proof.
  intros Hes Hcr Hreal Htemp s s'.
  assert (Kept s) as Hk by by apply kept_initial. assert (Whole s) as Hw by apply whole_initial.
  assert (Kept s') as Hk' by by apply kept_step.
  assert (base s' = session :: others session (Some (optimisticId cr)) (base s)) as Hb.
  { unfold s'. cbn [step]. unfold s at 1. rewrite Hcr. cbv zeta. rewrite <-(base_upserted s session (Some (optimisticId cr)) [] None None) by apply Hk. done. }
  assert (pinned s' = unpin (optimisticId cr) (pinned s)) as Hp.
  { unfold s'. cbn [step]. unfold s at 1. rewrite Hcr. done. }
  assert (∀ x, x ∈ snd <$> pinned s' ↔ x ∈ snd <$> pinned s ∧ sid x ≠ optimisticId cr) as Hpe.
  { intros x. rewrite Hp, !list_elem_of_fmap. destruct Hw as [_ Hw]. rewrite Forall_forall in Hw. split.
    - intros (e & -> & [He Hn]%elem_unpin). rewrite <-(Hw e He). split; [by exists e|done].
    - intros [(e & -> & He) Hn]. exists e. rewrite elem_unpin, (Hw e He). done. }
  repeat split.
  - intros (x & E & Hx)%list_elem_of_fmap. apply elem_listed in Hx as [Hx|[Hx _]]; [..|done]; [by apply Hpe in Hx as [_ Hx]|].
    rewrite Hb in Hx. apply elem_of_cons in Hx as [->|(_ & _ & Hx)%elem_others]; congruence.
  - apply elem_listed; [done|]. right. rewrite Hb. split; [left|]. intros (y & E & Hy)%list_elem_of_fmap.
    apply (pinned_is_temp _ _ Hk') in Hy. congruence.
  - intros x Hx Hn Hs. apply elem_listed; [done|]. apply elem_listed in Hx as [Hx|[Hx Hu]]; [..|done].
    + left. by apply Hpe.
    + right. rewrite Hb. split; [right; apply elem_others; split; [done|]; split; congruence|].
      intros (y & E & [Hy _]%Hpe)%list_elem_of_fmap. apply Hu. rewrite E. by apply list_elem_of_fmap_2.
Qed.

(** A list of distinct conversations written back into the cache reads back as it
    was: [getFlattenedSessions] undoes [buildSessionsInfiniteData].  Its pages hold at
    most fifty, and each is asked for after the last conversation of the page before. *)
Theorem pages_rebuilt l :
  NoDup (sid <$> l) →
  let d := buildSessionsInfiniteData l in
  getFlattenedSessions (Some d) = l ∧ Forall (λ p, (length p ≤ SESSIONS_PAGE_SIZE)%nat) (pages d) ∧
  ∀ i p s, pageParams d !! S i = Some p → (pages d !! i) ≫= last = Some s → p = afterSession s.
Proof.
  intros Hn d. split; [by apply flattened_build|]. split.
  - apply Forall_forall. intros p Hp. unfold d, buildSessionsInfiniteData in Hp. cbn [pages] in Hp.
    destruct (chunks (length l) l) eqn:E; [apply list_elem_of_singleton in Hp as ->; cbn; lia|]. rewrite <-E in Hp. by apply chunks_length in Hp.
  - unfold d, buildSessionsInfiniteData. cbn [pages pageParams]. intros i p s. destruct (chunks (length l) l) eqn:E; [done|]. apply cursors_chain.
Qed.

Lemma sent s m tempId now :
  nonempty m = true → realSession s = None →
  let o := {| sid := tempId; title := initialTitle m; created_at := now; updated_at := now; message_count := 0 |} in
  handleSend m false tempId now s =
  withCreations (creations s ++ [Some {| optimisticId := tempId; previousSessions := upsertSessionAtFront o None (cache s); question := m |}]) (streams s)
    (withList (upsertSessionAtFront o None (upsertSessionAtFront o None (cache s))) (upsert o tempId (λ _, o) (pinned s)) (Some tempId) (Some tempId) s).
Proof. intros Hm H o. unfold handleSend. by rewrite Hm, H. Qed.

Definition restoreOne (e : string * option InfiniteData) (c : list (string * option InfiniteData)) : list (string * option InfiniteData) :=
  match e.2 with None => c | Some _ => upsert e.2 e.1 (λ _, e.2) c end.

Lemma restore_cons e l c : restore (e :: l) c = restore l (restoreOne e c).
Proof. done. Qed.

Lemma assoc_restoreOne e c k : assoc k (restoreOne e c) = if eqs k e.1 && bool_decide (is_Some e.2) then Some e.2 else assoc k c.
Proof. unfold restoreOne. destruct e as [k' [x|]]; cbn; [rewrite assoc_upsert; by destruct (eqs k k')|by destruct (eqs k k')]. Qed.

Lemma assoc_restored snapshot c k d : NoDup snapshot.*1 → assoc k snapshot = Some (Some d) → assoc k (restore snapshot c) = Some (Some d).
Proof.
  assert (∀ l c', k ∉ l.*1 → assoc k (restore l c') = assoc k c') as Hother.
  { induction l as [|e l IH]; intros c' Hk; [done|]. cbn in Hk. apply not_elem_of_cons in Hk as [Hk Hl].
    rewrite restore_cons, IH, assoc_restoreOne by done. destruct (eqs k e.1) eqn:E; [by apply eqs_true in E|done]. }
  revert c. induction snapshot as [|[k' x] l IH]; intros c; [done|]. cbn [fmap list_fmap fst assoc]. intros [Hk Hn]%NoDup_cons. rewrite restore_cons.
  destruct (eqs k k') eqn:E; [|by apply IH]. apply eqs_true in E as ->. intros [= ->]. rewrite Hother, assoc_restoreOne by done. cbn. by rewrite eqs_refl.
Qed.

Lemma restored_nodup snapshot c : NoDup c.*1 → NoDup (restore snapshot c).*1.
Proof.
  revert c. induction snapshot as [|[k [x|]] l IH]; intros c H; [done|..]; rewrite restore_cons; apply IH; [by apply upsert_nodup|done].
Qed.

Lemma cache_nodup_step lo s e : NoDup (cache s).*1 → NoDup (cache (step lo s e)).*1.
Proof.
  intros H. destruct e; cbn [step]; unfold handleSend; repeat case_match; cbn [cache withList withCreations withChosen];
    by rewrite ?upserted_keys; auto using restored_nodup, upsert_nodup.
Qed.

Lemma cache_nodup_initial es lo c : NoDup (cache (initial es lo c)).*1.
Proof.
  unfold initial. assert (NoDup (cache (newSidebar c)).*1) as H by apply NoDup_singleton. revert H. generalize (newSidebar c).
  induction es as [|e es IH]; intros s H; [done|]. apply IH. by apply cache_nodup_step.
Qed.

Lemma listed_base s x : Kept s → x ∈ base s → sid x ∈ sid <$> sessionsList s.
Proof.
  intros H Hx. destruct (decide (sid x ∈ (sid <$> (snd <$> pinned s)))) as [Hi|Hi].
  - apply list_elem_of_fmap in Hi as (y & -> & Hy). apply list_elem_of_fmap_2, elem_listed; [done|]. by left.
  - apply list_elem_of_fmap_2, elem_listed; [done|]. by right.
Qed.

(** A first question whose conversation cannot be made leaves its temporary row in
    the sidebar: the snapshot that the rollback restores is taken after [handleSend]
    has already written the row into the cache.  Only a later answer of the server
    takes it away. *)
Theorem failed_creation_stays es lo c m tempId now :
  Forall (λ e, asksTemporary e = true) es → nonempty m = true → isTempSessionId tempId = true → realSession (initial es lo c) = None →
  let s := initial es lo c in
  let s' := step lo (step lo s (Sends m false tempId now)) (CreateFails (length (creations s))) in
  tempId ∈ sid <$> sessionsList s' ∧ tempId ∉ (pinned s').*1 ∧
  ∀ d, tempId ∉ sid <$> getFlattenedSessions (Some d) → tempId ∉ sid <$> sessionsList (step lo s' (Fetched d)).
Proof.
  intros Hes Hm Ht Hr s s'. assert (Kept s) as Hk by by apply kept_initial.
  pose proof (sent s m tempId now Hm Hr) as Hs. cbv zeta in Hs. set (o := {| sid := tempId |}) in *.
  assert (Kept s') as Hk' by (by apply kept_step; [done|]; apply kept_step). assert (Whole s') as Hw' by (do 2 apply whole_step; apply whole_initial).
  assert (pinned s' = unpin tempId (upsert o tempId (λ _, o) (pinned s)) ∧
          cache s' = restore (upsertSessionAtFront o None (cache s)) (upsertSessionAtFront o None (upsertSessionAtFront o None (cache s))) ∧ cluster s' = cluster s) as (Hp & Hc & Hcl).
  { unfold s'. cbn [step]. rewrite Hs. cbn [creations withCreations]. rewrite list_lookup_middle by done. by repeat split. }
  assert (tempId ∉ (pinned s').*1) as Hno by (rewrite Hp; intros ([k x] & -> & [_ He]%elem_unpin)%list_elem_of_fmap; done).
  split; [|split; [done|]].
  - change tempId with (sid o). apply listed_base; [done|]. unfold base. rewrite Hc, Hcl.
    pose proof (flattened_upsert o None (cache s) (cluster s) (proj2 Hk)) as Hf. pose proof (cache_nodup_initial es lo c) as Hn. fold s in Hn.
    destruct (assoc (cluster s) (upsertSessionAtFront o None (cache s))) as [[d|]|] eqn:E; cbn [default getFlattenedSessions] in Hf; try done.
    rewrite (assoc_restored _ _ _ d) by (rewrite ?upserted_keys; done). cbn [default id] in *. rewrite Hf. left.
  - intros d Hd (x & E & Hx)%list_elem_of_fmap. apply elem_listed in Hx as [Hx|[Hx _]]; [..|by apply kept_step].
    + apply list_elem_of_fmap in Hx as (e & -> & He). cbn [step pinned withList] in He. apply Hno. rewrite E.
      destruct Hw' as [_ Hw']. rewrite Forall_forall in Hw'. rewrite <-(Hw' _ He). by apply list_elem_of_fmap_2.
    + unfold base in Hx. cbn [step cache cluster withList] in Hx. rewrite assoc_upsert, eqs_refl in Hx. cbn [default] in Hx.
      apply Hd. rewrite E. by apply list_elem_of_fmap_2.
Qed.

Lemma sent_streams lo s i session cr :
  creations s !! i = Some (Some cr) →
  streams (step lo s (Created i session)) = if called lo i s then (streams s ++ [(sid session, question cr)])%list else streams s.
Proof. intros H. cbn [step]. by rewrite H. Qed.

Lemma sent_creations s m tempId now :
  nonempty m = true → realSession s = None →
  ∃ snap, creations (handleSend m false tempId now s) = (creations s ++ [Some {| optimisticId := tempId; previousSessions := snap; question := m |}])%list.
Proof. intros Hm H. rewrite sent by done. by eexists. Qed.

(** A second question asked before the conversation of the first exists makes a
    second conversation, and the first question is never sent: only the callbacks of
    the latest call of [mutate] run, and those start the stream.  Were the callbacks of
    every call run, both would be sent. *)
Theorem first_question_lost s m1 id1 now1 m2 id2 now2 session1 session2 :
  nonempty m1 = true → nonempty m2 = true → realSession s = None → isTempSessionId id1 = true →
  let i := length (creations s) in
  let run lo := foldl (step lo) s [Sends m1 false id1 now1; Sends m2 false id2 now2; Created i session1; Created (S i) session2] in
  streams (run true) = (streams s ++ [(sid session2, m2)])%list ∧
  streams (run false) = (streams s ++ [(sid session1, m1); (sid session2, m2)])%list.
Proof.
  intros Hm1 Hm2 Hr Ht i run.
  destruct (sent_creations s m1 id1 now1 Hm1 Hr) as (snap1 & H1). set (s1 := handleSend m1 false id1 now1 s) in *.
  assert (realSession s1 = None) as Hr1.
  { unfold s1. rewrite sent by done. unfold realSession. cbn [selected withCreations withList]. by rewrite Ht, andb_false_r. }
  destruct (sent_creations s1 m2 id2 now2 Hm2 Hr1) as (snap2 & H2). set (s2 := handleSend m2 false id2 now2 s1) in *.
  assert (streams s2 = streams s) as Hst by (unfold s2; rewrite sent by done; cbn; unfold s1; by rewrite sent by done).
  rewrite H1, <-app_assoc in H2. cbn [app] in H2.
  assert (creations s2 !! i = Some (Some {| optimisticId := id1; previousSessions := snap1; question := m1 |})) as Hi
    by (rewrite H2; by apply list_lookup_middle).
  assert (length (creations s2) = S (S i)) as Hl by (rewrite H2, length_app; cbn; unfold i; lia).
  assert (∀ lo, creations (step lo s2 (Created i session1)) !! S i = Some (Some {| optimisticId := id2; previousSessions := snap2; question := m2 |}) ∧
                length (creations (step lo s2 (Created i session1))) = S (S i)) as Hnext.
  { intros lo. cbn [step]. rewrite Hi. cbn [creations withCreations]. rewrite length_insert. split; [|done].
    rewrite list_lookup_insert_ne by lia. rewrite H2, lookup_app_r by (unfold i; lia). by replace (S i - length (creations s))%nat with 1%nat by (unfold i; lia). }
  assert (∀ lo, streams (run lo) = (if called lo (S i) (step lo s2 (Created i session1)) then
    (if called lo i s2 then streams s ++ [(sid session1, m1)] else streams s) ++ [(sid session2, m2)] else
    (if called lo i s2 then streams s ++ [(sid session1, m1)] else streams s)))%list as Hrun.
  { intros lo. unfold run. cbn [foldl]. change (step lo s (Sends m1 false id1 now1)) with s1. change (step lo s1 (Sends m2 false id2 now2)) with s2.
    rewrite (sent_streams _ _ _ _ _ (proj1 (Hnext lo))), (sent_streams _ _ _ _ _ Hi), Hst. done. }
  rewrite !Hrun. unfold called. rewrite Hl, !(proj2 (Hnext _)), Nat.eqb_refl, orb_true_r. cbn [negb orb].
  rewrite (proj2 (Nat.eqb_neq (S i) (S (S i)))) by lia. by rewrite <-app_assoc.
Qed.

(** ** Witnesses *)

Definition sample (id : string) : Session := {| sid := id; title := id; created_at := "t"; updated_at := "u"; message_count := 1 |}.
Definition asked : Event := Sends "why?" false "temp:1" "now".
Definition loaded : Event := Fetched {| pages := [[sample "a"; sample "b"]]; pageParams := [None] |}.

Lemma created_replaces_temp_witness :
  let s := initial [loaded; asked] true "c" in
  let s' := step true s (Created 0 (sample "new")) in
  (sid <$> sessionsList s) = ["temp:1"; "a"; "b"] ∧ (sid <$> sessionsList s') = ["new"; "a"; "b"] ∧
  ("temp:1" ∉ sid <$> sessionsList s' ∧ sample "new" ∈ sessionsList s' ∧
   ∀ x, x ∈ sessionsList s → sid x ≠ "temp:1" → sid x ≠ "new" → x ∈ sessionsList s').
Proof.
  intros s s'. split; [by vm_compute|]. split; [by vm_compute|].
  apply (created_replaces_temp [loaded; asked] true "c" 0 (sample "new")
    {| optimisticId := "temp:1"; previousSessions := match creations s with [Some c] => previousSessions c | _ => [] end; question := "why?" |});
    [repeat constructor|by vm_compute|done|done].
Defined.

Lemma pages_rebuilt_witness : getFlattenedSessions (Some (buildSessionsInfiniteData [sample "a"; sample "b"])) = [sample "a"; sample "b"].
Proof. apply (pages_rebuilt [sample "a"; sample "b"]). apply (bool_decide_unpack _). by vm_compute. Defined.

Lemma failed_creation_stays_witness :
  let s := initial [loaded] true "c" in
  let s' := step true (step true s asked) (CreateFails 0) in
  (sid <$> sessionsList s') = ["temp:1"; "a"; "b"] ∧ "temp:1" ∈ sid <$> sessionsList s'.
Proof.
  intros s s'. split; [by vm_compute|].
  apply (failed_creation_stays [loaded] true "c" "why?" "temp:1" "now"); [repeat constructor|done|done|done].
Defined.

Lemma first_question_lost_witness :
  let s := initial [loaded] true "c" in
  let es := [Sends "one" false "temp:1" "now"; Sends "two" false "temp:2" "now"; Created 0 (sample "x"); Created 1 (sample "y")] in
  streams (foldl (step true) s es) = [("y", "two")] ∧ streams (foldl (step false) s es) = [("x", "one"); ("y", "two")].
Proof. exact (first_question_lost (initial [loaded] true "c") "one" "temp:1" "now" "two" "temp:2" "now" (sample "x") (sample "y") eq_refl eq_refl eq_refl eq_refl). Defined.
