(* ===== verification/Gpu.v ===== *)
(** * The numbers of the GPU screens

    pages/gpu/gpuNumbers.ts and utils/nodeStatus.ts: the companies of a node's
    resources and labels, the models, the pods' cards and charts, and what DCGM
    reports of each pod.  Counts are integers, utilizations and sizes of memory
    rationals; a number read from a quantity is [None] where the code has NaN.  A text
    that is absent, null or empty is the empty one: all are falsy. *)

From Stdlib Require Import QArith Qround Lqa Sorted.
From S2P Require Import Prelude JsString OrderedMap Sums Sorting Json AiSummaries.

#[local] Open Scope string_scope.
#[local] Open Scope Z_scope.

Inductive GPUVendor := NVIDIA | AMD | Intel.
#[export] Instance GPUVendor_dec : EqDecision GPUVendor.
Proof. solve_decision. Defined.

Definition vendorName (v : GPUVendor) : string := match v with NVIDIA => "NVIDIA" | AMD => "AMD" | Intel => "Intel" end.

Definition GPU_VENDORS : list GPUVendor := [NVIDIA; AMD; Intel].

Record GPUNodeVendor := {
  v_vendor : GPUVendor; v_capacity : Z; v_allocatable : Z; v_used : Z; v_model : string; v_memory : string
}.
Record GPUNodeInfo := { n_name : string; n_vendors : list GPUNodeVendor; n_status : string }.
Record GPUPodInfo := {
  p_name : string; p_namespace : string; p_node : string; p_requested : Z; p_vendors : list (GPUVendor * Z); p_status : string; p_phase : string
}.
Record GPUDevicePlugin := { d_vendor : GPUVendor; d_found : bool; d_desired : option Z; d_ready : option Z }.
Record GPUDeviceMetric := {
  gpu_util : option Q; memory_used_mb : option Q; memory_total_mb : option Q; memory_util_percent : option Q;
  exported_pod : string; exported_namespace : string
}.

(** ** Companies *)

(** [AMD_PARTITION]. *)
Definition amdPartition (name : string) : bool :=
  some (λ p, let q := "amd.com/" ++ p ++ "_nps" in
             startsWith q name && nonempty (sdrop (String.length q) name) && sall is_digit (sdrop (String.length q) name))
    ["spx"; "dpx"; "tpx"; "qpx"; "cpx"].

Definition gpuVendorOf (name : string) : option GPUVendor :=
  if eqs name "nvidia.com/gpu" || eqs name "nvidia.com/gpu.shared" || startsWith "nvidia.com/mig-" name then Some NVIDIA else
  if eqs name "amd.com/gpu" || amdPartition name then Some AMD else
  if eqs name "gpu.intel.com/i915" || eqs name "gpu.intel.com/xe" then Some Intel else None.

(** A sum of numbers, of which one may be NaN. *)
Definition nadd (a b : option Z) : option Z := match a, b with Some x, Some y => Some (x + y) | _, _ => None end.

(** [GPU_VENDORS.filter((v) => by.has(v)).map((v) => [v, by.get(v)])]. *)
Definition inOrder {B} (m : list (string * B)) : list (GPUVendor * B) := omap (λ v, pair v <$> assoc (vendorName v) m) GPU_VENDORS.

Definition gpuCountsByVendor (resources : list (string * string)) : list (GPUVendor * option Z) :=
  inOrder (foldl (λ m e, match gpuVendorOf e.1 with
                         | Some v => upsert (Some 0) (vendorName v) (λ n, nadd n (parseNumber e.2)) m
                         | None => m
                         end) [] resources).

Definition gpuCountOf (resources : list (string * string)) : option (option Z) :=
  match gpuCountsByVendor resources with
  | [] => None
  | counts => Some (foldl (λ s e, nadd s e.2) (Some 0) counts)
  end.

(** ** Labels *)

Definition label (labels : list (string * string)) (k : string) : string := default "" (assoc k labels).

Definition amdPrefixes : list string := ["amd.com/gpu."; "beta.amd.com/gpu."].

Definition amdLabel (labels : list (string * string)) (name : string) : string :=
  match find (λ p, nonempty (label labels (p ++ name))) amdPrefixes with
  | Some p => label labels (p ++ name)
  | None =>
      let valuesOf p := let q := p ++ name ++ "." in sortBy byUnits (sdrop (String.length q) <$> filterb (startsWith q) labels.*1) in
      match find (λ p, match valuesOf p with [] => false | _ => true end) amdPrefixes with
      | Some p => join ", " (valuesOf p)
      | None => ""
      end
  end.

Definition gfdMemory (l : string) : string := if nonempty l && sall is_digit l then l ++ " MiB" else l.

Definition gfdVersion (labels : list (string * string)) (name old : string) (parts : list string) : string :=
  let full := label labels ("nvidia.com/" ++ name ++ ".full") in
  if nonempty full then full else
  let major := label labels ("nvidia.com/" ++ old ++ ".major") in
  if nonempty major then join "." (major :: filterb nonempty ((λ p, label labels ("nvidia.com/" ++ old ++ "." ++ p)) <$> parts)) else "".

Definition driverVersion (labels : list (string * string)) : string := gfdVersion labels "cuda.driver-version" "cuda.driver" ["minor"; "rev"].
Definition cudaVersion (labels : list (string * string)) : string := gfdVersion labels "cuda.runtime-version" "cuda.runtime" ["minor"].

Record VendorLabels := { l_model : string; l_memory : string; l_driver : string; l_family : string }.

Definition gpuVendorLabels (v : GPUVendor) (labels : list (string * string)) : VendorLabels :=
  match v with
  | NVIDIA => {| l_model := label labels "nvidia.com/gpu.product"; l_memory := gfdMemory (label labels "nvidia.com/gpu.memory");
                 l_driver := driverVersion labels; l_family := label labels "nvidia.com/gpu.family" |}
  | AMD => {| l_model := amdLabel labels "product-name"; l_memory := amdLabel labels "vram"; l_driver := label labels "amd.com/gpu.driver-version";
              l_family := amdLabel labels "family" |}
  | Intel => {| l_model := label labels "gpu.intel.com/product"; l_memory := ""; l_driver := ""; l_family := label labels "gpu.intel.com/family" |}
  end.

Definition vendorNames (vendors : list GPUVendor) : string := join ", " (vendorName <$> vendors).

Definition nodeVendorText (unknown : string) (v : GPUNodeVendor) : string :=
  let named := if nonempty (v_model v) && startsWith (toLowerCase (vendorName (v_vendor v))) (toLowerCase (v_model v)) then v_model v
               else vendorName (v_vendor v) ++ " " ++ (if nonempty (v_model v) then v_model v else unknown) in
  named ++ (if nonempty (v_memory v) then " • " ++ v_memory v else "").

(** The rows of the window of a node; a number that is NaN prints so. *)
Definition countText (n : option (option Z)) : string :=
  match n with None => "" | Some None => "NaN" | Some (Some z) => pretty z end.

Definition nodeGpuRows (labels capacity allocatable : list (string * string)) : list (string * string) :=
  let withGpus := (gpuCountsByVendor capacity).*1 in
  let vendors := filterb (λ v, bool_decide (v ∈ withGpus) || nonempty (l_model (gpuVendorLabels v labels))) GPU_VENDORS in
  let each pick := join ", " (filterb nonempty ((λ v, pick (gpuVendorLabels v labels)) <$> vendors)) in
  let major := label labels "nvidia.com/gpu.compute.major" in
  let minor := label labels "nvidia.com/gpu.compute.minor" in
  filterb (λ r, nonempty r.2)
    [("GPU Vendor", vendorNames vendors); ("GPU Product", each l_model); ("GPU Memory", each l_memory);
     ("GPU Count (Capacity)", countText (gpuCountOf capacity)); ("GPU Count (Allocatable)", countText (gpuCountOf allocatable));
     ("MIG Strategy", label labels "nvidia.com/mig.strategy"); ("CUDA Version", cudaVersion labels); ("Driver Version", each l_driver);
     ("GPU Family", each l_family);
     ("GPU Compute Capability", if nonempty major then major ++ "." ++ (if nonempty minor then minor else "0") else "")].

(** ** Models and nodes *)

Record GPUModelEntry := { count : Z; totalCapacity : Z; totalAllocatable : Z; totalUsed : Z }.
Definition noModel : GPUModelEntry := {| count := 0; totalCapacity := 0; totalAllocatable := 0; totalUsed := 0 |}.
Definition addModel (v : GPUNodeVendor) (e : GPUModelEntry) : GPUModelEntry :=
  {| count := count e + 1; totalCapacity := totalCapacity e + v_capacity v; totalAllocatable := totalAllocatable e + v_allocatable v;
     totalUsed := totalUsed e + v_used v |}.

Definition modelOf (v : GPUNodeVendor) : string := if nonempty (v_model v) then v_model v else "Unknown".

Definition gpuModels (nodes : list GPUNodeInfo) : list (string * GPUModelEntry) :=
  sortBy (λ a b, totalCapacity b.2 - totalCapacity a.2) (tally modelOf noModel addModel (nodes ≫= n_vendors)).

(** The entries by company have the same numbers. *)
Definition gpuVendorCounts (nodes : list GPUNodeInfo) : list (GPUVendor * GPUModelEntry) :=
  inOrder (tally (λ v, vendorName (v_vendor v)) noModel addModel (nodes ≫= n_vendors)).

Definition nodeStatusParts (status : string) : list string := filterb nonempty (trim <$> split "," status).

Inductive NodeReadiness := Ready | NotReady | Unknown.
#[export] Instance NodeReadiness_dec : EqDecision NodeReadiness.
Proof. solve_decision. Defined.

Definition nodeReadiness (status : string) : NodeReadiness :=
  match nodeStatusParts status with
  | first :: _ => if eqs first "Ready" then Ready else if eqs first "NotReady" then NotReady else Unknown
  | [] => Unknown
  end.

Definition nodeCordoned (status : string) : bool := some (eqs "SchedulingDisabled") (nodeStatusParts status).

Definition nodeStatusBadge (part : string) : string :=
  let lower := trim (toLowerCase part) in
  if eqs lower "ready" then "badge-success" else
  if eqs lower "schedulingdisabled" then "badge-warning" else
  if includes "notready" lower || includes "unknown" lower then "badge-error" else
  if includes "ready" lower then "badge-success" else "badge-info".

Record NodeCounts := { nodesTotal : Z; nodesReady : Z; nodesNotReady : Z }.

Definition lengthZ {A} (l : list A) : Z := Z.of_nat (length l).

Definition gpuNodeCounts (nodes : list GPUNodeInfo) : NodeCounts :=
  let ready := lengthZ (filterb (λ n, nodeReadiness (n_status n) === Ready) nodes) in
  {| nodesTotal := lengthZ nodes; nodesReady := ready; nodesNotReady := lengthZ nodes - ready |}.

(** ** Pods *)

Definition statusNamesError (status : string) : bool :=
  some (λ w, includes w (toLowerCase status)) ["error"; "failed"; "backoff"; "errimagepull"; "oomkilled"].

Definition ended (p : GPUPodInfo) : bool := eqs (p_phase p) "Succeeded" || eqs (p_phase p) "Failed".

Definition failing (p : GPUPodInfo) : bool := eqs (p_phase p) "Failed" || statusNamesError (p_status p).

Record PodCards := { c_total : Z; c_running : Z; c_pending : Z; c_failed : Z; c_requested : Z; c_namespaces : Z }.

Definition gpuPodCounts (pods : list GPUPodInfo) : PodCards :=
  let healthy := filterb (λ p, negb (failing p)) pods in
  {| c_total := lengthZ pods;
     c_running := lengthZ (filterb (λ p, eqs (p_phase p) "Running") healthy);
     c_pending := lengthZ (filterb (λ p, eqs (p_phase p) "Pending") healthy);
     c_failed := lengthZ pods - lengthZ healthy;
     c_requested := sumOf p_requested (filterb (λ p, negb (ended p)) pods);
     c_namespaces := lengthZ (foldl (λ s p, setAdd (p_namespace p) s) [] pods) |}.

Definition gpuPodsNotRunning (pods : list GPUPodInfo) : list GPUPodInfo :=
  filterb (λ p, podNotRunning (VObj [("status", VStr (p_status p)); ("phase", VStr (p_phase p))])) pods.

Definition gpuPodStatuses (pods : list GPUPodInfo) : list (string * Z) :=
  sortBy (λ a b, b.2 - a.2) (tally p_status 0 (λ _ n, n + 1) pods).

Definition gpuPodsByNode (pods : list GPUPodInfo) : list (string * (Z * Z)) :=
  sortBy (λ a b, b.2.2 - a.2.2) (tally p_node (0, 0) (λ p e, (e.1 + 1, e.2 + p_requested p)) pods).

Definition gpuPodVendorCounts (pods : list GPUPodInfo) : list (GPUVendor * (Z * Z)) :=
  inOrder (tally (λ x, vendorName x.2.1) (0, 0) (λ x e, (e.1 + 1, e.2 + (if ended x.1 then 0 else x.2.2)))
    (pods ≫= λ p, pair p <$> p_vendors p)).

(** ** What DCGM reports *)

Definition podKey (ns name : string) : string := ns ++ "/" ++ name.

Definition gpuHolderPods (gpu_pods : list GPUPodInfo) (dra_pods : list (string * string)) : list string :=
  foldl (λ s k, setAdd k s) [] (((λ p, podKey (p_namespace p) (p_name p)) <$> gpu_pods) ++ (uncurry podKey <$> dra_pods))%list.

Definition gpuSeriesPod (g : GPUDeviceMetric) (holders : list string) : string :=
  let key := podKey (exported_namespace g) (exported_pod g) in
  if nonempty (exported_pod g) && bool_decide (key ∈ holders) then key else "".

Definition sumQ (l : list Q) : Q := foldl Qplus 0%Q l.

Definition meanOf (values : list (option Q)) : option Q :=
  match omap id values with [] => None | read => Some (sumQ read / inject_Z (lengthZ read))%Q end.

Definition gpuHostAverages (gpus : list GPUDeviceMetric) : option Q * option Q :=
  (meanOf (gpu_util <$> gpus), meanOf (memory_util_percent <$> gpus)).

Definition gpusReportingUtil (gpus : list GPUDeviceMetric) : Z := lengthZ (omap gpu_util gpus).

(** [Math.round]. *)
Definition roundQ (q : Q) : Z := Qfloor (q + (1 # 2))%Q.

Definition gpuPercentText (v : option Q) : string := match v with None => "-" | Some q => pretty (roundQ q) ++ "%" end.

Record Reported := { r_n : Z; r_reporting : Z; r_util : Q; r_used : Q; r_total : Q }.

Definition notReported : Reported := {| r_n := 0; r_reporting := 0; r_util := 0; r_used := 0; r_total := 0 |}.

Definition addReport (g : GPUDeviceMetric) (s : Reported) : Reported :=
  {| r_n := r_n s + 1;
     r_reporting := match gpu_util g with Some _ => r_reporting s + 1 | None => r_reporting s end;
     r_util := match gpu_util g with Some u => r_util s + u | None => r_util s end;
     r_used := match memory_total_mb g with Some _ => r_used s + default 0 (memory_used_mb g) | None => r_used s end;
     r_total := match memory_total_mb g with Some t => r_total s + t | None => r_total s end |}%Q.

Record PodGpuUsage := { u_gpus : Z; u_util : option Q; u_memory : option Q }.

Definition positiveQ (q : Q) : bool := negb (Qle_bool q 0).

Definition usageOf (s : Reported) : PodGpuUsage :=
  {| u_gpus := r_n s; u_util := if 0 <? r_reporting s then Some (r_util s / inject_Z (r_reporting s))%Q else None;
     u_memory := if positiveQ (r_total s) then Some (r_used s / r_total s * 100)%Q else None |}.

Definition podGpuUsage (gpus : list GPUDeviceMetric) : list (string * PodGpuUsage) :=
  (λ e, (e.1, usageOf e.2)) <$>
  tally (λ g, podKey (exported_namespace g) (exported_pod g)) notReported addReport
    (filterb (λ g, nonempty (exported_pod g) && nonempty (exported_namespace g)) gpus).

(** The cards of the whole cluster: no series is nothing read. *)
Definition gpuRealtimeAverages (gpu_count total_memory_mb : Z) (avg_gpu_util avg_memory_util : option Q) : option Q * option Q :=
  (if 0 <? gpu_count then avg_gpu_util else None, if 0 <? total_memory_mb then avg_memory_util else None).

(** ** Device plugins *)

Inductive DevicePluginState := healthy | unhealthy | missing.

Definition devicePluginState (p : option GPUDevicePlugin) : DevicePluginState :=
  match p with
  | Some p => if negb (d_found p) then missing else if default 0 (d_desired p) <=? default 0 (d_ready p) then healthy else unhealthy
  | None => missing
  end.

Record DevicePluginBadge := { b_vendor : option GPUVendor; b_state : DevicePluginState; b_plugin : option GPUDevicePlugin }.

Definition devicePluginBadges (l : list GPUDevicePlugin) : list DevicePluginBadge :=
  match l with
  | [] => [{| b_vendor := None; b_state := missing; b_plugin := None |}]
  | _ => (λ p, {| b_vendor := if Nat.ltb 1 (length l) then Some (d_vendor p) else None; b_state := devicePluginState (Some p); b_plugin := Some p |}) <$> l
  end.

Definition missingPluginVendors (badges : list DevicePluginBadge) : list GPUVendor :=
  omap (λ b, match b_state b, b_plugin b with missing, Some p => Some (d_vendor p) | _, _ => None end) badges.

(** ** The dashboard and the Nodes page *)

Definition gpusByHost (hostname : GPUDeviceMetric → string) (gpus : list GPUDeviceMetric) : list (string * list GPUDeviceMetric) :=
  tally (λ g, if nonempty (hostname g) then hostname g else "Unknown") [] (λ g l, (l ++ [g])%list) gpus.

(** Whole percents; a list refused counts nothing. *)
Definition allocationRate (total_gpu_used total_gpu_allocatable : Z) : Z :=
  if total_gpu_allocatable =? 0 then 0 else roundQ (inject_Z total_gpu_used / inject_Z total_gpu_allocatable * 100).

(** ** Sums by company *)

Lemma inOrder_sum {B} (μ : B → Z) (m : list (string * B)) :
  NoDup m.*1 → (∀ k, k ∈ m.*1 → ∃ v, k = vendorName v) → sumOf (λ e, μ e.2) (inOrder m) = sumOf (λ e, μ e.2) m.
Proof.
  induction m as [|[k x] m IH]; intros Hn Hk; [done|]. cbn [fmap list_fmap fst] in *. apply NoDup_cons in Hn as [Hx Hn].
  cbn [sumOf snd]. rewrite <-IH by (done || by intros k' H'; apply Hk; right). clear IH.
  destruct (Hk k) as [v ->]; [left|]. apply assoc_None in Hx. unfold inOrder, GPU_VENDORS. cbn [omap list_omap assoc].
  destruct v; cbn [vendorName] in *; rewrite Hx; repeat (rewrite ?eqs_refl; rewrite ?(proj2 (eqs_false _ _)) by done);
    cbn [fmap option_fmap option_map]; repeat case_match; cbn; lia.
Qed.

Lemma sumOf_pairs {A B C} (f : B → C → Z) (g : A → list B) (h : A → B → C) l :
  sumOf (λ x, f x.1 x.2) (l ≫= λ a, (λ b, (b, h a b)) <$> g a) = sumOf (λ a, sumOf (λ b, f b (h a b)) (g a)) l.
Proof. rewrite sumOf_bind. apply sumOf_ext. intros a _. by rewrite sumOf_fmap. Qed.

(** Each number of the entries of a tally over the companies of the nodes. *)
Lemma entries_add_up key (μ : GPUModelEntry → Z) (w : GPUNodeVendor → Z) nodes :
  μ noModel = 0 → (∀ v e, μ (addModel v e) = μ e + w v) →
  sumOf (λ e, μ e.2) (tally key noModel addModel (nodes ≫= n_vendors)) = sumOf (λ n, sumOf w (n_vendors n)) nodes.
Proof. intros H0 Ha. rewrite (tally_sum key noModel addModel μ w) by done. apply sumOf_bind. Qed.

Lemma models_sum (μ : GPUModelEntry → Z) (w : GPUNodeVendor → Z) nodes :
  μ noModel = 0 → (∀ v e, μ (addModel v e) = μ e + w v) →
  sumOf (λ e, μ e.2) (gpuModels nodes) = sumOf (λ n, sumOf w (n_vendors n)) nodes.
Proof. intros H0 Ha. unfold gpuModels. rewrite (sumOf_permutation _ _ _ (sortBy_permutation _ _)). by apply entries_add_up. Qed.

Lemma vendors_sum (μ : GPUModelEntry → Z) (w : GPUNodeVendor → Z) nodes :
  μ noModel = 0 → (∀ v e, μ (addModel v e) = μ e + w v) →
  sumOf (λ e, μ e.2) (gpuVendorCounts nodes) = sumOf (λ n, sumOf w (n_vendors n)) nodes.
Proof.
  intros H0 Ha. unfold gpuVendorCounts. rewrite inOrder_sum; [by apply entries_add_up|apply tally_nodup|].
  intros k (v & -> & _)%tally_keys%list_elem_of_fmap. by eexists.
Qed.

(** ** Means *)

Lemma foldl_Qplus l a : (foldl Qplus a l == a + foldl Qplus 0 l)%Q.
Proof.
  revert a. induction l as [|x l IH]; intros a; cbn; [ring|]. rewrite IH, (IH (0 + x)%Q). ring.
Qed.

Definition Within (lo hi q : Q) : Prop := (lo <= q <= hi)%Q.

(** A sum of [n] numbers of a range over [n]. *)
Lemma mean_within lo hi s n : 0 < n → (lo * inject_Z n <= s <= hi * inject_Z n)%Q → Within lo hi (s / inject_Z n).
Proof.
  intros Hn [Hl Hh]. assert (0 < inject_Z n)%Q as Hq by (unfold Qlt; cbn; lia). split.
  - by apply Qle_shift_div_l.
  - by apply Qle_shift_div_r.
Qed.

(** What the reports of a pod's GPUs keep while they are added. *)
Definition InRange (lo hi : Q) (s : Reported) : Prop :=
  0 ≤ r_reporting s ∧ (lo * inject_Z (r_reporting s) <= r_util s <= hi * inject_Z (r_reporting s))%Q ∧ (0 <= r_used s <= r_total s)%Q.

Definition fits (lo hi : Q) (g : GPUDeviceMetric) : Prop :=
  (∀ u, gpu_util g = Some u → Within lo hi u) ∧
  (∀ t, memory_total_mb g = Some t → Within 0 t (default 0 (memory_used_mb g)))%Q.

Lemma fresh_in_range lo hi : InRange lo hi notReported.
Proof. split; [done|]. cbn [r_reporting r_util r_used r_total notReported]. change (inject_Z 0) with 0%Q. split; split; lra. Qed.

Lemma add_in_range lo hi g s : fits lo hi g → InRange lo hi s → InRange lo hi (addReport g s).
Proof.
  intros [Hu Hm] (Hn & [Hs Hs'] & [Ht Ht']). unfold InRange, addReport. cbn [r_reporting r_util r_used r_total]. split_and!.
  - destruct (gpu_util g); lia.
  - destruct (gpu_util g) as [u|]; [|done..]. destruct (Hu u eq_refl). rewrite inject_Z_plus. change (inject_Z 1) with 1%Q. nra.
  - destruct (gpu_util g) as [u|]; [|done..]. destruct (Hu u eq_refl). rewrite inject_Z_plus. change (inject_Z 1) with 1%Q. nra.
  - destruct (memory_total_mb g) as [t|]; [|done..]. destruct (Hm t eq_refl). lra.
  - destruct (memory_total_mb g) as [t|]; [|done..]. destruct (Hm t eq_refl). lra.
Qed.

Lemma reports_in_range lo hi l s : Forall (fits lo hi) l → InRange lo hi s → InRange lo hi (foldl (λ b x, addReport x b) s l).
Proof. intros H. revert s. induction H as [|g l Hg Hl IH]; intros s Hs; [done|]. apply IH. by apply add_in_range. Qed.

Lemma reports_number l s : r_n (foldl (λ b x, addReport x b) s l) = r_n s + lengthZ l.
Proof. revert s. induction l as [|g l IH]; intros s; cbn [foldl]; [unfold lengthZ; cbn; lia|]. rewrite IH. unfold lengthZ. cbn. lia. Qed.

Definition ofPod (k : string) (gpus : list GPUDeviceMetric) : list GPUDeviceMetric :=
  filterb (λ g, eqs k (podKey (exported_namespace g) (exported_pod g))) (filterb (λ g, nonempty (exported_pod g) && nonempty (exported_namespace g)) gpus).

Lemma usage_entry gpus k u :
  (k, u) ∈ podGpuUsage gpus → ofPod k gpus ≠ [] ∧ u = usageOf (foldl (λ b x, addReport x b) notReported (ofPod k gpus)).
Proof.
  intros ([k' s] & [= -> ->] & H)%list_elem_of_fmap. apply elem_assoc in H; [|apply tally_nodup]. rewrite tally_lookup in H.
  unfold ofPod. destruct (filterb _ (filterb _ gpus)); [done|]. by injection H as <-.
Qed.

Lemma used_of_total s : (0 <= r_used s <= r_total s)%Q → (0 < r_total s)%Q → Within 0 100 (r_used s / r_total s * 100).
Proof.
  intros [H0 H1] Ht. assert (0 <= r_used s / r_total s)%Q by (apply Qle_shift_div_l; [done|lra]).
  assert (r_used s / r_total s <= 1)%Q by (apply Qle_shift_div_r; [done|lra]). split; lra.
Qed.

(** ** Keys of pods *)

Lemma elem_setAdds k l s : k ∈ foldl (λ s k, setAdd k s) s l ↔ k ∈ s ∨ k ∈ l.
Proof.
  revert s. induction l as [|x l IH]; intros s; cbn [foldl]; [set_solver|]. rewrite IH, elem_setAdd, elem_of_cons. tauto.
Qed.

Lemma podKey_inj ns n ns' n' : free_of "/" ns → free_of "/" ns' → podKey ns n = podKey ns' n' → ns = ns' ∧ n = n'.
Proof. intros H H'. by apply free_prefix_inj. Qed.

(** ** Properties *)

(** The GPUs of the models, and those of the companies, are the GPUs of the nodes:
    no device is lost or counted twice, whatever the labels say, and the models are
    listed once each with the most GPUs first. *)
Theorem gpus_add_up nodes :
  let over w := sumOf (λ n, sumOf w (n_vendors n)) nodes in
  let models f := sumOf (λ e, f e.2) (gpuModels nodes) in
  let vendors f := sumOf (λ e, f e.2) (gpuVendorCounts nodes) in
  (models totalCapacity = over v_capacity ∧ models totalAllocatable = over v_allocatable ∧ models totalUsed = over v_used) ∧
  (vendors totalCapacity = over v_capacity ∧ vendors totalAllocatable = over v_allocatable ∧ vendors totalUsed = over v_used) ∧
  NoDup (gpuModels nodes).*1 ∧ StronglySorted (λ a b, totalCapacity b.2 ≤ totalCapacity a.2) (gpuModels nodes).
Proof.
  intros over models vendors. split_and!; try by apply models_sum. all: try by apply vendors_sum.
  - unfold gpuModels. rewrite sortBy_permutation. apply tally_nodup.
  - eapply sorted_impl; [|apply sortBy_sorted, (minus_back_consistent (λ e, totalCapacity e.2))]. intros a b H. cbn in H. lia.
Qed.

(** A pod is on one card of the GPU Pods page: the cards and the healthy pods of
    another phase add up to the total, so do the statuses and the nodes of the charts,
    and the GPUs of the chart are those still asked for and those of finished pods. *)
Theorem pod_cards_add_up pods :
  let c := gpuPodCounts pods in
  let others := lengthZ (filterb (λ p, negb (failing p) && negb (eqs (p_phase p) "Running") && negb (eqs (p_phase p) "Pending")) pods) in
  c_running c + c_pending c + c_failed c + others = c_total c ∧
  sumOf snd (gpuPodStatuses pods) = c_total c ∧ sumOf (λ e, e.2.1) (gpuPodsByNode pods) = c_total c ∧
  sumOf (λ e, e.2.2) (gpuPodsByNode pods) = c_requested c + sumOf p_requested (filterb ended pods).
Proof.
  assert (∀ l : list GPUPodInfo, sumOf (λ _, 1) l = lengthZ l) as Hone.
  { unfold lengthZ. induction l as [|p l IH]; [done|]. cbn [sumOf length]. lia. }
  intros c others. cbn [c_running c_pending c_failed c_total c_requested c gpuPodCounts]. split_and!.
  - unfold others, lengthZ. clear. unfold filterb. induction pods as [|p l IH]; [done|]. cbn [List.filter].
    destruct (failing p); cbn [negb andb List.filter length]; [lia|].
    destruct (eqs (p_phase p) "Running") eqn:E1, (eqs (p_phase p) "Pending") eqn:E2; cbn [negb andb length]; [|lia..].
    apply eqs_true in E1, E2. congruence.
  - unfold gpuPodStatuses. rewrite (sumOf_permutation _ _ _ (sortBy_permutation _ _)). rewrite (tally_sum p_status 0 _ id (λ _, 1)) by done. apply Hone.
  - unfold gpuPodsByNode. rewrite (sumOf_permutation _ _ _ (sortBy_permutation _ _)). rewrite (tally_sum p_node (0, 0) _ fst (λ _, 1)) by done. apply Hone.
  - unfold gpuPodsByNode. rewrite (sumOf_permutation _ _ _ (sortBy_permutation _ _)). rewrite (tally_sum p_node (0, 0) _ snd p_requested) by done.
    rewrite !sumOf_filterb. clear. induction pods as [|p l IH]; [done|]. cbn [sumOf]. destruct (ended p); cbn [negb cond]; lia.
Qed.

(** What the GPU Pods page shows of a pod is about its own GPUs: there is one at
    least, its utilization lies between the least and the most its GPUs report, and
    its memory between nothing and all of it. *)
Theorem pod_usage_in_range lo hi gpus k u :
  Forall (fits lo hi) gpus → (k, u) ∈ podGpuUsage gpus →
  u_gpus u = lengthZ (ofPod k gpus) ∧ 1 ≤ u_gpus u ∧
  (∀ q, u_util u = Some q → Within lo hi q) ∧ (∀ q, u_memory u = Some q → Within 0 100 q).
Proof.
  intros Hf [Hne ->]%usage_entry. assert (Forall (fits lo hi) (ofPod k gpus)) as Hk.
  { apply Forall_forall. intros g [[Hg _]%elem_of_filterb _]%elem_of_filterb. by apply (proj1 (Forall_forall _ _) Hf). }
  destruct (reports_in_range lo hi (ofPod k gpus) notReported Hk) as (Hn & Hs & Ht); [apply fresh_in_range|].
  unfold usageOf. cbn [u_gpus u_util u_memory]. rewrite reports_number. split_and!.
  - done.
  - unfold lengthZ. destruct (ofPod k gpus); [done|]. cbn. lia.
  - intros q. case_match eqn:E; [|done]. apply Z.ltb_lt in E. intros [= <-]. by apply mean_within.
  - intros q. case_match eqn:E; [|done]. intros [= <-]. apply used_of_total; [done|]. unfold positiveQ in E.
    apply negb_true_iff in E. apply Qnot_le_lt. intros H%Qle_bool_iff. congruence.
Qed.

(** The pod named beside a GPU is one that holds GPUs: it asks for them or an
    allocated claim is reserved for it, with the namespace and the name of the series.
    A series labelled with the exporter's own pod names none. *)
Theorem series_names_holder g gpu_pods dra_pods :
  free_of "/" (exported_namespace g) →
  Forall (λ p, free_of "/" (p_namespace p)) gpu_pods → Forall (λ p, free_of "/" p.1) dra_pods →
  gpuSeriesPod g (gpuHolderPods gpu_pods dra_pods) ≠ "" →
  (∃ p, p ∈ gpu_pods ∧ p_namespace p = exported_namespace g ∧ p_name p = exported_pod g) ∨ (exported_namespace g, exported_pod g) ∈ dra_pods.
Proof.
  intros Hg Hp Hd. unfold gpuSeriesPod. destruct (nonempty _ && _) eqn:E; [|done]. intros _. apply andb_true_iff in E as [_ H%bool_decide_eq_true].
  unfold gpuHolderPods in H. rewrite elem_setAdds in H. destruct H as [H|H]; [by apply elem_of_nil in H|]. apply elem_of_app in H as [(p & E & H)%list_elem_of_fmap|([ns n] & E & H)%list_elem_of_fmap].
  - left. exists p. split; [done|]. rewrite Forall_forall in Hp. by apply podKey_inj in E as [-> ->]; [|done|apply Hp].
  - right. rewrite Forall_forall in Hd. apply podKey_inj in E as [-> ->]; [done|done|]. by apply (Hd (ns, n)).
Qed.

(** ** Witnesses and examples *)

Definition sampleMetric (u used total : option Q) (ns pod : string) : GPUDeviceMetric :=
  {| gpu_util := u; memory_used_mb := used; memory_total_mb := total; memory_util_percent := None; exported_pod := pod; exported_namespace := ns |}.

Definition sampleMetrics : list GPUDeviceMetric :=
  [sampleMetric (Some 20) (Some 10) (Some 40) "ml" "train"; sampleMetric (Some 60) None None "ml" "train";
   sampleMetric None (Some 5) (Some 40) "ml" "train"; sampleMetric (Some 90) None None "" "exporter"]%Q.

Lemma pod_usage_in_range_witness :
  podGpuUsage sampleMetrics = [("ml/train", {| u_gpus := 3; u_util := Some (80 / 2)%Q; u_memory := Some (15 / 80 * 100)%Q |})] ∧
  Within 20 90 (80 / 2).
Proof.
  split; [by vm_compute|].
  assert (Forall (fits 20 90) sampleMetrics) as Hf.
  { repeat apply Forall_cons_2; [..|by apply Forall_nil_2]; (split; intros q [= <-]; split; by apply Qle_bool_imp_le). }
  apply (pod_usage_in_range 20 90 sampleMetrics "ml/train" {| u_gpus := 3; u_util := Some (80 / 2)%Q; u_memory := Some (15 / 80 * 100)%Q |} Hf); [left|done].
Defined.

Definition samplePod (name phase status : string) (gpus : Z) : GPUPodInfo :=
  {| p_name := name; p_namespace := "ml"; p_node := "n1"; p_requested := gpus; p_vendors := [(NVIDIA, gpus)]; p_status := status; p_phase := phase |}.

Lemma series_names_holder_witness :
  let g := sampleMetric None None None "ml" "train" in
  gpuSeriesPod g (gpuHolderPods [samplePod "train" "Running" "Running" 1] []) = "ml/train" ∧
  gpuSeriesPod (sampleMetric None None None "gpu" "exporter") (gpuHolderPods [samplePod "train" "Running" "Running" 1] []) = "" ∧
  ((∃ p, p ∈ [samplePod "train" "Running" "Running" 1] ∧ p_namespace p = "ml" ∧ p_name p = "train") ∨ ("ml", "train") ∈ @nil (string * string)).
Proof.
  intros g. split; [by vm_compute|]. split; [by vm_compute|].
  apply (series_names_holder g [samplePod "train" "Running" "Running" 1] []); [done|by repeat constructor|constructor|by vm_compute].
Defined.

(** A pod that crashes is on the Failed card whatever its phase; the chart by node
    counts the GPUs of a finished pod too. *)
Example gpu_pods_counted :
  let pods := [samplePod "a" "Running" "Running" 2; samplePod "b" "Running" "CrashLoopBackOff" 1; samplePod "c" "Succeeded" "Completed" 4] in
  gpuPodCounts pods = {| c_total := 3; c_running := 1; c_pending := 0; c_failed := 1; c_requested := 3; c_namespaces := 1 |} ∧
  gpuPodsByNode pods = [("n1", (3, 7))].
Proof. by vm_compute. Qed.

Example node_rows :
  nodeGpuRows [("nvidia.com/gpu.product", "A100"); ("nvidia.com/gpu.memory", "40960"); ("nvidia.com/cuda.driver.major", "535"); ("nvidia.com/cuda.driver.minor", "104")]
    [("nvidia.com/gpu", "4"); ("nvidia.com/mig-1g.5gb", "2"); ("cpu", "8")] [("nvidia.com/gpu", "3")] =
  [("GPU Vendor", "NVIDIA"); ("GPU Product", "A100"); ("GPU Memory", "40960 MiB"); ("GPU Count (Capacity)", "6"); ("GPU Count (Allocatable)", "3");
   ("Driver Version", "535.104")].
Proof. by vm_compute. Qed.

(** A quantity of a thousand is written [1k], which is no number. *)
Example thousand_devices : gpuCountOf [("nvidia.com/gpu", "1k")] = Some None.
Proof. by vm_compute. Qed.
