(* ===== verification/NodeQueries.v ===== *)
(** * The Prometheus queries of a node

    utils/nodeMetrics.ts: the selectors that name a node in the metrics of
    node-exporter and of the OpenTelemetry Collector, and the queries made of them.
    A [matcher] that is the empty text is left out, as in the code. *)

From S2P Require Import Prelude JsString.

#[local] Open Scope string_scope.

Definition dq : ascii := "034".

(** [.*+?^$] and [{}()|[\]\\]: the characters [escapeRegex] puts a backslash before. *)
Definition special (c : ascii) : bool :=
  some (λ d, bool_decide (c = d)) ["."; "*"; "+"; "?"; "^"; "$"; "{"; "}"; "("; ")"; "|"; "["; "]"; "\"]%char.

Fixpoint escapeWith (p : ascii → bool) (s : string) : string :=
  match s with
  | "" => ""
  | String c s' => if p c then String "\" (String c (escapeWith p s')) else String c (escapeWith p s')
  end.

Definition escapeRegex (s : string) : string := escapeWith special s.

(** The two replacements of [promString], the second of which leaves backslashes alone. *)
Definition promString (s : string) : string :=
  String dq (escapeWith (λ c, bool_decide (c = "\"%char) || bool_decide (c = dq)) s ++ String dq "").

(** A host as an instance has it: an IPv6 address in brackets. *)
Definition hostRegex (h : string) : string := if includes ":" h then "\[" ++ escapeRegex h ++ "\]" else escapeRegex h.

Definition hostsOf (name : string) (addresses : list string) : list string :=
  foldl (λ l h, if nonempty h then (if bool_decide (h ∈ l) then l else (l ++ [h])%list) else l) [] (name :: addresses).

Definition nodeInstanceSelector (name : string) (addresses : list string) : string :=
  "instance=~" ++ promString ("(?:" ++ join "|" (hostRegex <$> hostsOf name addresses) ++ ")(?::[0-9]+)?").

Definition nodeNameSelector (name : string) : string := "k8s_node_name=" ++ promString name.

Definition DISK_EXCLUDE : string := promString "(z?ram|loop|fd|(h|s|v|xv)d[a-z]|nvme\d+n\d+p)\d+".

Record Queries := {
  cpu : string; memory : string; disk_read : string; disk_write : string; network_rx : string; network_tx : string; load1 : string; filesystem : string
}.

(** [m]. *)
Definition matchersOf (matchers : list string) : string :=
  match filterb nonempty matchers with [] => "" | set => "{" ++ join "," set ++ "}" end.

Definition eqMatcher (k v : string) : string := k ++ "=" ++ String dq (v ++ String dq "").
Definition neMatcher (k v : string) : string := k ++ "!=" ++ String dq (v ++ String dq "").

Definition nodeExporter (sel : string) : Queries :=
  let m := matchersOf in
  {| cpu := "100 - (avg(rate(node_cpu_seconds_total" ++ m [eqMatcher "mode" "idle"; sel] ++ "[5m])) * 100)";
     memory := "(1 - sum(node_memory_MemAvailable_bytes" ++ m [sel] ++ ") / sum(node_memory_MemTotal_bytes" ++ m [sel] ++ ")) * 100";
     disk_read := "sum(rate(node_disk_read_bytes_total" ++ m [sel] ++ "[5m]))";
     disk_write := "sum(rate(node_disk_written_bytes_total" ++ m [sel] ++ "[5m]))";
     network_rx := "sum(rate(node_network_receive_bytes_total" ++ m [neMatcher "device" "lo"; sel] ++ "[5m]))";
     network_tx := "sum(rate(node_network_transmit_bytes_total" ++ m [neMatcher "device" "lo"; sel] ++ "[5m]))";
     load1 := "max(node_load1" ++ m [sel] ++ ")";
     filesystem := "(1 - sum(node_filesystem_avail_bytes" ++ m [eqMatcher "mountpoint" "/"; sel] ++
                   ") / sum(node_filesystem_size_bytes" ++ m [eqMatcher "mountpoint" "/"; sel] ++ ")) * 100" |}.

Definition one (q : string) : string := "max without (otel_scope_name, otel_scope_version) (" ++ q ++ ")".

Definition hostmetrics (sel : string) : Queries :=
  let m := matchersOf in
  let disk dir := "sum(" ++ one ("rate(system_disk_io_bytes_total" ++ m [eqMatcher "direction" dir; "device!~" ++ DISK_EXCLUDE; sel] ++ "[5m])") ++ ")" in
  let net dir := "sum(" ++ one ("rate(system_network_io_bytes_total" ++ m [eqMatcher "direction" dir; neMatcher "device" "lo"; sel] ++ "[5m])") ++ ")" in
  {| cpu := "100 * (1 - sum(" ++ one ("rate(system_cpu_time_seconds_total" ++ m [eqMatcher "state" "idle"; sel] ++ "[5m])") ++ ") / sum(" ++
            one ("system_cpu_logical_count" ++ m [sel]) ++ "))";
     memory := "100 * sum(" ++ one ("system_memory_usage_bytes" ++ m [eqMatcher "state" "used"; sel]) ++ ") / sum(" ++
               one ("system_memory_limit_bytes" ++ m [sel]) ++ ")";
     disk_read := disk "read"; disk_write := disk "write"; network_rx := net "receive"; network_tx := net "transmit";
     load1 := "max(system_cpu_load_average_1m" ++ m [sel] ++ ")";
     filesystem := "100 * (1 - sum(" ++ one ("system_filesystem_usage_bytes" ++ m [eqMatcher "state" "free"; eqMatcher "mountpoint" "/"; sel]) ++
                   ") / sum(" ++ one ("system_filesystem_usage_bytes" ++ m [eqMatcher "mountpoint" "/"; sel]) ++ "))" |}.

Definition either (a b : Queries) : Queries :=
  let or x y := "(" ++ x ++ ") or (" ++ y ++ ")" in
  {| cpu := or (cpu a) (cpu b); memory := or (memory a) (memory b); disk_read := or (disk_read a) (disk_read b);
     disk_write := or (disk_write a) (disk_write b); network_rx := or (network_rx a) (network_rx b); network_tx := or (network_tx a) (network_tx b);
     load1 := or (load1 a) (load1 b); filesystem := or (filesystem a) (filesystem b) |}.

Definition nodeQueries (name : string) (addresses : list string) : Queries :=
  either (nodeExporter (nodeInstanceSelector name addresses)) (hostmetrics (nodeNameSelector name)).

Definition clusterNodeQueries : string * string * string :=
  let q := either (nodeExporter "") (hostmetrics "") in (cpu q, memory q, filesystem q).

(** ** What Prometheus reads *)

(** A string of PromQL, up to its closing quote. *)
Fixpoint readString (s : string) : option (string * string) :=
  match s with
  | "" => None
  | String "\" (String c s') => if bool_decide (c = "\"%char) || bool_decide (c = dq) then (λ r, (String c r.1, r.2)) <$> readString s' else None
  | String c s' => if bool_decide (c = dq) then Some ("", s') else (λ r, (String c r.1, r.2)) <$> readString s'
  end.

Definition promRead (s : string) : option (string * string) :=
  match s with String c s' => if bool_decide (c = dq) then readString s' else None | "" => None end.

(** The alternatives of a group of plain characters and escaped ones, and what
    follows its end. *)
Fixpoint readAlternatives (s : string) : option (list string * string) :=
  let with_ c r := match r with Some (x :: l, rest) => Some (String c x :: l, rest) | _ => None end in
  match s with
  | "" => None
  | String "\" (String c s') => with_ c (readAlternatives s')
  | String c s' =>
      if bool_decide (c = "|"%char) then (λ r, ("" :: r.1, r.2)) <$> readAlternatives s' else
      if bool_decide (c = ")"%char) then Some ([""], s') else
      if special c then None else with_ c (readAlternatives s')
  end.

(** The instances that a matcher [instance=~...] with such a group takes: one of its
    alternatives, and a port or none. *)
Definition readInstances (matcher : string) : option (list string) :=
  if startsWith "instance=~" matcher then
    match promRead (sdrop 10 matcher) with
    | Some (regex, "") =>
        if startsWith "(?:" regex then
          match readAlternatives (sdrop 3 regex) with
          | Some (l, rest) => if eqs rest "(?::[0-9]+)?" then Some l else None
          | None => None
          end
        else None
    | _ => None
    end
  else None.

Definition takesInstance (hosts : list string) (i : string) : Prop :=
  ∃ h, h ∈ hosts ∧ (i = h ∨ ∃ port, port ≠ "" ∧ sall is_digit port = true ∧ i = h ++ ":" ++ port).

(** How an instance writes a host. *)
Definition written (h : string) : string := if includes ":" h then "[" ++ h ++ "]" else h.

(** ** Reading what was written *)

Definition before (c : ascii) (r : option (list string * string)) : option (list string * string) :=
  match r with Some (x :: l, rest) => Some (String c x :: l, rest) | _ => None end.

Definition prefixed (s : string) (r : option (list string * string)) : option (list string * string) :=
  match r with Some (x :: l, rest) => Some ((s ++ x) :: l, rest) | _ => None end.

Lemma alternatives_escaped c s : readAlternatives (String "\" (String c s)) = before c (readAlternatives s).
Proof. done. Qed.

Lemma alternatives_plain c s : special c = false → readAlternatives (String c s) = before c (readAlternatives s).
Proof. destruct c as [[] [] [] [] [] [] [] []]; intros H; first [discriminate H | reflexivity]. Qed.

Lemma alternatives_bar s : readAlternatives (String "|" s) = (λ r, ("" :: r.1, r.2)) <$> readAlternatives s.
Proof. by destruct s. Qed.

Lemma alternatives_end s : readAlternatives (String ")" s) = Some ([""], s).
Proof. by destruct s. Qed.

Lemma before_prefixed c s r : before c (prefixed s r) = prefixed (String c s) r.
Proof. by destruct r as [[[|x l] rest]|]. Qed.

(** An answer that has an alternative, as every one has. *)
Lemma alternatives_escape s t x l rest :
  readAlternatives t = Some (x :: l, rest) → readAlternatives (escapeRegex s ++ t) = Some ((s ++ x) :: l, rest).
Proof.
  intros E. change (Some ((s ++ x) :: l, rest)) with (prefixed s (Some (x :: l, rest))). rewrite <-E. rewrite E.
  induction s as [|c s IH]; [done|]. rewrite <-before_prefixed, <-IH. unfold escapeRegex. cbn [escapeWith].
  destruct (special c) eqn:Ec; rewrite !app_cons_s; [apply alternatives_escaped|by apply alternatives_plain].
Qed.

Lemma readString_escaped s rest :
  readString (escapeWith (λ c, bool_decide (c = "\"%char) || bool_decide (c = dq)) s ++ String dq rest) = Some (s, rest).
Proof.
  induction s as [|c s IH]; [by destruct rest|]. cbn [escapeWith]. destruct (bool_decide (c = "\"%char) || bool_decide (c = dq)) eqn:E.
  - rewrite !app_cons_s. set (t := escapeWith _ s ++ _) in *. change (readString (String "\" (String c t))) with
      (if bool_decide (c = "\"%char) || bool_decide (c = dq) then (λ r, (String c r.1, r.2)) <$> readString t else None). by rewrite E, IH.
  - rewrite app_cons_s. set (t := escapeWith _ s ++ _) in *.
    assert (readString (String c t) = (λ r, (String c r.1, r.2)) <$> readString t) as ->; [|by rewrite IH].
    clear IH. destruct c as [[] [] [] [] [] [] [] []]; first [discriminate E | reflexivity].
Qed.

Lemma promRead_string s : promRead (promString s) = Some (s, "").
Proof. unfold promRead, promString. rewrite bool_decide_true by done. apply readString_escaped. Qed.

Lemma alternatives_host h t x l rest :
  readAlternatives t = Some (x :: l, rest) → readAlternatives (hostRegex h ++ t) = Some ((written h ++ x) :: l, rest).
Proof.
  intros E. unfold hostRegex, written. destruct (includes ":" h); [|by apply alternatives_escape].
  assert (readAlternatives ("\]" ++ t) = Some (("]" ++ x) :: l, rest)) as E' by (rewrite !app_cons_s, app_nil_l_s, alternatives_escaped, E; done).
  apply (alternatives_escape h) in E'. rewrite !app_assoc_s, !app_cons_s, !app_nil_l_s, alternatives_escaped.
  rewrite !app_cons_s, !app_nil_l_s in E'. by rewrite E'.
Qed.

Lemma alternatives_hosts h hs rest :
  readAlternatives (join "|" (hostRegex <$> h :: hs) ++ String ")" rest) = Some (written <$> h :: hs, rest).
Proof.
  revert h. induction hs as [|h' hs IH]; intros h.
  - cbn [fmap list_fmap join]. rewrite (alternatives_host h _ "" [] rest) by apply alternatives_end. by rewrite app_nil_r_s.
  - change (join "|" (hostRegex <$> h :: h' :: hs)) with (hostRegex h ++ "|" ++ join "|" (hostRegex <$> h' :: hs)).
    rewrite !app_assoc_s. rewrite (alternatives_host h _ "" (written <$> h' :: hs) rest).
    + by rewrite app_nil_r_s.
    + rewrite app_cons_s, app_nil_l_s, alternatives_bar, IH. done.
Qed.

(** ** The hosts of a node *)

Definition addHost (l : list string) (h : string) : list string := if nonempty h then (if bool_decide (h ∈ l) then l else (l ++ [h])%list) else l.

Lemma elem_addHosts l hs h : h ∈ foldl addHost l hs ↔ h ∈ l ∨ h ∈ hs ∧ h ≠ "".
Proof.
  revert l. induction hs as [|x hs IH]; intros l; cbn [foldl]; [set_solver|]. rewrite IH. unfold addHost.
  destruct (nonempty x) eqn:E; [apply nonempty_true in E|unfold nonempty in E; apply negb_false_iff, eqs_true in E as ->].
  - case_bool_decide; rewrite ?elem_of_app, ?list_elem_of_singleton, elem_of_cons; naive_solver.
  - rewrite elem_of_cons. naive_solver.
Qed.

Lemma elem_hostsOf name addresses h : h ∈ hostsOf name addresses ↔ (h = name ∨ h ∈ addresses) ∧ h ≠ "".
Proof. unfold hostsOf. fold addHost. change (h ∈ foldl addHost [] (name :: addresses) ↔ (h = name ∨ h ∈ addresses) ∧ h ≠ ""). rewrite elem_addHosts, elem_of_cons. set_solver. Qed.

Lemma hostsOf_cons name addresses : name ≠ "" → ∃ h hs, hostsOf name addresses = h :: hs.
Proof.
  intros Hn. destruct (hostsOf name addresses) as [|h hs] eqn:E; [|by eexists _, _].
  assert (name ∈ hostsOf name addresses) as H by (apply elem_hostsOf; naive_solver). rewrite E in H. by apply elem_of_nil in H.
Qed.

Lemma includes_free c h : includes (String c "") h = false → free_of c h.
Proof.
  intros H. induction h as [|a h IH]; [done|]. apply free_of_cons. split.
  - intros ->. assert (includes (String c "") (String c h) = true) as E; [|congruence]. apply includes_spec. by exists "", h.
  - apply IH. destruct (includes (String c "") h) eqn:E; [|done]. apply includes_spec in E as (u & v & ->).
    rewrite <-H. symmetry. apply includes_spec. exists (String a u), v. by rewrite app_cons_s.
Qed.

(** The host an instance names is its own: with a port or without one. *)
Definition instanceOf (h i : string) : Prop := i = written h ∨ ∃ port, i = written h ++ ":" ++ port.

Lemma instance_shape h i :
  instanceOf h i → (free_of ":" h ∧ (i = h ∨ ∃ p, i = h ++ String ":" p)) ∨ ∃ t, i = String "[" (h ++ String "]" t).
Proof.
  unfold instanceOf, written. destruct (includes ":" h) eqn:E.
  - intros [->|[p ->]]; right; rewrite ?app_assoc_s, ?app_cons_s, ?app_nil_l_s; by eexists.
  - intros H. left. split; [by apply includes_free|]. destruct H as [->|[p ->]]; [by left|right; by exists p].
Qed.

Lemma not_bracketed h h' i t :
  h ≠ "" → free_of "[" h → (i = h ∨ ∃ p, i = h ++ String ":" p) → i ≠ String "[" (h' ++ String "]" t).
Proof.
  intros Hn Hf H E. destruct h as [|c h]; [done|]. apply free_of_cons in Hf as [Hc _].
  destruct H as [->|[p ->]]; [|rewrite app_cons_s in E]; by injection E.
Qed.

Lemma instances_apart h h' i :
  h ≠ "" → h' ≠ "" → free_of "[" h → free_of "[" h' → free_of "]" h → free_of "]" h' → instanceOf h i → instanceOf h' i → h = h'.
Proof.
  intros Hn Hn' Ho Ho' Hc Hc' [[Hf H]|[t ->]]%instance_shape [[Hf' H']|[t' E]]%instance_shape.
  - assert (∀ a b p, free_of ":" a → a ≠ b ++ String ":" p) as Hno.
    { intros a b p Ha ->. apply free_of_app in Ha as [_ [Ha _]%free_of_cons]. done. }
    destruct H as [->|[p ->]], H' as [E|[p' E]]; [done|by apply Hno in E|by symmetry in E; apply Hno in E|].
    by apply free_prefix_inj in E as [-> _].
  - by eapply not_bracketed in H; [|done..].
  - by exfalso; eapply not_bracketed; [..|exact H'|reflexivity].
  - injection E as E. by apply free_prefix_inj in E as [-> _].
Qed.

(** ** Properties *)

(** The selector of a node names its hosts and nothing else: read by Prometheus,
    its string and its regular expression are the list of the node's name and
    addresses, whatever characters they hold, an IPv6 address in brackets. *)
Theorem selector_names_hosts name addresses :
  name ≠ "" →
  readInstances (nodeInstanceSelector name addresses) = Some (written <$> hostsOf name addresses) ∧
  ∀ h, h ∈ hostsOf name addresses ↔ (h = name ∨ h ∈ addresses) ∧ h ≠ "".
Proof.
  intros Hn. split; [|apply elem_hostsOf]. destruct (hostsOf_cons name addresses Hn) as (h & hs & Eh).
  unfold readInstances, nodeInstanceSelector. rewrite startsWith_app, (sdrop_app "instance=~"), promRead_string, startsWith_app, (sdrop_app "(?:").
  rewrite Eh. change (")(?::[0-9]+)?") with (String ")" "(?::[0-9]+)?"). rewrite alternatives_hosts. by rewrite eqs_refl.
Qed.

(** No instance belongs to two nodes: two nodes that share neither a name nor an
    address never take the series of the same instance, [node-1] not those of
    [node-10] and an address not those of a longer one. *)
Theorem nodes_apart name addresses name' addresses' i :
  let hosts := name :: addresses in
  let hosts' := name' :: addresses' in
  Forall (λ h, free_of "[" h ∧ free_of "]" h) (hosts ++ hosts') → (∀ h, h ∈ hosts → h ∈ hosts' → h = "") →
  takesInstance (written <$> hostsOf name addresses) i → ¬ takesInstance (written <$> hostsOf name' addresses') i.
Proof.
  intros hosts hosts' Hf Hd (w & (h & -> & Hh)%list_elem_of_fmap & Hi) (w' & (h' & -> & Hh')%list_elem_of_fmap & Hi').
  apply elem_hostsOf in Hh as [Hh Hn], Hh' as [Hh' Hn']. rewrite Forall_app in Hf. destruct Hf as [Hf Hf']. rewrite Forall_forall in Hf, Hf'.
  assert (h ∈ hosts) as Hin by (unfold hosts; set_solver). assert (h' ∈ hosts') as Hin' by (unfold hosts'; set_solver).
  destruct (Hf h Hin) as [Ho Hc], (Hf' h' Hin') as [Ho' Hc'].
  assert (h = h') as ->; [|by apply Hn, Hd]. apply (instances_apart h h' i); try done.
  - destruct Hi as [->|(p & _ & _ & ->)]; [by left|right; by exists p].
  - destruct Hi' as [->|(p & _ & _ & ->)]; [by left|right; by exists p].
Qed.

(** ** Witnesses and examples *)

Lemma selector_names_hosts_witness :
  readInstances (nodeInstanceSelector "node-1" ["10.0.0.1"; "fd00::1"; "node-1"]) = Some ["node-1"; "10.0.0.1"; "[fd00::1]"].
Proof. apply (selector_names_hosts "node-1" ["10.0.0.1"; "fd00::1"; "node-1"]). discriminate. Defined.

Lemma nodes_apart_witness :
  takesInstance (written <$> hostsOf "node-1" ["10.0.0.1"]) "10.0.0.1:9100" ∧
  ¬ takesInstance (written <$> hostsOf "node-10" ["10.0.0.11"]) "10.0.0.1:9100".
Proof.
  assert (takesInstance (written <$> hostsOf "node-1" ["10.0.0.1"]) "10.0.0.1:9100") as H.
  { exists "10.0.0.1". split; [right; left|]. right. by exists "9100". }
  split; [done|]. apply (nodes_apart "node-1" ["10.0.0.1"]); [by repeat constructor| |done].
  intros h Hh Hh'. exfalso. rewrite !elem_of_cons, elem_of_nil in Hh, Hh'. naive_solver.
Defined.

Example selector_written : nodeInstanceSelector "n.1" [] = "instance=~" ++ String dq ("(?:n\\.1)(?::[0-9]+)?" ++ String dq "").
Proof. by vm_compute. Qed.

Example load_query :
  load1 (nodeQueries "n" []) =
  "(max(node_load1{instance=~" ++ String dq ("(?:n)(?::[0-9]+)?" ++ String dq "})) or (max(system_cpu_load_average_1m{k8s_node_name=") ++ String dq ("n" ++ String dq "}))").
Proof. by vm_compute. Qed.
