(* ===== verification/Drawer.v ===== *)
(** * Which object the window shows

    components/ResourceDetailProvider.tsx (the window, its history and the address of
    the page), components/detailParam.ts (how the address names an object) and
    resource-detail/crDetail.ts (how a reference picks its window, and which version
    of a custom resource it opens).

    The provider is a state machine: an event is a call with the render after it.
    [location] is the address the router holds, [seen] the one of the last render,
    which [Lands] catches up; react-router renders a new address in a transition,
    after the state of the call.  [history] is a stack.  The kinds are never the
    names of members of [Object.prototype]. *)

From Stdlib Require Import Sorted.
From S2P Require Import Prelude JsString OrderedMap Sorting Json ObjectActions.

#[local] Open Scope string_scope.
#[local] Open Scope Z_scope.

(** [namespace?], [apiVersion?] and [rawJson?]: [None] and [VUndef] where absent. *)
Record ResourceDetailTarget := {
  kind : string; name : string; namespace : option string; apiVersion : option string; rawJson : value
}.

(** ** The address *)

Definition is_alpha (c : ascii) : bool := let n := nat_of_ascii c in (Nat.leb 65 n && Nat.leb n 90) || (Nat.leb 97 n && Nat.leb n 122).

(** [/^[A-Za-z][A-Za-z0-9]*$/]. *)
Definition kindLike (s : string) : bool :=
  match s with String c s' => is_alpha c && sall (λ c, is_alpha c || is_digit c) s' | "" => false end.

Record CustomResource := { cr_kind : string; cr_group : string; cr_version : string; cr_plural : string }.

Definition customResourceOf (t : ResourceDetailTarget) : option CustomResource :=
  if negb (eqs (kind t) "CustomResourceInstance") then None else
  let text k := stringOr (rawJson t .@ k) in
  let k := text "kind" in let g := text "group" in let v := text "version" in
  let plural := match split "." (text "crd_name") with p :: _ => p | [] => "" end in
  if kindLike k && nonempty g && nonempty v && nonempty plural
  then Some {| cr_kind := k; cr_group := g; cr_version := v; cr_plural := plural |} else None.

Definition toParam (t : ResourceDetailTarget) : string :=
  join "/" (filterb nonempty [match customResourceOf t with Some cr => cr_kind cr | None => kind t end; default "" (namespace t); name t]).

Definition apiParam (t : ResourceDetailTarget) : string :=
  match customResourceOf t with
  | Some cr => cr_group cr ++ "/" ++ cr_version cr ++ "/" ++ cr_plural cr
  | None => default "" (apiVersion t)
  end.

Definition keyOf (t : option ResourceDetailTarget) : string :=
  match t with Some t => toParam t ++ "|" ++ apiParam t | None => "|" end.

(** [^([^/]+)\/([^/]+)$] and its like: the parts of a text between slashes, none empty. *)
Definition slashed (s : string) : list string := let ps := split "/" s in if every nonempty ps then ps else [].

(** The empty text stands for [null], which is as falsy. *)
Definition fromParam (value api : string) : option ResourceDetailTarget :=
  let build k ns n :=
    if kindLike k then
      match slashed api with
      | [g; v; plural] =>
          Some {| kind := "CustomResourceInstance"; name := n; namespace := ns; apiVersion := None;
                  rawJson := VObj [("kind", VStr k); ("group", VStr g); ("version", VStr v); ("crd_name", VStr (plural ++ "." ++ g))] |}
      | _ => Some {| kind := k; name := n; namespace := ns; apiVersion := if nonempty api then Some api else None; rawJson := VUndef |}
      end
    else None in
  match slashed value with
  | [k; ns; n] => build k (Some ns) n
  | [k; n] => build k None n
  | _ => None
  end.

(** ** The provider *)

Definition Url : Type := string * string.
Definition urlKey (u : Url) : string := u.1 ++ "|" ++ u.2.
Definition noUrl : Url := ("", "").

Definition urlOf (t : option ResourceDetailTarget) : Url := match t with Some t => (toParam t, apiParam t) | None => noUrl end.

Record Provider := {
  target : option ResourceDetailTarget;
  syncedKey : string;
  pendingKey : option string;
  history : list ResourceDetailTarget;      (* the last pushed first *)
  location : Url;
  seen : Url
}.

(** The body of the component: it compares the address of this render. *)
Definition rendered (s : Provider) : Provider :=
  let key := urlKey (seen s) in
  if eqs key (syncedKey s) then s else
  if bool_decide (pendingKey s = Some key)
  then {| target := target s; syncedKey := key; pendingKey := None; history := history s; location := location s; seen := seen s |} else
  if eqs key (keyOf (target s))
  then {| target := target s; syncedKey := key; pendingKey := pendingKey s; history := history s; location := location s; seen := seen s |}
  else {| target := fromParam (seen s).1 (seen s).2; syncedKey := key; pendingKey := pendingKey s; history := []; location := location s; seen := seen s |}.

Definition show (t : option ResourceDetailTarget) (past : list ResourceDetailTarget) (s : Provider) : Provider :=
  {| target := t; syncedKey := syncedKey s; pendingKey := Some (keyOf t); history := past; location := urlOf t; seen := seen s |}.

Inductive Event :=
  | Opens (t : ResourceDetailTarget)
  | Closes
  | GoesBack
  | Lands                      (* the render of the router's address *)
  | Elsewhere (u : Url).       (* another screen, back or forward, with its render *)

Definition see (u : Url) (s : Provider) : Provider :=
  {| target := target s; syncedKey := syncedKey s; pendingKey := pendingKey s; history := history s; location := u; seen := u |}.

Definition step (s : Provider) (e : Event) : Provider :=
  match e with
  | Opens t => rendered (show (Some t) (match target s with Some old => old :: history s | None => history s end) s)
  | Closes => rendered (show None [] s)
  | GoesBack => rendered (show (head (history s)) (tail (history s)) s)
  | Lands => rendered (see (location s) s)
  | Elsewhere u => rendered (see u s)
  end.

Definition canGoBack (s : Provider) : bool := bool_decide (history s ≠ []).

(** The first render at an address. *)
Definition loaded (u : Url) : Provider :=
  {| target := fromParam u.1 u.2; syncedKey := urlKey u; pendingKey := None; history := []; location := u; seen := u |}.

Definition run (u : Url) (es : list Event) : Provider := foldl step (loaded u) es.

(** ** Which window *)

Definition groupVersion (api : option string) : option (string * string) :=
  match slashed (default "" api) with [g; v] => Some (g, v) | _ => None end.

Definition needsCustomResourceLookup (kind : string) (api : option string) : bool :=
  if eqs kind "CustomResourceInstance" then false else
  match groupVersion api with Some (g, _) => negb (bool_decide (assoc kind DRAWER_GROUPS = Some g)) | None => false end.

Definition orNone (s : option string) : option string := match s with Some s => if nonempty s then Some s else None | None => None end.

Definition detailTarget (kind name : string) (namespace api : option string) (rawJson : value) : ResourceDetailTarget :=
  {| kind := kind; name := name; namespace := orNone namespace;
     apiVersion := match orNone api with Some a => if needsCustomResourceLookup kind (Some a) then Some a else None | None => None end;
     rawJson := rawJson |}.

Record CRDInfo := { crd_name : string; crd_group : string; crd_kind : string; crd_version : string; served_versions : option (list string) }.

Definition servedOf (c : CRDInfo) : list string := default [crd_version c] (served_versions c).

Definition customResourceTarget (t : ResourceDetailTarget) (crds : option (list CRDInfo)) : ResourceDetailTarget :=
  match (if needsCustomResourceLookup (kind t) (apiVersion t) then groupVersion (apiVersion t) else None) with
  | None => t
  | Some (g, v) =>
      match find (λ c, eqs (crd_group c) g && eqs (crd_kind c) (kind t)) (default [] crds) with
      | None => t
      | Some crd =>
          let version := if bool_decide (v ∈ servedOf crd) then v else crd_version crd in
          let fields := match rawJson t with VObj fs => fs | _ => [] end in
          {| kind := "CustomResourceInstance"; name := name t; namespace := namespace t; apiVersion := None;
             rawJson := VObj (setField "crd_name" (VStr (crd_name crd)) (setField "version" (VStr version)
                               (setField "group" (VStr g) (setField "kind" (VStr (kind t)) fields)))) |}
      end
  end.

(** ** Versions *)

(** The digits at the start of a text, and what follows them. *)
Fixpoint digitsOf (s : string) : string * string :=
  match s with
  | String c s' => if is_digit c then let r := digitsOf s' in (String c r.1, r.2) else ("", s)
  | "" => ("", "")
  end.

Record KubeVersion := { v_type : Z; v_major : Z; v_minor : Z }.

Definition numberOf (digits : string) : Z := default 0 (digitsValue 0 digits).

(** [/^v(\d+)(?:(alpha|beta)(\d+))?$/]. *)
Definition parseVersion (s : string) : option KubeVersion :=
  match s with
  | String "v" s' =>
      let '(major, rest) := digitsOf s' in
      if negb (nonempty major) then None else
      if eqs rest "" then Some {| v_type := 2; v_major := numberOf major; v_minor := 0 |} else
      let pre type word :=
        let minor := sdrop (String.length word) rest in
        if startsWith word rest && nonempty minor && sall is_digit minor
        then Some {| v_type := type; v_major := numberOf major; v_minor := numberOf minor |} else None in
      match pre 0 "alpha" with Some v => Some v | None => pre 1 "beta" end
  | _ => None
  end.

(** [x || y] of two numbers. *)
Definition orNumber (x y : Z) : Z := if x =? 0 then y else x.

Definition compareKubeAwareVersions (a b : string) : Z :=
  if eqs a b then 0 else
  match parseVersion a, parseVersion b with
  | Some x, Some y => orNumber (v_type x - v_type y) (orNumber (v_major x - v_major y) (v_minor x - v_minor y))
  | Some _, None => 1
  | None, Some _ => -1
  | None, None => if String.ltb a b then 1 else -1
  end.

Definition referenceNeedsVersion (group kind : string) : bool := nonempty group && negb (bool_decide (assoc kind DRAWER_GROUPS = Some group)).

Definition referenceApiVersion (group kind : string) (crds : option (list CRDInfo)) : option string :=
  if negb (referenceNeedsVersion group kind) then None else
  match crds with
  | None => None
  | Some l =>
      let served := match find (λ c, eqs (crd_group c) group && eqs (crd_kind c) kind) l with Some c => filterb nonempty (servedOf c) | None => [] end in
      match sortBy (λ a b, compareKubeAwareVersions b a) served with v :: _ => Some (group ++ "/" ++ v) | [] => None end
  end.

Definition otherFields (fields : value) : list (string * value) :=
  match fields with
  | VObj fs => sortBy (λ a b, if String.ltb a.1 b.1 then -1 else if String.ltb b.1 a.1 then 1 else 0) fs
  | _ => []
  end.

(** ** Versions in order *)

Lemma ltb_leb a b : String.ltb a b = negb (String.leb b a).
Proof. unfold String.ltb, String.leb. rewrite String.compare_antisym. by destruct (String.compare b a). Qed.

(** What the comparison says, as an order: [None] is below every version. *)
Definition rankLe (x y : KubeVersion) : Prop :=
  v_type x < v_type y ∨ v_type x = v_type y ∧ (v_major x < v_major y ∨ v_major x = v_major y ∧ v_minor x ≤ v_minor y).

Lemma orNumber_le x y : orNumber x y ≤ 0 ↔ x < 0 ∨ x = 0 ∧ y ≤ 0.
Proof. unfold orNumber. destruct (Z.eqb_spec x 0); lia. Qed.

Lemma sgn_orNumber x y : Z.sgn (orNumber x y) = if x =? 0 then Z.sgn y else Z.sgn x.
Proof. unfold orNumber. by destruct (x =? 0). Qed.

Lemma compareVersions_le a b :
  compareKubeAwareVersions a b ≤ 0 ↔
  match parseVersion a, parseVersion b with
  | Some x, Some y => a = b ∨ rankLe x y
  | Some _, None => False
  | None, Some _ => True
  | None, None => unitsLe b a
  end.
Proof.
  unfold compareKubeAwareVersions, unitsLe. destruct (eqs a b) eqn:E.
  - apply eqs_true in E as ->. destruct (parseVersion b); [naive_solver|]. destruct (String.leb_total b b); naive_solver.
  - apply eqs_false in E. destruct (parseVersion a), (parseVersion b); [|lia|lia|].
    + rewrite !orNumber_le. unfold rankLe. split; [intros H; right; lia|intros [H|H]; [done|lia]].
    + rewrite ltb_leb. destruct (String.leb b a) eqn:E'; cbn; [split; [done|lia]|split; [lia|done]].
Qed.

Lemma compareVersions_flip a b : Z.sgn (compareKubeAwareVersions a b) = - Z.sgn (compareKubeAwareVersions b a).
Proof.
  unfold compareKubeAwareVersions. destruct (eqs a b) eqn:E; [apply eqs_true in E as ->; by rewrite eqs_refl|].
  rewrite (proj2 (eqs_false b a)) by (intros ->; by rewrite eqs_refl in E). destruct (parseVersion a), (parseVersion b); [|done|done|].
  - rewrite !sgn_orNumber. repeat match goal with |- context [?x =? 0] => destruct (Z.eqb_spec x 0) end; lia.
  - rewrite !ltb_leb. destruct (String.leb b a) eqn:E1, (String.leb a b) eqn:E2; try done.
    + exfalso. apply eqs_false in E. apply E. by apply String.leb_antisym.
    + by destruct (String.leb_total a b); congruence.
Qed.

Lemma compareVersions_consistent : Consistent (λ a b, compareKubeAwareVersions b a).
Proof.
  split; [intros a b; apply compareVersions_flip|].
  intros a b c. rewrite !compareVersions_le. destruct (parseVersion a) as [x|] eqn:Ea, (parseVersion b) as [y|] eqn:Eb, (parseVersion c) as [z|] eqn:Ec; try tauto.
  - intros H1 H2. destruct H1 as [->|H1]; [assert (x = y) as -> by congruence; done|].
    destruct H2 as [->|H2]; [assert (z = y) as -> by congruence; by right|]. right. unfold rankLe in *. lia.
  - intros H1 H2. by eapply leb_trans.
Qed.

(** ** The window and the address *)

Lemma kindLike_no_slash s : kindLike s = true → free_of "/" s ∧ s ≠ "".
Proof.
  destruct s as [|c s]; [done|]. cbn [kindLike]. intros [Hc Hs]%andb_true_iff. split; [|done]. apply free_of_cons. split.
  - intros ->. by vm_compute in Hc.
  - eapply sall_impl; [|exact Hs]. intros a Ha. apply negb_true_iff, bool_decide_eq_false. intros ->. by vm_compute in Ha.
Qed.

(** A part of an address: not empty, without a slash. *)
Definition isPart (s : string) : Prop := s ≠ "" ∧ free_of "/" s.

Lemma slashed_join l : l ≠ [] → Forall isPart l → slashed (join "/" l) = l.
Proof.
  intros Hl Hp. unfold slashed. assert (Forall (free_of "/") l) as Hf by (eapply Forall_impl; [done|]; by intros s []).
  rewrite (split_join "/" l) by done.
  assert (every nonempty l = true) as ->; [|done]. unfold every. apply forallb_forall. intros s Hs%list_elem_of_In.
  apply nonempty_true. by apply (proj1 (Forall_forall _ _) Hp).
Qed.

(** An object whose address can be read back. *)
Definition Linkable (t : ResourceDetailTarget) : Prop :=
  isPart (name t) ∧ (∀ ns, namespace t = Some ns → isPart ns) ∧
  match customResourceOf t with
  | Some cr => isPart (cr_group cr) ∧ isPart (cr_version cr) ∧ isPart (cr_plural cr)
  | None => kindLike (kind t) = true ∧ ∀ a, apiVersion t = Some a → a ≠ "" ∧ length (slashed a) ≠ 3%nat
  end.

Lemma split_free_head c s : match split c s with p :: _ => free_of c p | [] => True end.
Proof. pose proof (split_pieces_free c s) as H. destruct (split c s); [done|]. by apply Forall_cons in H as [H _]. Qed.

Lemma customResourceOf_some t cr :
  customResourceOf t = Some cr →
  kindLike (cr_kind cr) = true ∧ cr_group cr ≠ "" ∧ cr_version cr ≠ "" ∧ cr_plural cr ≠ "" ∧ free_of "." (cr_plural cr).
Proof.
  unfold customResourceOf. destruct (negb _); [done|]. cbv zeta. destruct (_ && _) eqn:E; [|done]. intros [= <-]. cbn.
  rewrite !andb_true_iff, !nonempty_true in E. destruct E as [[[? ?] ?] ?]. split_and!; try done.
  pose proof (split_free_head "." (stringOr (rawJson t .@ "crd_name"))) as Hd. by destruct (split _ _).
Qed.

Lemma customResource_reopened k g v p ns n :
  kindLike k = true → g ≠ "" → v ≠ "" → p ≠ "" → free_of "." p →
  customResourceOf {| kind := "CustomResourceInstance"; name := n; namespace := ns; apiVersion := None;
                      rawJson := VObj [("kind", VStr k); ("group", VStr g); ("version", VStr v); ("crd_name", VStr (p ++ "." ++ g))] |} =
  Some {| cr_kind := k; cr_group := g; cr_version := v; cr_plural := p |}.
Proof.
  intros Hk Hg Hv Hp Hd. pose (pl := match split "." (p +:+ String "." g) with q :: _ => q | [] => "" end).
  transitivity (if kindLike k && nonempty g && nonempty v && nonempty pl
                then Some {| cr_kind := k; cr_group := g; cr_version := v; cr_plural := pl |} else None); [reflexivity|].
  assert (pl = p) as -> by (unfold pl; by rewrite (split_app "." p g Hd)). rewrite Hk. by rewrite !(proj2 (nonempty_true _)) by done.
Qed.

Lemma filter_parts l : Forall isPart l → filterb nonempty l = l.
Proof.
  induction 1 as [|s l [Hs _] Hl IH]; [done|]. unfold filterb in *. cbn [List.filter]. by rewrite (proj2 (nonempty_true s) Hs), IH.
Qed.

Lemma toParam_slashed t k :
  isPart (name t) → (∀ ns, namespace t = Some ns → isPart ns) → isPart k →
  slashed (join "/" (filterb nonempty [k; default "" (namespace t); name t])) =
  match namespace t with Some ns => [k; ns; name t] | None => [k; name t] end.
Proof.
  intros Hn Hns Hk. destruct (namespace t) as [ns|]; cbn [default].
  - assert (Forall isPart [k; ns; name t]) by (repeat apply Forall_cons_2; [done|by apply Hns|done|by apply Forall_nil_2]).
    rewrite filter_parts by done. by apply slashed_join.
  - change (filterb nonempty [k; ""; name t]) with (filterb nonempty [k; name t]).
    assert (Forall isPart [k; name t]) by (repeat apply Forall_cons_2; [done|done|by apply Forall_nil_2]).
    rewrite filter_parts by done. by apply slashed_join.
Qed.

Lemma kindLike_part k : kindLike k = true → isPart k.
Proof. intros [H1 H2]%kindLike_no_slash. by split. Qed.

(** A custom resource as its address names it, and another object. *)
Definition reopenedCustom (t : ResourceDetailTarget) (cr : CustomResource) : ResourceDetailTarget :=
  {| kind := "CustomResourceInstance"; name := name t; namespace := namespace t; apiVersion := None;
     rawJson := VObj [("kind", VStr (cr_kind cr)); ("group", VStr (cr_group cr)); ("version", VStr (cr_version cr));
                      ("crd_name", VStr (cr_plural cr ++ "." ++ cr_group cr))] |}.
Definition reopened (t : ResourceDetailTarget) : ResourceDetailTarget :=
  {| kind := kind t; name := name t; namespace := namespace t; apiVersion := apiVersion t; rawJson := VUndef |}.

Lemma custom_address t cr :
  isPart (name t) → (∀ ns, namespace t = Some ns → isPart ns) → customResourceOf t = Some cr →
  isPart (cr_group cr) ∧ isPart (cr_version cr) ∧ isPart (cr_plural cr) → fromParam (toParam t) (apiParam t) = Some (reopenedCustom t cr).
Proof.
  intros Hn Hns Ecr (Pg & Pv & Pp). destruct (customResourceOf_some t cr Ecr) as (Hk & _).
  assert (slashed (apiParam t) = [cr_group cr; cr_version cr; cr_plural cr]) as Ha.
  { unfold apiParam. rewrite Ecr. apply (slashed_join [cr_group cr; cr_version cr; cr_plural cr]); [done|]. repeat apply Forall_cons_2; done || by apply Forall_nil_2. }
  unfold fromParam, toParam. rewrite Ecr, (toParam_slashed t (cr_kind cr) Hn Hns (kindLike_part _ Hk)). unfold reopenedCustom.
  destruct (namespace t); cbv zeta beta; by rewrite Hk, Ha.
Qed.

Lemma plain_address t :
  isPart (name t) → (∀ ns, namespace t = Some ns → isPart ns) → customResourceOf t = None →
  kindLike (kind t) = true ∧ (∀ a, apiVersion t = Some a → a ≠ "" ∧ length (slashed a) ≠ 3%nat) → fromParam (toParam t) (apiParam t) = Some (reopened t).
Proof.
  intros Hn Hns Ecr [Hk Ha].
  assert ((if nonempty (apiParam t) then Some (apiParam t) else None) = apiVersion t ∧ length (slashed (apiParam t)) ≠ 3%nat) as [Eapi Hlen].
  { unfold apiParam. rewrite Ecr. destruct (apiVersion t) as [a|]; [|done]. destruct (Ha a eq_refl) as [Hne H3].
    cbn. by rewrite (proj2 (nonempty_true a) Hne). }
  unfold fromParam, toParam. rewrite Ecr, (toParam_slashed t (kind t) Hn Hns (kindLike_part _ Hk)). unfold reopened.
  destruct (namespace t); cbv zeta beta; rewrite Hk, Eapi; by destruct (slashed (apiParam t)) as [|a [|b [|c [|]]]].
Qed.

(** ** The states *)

(** After every render. *)
Definition Synced (s : Provider) : Prop := syncedKey s = urlKey (seen s).

Lemma rendered_synced s : Synced (rendered s).
Proof. unfold rendered, Synced. destruct (eqs _ _) eqn:E; [by apply eqs_true in E|]. by repeat case_match. Qed.

Lemma run_synced u es : Synced (run u es).
Proof.
  unfold run. assert (Synced (loaded u)) as H by done. revert H. generalize (loaded u).
  induction es as [|e es IH]; intros s H; [done|]. apply IH. destruct e; apply rendered_synced.
Qed.

Lemma shown_render s t past : Synced s → rendered (show t past s) = show t past s.
Proof. unfold Synced, rendered. cbn [seen syncedKey show]. intros ->. by rewrite eqs_refl. Qed.

Lemma step_opens s t : Synced s → step s (Opens t) = show (Some t) (match target s with Some old => old :: history s | None => history s end) s.
Proof. intros H. cbn [step]. by apply shown_render. Qed.
Lemma step_closes s : Synced s → step s Closes = show None [] s.
Proof. intros H. cbn [step]. by apply shown_render. Qed.
Lemma step_back s : Synced s → step s GoesBack = show (head (history s)) (tail (history s)) s.
Proof. intros H. cbn [step]. by apply shown_render. Qed.

Lemma key_of_url t : urlKey (urlOf t) = keyOf t.
Proof. by destruct t. Qed.

(** What was asked for stays through the renders of its address. *)
Definition Asked (t : option ResourceDetailTarget) (s : Provider) : Prop :=
  target s = t ∧ location s = urlOf t ∧ Synced s ∧
  (pendingKey s = Some (keyOf t) ∨ urlKey (seen s) = keyOf t).

Lemma asked_lands t s : Asked t s → Asked t (step s Lands).
Proof.
  intros (Ht & Hl & Hs & Hp). cbn [step]. unfold rendered. cbn [seen see syncedKey pendingKey target]. rewrite Hl, key_of_url.
  destruct (eqs (keyOf t) (syncedKey s)) eqn:E.
  - apply eqs_true in E. split_and!; try done; cbn; [unfold Synced; cbn; by rewrite key_of_url|by rewrite key_of_url; right].
  - case_bool_decide as Hk; [|rewrite Ht, eqs_refl]; (split_and!; try done; cbn; [unfold Synced; cbn; by rewrite key_of_url|by rewrite key_of_url; right]).
Qed.

Lemma asked_show t past s : Synced s → Asked t (show t past s).
Proof. intros H. split_and!; try done. by left. Qed.

Lemma asked_renders t s n : Asked t s → Asked t (foldl step s (repeat Lands n)).
Proof. revert s. induction n as [|n IH]; intros s H; [done|]. cbn. apply IH. by apply asked_lands. Qed.

(** An address on screen names what is shown. *)
Definition Names (u : Url) (t : option ResourceDetailTarget) : Prop :=
  keyOf t = urlKey u ∨ ∃ u', urlKey u' = urlKey u ∧ t = fromParam u'.1 u'.2.

(** What is asked for is not what the address on screen names already; another screen
    is opened once the address has landed. *)
Definition asksNew (s : Provider) (e : Event) : Prop :=
  match e with
  | Opens t => keyOf (Some t) ≠ urlKey (seen s)
  | Closes => keyOf None ≠ urlKey (seen s)
  | GoesBack => keyOf (head (history s)) ≠ urlKey (seen s)
  | Lands => True
  | Elsewhere _ => pendingKey s = None
  end.

Fixpoint Calm (s : Provider) (es : list Event) : Prop :=
  match es with [] => True | e :: es => asksNew s e ∧ Calm (step s e) es end.

Definition Agrees (s : Provider) : Prop :=
  Synced s ∧ match pendingKey s with
             | None => location s = seen s ∧ Names (seen s) (target s)
             | Some k => keyOf (target s) = k ∧ urlKey (location s) = k ∧ k ≠ urlKey (seen s)
             end.

Lemma agrees_show t past s : Synced s → keyOf t ≠ urlKey (seen s) → Agrees (show t past s).
Proof. intros Hs Hk. split; [done|]. cbn. by rewrite key_of_url. Qed.

Lemma names_same u u' t : urlKey u = urlKey u' → Names u t → Names u' t.
Proof. unfold Names. intros ->. done. Qed.

Lemma agrees_sees u s :
  Synced s → pendingKey s = None → Names (seen s) (target s) → Agrees (rendered (see u s)).
Proof.
  intros Hs Hp Hn. split; [apply rendered_synced|]. unfold rendered. cbn [see seen syncedKey pendingKey target]. unfold Synced in Hs. rewrite Hs, Hp.
  destruct (eqs (urlKey u) (urlKey (seen s))) eqn:E; cbn [pendingKey location seen target see].
  - rewrite Hp. split; [done|]. apply eqs_true in E. by eapply names_same.
  - rewrite bool_decide_false by done. destruct (eqs (urlKey u) (keyOf (target s))) eqn:E2; cbn; (split; [done|]).
    + apply eqs_true in E2. left. by symmetry.
    + right. by exists u.
Qed.

Lemma agrees_step s e : Agrees s → asksNew s e → Agrees (step s e).
Proof.
  intros [Hs H] Ha. destruct e as [t| | | |u]; cbn [asksNew] in Ha.
  - rewrite step_opens by done. by apply agrees_show.
  - rewrite step_closes by done. by apply agrees_show.
  - rewrite step_back by done. by apply agrees_show.
  - cbn [step]. destruct (pendingKey s) as [k|] eqn:Ek.
    + destruct H as (Ht & Hl & Hne). split; [apply rendered_synced|]. unfold rendered. cbn [see seen syncedKey pendingKey target]. unfold Synced in Hs.
      rewrite Hs, Hl, Ek, (proj2 (eqs_false _ _) Hne), bool_decide_true by done. cbn. split; [done|]. left. congruence.
    + destruct H as [-> Hn]. by apply agrees_sees.
  - rewrite Ha in H. destruct H as [_ Hn]. by apply agrees_sees.
Qed.

Lemma calm_agrees s es : Agrees s → Calm s es → Agrees (foldl step s es).
Proof. revert s. induction es as [|e es IH]; intros s H; [done|]. intros [Ha Hc]. apply IH; [by apply agrees_step|done]. Qed.

(** ** Properties *)

(** What is asked for stays on screen while its address is on the way: however many
    renders the address takes, an object that was opened is shown, a window that was
    closed does not come back, and the history is what the call left. *)
Theorem asked_stays_shown u es n :
  let s := run u es in
  let renders s := foldl step s (repeat Lands n) in
  (∀ t, target (renders (step s (Opens t))) = Some t) ∧ target (renders (step s Closes)) = None ∧
  target (renders (step s GoesBack)) = head (history s).
Proof.
  intros s renders. assert (Synced s) as Hs by apply run_synced.
  split_and!; [intros t; rewrite (step_opens s t Hs)|rewrite (step_closes s Hs)|rewrite (step_back s Hs)];
    (apply asked_renders; by apply asked_show).
Qed.

(** C16. The window and the address agree: when each call asks for something the address
    on screen does not name, and other screens are opened once the address has landed,
    then as soon as it has landed the window shows the object it names. *)
Theorem window_follows_address u es :
  Calm (loaded u) es →
  let s := step (run u es) Lands in seen s = location s ∧ Names (location s) (target s).
Proof.
  intros Hc s. assert (Agrees (loaded u)) as H0. { split; [done|]. split; [done|]. right. by exists u. }
  pose proof (calm_agrees _ _ H0 Hc) as H. fold (run u es) in H. assert (Agrees s) as [Hs Ha] by by apply agrees_step.
  destruct (pendingKey s) as [k|] eqn:Ek; [|destruct Ha as [El Hn]; rewrite El; done].
  exfalso. destruct H as [Hs0 H]. unfold s in Ek. cbn [step] in Ek. unfold rendered in Ek. cbn [see seen syncedKey pendingKey target] in Ek.
  unfold Synced in Hs0. rewrite Hs0 in Ek. destruct (pendingKey (run u es)) as [k0|] eqn:Ek0.
  - destruct H as (_ & Hl & Hne). rewrite Hl, (proj2 (eqs_false _ _) Hne), bool_decide_true in Ek by done. done.
  - destruct H as [Hl _]. rewrite Hl, eqs_refl in Ek. cbn in Ek. congruence.
Qed.

(** The window's own Back undoes what was opened from it: after any objects opened
    one from the other, as many steps back show the first again, with its history. *)
Theorem back_undoes_open u es ts :
  is_Some (target (run u es)) →
  let s := foldl step (run u es) ((Opens <$> ts) ++ repeat GoesBack (length ts))%list in
  target s = target (run u es) ∧ history s = history (run u es).
Proof.
  assert (∀ s, Synced s → is_Some (target s) →
    let s' := foldl step s ((Opens <$> ts) ++ repeat GoesBack (length ts))%list in
    target s' = target s ∧ history s' = history s ∧ Synced s') as H.
  { induction ts as [|t ts IH]; intros s Hs Ht; [done|]. destruct Ht as [old Ht].
    change (length (t :: ts)) with (S (length ts)). rewrite <-(Nat.add_1_r (length ts)), repeat_app. cbn [fmap list_fmap app foldl]. rewrite app_assoc, foldl_app.
    assert (Synced (step s (Opens t))) as Hs1 by apply rendered_synced.
    destruct (IH (step s (Opens t)) Hs1) as (Et & Eh & Es). { rewrite step_opens by done. by eexists. }
    set (s1 := foldl step (step s (Opens t)) _) in *. cbn [repeat foldl]. rewrite (step_back s1 Es). cbn [target history show].
    rewrite Eh, (step_opens s t Hs). cbn [history show]. rewrite Ht. split_and!; [done|done|]. exact Es. }
  intros Ht. destruct (H _ (run_synced u es) Ht) as (H1 & H2 & _). done.
Qed.

(** Asking for the object already on screen leaves its address pending although
    nothing will land: after another screen, going back to the address of the object
    finds it pending, and the window stays closed. *)
Theorem reopened_misses_back u es t u' :
  let s := run u es in
  target s = Some t → seen s = urlOf (Some t) → fromParam u'.1 u'.2 = None → urlKey u' ≠ keyOf (Some t) →
  let s' := foldl step s [Opens t; Elsewhere u'; Elsewhere (urlOf (Some t))] in
  location s' = urlOf (Some t) ∧ seen s' = location s' ∧ target s' = None.
Proof.
  intros s Ht Hseen Hno Hne s'. assert (Synced s) as Hs by apply run_synced. unfold s'. cbn [foldl]. rewrite (step_opens s t Hs), Ht.
  unfold Synced in Hs. rewrite Hseen, key_of_url in Hs.
  assert (step (show (Some t) (t :: history s) s) (Elsewhere u') =
          {| target := None; syncedKey := urlKey u'; pendingKey := Some (keyOf (Some t)); history := []; location := u'; seen := u' |}) as ->.
  { cbn [step]. unfold rendered. cbn [see show seen syncedKey pendingKey target location]. rewrite Hs, (proj2 (eqs_false _ _) Hne), bool_decide_false by congruence.
    by rewrite Hno. }
  cbn [step]. unfold rendered. cbn [see seen syncedKey pendingKey target location]. rewrite key_of_url.
  rewrite (proj2 (eqs_false (keyOf (Some t)) (urlKey u'))) by congruence. by rewrite bool_decide_true.
Qed.

(** C24. A link opens the object it was made from: the window's address, read back, is an
    object of the same name and namespace with the same address, a custom resource by
    the group, version and plural that serve it. *)
Theorem link_reopens t :
  Linkable t →
  ∃ t', fromParam (urlOf (Some t)).1 (urlOf (Some t)).2 = Some t' ∧ urlOf (Some t') = urlOf (Some t) ∧ name t' = name t ∧ namespace t' = namespace t ∧
        customResourceOf t' = customResourceOf t ∧ (customResourceOf t = None → kind t' = kind t ∧ apiVersion t' = apiVersion t).
Proof.
  intros (Hn & Hns & Hl). unfold urlOf. cbn [fst snd]. destruct (customResourceOf t) as [cr|] eqn:Ecr.
  - destruct (customResourceOf_some t cr Ecr) as (Hk & Hg & Hv & Hp & Hd).
    rewrite (custom_address t cr Hn Hns Ecr Hl). eexists. split; [done|].
    assert (customResourceOf (reopenedCustom t cr) = Some cr) as Er by (unfold reopenedCustom; rewrite customResource_reopened by done; by destruct cr).
    unfold toParam, apiParam. by rewrite Er, Ecr.
  - rewrite (plain_address t Hn Hns Ecr Hl). eexists. split; [done|].
    assert (customResourceOf (reopened t) = None) as Ecr' by (unfold customResourceOf; cbn [kind rawJson reopened]; by destruct (negb _)).
    unfold toParam, apiParam. by rewrite Ecr, Ecr'.
Qed.

Lemma set_get_eq k v fs : VObj (setField k v fs) .@ k = v.
Proof. apply (get_setField_eq k v (VObj fs)). Qed.

Lemma set_get_ne k k' v fs : k ≠ k' → VObj (setField k v fs) .@ k' = VObj fs .@ k'.
Proof. apply get_setField_ne. Qed.

(** The window of a reference with an apiVersion of another group: the custom
    resource whose definition serves that group and kind, at the version asked for where
    it is served and else at the one of the definition; any other object is left as it
    was named. *)
Theorem reference_opens_own_group t crds g v :
  kind t ≠ "CustomResourceInstance" → groupVersion (apiVersion t) = Some (g, v) → assoc (kind t) DRAWER_GROUPS ≠ Some g →
  let t' := customResourceTarget t (Some crds) in
  name t' = name t ∧ namespace t' = namespace t ∧
  ((∃ crd, crd ∈ crds ∧ crd_group crd = g ∧ crd_kind crd = kind t ∧ kind t' = "CustomResourceInstance" ∧
      rawJson t' .@ "group" = VStr g ∧ rawJson t' .@ "kind" = VStr (kind t) ∧ rawJson t' .@ "crd_name" = VStr (crd_name crd) ∧
      rawJson t' .@ "version" = VStr (if bool_decide (v ∈ servedOf crd) then v else crd_version crd)) ∨
   (t' = t ∧ ∀ crd, crd ∈ crds → crd_group crd = g → crd_kind crd ≠ kind t)).
Proof.
  intros Hk Hg Hd t'. unfold t', customResourceTarget, needsCustomResourceLookup. rewrite (proj2 (eqs_false _ _) Hk), Hg, bool_decide_false by done.
  cbn [negb default id from_option]. destruct (find (λ c, eqs (crd_group c) g && eqs (crd_kind c) (kind t)) crds) as [crd|] eqn:Ef.
  - apply find_Some in Ef as [Hin [Eg%eqs_true Ek%eqs_true]%andb_true_iff]. split_and!; [done..|]. left. exists crd. cbn [kind rawJson].
    split_and!; try done; by repeat first [rewrite set_get_eq | rewrite set_get_ne by done].
  - split_and!; [done..|]. right. split; [done|]. intros crd Hin Eg Ek. apply find_None in Ef. rewrite Forall_forall in Ef.
    specialize (Ef crd Hin). cbn in Ef. by rewrite (proj2 (eqs_true _ _) Eg), (proj2 (eqs_true _ _) Ek) in Ef.
Qed.

(** A reference without a version opens the first of the versions served, as
    Kubernetes orders them: released before beta before alpha, then the greater number. *)
Theorem reference_opens_first_version group kind crds api :
  referenceApiVersion group kind (Some crds) = Some api →
  ∃ crd v, crd ∈ crds ∧ crd_group crd = group ∧ crd_kind crd = kind ∧ v ∈ servedOf crd ∧ v ≠ "" ∧ api = group ++ "/" ++ v ∧
           ∀ w, w ∈ servedOf crd → w ≠ "" → 0 ≤ compareKubeAwareVersions v w.
Proof.
  unfold referenceApiVersion. destruct (negb _); [done|]. destruct (find (λ c, eqs (crd_group c) group && eqs (crd_kind c) kind) crds) as [crd|] eqn:Ef; [|done].
  apply find_Some in Ef as [Hin [Eg%eqs_true Ek%eqs_true]%andb_true_iff]. destruct (sortBy _ _) as [|v l] eqn:Es; [done|]. intros [= <-].
  pose proof (sortBy_permutation (λ a b, compareKubeAwareVersions b a) (filterb nonempty (servedOf crd))) as Hp. rewrite Es in Hp.
  pose proof (sortBy_sorted (λ a b, compareKubeAwareVersions b a) compareVersions_consistent (filterb nonempty (servedOf crd))) as Hs. rewrite Es in Hs.
  assert (v ∈ filterb nonempty (servedOf crd)) as [Hv Hne]%elem_of_filterb by (rewrite <-Hp; left).
  exists crd, v. split_and!; try done; [by apply nonempty_true|]. intros w Hw Hnw.
  assert (w ∈ v :: l) as [->|Hl]%elem_of_cons by (rewrite Hp; apply elem_of_filterb; split; [done|]; by apply nonempty_true).
  - unfold compareKubeAwareVersions. by rewrite eqs_refl.
  - apply StronglySorted_inv in Hs as [_ Hf]. rewrite Forall_forall in Hf. specialize (Hf w Hl). cbn in Hf.
    pose proof (compareVersions_flip v w). destruct (compareKubeAwareVersions v w), (compareKubeAwareVersions w v); cbn in *; lia.
Qed.

(** ** Witnesses and examples *)

Definition samplePod : ResourceDetailTarget :=
  {| kind := "Pod"; name := "coredns-1"; namespace := Some "kube-system"; apiVersion := None; rawJson := VUndef |}.
Definition sampleNode : ResourceDetailTarget := {| kind := "Node"; name := "n1"; namespace := None; apiVersion := None; rawJson := VUndef |}.
Definition sampleWidget : ResourceDetailTarget :=
  {| kind := "CustomResourceInstance"; name := "w1"; namespace := Some "web"; apiVersion := None;
     rawJson := VObj [("kind", VStr "Widget"); ("group", VStr "numbers.io"); ("version", VStr "v1"); ("crd_name", VStr "widgets.numbers.io"); ("scope", VStr "Namespaced")] |}.

Lemma window_follows_address_witness :
  let es := [Opens samplePod; Opens sampleNode; Lands; GoesBack; Lands; Elsewhere ("Node/n2", "")] in
  let s := step (run noUrl es) Lands in
  (seen s = location s ∧ Names (location s) (target s)) ∧ location s = ("Node/n2", "").
Proof.
  intros es s. split; [|by vm_compute]. apply (window_follows_address noUrl es). repeat split; by vm_compute.
Defined.

Lemma back_undoes_open_witness :
  let s := run ("Pod/kube-system/coredns-1", "") [] in
  let s' := foldl step s ((Opens <$> [sampleNode; sampleWidget]) ++ repeat GoesBack 2)%list in
  target s' = Some samplePod ∧ history s' = [].
Proof. apply (back_undoes_open ("Pod/kube-system/coredns-1", "") [] [sampleNode; sampleWidget]). by eexists. Defined.

(** A Pod opened, asked for again, then another page and back. *)
Lemma reopened_misses_back_witness :
  let s' := run noUrl [Opens samplePod; Lands; Opens samplePod; Elsewhere noUrl; Elsewhere ("Pod/kube-system/coredns-1", "")] in
  location s' = ("Pod/kube-system/coredns-1", "") ∧ seen s' = location s' ∧ target s' = None.
Proof. apply (reopened_misses_back noUrl [Opens samplePod; Lands] samplePod noUrl); by vm_compute. Defined.

Lemma link_reopens_witness :
  urlOf (Some sampleWidget) = ("Widget/web/w1", "numbers.io/v1/widgets") ∧
  ∃ t', fromParam "Widget/web/w1" "numbers.io/v1/widgets" = Some t' ∧ urlOf (Some t') = urlOf (Some sampleWidget) ∧ name t' = "w1" ∧ namespace t' = Some "web" ∧
        customResourceOf t' = customResourceOf sampleWidget ∧ (customResourceOf sampleWidget = None → kind t' = kind sampleWidget ∧ apiVersion t' = None).
Proof.
  split; [by vm_compute|]. apply (link_reopens sampleWidget). split; [done|]. split; [by intros ns [= <-]|]. vm_compute. by repeat split.
Defined.

Definition sampleCrd : CRDInfo :=
  {| crd_name := "widgets.numbers.io"; crd_group := "numbers.io"; crd_kind := "Widget"; crd_version := "v1";
     served_versions := Some ["v1beta2"; "v1"; "v1alpha9"; "v2alpha1"] |}.

Lemma reference_opens_own_group_witness :
  let t := {| kind := "Widget"; name := "w1"; namespace := Some "web"; apiVersion := Some "numbers.io/v1beta2"; rawJson := VUndef |} in
  let t' := customResourceTarget t (Some [sampleCrd]) in
  apiParam t' = "numbers.io/v1beta2/widgets" ∧ name t' = "w1" ∧ namespace t' = Some "web".
Proof.
  intros t t'. split; [by vm_compute|].
  destruct (reference_opens_own_group t [sampleCrd] "numbers.io" "v1beta2") as (H1 & H2 & _); [done|done|done|]. by split.
Defined.

Lemma reference_opens_first_version_witness :
  referenceApiVersion "numbers.io" "Widget" (Some [sampleCrd]) = Some "numbers.io/v1" ∧
  ∃ crd v, crd ∈ [sampleCrd] ∧ crd_group crd = "numbers.io" ∧ crd_kind crd = "Widget" ∧ v ∈ servedOf crd ∧ v ≠ "" ∧ "numbers.io/v1" = "numbers.io" ++ "/" ++ v ∧
           ∀ w, w ∈ servedOf crd → w ≠ "" → 0 ≤ compareKubeAwareVersions v w.
Proof.
  assert (referenceApiVersion "numbers.io" "Widget" (Some [sampleCrd]) = Some "numbers.io/v1") as H by by vm_compute.
  split; [done|]. exact (reference_opens_first_version "numbers.io" "Widget" [sampleCrd] "numbers.io/v1" H).
Defined.

(** An object of the Kind's own group keeps the short link; another group's does not. *)
Example short_link :
  apiVersion (detailTarget "Pod" "p" (Some "ns") (Some "v1") VUndef) = None ∧
  apiVersion (detailTarget "Deployment" "d" (Some "ns") (Some "apps/v1") VUndef) = None ∧
  apiVersion (detailTarget "Service" "s" (Some "ns") (Some "serving.knative.dev/v1") VUndef) = Some "serving.knative.dev/v1".
Proof. by vm_compute. Qed.
