(* ===== verification/Alerts.v ===== *)
(** * The inbox of alerts

    utils/alertInbox.ts and the state of pages/alerts/AlertInbox.tsx: the object an
    alert is about, the conditions a silence starts from, what the alert store says of
    an alert, the wait after a refused read, and the marks of the alert's window.

    Times are milliseconds.  The labels of an alert are a list of pairs of distinct
    names; a missing label and an empty one are both falsy.  The number of seconds of
    a [Retry-After] is whole. *)

From S2P Require Import Prelude JsString OrderedMap Sums Sorting Json ObjectActions Drawer.

#[local] Open Scope string_scope.
#[local] Open Scope Z_scope.

(** ** The object of an alert *)

Definition NAMESPACED : list (string * string) :=
  [("pod", "Pod"); ("deployment", "Deployment"); ("statefulset", "StatefulSet"); ("daemonset", "DaemonSet"); ("job_name", "Job");
   ("cronjob", "CronJob"); ("persistentvolumeclaim", "PersistentVolumeClaim"); ("horizontalpodautoscaler", "HorizontalPodAutoscaler");
   ("replicaset", "ReplicaSet")].
Definition CLUSTER_SCOPED : list (string * string) := [("node", "Node"); ("persistentvolume", "PersistentVolume")].

Definition labelOf (labels : list (string * string)) (k : string) : string := default "" (assoc k labels).

Definition named (kind : string) (namespace : option string) (name : string) : ResourceDetailTarget :=
  {| kind := kind; name := name; namespace := namespace; apiVersion := None; rawJson := VUndef |}.

(** The first of these labels that the alert has. *)
Definition objectLabel (labels : list (string * string)) (table : list (string * string)) : option (string * string) :=
  find (λ e, nonempty (labelOf labels e.1)) table.

Definition alertResource (labels : list (string * string)) : option ResourceDetailTarget :=
  let l := labelOf labels in
  let ns := l "namespace" in
  let crKind := l "customresource_kind" in
  let crName := if nonempty crKind then (let own := l (toLowerCase crKind) in if nonempty own then own else l "name") else "" in
  if nonempty crKind && nonempty crName && nonempty (l "customresource_group") && nonempty (l "customresource_version")
  then Some (detailTarget crKind crName (Some ns) (Some (l "customresource_group" ++ "/" ++ l "customresource_version")) VUndef) else
  match (if nonempty ns then objectLabel labels NAMESPACED else None) with
  | Some (k, kind) => Some (named kind (Some ns) (l k))
  | None => (λ e, named e.2 None (l e.1)) <$> objectLabel labels CLUSTER_SCOPED
  end.

(** [silenceStart]: an object's keys in the order they are set. *)
Definition silenceStart (labels : list (string * string)) (clusterLabel : string) : list (string * string) :=
  let l := labelOf labels in
  let wanted k := nonempty (l k) && negb (eqs k clusterLabel) in
  let base := (λ k, (k, l k)) <$> filterb wanted ["alertname"; "namespace"] in
  let object := find (λ e, wanted e.1) ((if nonempty (l "namespace") then NAMESPACED else []) ++ CLUSTER_SCOPED)%list in
  (base ++ match object with Some (k, _) => [(k, l k)] | None => [] end)%list.

(** ** What the alert store says *)

Inductive LiveState := Firing | Silenced | Inhibited | Absent.
#[export] Instance LiveState_dec : EqDecision LiveState.
Proof. solve_decision. Defined.

Record StoreAlert := { fingerprint : string; a_state : string }.
Record StoreAnswer := { alerts : list StoreAlert; total : Z; truncated : bool }.

Definition liveStateOf (status fp : string) (store : option StoreAnswer) : option LiveState :=
  match store with
  | None => None
  | Some s =>
      if eqs status "resolved" then None else
      match find (λ a, eqs (fingerprint a) fp) (alerts s) with
      | None => if truncated s then None else Some Absent
      | Some a => Some (if eqs (a_state a) "silenced" then Silenced else if eqs (a_state a) "inhibited" then Inhibited else Firing)
      end
  end.

Inductive Unknown := Cut (listed total : Z) | Limited (seconds : Z) | Loading | Failed | NoStore.

Record StoreRead := { on : bool; answer : option StoreAnswer; failed : bool; limited : option Z }.

(** [None] for a resolved alert. *)
Definition liveLineOf (status fp : string) (store : StoreRead) : option (LiveState + Unknown) :=
  if eqs status "resolved" then None else
  if negb (on store) then Some (inr NoStore) else
  match answer store with
  | None => match limited store with Some s => Some (inr (Limited s)) | None => Some (inr (if failed store then Failed else Loading)) end
  | Some a =>
      match liveStateOf status fp (Some a) with
      | Some st => Some (inl st)
      | None => Some (inr (Cut (Z.of_nat (length (alerts a))) (total a)))
      end
  end.

Definition severityChoices (carried : list string) (chosen : string) : list string :=
  foldl (λ s x, setAdd x s) [] (["critical"; "warning"; "info"] ++ carried ++ (if nonempty chosen then [chosen] else []))%list.

Definition storeCut (a : option StoreAnswer) : option (Z * Z) :=
  match a with Some a => if truncated a then Some (Z.of_nat (length (alerts a)), total a) else None | None => None end.

(** ** A refused read *)

(** A failed read: the status of its answer, where there was one, and its header. *)
Record ReadError := { e_status : option Z; retry_after : value }.

Definition STORE_READ_S : Z := 60.

Definition storeLimited (e : option ReadError) : option Z :=
  match e with
  | Some e =>
      if bool_decide (e_status e = Some 429)
      then Some (match toNumber (retry_after e) with Some s => if 0 <? s then s else STORE_READ_S | None => STORE_READ_S end)
      else None
  | None => None
  end.

Definition storeRefetchMs (e : option ReadError) : Z := default STORE_READ_S (storeLimited e) * 1000.

Definition storeLimitedSeconds (until : option Z) (now : Z) : option Z := (λ u, Z.max 1 (ceilDiv (u - now) 1000)) <$> until.

(** The page's read of the store.  [due] is the timer of the query; the query forgets
    the error of a read that never had an answer when the next one starts. *)
Record StorePage := {
  data : option StoreAnswer; error : option ReadError; errorUpdatedAt : Z; isFetching : bool; due : option Z;
  limitedUntil : option Z; now : Z
}.

Inductive Event :=
  | Reads (t : Z)                                (* its timer, or a reader who asks again *)
  | Answers (t : Z) (a : StoreAnswer)
  | Refuses (t : Z) (e : ReadError)
  | Ticks (t : Z)
  | OtherCluster (t : Z) (cached : option StoreAnswer).

(** The effect on the query's state, when no read is on its way. *)
Definition limitEffect (t : Z) (s : StorePage) : StorePage :=
  if isFetching s then s else
  {| data := data s; error := error s; errorUpdatedAt := errorUpdatedAt s; isFetching := isFetching s; due := due s;
     limitedUntil := (λ r, errorUpdatedAt s + r * 1000) <$> storeLimited (error s); now := t |}.

Definition step (s : StorePage) (ev : Event) : StorePage :=
  match ev with
  | Reads t =>
      limitEffect t {| data := data s; error := match data s with Some _ => error s | None => None end; errorUpdatedAt := errorUpdatedAt s;
                       isFetching := true; due := None; limitedUntil := limitedUntil s; now := now s |}
  | Answers t a =>
      limitEffect t {| data := Some a; error := None; errorUpdatedAt := errorUpdatedAt s; isFetching := false; due := Some (t + storeRefetchMs None);
                       limitedUntil := limitedUntil s; now := now s |}
  | Refuses t e =>
      limitEffect t {| data := data s; error := Some e; errorUpdatedAt := t; isFetching := false; due := Some (t + storeRefetchMs (Some e));
                       limitedUntil := limitedUntil s; now := now s |}
  | Ticks t =>
      match limitedUntil s with
      | Some _ => {| data := data s; error := error s; errorUpdatedAt := errorUpdatedAt s; isFetching := isFetching s; due := due s;
                     limitedUntil := limitedUntil s; now := t |}
      | None => s
      end
  | OtherCluster t cached =>
      {| data := cached; error := None; errorUpdatedAt := 0; isFetching := true; due := None; limitedUntil := None; now := t |}
  end.

(** What the notice says. *)
Definition notice (s : StorePage) : option Z := storeLimitedSeconds (limitedUntil s) (now s).

(** ** The marks of an alert *)

Record Marks := { acknowledged : bool; assignee : string; done_ : bool; note : string }.
Record Window := { w_data : Marks; draft : option string; saving : bool }.

Inductive Mark := Acknowledge | Assign | Done | SaveNote.

Inductive Act := Types (text : string) | Asks (m : Mark) | Saved (fresh : Marks) | NotSaved.

Definition noteValue (w : Window) : string := default (note (w_data w)) (draft w).

(** The note is saved once it differs from the server's. *)
Definition maySave (m : Mark) (w : Window) : bool :=
  negb (saving w) && match m with
                     | SaveNote => match draft w with Some d => negb (eqs (trim d) (note (w_data w))) | None => false end
                     | _ => true
                     end.

Definition act (w : Window) (a : Act) : Window :=
  match a with
  | Types text => {| w_data := w_data w; draft := Some text; saving := saving w |}
  | Asks m => if maySave m w then {| w_data := w_data w; draft := draft w; saving := true |} else w
  | Saved fresh => {| w_data := fresh; draft := None; saving := false |}
  | NotSaved => {| w_data := w_data w; draft := draft w; saving := false |}
  end.

(** ** Lookups *)

Lemma find_at {A} (P : A → bool) pre x post : (∀ y, y ∈ pre → P y = false) → P x = true → find P (pre ++ x :: post) = Some x.
Proof.
  induction pre as [|y pre IH]; intros Hp Hx; cbn; [by rewrite Hx|]. rewrite (Hp y) by left. apply IH; [|done]. intros z Hz. apply Hp. by right.
Qed.

Lemma find_none {A} (P : A → bool) l : (∀ y, y ∈ l → P y = false) → find P l = None.
Proof. intros H. apply find_None, Forall_forall. done. Qed.

(** ** Properties *)

(** An alert that a silence mutes: it has each label of the conditions. *)
Definition meets (labels : list (string * string)) (conditions : list (string * string)) : Prop :=
  ∀ k v, (k, v) ∈ conditions → labelOf labels k = v.

(** An alert of no custom resource. *)
Definition plainAlert (labels : list (string * string)) : Prop := labelOf labels "customresource_kind" = "".

Lemma plain_resource labels pre k kind post :
  plainAlert labels → labelOf labels "namespace" ≠ "" → NAMESPACED = (pre ++ (k, kind) :: post)%list →
  (∀ e, e ∈ pre → labelOf labels e.1 = "") → labelOf labels k ≠ "" →
  alertResource labels = Some (named kind (Some (labelOf labels "namespace")) (labelOf labels k)).
Proof.
  intros Hp Hns E Hpre Hk. unfold alertResource. rewrite Hp. cbn [nonempty]. rewrite (proj2 (nonempty_true _) Hns).
  unfold objectLabel. rewrite E, (find_at _ pre (k, kind) post); [done| |by apply nonempty_true].
  intros e He. rewrite (Hpre e He). done.
Qed.

(** The conditions a silence starts from are the alert's own: it is muted by them.
    And they keep to its object: any other alert they mute, that names no more specific
    object, is about the same one. *)
Theorem silence_keeps_to_object labels clusterLabel :
  meets labels (silenceStart labels clusterLabel) ∧
  ∀ labels' pre k kind post,
    plainAlert labels → plainAlert labels' → clusterLabel ∉ ["alertname"; "namespace"; k] → labelOf labels "namespace" ≠ "" →
    NAMESPACED = (pre ++ (k, kind) :: post)%list → (∀ e, e ∈ pre → labelOf labels e.1 = "" ∧ labelOf labels' e.1 = "") → labelOf labels k ≠ "" →
    meets labels' (silenceStart labels clusterLabel) → alertResource labels' = alertResource labels.
Proof.
  split.
  - intros k v [(k' & [= -> ->] & _)%list_elem_of_fmap|H]%elem_of_app; [done|]. case_match; [|by apply elem_of_nil in H]. case_match.
    by apply list_elem_of_singleton in H as [= -> ->].
  - intros labels' pre k kind post Hp Hp' Hcl Hns E Hpre Hk Hm. rewrite !not_elem_of_cons in Hcl. destruct Hcl as (_ & Hcn & Hck & _).
    assert (labelOf labels' "namespace" = labelOf labels "namespace") as Ens.
    { apply Hm, elem_of_app. left. apply list_elem_of_fmap. exists "namespace". split; [done|]. apply elem_of_filterb. split; [right; left|].
      rewrite (proj2 (nonempty_true _) Hns). apply negb_true_iff, eqs_false. congruence. }
    assert (labelOf labels' k = labelOf labels k) as Ek.
    { apply Hm. unfold silenceStart. rewrite (proj2 (nonempty_true _) Hns), E, <-app_assoc. cbn [app].
      rewrite (find_at _ pre (k, kind) (post ++ CLUSTER_SCOPED)); [apply elem_of_app; right; left| |].
      - intros e He. by rewrite (proj1 (Hpre e He)).
      - cbn. rewrite (proj2 (nonempty_true _) Hk). apply negb_true_iff, eqs_false. congruence. }
    rewrite (plain_resource labels pre k kind post), (plain_resource labels' pre k kind post); try done; try congruence;
      intros e He; by apply (Hpre e He).
Qed.

(** An alert of a custom resource is silenced with its neighbours: the object is no
    condition, so the silence mutes the alert of the same name of every object of the
    namespace. *)
Theorem custom_resource_silence_wide labels labels' clusterLabel :
  (∀ e, e ∈ (NAMESPACED ++ CLUSTER_SCOPED)%list → labelOf labels e.1 = "") →
  labelOf labels' "alertname" = labelOf labels "alertname" → labelOf labels' "namespace" = labelOf labels "namespace" →
  meets labels' (silenceStart labels clusterLabel).
Proof.
  intros Hno Ha Hns k v H. unfold silenceStart in H. rewrite find_none in H.
  - rewrite app_nil_r in H. apply list_elem_of_fmap in H as (k' & [= -> ->] & [Hk _]%elem_of_filterb).
    apply elem_of_cons in Hk as [->|Hk]; [done|]. by apply list_elem_of_singleton in Hk as ->.
  - intros e He. rewrite Hno; [done|]. destruct (nonempty _); [done|]. apply elem_of_app. by right.
Qed.

Lemma find_first (fp : string) l :
  match find (λ a, eqs (fingerprint a) fp) l with
  | Some a => a ∈ l ∧ fingerprint a = fp
  | None => fp ∉ (fingerprint <$> l)
  end.
Proof.
  destruct (find _ l) as [a|] eqn:E; [apply find_Some in E as [Hx Hy%eqs_true]; done|].
  apply find_None in E. rewrite Forall_forall in E. intros (a & Ea & H)%list_elem_of_fmap. specialize (E a H). cbn in E. by rewrite Ea, eqs_refl in E.
Qed.

(** The line of an alert is exactly what is known: none for a resolved alert; that
    the store has it not, only from a complete list without it; that it is not known,
    only when there is no store, no answer, or a list cut before it; else the state of
    the store's own alert. *)
Theorem live_line_exact status fp store :
  match liveLineOf status fp store with
  | None => status = "resolved"
  | Some (inl Absent) => ∃ a, answer store = Some a ∧ (fp ∉ (fingerprint <$> alerts a)) ∧ truncated a = false
  | Some (inl st) => ∃ a x, answer store = Some a ∧ x ∈ alerts a ∧ fingerprint x = fp ∧
                       st = (if eqs (a_state x) "silenced" then Silenced else if eqs (a_state x) "inhibited" then Inhibited else Firing)
  | Some (inr (Cut listed n)) => ∃ a, answer store = Some a ∧ (fp ∉ (fingerprint <$> alerts a)) ∧ truncated a = true ∧ listed = Z.of_nat (length (alerts a)) ∧ n = total a
  | Some (inr (Limited s)) => answer store = None ∧ limited store = Some s
  | Some (inr Loading) => answer store = None ∧ limited store = None ∧ failed store = false
  | Some (inr Failed) => answer store = None ∧ limited store = None ∧ failed store = true
  | Some (inr NoStore) => on store = false
  end.
Proof.
  unfold liveLineOf. destruct (eqs status "resolved") eqn:Er; [by apply eqs_true in Er|]. destruct (on store); [|done]. cbn [negb].
  destruct (answer store) as [a|]; [|by destruct (limited store), (failed store)].
  unfold liveStateOf. rewrite Er. pose proof (find_first fp (alerts a)) as Hf. destruct (find _ (alerts a)) as [x|].
  - destruct Hf as [Hx Hfp]. destruct (eqs (a_state x) "silenced") eqn:E1; [|destruct (eqs (a_state x) "inhibited") eqn:E2]; exists a, x; by rewrite ?E1, ?E2.
  - destruct (truncated a) eqn:Et; by exists a.
Qed.

(** While a read is refused: its timer, readers and the clock, no answer yet. *)
Definition waits (t : Z) (ev : Event) : Prop := match ev with Reads t' | Ticks t' => t ≤ t' | _ => False end.

Definition Waiting (u : Z) (t : Z) (s : StorePage) : Prop := limitedUntil s = Some u ∧ t ≤ now s.

Lemma waits_step u t s ev : waits t ev → Waiting u t s → Waiting u t (step s ev).
Proof. intros H [Hu Ht]. destruct ev; try done; cbn [step]. rewrite Hu. by split. Qed.

Lemma waits_steps u t evs s : Forall (waits t) evs → Waiting u t s → Waiting u t (foldl step s evs).
Proof. intros H. revert s. induction H as [|ev evs He Hes IH]; intros s Hs; [done|]. apply IH. by apply waits_step. Qed.

(** After a refusal at the request limit the notice stays until the store answers,
    through the reads that start meanwhile.  The seconds it names are at least one, at
    most those the server said, and enough; and the page's timer is not before. *)
Theorem limit_notice_holds s t e r evs :
  storeLimited (Some e) = Some r → Forall (waits t) evs →
  let s0 := step s (Refuses t e) in
  let s' := foldl step s0 evs in
  due s0 = Some (t + r * 1000) ∧
  ∃ n, notice s' = Some n ∧ 1 ≤ n ≤ r ∧ t + r * 1000 ≤ now s' + n * 1000.
Proof.
  intros Hr Hw s0 s'. assert (1 ≤ r) as Hr1.
  { unfold storeLimited in Hr. case_bool_decide; [|done]. injection Hr as <-. unfold STORE_READ_S. destruct (toNumber _) as [x|]; [|lia].
    destruct (Z.ltb_spec 0 x); lia. }
  assert (limitedUntil s0 = Some (t + r * 1000) ∧ due s0 = Some (t + r * 1000)) as [Hl Hd].
  { unfold s0. cbn [step limitEffect isFetching limitedUntil due error errorUpdatedAt]. unfold limitEffect. cbn [isFetching limitedUntil due error errorUpdatedAt].
    unfold storeRefetchMs. by rewrite Hr. }
  split; [done|]. assert (Waiting (t + r * 1000) t s') as [Hu Ht].
  { apply waits_steps; [done|]. split; [done|]. unfold s0. cbn [step]. unfold limitEffect. cbn. lia. }
  exists (Z.max 1 (ceilDiv (t + r * 1000 - now s') 1000)). split; [unfold notice, storeLimitedSeconds; by rewrite Hu|].
  pose proof (ceilDiv_bounds (t + r * 1000 - now s') 1000 ltac:(lia)). lia.
Qed.

(** Marking an alert drops the note being written: when the answer of any mark comes,
    the window shows the server's note again. *)
Theorem mark_drops_draft w text fresh :
  saving w = false → text ≠ note fresh →
  let w1 := foldl act w [Types text; Asks Acknowledge] in
  let w2 := act w1 (Saved fresh) in
  noteValue w1 = text ∧ noteValue w2 = note fresh ∧ noteValue w2 ≠ text.
Proof. intros Hs Hn w1 w2. unfold w2, w1. cbn [foldl act]. unfold maySave. cbn [saving]. rewrite Hs. cbn. by repeat split. Qed.

(** ** Witnesses and examples *)

Definition sampleLabels : list (string * string) := [("alertname", "CrashLoop"); ("namespace", "web"); ("pod", "api-1"); ("deployment", "api"); ("cluster", "a")].

Lemma silence_keeps_to_object_witness :
  silenceStart sampleLabels "cluster" = [("alertname", "CrashLoop"); ("namespace", "web"); ("pod", "api-1")] ∧
  alertResource [("namespace", "web"); ("pod", "api-1"); ("alertname", "CrashLoop"); ("node", "n")] = alertResource sampleLabels.
Proof.
  split; [by vm_compute|].
  apply (proj2 (silence_keeps_to_object sampleLabels "cluster") [("namespace", "web"); ("pod", "api-1"); ("alertname", "CrashLoop"); ("node", "n")] [] "pod" "Pod"
           (tail NAMESPACED)); try by vm_compute.
  - by rewrite !not_elem_of_cons; repeat split; try done; apply not_elem_of_nil.
  - by intros e ?%elem_of_nil.
  - intros k v H. vm_compute in H. repeat (apply elem_of_cons in H as [[= -> ->]|H]; [done|]). by apply elem_of_nil in H.
Defined.

Definition widgetLabels (name : string) : list (string * string) :=
  [("alertname", "WidgetDown"); ("namespace", "web"); ("customresource_group", "numbers.io"); ("customresource_version", "v1");
   ("customresource_kind", "Widget"); ("name", name)].

Lemma custom_resource_silence_wide_witness :
  meets (widgetLabels "w2") (silenceStart (widgetLabels "w1") "cluster") ∧ alertResource (widgetLabels "w2") ≠ alertResource (widgetLabels "w1").
Proof.
  split; [|by vm_compute]. apply (custom_resource_silence_wide (widgetLabels "w1")); try by vm_compute.
  intros e He. vm_compute in He. repeat (apply elem_of_cons in He as [->|He]; [done|]). by apply elem_of_nil in He.
Defined.

Definition newStorePage : StorePage :=
  {| data := None; error := None; errorUpdatedAt := 0; isFetching := true; due := None; limitedUntil := None; now := 0 |}.

Lemma limit_notice_holds_witness :
  let e := {| e_status := Some 429; retry_after := VStr "20" |} in
  let s' := foldl step (step newStorePage (Refuses 1000 e)) [Ticks 2000; Reads 21000] in
  notice s' = Some 19 ∧ ∃ n, notice s' = Some n ∧ 1 ≤ n ≤ 20 ∧ 21000 ≤ now s' + n * 1000.
Proof.
  intros e s'. split; [by vm_compute|].
  apply (limit_notice_holds newStorePage 1000 e 20 [Ticks 2000; Reads 21000]); [by vm_compute|by repeat constructor].
Defined.

Definition sampleMarks : Marks := {| acknowledged := true; assignee := ""; done_ := false; note := "" |}.

Lemma mark_drops_draft_witness :
  let w := {| w_data := sampleMarks; draft := None; saving := false |} in
  noteValue (foldl act w [Types "looking"; Asks Acknowledge]) = "looking" ∧ noteValue (foldl act w [Types "looking"; Asks Acknowledge; Saved sampleMarks]) = "".
Proof. intros w. destruct (mark_drops_draft w "looking" sampleMarks eq_refl) as (H1 & H2 & _); [done|]. by split. Defined.

(** The most specific object is named, a custom resource by its own label. *)
Example object_named :
  alertResource sampleLabels = Some (named "Pod" (Some "web") "api-1") ∧
  alertResource [("node", "n1")] = Some (named "Node" None "n1") ∧ alertResource [("pod", "p")] = None.
Proof. by vm_compute. Qed.
