(* ===== verification/Modals.v ===== *)
(** * The stack of windows

    hooks/useModalStack.ts: the module's stack of open windows, and each window's
    depth, which it reads once when it opens.  A window is the id its effect pushed. *)

From S2P Require Import Prelude.

#[local] Open Scope Z_scope.

Definition Z_BASE : Z := 1200.
Definition Z_STEP : Z := 10.

(** [stack] with the bottom first; [depths] are the states of the open entries. *)
Record ModalStack := { stack : list nat; nextId : nat; depths : gmap nat nat }.

Definition indexOf (id : nat) (s : ModalStack) : option nat := findIndex (λ x, bool_decide (x = id)) (stack s).

(** The effect of an entry that becomes active: [push], and its depth. *)
Definition opens (s : ModalStack) : ModalStack :=
  let id := nextId s in
  let stack' := (stack s ++ [id])%list in
  {| stack := stack'; nextId := S id; depths := <[id := default 0%nat (findIndex (λ x, bool_decide (x = id)) stack')]> (depths s) |}.

(** Its clean-up: [pop]. *)
Definition closes (id : nat) (s : ModalStack) : ModalStack :=
  {| stack := filterb (λ x, negb (bool_decide (x = id))) (stack s); nextId := nextId s; depths := delete id (depths s) |}.

Definition isTopOf (id : nat) (s : ModalStack) : bool := bool_decide (last (stack s) = Some id).
Definition modalOpen (s : ModalStack) : bool := bool_decide (stack s ≠ []).

Definition zIndex (id : nat) (s : ModalStack) : Z := Z_BASE + Z.of_nat (default 0%nat (depths s !! id)) * Z_STEP.

Inductive Event := Opens | Closes (id : nat).

Definition step (s : ModalStack) (e : Event) : ModalStack := match e with Opens => opens s | Closes id => closes id s end.

Definition empty : ModalStack := {| stack := []; nextId := 1; depths := ∅ |}.

Definition run (es : list Event) : ModalStack := foldl step empty es.

(** ** What every state keeps *)

Definition Fresh (s : ModalStack) : Prop :=
  NoDup (stack s) ∧ (∀ id, id ∈ stack s → (id < nextId s)%nat) ∧ (∀ id, id ∈ stack s ↔ is_Some (depths s !! id)).

Lemma findIndex_last (l : list nat) x : x ∉ l → findIndex (λ y, bool_decide (y = x)) (l ++ [x]) = Some (length l).
Proof.
  induction l as [|y l IH]; intros H; cbn; [by rewrite bool_decide_true|]. apply not_elem_of_cons in H as [Hn H].
  rewrite bool_decide_false by congruence. by rewrite IH.
Qed.

Lemma opens_depth s : Fresh s → depths (opens s) = <[nextId s := length (stack s)]> (depths s).
Proof.
  intros (_ & Hlt & _). unfold opens. cbn [depths]. rewrite findIndex_last; [done|]. intros H%Hlt. lia.
Qed.

Lemma fresh_step s e : Fresh s → Fresh (step s e).
Proof.
  intros Hf. pose proof (opens_depth s Hf) as Hd. destruct Hf as (Hn & Hlt & Hk). destruct e as [|id]; cbn [step].
  - split_and!.
    + cbn [opens stack]. apply NoDup_app. split; [done|]. split; [|by apply NoDup_singleton]. intros x Hx ->%list_elem_of_singleton. apply Hlt in Hx. lia.
    + cbn [opens stack nextId]. intros x [Hx%Hlt|Hx%list_elem_of_singleton]%elem_of_app; lia.
    + intros x. rewrite Hd. cbn [opens stack]. rewrite elem_of_app, list_elem_of_singleton, lookup_insert_is_Some, Hk. destruct (decide (nextId s = x)); naive_solver.
  - split_and!; cbn [closes stack nextId depths].
    + clear -Hn. unfold filterb. induction (stack s) as [|x l IH]; [done|]. apply NoDup_cons in Hn as [Hx Hn]. cbn [List.filter].
      destruct (negb _); [|by apply IH]. apply NoDup_cons. split; [|by apply IH]. intros [H _]%elem_of_filterb. done.
    + intros x [Hx _]%elem_of_filterb. by apply Hlt.
    + intros x. rewrite elem_of_filterb, negb_true_iff, bool_decide_eq_false, Hk, lookup_delete_is_Some. naive_solver.
Qed.

Lemma fresh_run es : Fresh (run es).
Proof.
  unfold run. assert (Fresh empty) as H. { split_and!; [by apply NoDup_nil|by intros id ?%elem_of_nil|]. intros id. cbn. rewrite lookup_empty, elem_of_nil. split; [done|by intros []]. }
  revert H. generalize empty. induction es as [|e es IH]; intros s H; [done|]. apply IH. by apply fresh_step.
Qed.

(** Windows that close the top one first. *)
Fixpoint topFirst (s : ModalStack) (es : list Event) : Prop :=
  match es with
  | [] => True
  | e :: es => match e with Opens => True | Closes id => isTopOf id s = true end ∧ topFirst (step s e) es
  end.

Definition InPlace (s : ModalStack) : Prop := ∀ i id, stack s !! i = Some id → depths s !! id = Some i.

Lemma without_last (l : list nat) x : NoDup (l ++ [x]) → filterb (λ y, negb (bool_decide (y = x))) (l ++ [x]) = l.
Proof.
  intros (Hl & Hx & _)%NoDup_app. unfold filterb. rewrite List.filter_app. cbn. rewrite bool_decide_true by done. cbn. rewrite app_nil_r.
  assert (∀ y, y ∈ l → y ≠ x) as Hne by (intros y Hy ->; apply (Hx x Hy); left). clear Hl Hx.
  induction l as [|y l IH]; [done|]. cbn. rewrite bool_decide_false by (apply Hne; left). cbn. f_equal. apply IH. intros z Hz. apply Hne. by right.
Qed.

Lemma in_place_step s e : Fresh s → InPlace s → match e with Opens => True | Closes id => isTopOf id s = true end → InPlace (step s e).
Proof.
  intros Hf Hp He. destruct e as [|id]; cbn [step].
  - intros i x. rewrite (opens_depth s Hf). cbn [opens stack]. destruct Hf as (_ & Hlt & _). intros [H|[Hi H]]%lookup_app_Some.
    + assert (x ∈ stack s) as Hx%Hlt by by eapply list_elem_of_lookup_2. rewrite lookup_insert_ne by lia. by apply Hp.
    + apply list_lookup_singleton_Some in H as [H ->]. rewrite lookup_insert_eq. f_equal. lia.
  - unfold isTopOf in He. apply bool_decide_eq_true in He. apply last_Some in He as [l El]. destruct Hf as (Hn & _). intros i x. cbn [closes stack depths].
    rewrite El in Hn |- *. rewrite without_last by done. intros H. apply NoDup_app in Hn as (_ & Hn & _).
    assert (x ∈ l) as Hx by by eapply list_elem_of_lookup_2. rewrite lookup_delete_ne by (intros ->; apply (Hn x Hx); left).
    apply Hp. rewrite El. by apply lookup_app_l_Some.
Qed.

(** ** Properties *)

(** Windows that close the top one first are drawn in the order they opened: each is
    above every window below it in the stack, and exactly the last answers to Escape. *)
Theorem nested_windows_above es :
  topFirst empty es →
  let s := run es in
  (∀ i j a b, stack s !! i = Some a → stack s !! j = Some b → (i < j)%nat → zIndex a s < zIndex b s) ∧
  (∀ id, isTopOf id s = true ↔ id ∈ stack s ∧ ∀ id', id' ∈ stack s → zIndex id' s ≤ zIndex id s).
Proof.
  intros Ht s. assert (Fresh s ∧ InPlace s) as [Hf Hp].
  { unfold s, run. assert (Fresh empty) as H by apply (fresh_run []). assert (InPlace empty) as H' by done. revert H H' Ht. generalize empty.
    induction es as [|e es IH]; intros s0 H H'; [done|]. intros [He Ht]. apply IH; [by apply fresh_step|by apply in_place_step|done]. }
  assert (∀ i a, stack s !! i = Some a → zIndex a s = 1200 + Z.of_nat i * 10) as Hz by (intros i a Ha; unfold zIndex; by rewrite (Hp i a Ha)).
  split; [intros i j a b Ha Hb Hij; rewrite (Hz i a Ha), (Hz j b Hb); lia|]. intros id. unfold isTopOf. rewrite bool_decide_eq_true, last_lookup. split.
  - intros Hl. split; [by eapply list_elem_of_lookup_2|]. intros id' [i Hi]%list_elem_of_lookup. rewrite (Hz _ _ Hi), (Hz _ _ Hl).
    apply lookup_lt_Some in Hi. lia.
  - intros [[i Hi]%list_elem_of_lookup Hmax]. pose proof (lookup_lt_Some _ _ _ Hi) as Hlt.
    destruct (lookup_lt_is_Some_2 (stack s) (pred (length (stack s)))) as [b Hb]; [lia|].
    assert (b ∈ stack s) as Hin%Hmax by by eapply list_elem_of_lookup_2. rewrite (Hz _ _ Hi), (Hz _ _ Hb) in Hin. rewrite <-Hi. f_equal. lia.
Qed.

(** A window keeps the depth it opened at: once windows under it have closed, the
    next one to open is on top of the stack and drawn below it. *)
Theorem top_window_below es id d :
  let s := run es in
  isTopOf id s = true → depths s !! id = Some d → (length (stack s) < d)%nat →
  let s' := step s Opens in
  isTopOf (nextId s) s' = true ∧ id ∈ stack s' ∧ zIndex (nextId s) s' < zIndex id s'.
Proof.
  intros s Ht Hd Hlen s'. pose proof (fresh_run es) as Hf. fold s in Hf. pose proof (opens_depth s Hf) as Ed. destruct Hf as (_ & Hlt & Hk).
  assert (id ∈ stack s) as Hin by (apply Hk; by eexists). unfold isTopOf, zIndex, s'. cbn [step]. rewrite Ed. cbn [opens stack]. split_and!.
  - apply bool_decide_eq_true. by rewrite last_snoc.
  - apply elem_of_app. by left.
  - rewrite lookup_insert_eq, lookup_insert_ne, Hd by (apply Hlt in Hin; lia). cbn. unfold Z_STEP. lia.
Qed.

(** ** Witnesses *)

Lemma nested_windows_above_witness :
  let s := run [Opens; Opens; Closes 2; Opens] in
  stack s = [1; 3]%nat ∧ zIndex 1 s < zIndex 3 s.
Proof.
  intros s. split; [by vm_compute|]. apply (proj1 (nested_windows_above [Opens; Opens; Closes 2; Opens] ltac:(by vm_compute)) 0%nat 1%nat); [by vm_compute|by vm_compute|lia].
Defined.

(** Three windows, the first two close, another opens. *)
Lemma top_window_below_witness :
  let s := run [Opens; Opens; Opens; Closes 1; Closes 2] in
  isTopOf 4 (step s Opens) = true ∧ 3%nat ∈ stack (step s Opens) ∧ zIndex 4 (step s Opens) < zIndex 3 (step s Opens).
Proof. apply (top_window_below [Opens; Opens; Opens; Closes 1; Closes 2] 3 2); [by vm_compute|by vm_compute|vm_compute; lia]. Defined.
