(* ===== verification/BulkCsv.v ===== *)
(** * The CSV of a bulk creation

    pages/admin-users/bulkCreate.ts and bulkRole.ts: the template an administrator
    fills in, the accounts read from it, and what the server's answer says of each.
    The file is read as text, without its byte order mark. *)

From S2P Require Import Prelude JsString.

#[local] Open Scope string_scope.

Definition newline : ascii := "010".
Definition comma : ascii := ",".

(** ** Data *)

Record Role := { roleId : Z; roleName : string }.

Record BulkCsvUser := { name : string; email : string; password : string; role_id : Z; team : option string }.

Inductive Reason := missing_fields | name_ | password_ | role_ | ceiling | team_ | exists_ | failed_.

Record BulkCreateFailure := { failedEmail : string; reason : Reason; detail : option string }.

Record ParsedBulkCsv := { users : list BulkCsvUser; failed : list BulkCreateFailure }.

Record Member := { memberId : string; memberName : string; memberEmail : option string; memberTeam : option string; memberRole : option Role }.

(** ** The template *)

Definition BULK_CSV_HEADER : string := "name,email,password,role,team".
Definition DEFAULT_ROLE : string := "Member".

Definition hexDigit (n : N) : ascii := ascii_of_N (if (n <? 10)%N then 48 + n else 87 + n).

(** [b.toString(16).padStart(2, '0')] of a byte. *)
Definition hexByte (b : Byte.byte) : string := let n := Byte.to_N b in String (hexDigit (n / 16)) (String (hexDigit (n mod 16)) "").

(** The sixteen bytes are the browser's. *)
Definition exampleBulkPassword (random : list Byte.byte) : string := join "" (hexByte <$> random).

Definition levels (roles : list Role) : string :=
  let l := join ", " (roleName <$> filterb (λ r, bool_decide (roleName r ∈ ["Admin"; "Member"])) roles) in
  if nonempty l then l else "Admin, Member".

Definition bulkCsvTemplate (teamNames : list string) (roles : list Role) (pw : string) : string :=
  join (String newline "") [
    "# Available Team: " +:+ (if bool_decide (teamNames ≠ []) then join ", " teamNames else "(none registered)");
    "# role (account level): " +:+ levels roles;
    BULK_CSV_HEADER;
    "Hong Gildong,hong@example.com," +:+ pw +:+ "," +:+ DEFAULT_ROLE +:+ "," +:+ default "" (head teamNames);
    ""].

(** ** Reading it *)

Definition cell (l : list string) (i : nat) : string := nth i l "".

Definition readRow (roles : list Role) (line : string) : BulkCsvUser + BulkCreateFailure :=
  let cells := trim <$> split comma line in
  let name := cell cells 0 in let email := cell cells 1 in let password := cell cells 2 in
  let roleColumn := cell cells 3 in let team := cell cells 4 in
  let rname := if nonempty roleColumn then roleColumn else DEFAULT_ROLE in
  let role := find (λ r, eqs (roleName r) rname) roles in
  if negb (nonempty name) || negb (nonempty email) || negb (nonempty password) then
    inr {| failedEmail := email; reason := missing_fields; detail := None |}
  else match role with
  | None => inr {| failedEmail := email; reason := role_; detail := Some rname |}
  | Some r => inl {| name := name; email := email; password := password; role_id := roleId r; team := if nonempty team then Some team else None |}
  end.

Definition linesOf (text : string) : list string :=
  filterb (λ l, nonempty l && negb (startsWith "#" l)) (trim <$> split newline text).

Definition addRow (roles : list Role) (parsed : ParsedBulkCsv) (line : string) : ParsedBulkCsv :=
  match readRow roles line with
  | inl u => {| users := users parsed ++ [u]; failed := failed parsed |}
  | inr f => {| users := users parsed; failed := failed parsed ++ [f] |}
  end.

Definition parseBulkCsv (text : string) (roles : list Role) : ParsedBulkCsv :=
  foldl (addRow roles) {| users := []; failed := [] |} (drop 1 (linesOf text)).

(** ** The answers *)

Record BulkCreateAnswer := { created : list Member; leftOut : list BulkCreateFailure }.

Definition readBulkCreateAnswer (made : option (list Member)) (left_ : option (list BulkCreateFailure)) : BulkCreateAnswer :=
  {| created := default [] made; leftOut := default [] left_ |}.

(** What an error of the client carries: its response's [failed], where that is an
    array, its [detail], and the error's own message. *)
Record ApiError (F : Type) := { errFailed : option (list F); errDetail : option string; errMessage : option string }.
#[global] Arguments errFailed {_}.
#[global] Arguments errDetail {_}.
#[global] Arguments errMessage {_}.

Definition bulkCreateFailures (err : ApiError BulkCreateFailure) : list BulkCreateFailure := default [] (errFailed err).

Definition reasonText (r : Reason) : string :=
  match r with
  | missing_fields => "name, email and password are required"
  | name_ => "this name cannot be a Kubernetes user: no colon, space or control character"
  | password_ => "the password does not meet the policy"
  | role_ => "no such role"
  | ceiling => "the role gives permissions you do not hold"
  | team_ => "no such team"
  | exists_ => "this email already has an account"
  | failed_ => "the creation failed, the audit log says why"
  end.

Definition createRefusalText (r : Reason) (detail : option string) : string :=
  reasonText r +:+ match detail with Some d => if nonempty d then ": " +:+ d else "" | None => "" end.

Definition bulkCreateFailureRows (l : list BulkCreateFailure) : list string :=
  (λ f, (if nonempty (failedEmail f) then failedEmail f else "-") +:+ ": " +:+ createRefusalText (reason f) (detail f)) <$> l.

Inductive RoleReason := roleFailed | not_found | self.
#[global] Instance RoleReason_eq_dec : EqDecision RoleReason.
Proof. solve_decision. Defined.

Record BulkRoleFailure := { user_id : string; roleEmail : option string; roleReason : RoleReason }.

Record BulkRoleAnswer := { updated : list Member; notUpdated : list BulkRoleFailure }.

(** The route answers a list, or an object whose lists may be missing. *)
Definition readBulkRoleAnswer (data : list Member + option (list Member) * option (list BulkRoleFailure)) : BulkRoleAnswer :=
  match data with
  | inl l => {| updated := l; notUpdated := [] |}
  | inr (u, f) => {| updated := default [] u; notUpdated := default [] f |}
  end.

Definition bulkRoleFailures (err : ApiError BulkRoleFailure) : list BulkRoleFailure := default [] (errFailed err).

(** ** Rows as they are written *)

(** A field that stays one cell. *)
Definition tidy (s : string) : Prop := trim s = s ∧ free_of comma s ∧ free_of newline s.

(** What an account's row has in its columns. *)
Record Account := { aName : string; aEmail : string; aPassword : string; aRole : Role; aTeam : string }.

Definition writes (u : Account) : string := join "," [aName u; aEmail u; aPassword u; roleName (aRole u); aTeam u].

Definition asRead (u : Account) : BulkCsvUser :=
  {| name := aName u; email := aEmail u; password := aPassword u; role_id := roleId (aRole u); team := if nonempty (aTeam u) then Some (aTeam u) else None |}.

Definition Writable (roles : list Role) (u : Account) : Prop :=
  Forall tidy [aName u; aEmail u; aPassword u; roleName (aRole u); aTeam u] ∧
  (aName u ≠ "" ∧ aEmail u ≠ "" ∧ aPassword u ≠ "" ∧ roleName (aRole u) ≠ "") ∧ startsWith "#" (aName u) = false ∧
  find (λ r, eqs (roleName r) (roleName (aRole u))) roles = Some (aRole u).

Lemma cells_join l : l ≠ [] → Forall tidy l → trim <$> split comma (join "," l) = l.
Proof.
  intros Hne Hl. change "," with (String comma ""). rewrite split_join; [|done|by eapply Forall_impl; [apply Hl|intros s (_ & ? & _)]].
  induction Hl as [|s l [Hs _] Hl IH]; [done|]. cbn. rewrite Hs. f_equal. destruct l; [done|by apply IH].
Qed.

Lemma readRow_writes roles u : Writable roles u → readRow roles (writes u) = inl (asRead u).
Proof.
  intros (Ht & (Hn & He & Hp & Hr) & _ & Hrole). unfold readRow, writes. rewrite cells_join by done. cbv zeta.
  unfold cell. cbn [nth]. rewrite (proj2 (nonempty_true _) Hn), (proj2 (nonempty_true _) He), (proj2 (nonempty_true _) Hp), (proj2 (nonempty_true _) Hr).
  cbn [negb orb]. by rewrite Hrole.
Qed.

Lemma writes_shape u : writes u = aName u +:+ String comma (aEmail u +:+ "," +:+ aPassword u +:+ "," +:+ roleName (aRole u)) +:+ String comma (aTeam u).
Proof. unfold writes. cbn [join]. unfold comma. by repeat rewrite ?app_cons_s, ?app_nil_l_s, ?app_assoc_s. Qed.

Lemma startsWith_hash s t : startsWith "#" s = false → s ≠ "" → startsWith "#" (s +:+ t) = false.
Proof. destruct s as [|c s]; [done|]. rewrite app_cons_s. done. Qed.

(** A row is a line of the file: trimmed, not empty and no comment. *)
Lemma writes_line roles u : Writable roles u → trim (writes u) = writes u ∧ nonempty (writes u) && negb (startsWith "#" (writes u)) = true ∧ free_of newline (writes u).
Proof.
  intros (Ht & (Hn & _) & Hh & _). repeat setoid_rewrite Forall_cons in Ht. destruct Ht as ((Hname & _ & Fn) & (_ & _ & Fe) & (_ & _ & Fp) & (_ & _ & Fr) & (Hteam & _ & Ft) & _).
  apply trim_fixed in Hname as [Hname _]. apply trim_fixed in Hteam as [_ Hteam]. split_and!.
  - apply trim_fixed. rewrite writes_shape. split; [by apply trimStart_app|].
    rewrite <-app_assoc_s. apply trimEnd_app; [|done]. by apply trimEnd_solid.
  - rewrite writes_shape. rewrite startsWith_hash by done. rewrite andb_true_r. apply nonempty_true. destruct (aName u); [done|]. by rewrite app_cons_s.
  - rewrite writes_shape. rewrite ?app_cons_s, ?app_nil_l_s. rewrite !free_of_app, ?free_of_cons, ?free_of_app. unfold comma, newline in *. 
    rewrite ?free_of_app, ?free_of_cons, ?free_of_app. split_and!; done.
Qed.

Definition kept (l : string) : bool := nonempty l && negb (startsWith "#" l).

Lemma linesOf_join ls : ls ≠ [] → Forall (free_of newline) ls → linesOf (join (String newline "") ls) = filterb kept (trim <$> ls).
Proof. intros Hne Hl. unfold linesOf. by rewrite split_join. Qed.

Lemma filterb_app {A} (P : A → bool) l k : filterb P (l ++ k) = (filterb P l ++ filterb P k)%list.
Proof. apply List.filter_app. Qed.

(** Lines before the rows that are no header: comments and empty lines. *)
Definition passed_ (l : string) : Prop := kept (trim l) = false ∧ free_of newline l.

Lemma filterb_passed ls : Forall passed_ ls → filterb kept (trim <$> ls) = [].
Proof. induction 1 as [|l ls [Hl _] _ IH]; [done|]. cbn in *. by rewrite Hl. Qed.

Lemma addRow_rows roles l p : Forall (Writable roles) l →
  foldl (addRow roles) p (writes <$> l) = {| users := users p ++ (asRead <$> l); failed := failed p |}.
Proof.
  intros Hl. revert p. induction Hl as [|u l Hu _ IH]; intros p; [by destruct p; cbn; rewrite app_nil_r|].
  cbn [fmap list_fmap foldl]. rewrite IH. unfold addRow. rewrite (readRow_writes _ _ Hu). cbn. by rewrite <-(assoc_L (++)).
Qed.

Lemma parse_file roles before after l :
  Forall passed_ before → Forall passed_ after → Forall (Writable roles) l →
  parseBulkCsv (join (String newline "") (before ++ BULK_CSV_HEADER :: (writes <$> l) ++ after)) roles = {| users := asRead <$> l; failed := [] |}.
Proof.
  intros Hb Ha Hl. unfold parseBulkCsv. rewrite linesOf_join; [|by destruct before|].
  - rewrite fmap_app, filterb_app, filterb_passed by done. cbn [app fmap list_fmap]. rewrite fmap_app.
    change (filterb kept (trim BULK_CSV_HEADER :: _)) with (BULK_CSV_HEADER :: filterb kept ((trim <$> (writes <$> l)) ++ (trim <$> after))).
    cbn [drop]. rewrite filterb_app, (filterb_passed after), app_nil_r by done.
    assert (filterb kept (trim <$> (writes <$> l)) = writes <$> l) as ->; [|by rewrite drop_0, addRow_rows].
    clear Ha Hb. induction Hl as [|u l Hu _ IH]; [done|]. cbn [fmap list_fmap].
    destruct (writes_line _ _ Hu) as (Et & Hk' & _). rewrite Et. unfold filterb in *. cbn [List.filter]. change (kept (writes u)) with (nonempty (writes u) && negb (startsWith "#" (writes u))). by rewrite Hk', IH.
  - rewrite Forall_app, Forall_cons, Forall_app, Forall_fmap. split_and!.
    + by eapply Forall_impl; [apply Hb|intros s []].
    + by vm_compute.
    + eapply Forall_impl; [apply Hl|]. intros u Hu. by destruct (writes_line _ _ Hu) as (_ & _ & ?).
    + by eapply Forall_impl; [apply Ha|intros s []].
Qed.

(** ** The example *)

Lemma hexDigit_inj n m : (n < 16 → m < 16 → hexDigit n = hexDigit m → n = m)%N.
Proof.
  intros Hn Hm E. unfold hexDigit in E. apply (f_equal N_of_ascii) in E. destruct (N.ltb_spec n 10), (N.ltb_spec m 10); rewrite !N_ascii_embedding in E by lia; lia.
Qed.

Lemma hexByte_inj b b' s s' : hexByte b +:+ s = hexByte b' +:+ s' → b = b' ∧ s = s'.
Proof.
  unfold hexByte. rewrite !app_cons_s, !app_nil_l_s. intros [= E1 E2 ->]. split; [|done].
  pose proof (Byte.to_N_bounded b). pose proof (Byte.to_N_bounded b').
  assert (∀ n, (n ≤ 255 → n / 16 < 16)%N) as Hd by (intros n Hn; apply N.Div0.div_lt_upper_bound; lia).
  apply hexDigit_inj in E1; [|by apply Hd..]. apply hexDigit_inj in E2; [|by apply N.mod_lt..].
  assert (Byte.to_N b = Byte.to_N b') as E by (rewrite (N.div_mod (Byte.to_N b) 16), E1, E2 by done; by rewrite <-N.div_mod).
  apply (f_equal Byte.of_N) in E. rewrite !Byte.of_to_N in E. by injection E.
Qed.

Lemma exampleBulkPassword_cons b bs : exampleBulkPassword (b :: bs) = hexByte b +:+ exampleBulkPassword bs.
Proof. unfold exampleBulkPassword. destruct bs; cbn [fmap list_fmap join]; [by rewrite app_nil_r_s|by rewrite app_nil_l_s]. Qed.

(** Two draws give two passwords. *)
Lemma example_passwords_differ bs bs' : exampleBulkPassword bs = exampleBulkPassword bs' → bs = bs'.
Proof.
  revert bs'. induction bs as [|b bs IH]; intros [|b' bs']; rewrite ?exampleBulkPassword_cons; try done.
  intros [-> E]%hexByte_inj. f_equal. by apply IH.
Qed.

Definition isHex (c : ascii) : bool := is_digit c || let n := nat_of_ascii c in ((97 <=? n) && (n <=? 102))%nat.

Lemma hexByte_hex b : sall isHex (hexByte b) = true.
Proof. by destruct b; vm_compute. Qed.

Lemma example_hex bs : sall isHex (exampleBulkPassword bs) = true.
Proof. induction bs as [|b bs IH]; [done|]. by rewrite exampleBulkPassword_cons, sall_app, hexByte_hex, IH. Qed.

(** ** Every row is accounted for *)

(** The rows of a file, and the account each names. *)
Definition rowsOf (text : string) : list string := drop 1 (linesOf text).
Definition rowEmail (line : string) : string := cell (trim <$> split comma line) 1.

Definition accounted (p : ParsedBulkCsv) : list string := (email <$> users p) ++ (failedEmail <$> failed p).

Lemma readRow_email roles line : match readRow roles line with inl u => email u | inr f => failedEmail f end = rowEmail line.
Proof. unfold readRow, rowEmail. cbv zeta. destruct (negb _ || negb _ || negb _); [done|]. by destruct (find (λ r, eqs (roleName r) _) roles). Qed.

Lemma addRow_accounted roles ls p : accounted (foldl (addRow roles) p ls) ≡ₚ accounted p ++ (rowEmail <$> ls).
Proof.
  revert p. induction ls as [|l ls IH]; intros p; [by rewrite app_nil_r|]. cbn [foldl fmap list_fmap]. rewrite IH. pose proof (readRow_email roles l) as E.
  unfold addRow, accounted. destruct (readRow roles l); cbn [users failed]; rewrite <-E, fmap_app; cbn [fmap list_fmap]; solve_Permutation.
Qed.

Lemma parse_accounts text roles : accounted (parseBulkCsv text roles) ≡ₚ rowEmail <$> rowsOf text.
Proof. unfold parseBulkCsv. by rewrite addRow_accounted. Qed.

(** ** The template's comments *)

Definition comments (teamNames : list string) (roles : list Role) : list string :=
  ["# Available Team: " +:+ (if bool_decide (teamNames ≠ []) then join ", " teamNames else "(none registered)"); "# role (account level): " +:+ levels roles].

Lemma free_of_join c sep l : free_of c sep → Forall (free_of c) l → free_of c (join sep l).
Proof.
  intros Hs. induction 1 as [|x l Hx Hl IH]; [done|]. destruct l as [|y l]; [done|]. change (join sep (x :: y :: l)) with (x +:+ sep +:+ join sep (y :: l)).
  by rewrite !free_of_app.
Qed.

Lemma levels_free roles : free_of newline (levels roles).
Proof.
  unfold levels. case_match; [|by vm_compute]. apply free_of_join; [by vm_compute|]. apply Forall_fmap, Forall_forall. intros r [_ Hr]%elem_of_filterb.
  apply bool_decide_eq_true in Hr. cbn. rewrite !elem_of_cons in Hr. destruct Hr as [->|[->|[]%elem_of_nil]]; by vm_compute.
Qed.

Lemma hash_passed s : free_of newline s → passed_ (String "#" s).
Proof.
  intros Hs. split; [|by apply free_of_cons]. unfold trim. cbn [trimStart]. change (is_space "#") with false. cbn [trimEnd].
  unfold kept. destruct (trimEnd s); by rewrite andb_comm.
Qed.

Lemma comments_passed teams roles : Forall (free_of newline) teams → Forall passed_ (comments teams roles).
Proof.
  intros Ht. unfold comments. apply Forall_cons_2; [|apply Forall_cons_2; [|by apply Forall_nil_2]].
  - change ("# Available Team: " +:+ ?s) with (String "#" (" Available Team: " +:+ s)). apply hash_passed, free_of_app. split; [by vm_compute|].
    case_bool_decide; [by apply free_of_join|by vm_compute].
  - change ("# role (account level): " +:+ ?s) with (String "#" (" role (account level): " +:+ s)). apply hash_passed, free_of_app.
    split; [by vm_compute|]. apply levels_free.
Qed.

Definition example_ (teamNames : list string) (r : Role) (pw : string) : Account :=
  {| aName := "Hong Gildong"; aEmail := "hong@example.com"; aPassword := pw; aRole := r; aTeam := default "" (head teamNames) |}.

Lemma template_lines teams roles r pw : roleName r = DEFAULT_ROLE →
  bulkCsvTemplate teams roles pw = join (String newline "") (comments teams roles ++ BULK_CSV_HEADER :: (writes <$> [example_ teams r pw]) ++ [""]).
Proof. intros E. unfold bulkCsvTemplate, comments, writes, example_. cbn [app fmap list_fmap aName aEmail aPassword aRole aTeam]. by rewrite E. Qed.

Lemma hex_tidy s : sall isHex s = true → tidy s.
Proof.
  intros H. assert (∀ c, isHex c = true → is_space c = false ∧ c ≠ comma ∧ c ≠ newline) as Hc.
  { intros c. unfold isHex, is_digit, is_space. intros E. split; [|split; intros ->; by vm_compute in E].
    apply orb_true_iff in E. rewrite !andb_true_iff, !Nat.leb_le in E. apply orb_false_iff. rewrite andb_false_iff, !Nat.leb_gt, Nat.eqb_neq. lia. }
  split_and!.
  - apply trim_fixed. split.
    + destruct s as [|c s]; [done|]. cbn in *. apply andb_true_iff in H as [H _]. by destruct (Hc c H) as (-> & _).
    + induction s as [|c s IH]; [done|]. cbn [sall] in H. apply andb_true_iff in H as [H1 H2]. destruct (Hc c H1) as (Hs & _). apply trimEnd_solid; auto.
  - eapply sall_impl; [|apply H]. intros c (_ & ? & _)%Hc. by rewrite bool_decide_false.
  - eapply sall_impl; [|apply H]. intros c (_ & _ & ?)%Hc. by rewrite bool_decide_false.
Qed.

(** ** Properties *)

(** C30. Accounts that can be written as rows come back as they were written, in order
    and none refused, when they are filled in under the template's lines.  The format
    has no quotes, so an account can be written when its fields have no comma, no
    newline and no space at their ends, its name, email and password are not empty,
    its name does not start with [#], and its role is the first of its name among the
    roles there are; of a comma in a password see [comma_splits_password].  The
    template itself goes up as it is, one account with a password of its own, where the
    default role is among the roles and its first team can be written. *)
Theorem csv_reads_back roles teams l r random :
  Forall (free_of newline) teams → Forall (Writable roles) l →
  find (λ r, eqs (roleName r) DEFAULT_ROLE) roles = Some r → tidy (default "" (head teams)) → random ≠ [] →
  parseBulkCsv (join (String newline "") (comments teams roles ++ BULK_CSV_HEADER :: (writes <$> l) ++ [""])) roles = {| users := asRead <$> l; failed := [] |} ∧
  parseBulkCsv (bulkCsvTemplate teams roles (exampleBulkPassword random)) roles =
    {| users := [asRead (example_ teams r (exampleBulkPassword random))]; failed := [] |} ∧
  ∀ random', exampleBulkPassword random' = exampleBulkPassword random → random' = random.
Proof.
  intros Ht Hl Hr Hteam Hrand. assert (Forall passed_ [""]) as Hend by (repeat constructor). pose proof (comments_passed teams roles Ht) as Hc.
  split; [by apply parse_file|]. split; [|intros random'; by apply example_passwords_differ].
  pose proof (find_Some _ _ _ Hr) as [_ Er%eqs_true]. rewrite (template_lines _ _ r) by done. apply (parse_file roles _ _ [_]); [done..|].
  apply Forall_cons_2; [|by apply Forall_nil_2]. unfold Writable, example_. cbn [aName aEmail aPassword aRole aTeam]. rewrite Er. split_and!; try done.
  - repeat apply Forall_cons_2; [by vm_compute..|apply hex_tidy, example_hex|by vm_compute|done|by apply Forall_nil_2].
  - destruct random as [|b bs]; [done|]. by rewrite exampleBulkPassword_cons.
Qed.

(** A field has no quotes: a comma in a password ends it, and what follows is read
    as the role and shown on screen as the reason why the row was refused. *)
Theorem comma_splits_password roles nm em p1 p2 rest :
  Forall tidy (nm :: em :: p1 :: p2 :: rest) → nm ≠ "" → em ≠ "" → p1 ≠ "" → p2 ≠ "" →
  find (λ r, eqs (roleName r) p2) roles = None →
  let row := join "," (nm :: em :: (p1 +:+ "," +:+ p2) :: rest) in
  ∃ f, readRow roles row = inr f ∧ bulkCreateFailureRows [f] = [em +:+ ": no such role: " +:+ p2].
Proof.
  intros Ht Hn He H1 H2 Hr row. exists {| failedEmail := em; reason := role_; detail := Some p2 |}. split.
  - assert (row = join "," (nm :: em :: p1 :: p2 :: rest)) as ->.
    { unfold row. destruct rest; cbn [join]; by repeat rewrite ?app_cons_s, ?app_nil_l_s, ?app_assoc_s. }
    unfold readRow. rewrite cells_join by done. cbv zeta. unfold cell. cbn [nth].
    rewrite (proj2 (nonempty_true _) Hn), (proj2 (nonempty_true _) He), (proj2 (nonempty_true _) H1), (proj2 (nonempty_true _) H2). cbn [negb orb]. by rewrite Hr.
  - unfold bulkCreateFailureRows, createRefusalText. cbn. by rewrite (proj2 (nonempty_true _) He), (proj2 (nonempty_true _) H2).
Qed.

(** ** Witnesses *)

Definition seeded : list Role := [{| roleId := 1; roleName := "Pending" |}; {| roleId := 2; roleName := "Member" |}; {| roleId := 5; roleName := "Admin" |}].

Lemma csv_reads_back_witness :
  let ann := {| aName := "Ann"; aEmail := "ann@example.com"; aPassword := "pass-1"; aRole := {| roleId := 5; roleName := "Admin" |}; aTeam := "" |} in
  parseBulkCsv (join (String newline "") (comments ["web"] seeded ++ BULK_CSV_HEADER :: (writes <$> [ann]) ++ [""])) seeded =
    {| users := [{| name := "Ann"; email := "ann@example.com"; password := "pass-1"; role_id := 5; team := None |}]; failed := [] |}.
Proof.
  intros ann. refine (proj1 (csv_reads_back seeded ["web"] [ann] {| roleId := 2; roleName := "Member" |} [Byte.x00] _ _ _ _ _)); try done.
  - by repeat constructor.
  - apply Forall_cons_2; [|by apply Forall_nil_2]. split_and!; try done. by repeat constructor.
Defined.

Lemma comma_splits_password_witness :
  ∃ f, readRow seeded "Ann,ann@example.com,secret,rest,Admin,web" = inr f ∧ bulkCreateFailureRows [f] = ["ann@example.com: no such role: rest"].
Proof.
  apply (comma_splits_password seeded "Ann" "ann@example.com" "secret" "rest" ["Admin"; "web"]); try done. by repeat constructor.
Defined.

Example written_example : bulkCsvTemplate [] seeded "pw" = "# Available Team: (none registered)" +:+ String newline "# role (account level): Member, Admin" +:+
  String newline "name,email,password,role,team" +:+ String newline "Hong Gildong,hong@example.com,pw,Member," +:+ String newline "".
Proof. by vm_compute. Qed.
