(* ===== verification/AdminUsers.v ===== *)
(** * User management

    pages/AdminUsers.tsx and the edit of admin-users/UserDetailModal.tsx: the table of
    accounts, the role a row shows while its change is on the way, the approval of
    pending accounts, the edit of one account and the upload of a CSV ([BulkCsv]).

    [Users] is the state of the page; [step] is one of its handlers, with the request
    it makes.  The server's answers are events. *)

From Stdlib Require Import Sorted.
From S2P Require Import Prelude JsString OrderedMap Sorting ListPage BulkCsv.

#[local] Open Scope string_scope.
#[local] Open Scope Z_scope.

(** ** The table *)

Definition USERS_PAGE_SIZE : Z := 25.

Inductive SortKey := byName | byEmail | byTeam | byRole.
#[global] Instance SortKey_eq_dec : EqDecision SortKey.
Proof. solve_decision. Defined.

Record Table := { search : string; page : Z; sortKey : option SortKey; asc : bool }.

Definition getValue (k : SortKey) (u : Member) : string :=
  toLowerCase match k with
  | byName => memberName u
  | byEmail => default "" (memberEmail u)
  | byTeam => default "" (memberTeam u)
  | byRole => default "" (roleName <$> memberRole u)
  end.

Definition compareMembers (k : SortKey) (up : bool) (a b : Member) : Z :=
  let av := getValue k a in let bv := getValue k b in
  if eqs av bv then 0 else
  let cmp := if String.leb av bv then -1 else 1 in
  if up then cmp else - cmp.

Definition sortedRows (rows : list Member) (t : Table) : list Member :=
  match sortKey t with None => rows | Some k => sortBy (compareMembers k (asc t)) rows end.

Definition query (t : Table) : string := toLowerCase (trim (search t)).

Definition found (q : string) (u : Member) : bool :=
  some (λ v, includes q (toLowerCase (default "" v))) [Some (memberName u); memberEmail u; memberTeam u].

Definition filteredRows (rows : list Member) (t : Table) : list Member :=
  if nonempty (query t) then filterb (found (query t)) (sortedRows rows t) else sortedRows rows t.

Definition pageCount (rows : list Member) (t : Table) : Z := totalPages (length (filteredRows rows t)) USERS_PAGE_SIZE.
Definition currentPage (rows : list Member) (t : Table) : Z := Z.min (page t) (pageCount rows t).
Definition pagedRows (rows : list Member) (t : Table) : list Member := paged (filteredRows rows t) (currentPage rows t) USERS_PAGE_SIZE.

Definition handleSort (k : SortKey) (t : Table) : Table :=
  if negb (bool_decide (sortKey t = Some k)) then {| search := search t; page := page t; sortKey := Some k; asc := true |}
  else if asc t then {| search := search t; page := page t; sortKey := sortKey t; asc := false |}
  else {| search := search t; page := page t; sortKey := None; asc := asc t |}.

Inductive TableEvent := Searches (q : string) | Turns (n : Z) | ClicksHeader (k : SortKey).

Definition tableStep (t : Table) (e : TableEvent) : Table :=
  match e with
  | Searches q => {| search := q; page := 1; sortKey := sortKey t; asc := asc t |}
  | Turns n => {| search := search t; page := n; sortKey := sortKey t; asc := asc t |}
  | ClicksHeader k => handleSort k t
  end.

(** What the pager's buttons ask for. *)
Definition prevPage (rows : list Member) (t : Table) : Z := Z.max 1 (currentPage rows t - 1).
Definition nextPage (rows : list Member) (t : Table) : Z := Z.min (Z.max 1 (pageCount rows t)) (currentPage rows t + 1).

(** ** The page *)

Record Draft := { dName : string; dTeam : string; dRole : Z }.

Record BulkUploadResult := { madeMembers : list Member; refusedRows : list BulkCreateFailure; uploadTotal : nat; uploadError : option string }.

Record Users := {
  rows : list Member; roles : list Role; me : option string;
  roleDrafts : gmap string Z; actionError : option string; reauthModalOpen : bool;
  pendingModalOpen : bool; pendingSelectedIds : list string;
  detailUserId : option string; detailEditing : bool; detailDraft : Draft; detailError : option string;
  bulkUploadResult : option BulkUploadResult
}.

(** The setters of the state. *)
Definition setRows l s := {| rows := l; roles := roles s; me := me s; roleDrafts := roleDrafts s; actionError := actionError s;
  reauthModalOpen := reauthModalOpen s; pendingModalOpen := pendingModalOpen s; pendingSelectedIds := pendingSelectedIds s; detailUserId := detailUserId s;
  detailEditing := detailEditing s; detailDraft := detailDraft s; detailError := detailError s; bulkUploadResult := bulkUploadResult s |}.
Definition setRoleDrafts f s := {| rows := rows s; roles := roles s; me := me s; roleDrafts := f (roleDrafts s); actionError := actionError s;
  reauthModalOpen := reauthModalOpen s; pendingModalOpen := pendingModalOpen s; pendingSelectedIds := pendingSelectedIds s; detailUserId := detailUserId s;
  detailEditing := detailEditing s; detailDraft := detailDraft s; detailError := detailError s; bulkUploadResult := bulkUploadResult s |}.
Definition setActionError e s := {| rows := rows s; roles := roles s; me := me s; roleDrafts := roleDrafts s; actionError := e;
  reauthModalOpen := reauthModalOpen s; pendingModalOpen := pendingModalOpen s; pendingSelectedIds := pendingSelectedIds s; detailUserId := detailUserId s;
  detailEditing := detailEditing s; detailDraft := detailDraft s; detailError := detailError s; bulkUploadResult := bulkUploadResult s |}.
Definition setReauth s := {| rows := rows s; roles := roles s; me := me s; roleDrafts := roleDrafts s; actionError := actionError s;
  reauthModalOpen := true; pendingModalOpen := pendingModalOpen s; pendingSelectedIds := pendingSelectedIds s; detailUserId := detailUserId s;
  detailEditing := detailEditing s; detailDraft := detailDraft s; detailError := detailError s; bulkUploadResult := bulkUploadResult s |}.
Definition setPending open ids s := {| rows := rows s; roles := roles s; me := me s; roleDrafts := roleDrafts s; actionError := actionError s;
  reauthModalOpen := reauthModalOpen s; pendingModalOpen := open; pendingSelectedIds := ids; detailUserId := detailUserId s;
  detailEditing := detailEditing s; detailDraft := detailDraft s; detailError := detailError s; bulkUploadResult := bulkUploadResult s |}.
Definition setDetail id editing draft err s := {| rows := rows s; roles := roles s; me := me s; roleDrafts := roleDrafts s; actionError := actionError s;
  reauthModalOpen := reauthModalOpen s; pendingModalOpen := pendingModalOpen s; pendingSelectedIds := pendingSelectedIds s; detailUserId := id;
  detailEditing := editing; detailDraft := draft; detailError := err; bulkUploadResult := bulkUploadResult s |}.
Definition setUploadResult r s := {| rows := rows s; roles := roles s; me := me s; roleDrafts := roleDrafts s; actionError := actionError s;
  reauthModalOpen := reauthModalOpen s; pendingModalOpen := pendingModalOpen s; pendingSelectedIds := pendingSelectedIds s; detailUserId := detailUserId s;
  detailEditing := detailEditing s; detailDraft := detailDraft s; detailError := detailError s; bulkUploadResult := r |}.

(** [x || y] of texts that may be absent. *)
Definition orText (a : option string) (b : string) : string := match a with Some t => if nonempty t then t else b | None => b end.

Definition errorText {F} (err : ApiError F) : string := orText (errDetail err) (orText (errMessage err) "The action failed.").

Definition showActionError {F} (err : ApiError F) (s : Users) : Users := setActionError (Some (errorText err)) s.

Definition isMe (s : Users) (id : string) : bool := match me s with Some m => nonempty m && eqs id m | None => false end.

Definition nameOf (s : Users) (id : Z) : option string := roleName <$> find (λ r, bool_decide (roleId r = id)) (roles s).

(** ** The role of a row *)

Definition userRoleId (u : Member) : Z := match memberRole u with Some r => roleId r | None => 0 end.

Definition currentRoleId (s : Users) (u : Member) : Z := default (userRoleId u) (roleDrafts s !! memberId u).

Definition currentRoleName (s : Users) (u : Member) : string :=
  match nameOf s (currentRoleId s u) with Some n => n | None => default "unknown" (roleName <$> memberRole u) end.

Definition roleReasonText (r : RoleReason) : string :=
  match r with not_found => "no such account" | self => "your own account" | roleFailed => "the change failed, the audit log says why" end.

Definition bulkRoleFailureText (total : nat) (l : list BulkRoleFailure) : string :=
  let accounts := join ", " ((λ f, orText (roleEmail f) (user_id f) +:+ " (" +:+ roleReasonText (roleReason f) +:+ ")") <$> l) in
  pretty (Z.of_nat total - Z.of_nat (length l)) +:+ " of " +:+ pretty total +:+ " accounts changed. Not changed: " +:+ accounts.

(** ** Pending accounts *)

Definition isPending (u : Member) : bool := match memberRole u with Some r => eqs (toLowerCase (roleName r)) "pending" | None => false end.

Definition pendingRows (s : Users) : list Member := filterb isPending (rows s).

Definition toggleId (id : string) (ids : list string) : list string :=
  if bool_decide (id ∈ ids) then filterb (λ x, negb (bool_decide (x = id))) ids else setAdd id ids.

Definition toggleAllPending (s : Users) : Users :=
  setPending (pendingModalOpen s) (if bool_decide (length (pendingSelectedIds s) = length (pendingRows s)) then []
                                   else foldl (λ ids u, setAdd (memberId u) ids) [] (pendingRows s)) s.

(** ** The edit of an account *)

(** What is sent of an edit. *)
Record Payload := { pName : option string; pTeam : option string; pRole : option Z }.

Definition payloadOf (u : Member) (d : Draft) : Payload :=
  {| pName := if eqs (trim (dName d)) (memberName u) then None else Some (trim (dName d));
     pTeam := if eqs (dTeam d) (default "" (memberTeam u)) then None else Some (dTeam d);
     pRole := if bool_decide (dRole d = userRoleId u) then None else Some (dRole d) |}.

Definition noPayload (p : Payload) : bool := match p with {| pName := None; pTeam := None; pRole := None |} => true | _ => false end.

Definition draftOf (u : Member) : Draft := {| dName := memberName u; dTeam := default "" (memberTeam u); dRole := userRoleId u |}.

(** The row of the open window. *)
Definition detailRow (s : Users) : option Member :=
  match detailUserId s with Some id => if nonempty id then find (λ u, eqs (memberId u) id) (rows s) else None | None => None end.

(** ** Requests and events *)

Inductive Request :=
  | UpdateRole (userId : string) (roleId : Z)
  | BulkUpdateRole (userIds : list string) (roleId : Z)
  | UpdateUser (userId : string) (payload : Payload)
  | BulkCreate (users : list BulkCsvUser).

Inductive Event :=
  | Loads (l : list Member)
  | ChoosesRole (u : Member) (role : Role)
  | RoleSaved (userId : string) (roleId : Z)
  | RoleRefused (userId : string) (err : ApiError BulkRoleFailure)
  | OpensPending | ClosesPending
  | TogglesPending (id : string) | TogglesAllPending
  | Approves (level : string)
  | BulkRoleAnswered (userIds : list string) (answer : BulkRoleAnswer)
  | BulkRoleRefused (userIds : list string) (err : ApiError BulkRoleFailure)
  | OpensDetail (u : Member) | ClosesDetail | Edits | CancelsEdit
  | Writes (d : Draft)
  | Saves
  | UserSaved (userId : string) (payload : Payload)
  | UserRefused (detail error message : option string)
  | OpensUpload
  | Uploads (text : string)
  | Uploaded (p : ParsedBulkCsv) (answer : BulkCreateAnswer)
  | UploadRefused (p : ParsedBulkCsv) (err : ApiError BulkCreateFailure).


(** ** The handlers *)

(** A role chosen in a row's menu. *)
Definition chooseRole (u : Member) (role : Role) (s : Users) : Users * option Request :=
  if bool_decide (roleId role = currentRoleId s u) then (s, None)
  else (setActionError None (setRoleDrafts (insert (memberId u) (roleId role)) s), Some (UpdateRole (memberId u) (roleId role))).

(** [updateRoleMutation]. *)
Definition roleSaved (userId : string) (id : Z) (s : Users) : Users :=
  if isMe s userId && negb (bool_decide (nameOf s id = Some "admin")) then setReauth s else s.
Definition roleRefused (userId : string) (err : ApiError BulkRoleFailure) (s : Users) : Users :=
  setRoleDrafts (delete userId) (showActionError err s).

Definition openPending (s : Users) : Users := if bool_decide (pendingRows s = []) then s else setPending true [] s.

Definition togglePendingSelect (id : string) (s : Users) : Users := setPending (pendingModalOpen s) (toggleId id (pendingSelectedIds s)) s.

Definition handlePendingBulkApprove (level : string) (s : Users) : Users * option Request :=
  if bool_decide (pendingSelectedIds s = []) then (s, None)
  else match find (λ r, eqs (roleName r) level) (roles s) with
  | None => (s, None)
  | Some r => (setActionError None s, Some (BulkUpdateRole (pendingSelectedIds s) (roleId r)))
  end.

(** [bulkUpdateRoleMutation]. *)
Definition bulkRoleAnswered (userIds : list string) (answer : BulkRoleAnswer) (s : Users) : Users :=
  let failed := notUpdated answer in
  if bool_decide (failed ≠ []) then
    setPending (pendingModalOpen s) (foldl (λ ids f, setAdd (user_id f) ids) [] (filterb (λ f, bool_decide (roleReason f = roleFailed)) failed))
      (setActionError (Some (bulkRoleFailureText (length userIds) failed)) s)
  else setPending false [] s.
Definition bulkRoleRefused (userIds : list string) (err : ApiError BulkRoleFailure) (s : Users) : Users :=
  let failed := bulkRoleFailures err in
  if bool_decide (failed ≠ []) then setActionError (Some (bulkRoleFailureText (length userIds) failed)) s else showActionError err s.

Definition openDetail (u : Member) (s : Users) : Users := setDetail (Some (memberId u)) false (draftOf u) None s.
Definition closeDetail (s : Users) : Users := setDetail None false (detailDraft s) None s.

(** The Edit, Cancel and Save buttons of the window. *)
Definition editDetail (s : Users) : Users := setDetail (detailUserId s) true (detailDraft s) None s.
Definition cancelEdit (s : Users) : Users := match detailRow s with Some u => setDetail (detailUserId s) false (draftOf u) None s | None => s end.
Definition saveEdit (s : Users) : Users * option Request :=
  match detailRow s with
  | None => (s, None)
  | Some u =>
      if negb (detailEditing s) || negb (nonempty (trim (dName (detailDraft s)))) then (s, None)
      else let payload := payloadOf u (detailDraft s) in
      if noPayload payload then (setDetail (detailUserId s) false (detailDraft s) (detailError s) s, None)
      else (s, Some (UpdateUser (memberId u) payload))
  end.

(** [updateUserMutation]. *)
Definition userSaved (userId : string) (payload : Payload) (s : Users) : Users :=
  let newRoleName := match pRole payload with Some r => nameOf s r | None => None end in
  if isMe s userId && match newRoleName with Some n => nonempty n && negb (eqs n "admin") | None => false end
  then setDetail None false (detailDraft s) (detailError s) (setReauth s)
  else setDetail (detailUserId s) false (detailDraft s) None s.
Definition userRefused (detail error message : option string) (s : Users) : Users :=
  setDetail (detailUserId s) (detailEditing s) (detailDraft s) (Some (orText detail (orText error (orText message "Failed to update user")))) s.

Definition handleFileUpload (text : string) (s : Users) : Users * option Request :=
  if negb (nonempty text) then (s, None)
  else let p := parseBulkCsv text (roles s) in
  if bool_decide (users p ≠ []) then (s, Some (BulkCreate (users p)))
  else if bool_decide (failed p ≠ []) then
    (setUploadResult (Some {| madeMembers := []; refusedRows := failed p; uploadTotal := length (failed p); uploadError := None |}) s, None)
  else (s, None).

(** [bulkCreateMutation]. *)
Definition bulkCreated (p : ParsedBulkCsv) (answer : BulkCreateAnswer) (s : Users) : Users :=
  setUploadResult (Some {| madeMembers := created answer; refusedRows := (failed p ++ leftOut answer)%list;
                           uploadTotal := length (users p) + length (failed p); uploadError := None |}) s.
Definition bulkCreateRefused (p : ParsedBulkCsv) (err : ApiError BulkCreateFailure) (s : Users) : Users :=
  let out := bulkCreateFailures err in
  setUploadResult (Some {| madeMembers := []; refusedRows := (failed p ++ out)%list; uploadTotal := length (users p) + length (failed p);
                           uploadError := if bool_decide (out ≠ []) then None else Some (errorText err) |}) s.

(** The state after an event, and what it sends.  The check boxes and buttons of the
    pending window are on screen with its rows. *)
Definition step (s : Users) (e : Event) : Users * option Request :=
  match e with
  | Loads l => (setRows l s, None)
  | ChoosesRole u role => chooseRole u role s
  | RoleSaved userId id => (roleSaved userId id s, None)
  | RoleRefused userId err => (roleRefused userId err s, None)
  | OpensPending => (openPending s, None)
  | ClosesPending => (setPending false (pendingSelectedIds s) s, None)
  | TogglesPending id => (if pendingModalOpen s && some (λ u, eqs (memberId u) id) (pendingRows s) then togglePendingSelect id s else s, None)
  | TogglesAllPending => (if pendingModalOpen s && negb (bool_decide (pendingRows s = [])) then toggleAllPending s else s, None)
  | Approves level => if negb (pendingModalOpen s) || bool_decide (pendingRows s = []) then (s, None) else handlePendingBulkApprove level s
  | BulkRoleAnswered userIds answer => (bulkRoleAnswered userIds answer s, None)
  | BulkRoleRefused userIds err => (bulkRoleRefused userIds err s, None)
  | OpensDetail u => (openDetail u s, None)
  | ClosesDetail => (closeDetail s, None)
  | Edits => (editDetail s, None)
  | CancelsEdit => (cancelEdit s, None)
  | Writes d => (setDetail (detailUserId s) (detailEditing s) d (detailError s) s, None)
  | Saves => saveEdit s
  | UserSaved userId payload => (userSaved userId payload s, None)
  | UserRefused detail error message => (userRefused detail error message s, None)
  | OpensUpload => (setUploadResult None s, None)
  | Uploads text => handleFileUpload text s
  | Uploaded p answer => (bulkCreated p answer s, None)
  | UploadRefused p err => (bulkCreateRefused p err s, None)
  end.

(** Unfolds the handler of an event. *)
Ltac handled := cbn [step] in *; unfold chooseRole, roleSaved, roleRefused, openPending, togglePendingSelect, handlePendingBulkApprove, bulkRoleAnswered, bulkRoleRefused,
  openDetail, closeDetail, editDetail, cancelEdit, saveEdit, userSaved, userRefused, handleFileUpload, bulkCreated, bulkCreateRefused, toggleAllPending, showActionError in *.

Definition run (s : Users) (es : list Event) : Users := foldl (λ s e, (step s e).1) s es.

(** What a handler sends. *)
Definition sent (s : Users) (e : Event) : option Request := (step s e).2.

Definition newUsers (l : list Member) (rs : list Role) (m : option string) : Users :=
  {| rows := l; roles := rs; me := m; roleDrafts := ∅; actionError := None; reauthModalOpen := false; pendingModalOpen := false; pendingSelectedIds := [];
     detailUserId := None; detailEditing := false; detailDraft := {| dName := ""; dTeam := ""; dRole := 0 |}; detailError := None; bulkUploadResult := None |}.

(** ** The table's pages and order *)

Lemma compareMembers_units k up a b :
  compareMembers k up a b = if up then byUnits (getValue k a) (getValue k b) else - byUnits (getValue k a) (getValue k b).
Proof. unfold compareMembers, byUnits. cbv zeta. destruct up; by repeat case_match. Qed.

Lemma compareMembers_consistent k up : Consistent (compareMembers k up).
Proof.
  pose proof byUnits_consistent as C. split.
  - intros a b. rewrite !compareMembers_units. pose proof (cmp_flip C (getValue k a) (getValue k b)) as E. destruct up; [done|]. rewrite !Z.sgn_opp. lia.
  - intros a b c. rewrite !compareMembers_units. destruct up; [apply (cmp_trans C)|]. intros H1 H2.
    assert (∀ x y, - byUnits x y ≤ 0 ↔ byUnits y x ≤ 0) as Hf by (intros x y; pose proof (cmp_flip C x y); destruct (byUnits x y), (byUnits y x); cbn in *; lia).
    rewrite !Hf in *. by eapply (cmp_trans C).
Qed.

Lemma sortedRows_permutation l t : sortedRows l t ≡ₚ l.
Proof. unfold sortedRows. destruct (sortKey t); [apply sortBy_permutation|done]. Qed.

Lemma elem_filteredRows l t u : u ∈ filteredRows l t ↔ u ∈ l ∧ (query t = "" ∨ found (query t) u = true).
Proof.
  unfold filteredRows. destruct (nonempty (query t)) eqn:E.
  - apply nonempty_true in E. rewrite elem_of_filterb, sortedRows_permutation. naive_solver.
  - assert (query t = "") as -> by (destruct (query t); done). rewrite sortedRows_permutation. naive_solver.
Qed.

Lemma pagedRows_some l t : 1 ≤ page t → filteredRows l t ≠ [] → pagedRows l t ≠ [].
Proof.
  intros Hp Hf E. apply (f_equal length) in E. unfold pagedRows, paged in E. rewrite length_take, length_drop in E. cbn in E.
  destruct (totalPages_bounds (length (filteredRows l t)) USERS_PAGE_SIZE ltac:(done)) as (H1 & H2 & H3).
  unfold currentPage, pageCount, USERS_PAGE_SIZE in *. assert (0 < Z.of_nat (length (filteredRows l t))) by (destruct (filteredRows l t); [done|cbn; lia]).
  destruct H3; nia.
Qed.

(** A page asked for by the buttons. *)
Definition buttons (e : TableEvent) : Prop := match e with Turns n => 1 ≤ n | _ => True end.

Lemma table_page t es : 1 ≤ page t → Forall buttons es → 1 ≤ page (foldl tableStep t es).
Proof.
  revert t. induction es as [|e es IH]; [done|]. intros t Ht [He Hes]%Forall_cons. cbn. apply IH; [|done]. destruct e; cbn; [lia|done|].
  unfold handleSort. by repeat case_match.
Qed.

(** ** Shared lemmas *)

Definition aboutRow (id : string) (e : Event) : Prop :=
  match e with ChoosesRole u _ => memberId u = id | RoleRefused id' _ => id' = id | _ => False end.

Lemma roleDrafts_step s e id : ¬ aboutRow id e → roleDrafts (step s e).1 !! id = roleDrafts s !! id.
Proof.
  intros H. destruct e; handled; repeat case_match; cbn in *; try done.
  - by rewrite lookup_insert_ne.
  - rewrite lookup_delete_ne by congruence. done.
Qed.

Lemma roleDrafts_run es id : ∀ s, Forall (λ e, ¬ aboutRow id e) es → roleDrafts (run s es) !! id = roleDrafts s !! id.
Proof.
  induction es as [|e es IH]; intros s; [done|]. intros [He Hes]%Forall_cons. cbn. rewrite IH by done. by apply roleDrafts_step.
Qed.

Lemma chooses_new s u role : roleId role ≠ currentRoleId s u →
  step s (ChoosesRole u role) = (setActionError None (setRoleDrafts (insert (memberId u) (roleId role)) s), Some (UpdateRole (memberId u) (roleId role))).
Proof. intros H. handled. by rewrite bool_decide_false. Qed.

(** The pending accounts' ids. *)
Definition pendingIds (s : Users) : list string := memberId <$> pendingRows s.

(** What moves the selection away from the rows on screen. *)
Definition keepsRows (e : Event) : Prop := match e with Loads _ | BulkRoleAnswered _ _ => False | _ => True end.

Definition OfPending (s : Users) : Prop := ∀ id, id ∈ pendingSelectedIds s → id ∈ pendingIds s.

Lemma elem_toggleId id x ids : x ∈ toggleId id ids → x ∈ ids ∨ x = id.
Proof. unfold toggleId. case_bool_decide; [intros [Hx _]%elem_of_filterb; by left|by rewrite elem_setAdd]. Qed.

Lemma elem_foldl_setAdd {A} (f : A → string) x l ids : x ∈ foldl (λ ids a, setAdd (f a) ids) ids l ↔ x ∈ ids ∨ x ∈ f <$> l.
Proof.
  revert ids. induction l as [|a l IH]; intros ids; cbn; [rewrite elem_of_nil; naive_solver|]. rewrite IH, elem_setAdd, elem_of_cons. naive_solver.
Qed.

Lemma pendingIds_step s e : keepsRows e → pendingIds (step s e).1 = pendingIds s.
Proof. intros H. destruct e; handled; repeat case_match; done. Qed.

Lemma of_pending_step s e : keepsRows e → OfPending s → OfPending (step s e).1.
Proof.
  intros Hk H. unfold OfPending. rewrite pendingIds_step by done.
  destruct e; handled; repeat case_match; cbn; try done; try (by intros x Hx%elem_of_nil).
  - intros x [Hx | ->]%elem_toggleId; [by apply H|]. apply andb_true_iff in H0 as [_ (u & Hu & E%eqs_true)%some_true]. apply list_elem_of_fmap. by exists u.
  - intros x. rewrite elem_foldl_setAdd. intros [Hx%elem_of_nil|Hx]; done.
Qed.

Lemma of_pending_run es : ∀ s, OfPending s → Forall keepsRows es → OfPending (run s es).
Proof. induction es as [|e es IH]; intros s H; [done|]. intros [He Hes]%Forall_cons. cbn. apply IH; [by apply of_pending_step|done]. Qed.

Lemma approves_sends s level ids r : sent s (Approves level) = Some (BulkUpdateRole ids r) → ids = pendingSelectedIds s ∧ nameOf s r ≠ None.
Proof.
  unfold sent. handled. repeat case_match; try done. intros [= <- <-]. split; [done|]. unfold nameOf.
  destruct (find (λ r', bool_decide (roleId r' = roleId r0)) (roles s)) eqn:E; [done|]. apply find_None in E.
  match goal with H : find _ _ = Some _ |- _ => apply find_Some in H as [Hin _] end.
  eapply Forall_forall in E; [|apply Hin]. by rewrite bool_decide_true in E.
Qed.

Lemma approves_open s level r : pendingModalOpen s = true → pendingRows s ≠ [] → pendingSelectedIds s ≠ [] →
  find (λ r, eqs (roleName r) level) (roles s) = Some r → sent s (Approves level) = Some (BulkUpdateRole (pendingSelectedIds s) (roleId r)).
Proof. intros Ho Hp Hs Hr. unfold sent. handled. rewrite Ho. rewrite !bool_decide_false by done. cbn. by rewrite Hr. Qed.

Lemma setAdd_ids ids : NoDup ids → ∀ acc, NoDup (acc ++ ids)%list → foldl (λ l x, setAdd x l) acc ids = (acc ++ ids)%list.
Proof.
  induction 1 as [|x ids Hx _ IH]; intros acc Hacc; cbn; [by rewrite app_nil_r|]. unfold setAdd. rewrite bool_decide_false.
  - rewrite IH; rewrite <-(assoc_L (++)); done.
  - intros Hin. apply NoDup_app in Hacc as (_ & H & _). apply (H x Hin). left.
Qed.

Lemma detailRow_only id l u : nonempty id = true → find (λ u, eqs (memberId u) id) l = Some u → ∀ s, detailUserId s = Some id → rows s = l → detailRow s = Some u.
Proof. intros Hid Hf s Hs Hr. unfold detailRow. by rewrite Hs, Hid, Hr. Qed.

(** The server's update, as documented: the fields that are sent. *)
Definition updatedBy (p : Payload) (name team : string) (role : Z) : string * string * Z :=
  (default name (pName p), default team (pTeam p), default role (pRole p)).

(** ** Properties *)

(** Whatever is searched, sorted and turned to, the page shown is one of the
    table's and has rows when any match; the pages together are the matching accounts,
    each once, in the order of the column. *)
Theorem accounts_paged_once l es :
  let t := foldl tableStep {| search := ""; page := 1; sortKey := None; asc := true |} es in
  Forall buttons es →
  1 ≤ currentPage l t ≤ pageCount l t ∧ (filteredRows l t ≠ [] → pagedRows l t ≠ []) ∧
  concat ((λ n, paged (filteredRows l t) (Z.of_nat n) USERS_PAGE_SIZE) <$> seq 1 (Z.to_nat (pageCount l t))) = filteredRows l t ∧
  (∀ u, u ∈ filteredRows l t ↔ u ∈ l ∧ (query t = "" ∨ found (query t) u = true)) ∧
  ∀ k, sortKey t = Some k → StronglySorted (λ a b, compareMembers k (asc t) a b ≤ 0) (sortedRows l t).
Proof.
  intros t Hes. assert (1 ≤ page t) as Hp by (by apply table_page).
  destruct (totalPages_bounds (length (filteredRows l t)) USERS_PAGE_SIZE ltac:(done)) as (H1 & H2 & _). fold (pageCount l t) in H1, H2. split_and!.
  - unfold currentPage. lia.
  - unfold currentPage. lia.
  - by apply pagedRows_some.
  - rewrite paged_upto by done. apply take_ge. unfold USERS_PAGE_SIZE in *. lia.
  - apply elem_filteredRows.
  - intros k Hk. unfold sortedRows. rewrite Hk. apply sortBy_sorted, compareMembers_consistent.
Qed.

(** A row shows the role chosen in it while the change is on its way; when the
    server refuses, it shows the account's own role again, and why. *)
Theorem refused_role_undone s u role err :
  roleId role ≠ currentRoleId s u →
  let s1 := (step s (ChoosesRole u role)).1 in let s2 := (step s1 (RoleRefused (memberId u) err)).1 in
  sent s (ChoosesRole u role) = Some (UpdateRole (memberId u) (roleId role)) ∧ currentRoleId s1 u = roleId role ∧
  currentRoleId s2 u = userRoleId u ∧ actionError s2 = Some (errorText err) ∧
  ∀ v, memberId v ≠ memberId u → currentRoleId s2 v = currentRoleId s v.
Proof.
  intros Hr s1 s2. unfold s2, s1, sent. rewrite chooses_new by done. unfold currentRoleId. cbn. rewrite lookup_insert_eq, lookup_delete_eq. split_and!; try done.
  intros v Hv. by rewrite lookup_delete_ne, lookup_insert_ne by done.
Qed.

(** The choice stays after the server took it: whatever role the account is given
    elsewhere since, its row shows the old choice, and choosing that role sends nothing. *)
Theorem saved_role_outlives_change s u role es v :
  roleId role ≠ currentRoleId s u → Forall (λ e, ¬ aboutRow (memberId u) e) es → memberId v = memberId u →
  let s' := run (step s (ChoosesRole u role)).1 (RoleSaved (memberId u) (roleId role) :: es) in
  currentRoleId s' v = roleId role ∧ sent s' (ChoosesRole v role) = None.
Proof.
  intros Hr Hes Hv s'. assert (currentRoleId s' v = roleId role) as E.
  { unfold currentRoleId, s'. rewrite Hv, roleDrafts_run by (by apply Forall_cons_2; [intros []|]). rewrite chooses_new by done. cbn. by rewrite lookup_insert_eq. }
  split; [done|]. unfold sent. handled. by rewrite E, bool_decide_true.
Qed.

(** As long as the rows stay, an approval sends accounts that are pending, and a
    role the server has. *)
Theorem approvals_are_pending l rs m es level ids r :
  let s := run (newUsers l rs m) es in
  Forall keepsRows es → sent s (Approves level) = Some (BulkUpdateRole ids r) →
  (∀ id, id ∈ ids → ∃ u, u ∈ rows s ∧ memberId u = id ∧ isPending u = true) ∧ nameOf s r ≠ None.
Proof.
  intros s Hes Hs. apply approves_sends in Hs as [-> Hr]. split; [|done]. intros id Hid.
  assert (OfPending s) as H by (apply of_pending_run; [by intros x Hx%elem_of_nil|done]). apply H, list_elem_of_fmap in Hid as (u & -> & [Hu Hp]%elem_of_filterb).
  by exists u.
Qed.

(** A selection is not read again when the rows are: an account that is no longer
    pending, made an administrator since, say, is sent with the others and set to the
    level chosen for them. *)
Theorem stale_selection_approved s l id u level r :
  pendingModalOpen s = true → id ∈ pendingSelectedIds s → u ∈ l → memberId u = id → isPending u = false →
  filterb isPending l ≠ [] → find (λ r, eqs (roleName r) level) (roles s) = Some r →
  ∃ ids, sent (step s (Loads l)).1 (Approves level) = Some (BulkUpdateRole ids (roleId r)) ∧ id ∈ ids.
Proof.
  intros Ho Hid _ _ _ Hl Hr. exists (pendingSelectedIds (step s (Loads l)).1). split; [|done]. apply approves_open; try done. cbn. intros E. rewrite E in Hid. by apply elem_of_nil in Hid.
Qed.

(** After a bulk approval the window closes with nothing selected when everyone
    changed; else it stays with its error, and the next approval sends exactly the
    accounts whose change failed. *)
Theorem next_approval_retries_failed s userIds answer level r :
  pendingModalOpen s = true → pendingRows s ≠ [] → NoDup (user_id <$> notUpdated answer) → find (λ r, eqs (roleName r) level) (roles s) = Some r →
  let s' := (step s (BulkRoleAnswered userIds answer)).1 in
  let again := user_id <$> filterb (λ f, bool_decide (roleReason f = roleFailed)) (notUpdated answer) in
  (notUpdated answer = [] → pendingModalOpen s' = false ∧ pendingSelectedIds s' = [] ∧ actionError s' = actionError s) ∧
  (notUpdated answer ≠ [] →
    pendingModalOpen s' = true ∧ actionError s' = Some (bulkRoleFailureText (length userIds) (notUpdated answer)) ∧
    sent s' (Approves level) = if bool_decide (again = []) then None else Some (BulkUpdateRole again (roleId r))).
Proof.
  intros Ho Hp Hnd Hr s' again. split; intros Hf; unfold s'; cbn [step]; unfold bulkRoleAnswered; cbv zeta; [by rewrite Hf|]. rewrite bool_decide_true by done. cbn [fst]. split_and!; [done..|].
  assert (foldl (λ ids f, setAdd (user_id f) ids) [] (filterb (λ f, bool_decide (roleReason f = roleFailed)) (notUpdated answer)) = again) as ->.
  { assert (NoDup again) as Hn.
    { unfold again, filterb. clear -Hnd. induction (notUpdated answer) as [|f fs IH]; [done|]. cbn in *. apply NoDup_cons in Hnd as [Hx Hnd].
      destruct (bool_decide _); [|by apply IH]. cbn. apply NoDup_cons. split; [|by apply IH]. intros (g & E & [Hg _]%elem_of_filterb)%list_elem_of_fmap.
      apply Hx. rewrite E. by apply list_elem_of_fmap_2. }
    rewrite <-(app_nil_l again), <-setAdd_ids by done. unfold again. generalize (@nil string). clear.
    induction (filterb _ _) as [|f fs IH]; intros acc; [done|]. cbn. apply IH. }
  case_bool_decide as E; [|by apply approves_open]. unfold sent. handled. rewrite E. cbn. destruct (pendingModalOpen s); [|done]. cbn. by case_bool_decide.
Qed.

(** What is saved of an edit is what differs from the row: the account the server
    then has is the one in the form, its name trimmed, and an edit that changes nothing
    sends nothing. *)
Theorem edit_sends_difference s u :
  detailRow s = Some u → detailEditing s = true → trim (dName (detailDraft s)) ≠ "" →
  let d := detailDraft s in
  match sent s Saves with
  | None => (memberName u, default "" (memberTeam u), userRoleId u) = (trim (dName d), dTeam d, dRole d) ∧ detailEditing (step s Saves).1 = false
  | Some q => ∃ p, q = UpdateUser (memberId u) p ∧ (step s Saves).1 = s ∧ noPayload p = false ∧
      updatedBy p (memberName u) (default "" (memberTeam u)) (userRoleId u) = (trim (dName d), dTeam d, dRole d)
  end.
Proof.
  intros Hu He Hn d. unfold sent. handled. rewrite Hu, He. rewrite (proj2 (nonempty_true _) Hn). cbn [negb orb].
  assert (updatedBy (payloadOf u d) (memberName u) (default "" (memberTeam u)) (userRoleId u) = (trim (dName d), dTeam d, dRole d)) as E.
  { unfold updatedBy, payloadOf. cbn. destruct (eqs (trim (dName d)) _) eqn:E1; destruct (eqs (dTeam d) _) eqn:E2; case_bool_decide as E3;
      rewrite ?eqs_true in E1; rewrite ?eqs_true in E2; cbn; by rewrite ?E1, ?E2, ?E3. }
  fold d. destruct (noPayload (payloadOf u d)) eqn:Ep; cbn [fst snd]; [|by exists (payloadOf u d)]. split; [|done]. rewrite <-E. unfold updatedBy, noPayload in *.
  by destruct (payloadOf u d) as [[] [] []].
Qed.

(** The form keeps what it was opened on: when the account is given another role
    while its window is open, an edit of its name alone sends the role back. *)
Theorem stale_draft_reverts_role s u u' l newName :
  memberId u ≠ "" → find (λ v, eqs (memberId v) (memberId u)) l = Some u' → userRoleId u' ≠ userRoleId u → trim newName ≠ "" →
  let opened := run s [OpensDetail u; Loads l; Edits] in
  let s' := run opened [Writes {| dName := newName; dTeam := dTeam (detailDraft opened); dRole := dRole (detailDraft opened) |}] in
  ∃ p, sent s' Saves = Some (UpdateUser (memberId u) p) ∧ pRole p = Some (userRoleId u).
Proof.
  intros Hid Hf Hr Hn opened s'. assert (detailRow s' = Some u') as Hd by (apply (detailRow_only (memberId u) l); [by apply nonempty_true|done..]).
  assert (memberId u' = memberId u) as Eid by (apply find_Some in Hf as [_ Hf]; by apply eqs_true in Hf).
  unfold sent. handled. rewrite Hd. change (detailEditing s') with true. change (dName (detailDraft s')) with newName.
  rewrite (proj2 (nonempty_true _) Hn). cbn [negb orb]. assert (pRole (payloadOf u' (detailDraft s')) = Some (userRoleId u)) as Ep.
  { unfold payloadOf. cbn. by rewrite bool_decide_false by done. }
  exists (payloadOf u' (detailDraft s')). split; [|done]. rewrite Eid. unfold noPayload. destruct (payloadOf u' (detailDraft s')) as [[] [] []]; done.
Qed.

(** C33. Every row of an uploaded file is accounted for: when the server answers for the
    accounts it was sent, the accounts made and the rows refused are the file's, and the
    total is their number; a call refused as a whole says why. *)
Theorem upload_accounts_for_rows s text :
  text ≠ "" →
  let p := parseBulkCsv text (roles s) in
  match sent s (Uploads text) with
  | Some q => q = BulkCreate (users p) ∧
      (∀ answer, (default "" ∘ memberEmail <$> created answer) ++ (failedEmail <$> leftOut answer) ≡ₚ email <$> users p →
        ∃ r, bulkUploadResult (step s (Uploaded p answer)).1 = Some r ∧
          (default "" ∘ memberEmail <$> madeMembers r) ++ (failedEmail <$> refusedRows r) ≡ₚ rowEmail <$> rowsOf text ∧ uploadTotal r = length (rowsOf text)) ∧
      (∀ err, ∃ r, bulkUploadResult (step s (UploadRefused p err)).1 = Some r ∧ madeMembers r = [] ∧
        (errFailed err = None → uploadError r = Some (errorText err) ∧ errorText err ≠ "") ∧
        (∀ f, errFailed err = Some f → failedEmail <$> f ≡ₚ email <$> users p → f ≠ [] →
          uploadError r = None ∧ failedEmail <$> refusedRows r ≡ₚ rowEmail <$> rowsOf text))
  | None => rowsOf text = [] ∨ ∃ r, bulkUploadResult (step s (Uploads text)).1 = Some r ∧ failedEmail <$> refusedRows r ≡ₚ rowEmail <$> rowsOf text
  end.
Proof.
  intros Ht p. pose proof (parse_accounts text (roles s)) as Hp. fold p in Hp. unfold accounted in Hp.
  assert (length (users p) + length (failed p) = length (rowsOf text))%nat as Hlen by (apply Permutation_length in Hp; by rewrite length_app, !length_fmap in Hp).
  unfold sent. handled. rewrite (proj2 (nonempty_true _) Ht). cbn [negb]. fold p. case_bool_decide as Hu; cbn [snd fst].
  - split; [done|]. split.
    + intros answer Ha. eexists. split; [done|]. cbn. split; [|done]. rewrite fmap_app, <-Hp, <-Ha. solve_Permutation.
    + intros err. eexists. split; [done|]. cbn. split; [done|]. split.
      * intros E. unfold bulkCreateFailures. rewrite E. cbn. split; [done|]. unfold errorText, orText. repeat case_match; try done; by apply nonempty_true.
      * intros f E Hf Hne. unfold bulkCreateFailures. rewrite E. cbn. rewrite bool_decide_true by done. split; [done|]. rewrite fmap_app, Hf, <-Hp. solve_Permutation.
  - assert (users p = []) as Eu by (destruct (users p); [done|by destruct Hu]). rewrite Eu in Hp. case_bool_decide as Hf; cbn [snd fst]; [right; by eexists|left].
    assert (failed p = []) as Ef by (destruct (failed p); [done|by destruct Hf]). rewrite Eu, Ef in Hlen. by destruct (rowsOf text).
Qed.

(** ** Witnesses *)

Definition pendingRole : Role := {| roleId := 1; roleName := "Pending" |}.
Definition memberRole_ : Role := {| roleId := 2; roleName := "Member" |}.
Definition adminRole : Role := {| roleId := 5; roleName := "Admin" |}.

Definition account (id nm : string) (r : Role) : Member :=
  {| memberId := id; memberName := nm; memberEmail := Some (nm +:+ "@example.com"); memberTeam := None; memberRole := Some r |}.

Definition ann := account "1" "ann" pendingRole.
Definition bob := account "2" "bob" pendingRole.
Definition eve := account "3" "eve" memberRole_.
Definition sampleUsers : Users := newUsers [ann; bob; eve] seeded (Some "9").

(** Both pending accounts are selected. *)
Definition selectedBoth : Users := run sampleUsers [OpensPending; TogglesAllPending].

Lemma accounts_paged_once_witness :
  let t := foldl tableStep {| search := ""; page := 1; sortKey := None; asc := true |} [Turns 4; ClicksHeader byName; ClicksHeader byName] in
  currentPage [ann; bob; eve] t = 1 ∧ 1 ≤ currentPage [ann; bob; eve] t ≤ pageCount [ann; bob; eve] t ∧ pagedRows [ann; bob; eve] t = [eve; bob; ann].
Proof.
  intros t. split; [by vm_compute|]. split; [|by vm_compute].
  apply (accounts_paged_once [ann; bob; eve] [Turns 4; ClicksHeader byName; ClicksHeader byName]). by repeat constructor.
Defined.

Lemma refused_role_undone_witness :
  let err := {| errFailed := None; errDetail := Some "not yours"; errMessage := None |} in
  let s2 := run sampleUsers [ChoosesRole eve adminRole; RoleRefused "3" err] in
  currentRoleId s2 eve = 2 ∧ actionError s2 = Some "not yours".
Proof.
  intros err s2. destruct (refused_role_undone sampleUsers eve adminRole err ltac:(by vm_compute)) as (_ & _ & H & H' & _). split; [apply H|apply H'].
Defined.

(** Set to Pending in the row and approved in the window, the row still says Pending. *)
Lemma saved_role_outlives_change_witness :
  let s := run sampleUsers [ChoosesRole eve pendingRole; RoleSaved "3" 1; Loads [ann; bob; account "3" "eve" memberRole_]] in
  currentRoleId s (account "3" "eve" memberRole_) = 1 ∧ sent s (ChoosesRole (account "3" "eve" memberRole_) pendingRole) = None.
Proof.
  apply (saved_role_outlives_change sampleUsers eve pendingRole [Loads [ann; bob; account "3" "eve" memberRole_]]); [by vm_compute| |done].
  by apply Forall_cons_2; [intros []|].
Defined.

Lemma approvals_are_pending_witness :
  let s := run sampleUsers [OpensPending; TogglesPending "2"] in
  sent s (Approves "Member") = Some (BulkUpdateRole ["2"] 2) ∧ ∃ u, u ∈ rows s ∧ memberId u = "2" ∧ isPending u = true.
Proof.
  intros s. assert (sent s (Approves "Member") = Some (BulkUpdateRole ["2"] 2)) as E by by vm_compute. split; [done|].
  apply (proj1 (approvals_are_pending [ann; bob; eve] seeded (Some "9") [OpensPending; TogglesPending "2"] "Member" ["2"] 2 ltac:(by repeat constructor) E)). left.
Defined.

(** The second was made an administrator meanwhile, and is set to Member. *)
Lemma stale_selection_approved_witness :
  ∃ ids, sent (step selectedBoth (Loads [ann; account "2" "bob" adminRole; eve])).1 (Approves "Member") = Some (BulkUpdateRole ids 2) ∧ "2" ∈ ids.
Proof.
  apply (stale_selection_approved selectedBoth [ann; account "2" "bob" adminRole; eve] "2" (account "2" "bob" adminRole) "Member" memberRole_); try done.
  - vm_compute. by right; left.
  - by right; left.
Defined.

Lemma next_approval_retries_failed_witness :
  let answer := {| updated := []; notUpdated := [{| user_id := "1"; roleEmail := None; roleReason := not_found |};
                                                 {| user_id := "2"; roleEmail := None; roleReason := roleFailed |}] |} in
  sent (step selectedBoth (BulkRoleAnswered ["1"; "2"] answer)).1 (Approves "Admin") = Some (BulkUpdateRole ["2"] 5).
Proof.
  intros answer. apply (proj2 (next_approval_retries_failed selectedBoth ["1"; "2"] answer "Admin" adminRole
    ltac:(by vm_compute) ltac:(by vm_compute) ltac:(vm_compute; repeat constructor; set_solver) ltac:(by vm_compute))). done.
Defined.

Lemma edit_sends_difference_witness :
  let s := run sampleUsers [OpensDetail eve; Edits; Writes {| dName := " Eve "; dTeam := ""; dRole := 2 |}] in
  sent s Saves = Some (UpdateUser "3" {| pName := Some "Eve"; pTeam := None; pRole := None |}) ∧ (step s Saves).1 = s.
Proof.
  intros s. split; [by vm_compute|].
  pose proof (edit_sends_difference s eve ltac:(by vm_compute) ltac:(by vm_compute) ltac:(by vm_compute)) as H.
  change (sent s Saves) with (Some (UpdateUser "3" {| pName := Some "Eve"; pTeam := None; pRole := None |})) in H. by destruct H as (p & _ & H & _).
Defined.

(** Made an administrator while the window was open, renamed, and a member again. *)
Lemma stale_draft_reverts_role_witness :
  let s' := run sampleUsers [OpensDetail eve; Loads [ann; bob; account "3" "eve" adminRole]; Edits; Writes {| dName := "Eve"; dTeam := ""; dRole := 2 |}] in
  ∃ p, sent s' Saves = Some (UpdateUser "3" p) ∧ pRole p = Some 2.
Proof.
  apply (stale_draft_reverts_role sampleUsers eve (account "3" "eve" adminRole) [ann; bob; account "3" "eve" adminRole] "Eve"); done.
Defined.

Definition sampleCsv : string := "name,email,password,role,team" +:+ String newline "Ann,ann@example.com,pw1,Admin," +:+ String newline "Odd,odd@example.com,pw2,Owner,".

Lemma upload_accounts_for_rows_witness :
  let p := parseBulkCsv sampleCsv seeded in
  let answer := {| created := [account "7" "ann" adminRole]; leftOut := [] |} in
  ∃ r, bulkUploadResult (step sampleUsers (Uploaded p answer)).1 = Some r ∧
    (default "" ∘ memberEmail <$> madeMembers r) ++ (failedEmail <$> refusedRows r) ≡ₚ rowEmail <$> rowsOf sampleCsv ∧ uploadTotal r = length (rowsOf sampleCsv).
Proof.
  intros p answer. pose proof (upload_accounts_for_rows sampleUsers sampleCsv ltac:(done)) as H.
  change (sent sampleUsers (Uploads sampleCsv)) with (Some (BulkCreate (users p))) in H. destruct H as (_ & H & _). by apply H.
Defined.
