(* ===== verification/ModelForm.v ===== *)
(** * The form of an AI model

    constants/modelCatalog.ts, pages/admin-ai-models/helpers.ts and useModelForm.ts: the
    catalog of providers, the list of models a form offers, the limits kept in a model's
    options, and the form itself, opened on a new or a saved model, submitted, tested.

    What a provider shows besides (icons, placeholders, hints) is left out.
    [JSON.parse] ([None] is the SyntaxError) and [JSON.stringify] are arguments. *)

From S2P Require Import Prelude JsString OrderedMap Json.

#[local] Open Scope string_scope.
#[local] Open Scope Z_scope.

(** ** The catalog *)

Record ModelDef := { mName : string; mLabel : option string; note : option string; functionCalling : bool }.
Record ProviderDef := {
  id : string; label : string; needsApiKey : bool; needsBaseUrl : bool; defaultBaseUrl : option string; defaultApiKeyEnv : string; models : list ModelDef
}.

Definition model (n : string) (l nt : option string) (f : bool) : ModelDef := {| mName := n; mLabel := l; note := nt; functionCalling := f |}.

(** [PROVIDER_CATALOG[0]]. *)
Definition openai : ProviderDef :=
  {| id := "openai"; label := "OpenAI"; needsApiKey := true; needsBaseUrl := false; defaultBaseUrl := None; defaultApiKeyEnv := "OPENAI_API_KEY";
     models := [model "gpt-5.5" None None true;
       model "gpt-5.4" None None true;
       model "gpt-5.4-mini" None None true;
       model "gpt-5" None None true;
       model "gpt-5-mini" None None true;
       model "gpt-4o" None None true;
       model "gpt-4o-mini" None None true;
       model "o4-mini" None None true] |}.

Definition PROVIDER_CATALOG : list ProviderDef := openai :: [
  {| id := "anthropic"; label := "Anthropic"; needsApiKey := true; needsBaseUrl := false; defaultBaseUrl := None; defaultApiKeyEnv := "ANTHROPIC_API_KEY";
     models := [model "claude-sonnet-5-5" (Some "Claude Sonnet 5.5") (Some "recommended") true;
       model "claude-opus-5-5" (Some "Claude Opus 5.5") None true;
       model "claude-haiku-5-5" (Some "Claude Haiku 5.5") (Some "lowest cost") true;
       model "claude-fable-5-1" (Some "Claude Fable 5.1") (Some "most capable") true;
       model "claude-opus-5" (Some "Claude Opus 5") None true;
       model "claude-sonnet-5" (Some "Claude Sonnet 5") None true;
       model "claude-fable-5" (Some "Claude Fable 5") None true;
       model "claude-opus-4-8" (Some "Claude Opus 4.8") None true;
       model "claude-opus-4-7" (Some "Claude Opus 4.7") None true;
       model "claude-sonnet-4-6" (Some "Claude Sonnet 4.6") None true;
       model "claude-haiku-4-5" (Some "Claude Haiku 4.5") None true] |};
  {| id := "claude-code"; label := "Claude subscription"; needsApiKey := true; needsBaseUrl := false; defaultBaseUrl := None; defaultApiKeyEnv := "CLAUDE_CODE_OAUTH_TOKEN";
     models := [model "claude-sonnet-5-5" (Some "Claude Sonnet 5.5") (Some "recommended") true;
       model "claude-opus-5-5" (Some "Claude Opus 5.5") None true;
       model "claude-haiku-5-5" (Some "Claude Haiku 5.5") (Some "uses the least") true] |};
  {| id := "gemini"; label := "Google Gemini"; needsApiKey := true; needsBaseUrl := false; defaultBaseUrl := None; defaultApiKeyEnv := "GEMINI_API_KEY";
     models := [model "gemini-3.1-pro" (Some "Gemini 3.1 Pro") None true;
       model "gemini-3.5-flash" (Some "Gemini 3.5 Flash") None true;
       model "gemini-3-flash" (Some "Gemini 3 Flash") None true;
       model "gemini-3.1-flash-lite" (Some "Gemini 3.1 Flash-Lite") None true;
       model "gemini-2.5-flash" (Some "Gemini 2.5 Flash") (Some "legacy") true] |};
  {| id := "azure"; label := "Azure OpenAI"; needsApiKey := true; needsBaseUrl := true; defaultBaseUrl := None; defaultApiKeyEnv := "KUBEAST_AI_KEY_AZURE";
     models := [] |};
  {| id := "ollama"; label := "Ollama (Local)"; needsApiKey := false; needsBaseUrl := true; defaultBaseUrl := Some "http://localhost:11434"; defaultApiKeyEnv := "";
     models := [model "qwen2.5" (Some "qwen2.5") (Some "7b, tools") true;
       model "qwen2.5:14b" (Some "qwen2.5:14b") (Some "14b, tools") true;
       model "llama3.3" None None true;
       model "llama3.1" None None true;
       model "llama3.2" None None true;
       model "qwen2.5-coder" None None true;
       model "mistral-nemo" None None true;
       model "mistral" None None true;
       model "gemma2" None None false] |};
  {| id := "custom"; label := "Custom / Other"; needsApiKey := true; needsBaseUrl := true; defaultBaseUrl := None; defaultApiKeyEnv := "OPENAI_API_KEY";
     models := [] |}
].

Definition getProvider (p : string) : option ProviderDef := find (λ d, eqs (id d) p) PROVIDER_CATALOG.

Definition getDefaultModel (providerId : string) : string :=
  match getProvider providerId with Some d => match models d with m :: _ => mName m | [] => "" end | None => "" end.

Definition getModelLabel (providerId modelName : string) : string :=
  match getProvider providerId with
  | Some d => match find (λ m, eqs (mName m) modelName) (models d) with Some m => default modelName (mLabel m) | None => modelName end
  | None => modelName
  end.

(** ** What the helpers compute *)

Record Fetched := { fName : string; fLabel : option string }.

Record DropdownOption := { value_ : string; label_ : string; listHint : option string; hint : option string; testId : string }.

Definition modelOptions (provDef : ProviderDef) (fetched : list Fetched) : list DropdownOption :=
  match fetched with
  | [] => (λ m, {| value_ := mName m; label_ := default (mName m) (mLabel m); listHint := note m;
                   hint := if functionCalling m then None else Some "no tools"; testId := "model-option-" +:+ mName m |}) <$> models provDef
  | _ => (λ f, let known := find (λ m, eqs (mName m) (fName f)) (models provDef) in
      {| value_ := fName f;
         label_ := match fLabel f with Some l => l | None => match known with Some m => default (fName f) (mLabel m) | None => fName f end end;
         listHint := match fLabel f with
           | Some l => if nonempty l then None else match known with Some m => note m | None => None end
           | None => match known with Some m => note m | None => None end end;
         hint := match known with Some m => if functionCalling m then None else Some "no tools" | None => None end;
         testId := "model-option-" +:+ fName f |}) <$> fetched
  end.

(** The answer's error, or the failure's [detail] where it is a text, its message, or
    what it writes. *)
Definition modelListError (answered : option string) (failed : option (option string * option string * string)) : option string :=
  let or_ a b := match a with Some t => if nonempty t then Some t else b | None => b end in
  or_ answered (match failed with
                | None => None
                | Some (detail, message, written) => or_ detail (or_ message (Some written))
                end).

Inductive LimitKey := max_tokens | tool_result_chars.
#[global] Instance LimitKey_eq_dec : EqDecision LimitKey.
Proof. solve_decision. Defined.

Definition keyName (k : LimitKey) : string := match k with max_tokens => "max_tokens" | tool_result_chars => "tool_result_chars" end.
Definition LIMIT_RANGES (k : LimitKey) : Z * Z := match k with max_tokens => (1, 1000000) | tool_result_chars => (1000, 200000) end.
Definition limitKeys : list LimitKey := [max_tokens; tool_result_chars].

Inductive LimitsError := OfKey (k : LimitKey) | in_json.

(** The fields of an object without some keys. *)
Definition without (ks : list string) (fs : list (string * value)) : list (string * value) :=
  filterb (λ f, negb (some (λ k, eqs k f.1) ks)) fs.

Record SplitLimits := { maxTokens : string; toolResultChars : string; rest : option (list (string * value)) }.

Definition limitText (v : value) : string := if nullish v then "" else toString v.

Definition splitLimits (options : option (list (string * value))) : SplitLimits :=
  let fs := default [] options in
  let others := without ["max_tokens"; "tool_result_chars"] fs in
  {| maxTokens := limitText (field "max_tokens" fs); toolResultChars := limitText (field "tool_result_chars" fs);
     rest := if bool_decide (others = []) then None else Some others |}.

Fixpoint dropChars (P : ascii → bool) (s : string) : string :=
  match s with "" => "" | String c s' => if P c then dropChars P s' else String c (dropChars P s') end.

Inductive LimitValue := NoLimit | BadLimit | Limit (n : Z).

Definition limitValue (k : LimitKey) (text : string) : LimitValue :=
  let v := dropChars (λ c, bool_decide (c = ("," : ascii)) || bool_decide (c = ("_" : ascii)) || is_space c) text in
  if negb (nonempty v) then NoLimit
  else match digitsValue 0 v with
  | Some n => let '(lo, hi) := LIMIT_RANGES k in if (lo <=? n) && (n <=? hi) then Limit n else BadLimit
  | None => BadLimit
  end.

Definition addLimit (acc : list (string * value) + LimitsError) (kt : LimitKey * string) : list (string * value) + LimitsError :=
  match acc with
  | inr e => inr e
  | inl options =>
      match limitValue kt.1 kt.2 with
      | BadLimit => inr (OfKey kt.1)
      | Limit n => inl (setField (keyName kt.1) (VNum n) options)
      | NoLimit => inl options
      end
  end.

Definition buildOptions (rest : option (list (string * value))) (maxTokens toolResultChars : string) : option (list (string * value)) + LimitsError :=
  if match rest with Some fs => some (λ k, some (λ f, eqs (keyName k) f.1) fs) limitKeys | None => false end then inr in_json
  else match foldl addLimit (inl (default [] rest)) [(max_tokens, maxTokens); (tool_result_chars, toolResultChars)] with
  | inr e => inr e
  | inl options => inl (if bool_decide (options = []) then None else Some options)
  end.

(** ** The form *)

Inductive Tier := default_ | economy.

Record ModelConfig := {
  cfgId : Z; cfgName : string; cfgProvider : string; cfgModel : string; cfgBaseUrl : option string; cfgApiKeyEnv : option string; cfgCaCert : option string;
  cfgOptions : option (list (string * value)); cfgEnabled : bool; cfgIsDefault : bool; cfgTier : Tier
}.

(** A field of the body: absent ([undefined]), [null] or a value. *)
Abbreviation sent A := (option (option A)).

Record Payload := {
  pName : string; pProvider : string; pModel : string; pBaseUrl : sent string; pEnabled : bool; pIsDefault : bool; pTier : Tier;
  pApiKeyEnv : sent string; pCaCert : sent string; pOptions : sent (list (string * value))
}.

Record TestCall := { tProvider : string; tModel : string; tBaseUrl : option string; tApiKeyEnv : option string; tCaCert : option string }.

Inductive Request := CreateModel (p : Payload) | UpdateModel (cfg : Z) (p : Payload) | TestModel (c : TestCall).

Record TestResult := { success : bool; message : string }.

(** What the person types in. *)
Record Fields := {
  formName : string; formProvider : string; formModel : string; formCustomModel : bool; formBaseUrl : string; formApiKeyEnv : string; formEnabled : bool;
  formIsDefault : bool; formTier : Tier; formCaCert : string; formOptions : string; formMaxTokens : string; formToolResultChars : string
}.

(** [fetchedModels] is the provider's list of the form's query, empty until it is had. *)
Record Form := {
  editingId : option Z; isCreating : bool; fields : Fields; formOptionsError : option string; formLimitsError : option LimitsError;
  testing : bool; testResult : option TestResult; fetchedModels : list Fetched
}.

Definition withFields (f : Fields) (s : Form) : Form :=
  {| editingId := editingId s; isCreating := isCreating s; fields := f; formOptionsError := formOptionsError s; formLimitsError := formLimitsError s;
     testing := testing s; testResult := testResult s; fetchedModels := fetchedModels s |}.
Definition withErrors (o : option string) (l : option LimitsError) (s : Form) : Form :=
  {| editingId := editingId s; isCreating := isCreating s; fields := fields s; formOptionsError := o; formLimitsError := l; testing := testing s;
     testResult := testResult s; fetchedModels := fetchedModels s |}.
Definition withTest (busy : bool) (r : option TestResult) (s : Form) : Form :=
  {| editingId := editingId s; isCreating := isCreating s; fields := fields s; formOptionsError := formOptionsError s; formLimitsError := formLimitsError s;
     testing := busy; testResult := r; fetchedModels := fetchedModels s |}.
Definition withList (l : list Fetched) (s : Form) : Form :=
  {| editingId := editingId s; isCreating := isCreating s; fields := fields s; formOptionsError := formOptionsError s; formLimitsError := formLimitsError s;
     testing := testing s; testResult := testResult s; fetchedModels := l |}.

Definition setModel (m : string) (f : Fields) : Fields :=
  {| formName := formName f; formProvider := formProvider f; formModel := m; formCustomModel := formCustomModel f; formBaseUrl := formBaseUrl f;
     formApiKeyEnv := formApiKeyEnv f; formEnabled := formEnabled f; formIsDefault := formIsDefault f; formTier := formTier f; formCaCert := formCaCert f;
     formOptions := formOptions f; formMaxTokens := formMaxTokens f; formToolResultChars := formToolResultChars f |}.

Definition currentProviderDef (f : Fields) : ProviderDef := default openai (getProvider (formProvider f)).

Definition emptyFields : Fields :=
  {| formName := ""; formProvider := "openai"; formModel := ""; formCustomModel := false; formBaseUrl := ""; formApiKeyEnv := defaultApiKeyEnv openai;
     formEnabled := true; formIsDefault := false; formTier := default_; formCaCert := ""; formOptions := ""; formMaxTokens := ""; formToolResultChars := "" |}.

(** The effect of a new model: the first of the provider's list where the model is none of it. *)
Definition pickListed (s : Form) : Form :=
  let f := fields s in
  match fetchedModels s with
  | [] => s
  | m :: _ =>
      if isCreating s && negb (formCustomModel f) && negb (some (λ m, eqs (fName m) (formModel f)) (fetchedModels s))
      then withFields (setModel (fName m) f) s else s
  end.

(** [a || undefined], [a || null] of a text. *)
Definition orAbsent (a : string) : sent string := if nonempty a then Some (Some a) else None.
Definition orNull (a : string) : sent string := Some (if nonempty a then Some a else None).
Definition filled (a : string) : option string := if nonempty a then Some a else None.

(** A form edits a saved model. *)
Definition editing (s : Form) : option Z := match editingId s with Some n => if n =? 0 then None else Some n | None => None end.

Section form.
Context (parse : string → option value) (stringify : value → string).

Definition resetForm (l : list Fetched) (s : Form) : Form :=
  {| editingId := None; isCreating := false; fields := emptyFields; formOptionsError := None; formLimitsError := None; testing := testing s; testResult := None;
     fetchedModels := l |}.

Definition openCreateForm (l : list Fetched) (s : Form) : Form :=
  let s' := resetForm l s in
  {| editingId := editingId s'; isCreating := true; fields := fields s'; formOptionsError := formOptionsError s'; formLimitsError := formLimitsError s';
     testing := testing s'; testResult := testResult s'; fetchedModels := fetchedModels s' |}.

Definition fieldsOf (cfg : ModelConfig) : Fields :=
  let provDef := getProvider (cfgProvider cfg) in
  let isKnown := match provDef with Some d => some (λ m, eqs (mName m) (cfgModel cfg)) (models d) | None => false end in
  let limits := splitLimits (cfgOptions cfg) in
  let text o d := match o with Some t => if nonempty t then t else d | None => d end in
  {| formName := cfgName cfg; formProvider := cfgProvider cfg; formModel := cfgModel cfg; formCustomModel := negb isKnown; formBaseUrl := text (cfgBaseUrl cfg) "";
     formApiKeyEnv := text (cfgApiKeyEnv cfg) (match provDef with Some d => defaultApiKeyEnv d | None => "" end); formEnabled := cfgEnabled cfg;
     formIsDefault := cfgIsDefault cfg; formTier := cfgTier cfg; formCaCert := text (cfgCaCert cfg) "";
     formOptions := match rest limits with Some fs => stringify (VObj fs) | None => "" end;
     formMaxTokens := maxTokens limits; formToolResultChars := toolResultChars limits |}.

Definition openEditForm (cfg : ModelConfig) (l : list Fetched) (s : Form) : Form :=
  {| editingId := Some (cfgId cfg); isCreating := false; fields := fieldsOf cfg; formOptionsError := None; formLimitsError := None; testing := testing s;
     testResult := None; fetchedModels := l |}.

Definition handleProviderChange (newProvider : string) (l : list Fetched) (s : Form) : Form :=
  let f := fields s in
  let set m custom url env := {| formName := formName f; formProvider := newProvider; formModel := m; formCustomModel := custom; formBaseUrl := url;
     formApiKeyEnv := env; formEnabled := formEnabled f; formIsDefault := formIsDefault f; formTier := formTier f; formCaCert := formCaCert f;
     formOptions := formOptions f; formMaxTokens := formMaxTokens f; formToolResultChars := formToolResultChars f |} in
  withList l match getProvider newProvider with
  | Some prov => withTest (testing s) None (withFields (set (match models prov with m :: _ => mName m | [] => "" end) false (default "" (defaultBaseUrl prov)) (defaultApiKeyEnv prov)) s)
  | None => withFields (set (formModel f) (formCustomModel f) (formBaseUrl f) (formApiKeyEnv f)) s
  end.

(** The options' field: an object, nothing, or why it is neither. *)
Definition parsedOptions (raw : string) : option (list (string * value)) + string :=
  if negb (nonempty (trim raw)) then inl None
  else match parse (trim raw) with
  | None => inr "Invalid JSON"
  | Some (VObj fs) => inl (Some fs)
  | Some _ => inr ("Options must be a JSON object, e.g. {" +:+ String "034" ("temperature" +:+ String "034" ": 0.7}"))
  end.

Definition payloadOf (s : Form) (options : option (list (string * value))) : Payload :=
  let f := fields s in
  {| pName := formName f; pProvider := formProvider f; pModel := formModel f; pBaseUrl := orAbsent (formBaseUrl f); pEnabled := formEnabled f;
     pIsDefault := formIsDefault f; pTier := formTier f;
     pApiKeyEnv := if needsApiKey (currentProviderDef f) then orNull (trim (formApiKeyEnv f)) else None;
     pCaCert := if nonempty (trim (formCaCert f)) then Some (Some (trim (formCaCert f))) else match editing s with Some _ => Some None | None => None end;
     pOptions := match options with Some fs => Some (Some fs) | None => match editing s with Some _ => Some None | None => None end end |}.

Definition handleSubmit (s : Form) : Form * option Request :=
  let f := fields s in
  match parsedOptions (formOptions f) with
  | inr why => (withErrors (Some why) (formLimitsError s) s, None)
  | inl rest =>
      let s1 := withErrors (if nonempty (trim (formOptions f)) then None else formOptionsError s) (formLimitsError s) s in
      match buildOptions rest (formMaxTokens f) (formToolResultChars f) with
      | inr e => (withErrors (formOptionsError s1) (Some e) s1, None)
      | inl options =>
          let s2 := withErrors (formOptionsError s1) None s1 in
          (s2, Some match editing s with Some n => UpdateModel n (payloadOf s options) | None => CreateModel (payloadOf s options) end)
      end
  end.

Definition handleTest (s : Form) : Form * option Request :=
  let f := fields s in
  if negb (nonempty (trim (formApiKeyEnv f))) && needsApiKey (currentProviderDef f)
  then (withTest (testing s) (Some {| success := false; message := "Enter the name of the env var that holds the API key" |}) s, None)
  else (withTest true None s,
        Some (TestModel {| tProvider := formProvider f; tModel := formModel f; tBaseUrl := filled (formBaseUrl f); tApiKeyEnv := filled (trim (formApiKeyEnv f));
                           tCaCert := filled (trim (formCaCert f)) |})).

(** The answer of a test: its result, or the [detail] or message of its failure. *)
Definition tested (answer : TestResult + option string * option string) (s : Form) : Form :=
  withTest false (Some match answer with
    | inl r => r
    | inr (detail, msg) => {| success := false; message := match filled (default "" detail) with Some d => d | None => match filled (default "" msg) with Some m => m | None => "Test failed" end end |}
    end) s.

Inductive Event :=
  | OpensCreate (l : list Fetched)
  | OpensEdit (cfg : ModelConfig) (l : list Fetched)
  | Cancels (l : list Fetched)
  | Types (f : Fields)
  | TogglesCustom
  | ChangesProvider (p : string) (l : list Fetched)
  | Lists (l : list Fetched)
  | Submits
  | Saved (l : list Fetched)
  | Tests
  | Tested (answer : TestResult + option string * option string).

(** The toggle under the model's field. *)
Definition toggleCustom (s : Form) : Form :=
  let f := fields s in
  match modelOptions (currentProviderDef f) (fetchedModels s) with
  | [] => s
  | o :: _ =>
      let f' := {| formName := formName f; formProvider := formProvider f; formModel := if formCustomModel f then value_ o else formModel f;
        formCustomModel := negb (formCustomModel f); formBaseUrl := formBaseUrl f; formApiKeyEnv := formApiKeyEnv f; formEnabled := formEnabled f;
        formIsDefault := formIsDefault f; formTier := formTier f; formCaCert := formCaCert f; formOptions := formOptions f; formMaxTokens := formMaxTokens f;
        formToolResultChars := formToolResultChars f |} in
      withFields f' s
  end.

(** The fields typed in are the form's, the provider apart, which has its own handler. *)
Definition handle (s : Form) (e : Event) : Form * option Request :=
  match e with
  | OpensCreate l => (openCreateForm l s, None)
  | OpensEdit cfg l => (openEditForm cfg l s, None)
  | Cancels l | Saved l => (resetForm l s, None)
  | Types f => (if bool_decide (formProvider f = formProvider (fields s) ∧ formCustomModel f = formCustomModel (fields s)) then withFields f s else s, None)
  | TogglesCustom => (toggleCustom s, None)
  | ChangesProvider p l => (handleProviderChange p l s, None)
  | Lists l => (withList l s, None)
  | Submits => if nonempty (formName (fields s)) && nonempty (formModel (fields s)) then handleSubmit s else (s, None)
  | Tests => if testing s || negb (nonempty (formModel (fields s))) then (s, None) else handleTest s
  | Tested answer => (tested answer s, None)
  end.

Definition step (s : Form) (e : Event) : Form * option Request := let '(s', r) := handle s e in (pickListed s', r).
Definition run (s : Form) (es : list Event) : Form := foldl (λ s e, (step s e).1) s es.

Definition newForm : Form :=
  {| editingId := None; isCreating := false; fields := emptyFields; formOptionsError := None; formLimitsError := None; testing := false; testResult := None;
     fetchedModels := [] |}.
End form.

(** What the server has after a body: its update sets the fields the body has. *)
Definition patched (cfg : ModelConfig) (p : Payload) : ModelConfig :=
  {| cfgId := cfgId cfg; cfgName := pName p; cfgProvider := pProvider p; cfgModel := pModel p; cfgBaseUrl := default (cfgBaseUrl cfg) (pBaseUrl p);
     cfgApiKeyEnv := default (cfgApiKeyEnv cfg) (pApiKeyEnv p); cfgCaCert := default (cfgCaCert cfg) (pCaCert p); cfgOptions := default (cfgOptions cfg) (pOptions p);
     cfgEnabled := pEnabled p; cfgIsDefault := pIsDefault p; cfgTier := pTier p |}.

(** ** Limits *)

Lemma dropChars_id P s : (∀ c, is_digit c = true → P c = false) → sall is_digit s = true → dropChars P s = s.
Proof. intros HP. induction s as [|c s IH]; [done|]. cbn. intros [Hc Hs]%andb_true_iff. rewrite HP by done. by rewrite IH. Qed.

Definition isSeparator (c : ascii) : bool := bool_decide (c = ("," : ascii)) || bool_decide (c = ("_" : ascii)) || is_space c.

Lemma digit_no_separator c : is_digit c = true → isSeparator c = false.
Proof.
  unfold isSeparator, is_digit, is_space. intros H. rewrite !bool_decide_false by (intros ->; by vm_compute in H). cbn [orb].
  apply andb_true_iff in H as [H1%Nat.leb_le H2%Nat.leb_le]. apply orb_false_iff. rewrite andb_false_iff, !Nat.leb_gt, Nat.eqb_neq. lia.
Qed.

Definition InRange (k : LimitKey) (n : Z) : Prop := (LIMIT_RANGES k).1 ≤ n ≤ (LIMIT_RANGES k).2.

Lemma limitValue_spec k text n : limitValue k text = Limit n ↔ digitsValue 0 (dropChars isSeparator text) = Some n ∧ dropChars isSeparator text ≠ "" ∧ InRange k n.
Proof.
  unfold limitValue, InRange. fold isSeparator. change (dropChars _ text) with (dropChars isSeparator text). destruct (nonempty (dropChars isSeparator text)) eqn:E.
  - apply nonempty_true in E. cbn. destruct (digitsValue 0 _) as [m|]; [|naive_solver]. destruct (LIMIT_RANGES k) as [lo hi]. cbn.
    destruct ((lo <=? m) && (m <=? hi)) eqn:Er.
    + apply andb_true_iff in Er as [Hlo%Z.leb_le Hhi%Z.leb_le]. split; [intros [= ->]; split_and!; done|by intros ([= ->] & _)].
    + apply andb_false_iff in Er as [Hlo%Z.leb_gt|Hhi%Z.leb_gt]; (split; [done|]; intros ([= ->] & _ & Hr); lia).
  - assert (dropChars isSeparator text = "") as -> by by destruct (dropChars isSeparator text). cbn. naive_solver.
Qed.

Lemma limitValue_none k text : limitValue k text = NoLimit ↔ dropChars isSeparator text = "".
Proof.
  unfold limitValue. change (dropChars _ text) with (dropChars isSeparator text). destruct (dropChars isSeparator text) as [|c s]; [done|]. cbn [nonempty negb eqs].
  split; [|done]. change (negb (nonempty (String c s))) with false. cbn iota. destruct (digitsValue 0 _); [|done]. destruct (LIMIT_RANGES k). by destruct (_ && _).
Qed.

Lemma limit_written k n : InRange k n → limitValue k (pretty n) = Limit n.
Proof.
  intros Hr. assert (0 ≤ n) as Hn by (destruct k; unfold InRange in Hr; cbn in Hr; lia). assert (sall is_digit (pretty n) = true) as Hd by (rewrite pretty_Z_N by done; apply number_string).
  apply limitValue_spec. rewrite dropChars_id by (done || apply digit_no_separator). split_and!; [by apply digitsValue_pretty| |done].
  intros E. pose proof (digitsValue_pretty n Hn) as Hp. rewrite E in Hp. injection Hp as <-. by vm_compute in E.
Qed.

(** ** Objects without their limits *)

Lemma field_setField k k' v fs : field k (setField k' v fs) = if eqs k k' then v else field k fs.
Proof.
  pose proof (get_setField_eq k' v (VObj fs)) as H1. destruct (eqs k k') eqn:E; [by apply eqs_true in E as ->|].
  apply eqs_false in E. apply (get_setField_ne k' k v fs). congruence.
Qed.

Lemma field_without k ks fs : field k (without ks fs) = if some (eqs k) ks then VUndef else field k fs.
Proof.
  assert (∀ l, some (λ x, eqs x k) l = some (eqs k) l) as Hsym.
  { induction l as [|x l IH]; [done|]. cbn. fold (some (λ x, eqs x k) l). rewrite IH. f_equal. unfold eqs. by rewrite (bool_decide_ext (x = k) (k = x)). }
  unfold without, filterb. induction fs as [|[k' v] fs IH]; [by case_match|]. cbn [List.filter fst]. destruct (some (λ k, eqs k k') ks) eqn:E; cbn [negb field].
  - rewrite IH. destruct (eqs k k') eqn:Ek; [|done]. apply eqs_true in Ek as ->. by rewrite <-Hsym, E.
  - rewrite IH. destruct (eqs k k') eqn:Ek; [|done]. apply eqs_true in Ek as ->. by rewrite <-Hsym, E.
Qed.

Lemma without_free k ks fs : k ∈ ks → some (λ f, eqs k f.1) (without ks fs) = false.
Proof.
  intros Hk. apply not_true_iff_false. intros ([k' v] & [_ H]%elem_of_filterb & Ek%eqs_true)%some_true. cbn in *. subst k'.
  apply negb_true_iff, not_true_iff_false in H. apply H, some_true. exists k. split; [done|apply eqs_refl].
Qed.

(** A limit that the form can write back. *)
Definition writable (k : LimitKey) (v : value) : Prop := v = VUndef ∨ ∃ n, v = VNum n ∧ InRange k n.

Lemma addLimit_writes k v fs : writable k v → field (keyName k) fs = VUndef →
  ∃ fs', addLimit (inl fs) (k, limitText v) = inl fs' ∧ ∀ x, field x fs' = if eqs x (keyName k) then v else field x fs.
Proof.
  intros [->|(n & -> & Hn)] Hf; unfold addLimit; cbn [fst snd].
  - exists fs. split; [by destruct k|]. intros x. destruct (eqs x (keyName k)) eqn:E; [|done]. by apply eqs_true in E as ->.
  - unfold limitText. cbn [nullish toString]. rewrite limit_written by done. eexists. split; [done|]. intros x. apply field_setField.
Qed.

Lemma options_written options :
  writable max_tokens (field "max_tokens" (default [] options)) → writable tool_result_chars (field "tool_result_chars" (default [] options)) →
  let l := splitLimits options in
  ∃ o, buildOptions (rest l) (maxTokens l) (toolResultChars l) = inl o ∧ ∀ k, field k (default [] o) = field k (default [] options).
Proof.
  intros Hm Ht. unfold splitLimits, buildOptions. cbn zeta. cbn [rest maxTokens toolResultChars]. set (fs := default [] options) in *. set (ks := ["max_tokens"; "tool_result_chars"]).
  assert (default [] (if bool_decide (without ks fs = []) then None else Some (without ks fs)) = without ks fs) as -> by (case_bool_decide as E; cbn; by rewrite ?E).
  assert (∀ b : bool, b = false → (if b then inr in_json else match foldl addLimit (inl (without ks fs)) [(max_tokens, limitText (field "max_tokens" fs)); (tool_result_chars, limitText (field "tool_result_chars" fs))] with
    | inl options0 => inl (if bool_decide (options0 = []) then None else Some options0) | inr e => inr e end) =
    match foldl addLimit (inl (without ks fs)) [(max_tokens, limitText (field "max_tokens" fs)); (tool_result_chars, limitText (field "tool_result_chars" fs))] with
    | inl options0 => inl (if bool_decide (options0 = []) then None else Some options0) | inr e => inr e end) as Hif by by intros b ->.
  rewrite Hif; clear Hif.
  2: { case_bool_decide; [done|]. cbn [limitKeys some existsb keyName]. fold (some (λ f : string * value, eqs "max_tokens" f.1) (without ks fs)).
       fold (some (λ f : string * value, eqs "tool_result_chars" f.1) (without ks fs)). rewrite !without_free; [done|by right; left|by left]. }
  cbn [foldl]. destruct (addLimit_writes max_tokens (field "max_tokens" fs) (without ks fs) Hm ltac:(by rewrite field_without)) as (f1 & -> & H1).
  destruct (addLimit_writes tool_result_chars (field "tool_result_chars" fs) f1 Ht ltac:(rewrite H1; cbn; by rewrite field_without)) as (f2 & -> & H2).
  eexists. split; [done|]. intros k. assert (field k (default [] (if bool_decide (f2 = []) then None else Some f2)) = field k f2) as -> by (case_bool_decide as E; [by rewrite E|done]).
  rewrite H2, H1, field_without. cbn [some ks existsb keyName]. destruct (eqs k "tool_result_chars") eqn:E1; [by apply eqs_true in E1 as ->|].
  destruct (eqs k "max_tokens") eqn:E2; [by apply eqs_true in E2 as ->|]. done.
Qed.

(** ** The form's invariant *)

(** The model of a new form is one the provider lists, unless its name is typed. *)
Definition Listed (s : Form) : Prop :=
  isCreating s = true → formCustomModel (fields s) = false → fetchedModels s ≠ [] → formModel (fields s) ∈ fName <$> fetchedModels s.

Lemma pickListed_listed s : Listed (pickListed s).
Proof.
  unfold Listed, pickListed. destruct (fetchedModels s) as [|m l] eqn:E; [by rewrite E|]. destruct (isCreating s && _ && _) eqn:Ec.
  - intros _ _ _. cbn [withFields setModel fields formModel fetchedModels]. rewrite E. left.
  - rewrite E. intros Hc Hcu _. rewrite Hc, Hcu in Ec. cbn [negb andb] in Ec. apply negb_false_iff, some_true in Ec as (x & Hx & Ex%eqs_true).
    rewrite <-Ex. by apply list_elem_of_fmap_2.
Qed.

(** The effect runs once. *)
Lemma pickListed_idem s : pickListed (pickListed s) = pickListed s.
Proof.
  unfold pickListed at 2 3. destruct (fetchedModels s) as [|m l] eqn:E; [unfold pickListed; by rewrite E|]. destruct (isCreating s && _ && _) eqn:Ec.
  - unfold pickListed. cbn [withFields fetchedModels fields setModel formModel formCustomModel isCreating]. rewrite E. cbn [some existsb]. by rewrite eqs_refl, andb_false_r.
  - unfold pickListed. by rewrite E, Ec.
Qed.

Lemma pickListed_edit s : isCreating s = false → pickListed s = s.
Proof. intros H. unfold pickListed. destruct (fetchedModels s); [done|]. by rewrite H. Qed.

Lemma pickListed_provider s : formProvider (fields (pickListed s)) = formProvider (fields s) ∧ testResult (pickListed s) = testResult s.
Proof. unfold pickListed. by repeat case_match. Qed.

(** ** Properties *)

(** What a text writes: the separators left out, a number in decimals, each digit worth
    its place. *)
Definition separates (c : ascii) : Prop := c = ","%char ∨ c = "_"%char ∨ is_space c = true.

Inductive Stripped : string → string → Prop :=
  | stripped_end : Stripped "" ""
  | stripped_skip c s v : separates c → Stripped s v → Stripped (String c s) v
  | stripped_keep c s v : ¬ separates c → Stripped s v → Stripped (String c s) (String c v).

Fixpoint valueOfDigits (s : string) : Z :=
  match s with "" => 0 | String c s' => Z.of_nat (nat_of_ascii c - 48) * 10 ^ Z.of_nat (String.length s') + valueOfDigits s' end.

Definition Writes (text : string) (n : Z) : Prop := ∃ v, Stripped text v ∧ v ≠ "" ∧ sall is_digit v = true ∧ n = valueOfDigits v.
Definition Blank (text : string) : Prop := Stripped text "".

(** The limits the server takes. *)
Definition Allowed (k : LimitKey) (n : Z) : Prop :=
  match k with max_tokens => 1 ≤ n ≤ 1000000 | tool_result_chars => 1000 ≤ n ≤ 200000 end.

Lemma isSeparator_true c : isSeparator c = true ↔ separates c.
Proof. unfold isSeparator, separates. rewrite !orb_true_iff, !bool_decide_eq_true. tauto. Qed.

Lemma Stripped_drop text v : Stripped text v ↔ v = dropChars isSeparator text.
Proof.
  split.
  - induction 1 as [|c s v Hc _ ->|c s v Hc _ ->]; cbn; [done|by rewrite (proj2 (isSeparator_true c))|].
    destruct (isSeparator c) eqn:E; [|done]. by apply isSeparator_true in E.
  - intros ->. induction text as [|c s IH]; cbn; [constructor|]. destruct (isSeparator c) eqn:E; constructor; try done; rewrite <-isSeparator_true, E; done.
Qed.

Lemma digitsValue_decimal acc s n :
  digitsValue acc s = Some n ↔ sall is_digit s = true ∧ n = acc * 10 ^ Z.of_nat (String.length s) + valueOfDigits s.
Proof.
  revert acc. induction s as [|c s IH]; intros acc; [cbn; rewrite Z.mul_1_r, Z.add_0_r; naive_solver|]. cbn [digitsValue sall valueOfDigits String.length]. destruct (is_digit c); [|naive_solver].
  rewrite IH, Nat2Z.inj_succ, Z.pow_succ_r by lia. cbn [andb]. apply and_iff_compat_l. split; intros ->; lia.
Qed.

Lemma limitValue_writes k text n : limitValue k text = Limit n ↔ Writes text n ∧ Allowed k n.
Proof.
  rewrite limitValue_spec, digitsValue_decimal. unfold Writes. setoid_rewrite Stripped_drop.
  assert (InRange k n ↔ Allowed k n) as -> by (by destruct k). rewrite Z.mul_0_l, Z.add_0_l. naive_solver.
Qed.

Lemma limitValue_blank k text : limitValue k text = NoLimit ↔ Blank text.
Proof. rewrite limitValue_none. unfold Blank. rewrite Stripped_drop. split; congruence. Qed.

(** C23. The limits saved are the numbers typed: the options saved have a limit exactly
    when its text writes that number, digit by digit, in the range the server takes, and
    none exactly when the text is blank; the other options are as they are.  A form that
    is refused names the field whose text is neither, or a limit written among the
    options. *)
Theorem limits_exact o a b :
  let typed k := match k with max_tokens => a | tool_result_chars => b end in
  match buildOptions o a b with
  | inl o' =>
      (∀ k n, field (keyName k) (default [] o') = VNum n ↔ Writes (typed k) n ∧ Allowed k n) ∧
      (∀ k, field (keyName k) (default [] o') = VUndef ↔ Blank (typed k)) ∧
      ∀ x, x ∉ ["max_tokens"; "tool_result_chars"] → field x (default [] o') = field x (default [] o)
  | inr (OfKey k) => ¬ Blank (typed k) ∧ ∀ n, ¬ (Writes (typed k) n ∧ Allowed k n)
  | inr in_json => ∃ k fs, o = Some fs ∧ keyName k ∈ fs.*1
  end.
Proof.
  intros typed. unfold buildOptions. destruct (match o with Some fs => _ | None => false end) eqn:Ej.
  { destruct o as [fs|]; [|done]. apply some_true in Ej as (k & _ & (f & Hf & E%eqs_true)%some_true). exists k, fs. split; [done|]. rewrite E. by apply list_elem_of_fmap_2. }
  assert (∀ k, field (keyName k) (default [] o) = VUndef) as Hnone.
  { intros k. destruct o as [fs|]; [|done]. cbn. assert (some (λ f, eqs (keyName k) f.1) fs = false) as Hk.
    { apply not_true_iff_false. intros H. apply not_true_iff_false in Ej. apply Ej, some_true. exists k. split; [|done]. destruct k; [left|right; left]. }
    clear -Hk. induction fs as [|[k' v] fs IH]; [done|]. cbn in *. apply orb_false_iff in Hk as [-> Hk]. by apply IH. }
  assert (∀ k, limitValue k (typed k) = BadLimit → ¬ Blank (typed k) ∧ ∀ n, ¬ (Writes (typed k) n ∧ Allowed k n)) as Hbad
    by (intros k E; split; [|intros n]; rewrite <-?limitValue_blank, <-?limitValue_writes, E; done).
  pose proof (Hnone max_tokens) as Hm. pose proof (Hnone tool_result_chars) as Ht. cbn [keyName] in Hm, Ht.
  assert (∀ x (fs : list (string * value)), field x (default [] (if bool_decide (fs = []) then None else Some fs)) = field x fs) as Hd by (intros x fs; case_bool_decide as E; [by rewrite E|done]).
  cbn [foldl]. unfold addLimit. cbn [fst snd]. destruct (limitValue max_tokens a) as [| |n] eqn:Ea; cbn [keyName]; [|by apply (Hbad max_tokens)|];
    destruct (limitValue tool_result_chars b) as [| |n'] eqn:Eb; cbn [keyName]; try by apply (Hbad tool_result_chars).
  all: split; [intros []; intros m; rewrite <-limitValue_writes; cbn [typed keyName]; rewrite Hd, ?field_setField, ?Ea, ?Eb; cbn; rewrite ?Hm, ?Ht; naive_solver|].
  all: split; [intros []; rewrite <-limitValue_blank; cbn [typed keyName]; rewrite Hd, ?field_setField, ?Ea, ?Eb; cbn; rewrite ?Hm, ?Ht; naive_solver|].
  all: intros x Hx; rewrite Hd, ?field_setField; rewrite ?(proj2 (eqs_false x _)) by (intros ->; apply Hx; set_solver); done.
Qed.

(** The numbers of a form, one with separators. *)
Lemma limits_exact_witness :
  buildOptions None "4 096" "20,000" = inl (Some [("max_tokens", VNum 4096); ("tool_result_chars", VNum 20000)]) ∧
  Writes "4 096" 4096 ∧ Allowed max_tokens 4096.
Proof. split; [by vm_compute|]. exact (proj1 (proj1 (limits_exact None "4 096" "20,000") max_tokens 4096) eq_refl). Defined.

Section properties.
Context (parse : string → option value) (stringify : value → string).
Abbreviation step := (step parse stringify).
Abbreviation run := (run parse stringify).

(** What an edit can show of a saved model: a key it needs, a certificate without blanks
    around it, limits in their ranges, and options that are written and read back. *)
Definition Editable (cfg : ModelConfig) : Prop :=
  cfgId cfg ≠ 0 ∧ cfgName cfg ≠ "" ∧ cfgModel cfg ≠ "" ∧
  (needsApiKey (default openai (getProvider (cfgProvider cfg))) = true → ∃ e, cfgApiKeyEnv cfg = Some e ∧ e ≠ "" ∧ trim e = e) ∧
  (∀ c, cfgCaCert cfg = Some c → c ≠ "" ∧ trim c = c) ∧
  let fs := default [] (cfgOptions cfg) in
  writable max_tokens (field "max_tokens" fs) ∧ writable tool_result_chars (field "tool_result_chars" fs) ∧
  ∀ o, rest (splitLimits (cfgOptions cfg)) = Some o → trim (stringify (VObj o)) ≠ "" ∧ parse (trim (stringify (VObj o))) = Some (VObj o).

Definition sameButOptions (o : option (list (string * value))) (cfg : ModelConfig) : ModelConfig :=
  {| cfgId := cfgId cfg; cfgName := cfgName cfg; cfgProvider := cfgProvider cfg; cfgModel := cfgModel cfg; cfgBaseUrl := cfgBaseUrl cfg;
     cfgApiKeyEnv := cfgApiKeyEnv cfg; cfgCaCert := cfgCaCert cfg; cfgOptions := o; cfgEnabled := cfgEnabled cfg; cfgIsDefault := cfgIsDefault cfg; cfgTier := cfgTier cfg |}.

Lemma edit_opened cfg l s : run s [OpensEdit cfg l] = openEditForm stringify cfg l s.
Proof. apply pickListed_edit. done. Qed.

Lemma submit_step s : formName (fields s) ≠ "" → formModel (fields s) ≠ "" → (step s Submits).2 = (handleSubmit parse s).2.
Proof.
  intros H1%nonempty_true H2%nonempty_true. unfold ModelForm.step. cbn [handle]. rewrite H1, H2. cbn [andb]. by destruct (handleSubmit parse s).
Qed.

Lemma parsed_written cfg : Editable cfg → parsedOptions parse (formOptions (fieldsOf stringify cfg)) = inl (rest (splitLimits (cfgOptions cfg))).
Proof.
  intros (_ & _ & _ & _ & _ & _ & _ & Ho). unfold parsedOptions. cbn [fieldsOf formOptions]. destruct (rest (splitLimits (cfgOptions cfg))) as [o|]; [|done].
  destruct (Ho o eq_refl) as [Hn Hp]. apply nonempty_true in Hn. by rewrite Hn, Hp.
Qed.

(** Saving a model that was only opened changes nothing of it: what the server has
    after the update is what it had, its options field by field. *)
Theorem edit_saves_unchanged cfg l s :
  Editable cfg →
  ∃ p o, (step (run s [OpensEdit cfg l]) Submits).2 = Some (UpdateModel (cfgId cfg) p) ∧
    patched cfg p = sameButOptions o cfg ∧ ∀ k, field k (default [] o) = field k (default [] (cfgOptions cfg)).
Proof.
  intros He. pose proof (parsed_written cfg He) as Hp. destruct He as (Hid & Hn & Hm & Hkey & Hca & Hmax & Htool & _).
  destruct (options_written (cfgOptions cfg) Hmax Htool) as (o & Ho & Hf). rewrite edit_opened, submit_step by done. unfold handleSubmit.
  cbn [openEditForm fields]. rewrite Hp. cbn [fieldsOf formMaxTokens formToolResultChars]. rewrite Ho.
  assert (editing (openEditForm stringify cfg l s) = Some (cfgId cfg)) as Ed by (unfold editing; cbn; by rewrite (proj2 (Z.eqb_neq _ _) Hid)).
  rewrite Ed. do 2 eexists. split; [done|]. unfold patched, payloadOf, sameButOptions. rewrite Ed. split; [|apply Hf].
  cbn [openEditForm fields pName pProvider pModel pBaseUrl pEnabled pIsDefault pTier pApiKeyEnv pCaCert pOptions fieldsOf formName formProvider formModel formBaseUrl
    formApiKeyEnv formEnabled formIsDefault formTier formCaCert currentProviderDef]. f_equal.
  - destruct (cfgBaseUrl cfg) as [b|] eqn:Eb; [|done]. unfold orAbsent. by destruct (nonempty b) eqn:E; rewrite ?E.
  - change (currentProviderDef _) with (default openai (getProvider (cfgProvider cfg))).
    destruct (needsApiKey (default openai (getProvider (cfgProvider cfg)))) eqn:Ek; [|done]. destruct (Hkey eq_refl) as (e & -> & Hne%nonempty_true & Ht).
    cbn. rewrite Hne, Ht. unfold orNull. by rewrite Hne.
  - destruct (cfgCaCert cfg) as [c|] eqn:Ec; [|done]. destruct (Hca c eq_refl) as [Hne%nonempty_true Ht]. by rewrite Hne, Ht, Hne.
  - by destruct o.
Qed.

(** Taking the address away does not reach the server: a body without it keeps the
    one it has, so a model moved to a provider whose form shows no address goes on
    talking to the old one. *)
Theorem cleared_address_stays cfg l l' s p b d m :
  cfgBaseUrl cfg = Some b → getProvider p = Some d → defaultBaseUrl d = None → head (models d) = Some m → mName m ≠ "" → Editable cfg →
  let s' := run s [OpensEdit cfg l; ChangesProvider p l'] in
  formBaseUrl (fields s') = "" ∧
  ∃ q, (step s' Submits).2 = Some (UpdateModel (cfgId cfg) q) ∧ cfgProvider (patched cfg q) = p ∧ cfgBaseUrl (patched cfg q) = Some b.
Proof.
  intros Hb Hp Hd Hm Hmn He s'. pose proof (parsed_written cfg He) as Hw. destruct He as (Hid & Hn & _ & _ & _ & Hmax & Htool & _).
  destruct (options_written (cfgOptions cfg) Hmax Htool) as (o & Ho & _).
  assert (s' = handleProviderChange p l' (openEditForm stringify cfg l s)) as Es.
  { unfold s'. change (run s [OpensEdit cfg l; ChangesProvider p l']) with (step (run s [OpensEdit cfg l]) (ChangesProvider p l')).1. rewrite edit_opened.
    cbn [ModelForm.step handle fst]. apply pickListed_edit. unfold handleProviderChange. by rewrite Hp. }
  clearbody s'. assert (formBaseUrl (fields s') = "") as Hu by (rewrite Es; unfold handleProviderChange; rewrite Hp; cbn; by rewrite Hd). split; [done|].
  assert (editing s' = Some (cfgId cfg)) as Ed by (rewrite Es; unfold handleProviderChange, editing; rewrite Hp; cbn; by rewrite (proj2 (Z.eqb_neq _ _) Hid)).
  rewrite submit_step; [|rewrite Es; unfold handleProviderChange; by rewrite Hp|].
  2: { rewrite Es. unfold handleProviderChange. rewrite Hp. cbn. destruct (models d); [done|]. cbn in Hm. by injection Hm as ->. }
  unfold handleSubmit. assert (formOptions (fields s') = formOptions (fieldsOf stringify cfg) ∧ formMaxTokens (fields s') = maxTokens (splitLimits (cfgOptions cfg)) ∧
    formToolResultChars (fields s') = toolResultChars (splitLimits (cfgOptions cfg)) ∧ formProvider (fields s') = p) as (-> & -> & -> & Hpr)
    by (rewrite Es; unfold handleProviderChange; by rewrite Hp).
  rewrite Hw, Ho, Ed. eexists. split; [done|]. split; [apply Hpr|]. unfold patched, payloadOf. cbn. by rewrite Hu, Hb.
Qed.

(** A new model, unless its name is typed, is one of the provider's list as soon as
    the list is there, whatever is opened, chosen and listed before; and the effect that
    picks it settles at once. *)
Theorem new_model_listed es :
  let s := run newForm es in
  (isCreating s = true → formCustomModel (fields s) = false → fetchedModels s ≠ [] → formModel (fields s) ∈ fName <$> fetchedModels s) ∧ pickListed s = s.
Proof.
  intros s. assert (∃ s0, s = pickListed s0) as [s0 E].
  { unfold s, ModelForm.run. induction es as [|e es _] using rev_ind; [by exists newForm|]. rewrite foldl_snoc. unfold ModelForm.step at 1.
    destruct (handle parse stringify _ e) as [s' r]. by exists s'. }
  rewrite E. split; [apply pickListed_listed|apply pickListed_idem].
Qed.

(** The answer of a test is shown in whatever the form is by then: the provider
    chosen meanwhile is said to answer, or not, by the test of another. *)
Theorem test_answer_of_another s p l r d :
  testing s = false → formModel (fields s) ≠ "" → trim (formApiKeyEnv (fields s)) ≠ "" → getProvider p = Some d → p ≠ formProvider (fields s) →
  ∃ c, (step s Tests).2 = Some (TestModel c) ∧ tProvider c = formProvider (fields s) ∧
    let s' := run s [Tests; ChangesProvider p l; Tested (inl r)] in formProvider (fields s') = p ∧ tProvider c ≠ p ∧ testResult s' = Some r.
Proof.
  intros Ht Hm%nonempty_true Hk%nonempty_true Hp Hne. eexists. unfold ModelForm.step at 1. cbn [handle]. rewrite Ht, Hm. cbn [negb orb]. unfold handleTest. rewrite Hk. cbn [negb andb].
  split; [done|]. split; [done|]. cbn zeta. cbn [tProvider]. split_and!; [|congruence|].
  - change (run s [Tests; ChangesProvider p l; Tested (inl r)]) with (pickListed (tested (inl r) (run s [Tests; ChangesProvider p l]))).
    rewrite (proj1 (pickListed_provider _)). cbn [tested withTest fields].
    change (run s [Tests; ChangesProvider p l]) with (pickListed (handleProviderChange p l (run s [Tests]))). rewrite (proj1 (pickListed_provider _)).
    unfold handleProviderChange. by rewrite Hp.
  - change (run s [Tests; ChangesProvider p l; Tested (inl r)]) with (pickListed (tested (inl r) (run s [Tests; ChangesProvider p l]))).
    by rewrite (proj2 (pickListed_provider _)).
Qed.
End properties.

(** ** Witnesses *)

(** A writer and a reader that know one object. *)
Definition oneObject : list (string * value) := [("temperature", VNum 0)].
Definition oneText : string := "{" +:+ String "034" ("temperature" +:+ String "034" ": 0}").
Definition writeOne (v : value) : string := oneText.
Definition readOne (t : string) : option value := if eqs t oneText then Some (VObj oneObject) else None.

Definition sampleConfig : ModelConfig :=
  {| cfgId := 7; cfgName := "lab"; cfgProvider := "custom"; cfgModel := "m1"; cfgBaseUrl := Some "https://lab/v1"; cfgApiKeyEnv := Some "LAB_KEY"; cfgCaCert := None;
     cfgOptions := Some [("max_tokens", VNum 4096); ("temperature", VNum 0)]; cfgEnabled := true; cfgIsDefault := false; cfgTier := economy |}.

Lemma sample_editable : Editable readOne writeOne sampleConfig.
Proof.
  split; [done|]. split; [done|]. split; [done|]. split; [intros _; by exists "LAB_KEY"|]. split; [by intros c Hc|]. split; [|split].
  - right. exists 4096. by split.
  - by left.
  - intros o E. vm_compute in E. injection E as <-. split; by vm_compute.
Qed.

Lemma edit_saves_unchanged_witness :
  ∃ p o, (step readOne writeOne (run readOne writeOne newForm [OpensEdit sampleConfig []]) Submits).2 = Some (UpdateModel 7 p) ∧
    patched sampleConfig p = sameButOptions o sampleConfig ∧ ∀ k, field k (default [] o) = field k (default [] (cfgOptions sampleConfig)).
Proof. exact (edit_saves_unchanged readOne writeOne sampleConfig [] newForm sample_editable). Defined.

Lemma cleared_address_stays_witness :
  let s' := run readOne writeOne newForm [OpensEdit sampleConfig []; ChangesProvider "openai" []] in
  formBaseUrl (fields s') = "" ∧
  ∃ q, (step readOne writeOne s' Submits).2 = Some (UpdateModel 7 q) ∧ cfgProvider (patched sampleConfig q) = "openai" ∧
    cfgBaseUrl (patched sampleConfig q) = Some "https://lab/v1".
Proof.
  apply (cleared_address_stays readOne writeOne sampleConfig [] [] newForm "openai" "https://lab/v1" openai (model "gpt-5.5" None None true)); try done.
  apply sample_editable.
Defined.

Lemma test_answer_of_another_witness :
  let r := {| success := true; message := "OK" |} in
  let s := run readOne writeOne newForm [OpensCreate [{| fName := "gpt-5"; fLabel := None |}]] in
  ∃ c, (step readOne writeOne s Tests).2 = Some (TestModel c) ∧ tProvider c = "openai" ∧
    testResult (run readOne writeOne s [Tests; ChangesProvider "gemini" []; Tested (inl r)]) = Some r.
Proof.
  intros r s. destruct (test_answer_of_another readOne writeOne s "gemini" [] r (default openai (getProvider "gemini"))) as (c & H1 & H2 & _ & _ & H3);
    [by vm_compute|by vm_compute|by vm_compute|by vm_compute|by vm_compute|]. by exists c.
Defined.

Example listed_new : formModel (fields (run readOne writeOne newForm [OpensCreate []; Lists [{| fName := "gpt-x"; fLabel := None |}]])) = "gpt-x".
Proof. by vm_compute. Qed.
