(* ===== verification/AuditPages.v ===== *)
(** * The audit log

    pages/adminAuditPages.ts and pages/AdminAudit.tsx: the filter of the table and its
    draft, the pages of one read, the CSV of what the screen counts.  The server's list
    (services/auth-service-go, services/pkg/audit) is [serve]: it answers the rows of
    the filter with an id up to [as_of], or up to the highest there is.

    [Audit] is the state of the page.  The query keeps the answer of the filter before
    until the new one's is there ([isPlaceholder]); an answer had before for the same
    filter is [cached].  What reads the viewer's time zone is an argument. *)

From S2P Require Import Prelude JsString OrderedMap ListPage.

#[local] Open Scope string_scope.
#[local] Open Scope Z_scope.

(** ** The filter *)

Record AuditLogFilter := {
  service : option string; action : option string; actor_email : option string; target_id : option string; cluster : option string; namespace : option string;
  result : option string; since : option string; until : option string; limit : option Z; offset : option Z; as_of : option Z
}.

#[global] Instance AuditLogFilter_eq_dec : EqDecision AuditLogFilter.
Proof. solve_decision. Defined.

Record Answer {Row : Type} := { total : Z; items : list Row; answerAsOf : option Z; export_limit : option Z }.
Arguments Answer : clear implicits.

Definition withPage (o : option Z) (a : option Z) (f : AuditLogFilter) : AuditLogFilter :=
  {| service := service f; action := action f; actor_email := actor_email f; target_id := target_id f; cluster := cluster f; namespace := namespace f;
     result := result f; since := since f; until := until f; limit := limit f; offset := o; as_of := a |}.

Definition auditPageFilter {Row} (f : AuditLogFilter) (offset : Z) (answer : option (Answer Row)) (placeholder : bool) : AuditLogFilter :=
  withPage (Some offset) (match as_of f with Some a => Some a | None => if placeholder then None else a ← answer; answerAsOf a end) f.

Definition auditLimitFilter (f : AuditLogFilter) (n : Z) : AuditLogFilter :=
  {| service := service f; action := action f; actor_email := actor_email f; target_id := target_id f; cluster := cluster f; namespace := namespace f;
     result := result f; since := since f; until := until f; limit := Some n; offset := Some 0; as_of := None |}.

(** The parameters of the CSV's address. *)
Definition param (k : string) (v : option string) : list (string * string) :=
  match v with Some t => if nonempty t then [(k, t)] else [] | None => [] end.

Definition auditExportParams (f : AuditLogFilter) (asOf : option Z) : list (string * string) :=
  param "service" (service f) ++ param "action" (action f) ++ param "actor_email" (actor_email f) ++ param "target_id" (target_id f) ++
  param "cluster" (cluster f) ++ param "namespace" (namespace f) ++ param "result" (result f) ++ param "since" (since f) ++ param "until" (until f) ++
  param "as_of" (pretty <$> asOf).

Lemma omap_param (l : list (string * option string)) k v :
  omap (λ p : string * option string, t ← p.2; if nonempty t then Some (p.1, t) else None) ((k, v) :: l) =
  (param k v ++ omap (λ p : string * option string, t ← p.2; if nonempty t then Some (p.1, t) else None) l)%list.
Proof. cbn. unfold param. destruct v as [t|]; [|done]. cbn. by destruct (nonempty t). Qed.

Lemma auditExportParams_eq f asOf :
  auditExportParams f asOf = omap (λ p : string * option string, t ← p.2; if nonempty t then Some (p.1, t) else None)
    [("service", service f); ("action", action f); ("actor_email", actor_email f); ("target_id", target_id f); ("cluster", cluster f);
     ("namespace", namespace f); ("result", result f); ("since", since f); ("until", until f); ("as_of", pretty <$> asOf)].
Proof. rewrite !omap_param. unfold auditExportParams. cbn [omap list_omap]. by rewrite app_nil_r. Qed.

Definition auditExportCut {Row} (answer : option (Answer Row)) : option (Z * Z) :=
  match answer with
  | Some a => match export_limit a with Some l => if total a <=? l then None else Some (l, total a) | None => None end
  | None => None
  end.

(** ** The page *)

Section audit.
Context {Row : Type}.
Context (parseTypedTime : string → option Z) (toISOString endOfMinuteISO : Z → string).

Record Audit := {
  filter_ : AuditLogFilter; draft : AuditLogFilter; sinceText : string; untilText : string; expandedId : option Z; data : option (Answer Row); isPlaceholder : bool
}.

Definition emptyFilter (n : Z) : AuditLogFilter :=
  {| service := None; action := None; actor_email := None; target_id := None; cluster := None; namespace := None; result := None; since := None; until := None;
     limit := Some n; offset := Some 0; as_of := None |}.

Definition newAudit : Audit :=
  {| filter_ := emptyFilter 50; draft := emptyFilter 50; sinceText := ""; untilText := ""; expandedId := None; data := None; isPlaceholder := false |}.

Definition rowsPerPage (s : Audit) : Z := default 50 (limit (filter_ s)).
Definition pageOffset (s : Audit) : Z := default 0 (offset (filter_ s)).
Definition page (s : Audit) : Z := pageOffset s / rowsPerPage s + 1.
Definition totalOf (s : Audit) : Z := match data s with Some a => total a | None => 0 end.
Definition totalPages (s : Audit) : Z := Z.max 1 ((totalOf s + rowsPerPage s - 1) / rowsPerPage s).
Definition itemsOf (s : Audit) : list Row := match data s with Some a => items a | None => [] end.

(** A typed time: nothing, one that can be read, or neither. *)
Definition typedRange (text : string) (last : bool) : option (option string) :=
  if negb (nonempty (trim text)) then Some None
  else match parseTypedTime text with Some d => Some (Some (if last then endOfMinuteISO d else toISOString d)) | None => None end.

(** A new filter: what the query has for it, or the answer before until it has. *)
Definition setFilter (f : AuditLogFilter) (cached : option (Answer Row)) (s : Audit) : Audit :=
  if bool_decide (f = filter_ s) then s else
  {| filter_ := f; draft := draft s; sinceText := sinceText s; untilText := untilText s; expandedId := expandedId s;
     data := match cached with Some a => Some a | None => data s end;
     isPlaceholder := match cached with Some _ => false | None => bool_decide (is_Some (data s)) end |}.

Definition setExpanded (e : option Z) (s : Audit) : Audit :=
  {| filter_ := filter_ s; draft := draft s; sinceText := sinceText s; untilText := untilText s; expandedId := e; data := data s; isPlaceholder := isPlaceholder s |}.
Definition setDraft (d : AuditLogFilter) (a b : string) (s : Audit) : Audit :=
  {| filter_ := filter_ s; draft := d; sinceText := a; untilText := b; expandedId := expandedId s; data := data s; isPlaceholder := isPlaceholder s |}.

Definition withRange (a b : option string) (f : AuditLogFilter) : AuditLogFilter :=
  {| service := service f; action := action f; actor_email := actor_email f; target_id := target_id f; cluster := cluster f; namespace := namespace f;
     result := result f; since := a; until := b; limit := limit f; offset := Some 0; as_of := as_of f |}.

Definition applyFilter (cached : option (Answer Row)) (s : Audit) : Audit :=
  match typedRange (sinceText s) false, typedRange (untilText s) true with
  | Some a, Some b => setExpanded None (setFilter (withRange a b (draft s)) cached s)
  | _, _ => s
  end.

Definition resetFilter (cached : option (Answer Row)) (s : Audit) : Audit :=
  let next := emptyFilter (rowsPerPage s) in setExpanded None (setFilter next cached (setDraft next "" "" s)).

Definition goPage (p : Z) (cached : option (Answer Row)) (s : Audit) : Audit :=
  let newOffset := Z.max 0 ((p - 1) * rowsPerPage s) in
  setExpanded None (setFilter (auditPageFilter (filter_ s) newOffset (data s) (isPlaceholder s)) cached s).

Definition chooseLimit (n : Z) (cached : option (Answer Row)) (s : Audit) : Audit :=
  let d := draft s in
  let d' := {| service := service d; action := action d; actor_email := actor_email d; target_id := target_id d; cluster := cluster d; namespace := namespace d;
     result := result d; since := since d; until := until d; limit := Some n; offset := offset d; as_of := as_of d |} in
  setExpanded None (setFilter (auditLimitFilter (filter_ s) n) cached (setDraft d' (sinceText s) (untilText s) s)).

Definition refresh (cached : option (Answer Row)) (s : Audit) : Audit :=
  match as_of (filter_ s) with None => s | Some _ => setFilter (withPage (offset (filter_ s)) None (filter_ s)) cached s end.

(** The answer of the filter. *)
Definition answered (a : Answer Row) (s : Audit) : Audit :=
  {| filter_ := filter_ s; draft := draft s; sinceText := sinceText s; untilText := untilText s; expandedId := expandedId s; data := Some a; isPlaceholder := false |}.

(** The bound of the CSV. *)
Definition exportAsOf (s : Audit) : option Z :=
  match as_of (filter_ s) with Some a => Some a | None => if isPlaceholder s then None else a ← data s; answerAsOf a end.
Definition exportCsv (s : Audit) : list (string * string) := auditExportParams (filter_ s) (exportAsOf s).

(** ** The server *)

Context (rowId : Row → Z) (matches : AuditLogFilter → Row → bool) (newestFirst : Row → Row → Z) (EXPORT_MAX : Z).

Definition maxId (log : list Row) : Z := foldr (λ r n, Z.max (rowId r) n) 0 log.

(** The bound of a read: the filter's, where it has one, else the highest id. *)
Definition pinned (f : AuditLogFilter) (log : list Row) : Z := match as_of f with Some a => if 0 <? a then a else maxId log | None => maxId log end.

Definition counted (f : AuditLogFilter) (log : list Row) : list Row :=
  sortBy newestFirst (filterb (λ r, matches f r && (rowId r <=? pinned f log)) log).

(** The rows the server answers at most: a hundred unless asked, and never over a thousand. *)
Definition serverLimit (f : AuditLogFilter) : Z := let l := default 100 (limit f) in if l <=? 0 then 100 else Z.min 1000 l.

Definition serve (f : AuditLogFilter) (log : list Row) : Answer Row :=
  let l := counted f log in
  {| total := Z.of_nat (length l); items := take (Z.to_nat (serverLimit f)) (drop (Z.to_nat (default 0 (offset f))) l);
     answerAsOf := Some (pinned f log); export_limit := Some EXPORT_MAX |}.

End audit.

Arguments Audit : clear implicits.

(** ** Reads of a growing log *)

Section reads.
Context {Row : Type} (rowId : Row → Z) (matches : AuditLogFilter → Row → bool) (newestFirst : Row → Row → Z) (EXPORT_MAX : Z).
Context (matches_page : ∀ o a f r, matches (withPage o a f) r = matches f r).
Abbreviation counted := (counted rowId matches newestFirst).
Abbreviation pinned := (pinned rowId).
Abbreviation serve := (serve rowId matches newestFirst EXPORT_MAX).

(** The rows of the filter with an id up to a bound, newest first. *)
Definition upTo (b : Z) (f : AuditLogFilter) (log : list Row) : list Row :=
  sortBy newestFirst (filterb (λ r, matches f r && (rowId r <=? b)) log).

(** A read with a bound counts the rows up to it, of the log as it is then. *)
Lemma counted_pinned f o b log : 0 < b →
  counted (withPage o (Some b) f) log = upTo b f log ∧ pinned (withPage o (Some b) f) log = b.
Proof using matches_page.
  intros Hpos. assert (pinned (withPage o (Some b) f) log = b) as Hp.
  { unfold AuditPages.pinned. cbn [withPage as_of]. by rewrite (proj2 (Z.ltb_lt _ _) Hpos). }
  split; [|done]. unfold AuditPages.counted, upTo. rewrite Hp. f_equal. apply List.filter_ext. intros r. by rewrite matches_page.
Qed.

(** A page the reader turns to: answered by the server at some later time, with the
    log it has then, or kept from when it was read [before]. *)
Record Visit := { to : Z; log_ : list Row; before : bool }.

Definition visit (s : Audit Row) (v : Visit) : Audit Row :=
  let f := auditPageFilter (filter_ s) (Z.max 0 ((to v - 1) * rowsPerPage s)) (data s) (isPlaceholder s) in
  if before v then goPage (to v) (Some (serve f (log_ v))) s else answered (serve f (log_ v)) (goPage (to v) None s).

(** The page shows part of the rows up to the bound [b] of a log. *)
Definition Shows (f : AuditLogFilter) (b : Z) (log : list Row) (s : Audit Row) : Prop :=
  ∃ o a, filter_ s = withPage (Some o) a f ∧ (a = None ∨ a = Some b) ∧ isPlaceholder s = false ∧
  ∃ l, data s = Some {| total := Z.of_nat (length (upTo b f log)); items := take (Z.to_nat (serverLimit f)) (drop (Z.to_nat o) (upTo b f log));
                        answerAsOf := Some b; export_limit := l |}.

Lemma visit_shows f b log s v : as_of f = None → 0 < b → Shows f b log s →
  filter_ (visit s v) = withPage (Some (Z.max 0 ((to v - 1) * default 50 (limit f)))) (Some b) f ∧
  ∃ log', (log' = log_ v ∨ before v = true ∧ log' = log) ∧ Shows f b log' (visit s v).
Proof using matches_page.
  intros Ha Hpos (o & a & Hf & Has & Hph & l & Hd). set (o' := Z.max 0 ((to v - 1) * default 50 (limit f))).
  assert (rowsPerPage s = default 50 (limit f)) as Hr by (unfold rowsPerPage; by rewrite Hf).
  assert (auditPageFilter (filter_ s) (Z.max 0 ((to v - 1) * rowsPerPage s)) (data s) (isPlaceholder s) = withPage (Some o') (Some b) f) as Eg.
  { unfold auditPageFilter. rewrite Hr, Hf, Hph, Hd. cbn. by destruct Has as [-> | ->]. }
  destruct (counted_pinned f (Some o') b (log_ v) Hpos) as [Hc Hp].
  assert (serve (withPage (Some o') (Some b) f) (log_ v) =
    {| total := Z.of_nat (length (upTo b f (log_ v))); items := take (Z.to_nat (serverLimit f)) (drop (Z.to_nat o') (upTo b f (log_ v)));
       answerAsOf := Some b; export_limit := Some EXPORT_MAX |}) as Es by (unfold AuditPages.serve; by rewrite Hc, Hp).
  assert (filter_ (visit s v) = withPage (Some o') (Some b) f) as Efv.
  { unfold visit. cbv zeta. rewrite Eg. destruct (before v); unfold goPage; cbv zeta; rewrite Eg; unfold setFilter; by case_bool_decide. }
  split; [done|]. unfold Shows. setoid_rewrite Efv. destruct (before v) eqn:Eb.
  - unfold visit. cbv zeta. rewrite Eb, Eg, Es. unfold goPage. cbv zeta. rewrite Eg. unfold setFilter. case_bool_decide as Esame; cbn [setExpanded isPlaceholder data].
    + exists log. split; [by right|]. exists o', (Some b). split; [done|]. split; [by right|]. split; [done|]. exists l. rewrite Hd.
      rewrite Hf in Esame. injection Esame as Eo Ea. by rewrite Eo.
    + exists (log_ v). split; [by left|]. exists o', (Some b). split; [done|]. split; [by right|]. split; [done|]. by eexists.
  - exists (log_ v). split; [by left|]. exists o', (Some b). split; [done|]. split; [by right|]. unfold visit. rewrite Eb. cbv zeta. rewrite Eg, Es.
    cbn [answered isPlaceholder data]. split; [done|]. by eexists.
Qed.

Lemma visits_show f b vs : as_of f = None → 0 < b → ∀ log s, Shows f b log s →
  ∃ log', log' ∈ log :: (log_ <$> vs) ∧ Shows f b log' (foldl visit s vs).
Proof using matches_page.
  intros Ha Hpos. induction vs as [|v vs IH]; intros log s Hs; [exists log; by split; [left|]|].
  destruct (visit_shows f b log s v Ha Hpos Hs) as (_ & log1 & H1 & Hs1). destruct (IH log1 _ Hs1) as (log' & Hin & Hs').
  exists log'. split; [|done]. cbn. apply elem_of_cons in Hin as [->|Hin]; [|by do 2 right].
  destruct H1 as [->|[_ ->]]; [right; left|left].
Qed.

Lemma filterb_andb (P Q : Row → bool) l : filterb (λ r, P r && Q r) l = filterb P (filterb Q l).
Proof using Type.
  unfold filterb. induction l as [|r l IH]; [done|]. cbn [List.filter]. destruct (Q r); cbn [List.filter]; [|by rewrite andb_false_r].
  rewrite andb_true_r. destruct (P r); by rewrite IH.
Qed.

(** What is shown of a bound, in the page's terms. *)
Lemma shown_page f b log s n k : limit f = Some k → 0 < k <= 1000 → Shows f b log s → 1 ≤ n →
  filter_ s = withPage (Some (Z.max 0 ((n - 1) * default 50 (limit f)))) (Some b) f →
  itemsOf s = paged (upTo b f log) n k ∧ page s = n ∧ totalOf s = Z.of_nat (length (upTo b f log)) ∧
  totalPages s = ListPage.totalPages (length (upTo b f log)) k.
Proof using Type.
  intros El Hk (o & a & Ho & _ & _ & l & Hl) Hn Ef. rewrite Ef in Ho. injection Ho as <- <-.
  assert (serverLimit f = k) as Esl by (unfold serverLimit; rewrite El; cbn; rewrite (proj2 (Z.leb_gt _ _)) by lia; lia).
  assert (Z.max 0 ((n - 1) * default 50 (limit f)) = (n - 1) * k) as Em by (rewrite El; cbn; nia). rewrite Em in *.
  assert (rowsPerPage s = k) as Hr by (unfold rowsPerPage; rewrite Ef; cbn; by rewrite El). split_and!.
  - unfold itemsOf. rewrite Hl, Esl. done.
  - unfold page, pageOffset. rewrite Hr, Ef. change (default 0 _) with ((n - 1) * k). rewrite Z.div_mul by lia. lia.
  - unfold totalOf. by rewrite Hl.
  - unfold totalPages, totalOf, ListPage.totalPages. by rewrite Hl, Hr.
Qed.

(** C32. The pages turned to after a first read are bound to it, whatever the log becomes
    meanwhile: the page turned to shows the slice of its number of the rows of the
    filter with an id up to the highest there was at the first read, newest first, in
    the log as the server had it when that page was read; and the CSV asks for the
    same filter and the same bound, of every page at once.  Where no row of an id up
    to that bound has come or gone since - rows written meanwhile have higher ones,
    but for one committed late - the pages are of the first read alone: together they
    are the rows it counted, each once. *)
Theorem pages_of_one_read f log s vs v k :
  as_of f = None → 0 < maxId rowId log → limit f = Some k → 0 < k <= 1000 →
  filter_ s = withPage (Some 0) None f → data s = Some (serve (filter_ s) log) → isPlaceholder s = false → 1 ≤ to v →
  let bound := maxId rowId log in
  let s' := foldl visit s (vs ++ [v])%list in
  page s' = to v ∧
  exportCsv s' = omap (λ p : string * option string, t ← p.2; if nonempty t then Some (p.1, t) else None)
    [("service", service f); ("action", action f); ("actor_email", actor_email f); ("target_id", target_id f); ("cluster", cluster f);
     ("namespace", namespace f); ("result", result f); ("since", since f); ("until", until f); ("as_of", Some (pretty bound))] ∧
  (∃ log', log' ∈ log :: (log_ <$> (vs ++ [v])%list) ∧ (before v = false → log' = log_ v) ∧
    itemsOf s' = paged (sortBy newestFirst (filterb (λ r, matches f r && (rowId r <=? bound)) log')) (to v) k ∧
    totalOf s' = Z.of_nat (length (filterb (λ r, matches f r && (rowId r <=? bound)) log'))) ∧
  (Forall (λ w, filterb (λ r, rowId r <=? bound) (log_ w) = filterb (λ r, rowId r <=? bound) log) (vs ++ [v])%list →
    itemsOf s' = paged (counted f log) (to v) k ∧ totalOf s' = Z.of_nat (length (counted f log)) ∧
    concat ((λ i, paged (counted f log) (Z.of_nat i) k) <$> seq 1 (Z.to_nat (totalPages s'))) = counted f log).
Proof using matches_page.
  intros Ha Hpos El Hk Hf Hd Hph Hto bound s'.
  assert (counted f log = upTo bound f log) as Ec by (unfold AuditPages.counted, AuditPages.pinned; by rewrite Ha).
  assert (Shows f bound log s) as H0.
  { exists 0, None. split; [done|]. split; [by left|]. split; [done|]. exists (Some EXPORT_MAX). rewrite Hd, Hf. f_equal. unfold AuditPages.serve.
    assert (counted (withPage (Some 0) None f) log = upTo bound f log) as ->; [|done].
    unfold AuditPages.counted, AuditPages.pinned, upTo. cbn [withPage as_of]. f_equal. apply List.filter_ext. intros r. by rewrite matches_page. }
  destruct (visits_show f bound vs Ha Hpos log s H0) as (log1 & Hin1 & H1).
  destruct (visit_shows f bound log1 _ v Ha Hpos H1) as (Efv & log' & Hl' & H2).
  assert (s' = visit (foldl visit s vs) v) as Es' by (unfold s'; by rewrite foldl_app). rewrite <-Es' in H2, Efv.
  destruct (shown_page f bound log' s' (to v) k El Hk H2 Hto Efv) as (Hi & Hp & Ht & Htp).
  assert (log' ∈ log :: (log_ <$> (vs ++ [v])%list)) as Hin.
  { rewrite fmap_app. destruct Hl' as [->|[_ ->]]; [right; apply elem_of_app; right; left|].
    apply elem_of_cons in Hin1 as [->|Hin1]; [left|right; apply elem_of_app; by left]. }
  split; [done|]. split; [|split].
  - unfold exportCsv, exportAsOf. rewrite auditExportParams_eq, Efv. done.
  - exists log'. split_and!; [done| |done|]; [by destruct Hl' as [|[Hb _]]; [|rewrite Hb]|]. rewrite Ht. unfold upTo. by rewrite sortBy_permutation.
  - intros Hsame. assert (upTo bound f log' = counted f log) as E'; [|rewrite E' in *].
    { rewrite Ec. unfold upTo. f_equal. assert (filterb (λ r, rowId r <=? bound) log' = filterb (λ r, rowId r <=? bound) log) as E.
      { apply elem_of_cons in Hin as [->|(w & -> & Hw)%list_elem_of_fmap]; [done|]. by apply (proj1 (Forall_forall _ _) Hsame). }
      by rewrite !(filterb_andb (matches f) (λ r, rowId r <=? bound)), E. }
    destruct (totalPages_bounds (length (counted f log)) k ltac:(lia)) as (_ & Hb & _). split_and!; [done..|].
    rewrite Htp, paged_upto by lia. apply take_ge. nia.
Qed.
End reads.

(** A search with the filter of the first page asks nothing, although rows were
    written since: the filter is the one shown, so its answer is kept. *)
Theorem same_search_reads_nothing {Row} (parseTypedTime : string → option Z) (toISOString endOfMinuteISO : Z → string) (s : Audit Row) cached a b :
  typedRange parseTypedTime toISOString endOfMinuteISO (sinceText s) false = Some a →
  typedRange parseTypedTime toISOString endOfMinuteISO (untilText s) true = Some b →
  filter_ s = withRange a b (draft s) →
  applyFilter parseTypedTime toISOString endOfMinuteISO cached s = setExpanded None s.
Proof. intros Ha Hb Hf. unfold applyFilter. rewrite Ha, Hb. unfold setFilter. by rewrite bool_decide_true by done. Qed.

(** ** Witnesses *)

Definition sampleLog : list Z := [1; 2; 3].
Definition anyRow (f : AuditLogFilter) (r : Z) : bool := true.
Definition byNewest (a b : Z) : Z := b - a.
Definition readFirst : Audit Z :=
  answered (serve id anyRow byNewest 50000 (withPage (Some 0) None (emptyFilter 2)) sampleLog)
    {| filter_ := withPage (Some 0) None (emptyFilter 2); draft := emptyFilter 2; sinceText := ""; untilText := ""; expandedId := None; data := None; isPlaceholder := false |}.

(** Two rows were written before the second page is read. *)
Lemma pages_of_one_read_witness :
  let s' := foldl (visit id anyRow byNewest 50000) readFirst [{| to := 2; log_ := [1; 2; 3; 4; 5]; before := false |}] in
  itemsOf s' = [1] ∧ itemsOf readFirst = [3; 2] ∧ exportCsv s' = [("as_of", "3")].
Proof.
  destruct (pages_of_one_read id anyRow byNewest 50000 ltac:(done) (emptyFilter 2) sampleLog readFirst [] {| to := 2; log_ := [1; 2; 3; 4; 5]; before := false |} 2
    eq_refl eq_refl eq_refl ltac:(done) eq_refl eq_refl eq_refl ltac:(done)) as (_ & H2 & _ & H1).
  split; [exact (proj1 (H1 ltac:(by repeat constructor)))|]. split; [by vm_compute|exact H2].
Defined.

(** A row of a small id committed between the reads shifts the pages after all: the last
    row of the first page is the first of the second. *)
Example late_row_shifts :
  let first := answered (serve id anyRow byNewest 50000 (withPage (Some 0) None (emptyFilter 2)) [1; 2; 4]) readFirst in
  itemsOf first = [4; 2] ∧ itemsOf (foldl (visit id anyRow byNewest 50000) first [{| to := 2; log_ := [1; 2; 4; 3]; before := false |}]) = [2; 1].
Proof. by vm_compute. Qed.

Lemma same_search_reads_nothing_witness :
  applyFilter (λ _, None) pretty pretty None readFirst = setExpanded None readFirst.
Proof. apply (same_search_reads_nothing (λ _, None) pretty pretty readFirst None None None); by vm_compute. Defined.
