(* ===== verification/GraphView.v ===== *)
(** * The resource graph

    pages/resource-graph/constants.ts, counts.ts, useResourceGraphLayout.tsx and
    ResourceGraph.tsx: the boxes and lines that are drawn of the server's graph, their
    direction and colour, the layout that runs while the input changes, and the lines
    that stay lit.  The traffic lines are those of [Traffic].

    A box is its id; what is written in it and its coordinates in the layout (a library's)
    are left out, but for the grid drawn when the layout fails. *)

From S2P Require Import Prelude JsString OrderedMap Sums Traffic.

#[local] Open Scope string_scope.
#[local] Open Scope Z_scope.

(** ** Kinds, colours *)

Definition kindWeight : list (string * Z) := [
  ("HorizontalPodAutoscaler", 1000); ("Ingress", 950); ("Service", 850); ("Deployment", 850); ("StatefulSet", 850); ("DaemonSet", 850);
  ("CronJob", 820); ("Job", 810); ("ReplicaSet", 800); ("Pod", 700); ("NetworkPolicy", 650); ("PersistentVolumeClaim", 600); ("PersistentVolume", 550);
  ("StorageClass", 500); ("ConfigMap", 400); ("Secret", 400); ("ServiceAccount", 300); ("Role", 250); ("ClusterRole", 250); ("RoleBinding", 200);
  ("ClusterRoleBinding", 200); ("EndpointSlice", 150); ("Endpoints", 150)].

Definition weight (kind : string) : Z := default 0 (assoc kind kindWeight).

Definition pointsUp (sourceKind targetKind : string) : bool := weight sourceKind <? weight targetKind.

Definition GREEN : string := "#22c55e".
Definition YELLOW : string := "#eab308".
Definition RED : string := "#ef4444".
Definition GREY : string := "#64748b".

Definition statusColor (status : string) : string :=
  let s := toLowerCase status in
  let any := some (λ k, includes k s) in
  if any ["running"; "active"; "bound"; "succeeded"; "clusterip"; "nodeport"; "loadbalancer"] then GREEN
  else if any ["pending"; "terminating"; "progressing"] then YELLOW
  else if any ["failed"; "error"; "crashloopbackoff"; "imagepullbackoff"] then RED
  else GREY.

Definition HEALTH_COLOR : list (string * string) := [("ok", GREEN); ("warn", YELLOW); ("error", RED)].

(** A node of the server's graph: what [Traffic] reads of it, and its status. *)
Record Node := { base : GraphNode; n_name : string; status : string; health : string; n_count : Z }.
Record Edge := { e_from : string; e_to : string; e_type : string; e_count : Z }.
Record Graph := { g_nodes : list Node; g_edges : list Edge }.

Definition idOf (n : Node) : string := n_id (base n).
Definition kindOf (n : Node) : string := n_kind (base n).

Definition nodeColor (n : Node) : string := match assoc (health n) HEALTH_COLOR with Some c => c | None => statusColor (status n) end.
Definition isIssueNode (n : Node) : bool := bool_decide (nodeColor n ∈ [YELLOW; RED]).

Record SourceGroup := { sg_id : string; kinds : list string; onByDefault : bool }.

Definition SOURCE_GROUPS : list SourceGroup := [
  {| sg_id := "workloads"; kinds := ["Pod"; "Deployment"; "StatefulSet"; "DaemonSet"; "ReplicaSet"; "Job"; "CronJob"]; onByDefault := true |};
  {| sg_id := "network"; kinds := ["Service"; "Ingress"; "Endpoints"; "EndpointSlice"; "NetworkPolicy"]; onByDefault := true |};
  {| sg_id := "storage"; kinds := ["PersistentVolumeClaim"; "PersistentVolume"; "StorageClass"]; onByDefault := true |};
  {| sg_id := "security"; kinds := ["ServiceAccount"; "Role"; "ClusterRole"; "RoleBinding"; "ClusterRoleBinding"]; onByDefault := false |};
  {| sg_id := "configuration"; kinds := ["ConfigMap"; "Secret"; "HorizontalPodAutoscaler"]; onByDefault := false |}].

Definition ALL_KINDS : list string := SOURCE_GROUPS ≫= kinds.
Definition DEFAULT_KINDS : list string := filterb onByDefault SOURCE_GROUPS ≫= kinds.
Definition ALL_EDGE_TYPES : list string :=
  ["owns"; "selects"; "mounts"; "routes"; "binds"; "bound_to"; "provisions"; "hpa_targets"; "network_policy"; "endpoint_of"; "sa_used_by"].

(** ** Totals *)

Definition among (ids : list string) (e : Edge) : bool := bool_decide (e_from e ∈ ids) && bool_decide (e_to e ∈ ids).

(** The distinct ids, and the lines between two of them. *)
Definition graphTotals (g : Graph) : nat * nat :=
  let ids := setOf (idOf <$> g_nodes g) in (length ids, length (filterb (among ids) (g_edges g))).

Record PodCounts := { pods : Z; groups : Z; apart : Z }.

Definition countPod (acc : PodCounts) (n : Node) : PodCounts :=
  if negb (eqs (kindOf n) "Pod") then acc
  else if n_group (base n) then {| pods := pods acc + n_count n; groups := groups acc + 1; apart := apart acc |}
  else {| pods := pods acc + 1; groups := groups acc; apart := apart acc + 1 |}.

Definition podCounts (g : Graph) : PodCounts := foldl countPod {| pods := 0; groups := 0; apart := 0 |} (g_nodes g).

(** ** What is drawn *)

Inductive View := structure | both | onlyTraffic.
#[global] Instance View_eq_dec : EqDecision View.
Proof. solve_decision. Defined.

Record Input := {
  graph : Graph; kindFilters : list string; edgeTypeFilters : list string; issuesOnly : bool; view : View; traffic : option (list TrafficLine)
}.

(** A relationship line: drawn from the box above to the one below, with its arrow at
    the end the server named. *)
Record Drawn := { d_id : string; d_source : string; d_target : string; arrowAtStart : bool; d_type : string; d_label : Z }.

(** A line as it is drawn and as [focusLines] reads it: a share of a traffic line says which. *)
Record Line := { l_id : string; l_line : option string; l_source : string; l_target : string }.

Definition relationLine (d : Drawn) : Line := {| l_id := d_id d; l_line := None; l_source := d_source d; l_target := d_target d |}.

(** [trafficEdge], of a line and of its share to a port. *)
Definition wholeLine (e : TrafficEdge) : Line := {| l_id := Traffic.id e; l_line := Some (Traffic.id e); l_source := source e; l_target := target e |}.
Definition shareLine (e : PortEdge) : Line := {| l_id := e_id e; l_line := Some (lineId e); l_source := e_source e; l_target := e_target e |}.

Record Layout := {
  boxes : list string; peerBoxes : list string; relations : list Drawn; trafficLines : list Line; heights : list (string * option nat); loops : nat; routed : bool
}.

(** All the lines handed to the layout. *)
Definition drawnLines (l : Layout) : list Line := (relationLine <$> relations l) ++ trafficLines l.

Section layout.
Context (localeCompare : string → string → Z) (i : Input).

(** The nodes the filters keep. *)
Definition keptNodes : list Node :=
  let byKind := filterb (λ n, bool_decide (kindOf n ∈ kindFilters i)) (g_nodes (graph i)) in
  if issuesOnly i then filterb isIssueNode byKind else byKind.

(** [new Map(gNodes.map(n => [n.id, n]))]. *)
Definition byId (l : list Node) : list (string * GraphNode) := foldl (λ m n, upsert (base n) (idOf n) (λ _, base n) m) [] l.

Definition withTraffic : bool := negb (bool_decide (view i = structure)) && bool_decide (is_Some (traffic i)).

Definition placedLines : Built :=
  match traffic i with
  | Some lines => if withTraffic then buildTraffic lines (byId keptNodes) else {| peers := []; edges := []; selfLoops := 0 |}
  | None => {| peers := []; edges := []; selfLoops := 0 |}
  end.

Definition drawnNodes : list Node :=
  if bool_decide (view i = onlyTraffic)
  then let ends := edges placedLines ≫= (λ e, [source e; target e]) in filterb (λ n, bool_decide (idOf n ∈ ends)) keptNodes
  else keptNodes.

(** The traffic view splits the lines by port into the rows of the receiving boxes. *)
Definition portSplit : option (list PortEdge * list (string * list PortRow)) :=
  if bool_decide (view i = onlyTraffic) && withTraffic then Some (byPort localeCompare (edges placedLines)) else None.

(** With traffic on, a box is exactly as tall as the layout assumed. *)
Definition boxSize (x : string) : option nat :=
  if withTraffic then
    match s ← portSplit; assoc x s.2 with Some rows => Some (boxHeight (length rows)) | None => Some BOX_HEIGHT end
  else None.

(** The kind of a drawn id: [new Map(...)] keeps the last node of an id. *)
Definition kindAt (x : string) : string := match find (λ n, eqs (idOf n) x) (rev drawnNodes) with Some n => kindOf n | None => "" end.

Definition drawEdge (j : nat) (e : Edge) : Drawn :=
  let up := pointsUp (kindAt (e_from e)) (kindAt (e_to e)) in
  {| d_id := "e-" +:+ pretty j; d_source := if up then e_to e else e_from e; d_target := if up then e_from e else e_to e; arrowAtStart := up;
     d_type := e_type e; d_label := if 1 <? e_count e then e_count e else 1 |}.

Definition keptEdges : list Edge :=
  filterb (λ e, bool_decide (e_type e ∈ edgeTypeFilters i) && among (idOf <$> drawnNodes) e)
    (if bool_decide (view i = onlyTraffic) then [] else g_edges (graph i)).

Definition layout : Layout :=
  {| boxes := idOf <$> drawnNodes; peerBoxes := (peers placedLines).*1; relations := imap drawEdge keptEdges;
     trafficLines := match portSplit with Some s => shareLine <$> s.1 | None => wholeLine <$> edges placedLines end;
     heights := (λ x, (x, boxSize x)) <$> ((idOf <$> drawnNodes) ++ (peers placedLines).*1)%list; loops := selfLoops placedLines; routed := withTraffic |}.

(** The numbers of the header. *)
Definition shown : nat * nat := (length (boxes layout), length (relations layout)).
End layout.

(** ** The lines that stay lit *)

Inductive Focus := OnEdge (id : string) | OnNode (id : string).

Definition lineOf (l : Line) : string := default (l_id l) (l_line l).

(** The line of the focused edge: its own id when no edge has it. *)
Definition focusLine (edges : list Line) (id : string) : string :=
  match find (λ e, eqs (l_id e) id) edges with Some e => lineOf e | None => id end.

Definition inFocus (edges : list Line) (f : Focus) (l : Line) : bool :=
  match f with
  | OnEdge id => if nonempty (focusLine edges id) then eqs (lineOf l) (focusLine edges id) else false
  | OnNode id => eqs (l_source l) id || eqs (l_target l) id
  end.

(** The ids that are lit, of lines and of boxes. *)
Definition litLines (edges : list Line) (f : Focus) : list string := l_id <$> filterb (inFocus edges f) edges.
Definition litBoxes (edges : list Line) (f : Focus) : list string :=
  (filterb (inFocus edges f) edges ≫= λ l, [l_source l; l_target l]) ++ match f with OnNode id => [id] | OnEdge _ => [] end.

(** What fades of a line or of a box. *)
Definition lineFaded (edges : list Line) (f : option Focus) (l : Line) : bool :=
  match f with Some f => bool_decide (litLines edges f ≠ []) && negb (bool_decide (l_id l ∈ litLines edges f)) | None => false end.
Definition boxFaded (edges : list Line) (f : option Focus) (box : string) : bool :=
  match f with
  | Some f => bool_decide (litLines edges f ≠ []) && negb (bool_decide (box ∈ litBoxes edges f)) && negb (startsWith "group-" box)
  | None => false
  end.

(** What is in focus: the hovered line, the hovered box, the selected line, the box of
    the open window, in that order, where lines are routed. *)
Definition focusOf (routed_ : bool) (hoverEdge hoverNode selected drawerNode : option string) : option Focus :=
  if negb routed_ then None
  else match hoverEdge, hoverNode, selected, drawerNode with
  | Some e, _, _, _ => Some (OnEdge e)
  | None, Some n, _, _ => Some (OnNode n)
  | None, None, Some e, _ => Some (OnEdge e)
  | None, None, None, Some n => Some (OnNode n)
  | None, None, None, None => None
  end.

(** ** The layout while the input changes *)

Record Placed := { p_box : string; p_x : Z; p_y : Z }.

(** The grid of a layout that failed. *)
Definition gridPlace (j : nat) (box : string) : Placed := {| p_box := box; p_x := (Z.of_nat j mod 8) * 250; p_y := (Z.of_nat j / 8) * 100 |}.

(** [current] numbers the run of the effect whose [stale] is still false. *)
Record Shown := { current : nat; input : list string; onScreen : list Placed; layoutReady : bool }.

Inductive LayoutEvent :=
  | Changes (nodes : list string)
  | Finishes (run : nat) (result : option (list Placed)).

Definition layoutStep (s : Shown) (e : LayoutEvent) : Shown :=
  match e with
  | Changes [] => {| current := S (current s); input := []; onScreen := []; layoutReady := true |}
  | Changes nodes => {| current := S (current s); input := nodes; onScreen := onScreen s; layoutReady := false |}
  | Finishes run result =>
      if bool_decide (run = current s) then
        {| current := current s; input := input s; onScreen := match result with Some l => l | None => imap gridPlace (input s) end; layoutReady := true |}
      else s
  end.

Definition layoutRun (es : list LayoutEvent) : Shown := foldl layoutStep {| current := 0; input := []; onScreen := []; layoutReady := false |} es.

(** ** Lemmas *)

Lemma kindAt_drawn i x : x ∈ idOf <$> drawnNodes i → ∃ n, n ∈ drawnNodes i ∧ idOf n = x ∧ kindAt i x = kindOf n.
Proof.
  intros (n & -> & Hn)%list_elem_of_fmap. unfold kindAt. destruct (find (λ n0, eqs (idOf n0) (idOf n)) (rev (drawnNodes i))) as [m|] eqn:E.
  - apply find_Some in E as [Hm Em%eqs_true]. exists m. split_and!; [|done|done]. by apply list_elem_of_In, in_rev, list_elem_of_In.
  - apply find_None in E. eapply Forall_forall in E; [|apply list_elem_of_In, in_rev; rewrite rev_involutive; by apply list_elem_of_In]. by rewrite eqs_refl in E.
Qed.

Lemma filterb_length_le {A} (P Q : A → bool) l : (∀ x, P x = true → Q x = true) → (length (filterb P l) ≤ length (filterb Q l))%nat.
Proof.
  intros H. unfold filterb. induction l as [|x l IH]; [done|]. cbn. destruct (P x) eqn:E; [rewrite (H x E); cbn; lia|]. destruct (Q x); cbn; lia.
Qed.

Lemma keptNodes_in i n : n ∈ keptNodes i → n ∈ g_nodes (graph i).
Proof. unfold keptNodes. destruct (issuesOnly i); rewrite ?elem_of_filterb; tauto. Qed.

Lemma drawnNodes_kept i n : n ∈ drawnNodes i → n ∈ keptNodes i.
Proof. unfold drawnNodes. case_bool_decide; [rewrite elem_of_filterb; tauto|done]. Qed.

Lemma elem_byId (l : list Node) acc x : x ∈ (foldl (λ m n, upsert (base n) (idOf n) (λ _, base n) m) acc l).*1 ↔ x ∈ acc.*1 ∨ x ∈ idOf <$> l.
Proof.
  revert acc. induction l as [|n l IH]; intros acc; cbn; [rewrite elem_of_nil; tauto|]. rewrite IH, elem_upsert_keys, elem_of_cons. tauto.
Qed.

Lemma lines_placed i : match traffic i with Some lines => withTraffic i = true → placed lines (byId (keptNodes i)) (placedLines i) | None => True end.
Proof. destruct (traffic i) as [lines|] eqn:E; [|done]. intros Hw. unfold placedLines. rewrite E, Hw. apply buildTraffic_placed. Qed.

Lemma trafficEdge_ends i e : e ∈ edges (placedLines i) →
  (source e ∈ idOf <$> keptNodes i ∨ source e ∈ (peers (placedLines i)).*1) ∧ (target e ∈ idOf <$> keptNodes i ∨ target e ∈ (peers (placedLines i)).*1).
Proof.
  intros He. pose proof (lines_placed i) as Hl. unfold placedLines in He. destruct (traffic i) as [lines|] eqn:E; [|by apply elem_of_nil in He].
  destruct (withTraffic i) eqn:Ew; [|by apply elem_of_nil in He]. destruct (Hl eq_refl) as (_ & _ & _ & Hd & _).
  assert (e ∈ edges (placedLines i)) as He' by (unfold placedLines; by rewrite E, Ew). destruct (Hd e He') as (_ & _ & _ & _ & _ & [_ Hs] & [_ Ht]).
  unfold byId in Hs, Ht. rewrite elem_byId in Hs, Ht. cbn [fmap list_fmap] in Hs, Ht. rewrite elem_of_nil in Hs, Ht. split; [destruct Hs as [[[]|?]|?]|destruct Ht as [[[]|?]|?]]; auto.
Qed.

(** Layouts that finish leave the input alone; one of the current run decides the screen. *)
Lemma layout_finishes (es' : list LayoutEvent) s0 :
  (∀ e, e ∈ es' → ∃ run r, e = Finishes run r) →
  let s1 := foldl layoutStep s0 es' in
  input s1 = input s0 ∧ current s1 = current s0 ∧
  ((∃ r, Finishes (current s0) r ∈ es') → layoutReady s1 = true) ∧ ((¬ ∃ r, Finishes (current s0) r ∈ es') → s1 = s0) ∧
  ((∃ r, Finishes (current s0) r ∈ es') →
    (∃ l, Finishes (current s0) (Some l) ∈ es' ∧ onScreen s1 = l) ∨ (Finishes (current s0) None ∈ es' ∧ onScreen s1 = imap gridPlace (input s0))).
Proof.
  revert s0. induction es' as [|e es' IH] using rev_ind; intros s0 He.
  - cbn. split_and!; try done; by intros [r Hr%elem_of_nil].
  - destruct (IH s0) as (H1 & H2 & H3 & H4 & H5). { intros x Hx. apply He, elem_of_app. by left. }
    destruct (He e) as (run & r & ->). { apply elem_of_app. right. left. }
    rewrite foldl_app. cbn [foldl]. set (s1 := foldl layoutStep s0 es') in *. cbn [layoutStep]. case_bool_decide as Er.
    + cbn [input current layoutReady onScreen]. rewrite H2 in Er. subst run. split_and!; [done|done|done| |].
      * intros Hn. destruct Hn. exists r. apply elem_of_app. right. left.
      * intros _. destruct r as [l|]; [left; exists l|right]; (split; [apply elem_of_app; right; left|by rewrite ?H1]).
    + assert (∀ x, Finishes (current s0) x ∈ (es' ++ [Finishes run r])%list → Finishes (current s0) x ∈ es') as Hin.
      { intros x [Hx|Hx%list_elem_of_singleton]%elem_of_app; [done|]. injection Hx as Hx _. congruence. }
      split_and!; [done|done| | |].
      * intros [x Hx%Hin]. apply H3. by exists x.
      * intros Hn. apply H4. intros [x Hx]. apply Hn. exists x. apply elem_of_app. by left.
      * intros [x Hx%Hin]. destruct H5 as [(l & Hl & E)|[Hl E]]; [by exists x|left; exists l|right]; (split; [apply elem_of_app; by left|done]).
Qed.

Lemma finishes_dec run (es' : list LayoutEvent) : (∃ r, Finishes run r ∈ es') ∨ ¬ ∃ r, Finishes run r ∈ es'.
Proof.
  induction es' as [|e es' [[r IH]|IH]]; [right; by intros [r []%elem_of_nil]|left; exists r; by right|].
  destruct e as [nodes|run' r']; [|destruct (decide (run = run')) as [->|Hr]; [left; exists r'; left|]]; right; intros [r [E|Hin]%elem_of_cons]; try done; try (apply IH; by exists r).
  by injection E.
Qed.

Lemma gridPlace_apart j k b b' : gridPlace j b = gridPlace k b' → j = k.
Proof. intros [= _ Hx Hy]. pose proof (Z.div_mod (Z.of_nat j) 8 ltac:(lia)). pose proof (Z.div_mod (Z.of_nat k) 8 ltac:(lia)). lia. Qed.

Lemma fmap_bind {A B C} (g : B → C) (f : A → list B) l : g <$> (l ≫= f) = l ≫= (λ x, g <$> f x).
Proof. induction l as [|x l IH]; [done|]. csimpl. by rewrite fmap_app, IH. Qed.

Section drawing.
Context (localeCompare : string → string → Z).
Abbreviation layout := (layout localeCompare).
Abbreviation shown := (shown localeCompare).

Lemma elem_keptEdges i e : e ∈ keptEdges i ↔ view i ≠ onlyTraffic ∧ e ∈ g_edges (graph i) ∧ e_type e ∈ edgeTypeFilters i ∧ e_from e ∈ boxes (layout i) ∧ e_to e ∈ boxes (layout i).
Proof.
  unfold keptEdges, among. rewrite elem_of_filterb, !andb_true_iff, !bool_decide_eq_true. case_bool_decide; [|naive_solver].
  split; [by intros [?%elem_of_nil _]|naive_solver].
Qed.

Lemma relation_kept i d : d ∈ relations (layout i) → ∃ j e, keptEdges i !! j = Some e ∧ d = drawEdge i j e.
Proof. cbn [layout relations]. intros [j Hj]%list_elem_of_lookup. rewrite list_lookup_imap in Hj. destruct (keptEdges i !! j) as [e|] eqn:E; [|done]. injection Hj as <-. by exists j, e. Qed.

(** A line of the traffic, or a share of it, goes where its edge goes. *)
Lemma trafficLine_edge i l : l ∈ trafficLines (layout i) → ∃ e, e ∈ edges (placedLines i) ∧ l_source l = source e ∧ l_target l = target e ∧ l_line l = Some (Traffic.id e).
Proof.
  cbn [layout trafficLines]. unfold portSplit. destruct (_ && _).
  - cbn [fst byPort]. intros (q & -> & (s & -> & (e & Hs & He)%list_elem_of_bind)%list_elem_of_fmap)%list_elem_of_fmap. exists e.
    destruct (splitEdge_in _ _ _ _ Hs) as (Ht & Hf & Hl & _). split; [done|]. cbn. by rewrite Ht, Hf, Hl.
  - intros (e & -> & He)%list_elem_of_fmap. by exists e.
Qed.

Lemma edge_trafficLine i e : e ∈ edges (placedLines i) → ∃ l, l ∈ trafficLines (layout i) ∧ l_source l = source e ∧ l_target l = target e.
Proof.
  intros He. cbn [layout trafficLines]. unfold portSplit. destruct (_ && _).
  - cbn [fst byPort]. destruct (splitEdge_some localeCompare (edges (placedLines i)) e) as [s Hs]. destruct (splitEdge_in _ _ _ _ Hs) as (Ht & Hf & _).
    exists (shareLine (settleEdge s)). split; [|done]. apply list_elem_of_fmap_2, list_elem_of_fmap_2, list_elem_of_bind. by exists e.
  - exists (wholeLine e). split; [by apply list_elem_of_fmap_2|done].
Qed.

Lemma relations_ids i : NoDup (d_id <$> relations (layout i)).
Proof.
  cbn [layout relations]. apply NoDup_alt. intros a b x Ha Hb. rewrite list_lookup_fmap, list_lookup_imap in Ha, Hb.
  destruct (keptEdges i !! a) as [ea|]; [|done]. destruct (keptEdges i !! b) as [eb|]; [|done]. cbn in Ha, Hb. injection Ha as Ha. injection Hb as Hb.
  rewrite <-Hb in Ha. apply (inj (String.append "e-")) in Ha. by apply (inj pretty) in Ha.
Qed.

Lemma edges_ids i : NoDup (Traffic.id <$> edges (placedLines i)) ∧ ∀ e, e ∈ edges (placedLines i) → ∃ j : nat, Traffic.id e = "traffic-" +:+ pretty j.
Proof.
  pose proof (lines_placed i) as Hl. unfold placedLines in *. destruct (traffic i) as [lines|] eqn:E; [|split; [constructor|by intros e He%elem_of_nil]].
  destruct (withTraffic i) eqn:Ew; [|split; [constructor|by intros e He%elem_of_nil]]. destruct (Hl eq_refl) as (_ & Hnd & _ & Hd & _).
  split; [done|]. intros e He. destruct (Hd e He) as (j & _ & Hid & _). by exists j.
Qed.

(** Two ids of shares are the same only of the same line. *)
Lemma share_line i e e' x : e ∈ edges (placedLines i) → e' ∈ edges (placedLines i) →
  (x = Traffic.id e ∨ ∃ ρ, x = Traffic.id e +:+ ":" +:+ ρ) → (x = Traffic.id e' ∨ ∃ ρ, x = Traffic.id e' +:+ ":" +:+ ρ) → Traffic.id e = Traffic.id e'.
Proof.
  destruct (edges_ids i) as [_ H]. intros (j & ->)%H (k & ->)%H. assert (∀ n : nat, free_of ":" ("traffic-" +:+ pretty n)) as Hf.
  { intros n. apply free_of_app. split; [done|]. apply (sall_impl is_digit); [|apply (number_string (N.of_nat n))]. intros c Hc. by case_bool_decide; subst. }
  intros [-> |(ρ & ->)] [Hx|(ρ' & Hx)]; [done|..].
  - pose proof (Hf j) as Hj. rewrite Hx in Hj. by apply free_of_app in Hj as [_ Hj].
  - pose proof (Hf k) as Hk. rewrite <-Hx in Hk. by apply free_of_app in Hk as [_ Hk].
  - by apply free_prefix_inj in Hx as [Hx _].
Qed.

Lemma trafficLines_ids i : NoDup (l_id <$> trafficLines (layout i)) ∧ ∀ l, l ∈ trafficLines (layout i) → ∃ y, l_id l = "traffic-" +:+ y.
Proof.
  destruct (edges_ids i) as [Hnd Hid]. cbn [layout trafficLines]. unfold portSplit. destruct (_ && _).
  - cbn [fst byPort]. rewrite <-!list_fmap_compose. set (sp := splitEdge _ _). change (l_id ∘ shareLine ∘ settleEdge) with e_id. rewrite fmap_bind. split.
    + apply NoDup_bind.
      * intros e e' x He He' Hx Hx'. apply (fmap_one Traffic.id (edges (placedLines i))); try done. eapply share_line; try done; by eapply splitEdge_ids.
      * intros e _. apply splitEdge_ids.
      * by eapply NoDup_fmap_1.
    + intros l (s & -> & (e & Hs & He)%list_elem_of_bind)%list_elem_of_fmap. destruct (Hid e He) as [j Hj].
      destruct (proj2 (splitEdge_ids localeCompare (edges (placedLines i)) e) (e_id s)) as [Hx|[ρ Hx]]; [by apply list_elem_of_fmap_2|..]; cbn; rewrite Hx, Hj; [by eexists|].
      rewrite <-app_assoc_s. by eexists.
  - rewrite <-list_fmap_compose. split; [done|]. intros l (e & -> & He)%list_elem_of_fmap. destruct (Hid e He) as [j Hj]. exists (pretty j). done.
Qed.

Lemma drawnLines_ids i : NoDup (l_id <$> drawnLines (layout i)) ∧ ∀ l, l ∈ drawnLines (layout i) → nonempty (lineOf l) = true.
Proof.
  destruct (trafficLines_ids i) as [Hnd Ht]. assert (∀ x, x ∈ l_id <$> (relationLine <$> relations (layout i)) → ∃ y, x = "e-" +:+ y) as Hr.
  { intros x (l & -> & (d & -> & (j & e & _ & ->)%relation_kept)%list_elem_of_fmap)%list_elem_of_fmap. by eexists. }
  unfold drawnLines. split.
  - rewrite fmap_app. apply NoDup_app. split_and!; [|intros x (y & ->)%Hr (l & E & (z & Hz)%Ht)%list_elem_of_fmap; by rewrite Hz in E|done].
    rewrite <-list_fmap_compose. apply relations_ids.
  - intros l [(d & -> & (j & e & _ & ->)%relation_kept)%list_elem_of_fmap|Hl]%elem_of_app; [done|]. destruct (trafficLine_edge i l Hl) as (e & He & _ & _ & El).
    unfold lineOf. rewrite El. cbn. by destruct (proj2 (edges_ids i) e He) as [j ->].
Qed.

Lemma elem_litLines ls f l : NoDup (l_id <$> ls) → l ∈ ls → (l_id l ∈ litLines ls f ↔ inFocus ls f l = true).
Proof.
  intros Hnd Hl. unfold litLines. rewrite list_elem_of_fmap. setoid_rewrite elem_of_filterb. split; [|intros H; by exists l].
  intros (l' & E & Hl' & H). by rewrite (fmap_one l_id ls l l').
Qed.

(** With a line in focus, what does not fade is what is in focus. *)
Lemma lineFaded_spec ls f l l0 : NoDup (l_id <$> ls) → l0 ∈ ls → inFocus ls f l0 = true → l ∈ ls → lineFaded ls (Some f) l = negb (inFocus ls f l).
Proof.
  intros Hnd H0 H0f%elem_litLines Hl; [|done..]. unfold lineFaded. rewrite bool_decide_true by (intros E; rewrite E in H0f; by apply elem_of_nil in H0f).
  cbn [andb]. f_equal. apply eq_bool_prop_intro. rewrite bool_decide_spec, elem_litLines by done. by destruct (inFocus ls f l).
Qed.

Lemma inFocus_edge ls l l' : NoDup (l_id <$> ls) → (∀ l, l ∈ ls → nonempty (lineOf l) = true) → l ∈ ls → inFocus ls (OnEdge (l_id l)) l' = eqs (lineOf l') (lineOf l).
Proof.
  intros Hnd Hne Hl. cbn [inFocus]. assert (focusLine ls (l_id l) = lineOf l) as ->; [|by rewrite Hne].
  unfold focusLine. destruct (find (λ e, eqs (l_id e) (l_id l)) ls) as [m|] eqn:E.
  - apply find_Some in E as [Hm Em%eqs_true]. by rewrite (fmap_one l_id ls m l).
  - apply find_None in E. eapply Forall_forall in E; [|exact Hl]. by rewrite eqs_refl in E.
Qed.

(** ** Properties *)

(** The relationship lines drawn are the graph's between two boxes drawn, of a type
    that is on, each under an id of its own; none points up: the box it starts at weighs
    no less than the one it ends at, and the arrow is where the server's line ends. *)
Theorem graph_lines_go_down i :
  (∀ e, view i ≠ onlyTraffic → e ∈ g_edges (graph i) → e_type e ∈ edgeTypeFilters i → e_from e ∈ boxes (layout i) → e_to e ∈ boxes (layout i) →
    ∃ j, drawEdge i j e ∈ relations (layout i)) ∧
  (∀ d, d ∈ relations (layout i) →
    d_source d ∈ boxes (layout i) ∧ d_target d ∈ boxes (layout i) ∧ weight (kindAt i (d_target d)) ≤ weight (kindAt i (d_source d)) ∧
    ∃ e, e ∈ g_edges (graph i) ∧ e_type e ∈ edgeTypeFilters i ∧ d_type d = e_type e ∧
      (if arrowAtStart d then (e_to e, e_from e) else (e_from e, e_to e)) = (d_source d, d_target d)) ∧
  NoDup (d_id <$> relations (layout i)).
Proof.
  split_and!.
  - intros e Hv He Ht Hf Hto. assert (e ∈ keptEdges i) as [j Hj]%list_elem_of_lookup by (by apply elem_keptEdges). exists j.
    cbn [layout relations]. apply list_elem_of_lookup. exists j. by rewrite list_lookup_imap, Hj.
  - intros d (j & e & Hj & ->)%relation_kept. assert (e ∈ keptEdges i) as (_ & He & Ht & Hf & Hto)%elem_keptEdges by by eapply list_elem_of_lookup_2.
    unfold drawEdge. cbn [d_source d_target d_type arrowAtStart]. unfold pointsUp. destruct (Z.ltb_spec (weight (kindAt i (e_from e))) (weight (kindAt i (e_to e)))) as [Hw|Hw];
      (split_and!; [done|done|lia|by exists e]).
  - apply relations_ids.
Qed.

(** A traffic line, or its share to a port, ends on boxes that are drawn, nodes or
    stand-ins; the traffic view draws the boxes that have a line and no others, and every
    stand-in has one. *)
Theorem traffic_ends_drawn i :
  let touched x := ∃ l, l ∈ trafficLines (layout i) ∧ (x = l_source l ∨ x = l_target l) in
  (∀ x, touched x → x ∈ boxes (layout i) ∨ x ∈ peerBoxes (layout i)) ∧
  (view i = onlyTraffic → ∀ x, x ∈ boxes (layout i) ↔ x ∈ idOf <$> keptNodes i ∧ touched x) ∧
  (∀ x, x ∈ peerBoxes (layout i) → touched x).
Proof.
  intros touched. assert (∀ x, touched x ↔ ∃ e, e ∈ edges (placedLines i) ∧ (x = source e ∨ x = target e)) as Ht.
  { intros x. split.
    - intros (l & (e & He & Hs & Ht & _)%trafficLine_edge & Hx). exists e. by rewrite <-Hs, <-Ht.
    - intros (e & He & Hx). destruct (edge_trafficLine i e He) as (l & Hl & Hs & Ht). exists l. by rewrite Hs, Ht. }
  assert (view i = onlyTraffic → ∀ x, x ∈ boxes (layout i) ↔ x ∈ idOf <$> keptNodes i ∧ touched x) as Hx.
  { intros Hv x. rewrite Ht. cbn [layout boxes]. unfold drawnNodes. rewrite bool_decide_true by done.
    assert (∀ y, y ∈ (edges (placedLines i) ≫= λ e, [source e; target e]) ↔ ∃ e, e ∈ edges (placedLines i) ∧ (y = source e ∨ y = target e)) as He by set_solver.
    rewrite !list_elem_of_fmap. split.
    - intros (n & -> & [Hn Hd%bool_decide_eq_true]%elem_of_filterb). split; [by exists n|by apply He].
    - intros [(n & -> & Hn) Hl]. exists n. split; [done|]. apply elem_of_filterb. split; [done|]. by apply bool_decide_eq_true, He. }
  split_and!; [|exact Hx|].
  - intros x Hl. destruct (decide (view i = onlyTraffic)) as [Hv|Hv].
    + pose proof Hl as (e & He & Hs)%Ht. destruct (trafficEdge_ends i e He) as [[H1|H1] [H2|H2]], Hs as [-> | ->]; try (by right); left; by apply (Hx Hv).
    + apply Ht in Hl as (e & He & Hs). cbn [layout boxes peerBoxes]. unfold drawnNodes. rewrite bool_decide_false by done.
      destruct (trafficEdge_ends i e He), Hs as [-> | ->]; done.
  - intros x Hp. apply Ht. cbn [layout peerBoxes] in Hp. unfold placedLines in Hp |- *. destruct (traffic i) as [lines|] eqn:E; [|by apply elem_of_nil in Hp].
    destruct (withTraffic i) eqn:Ew; [|by apply elem_of_nil in Hp]. destruct (buildTraffic_placed lines (byId (keptNodes i))) as (_ & _ & _ & _ & H). by apply H.
Qed.

(** A line drawn for a placed one: itself, or its part to one port. *)
Definition PartOf (e : TrafficEdge) (l : Line) : Prop := l_id l = Traffic.id e ∨ ∃ row, l_id l = Traffic.id e +:+ ":" +:+ row.

Lemma traffic_part i l : l ∈ trafficLines (layout i) →
  ∃ e, e ∈ edges (placedLines i) ∧ PartOf e l ∧ l_source l = source e ∧ l_target l = target e ∧ l_line l = Some (Traffic.id e).
Proof.
  cbn [layout trafficLines]. unfold portSplit. destruct (_ && _).
  - cbn [fst byPort]. intros (q & -> & (s & -> & (e & Hs & He)%list_elem_of_bind)%list_elem_of_fmap)%list_elem_of_fmap. exists e.
    destruct (splitEdge_in _ _ _ _ Hs) as (Ht & Hf & Hl & _). split; [done|]. cbn. rewrite Ht, Hf, Hl. split; [|done].
    apply (proj2 (splitEdge_ids localeCompare (edges (placedLines i)) e) (e_id s)). by apply list_elem_of_fmap_2.
  - intros (e & -> & He)%list_elem_of_fmap. exists e. split_and!; [done|by left|done..].
Qed.

Lemma part_line i e l : e ∈ edges (placedLines i) → l ∈ trafficLines (layout i) → PartOf e l → lineOf l = Traffic.id e.
Proof.
  intros He (e0 & He0 & Hp & _ & _ & El)%traffic_part Hpart. unfold lineOf. rewrite El. by apply (share_line i e0 e (l_id l)).
Qed.

(** C21. A line in focus is followed to its end.  Every line of the traffic drawn is a
    part of one placed line, from its source to its target.  With a part in focus the
    parts of the same placed line stay lit and those of others fade, and so do the
    relationships; a relationship in focus is lit alone; a box in focus lights its own
    lines and no other; and neither the ends of a line that is lit nor the box in focus
    fade. *)
Theorem focus_follows_line i :
  let ls := drawnLines (layout i) in
  (∀ l, l ∈ trafficLines (layout i) → ∃ e, e ∈ edges (placedLines i) ∧ PartOf e l ∧ l_source l = source e ∧ l_target l = target e) ∧
  (∀ e e' l l', e ∈ edges (placedLines i) → e' ∈ edges (placedLines i) → l ∈ trafficLines (layout i) → l' ∈ trafficLines (layout i) → PartOf e l → PartOf e' l' →
    lineFaded ls (Some (OnEdge (l_id l))) l' = false ↔ e = e') ∧
  (∀ l d, l ∈ trafficLines (layout i) → d ∈ relations (layout i) → lineFaded ls (Some (OnEdge (l_id l))) (relationLine d) = true) ∧
  (∀ d l', d ∈ relations (layout i) → l' ∈ ls → lineFaded ls (Some (OnEdge (d_id d))) l' = false ↔ l' = relationLine d) ∧
  (∀ n l0 l, l0 ∈ ls → l_source l0 = n ∨ l_target l0 = n → l ∈ ls → lineFaded ls (Some (OnNode n)) l = false ↔ l_source l = n ∨ l_target l = n) ∧
  (∀ n, boxFaded ls (Some (OnNode n)) n = false) ∧
  (∀ f l, l ∈ ls → lineFaded ls (Some f) l = false → boxFaded ls (Some f) (l_source l) = false ∧ boxFaded ls (Some f) (l_target l) = false).
Proof.
  intros ls. destruct (drawnLines_ids i) as [Hnd Hne]. fold ls in Hnd, Hne.
  assert (∀ l l', l ∈ ls → l' ∈ ls → lineFaded ls (Some (OnEdge (l_id l))) l' = negb (eqs (lineOf l') (lineOf l))) as Hedge.
  { intros l l' Hl Hl'. rewrite (lineFaded_spec ls _ l' l); try done; rewrite inFocus_edge by done; [done|apply eqs_refl]. }
  assert (∀ n l, inFocus ls (OnNode n) l = true ↔ l_source l = n ∨ l_target l = n) as Hn by (intros; cbn; by rewrite orb_true_iff, !eqs_true).
  assert (∀ l, l ∈ trafficLines (layout i) → l ∈ ls) as Hin by (intros; apply elem_of_app; by right).
  assert (∀ d, d ∈ relations (layout i) → relationLine d ∈ ls) as Hrel by (intros; apply elem_of_app; left; by apply list_elem_of_fmap_2).
  destruct (edges_ids i) as [Hids Hidn].
  assert (∀ d l, d ∈ relations (layout i) → l ∈ trafficLines (layout i) → lineOf l ≠ d_id d) as Hapart.
  { intros d l (j & e & _ & ->)%relation_kept Hl E. destruct (traffic_part i l Hl) as (e0 & He0 & Hp & _). rewrite (part_line i e0 l) in E by done.
    destruct (Hidn e0 He0) as [k Hk]. rewrite Hk in E. done. }
  split_and!.
  - intros l (e & He & Hp & Hs & Ht & _)%traffic_part. by exists e.
  - intros e e' l l' He He' Hl Hl' Hp Hp'. rewrite Hedge, (part_line i e l), (part_line i e' l') by auto. rewrite negb_false_iff, eqs_true.
    split; [|by intros ->]. intros E. symmetry. by apply (fmap_one Traffic.id (edges (placedLines i))).
  - intros l d Hl Hd. rewrite Hedge by auto. apply negb_true_iff, eqs_false. intros E. by apply (Hapart d l).
  - intros d l' Hd Hl'. change (d_id d) with (l_id (relationLine d)). rewrite Hedge by auto. rewrite negb_false_iff, eqs_true. split; [|by intros ->].
    change (lineOf (relationLine d)) with (d_id d). apply elem_of_app in Hl' as [(d' & -> & Hd')%list_elem_of_fmap|Hl']; [|by intros ?%(Hapart d l')].
    change (lineOf (relationLine d')) with (d_id d'). intros E. f_equal. by apply (fmap_one d_id (relations (layout i)) d' d (relations_ids i)).
  - intros n l0 l H0 H0n Hl. rewrite (lineFaded_spec ls _ l l0); [|done|done|by apply Hn|done]. rewrite negb_false_iff. apply Hn.
  - intros n. unfold boxFaded, litBoxes. rewrite (bool_decide_true (n ∈ _)) by (apply elem_of_app; right; left). by rewrite andb_false_r.
  - intros f l Hl Hf. unfold boxFaded, lineFaded in *. destruct (bool_decide (litLines ls f ≠ [])); cbn [andb] in *; [|done].
    apply negb_false_iff, bool_decide_eq_true, elem_litLines in Hf; [|done..].
    assert (∀ x, x = l_source l ∨ x = l_target l → x ∈ litBoxes ls f) as H.
    { intros x Hx. apply elem_of_app. left. apply list_elem_of_bind. exists l. split; [destruct Hx as [-> | ->]; [left|right; left]|by apply elem_of_filterb]. }
    by rewrite !bool_decide_true by (apply H; auto).
Qed.

(** What the header says is drawn is no more than the graph has; with every kind and
    type on and no traffic, it is the graph's totals. *)
Theorem shown_within_totals i :
  NoDup (idOf <$> g_nodes (graph i)) →
  ((shown i).1 ≤ (graphTotals (graph i)).1 ∧ (shown i).2 ≤ (graphTotals (graph i)).2)%nat ∧
  (view i ≠ onlyTraffic → issuesOnly i = false → (∀ n, n ∈ g_nodes (graph i) → kindOf n ∈ kindFilters i) → (∀ e, e ∈ g_edges (graph i) → e_type e ∈ edgeTypeFilters i) →
    shown i = graphTotals (graph i)).
Proof.
  intros Hn. unfold graphTotals. rewrite setOf_fixed, length_fmap by done. unfold shown. cbn [layout boxes relations]. rewrite length_fmap, length_imap. split.
  - cbn [fst snd]. split.
    + transitivity (length (keptNodes i)).
      * unfold drawnNodes. case_bool_decide; [|done]. apply List.filter_length_le.
      * unfold keptNodes, filterb. destruct (issuesOnly i); [etransitivity; apply List.filter_length_le|apply List.filter_length_le].
    + unfold keptEdges. case_bool_decide; [cbn; lia|]. apply filterb_length_le. intros e [_ He]%andb_true_iff. unfold among in *. apply andb_true_iff in He as [H1 H2].
      rewrite bool_decide_eq_true in H1, H2. apply andb_true_iff. rewrite !bool_decide_eq_true.
      assert (∀ x, x ∈ idOf <$> drawnNodes i → x ∈ idOf <$> g_nodes (graph i)) as Hin.
      { intros x (n & -> & Hd)%list_elem_of_fmap. by apply list_elem_of_fmap_2, keptNodes_in, drawnNodes_kept. }
      split; by apply Hin.
  - intros Hv Hi Hk Ht. assert (drawnNodes i = g_nodes (graph i)) as ->.
    { unfold drawnNodes, keptNodes. rewrite bool_decide_false, Hi by done. unfold filterb. clear -Hk. induction (g_nodes (graph i)) as [|n l IH]; [done|]. cbn.
      rewrite bool_decide_true by (apply Hk; left). f_equal. apply IH. intros m Hm. apply Hk. by right. }
    f_equal. unfold keptEdges. rewrite bool_decide_false by done. unfold filterb. f_equal.
    assert (drawnNodes i = g_nodes (graph i)) as ->.
    { unfold drawnNodes, keptNodes. rewrite bool_decide_false, Hi by done. unfold filterb. clear -Hk. induction (g_nodes (graph i)) as [|n l IH]; [done|]. cbn.
      rewrite bool_decide_true by (apply Hk; left). f_equal. apply IH. intros m Hm. apply Hk. by right. }
    assert (∀ es, (∀ e, e ∈ es → e_type e ∈ edgeTypeFilters i) → List.filter (λ e, bool_decide (e_type e ∈ edgeTypeFilters i) && among (idOf <$> g_nodes (graph i)) e) es =
      List.filter (among (idOf <$> g_nodes (graph i))) es) as Hes; [|by apply Hes].
    induction es as [|e es IH]; intros Hes; [done|]. cbn. rewrite bool_decide_true by (apply Hes; left). cbn [andb]. rewrite IH; [done|]. intros x Hx. apply Hes. by right.
Qed.

End drawing.

(** The pods counted are those drawn apart and the members of the groups. *)
Theorem graph_pods_counted g :
  let c := podCounts g in
  let isPod n := eqs (kindOf n) "Pod" in
  apart c = Z.of_nat (length (filterb (λ n, isPod n && negb (n_group (base n))) (g_nodes g))) ∧
  groups c = Z.of_nat (length (filterb (λ n, isPod n && n_group (base n)) (g_nodes g))) ∧
  pods c = apart c + sumOf n_count (filterb (λ n, isPod n && n_group (base n)) (g_nodes g)).
Proof.
  intros c isPod. unfold c, podCounts. assert (∀ l acc,
    let r := foldl countPod acc l in
    apart r = apart acc + Z.of_nat (length (filterb (λ n, isPod n && negb (n_group (base n))) l)) ∧
    groups r = groups acc + Z.of_nat (length (filterb (λ n, isPod n && n_group (base n)) l)) ∧
    pods r - apart r = pods acc - apart acc + sumOf n_count (filterb (λ n, isPod n && n_group (base n)) l)) as H.
  { unfold filterb. induction l as [|n l IH]; intros acc; [cbn; lia|]. cbn [foldl List.filter]. destruct (IH (countPod acc n)) as (-> & -> & Hp).
    unfold countPod, isPod in *. destruct (eqs (kindOf n) "Pod"); cbn [negb andb] in *; [|cbn; lia]. destruct (n_group (base n)); cbn [negb apart groups pods length sumOf] in *; cbn; lia. }
  destruct (H (g_nodes g) {| pods := 0; groups := 0; apart := 0 |}) as (-> & -> & Hp). cbn in *. lia.
Qed.

(** C34. However the layouts of the inputs overlap, what is on screen once ready is a
    layout of the last input: the result of its own run, or a grid that gives each of
    its boxes a place apart. *)
Theorem layout_of_last_input es nodes es' :
  nodes ≠ [] → (∀ e, e ∈ es' → ∃ run r, e = Finishes run r) →
  let before := layoutRun es in
  let s := layoutRun (es ++ Changes nodes :: es') in
  input s = nodes ∧ current s = S (current before) ∧
  (layoutReady s = true ↔ ∃ r, Finishes (current s) r ∈ es') ∧
  (layoutReady s = false → onScreen s = onScreen before) ∧
  (layoutReady s = true → (∃ l, Finishes (current s) (Some l) ∈ es' ∧ onScreen s = l) ∨ (Finishes (current s) None ∈ es' ∧ onScreen s = imap gridPlace nodes)) ∧
  ∀ j k b b', gridPlace j b = gridPlace k b' → j = k.
Proof.
  intros Hne Hes before s. unfold s, layoutRun. rewrite foldl_app. cbn [foldl]. change (foldl layoutStep _ es) with before.
  replace (layoutStep before (Changes nodes)) with {| current := S (current before); input := nodes; onScreen := onScreen before; layoutReady := false |} by (by destruct nodes).
  destruct (layout_finishes es' {| current := S (current before); input := nodes; onScreen := onScreen before; layoutReady := false |} Hes) as (-> & -> & H3 & H4 & H5).
  cbn [input current onScreen layoutReady] in *. destruct (finishes_dec (S (current before)) es') as [Hr|Hr].
  - rewrite H3 by done. split_and!; try done; [by intros _; apply H5|apply gridPlace_apart].
  - rewrite H4 by done. split_and!; try done. apply gridPlace_apart.
Qed.

(** ** Witnesses *)

Definition aNode (kind name : string) : Node :=
  {| base := {| n_id := nodeId kind "shop" name; n_kind := kind; n_namespace := "shop"; n_group := false; n_members := [] |};
     n_name := name; status := "Running"; health := "ok"; n_count := 1 |}.
Definition sampleGraph : Graph :=
  {| g_nodes := [aNode "Service" "web"; aNode "Pod" "web"; aNode "Pod" "api"; aNode "EndpointSlice" "web"];
     g_edges := [{| e_from := "Service/shop/web"; e_to := "Pod/shop/web"; e_type := "selects"; e_count := 1 |};
                 {| e_from := "EndpointSlice/shop/web"; e_to := "Service/shop/web"; e_type := "endpoint_of"; e_count := 1 |}] |}.
Definition sampleInput (v : View) : Input :=
  {| graph := sampleGraph; kindFilters := ALL_KINDS; edgeTypeFilters := ALL_EDGE_TYPES; issuesOnly := false; view := v; traffic := Some sampleLines |}.

Lemma shown_within_totals_witness : shown byCodeOrder (sampleInput both) = graphTotals sampleGraph ∧ shown byCodeOrder (sampleInput both) = (4, 2)%nat.
Proof.
  split; [|by vm_compute]. apply (shown_within_totals byCodeOrder (sampleInput both)); [by apply (bool_decide_unpack _); vm_compute|done|done|..].
  - intros n Hn. assert (Forall (λ n, kindOf n ∈ ALL_KINDS) (g_nodes sampleGraph)) as H by (by apply (bool_decide_unpack _); vm_compute). by eapply Forall_forall in H.
  - intros e He. assert (Forall (λ e, e_type e ∈ ALL_EDGE_TYPES) (g_edges sampleGraph)) as H by (by apply (bool_decide_unpack _); vm_compute). by eapply Forall_forall in H.
Defined.

(** The input changes while a layout runs: what that run finishes is dropped. *)
Lemma layout_of_last_input_witness :
  let s := layoutRun ([Changes ["a"]] ++ Changes ["b"; "c"] :: [Finishes 1 (Some []); Finishes 2 None]) in
  layoutReady s = true ∧ p_box <$> onScreen s = ["b"; "c"].
Proof.
  destruct (layout_of_last_input [Changes ["a"]] ["b"; "c"] [Finishes 1 (Some []); Finishes 2 None]) as (_ & _ & Hr & _ & Hs & _); [done| |].
  - intros e [-> |[-> |[]%elem_of_nil]%elem_of_cons]%elem_of_cons; by do 2 eexists.
  - assert (layoutReady (layoutRun ([Changes ["a"]] ++ Changes ["b"; "c"] :: [Finishes 1 (Some []); Finishes 2 None])) = true) as H by (apply Hr; exists None; right; left).
    split; [exact H|]. destruct (Hs H) as [(l & Hl & E)|[_ E]]; [|by rewrite E].
    exfalso. apply elem_of_cons in Hl as [E'|[E'|[]%elem_of_nil]%elem_of_cons]; by vm_compute in E'.
Defined.

(** The endpoints' line is drawn from the service down to them. *)
Example endpoints_line :
  (λ d, (d_source d, d_target d, arrowAtStart d)) <$> relations (layout byCodeOrder (sampleInput structure)) =
  [("Service/shop/web", "Pod/shop/web", false); ("Service/shop/web", "EndpointSlice/shop/web", true)].
Proof. by vm_compute. Qed.

Example split_by_port : length (trafficLines (layout byCodeOrder (sampleInput onlyTraffic))) = 9%nat ∧ boxes (layout byCodeOrder (sampleInput onlyTraffic)) = ["Pod/shop/web"; "Pod/shop/api"].
Proof. split; by vm_compute. Qed.

(** The parts of the line in focus stay lit together, those of the two others fade. *)
Lemma focus_follows_line_witness :
  let i := sampleInput onlyTraffic in
  let ls := drawnLines (layout byCodeOrder i) in
  (λ l, lineFaded ls (Some (OnEdge (nth 0 (l_id <$> ls) ""))) l) <$> ls = (replicate 6 false ++ replicate 3 true)%list ∧
  boxFaded ls (Some (OnNode "Pod/shop/web")) "Pod/shop/web" = false.
Proof.
  split; [by vm_compute|].
  exact (proj1 (proj2 (proj2 (proj2 (proj2 (proj2 (focus_follows_line byCodeOrder (sampleInput onlyTraffic))))))) "Pod/shop/web").
Defined.
