(* ===== verification/Issues.v ===== *)
(** * The issues of the dashboard

    pages/dashboard/issues.ts and types.ts: the rows the check of the cluster answers, as
    the Issues window searches, orders, groups and counts them, and the window a row
    opens.  The collation of [localeCompare] is an argument. *)

From Stdlib Require Import Sorted.
From S2P Require Import Prelude JsString OrderedMap Sums Sorting Json Drawer.

#[local] Open Scope string_scope.
#[local] Open Scope Z_scope.

(** ** Rows *)

Inductive IssueSeverity := critical | warning | info.
#[global] Instance IssueSeverity_eq_dec : EqDecision IssueSeverity.
Proof. solve_decision. Defined.

Definition severityText (s : IssueSeverity) : string := match s with critical => "critical" | warning => "warning" | info => "info" end.

Record ClusterIssue := {
  ci_id : string; ci_kind : string; ci_namespace : option string; ci_name : string; ci_severity : IssueSeverity; ci_reason : option string; ci_message : option string;
  last_seen : option string; ci_restarts : option Z; ci_failed : option Z; ci_events : option Z; api_version : option string
}.

Record IssueItem := {
  i_id : string; i_kind : string; severity : IssueSeverity; title : string; subtitle : option string; i_namespace : option string; i_name : option string;
  lastSeen : option string; restarts : option Z; i_failed : option Z; events : option Z; i_apiVersion : option string
}.

Definition SEVERITY_RANK (s : IssueSeverity) : Z := match s with critical => 0 | warning => 1 | info => 2 end.

Definition KIND_ORDER : list string :=
  ["Node"; "Deployment"; "StatefulSet"; "DaemonSet"; "Job"; "CronJob"; "HorizontalPodAutoscaler"; "PersistentVolumeClaim"; "Pod"; "Collector"].

Definition kindRank (kind : string) : Z := Z.of_nat (default (length KIND_ORDER) (findIndex (eqs kind) KIND_ORDER)).

(** The texts of a list that are not empty. *)
Definition texts (l : list (option string)) : list string := filterb nonempty (default "" <$> l).

Definition toIssueItem (issue : ClusterIssue) : IssueItem :=
  let sub := join " · " (texts [ci_reason issue; ci_message issue]) in
  {| i_id := ci_id issue; i_kind := ci_kind issue; severity := ci_severity issue; title := ci_name issue; subtitle := orNone (Some sub);
     i_namespace := orNone (ci_namespace issue); i_name := Some (ci_name issue); lastSeen := last_seen issue; restarts := ci_restarts issue;
     i_failed := ci_failed issue; events := ci_events issue; i_apiVersion := api_version issue |}.

Definition issueTarget (issue : IssueItem) : option ResourceDetailTarget :=
  let n := default "" (i_name issue) in
  if eqs (i_kind issue) "Collector" || negb (nonempty n) then None
  else Some (detailTarget (i_kind issue) n (i_namespace issue) (i_apiVersion issue) VUndef).

(** ** Searched, ordered, grouped, counted *)

Record IssuesSummary := { s_total : Z; s_critical : Z; s_warning : Z; s_info : Z; s_all : Z }.
Record DerivedIssues := { sortedIssues : list IssueItem; issuesByKind : list (string * list IssueItem); kinds : list string; issuesSummary : IssuesSummary }.

Definition issueText (it : IssueItem) : string :=
  toLowerCase (join " " (texts [Some (i_kind it); Some (severityText (severity it)); i_namespace it; i_name it; subtitle it])).

Definition matchesIssue (q : string) (it : IssueItem) : bool := if nonempty q then includes q (issueText it) else true.

Definition countIssue (acc : IssuesSummary) (it : IssueItem) : IssuesSummary :=
  let one s n := if bool_decide (severity it = s) then n + 1 else n in
  {| s_total := s_total acc + 1; s_critical := one critical (s_critical acc); s_warning := one warning (s_warning acc); s_info := one info (s_info acc); s_all := s_all acc |}.

Section issues.
Context (localeCompare : string → string → Z).

Definition byKindThenName (a b : string) : Z := thenBy (λ a b, kindRank a - kindRank b) localeCompare a b.

Definition issueOrder (a b : IssueItem) : Z :=
  thenBy (λ a b, SEVERITY_RANK (severity a) - SEVERITY_RANK (severity b))
    (thenBy (λ a b, byKindThenName (i_kind a) (i_kind b)) (λ a b, localeCompare (i_id a) (i_id b))) a b.

Definition groupByKind (l : list IssueItem) : list (string * list IssueItem) := tally i_kind [] (λ it g, (g ++ [it])%list) l.

Definition deriveIssues (issues : option (list ClusterIssue)) (query : string) : DerivedIssues :=
  let q := toLowerCase (trim query) in
  let found := filterb (matchesIssue q) (toIssueItem <$> default [] issues) in
  let sorted := sortBy issueOrder found in
  let groups := groupByKind sorted in
  {| sortedIssues := sorted; issuesByKind := groups; kinds := sortBy byKindThenName groups.*1;
     issuesSummary := foldl countIssue {| s_total := 0; s_critical := 0; s_warning := 0; s_info := 0; s_all := Z.of_nat (length (default [] issues)) |} sorted |}.
End issues.

(** ** Lemmas *)

Lemma issueOrder_consistent lc : Consistent lc → Consistent (issueOrder lc).
Proof.
  intros C. unfold issueOrder. apply thenBy_consistent; [apply (minus_consistent (λ a, SEVERITY_RANK (severity a)))|].
  apply thenBy_consistent; [apply (on_consistent i_kind (byKindThenName lc))|by apply (on_consistent i_id lc)].
  apply thenBy_consistent; [apply minus_consistent|done].
Qed.

(** A list is its parts under the keys it has. *)
Lemma parts_permutation {A} (f : A → string) ks l :
  NoDup ks → (∀ x, x ∈ l → f x ∈ ks) → (ks ≫= λ k, filterb (λ x, eqs k (f x)) l) ≡ₚ l.
Proof.
  intros Hnd. induction l as [|x l IH]; intros Hin; [by clear; induction ks|].
  etransitivity; [|apply perm_skip, (IH (λ y Hy, Hin y (list_elem_of_further y x l Hy)))]. assert (f x ∈ ks) as Hx by (apply Hin; left). clear Hin IH.
  induction Hnd as [|k ks Hk Hnd IH]; [by apply elem_of_nil in Hx|]. rewrite !bind_cons. unfold filterb at 1. cbn [List.filter]. destruct (eqs k (f x)) eqn:E.
  - apply eqs_true in E as ->. apply perm_skip. f_equiv. apply reflexive_eq. clear -Hk. induction ks as [|k ks IH]; [done|]. rewrite !bind_cons.
    rewrite IH by (intros H; apply Hk; by right). f_equal. unfold filterb. cbn. rewrite (proj2 (eqs_false k (f x))); [done|]. intros ->. apply Hk. left.
  - apply eqs_false in E. rewrite IH; [by rewrite Permutation_middle|]. by apply elem_of_cons in Hx as [Hx|].
Qed.

Lemma groupByKind_group l k : default [] (assoc k (groupByKind l)) = filterb (λ it, eqs k (i_kind it)) l.
Proof.
  unfold groupByKind. rewrite tally_lookup. assert (∀ xs (acc : list IssueItem), foldl (λ g it, (g ++ [it])%list) acc xs = (acc ++ xs)%list) as H.
  { induction xs as [|x xs IH]; intros acc; cbn; [by rewrite app_nil_r|]. by rewrite IH, <-(assoc_L (++)%list). }
  destruct (filterb _ l) as [|x xs]; [done|]. cbn [default from_option]. by rewrite H.
Qed.

Lemma countIssue_sum l acc :
  let r := foldl countIssue acc l in
  let n s := Z.of_nat (length (filterb (λ it, bool_decide (severity it = s)) l)) in
  s_total r = s_total acc + Z.of_nat (length l) ∧ s_all r = s_all acc ∧
  s_critical r = s_critical acc + n critical ∧ s_warning r = s_warning acc + n warning ∧ s_info r = s_info acc + n info.
Proof.
  revert acc. unfold filterb. induction l as [|it l IH]; intros acc; [cbn; lia|]. cbn [foldl List.filter]. destruct (IH (countIssue acc it)) as (-> & -> & -> & -> & ->).
  unfold countIssue. cbn [s_total s_all s_critical s_warning s_info]. destruct (severity it); repeat case_bool_decide; try done; cbn [length]; lia.
Qed.

Lemma severities_partition l :
  length l = (length (filterb (λ it, bool_decide (severity it = critical)) l) + length (filterb (λ it, bool_decide (severity it = warning)) l) +
              length (filterb (λ it, bool_decide (severity it = info)) l))%nat.
Proof. unfold filterb. induction l as [|it l IH]; [done|]. cbn [List.filter]. destruct (severity it); repeat case_bool_decide; try done; cbn [length]; lia. Qed.

Lemma no_search l : filterb (matchesIssue "") l = l.
Proof. unfold filterb. induction l as [|it l IH]; [done|]. cbn. by rewrite IH. Qed.

(** ** Properties *)

(** What the Issues window lists: the rows the search matches, each once, the critical
    first, then by kind; each kind is one group, in its place, holding its rows in that
    order, and the groups together are the list; the severities add up to the total,
    which is all of them without a search. *)
Theorem issues_grouped lc issues query :
  Consistent lc →
  let d := deriveIssues lc issues query in
  let sum := issuesSummary d in
  sortedIssues d ≡ₚ filterb (matchesIssue (toLowerCase (trim query))) (toIssueItem <$> default [] issues) ∧
  StronglySorted (λ a b, issueOrder lc a b ≤ 0) (sortedIssues d) ∧
  StronglySorted (λ a b, SEVERITY_RANK (severity a) ≤ SEVERITY_RANK (severity b)) (sortedIssues d) ∧
  NoDup (kinds d) ∧ StronglySorted (λ a b, kindRank a ≤ kindRank b) (kinds d) ∧
  (∀ k, k ∈ kinds d ↔ ∃ it, it ∈ sortedIssues d ∧ i_kind it = k) ∧
  (∀ k, default [] (assoc k (issuesByKind d)) = filterb (λ it, eqs k (i_kind it)) (sortedIssues d)) ∧
  (kinds d ≫= λ k, default [] (assoc k (issuesByKind d))) ≡ₚ sortedIssues d ∧
  s_total sum = Z.of_nat (length (sortedIssues d)) ∧ s_total sum = s_critical sum + s_warning sum + s_info sum ∧
  s_all sum = Z.of_nat (length (default [] issues)) ∧ s_total sum ≤ s_all sum ∧ (trim query = "" → s_total sum = s_all sum).
Proof.
  intros C d sum. pose proof (issueOrder_consistent lc C) as CO. unfold sum. cbn [d deriveIssues sortedIssues kinds issuesByKind issuesSummary].
  set (found := filterb _ _). set (l := sortBy _ found).
  assert (length l = length found) as Hlen by (by apply Permutation_length, sortBy_permutation).
  assert (length found ≤ length (default [] issues))%nat as Hle by (unfold found, filterb; etransitivity; [apply List.filter_length_le|by rewrite length_fmap]).
  destruct (countIssue_sum l {| s_total := 0; s_critical := 0; s_warning := 0; s_info := 0; s_all := Z.of_nat (length (default [] issues)) |}) as (-> & -> & -> & -> & ->).
  cbn [s_total s_critical s_warning s_info s_all]. pose proof (severities_partition l) as Hp.
  assert (∀ k, k ∈ sortBy (byKindThenName lc) (groupByKind l).*1 ↔ k ∈ i_kind <$> l) as Hk by (intros k; rewrite sortBy_permutation; apply tally_keys).
  assert (NoDup (sortBy (byKindThenName lc) (groupByKind l).*1)) as Hnd by (rewrite sortBy_permutation; apply tally_nodup).
  split_and!; try lia; try done.
  - apply sortBy_permutation.
  - by apply sortBy_sorted.
  - eapply sorted_impl; [|by apply sortBy_sorted]. intros a b Hab%thenBy_le. lia.
  - eapply sorted_impl; [|apply sortBy_sorted, thenBy_consistent; [apply (minus_consistent kindRank)|done]]. intros a b Hab%thenBy_le. lia.
  - intros k. rewrite Hk, list_elem_of_fmap. split; [intros (it & -> & ?)|intros (it & ? & <-)]; eauto.
  - apply groupByKind_group.
  - etransitivity; [|apply (parts_permutation i_kind _ l Hnd); intros it Hit; apply Hk; by apply list_elem_of_fmap_2].
    apply reflexive_eq, list_bind_ext; [|done]. intros k. apply groupByKind_group.
  - intros Hq. rewrite Hlen. unfold found. rewrite Hq. change (toLowerCase "") with "". by rewrite no_search, length_fmap.
Qed.

(** ** Witnesses *)

Definition anIssue (k n : string) (s : IssueSeverity) : ClusterIssue :=
  {| ci_id := k +:+ "/" +:+ n; ci_kind := k; ci_namespace := Some "shop"; ci_name := n; ci_severity := s; ci_reason := Some "Failed"; ci_message := None;
     last_seen := None; ci_restarts := None; ci_failed := None; ci_events := None; api_version := None |}.
Definition sampleIssues : list ClusterIssue :=
  [anIssue "Pod" "web" warning; anIssue "Pod" "api" critical; anIssue "Gateway" "edge" critical; anIssue "Node" "n1" warning; anIssue "Collector" "jobs" info].

Lemma issues_grouped_witness :
  let d := deriveIssues byUnits (Some sampleIssues) "" in
  kinds d = ["Node"; "Pod"; "Collector"; "Gateway"] ∧ (title <$> sortedIssues d) = ["api"; "edge"; "n1"; "web"; "jobs"] ∧
  s_total (issuesSummary d) = s_all (issuesSummary d).
Proof.
  split; [by vm_compute|]. split; [by vm_compute|].
  destruct (issues_grouped byUnits (Some sampleIssues) "" byUnits_consistent) as (_ & _ & _ & _ & _ & _ & _ & _ & _ & _ & _ & _ & H). by apply H.
Defined.

Example collector_opens_nothing : issueTarget (toIssueItem (anIssue "Collector" "jobs" info)) = None.
Proof. reflexivity. Qed.
