(* ===== verification/SavedSearches.v ===== *)
(** * The saved searches

    components/search/savedSearchStore.ts and SavedSearches.tsx: the expressions a reader
    keeps in the browser, read and written whole, and the menu that saves, renames and
    deletes them.

    The browser's storage is one text under one key, shared by the tabs: [None] where it
    has none.  Each reading and each writing of it may be refused ([blocked]): the
    storage is closed to the page, or full.  [JSON.parse] ([None] is the SyntaxError)
    and [JSON.stringify] are arguments; a number is whole, JSON has no other that the code
    writes.  The id of a new search and its time are given with the event. *)

From S2P Require Import Prelude JsString OrderedMap Json.

#[local] Open Scope string_scope.
#[local] Open Scope Z_scope.

(** ** The store *)

Definition MAX_SAVED : nat := 50.

Record SavedSearch := { s_id : string; s_name : string; s_query : string; s_resources : list string; s_namespace : string; createdAt : Z }.
#[global] Instance SavedSearch_eq_dec : EqDecision SavedSearch.
Proof. solve_decision. Defined.

Record SavedSearchInput := { in_name : string; in_query : string; in_resources : list string; in_namespace : string }.

Definition texts (v : value) : list string := omap (λ r, match r with VStr t => if nonempty t then Some t else None | _ => None end) (asArray v).

Definition normalize (v : value) : option SavedSearch :=
  if negb (truthy v) || negb (isObject v) then None else
  match v .@ "id", v .@ "name", v .@ "query", v .@ "createdAt" with
  | VStr i, VStr n, VStr q, VNum c =>
      if negb (nonempty (trim n)) || negb (nonempty (trim q)) then None else
      Some {| s_id := i; s_name := trim n; s_query := trim q; s_resources := setOf (texts (v .@ "resources"));
              s_namespace := match v .@ "namespace" with VStr t => t | _ => "" end; createdAt := c |}
  | _, _, _, _ => None
  end.

Definition toValue (s : SavedSearch) : value :=
  VObj [("id", VStr (s_id s)); ("name", VStr (s_name s)); ("query", VStr (s_query s)); ("resources", VArr (VStr <$> s_resources s));
        ("namespace", VStr (s_namespace s)); ("createdAt", VNum (createdAt s))].

Section store.
Context (parse : string → option value) (stringify : value → string).

(** [getItem] and [JSON.parse] may throw: nothing is read then. *)
Definition readSavedSearches (blocked : bool) (item : option string) : list SavedSearch :=
  if blocked then [] else
  let raw := default "" item in
  match (if nonempty raw then parse raw else Some (VArr [])) with Some (VArr l) => take MAX_SAVED (omap normalize l) | _ => [] end.

(** What [setItem] leaves in the storage. *)
Definition writeSavedSearches (blocked : bool) (searches : list SavedSearch) (item : option string) : option string :=
  if blocked then item else Some (stringify (VArr (toValue <$> take MAX_SAVED searches))).

Definition addSavedSearch (searches : list SavedSearch) (input : SavedSearchInput) (id : string) (now : Z) : list SavedSearch :=
  match normalize (toValue {| s_id := id; s_name := in_name input; s_query := in_query input; s_resources := in_resources input;
                             s_namespace := in_namespace input; createdAt := now |}) with
  | None => searches
  | Some next => take MAX_SAVED (next :: searches)
  end.

Definition withName (n : string) (s : SavedSearch) : SavedSearch :=
  {| s_id := s_id s; s_name := n; s_query := s_query s; s_resources := s_resources s; s_namespace := s_namespace s; createdAt := createdAt s |}.

Definition renameSavedSearch (searches : list SavedSearch) (id name : string) : list SavedSearch :=
  let trimmed := trim name in
  if nonempty trimmed then (λ s, if eqs (s_id s) id then withName trimmed s else s) <$> searches else searches.

Definition deleteSavedSearch (searches : list SavedSearch) (id : string) : list SavedSearch := filterb (λ s, negb (eqs (s_id s) id)) searches.

(** ** The menu *)

(** The window that names a search: a new one, or that of an id. *)
Record Editing := { e_id : option string; e_name : string }.

(** [asked] is what [confirm] waits for: the search to delete, of the list it was asked in. *)
Record Menu := { searches : list SavedSearch; open_ : bool; edits : option Editing; asked : option (list SavedSearch * string) }.

Definition newMenu (blocked : bool) (item : option string) : Menu := {| searches := readSavedSearches blocked item; open_ := false; edits := None; asked := None |}.

(** What the page holds when a search is saved. *)
Record OnPage := { p_query : string; p_resources : list string; p_namespace : string }.

Inductive Event :=
  | Toggles
  | Clicks_away
  | Saves (suggested : string)
  | Renames (id name : string)
  | Types (name : string)
  | Cancels
  | Submits (page : OnPage) (id : string) (now : Z)
  | Asks (id : string)
  | Answers (ok : bool).

Definition withMenu (o : bool) (e : option Editing) (m : Menu) : Menu := {| searches := searches m; open_ := o; edits := e; asked := asked m |}.
Definition withAsked (a : option (list SavedSearch * string)) (m : Menu) : Menu := {| searches := searches m; open_ := open_ m; edits := edits m; asked := a |}.

Definition submitted (e : Editing) (p : OnPage) (id : string) (now : Z) (l : list SavedSearch) : list SavedSearch :=
  if nonempty (default "" (e_id e)) then renameSavedSearch l (default "" (e_id e)) (e_name e)
  else addSavedSearch l {| in_name := e_name e; in_query := p_query p; in_resources := p_resources p; in_namespace := p_namespace p |} id now.

(** A step of the menu, and the list it writes. *)
Definition handle (m : Menu) (e : Event) : Menu * option (list SavedSearch) :=
  let commit next m := ({| searches := next; open_ := open_ m; edits := edits m; asked := asked m |}, Some next) in
  match e with
  | Toggles => (withMenu (negb (open_ m)) (edits m) m, None)
  | Clicks_away => (withMenu false (edits m) m, None)
  | Saves suggested => (withMenu (open_ m) (Some {| e_id := None; e_name := suggested |}) m, None)
  | Renames id name => (withMenu false (Some {| e_id := Some id; e_name := name |}) m, None)
  | Types name => (withMenu (open_ m) (match edits m with Some e => Some {| e_id := e_id e; e_name := name |} | None => None end) m, None)
  | Cancels => (withMenu (open_ m) None m, None)
  | Submits p id now =>
      match edits m with
      | Some e => if nonempty (trim (e_name e)) then commit (submitted e p id now (searches m)) (withMenu (open_ m) None m) else (m, None)
      | None => (m, None)
      end
  | Asks id => (withAsked (Some (searches m, id)) (withMenu false (edits m) m), None)
  | Answers ok =>
      match asked m with
      | Some (l, id) => if ok then commit (deleteSavedSearch l id) (withAsked None m) else (withAsked None m, None)
      | None => (m, None)
      end
  end.

(** A tab: its menu over the storage of the browser. *)
Definition step (blocked : bool) (s : Menu * option string) (e : Event) : Menu * option string :=
  let r := handle s.1 e in (r.1, match r.2 with Some l => writeSavedSearches blocked l s.2 | None => s.2 end).

(** The tabs of a browser over one storage.  A tab opens and reads, if it may; or its
    menu takes an event, whose write, if any, is taken by the storage or refused. *)
Record SearchTabs := { tabs : list Menu; storage : option string }.

Inductive Act :=
  | Opens (readable : bool)
  | Does (tab : nat) (taken : bool) (e : Event).

Definition act (w : SearchTabs) (a : Act) : SearchTabs :=
  match a with
  | Opens readable => {| tabs := (tabs w ++ [newMenu (negb readable) (storage w)])%list; storage := storage w |}
  | Does i taken e =>
      match tabs w !! i with
      | Some m => let s := step (negb taken) (m, storage w) e in {| tabs := <[i:=s.1]> (tabs w); storage := s.2 |}
      | None => w
      end
  end.

Definition runs (w : SearchTabs) (acts : list Act) : SearchTabs := foldl act w acts.

(** *** What happened

    The tabs opened, with what they read, and the lists written, with whether the
    storage took them. *)
Inductive Happened := Opened (tab : nat) (l : list SavedSearch) | Wrote (tab : nat) (taken : bool) (l : list SavedSearch).

Definition happened (w : SearchTabs) (a : Act) : list Happened :=
  match a with
  | Opens readable => [Opened (length (tabs w)) (readSavedSearches (negb readable) (storage w))]
  | Does i taken e =>
      match tabs w !! i with
      | Some m => match (handle m e).2 with Some l => [Wrote i taken l] | None => [] end
      | None => []
      end
  end.

Fixpoint history (w : SearchTabs) (acts : list Act) : list Happened :=
  match acts with [] => [] | a :: acts' => (happened w a ++ history (act w a) acts')%list end.

(** The list the storage took last, and the one a tab read or wrote last. *)
Definition lastTaken (d : list SavedSearch) (h : list Happened) : list SavedSearch :=
  foldl (λ cur x, match x with Wrote _ true l => l | _ => cur end) d h.

Definition lastOf (i : nat) (d : option (list SavedSearch)) (h : list Happened) : option (list SavedSearch) :=
  foldl (λ cur x, match x with Opened j l | Wrote j _ l => if Nat.eqb j i then Some l else cur end) d h.
End store.

(** ** Lemmas *)

(** A search as the store keeps it. *)
Definition Kept (s : SavedSearch) : Prop :=
  trim (s_name s) = s_name s ∧ s_name s ≠ "" ∧ trim (s_query s) = s_query s ∧ s_query s ≠ "" ∧ NoDup (s_resources s) ∧ "" ∉ s_resources s.

Definition Stored (l : list SavedSearch) : Prop := (length l ≤ MAX_SAVED)%nat ∧ Forall Kept l.

Lemma texts_strings l : texts (VArr (VStr <$> l)) = filterb nonempty l.
Proof. unfold texts, filterb. cbn. induction l as [|x l IH]; [done|]. cbn. rewrite IH. by destruct (nonempty x). Qed.

Lemma elem_texts v x : x ∈ texts v → x ≠ "".
Proof. unfold texts. rewrite list_elem_of_omap. intros (y & _ & Hy). destruct y; try done. by destruct (nonempty s) eqn:E; [injection Hy as <-; apply nonempty_true in E|]. Qed.

Lemma normalize_kept v s : normalize v = Some s → Kept s.
Proof.
  unfold normalize. destruct (_ || _); [done|]. destruct (v .@ "id"); try done. destruct (v .@ "name"); try done. destruct (v .@ "query"); try done.
  destruct (v .@ "createdAt"); try done. destruct (nonempty (trim s1)) eqn:E1; [|done]. destruct (nonempty (trim s2)) eqn:E2; [|done]. cbn. intros [= <-].
  apply nonempty_true in E1, E2. split_and!; cbn [s_name s_query s_resources]; rewrite ?trim_idem; try done; [apply setOf_nodup|]. rewrite elem_setOf. by intros ?%elem_texts.
Qed.

Lemma normalize_toValue s : Kept s → normalize (toValue s) = Some s.
Proof.
  intros (Hn & Hn' & Hq & Hq' & Hr & Hr'). unfold normalize.
  change (toValue s .@ "id") with (VStr (s_id s)). change (toValue s .@ "name") with (VStr (s_name s)). change (toValue s .@ "query") with (VStr (s_query s)).
  change (toValue s .@ "createdAt") with (VNum (createdAt s)). change (toValue s .@ "resources") with (VArr (VStr <$> s_resources s)). change (toValue s .@ "namespace") with (VStr (s_namespace s)).
  change (negb (truthy (toValue s)) || negb (isObject (toValue s))) with false. cbv iota.
  rewrite Hn, Hq. apply nonempty_true in Hn' as ->. apply nonempty_true in Hq' as ->. change (negb true || negb true) with false. cbv iota. rewrite texts_strings. assert (filterb nonempty (s_resources s) = s_resources s) as ->.
  { clear Hr. unfold filterb. induction (s_resources s) as [|x l IH]; [done|]. cbn. destruct (nonempty x) eqn:E; [by rewrite IH by set_solver|].
    destruct x; [|done]. destruct Hr'. left. }
  rewrite setOf_fixed by done. by destruct s.
Qed.

(** ** Properties *)

Section kept.
Context (parse : string → option value) (stringify : value → string).
Context (written : ∀ l, stringify (VArr (toValue <$> l)) ≠ "" ∧ parse (stringify (VArr (toValue <$> l))) = Some (VArr (toValue <$> l))).
Abbreviation readSavedSearches := (readSavedSearches parse).
Abbreviation writeSavedSearches := (writeSavedSearches stringify).
Abbreviation act := (act parse stringify).
Abbreviation runs := (runs parse stringify).
Abbreviation history := (history parse stringify).

Lemma read_stored b item : Stored (readSavedSearches b item).
Proof.
  unfold SavedSearches.readSavedSearches. destruct b; [by split; [cbn; lia|constructor]|].
  destruct (if nonempty (default "" item) then _ else _) as [[]|]; try (by split; [cbn; lia|constructor]).
  split; [rewrite length_take; lia|]. apply Forall_take, Forall_forall. intros s (v & _ & Hv)%list_elem_of_omap. by eapply normalize_kept.
Qed.

Lemma read_written l item : Stored l → readSavedSearches false (writeSavedSearches false l item) = l.
Proof using written.
  intros [Hl Hk]. unfold SavedSearches.readSavedSearches, SavedSearches.writeSavedSearches. cbv zeta.
  change (default "" (Some (stringify (VArr (toValue <$> take MAX_SAVED l))))) with (stringify (VArr (toValue <$> take MAX_SAVED l))). destruct (written (take MAX_SAVED l)) as [Hne Hp].
  rewrite (proj2 (nonempty_true _) Hne), Hp. rewrite (take_ge l) by done. assert (omap normalize (toValue <$> l) = l) as ->; [|by apply take_ge].
  clear -Hk. induction Hk as [|s l Hs Hk IH]; [done|].
  change (match normalize (toValue s) with Some y => y :: omap normalize (toValue <$> l) | None => omap normalize (toValue <$> l) end = s :: l).
  rewrite normalize_toValue by done. by f_equal.
Qed.

Lemma add_stored l i id now : Stored l → Stored (addSavedSearch l i id now).
Proof.
  intros [Hl Hk]. unfold addSavedSearch. destruct (normalize _) as [s|] eqn:E; [|done]. split; [rewrite length_take; lia|].
  apply Forall_take. constructor; [by eapply normalize_kept|done].
Qed.

Lemma rename_stored l id n : Stored l → Stored (renameSavedSearch l id n).
Proof.
  intros [Hl Hk]. unfold renameSavedSearch. destruct (nonempty (trim n)) eqn:E; [|done]. apply nonempty_true in E. split; [by rewrite length_fmap|].
  apply Forall_fmap. eapply Forall_impl; [exact Hk|]. intros s (H1 & H2 & H3 & H4 & H5 & H6). cbn. destruct (eqs _ _); [|by split_and!].
  split_and!; cbn [withName s_name s_query s_resources]; try done. apply trim_idem.
Qed.

Lemma delete_stored l id : Stored l → Stored (deleteSavedSearch l id).
Proof.
  intros [Hl Hk]. unfold deleteSavedSearch, filterb. split; [etransitivity; [apply List.filter_length_le|done]|].
  apply Forall_forall. intros s [Hs _]%elem_of_filterb. by eapply Forall_forall in Hk.
Qed.

Definition MenuStored (m : Menu) : Prop := Stored (searches m) ∧ ∀ l id, asked m = Some (l, id) → Stored l.

Lemma handle_stored m e : MenuStored m → MenuStored (handle m e).1 ∧ match (handle m e).2 with Some l => searches (handle m e).1 = l ∧ Stored l | None => searches (handle m e).1 = searches m end.
Proof.
  intros Hm. pose proof Hm as [Hs Ha]. destruct e; cbn; try (by split; [split|]).
  - destruct (edits m) as [ed|]; [|by split; [split|]]. destruct (nonempty (trim (e_name ed))); [|by split; [split|]].
    assert (Stored (submitted ed page id now (searches m))) as H by (unfold submitted; destruct (nonempty _); [by apply rename_stored|by apply add_stored]). by split; [split|].
  - split; [split|]; try done. cbn. by intros l i [= <- <-].
  - destruct (asked m) as [[l id]|] eqn:E; [|by split]. destruct ok.
    + assert (Stored (deleteSavedSearch l id)) by (eapply delete_stored, Ha; done). by split; [split|].
    + by split; [split|].
Qed.

Lemma added l i id now : trim (in_name i) ≠ "" → trim (in_query i) ≠ "" →
  ∃ s, addSavedSearch l i id now = s :: take (MAX_SAVED - 1) l ∧ s_id s = id ∧ s_name s = trim (in_name i) ∧ s_query s = trim (in_query i) ∧
    s_namespace s = in_namespace i ∧ createdAt s = now ∧ ∀ r, r ∈ s_resources s ↔ r ∈ in_resources i ∧ r ≠ "".
Proof.
  intros Hn%nonempty_true Hq%nonempty_true. eexists. split.
  - unfold addSavedSearch, normalize. set (v := toValue _). change (v .@ "id") with (VStr id). change (v .@ "name") with (VStr (in_name i)). change (v .@ "query") with (VStr (in_query i)).
    change (v .@ "createdAt") with (VNum now). change (v .@ "resources") with (VArr (VStr <$> in_resources i)). change (v .@ "namespace") with (VStr (in_namespace i)).
    change (negb (truthy v) || negb (isObject v)) with false. cbv iota. rewrite Hn, Hq. reflexivity.
  - cbn [s_id s_name s_query s_namespace createdAt s_resources]. split_and!; try done. intros r. rewrite elem_setOf, texts_strings, elem_of_filterb, nonempty_true. done.
Qed.

(** *** The tabs and the storage *)

Definition Fine (w : SearchTabs) : Prop := Forall MenuStored (tabs w).

Lemma open_stored b item : MenuStored (newMenu parse b item).
Proof. split; [apply read_stored|]. cbn. by intros. Qed.

Lemma act_fine w a : Fine w → Fine (act w a).
Proof.
  unfold Fine. intros H. destruct a as [readable|i taken e]; cbn.
  - apply Forall_app_2; [done|]. constructor; [apply open_stored|constructor].
  - destruct (tabs w !! i) as [m|] eqn:Em; [|done]. cbn. apply Forall_insert; [done|]. apply handle_stored. by eapply Forall_lookup_1.
Qed.

(** A step of any tab, in the storage and on its screen. *)
Lemma act_storage w a : Fine w →
  readSavedSearches false (storage (act w a)) = lastTaken (readSavedSearches false (storage w)) (happened parse w a).
Proof using written.
  intros H. destruct a as [readable|i taken e]; [done|]. cbn. destruct (tabs w !! i) as [m|] eqn:Em; [|done]. cbn.
  destruct (handle_stored m e) as [_ Hl]; [by eapply Forall_lookup_1|]. destruct (handle m e).2 as [l|]; [|done]. destruct taken; [|done]. cbn.
  destruct Hl as [_ Hl]. by apply (read_written l (storage w)).
Qed.

Lemma act_screen w a i : Fine w →
  searches <$> (tabs (act w a) !! i) = lastOf i (searches <$> (tabs w !! i)) (happened parse w a).
Proof.
  intros H. destruct a as [readable|j taken e]; cbn.
  - destruct (Nat.eqb (length (tabs w)) i) eqn:E; [apply Nat.eqb_eq in E as <-; by rewrite list_lookup_middle|]. apply Nat.eqb_neq in E.
    destruct (decide (i < length (tabs w))%nat); [by rewrite lookup_app_l|]. rewrite lookup_app_r, (lookup_ge_None_2 (tabs w)) by lia.
    by rewrite lookup_ge_None_2 by (cbn; lia).
  - destruct (tabs w !! j) as [m|] eqn:Em; [|done]. cbn. destruct (handle_stored m e) as [_ Hl]; [by eapply Forall_lookup_1|].
    destruct (decide (j = i)) as [<-|Hne].
    + rewrite list_lookup_insert_eq by (by eapply lookup_lt_Some). rewrite Em. destruct (handle m e).2 as [l|]; cbn; [rewrite Nat.eqb_refl; by destruct Hl as [-> _]|by rewrite Hl].
    + rewrite list_lookup_insert_ne by done. destruct (handle m e).2 as [l|]; [|done]. cbn. by rewrite (proj2 (Nat.eqb_neq _ _)).
Qed.

Lemma runs_happened w acts i : Fine w →
  Fine (runs w acts) ∧ readSavedSearches false (storage (runs w acts)) = lastTaken (readSavedSearches false (storage w)) (history w acts) ∧
  searches <$> (tabs (runs w acts) !! i) = lastOf i (searches <$> (tabs w !! i)) (history w acts).
Proof using written.
  revert w. induction acts as [|a acts IH]; intros w H; [done|]. destruct (IH (act w a) (act_fine w a H)) as (H1 & H2 & H3).
  split; [exact H1|]. unfold lastTaken, lastOf. cbn [SavedSearches.history]. rewrite !foldl_app. fold (lastTaken (readSavedSearches false (storage w)) (happened parse w a)).
  fold (lastOf i (searches <$> (tabs w !! i)) (happened parse w a)). rewrite <-act_storage, <-act_screen by done. done.
Qed.

(** C36. Whatever the tabs of a browser do, one after the other, with the storage taking or
    refusing each write: a reload reads the list the storage took last, of whichever
    tab, or else what it held; a tab shows the list it wrote last, taken or not, or
    else what it read when it opened.  So what a tab shows is what its reload reads
    after a write of its own that was taken, as long as no other tab's is and it has
    none refused.  A list is at most fifty searches, each with a name and an
    expression, trimmed, its resource types once each. *)
Theorem searches_survive_reload item acts :
  let w0 := {| tabs := []; storage := item |} in
  let w := runs w0 acts in let h := history w0 acts in
  readSavedSearches false (storage w) = lastTaken (readSavedSearches false item) h ∧
  (∀ i m, tabs w !! i = Some m → lastOf i None h = Some (searches m) ∧ Stored (searches m)) ∧
  ∀ i m h1 l h2, tabs w !! i = Some m → h = (h1 ++ Wrote i true l :: h2)%list →
    (∀ j taken l', Wrote j taken l' ∈ h2 → j ≠ i ∧ taken = false) → (∀ l', Opened i l' ∉ h2) →
    readSavedSearches false (storage w) = searches m.
Proof using written.
  intros w0 w h. assert (Fine w0) as H0 by constructor.
  assert (readSavedSearches false (storage w) = lastTaken (readSavedSearches false item) h) as Hr by (by apply (runs_happened w0 acts 0)).
  assert (∀ i m, tabs w !! i = Some m → lastOf i None h = Some (searches m) ∧ Stored (searches m)) as Ht.
  { intros i m Hm. destruct (runs_happened w0 acts i H0) as (Hf & _ & Hs). split.
    - fold w h in Hs. rewrite Hm in Hs. symmetry. exact Hs.
    - eapply Forall_lookup_1 in Hf; [|exact Hm]. apply Hf. }
  split_and!; [done..|]. intros i m h1 l h2 Hm Eh Hq Ho. destruct (Ht i m Hm) as [Hs _]. rewrite Hr, Eh. rewrite Eh in Hs.
  unfold lastTaken, lastOf in *. rewrite foldl_app. rewrite foldl_app in Hs. cbn [foldl] in Hs |- *. rewrite Nat.eqb_refl in Hs. clear Eh Hm Hr Ht. revert Hs.
  induction h2 as [|x h2 IH]; [by intros [= ->]|]. cbn [foldl].
  assert (∀ j taken l', Wrote j taken l' ∈ h2 → j ≠ i ∧ taken = false) as Hq' by (intros j taken l' ?; apply (Hq j taken l'); by right).
  assert (∀ l', Opened i l' ∉ h2) as Ho' by (intros l' ?; apply (Ho l'); by right).
  destruct x as [j l'|j taken l'].
  - rewrite (proj2 (Nat.eqb_neq j i)); [by apply IH|]. intros ->. apply (Ho l'). left.
  - destruct (Hq j taken l') as [Hji ->]; [left|]. rewrite (proj2 (Nat.eqb_neq j i)) by done. by apply IH.
Qed.

(** A saved search is first in the list and the oldest beyond fifty is dropped; but a
    tab saves the list it read when it was opened: what another tab saved since is lost,
    from the storage and from every list read after. *)
Theorem other_tab_forgotten item a b p ida idb nowa nowb :
  trim a ≠ "" → trim b ≠ "" → trim (p_query p) ≠ "" →
  let l := readSavedSearches false item in
  let tabA := foldl (step stringify false) (newMenu parse false item, item) [Saves a; Submits p ida nowa] in
  let tabB := foldl (step stringify false) (newMenu parse false item, tabA.2) [Saves b; Submits p idb nowb] in
  (∃ s, readSavedSearches false tabA.2 = s :: take (MAX_SAVED - 1) l ∧ s_id s = ida ∧ s_name s = trim a ∧ s_query s = trim (p_query p)) ∧
  (∃ s, readSavedSearches false tabB.2 = s :: take (MAX_SAVED - 1) l ∧ s_id s = idb) ∧
  (ida ≠ idb → ida ∉ s_id <$> l → ida ∉ s_id <$> readSavedSearches false tabB.2).
Proof using written.
  intros Ha%nonempty_true Hb%nonempty_true Hq l tabA tabB. unfold tabA, tabB. cbn [foldl step handle fst snd withMenu edits e_name open_ searches newMenu asked].
  rewrite Ha, Hb. cbn [fst snd submitted e_id nonempty from_option]. change (nonempty (default "" None)) with false. cbv iota.
  assert (∀ n id now, nonempty (trim n) = true → ∃ s, let i := {| in_name := n; in_query := p_query p; in_resources := p_resources p; in_namespace := p_namespace p |} in
    Stored (addSavedSearch l i id now) ∧ addSavedSearch l i id now = s :: take (MAX_SAVED - 1) l ∧ s_id s = id ∧ s_name s = trim n ∧ s_query s = trim (p_query p)) as H.
  { intros n id now Hn%nonempty_true. destruct (added l {| in_name := n; in_query := p_query p; in_resources := p_resources p; in_namespace := p_namespace p |} id now Hn Hq)
      as (s & E & ? & ? & ? & _). exists s. split_and!; try done. apply add_stored, read_stored. }
  destruct (H a ida nowa Ha) as (sa & Hsa & Ea & Ia & Na & Qa). destruct (H b idb nowb Hb) as (sb & Hsb & Eb & Ib & _ & _).
  change (SavedSearches.readSavedSearches parse false item) with l. rewrite !read_written by done. split_and!.
  - by exists sa.
  - by exists sb.
  - intros Hne Hin. unfold submitted. change (nonempty (default "" (e_id {| e_id := None; e_name := b |}))) with false. cbn [e_name]. rewrite Eb. cbn [fmap list_fmap].
    rewrite elem_of_cons. intros [E|Hx]; [congruence|]. apply Hin. apply list_elem_of_fmap in Hx as (x & -> & Hx).
    apply list_elem_of_fmap_2. by apply (subseteq_take (MAX_SAVED - 1) l).
Qed.
End kept.

(** ** Witnesses *)

(** A text for every list of searches, that reads back. *)
Definition rowOf (s : SavedSearch) : string * string * string * list string * string * Z := (s_id s, s_name s, s_query s, s_resources s, s_namespace s, createdAt s).
Definition ofRow (r : string * string * string * list string * string * Z) : SavedSearch :=
  let '(i, n, q, l, ns, c) := r in {| s_id := i; s_name := n; s_query := q; s_resources := l; s_namespace := ns; createdAt := c |}.

Definition fromString (v : value) : option string := match v with VStr t => Some t | _ => None end.
Definition fromValue (v : value) : option SavedSearch :=
  match v .@ "id", v .@ "name", v .@ "query", mapM fromString (asArray (v .@ "resources")), v .@ "namespace", v .@ "createdAt" with
  | VStr i, VStr n, VStr q, Some l, VStr ns, VNum c => Some {| s_id := i; s_name := n; s_query := q; s_resources := l; s_namespace := ns; createdAt := c |}
  | _, _, _, _, _, _ => None
  end.

Definition numbered (v : value) : string :=
  match mapM fromValue (asArray v) with Some l => String "[" (pretty (Zpos (encode (rowOf <$> (l : list SavedSearch))))) | None => "" end.
Definition unnumbered (t : string) : option value :=
  z ← digitsValue 0 (match t with String _ t => t | "" => "" end); rows ← decode (Z.to_pos z); Some (VArr (toValue <$> (ofRow <$> (rows : list (string * string * string * list string * string * Z))))).

Lemma fromValue_toValue s : fromValue (toValue s) = Some s.
Proof.
  unfold fromValue. change (toValue s .@ "id") with (VStr (s_id s)). change (toValue s .@ "name") with (VStr (s_name s)). change (toValue s .@ "query") with (VStr (s_query s)).
  change (toValue s .@ "createdAt") with (VNum (createdAt s)). change (asArray (toValue s .@ "resources")) with (VStr <$> s_resources s). change (toValue s .@ "namespace") with (VStr (s_namespace s)).
  assert (mapM fromString (VStr <$> s_resources s) = Some (s_resources s)) as ->; [|by destruct s]. induction (s_resources s) as [|x l IH]; [done|]. cbn. by rewrite IH.
Qed.

Lemma numbered_written l : numbered (VArr (toValue <$> l)) ≠ "" ∧ unnumbered (numbered (VArr (toValue <$> l))) = Some (VArr (toValue <$> l)).
Proof.
  assert (numbered (VArr (toValue <$> l)) = String "[" (pretty (Zpos (encode (rowOf <$> l))))) as ->.
  { unfold numbered. cbn [asArray]. assert (mapM fromValue (toValue <$> l) = Some l) as ->; [|done]. induction l as [|s l IH]; [done|]. cbn. by rewrite fromValue_toValue; cbn; rewrite IH. }
  split; [done|]. unfold unnumbered. rewrite digitsValue_pretty by done. cbn. rewrite decode_encode. cbn. do 2 f_equal. rewrite <-!list_fmap_compose. apply list_fmap_ext. by intros _ [] _.
Qed.

Definition onPage : OnPage := {| p_query := "kind == Pod"; p_resources := ["Pod"; ""; "Pod"]; p_namespace := "shop" |}.

(** A tab saves a search, another opens with a storage that is full, and saves. *)
Definition sampleActs : list Act :=
  [Opens true; Does 0 true (Saves "pods"); Does 0 true (Submits onPage "1" 5); Does 0 true (Renames "1" "pods"); Does 0 true (Types " my pods ");
   Does 0 true (Submits onPage "2" 6); Opens true; Does 1 true (Saves "jobs"); Does 1 false (Submits onPage "3" 7)].

Lemma searches_survive_reload_witness :
  let w := runs unnumbered numbered {| tabs := []; storage := None |} sampleActs in
  (∃ m, tabs w !! 0%nat = Some m ∧ readSavedSearches unnumbered false (storage w) = searches m) ∧
  (λ m, s_name <$> searches m) <$> tabs w = [["my pods"]; ["jobs"; "my pods"]].
Proof.
  split; [|by lazy]. destruct (searches_survive_reload unnumbered numbered numbered_written None sampleActs) as (_ & _ & H).
  eexists. split; [reflexivity|]. eapply (H 0%nat _ [Opened 0 []; _] _ [Opened 1 _; Wrote 1 false _]).
  - reflexivity.
  - lazy; reflexivity.
  - intros j taken l' Hin. apply elem_of_cons in Hin as [E|Hin]; [discriminate E|]. apply list_elem_of_singleton in Hin as [= -> -> _]. split; [discriminate|reflexivity].
  - intros l' Hin. apply elem_of_cons in Hin as [E|Hin]; [discriminate E|]. by apply list_elem_of_singleton in Hin.
Defined.

Lemma other_tab_forgotten_witness :
  let tabA := foldl (step numbered false) (newMenu unnumbered false None, None) [Saves "mine"; Submits onPage "1" 5] in
  let tabB := foldl (step numbered false) (newMenu unnumbered false None, tabA.2) [Saves "yours"; Submits onPage "2" 6] in
  "1" ∉ s_id <$> readSavedSearches unnumbered false tabB.2.
Proof.
  apply (other_tab_forgotten unnumbered numbered numbered_written None "mine" "yours" onPage "1" "2" 5 6); try (by vm_compute). cbn. by intros ?%elem_of_nil.
Defined.
