(* ===== verification/Scrolling.v ===== *)
(** * What scrolls

    hooks/useStickToBottom.ts: a chat follows new text while its reader is at the bottom.
    hooks/useAdaptiveRowsPerPage.ts: how many rows of a table fit.
    pages/ai-chat/hooks/useSessionsScrollViewport.ts and SessionSidebar.tsx: which rows of
    the sidebar are drawn, and when more conversations are asked for.

    Lengths are whole pixels and times whole milliseconds; the browser keeps a scroll
    position between none and the end ([clamp]). *)

From S2P Require Import Prelude JsString Sums.

#[local] Open Scope Z_scope.

(** ** A box that scrolls *)

Record ScrollBox := { scrollHeight : Z; scrollTop : Z; clientHeight : Z }.

Definition distanceFromBottom (el : ScrollBox) : Z := scrollHeight el - scrollTop el - clientHeight el.

Definition NEAR_BOTTOM_PX : Z := 80.
Definition PROGRAMMATIC_MS : Z := 700.

Definition isNearBottom (el : ScrollBox) : bool := distanceFromBottom el <=? NEAR_BOTTOM_PX.

(** What the browser makes of an assignment to [scrollTop]. *)
Definition clamp (el : ScrollBox) (top : Z) : ScrollBox :=
  {| scrollHeight := scrollHeight el; scrollTop := Z.max 0 (Z.min top (scrollHeight el - clientHeight el)); clientHeight := clientHeight el |}.

Definition withHeight (h : Z) (el : ScrollBox) : ScrollBox :=
  clamp {| scrollHeight := h; scrollTop := scrollTop el; clientHeight := clientHeight el |} (scrollTop el).

(** ** Following new text *)

Record Stick := { el : ScrollBox; following : bool; atBottom : bool; programmaticUntil : Z }.

Inductive StickEvent :=
  | NewText (height : Z)
  | Scrolled (top now : Z)
  | Wheel (deltaY : Z)
  | Jump (instant : bool) (now : Z).

Definition setFollowing (v : bool) (s : Stick) : Stick := {| el := el s; following := v; atBottom := v; programmaticUntil := programmaticUntil s |}.
Definition withEl (e : ScrollBox) (s : Stick) : Stick := {| el := e; following := following s; atBottom := atBottom s; programmaticUntil := programmaticUntil s |}.
Definition withUntil (t : Z) (s : Stick) : Stick := {| el := el s; following := following s; atBottom := atBottom s; programmaticUntil := t |}.

Definition onScroll (now : Z) (s : Stick) : Stick :=
  if now <? programmaticUntil s then s else setFollowing (isNearBottom (el s)) s.

Definition onWheel (deltaY : Z) (s : Stick) : Stick := if deltaY <? 0 then setFollowing false (withUntil 0 s) else s.

(** The layout effect of new text. *)
Definition onContent (s : Stick) : Stick := if following s then withEl (clamp (el s) (scrollHeight (el s))) s else s.

Definition scrollToBottom (reducedMotion instant : bool) (now : Z) (s : Stick) : Stick :=
  let smooth := negb instant && negb reducedMotion in
  let s' := withUntil (if smooth then now + PROGRAMMATIC_MS else 0) (setFollowing true s) in
  if smooth then s' else withEl (clamp (el s') (scrollHeight (el s'))) s'.

Definition stickStep (reducedMotion : bool) (s : Stick) (e : StickEvent) : Stick :=
  match e with
  | NewText h => onContent (withEl (withHeight h (el s)) s)
  | Scrolled top now => onScroll now (withEl (clamp (el s) top) s)
  | Wheel d => onWheel d s
  | Jump instant now => scrollToBottom reducedMotion instant now s
  end.

Definition stickRun (reducedMotion : bool) (s : Stick) (es : list StickEvent) : Stick := foldl (stickStep reducedMotion) s es.

(** ** The rows that fit *)

(** [calculate], of a body that is measured: [None] where it leaves the number. *)
Definition rowsThatFit (minRows maxRows bodyHeight thead rowHeight : Z) : option Z :=
  if (rowHeight <=? 0) || (bodyHeight <=? 0) then None
  else Some (Z.max minRows (Z.min maxRows ((bodyHeight - thead) / rowHeight))).

(** ** The rows of the sidebar *)

Definition cardHeight : Z := 64.
Definition sidebarRow : Z := cardHeight + 4.
Definition overscan : Z := 12.

Definition startIndex (top : Z) : Z := Z.max 0 (top / sidebarRow - overscan).
Definition endIndex (totalRows top viewport : Z) : Z := Z.min totalRows (ceilDiv (top + viewport) sidebarRow + overscan).

Inductive DrawnRow := Card (session : string) (at_ : Z) | LoadMore (at_ : Z).

(** The cards between the two, and the row after the last conversation. *)
Definition drawnRows (sessions : list string) (top viewport : Z) : list DrawnRow :=
  let n := Z.of_nat (length sessions) in
  seq 0 (Z.to_nat (endIndex (n + 1) top viewport - startIndex top)) ≫= λ j,
    let i := startIndex top + Z.of_nat j in
    if i =? n then [LoadMore (i * sidebarRow)] else match sessions !! Z.to_nat i with Some s => [Card s (i * sidebarRow)] | None => [] end.

Definition maybeFetchMoreSessions (hasNextPage fetching : bool) (b : ScrollBox) : bool :=
  hasNextPage && negb fetching && (scrollHeight b - scrollTop b - clientHeight b <=? 1).

(** ** Lemmas *)

(** A box the browser can show. *)
Definition Shown (b : ScrollBox) : Prop := 0 ≤ clientHeight b ∧ 0 ≤ scrollTop b ∧ scrollTop b ≤ Z.max 0 (scrollHeight b - clientHeight b).

Lemma clamp_shown b top : 0 ≤ clientHeight b → Shown (clamp b top).
Proof. intros H. split_and!; cbn; lia. Qed.

Lemma stickStep_shown m s e : Shown (el s) → Shown (el (stickStep m s e)).
Proof.
  intros (Hc & H). assert (∀ b top, clientHeight b = clientHeight (el s) → Shown (clamp b top)) as Hs by (intros b top E; apply clamp_shown; by rewrite E).
  destruct e; cbn.
  - unfold onContent. destruct (following _); cbn; by apply Hs.
  - unfold onScroll. destruct (_ <? _); cbn; by apply Hs.
  - unfold onWheel. by destruct (_ <? _).
  - unfold scrollToBottom. destruct (_ && _); [done|]. cbn. by apply Hs.
Qed.

(** ** Properties *)

(** A turn of the page without its reader: new text, and the scroll events the effects
    themselves cause, whenever they come. *)
Definition Alone (s : Stick) (e : StickEvent) : Prop :=
  match e with NewText _ => True | Scrolled top _ => top = scrollTop (el s) | Wheel _ | Jump _ _ => False end.

Fixpoint AllAlone (m : bool) (s : Stick) (es : list StickEvent) : Prop :=
  match es with [] => True | e :: es => Alone s e ∧ AllAlone m (stickStep m s e) es end.

(** A reader at the bottom stays there through any new text: the chat goes on following
    and the end is in view; one who scrolled up stays where he was while the text grows
    below, and is not taken down. *)
Theorem text_never_scrolls_up m s es :
  Shown (el s) → AllAlone m s es →
  (following s = true → distanceFromBottom (el s) ≤ 0 → let s' := stickRun m s es in following s' = true ∧ distanceFromBottom (el s') ≤ 0) ∧
  (following s = false → NEAR_BOTTOM_PX < distanceFromBottom (el s) → (∀ h, NewText h ∈ es → scrollHeight (el s) ≤ h) →
    let s' := stickRun m s es in following s' = false ∧ scrollTop (el s') = scrollTop (el s)).
Proof.
  intros Hs Ha. split.
  - revert s Hs Ha. induction es as [|e es IH]; intros s Hs Ha Hf Hd; [done|]. destruct Ha as [He Ha]. cbn [stickRun foldl].
    assert (following (stickStep m s e) = true ∧ distanceFromBottom (el (stickStep m s e)) ≤ 0) as [H1 H2]; [|by apply IH; [apply stickStep_shown| | |]].
    destruct e; try done; cbn in *; unfold distanceFromBottom, Shown in *.
    + unfold onContent. cbn. rewrite Hf. cbn. split; [done|lia].
    + subst top. unfold onScroll. cbn. destruct (_ <? _); cbn; (split; [|lia]); [done|]. apply Z.leb_le. unfold distanceFromBottom. cbn. unfold NEAR_BOTTOM_PX. lia.
  - assert (∀ h0 es s, Shown (el s) → AllAlone m s es → following s = false → h0 ≤ scrollHeight (el s) → NEAR_BOTTOM_PX < h0 - scrollTop (el s) - clientHeight (el s) →
      (∀ h, NewText h ∈ es → h0 ≤ h) → following (stickRun m s es) = false ∧ scrollTop (el (stickRun m s es)) = scrollTop (el s)) as H; [|intros; by apply (H (scrollHeight (el s)))].
    clear. intros h0 es. induction es as [|e es IH]; intros s Hs Ha Hf Hh Hd Hn; [done|]. destruct Ha as [He Ha]. cbn [stickRun foldl].
    assert (following (stickStep m s e) = false ∧ scrollTop (el (stickStep m s e)) = scrollTop (el s) ∧ clientHeight (el (stickStep m s e)) = clientHeight (el s) ∧ h0 ≤ scrollHeight (el (stickStep m s e))) as (H1 & H2 & H3 & H4).
    { destruct e; try done; cbn in *; unfold Shown, NEAR_BOTTOM_PX in *.
      - assert (h0 ≤ height) by (apply Hn; left). unfold onContent. cbn. rewrite Hf. cbn. split_and!; try done; lia.
      - subst top. unfold onScroll. cbn. destruct (_ <? _); cbn; (split_and!; try done; try lia). apply Z.leb_gt. unfold distanceFromBottom. cbn. unfold NEAR_BOTTOM_PX. lia. }
    destruct (IH (stickStep m s e)) as [Hx Hy]; try done; [by apply stickStep_shown|by rewrite H2, H3|intros h Hin; apply Hn; by right|].
    split; [done|]. unfold stickRun in *. by rewrite Hy.
Qed.

(** A reader who scrolls up a little while text comes is taken back down: the wheel
    stops the following, but its own scroll event, still near the bottom, starts it again,
    and the next text scrolls to the end. *)
Theorem small_scroll_undone m s d top now h :
  0 ≤ clientHeight (el s) → d < 0 → 0 ≤ now → distanceFromBottom (clamp (el s) top) ≤ NEAR_BOTTOM_PX →
  following (stickRun m s [Wheel d]) = false ∧
  let s' := stickRun m s [Wheel d; Scrolled top now; NewText h] in following s' = true ∧ distanceFromBottom (el s') ≤ 0.
Proof.
  intros Hc Hd%Z.ltb_lt Hn%Z.ltb_ge Hb%Z.leb_le. cbn [stickRun foldl stickStep]. unfold onWheel. rewrite Hd. split; [done|]. cbv zeta.
  unfold onScroll. cbn [withEl withUntil setFollowing programmaticUntil el]. rewrite Hn. unfold isNearBottom. cbn [el setFollowing]. rewrite Hb.
  unfold onContent. cbn [withEl setFollowing following el]. split; [done|]. unfold distanceFromBottom. cbn. lia.
Qed.

(** The rows counted fit the measured body under its head, and no more would, but for
    the least and the most a page has. *)
Theorem rows_fit minRows maxRows body thead row n :
  rowsThatFit minRows maxRows body thead row = Some n → minRows ≤ maxRows →
  minRows ≤ n ≤ maxRows ∧ (minRows < n → thead + n * row ≤ body) ∧ (n < maxRows → body < thead + (n + 1) * row).
Proof.
  unfold rowsThatFit. destruct (_ || _) eqn:E; [done|]. apply orb_false_iff in E as [E1%Z.leb_gt _]. intros [= <-] Hm.
  pose proof (Z.div_mod (body - thead) row ltac:(lia)). pose proof (Z.mod_pos_bound (body - thead) row ltac:(lia)). split_and!; [lia|lia| |]; intros; nia.
Qed.

(** Every row of the sidebar that is in view is drawn, at its own place, and what is
    drawn beside it is a bounded number of rows. *)
Theorem rows_in_view sessions top viewport i :
  0 ≤ top → 0 ≤ viewport → (i ≤ length sessions)%nat →
  Z.of_nat i * sidebarRow < top + viewport → top < (Z.of_nat i + 1) * sidebarRow →
  (match sessions !! i with Some s => Card s (Z.of_nat i * sidebarRow) | None => LoadMore (Z.of_nat i * sidebarRow) end) ∈ drawnRows sessions top viewport ∧
  Z.of_nat (length (drawnRows sessions top viewport)) ≤ viewport / sidebarRow + 2 * overscan + 2 ∧
  ∀ s p, Card s p ∈ drawnRows sessions top viewport → ∃ j, sessions !! j = Some s ∧ p = Z.of_nat j * sidebarRow.
Proof.
  intros Ht Hv Hi H1 H2. pose proof (ceilDiv_bounds (top + viewport) sidebarRow ltac:(done)) as Hc.
  assert (startIndex top ≤ Z.of_nat i < endIndex (Z.of_nat (length sessions) + 1) top viewport) as [Hs He].
  { unfold startIndex, endIndex, overscan. pose proof (Z.div_mod top sidebarRow ltac:(done)). pose proof (Z.mod_pos_bound top sidebarRow ltac:(done)).
    unfold sidebarRow, cardHeight in *. lia. }
  assert (0 ≤ startIndex top) by (unfold startIndex; lia). unfold drawnRows. split_and!.
  - apply list_elem_of_bind. exists (Z.to_nat (Z.of_nat i - startIndex top)). split; [|apply elem_of_seq; lia].
    replace (startIndex top + Z.of_nat (Z.to_nat (Z.of_nat i - startIndex top))) with (Z.of_nat i) by lia. rewrite Nat2Z.id.
    destruct (sessions !! i) as [s|] eqn:E.
    + apply lookup_lt_Some in E as Hl. rewrite (proj2 (Z.eqb_neq _ _)) by lia. left.
    + apply lookup_ge_None in E. rewrite (proj2 (Z.eqb_eq _ _)) by lia. left.
  - set (g := λ j : nat, _). transitivity (Z.of_nat (length (seq 0 (Z.to_nat (endIndex (Z.of_nat (length sessions) + 1) top viewport - startIndex top))))).
    + generalize (seq 0 (Z.to_nat (endIndex (Z.of_nat (length sessions) + 1) top viewport - startIndex top))). intros l. induction l as [|j l IH]; [done|].
      rewrite bind_cons, length_app. cbn [length]. assert (length (g j) ≤ 1)%nat by (unfold g; destruct (_ =? _); [cbn; lia|]; destruct (_ !! _); cbn; lia). lia.
    + rewrite length_seq. unfold endIndex, startIndex in *. pose proof (Z.div_mod viewport sidebarRow ltac:(done)). pose proof (Z.mod_pos_bound viewport sidebarRow ltac:(done)).
      pose proof (Z.div_mod top sidebarRow ltac:(done)). pose proof (Z.mod_pos_bound top sidebarRow ltac:(done)). unfold sidebarRow, cardHeight, overscan in *. lia.
  - intros s p (j & Hj & Hin)%list_elem_of_bind. destruct (_ =? _); [by apply list_elem_of_singleton in Hj|]. destruct (sessions !! _) as [s'|] eqn:E; [|by apply elem_of_nil in Hj].
    apply list_elem_of_singleton in Hj as [= -> ->]. eexists. split; [exact E|]. f_equal. lia.
Qed.

(** ** Witnesses *)

Definition atTheEnd : Stick := {| el := {| scrollHeight := 1000; scrollTop := 600; clientHeight := 400 |}; following := true; atBottom := true; programmaticUntil := 0 |}.

Lemma text_never_scrolls_up_witness :
  let s' := stickRun false atTheEnd [NewText 1300; Scrolled 900 5; NewText 1700] in following s' = true ∧ distanceFromBottom (el s') ≤ 0 ∧ scrollTop (el s') = 1300.
Proof.
  destruct (text_never_scrolls_up false atTheEnd [NewText 1300; Scrolled 900 5; NewText 1700]) as [H _]; [done|done|].
  destruct (H eq_refl) as [H1 H2]; [done|]. by split_and!.
Defined.

Lemma small_scroll_undone_witness :
  let s' := stickRun false atTheEnd [Wheel (-10); Scrolled 590 5; NewText 1020] in following s' = true ∧ distanceFromBottom (el s') ≤ 0.
Proof. by apply (small_scroll_undone false atTheEnd (-10) 590 5 1020). Defined.

Lemma rows_fit_witness : rowsThatFit 5 50 600 44 46 = Some 12 ∧ 44 + 12 * 46 ≤ 600 ∧ 600 < 44 + (12 + 1) * 46.
Proof. destruct (rows_fit 5 50 600 44 46 12 eq_refl ltac:(done)) as (_ & H1 & H2). split; [done|]. split; [by apply H1|by apply H2]. Defined.

Lemma rows_in_view_witness :
  Card "c"%string 136 ∈ drawnRows ["a"; "b"; "c"]%string 100 80.
Proof. apply (rows_in_view ["a"; "b"; "c"]%string 100 80 2); unfold sidebarRow, cardHeight; cbn [length]; lia. Defined.
