(* ===== verification/RoleForm.v ===== *)
(** * The roles of the administration

    pages/AdminRoles.tsx and utils/roleGroup.ts: the window that creates or edits a role,
    its permissions, the requests and what their answers do, and the Kubernetes group a
    role acts as.  While a request runs the window cannot be closed or submitted
    (ModalFrame's [busy]), but its fields can be changed. *)

From S2P Require Import Prelude JsString OrderedMap.

#[local] Open Scope string_scope.
#[local] Open Scope Z_scope.

(** ** The group of a role *)

Definition BUILT_IN : list string := ["read"; "write"; "admin"].

Definition slugChar (c : ascii) : ascii :=
  let n := nat_of_ascii c in
  if ((97 <=? n) && (n <=? 122) || (48 <=? n) && (n <=? 57) || (n =? 46) || (n =? 95) || (n =? 45))%nat then c else "-"%char.

Fixpoint smap (f : ascii → ascii) (s : string) : string := match s with "" => "" | String c s => String (f c) (smap f s) end.

(** The characters of [Array.from]: here of one byte each. *)
Definition roleGroupSlug (name : string) : string := smap slugChar (toLowerCase (trim name)).

Definition customRoleGroup (role : option string) : option string :=
  let name := trim (default "" role) in
  if negb (nonempty name) || bool_decide (toLowerCase name ∈ BUILT_IN) then None else Some ("kubeast:role:" +:+ roleGroupSlug name).

(** ** The form *)

Record RoleWithDetails := { r_id : Z; r_name : string; r_description : string; is_system : bool; permissions : list string }.

Record RoleRequest := { q_name : string; q_description : string; q_permissions : list string }.
Inductive Mutation := Creates (q : RoleRequest) | Updates (id : Z) (q : RoleRequest).

(** [saving] is the request that runs. *)
Record Roles := {
  editingRole : option RoleWithDetails; isCreating : bool; formName : string; formDesc : string; formPerms : list string; formError : option string; saving : option Mutation
}.

Definition newRoles : Roles :=
  {| editingRole := None; isCreating := false; formName := ""; formDesc := ""; formPerms := []; formError := None; saving := None |}.

Definition isModalOpen (s : Roles) : bool := isCreating s || bool_decide (is_Some (editingRole s)).
Definition isSaving (s : Roles) : bool := bool_decide (is_Some (saving s)).
Definition systemRole (s : Roles) : bool := match editingRole s with Some r => is_system r | None => false end.

Definition closeModal (s : Roles) : Roles :=
  {| editingRole := None; isCreating := false; formName := ""; formDesc := ""; formPerms := []; formError := None; saving := saving s |}.
Definition openCreate (s : Roles) : Roles :=
  {| editingRole := None; isCreating := true; formName := ""; formDesc := ""; formPerms := []; formError := None; saving := saving s |}.
Definition openEdit (r : RoleWithDetails) (s : Roles) : Roles :=
  {| editingRole := Some r; isCreating := false; formName := r_name r; formDesc := r_description r; formPerms := setOf (permissions r);
     formError := None; saving := saving s |}.

Definition withForm (n d : string) (p : list string) (s : Roles) : Roles :=
  {| editingRole := editingRole s; isCreating := isCreating s; formName := n; formDesc := d; formPerms := p; formError := formError s; saving := saving s |}.
Definition withError (e : option string) (s : Roles) : Roles :=
  {| editingRole := editingRole s; isCreating := isCreating s; formName := formName s; formDesc := formDesc s; formPerms := formPerms s; formError := e; saving := saving s |}.
Definition withSaving (m : option Mutation) (s : Roles) : Roles :=
  {| editingRole := editingRole s; isCreating := isCreating s; formName := formName s; formDesc := formDesc s; formPerms := formPerms s; formError := formError s; saving := m |}.

(** [delete] and [add] of a [Set]. *)
Definition togglePerm (key : string) (s : Roles) : Roles :=
  withForm (formName s) (formDesc s) (if bool_decide (key ∈ formPerms s) then filterb (λ x, negb (eqs x key)) (formPerms s) else (formPerms s ++ [key])%list) s.

Definition formRequest (s : Roles) : RoleRequest := {| q_name := trim (formName s); q_description := trim (formDesc s); q_permissions := formPerms s |}.

Definition handleSubmit (required : string) (s : Roles) : Roles :=
  if nonempty (trim (formName s)) then
    withSaving (Some (match editingRole s with Some r => Updates (r_id r) (formRequest s) | None => Creates (formRequest s) end)) s
  else withError (Some required) s.

Inductive RoleEvent :=
  | OpensNew
  | OpensRole (r : RoleWithDetails)
  | Closes
  | TypesName (t : string)
  | TypesDescription (t : string)
  | Ticks (key : string)
  | Submits
  | Succeeds
  | Fails (detail : string).

(** What the page lets through: a window over the page, fixed fields of a system role, and
    the buttons that are disabled while a request runs. *)
Definition roleStep (required : string) (s : Roles) (e : RoleEvent) : Roles :=
  match e with
  | OpensNew => if isModalOpen s then s else openCreate s
  | OpensRole r => if isModalOpen s then s else openEdit r s
  | Closes => if isSaving s then s else closeModal s
  | TypesName t => if isModalOpen s && negb (systemRole s) then withForm t (formDesc s) (formPerms s) s else s
  | TypesDescription t => if isModalOpen s then withForm (formName s) t (formPerms s) s else s
  | Ticks key => if isModalOpen s && negb (systemRole s) then togglePerm key s else s
  | Submits => if isModalOpen s && negb (isSaving s) then handleSubmit required s else s
  | Succeeds => if isSaving s then closeModal (withSaving None s) else s
  | Fails detail => if isSaving s then withError (Some detail) (withSaving None s) else s
  end.

Definition roleRun (required : string) (es : list RoleEvent) : Roles := foldl (roleStep required) newRoles es.

(** ** Lemmas *)

Lemma toggle_elem s key x : x ∈ formPerms (togglePerm key s) ↔ (if eqs x key then x ∉ formPerms s else x ∈ formPerms s).
Proof.
  unfold togglePerm. cbn [withForm formPerms]. destruct (eqs x key) eqn:E.
  - apply eqs_true in E as ->. case_bool_decide as H; [|rewrite elem_of_app, list_elem_of_singleton; naive_solver].
    rewrite elem_of_filterb, eqs_refl. naive_solver.
  - case_bool_decide as H; [rewrite elem_of_filterb, E; naive_solver|]. apply eqs_false in E. rewrite elem_of_app, list_elem_of_singleton. naive_solver.
Qed.

Lemma toggle_nodup s key : NoDup (formPerms s) → NoDup (formPerms (togglePerm key s)).
Proof.
  intros H. unfold togglePerm. cbn [withForm formPerms]. case_bool_decide as Hk.
  - by apply filterb_nodup.
  - apply NoDup_app. split_and!; [done|by intros x Hx ->%list_elem_of_singleton|by apply NoDup_singleton].
Qed.

(** What holds of the page whatever was done. *)
Definition Good (s : Roles) : Prop :=
  NoDup (formPerms s) ∧
  (editingRole s ≠ None → isCreating s = false) ∧
  (∀ r, editingRole s = Some r → is_system r = true → formName s = r_name r ∧ ∀ x, x ∈ formPerms s ↔ x ∈ permissions r) ∧
  match saving s with
  | None => True
  | Some (Creates q) => isCreating s = true ∧ editingRole s = None ∧ q_name q ≠ ""
  | Some (Updates id q) => q_name q ≠ "" ∧ ∃ r, editingRole s = Some r ∧ r_id r = id ∧
      (is_system r = true → q_name q = trim (r_name r) ∧ ∀ x, x ∈ q_permissions q ↔ x ∈ permissions r)
  end.

Lemma step_good required s e : Good s → Good (roleStep required s e).
Proof.
  intros (Hn & Hx & Hs & Hm). assert (isModalOpen s = true → editingRole s = None → isCreating s = true) as Hopen.
  { unfold isModalOpen. intros H E. rewrite E in H. by rewrite orb_false_r in H. }
  assert (isModalOpen s = false → saving s = None) as Hsv.
  { unfold isModalOpen. intros [Hc He%bool_decide_eq_false]%orb_false_iff. destruct (saving s) as [[q|id q]|]; [|..]; try done; [by destruct Hm as (Hm & _); rewrite Hm in Hc|].
    destruct Hm as (_ & r & Hr & _). by rewrite Hr in He; destruct He. }
  destruct e; cbn [roleStep].
  - destruct (isModalOpen s) eqn:E; [by split_and!|]. unfold Good, openCreate. cbn. rewrite (Hsv eq_refl). split_and!; try done. by apply NoDup_nil_2.
  - destruct (isModalOpen s) eqn:E; [by split_and!|]. unfold Good, openEdit. cbn [formPerms editingRole isCreating saving formName]. rewrite (Hsv eq_refl). split_and!; try done; [apply setOf_nodup|].
    intros r' [= <-] _. split; [done|]. intros x. apply elem_setOf.
  - unfold isSaving. case_bool_decide as E; [by split_and!|]. unfold Good, closeModal. cbn. destruct (saving s); [by destruct E|]. split_and!; try done. by apply NoDup_nil_2.
  - destruct (isModalOpen s && negb (systemRole s)) eqn:E; [|by split_and!]. apply andb_true_iff in E as [_ E%negb_true_iff]. unfold Good, withForm. cbn. split_and!; try done.
    intros r Hr Hsys. unfold systemRole in E. rewrite Hr in E. congruence.
  - destruct (isModalOpen s); [|by split_and!]. unfold Good, withForm. cbn. by split_and!.
  - destruct (isModalOpen s && negb (systemRole s)) eqn:E; [|by split_and!]. apply andb_true_iff in E as [_ E%negb_true_iff].
    pose proof (toggle_nodup s key Hn) as Ht. unfold Good. change (editingRole (togglePerm key s)) with (editingRole s). change (saving (togglePerm key s)) with (saving s).
    change (isCreating (togglePerm key s)) with (isCreating s). split_and!; try done.
    intros r Hr Hsys. unfold systemRole in E. rewrite Hr in E. congruence.
  - destruct (isModalOpen s && negb (isSaving s)) eqn:E; [|by split_and!]. apply andb_true_iff in E as [E _]. unfold handleSubmit.
    destruct (nonempty (trim (formName s))) eqn:Et; [|unfold Good, withError; cbn; by split_and!]. apply nonempty_true in Et. unfold Good, withSaving. cbn [saving editingRole isCreating formPerms formName]. split_and!; try done.
    destruct (editingRole s) as [r|] eqn:Er; [|split_and!; auto]. split; [done|]. exists r. split_and!; try done. intros Hsys. cbn [formRequest q_name q_permissions]. destruct (Hs r eq_refl Hsys) as [-> Hp]. split; done.
  - destruct (isSaving s); [|by split_and!]. unfold Good, closeModal, withSaving. cbn. split_and!; try done. by apply NoDup_nil_2.
  - destruct (isSaving s); [|by split_and!]. unfold Good, withError, withSaving. cbn. by split_and!.
Qed.

Lemma run_good required es : Good (roleRun required es).
Proof.
  unfold roleRun. induction es as [|e es IH] using rev_ind; [unfold Good; cbn; split_and!; try done; by apply NoDup_nil_2|]. rewrite foldl_app. by apply step_good.
Qed.

(** ** Properties *)

(** Whatever was done, the request that runs is of the role in the window, so its
    answer closes or marks its own window; it has a name, and each permission once; and of
    a system role it changes neither the name nor the permissions. *)
Theorem save_of_open_role required es :
  let s := roleRun required es in
  NoDup (formPerms s) ∧
  match saving s with
  | None => True
  | Some (Creates q) => isCreating s = true ∧ editingRole s = None ∧ q_name q ≠ ""
  | Some (Updates id q) => q_name q ≠ "" ∧ ∃ r, editingRole s = Some r ∧ r_id r = id ∧
      (is_system r = true → q_name q = trim (r_name r) ∧ ∀ x, x ∈ q_permissions q ↔ x ∈ permissions r)
  end ∧
  (∀ m, saving s = Some m → roleStep required s Closes = s ∧ roleStep required s Submits = s ∧ isModalOpen (roleStep required s Succeeds) = false).
Proof.
  intros s. destruct (run_good required es) as (H1 & H2 & H3 & H4). fold s in H1, H4. split_and!; [done..|]. intros m Hm. cbn [roleStep].
  unfold isSaving. rewrite Hm, bool_decide_true by done. split_and!; [done|by rewrite andb_false_r|done].
Qed.

(** The times a permission was ticked. *)
Definition ticks (x : string) (es : list RoleEvent) : nat := length (filterb (λ e, match e with Ticks k => eqs x k | _ => false end) es).

Definition Fills (e : RoleEvent) : Prop := match e with TypesName _ | TypesDescription _ | Ticks _ => True | _ => False end.

Lemma filled required r es s :
  editingRole s = Some r → is_system r = false → Forall Fills es →
  let s' := foldl (roleStep required) s es in
  editingRole s' = Some r ∧ isCreating s' = isCreating s ∧ saving s' = saving s ∧
  ∀ x, x ∈ formPerms s' ↔ (if Nat.odd (ticks x es) then x ∉ formPerms s else x ∈ formPerms s).
Proof.
  intros Hr Hsys. revert s Hr. induction es as [|e es IH]; intros s Hr Hf; [done|]. apply Forall_cons in Hf as [He Hf]. cbn [foldl].
  assert (isModalOpen s = true ∧ systemRole s = false) as [Ho Hnot].
  { unfold isModalOpen, systemRole. rewrite Hr, bool_decide_true by done. by rewrite orb_true_r. }
  destruct e; try done; cbn [roleStep]; rewrite Ho, ?Hnot; cbn [andb negb].
  - destruct (IH (withForm t (formDesc s) (formPerms s) s) Hr Hf) as (H1 & H2 & H3 & H4). by split_and!.
  - destruct (IH (withForm (formName s) t (formPerms s) s) Hr Hf) as (H1 & H2 & H3 & H4). by split_and!.
  - destruct (IH (togglePerm key s) Hr Hf) as (H1 & H2 & H3 & H4). split_and!; try done. intros x. specialize (H4 x). pose proof (toggle_elem s key x) as Ht.
    unfold ticks, filterb in *. cbn [List.filter]. destruct (eqs x key); [cbn [length]; rewrite Nat.odd_succ, <-Nat.negb_odd|];
      destruct (Nat.odd _); cbn [negb]; destruct (decide (x ∈ formPerms s)); tauto.
Qed.

(** A role saved after it was opened and filled in has the permissions it had, each
    changed as often as it was ticked; one only opened is saved with what it had. *)
Theorem role_saved_as_ticked required r es s :
  isModalOpen s = false → saving s = None → is_system r = false → Forall Fills es →
  let s' := foldl (roleStep required) s (OpensRole r :: es) in
  trim (formName s') ≠ "" →
  ∃ q, saving (roleStep required s' Submits) = Some (Updates (r_id r) q) ∧ q_name q = trim (formName s') ∧ q_description q = trim (formDesc s') ∧
    (∀ x, x ∈ q_permissions q ↔ (if Nat.odd (ticks x es) then x ∉ permissions r else x ∈ permissions r)) ∧
    (es = [] → q_name q = trim (r_name r) ∧ q_description q = trim (r_description r)).
Proof.
  intros Ho Hsv Hsys Hf s' Hn%nonempty_true. unfold s' in *. cbn [foldl] in *. cbn [roleStep] in Hn |- *. rewrite Ho in Hn |- *.
  destruct (filled required r es (openEdit r s) eq_refl Hsys Hf) as (H1 & H2 & H3 & H4). set (s2 := foldl (roleStep required) (openEdit r s) es) in *.
  assert (isModalOpen s2 = true) as Ho2 by (unfold isModalOpen; rewrite H1, bool_decide_true by done; by rewrite orb_true_r).
  assert (isSaving s2 = false) as Hs2 by (unfold isSaving; rewrite H3; cbn; rewrite Hsv; by apply bool_decide_eq_false; intros []).
  exists (formRequest s2). rewrite Ho2, Hs2. cbn [andb negb]. unfold handleSubmit. rewrite Hn. cbn [withSaving saving]. rewrite H1. split_and!; try done.
  - intros x. cbn [formRequest q_permissions]. specialize (H4 x). cbn [openEdit formPerms] in H4. rewrite H4. destruct (Nat.odd _); by rewrite elem_setOf.
  - intros ->. done.
Qed.

(** What is typed or ticked while a save runs is lost: its answer closes the window. *)
Theorem edits_while_saving_lost required s m key :
  saving s = Some m → isModalOpen s = true → systemRole s = false → key ∉ formPerms s →
  let s1 := roleStep required s (Ticks key) in
  key ∈ formPerms s1 ∧ saving s1 = Some m ∧ roleStep required s1 Succeeds = newRoles.
Proof.
  intros Hm Ho Hs Hk. cbn [roleStep]. rewrite Ho, Hs. cbn [andb negb]. split_and!; [by apply toggle_elem; rewrite eqs_refl|done|].
  unfold isSaving. change (saving (togglePerm key s)) with (saving s). rewrite Hm, bool_decide_true by done. done.
Qed.

(** The group of a custom role has no character the server would replace: making it
    again changes nothing, and the built-in roles have none. *)
Theorem group_slug_settled name :
  sall (λ c, bool_decide (slugChar c = c)) (roleGroupSlug name) = true ∧ smap slugChar (roleGroupSlug name) = roleGroupSlug name ∧
  String.length (roleGroupSlug name) = String.length (toLowerCase (trim name)) ∧
  (customRoleGroup (Some name) = None ↔ trim name = "" ∨ toLowerCase (trim name) ∈ BUILT_IN).
Proof.
  assert (∀ c, slugChar (slugChar c) = slugChar c) as Hc by (intros [[] [] [] [] [] [] [] []]; reflexivity). unfold roleGroupSlug. split_and!.
  - induction (toLowerCase (trim name)) as [|c s IH]; [done|]. cbn [smap sall]. rewrite bool_decide_true by apply Hc. exact IH.
  - induction (toLowerCase (trim name)) as [|c s IH]; [done|]. cbn [smap]. by rewrite Hc, IH.
  - induction (toLowerCase (trim name)) as [|c s IH]; [done|]. cbn [smap String.length]. by rewrite IH.
  - unfold customRoleGroup. cbv zeta. change (default "" (Some name)) with name. destruct (nonempty (trim name)) eqn:E; cbn [negb orb].
    + apply nonempty_true in E. case_bool_decide; naive_solver.
    + assert (trim name = "") as -> by (by destruct (trim name)). naive_solver.
Qed.

(** ** Witnesses *)

Definition aRole (n : string) (sys : bool) : RoleWithDetails :=
  {| r_id := 7; r_name := n; r_description := " infra "; is_system := sys; permissions := ["pods.read"; "nodes.read"] |}.

Lemma role_saved_as_ticked_witness :
  let s' := foldl (roleStep "required") newRoles [OpensRole (aRole "ops" false); Ticks "pods.read"; Ticks "logs.read"; Ticks "logs.read"] in
  ∃ q, saving (roleStep "required" s' Submits) = Some (Updates 7 q) ∧ "nodes.read" ∈ q_permissions q ∧ "pods.read" ∉ q_permissions q.
Proof.
  destruct (role_saved_as_ticked "required" (aRole "ops" false) [Ticks "pods.read"; Ticks "logs.read"; Ticks "logs.read"] newRoles) as (q & Hq & _ & _ & Hp & _); try done.
  - by repeat constructor.
  - exists q. split_and!; [exact Hq|apply Hp; right; left|intros H; apply Hp in H; apply H; left].
Defined.

Lemma edits_while_saving_lost_witness :
  let s := roleRun "required" [OpensRole (aRole "ops" false); Submits] in
  let s1 := roleStep "required" s (Ticks "logs.read") in "logs.read" ∈ formPerms s1 ∧ roleStep "required" s1 Succeeds = newRoles.
Proof.
  destruct (edits_while_saving_lost "required" (roleRun "required" [OpensRole (aRole "ops" false); Submits])
    (Updates 7 {| q_name := "ops"; q_description := "infra"; q_permissions := ["pods.read"; "nodes.read"] |}) "logs.read") as (H1 & _ & H2); try done.
  by apply (bool_decide_unpack _); vm_compute.
Defined.

Example ops_group : customRoleGroup (Some " Infra Manager ") = Some "kubeast:role:infra-manager" ∧ customRoleGroup (Some "Write") = None.
Proof. done. Qed.
