(* ===== verification/SessionTitle.v ===== *)
(** * The title of a conversation

    pages/ai-chat/hooks/useSessionEditing.ts, useContextMenuDismiss.ts and the rows of
    SessionSidebar.tsx: the menu of a row, its title while it is changed, and the requests
    that save titles, which can overlap. *)

From S2P Require Import Prelude JsString.

#[local] Open Scope string_scope.
#[local] Open Scope Z_scope.

Record ContextMenuPosition := { x : Z; y : Z; sessionId : string }.

(** [updates] are the requests that run, each an id and a title. *)
Record Editing := { editingSessionId : option string; editingTitle : string; contextMenu : option ContextMenuPosition; updates : list (string * string) }.

Definition newEditing : Editing := {| editingSessionId := None; editingTitle := ""; contextMenu := None; updates := [] |}.

Inductive Event :=
  | OpensMenu (x y : Z) (id : string)
  | ClosesMenu
  | ClicksAway
  | Escape
  | Renames (id title : string)
  | Types (title : string)
  | Saves (id : string)
  | Cancels
  | Saved (j : nat)
  | Failed (j : nat).

Definition handleContextMenu (isMultiSelectMode : bool) (px py : Z) (id : string) (s : Editing) : Editing :=
  if isMultiSelectMode then s else
  {| editingSessionId := editingSessionId s; editingTitle := editingTitle s; contextMenu := Some {| x := px; y := py; sessionId := id |}; updates := updates s |}.

Definition handleCloseContextMenu (s : Editing) : Editing :=
  {| editingSessionId := editingSessionId s; editingTitle := editingTitle s; contextMenu := None; updates := updates s |}.

Definition handleEditSession (id title : string) (s : Editing) : Editing :=
  {| editingSessionId := Some id; editingTitle := title; contextMenu := None; updates := updates s |}.

Definition setEditingTitle (t : string) (s : Editing) : Editing :=
  {| editingSessionId := editingSessionId s; editingTitle := t; contextMenu := contextMenu s; updates := updates s |}.

Definition handleSaveEdit (id : string) (s : Editing) : Editing :=
  if nonempty (trim (editingTitle s)) then
    {| editingSessionId := editingSessionId s; editingTitle := editingTitle s; contextMenu := contextMenu s; updates := (updates s ++ [(id, editingTitle s)])%list |}
  else s.

Definition handleCancelEdit (s : Editing) : Editing :=
  {| editingSessionId := None; editingTitle := ""; contextMenu := contextMenu s; updates := updates s |}.

(** The answer of a request. *)
Definition answered (ok : bool) (j : nat) (s : Editing) : Editing :=
  match updates s !! j with
  | None => s
  | Some _ => {| editingSessionId := if ok then None else editingSessionId s; editingTitle := editingTitle s; contextMenu := contextMenu s; updates := delete j (updates s) |}
  end.

(** A row lets its title be typed and saved only while it is the one being changed; the
    menu renames the row it was opened on. *)
Definition step (isMultiSelectMode : bool) (s : Editing) (e : Event) : Editing :=
  match e with
  | OpensMenu px py id => handleContextMenu isMultiSelectMode px py id s
  | ClosesMenu | ClicksAway | Escape => handleCloseContextMenu s
  | Renames id title => match contextMenu s with Some m => if eqs (sessionId m) id then handleEditSession id title s else s | None => s end
  | Types t => match editingSessionId s with Some _ => setEditingTitle t s | None => s end
  | Saves id => if bool_decide (editingSessionId s = Some id) then handleSaveEdit id s else s
  | Cancels => handleCancelEdit s
  | Saved j => answered true j s
  | Failed j => answered false j s
  end.

Definition run (isMultiSelectMode : bool) (es : list Event) : Editing := foldl (step isMultiSelectMode) newEditing es.

(** ** Properties *)

(** A request carries a title that is not blank, the one in the row it saves when it
    was asked; while conversations are chosen no menu opens, so no title is changed. *)
Theorem titles_saved_are_shown multi es :
  (∀ id t, (id, t) ∈ updates (run multi es) → trim t ≠ "" ∧
     ∃ es1 es2, es = (es1 ++ Saves id :: es2)%list ∧ editingSessionId (run multi es1) = Some id ∧ editingTitle (run multi es1) = t) ∧
  (multi = true → editingSessionId (run multi es) = None ∧ updates (run multi es) = []).
Proof.
  split.
  - intros id t. induction es as [|e es IH] using rev_ind; [by intros []%elem_of_nil|]. unfold run. rewrite foldl_app. cbn [foldl]. fold (run multi es). intros Hin.
    assert ((id, t) ∈ updates (run multi es) ∨ (e = Saves id ∧ editingSessionId (run multi es) = Some id ∧ editingTitle (run multi es) = t ∧ nonempty (trim t) = true)) as [H|(-> & H1 & H2 & H3)].
    { destruct e; cbn [step] in Hin; unfold handleContextMenu, answered in Hin; repeat case_match; cbn in Hin; try (by left).
      - case_bool_decide as Hid; [|by left]. unfold handleSaveEdit in Hin. destruct (nonempty (trim (editingTitle (run multi es)))) eqn:E; [|by left].
        cbn in Hin. apply elem_of_app in Hin as [Hin|Hin%list_elem_of_singleton]; [by left|]. right. injection Hin as -> ->. by split_and!.
      - left. by apply list_elem_of_delete_inv in Hin.
      - left. by apply list_elem_of_delete_inv in Hin. }
    + destruct (IH H) as (Ht & es1 & es2 & -> & H1 & H2). split; [done|]. exists es1, (es2 ++ [e])%list. by rewrite <-(assoc_L (++)%list).
    + split; [by apply nonempty_true|]. exists es, []. by split_and!.
  - intros ->. assert (contextMenu (run true es) = None ∧ editingSessionId (run true es) = None ∧ updates (run true es) = []) as (_ & ? & ?); [|done].
    induction es as [|e es (H1 & H2 & H3)] using rev_ind; [done|]. unfold run. rewrite foldl_app. cbn [foldl]. fold (run true es).
    destruct e; cbn [step]; unfold answered; rewrite ?H1, ?H2, ?H3; cbn; rewrite ?H1, ?H2, ?H3; done.
Qed.

(** The answer of one title closes whatever row is being changed by then: the title
    typed in the next row is gone, and was never asked to be saved. *)
Theorem rename_closes_another multi s a b pos t :
  editingSessionId s = Some a → updates s = [] → trim (editingTitle s) ≠ "" → a ≠ b → multi = false →
  let s' := foldl (step multi) s [Saves a; OpensMenu pos pos b; Renames b "old"; Types t] in
  editingSessionId s' = Some b ∧ editingTitle s' = t ∧
  editingSessionId (step multi s' (Saved 0)) = None ∧ updates (step multi s' (Saved 0)) = [] ∧ step multi (step multi s' (Saved 0)) (Saves b) = step multi s' (Saved 0).
Proof.
  intros Ha Hu Ht%nonempty_true Hab ->. cbn [foldl step]. rewrite bool_decide_true by done. unfold handleSaveEdit. rewrite Ht. cbn [handleContextMenu contextMenu sessionId].
  rewrite eqs_refl. cbn [handleEditSession editingSessionId setEditingTitle answered updates]. rewrite Hu. done.
Qed.

Lemma rename_closes_another_witness :
  let s := run false [OpensMenu 1 1 "a"; Renames "a" "one"] in
  let s' := foldl (step false) s [Saves "a"; OpensMenu 2 2 "b"; Renames "b" "old"; Types "new title"] in
  editingTitle s' = "new title" ∧ editingSessionId (step false s' (Saved 0)) = None.
Proof. destruct (rename_closes_another false (run false [OpensMenu 1 1 "a"; Renames "a" "one"]) "a" "b" 2 "new title") as (_ & H1 & H2 & _); [done..|]. split; [exact H1|exact H2]. Defined.
