(* ===== verification/ClusterMap.v ===== *)
(** * The map of the cluster view

    pages/cluster-view: podHealth.tsx, the colour of a pod and its reason;
    hooks/useClusterDerived.ts, the order of the nodes; nodeMapLayout.ts and
    ClusterNodeMap.tsx, the cells and dots drawn on the canvas and the node under the
    pointer; useClusterPodsQuery.ts, what a poll of the counts leaves.

    The width of the canvas is a whole number of pixels, as [clientWidth] is; the
    pointer's place on it is a rational. *)

From Stdlib Require Import QArith Qround Sorted Lqa.
From S2P Require Import Prelude JsString OrderedMap Sums Sorting Json.

#[local] Open Scope string_scope.
#[local] Open Scope Z_scope.

(** ** The health of a pod *)

Definition includesStr (vs : list value) (s : string) : bool := some (λ v, isStr v s) vs.

Definition pickReason (reasons : list value) (priority : list string) : value :=
  match find (includesStr reasons) priority with
  | Some p => VStr p
  | None => match reasons with r :: _ => r |? VStr "" | [] => VStr "" end
  end.

Definition isCompletedReason (reason : value) : bool := isStr reason "Completed" || isStr reason "Succeeded".

Inductive Level := Ok | Warn | Error.
#[global] Instance Level_dec : EqDecision Level.
Proof. solve_decision. Defined.

Record PodHealth := { level : Level; reason : value; phase : value }.

(** [typeof r === 'string' && r.trim()]. *)
Definition written (r : value) : bool := match r with VStr s => nonempty (trim s) | _ => false end.

(** The reasons of the containers in a state. *)
Definition stateReasons (state : string) (cs : list value) : list value := filterb written ((λ c, c .@ "state" .@ state .@ "reason") <$> cs).
Definition waitingReasons (cs : list value) : list value := stateReasons "waiting" cs.
Definition terminatedReasons (cs : list value) : list value := filterb (λ r, negb (isCompletedReason r)) (stateReasons "terminated" cs).

Definition errorPriority : list string :=
  ["CrashLoopBackOff"; "ImagePullBackOff"; "ErrImagePull"; "CreateContainerConfigError"; "CreateContainerError"; "RunContainerError";
   "ContainerCannotRun"; "InvalidImageName"; "ImageInspectError"; "RegistryUnavailable"; "ErrImageNeverPull"; "OOMKilled"; "Error"].
Definition warnPriority : list string := ["ContainerCreating"; "PodInitializing"; "Pending"; "NotReady"].

Definition isSidecar (c : value) : bool := isStr (c .@ "restart_policy") "Always".

Definition podPhase (pod : value) : value := pod .@ "phase" |? pod .@ "status" |? VStr "Unknown".
Definition containersOf (pod : value) : list value := asArray (pod .@ "containers").
Definition initContainersOf (pod : value) : list value := asArray (pod .@ "init_containers").

Definition initReasonsFrom (pod : value) : list value :=
  if isStr (podPhase pod) "Succeeded" then filterb (λ c, negb (isSidecar c)) (initContainersOf pod) else initContainersOf pod.

(** The reasons that may be errors, in the order they are looked at. *)
Definition errorReasons (pod : value) : list value :=
  let statusReason := if isCompletedReason (pod .@ "status_reason") then VNull else pod .@ "status_reason" in
  filterb (λ r, negb (some (isStr r) warnPriority))
    ((if truthy statusReason then [statusReason] else []) ++
     waitingReasons (initReasonsFrom pod) ++ terminatedReasons (initReasonsFrom pod) ++
     waitingReasons (containersOf pod) ++ terminatedReasons (containersOf pod)).

Definition countedContainers (pod : value) : list value := containersOf pod ++ filterb isSidecar (initContainersOf pod).
Definition notReady (pod : value) : bool :=
  let counted := countedContainers pod in
  Nat.ltb 0 (length counted) && Nat.ltb (length (filterb (λ c, truthy (c .@ "ready")) counted)) (length counted).

(** An init container that holds the others back. *)
Definition holdsBack (c : value) : bool :=
  let state := c .@ "state" |? VObj [] in
  if isSidecar c && truthy (c .@ "started") then false
  else if truthy (state .@ "waiting") then true
  else if truthy (state .@ "running") then true
  else if truthy (state .@ "terminated") then
    let code := state .@ "terminated" .@ "exit_code" in
    if isNumber code then negb (strictEq code (VNum 0)) else true
  else false.
Definition initNotReady (pod : value) : bool := Nat.ltb 0 (length (initContainersOf pod)) && some holdsBack (initContainersOf pod).

Definition getPodHealth (pod : value) : PodHealth :=
  let phase := podPhase pod in
  let health level reason := {| level := level; reason := reason; phase := phase |} in
  let errorReason := pickReason (errorReasons pod) errorPriority in
  let warnReason := pickReason (waitingReasons (containersOf pod)) warnPriority in
  if truthy (pod .@ "deletion_timestamp") then health Warn (VStr "Terminating")
  else if truthy errorReason || isStr phase "Failed" then health Error (errorReason |? VStr "Failed")
  else if isStr phase "Pending" || isStr phase "Unknown" then health Warn phase
  else if isStr phase "Succeeded" then health Ok (VStr "Succeeded")
  else if initNotReady pod then health Warn (pickReason (waitingReasons (initReasonsFrom pod)) warnPriority |? VStr "PodInitializing")
  else if notReady pod then health Warn (warnReason |? VStr "NotReady")
  else if truthy warnReason then health Warn warnReason
  else health Ok phase.

(** ** The nodes *)

Record PodNodeCount := { node : string; total : Z; ok : Z; warn : Z; error : Z }.
Record NodeEntry := { n_node : string; label : string; counts : PodNodeCount }.
Record PodNodeSummary := { nodes : list PodNodeCount; s_total : Z; s_all : Z; revision : string; unchanged : bool }.

Definition UNSCHEDULED : string := "Unscheduled".

(** A poll of the counts: one that says nothing changed leaves what is shown. *)
Definition polled (prev : option PodNodeSummary) (next : PodNodeSummary) : PodNodeSummary :=
  match prev with Some p => if unchanged next then p else next | None => next end.

Definition controlPlanes (cluster : list value) : list string :=
  (λ n, toString (n .@ "name")) <$> filterb (λ n, includesStr (asArray (n .@ "roles")) "control-plane") cluster.

Section derived.
Context (localeCompare : string → string → Z) (cluster : list value).

Definition isControlPlane (n : string) : bool := bool_decide (n ∈ controlPlanes cluster).

Definition compareEntries (a b : NodeEntry) : Z :=
  if eqs (n_node a) "" then 1
  else if eqs (n_node b) "" then -1
  else if isControlPlane (n_node a) && negb (isControlPlane (n_node b)) then -1
  else if negb (isControlPlane (n_node a)) && isControlPlane (n_node b) then 1
  else localeCompare (n_node a) (n_node b).

Definition entryOf (c : PodNodeCount) : NodeEntry :=
  {| n_node := node c; label := if nonempty (node c) then node c else UNSCHEDULED; counts := c |}.

Definition useClusterDerived (summary : option PodNodeSummary) : list NodeEntry :=
  sortBy compareEntries (entryOf <$> default [] (nodes <$> summary)).
End derived.

(** ** The layout *)

Definition GAP : Z := 2.
Definition MAX_CELL : Z := 48.
Definition MIN_CELL : Z := 12.
Definition TARGET_HEIGHT : Z := 200.

Record Layout := { cell : Z; cols : Z; per : Z; dot : Z; height : Z }.

Definition maxPods (entries : list NodeEntry) : Z := foldr (λ e m, Z.max (total (counts e)) m) 1 entries.

Definition layoutMap (width : Z) (entries : list NodeEntry) : Layout :=
  let n := Z.max (Z.of_nat (length entries)) 1 in
  let per := Z.sqrt_up (maxPods entries) in
  let fit := Z.sqrt (width * TARGET_HEIGHT / n) - GAP in
  let cell := Z.min (Z.max (Z.max fit MIN_CELL) (per + 4)) (Z.max MAX_CELL (per + 4)) in
  let cols := Z.max 1 ((width + GAP) / (cell + GAP)) in
  let rows := ceilDiv n cols in
  let dot := Z.max 1 ((cell - 4) / per) in
  {| cell := cell; cols := cols; per := per; dot := dot; height := rows * (cell + GAP) - GAP |}.

(** ** What is drawn *)

Record Rect := { rx : Z; ry : Z; side : Z }.

Definition cellAt (l : Layout) (i : nat) : Rect :=
  {| rx := (Z.of_nat i `mod` cols l) * (cell l + GAP); ry := (Z.of_nat i / cols l) * (cell l + GAP); side := cell l |}.

Definition dotAt (l : Layout) (i k : nat) : Rect :=
  {| rx := (Z.of_nat i `mod` cols l) * (cell l + GAP) + 2 + (Z.of_nat k `mod` per l) * dot l;
     ry := (Z.of_nat i / cols l) * (cell l + GAP) + 2 + (Z.of_nat k / per l) * dot l;
     side := Z.max 1 (dot l - (if 2 <? dot l then 1 else 0)) |}.

(** The dots of a colour in a cell: [for (let k = start; k < start + count; k++)]. *)
Definition firstDot (key : Level) (c : PodNodeCount) : Z :=
  match key with Error => 0 | Warn => error c | Ok => error c + warn c end.
Definition countOf (key : Level) (c : PodNodeCount) : Z := match key with Error => error c | Warn => warn c | Ok => ok c end.
Definition dotsOf (l : Layout) (key : Level) (i : nat) (e : NodeEntry) : list Rect :=
  (λ k, dotAt l i (Z.to_nat (firstDot key (counts e)) + k)%nat) <$> seq 0 (Z.to_nat (countOf key (counts e))).

(** The canvas: each colour's dots over the cells. *)
Definition drawnCells (l : Layout) (entries : list NodeEntry) : list Rect := imap (λ i _, cellAt l i) entries.
Definition drawnDots (l : Layout) (entries : list NodeEntry) : list (Level * list Rect) :=
  (λ key, (key, concat (imap (dotsOf l key) entries))) <$> [Error; Warn; Ok].

(** ** The node under the pointer *)

(** [a % b] of a number [a] and a whole [b]. *)
Definition rem (a : Q) (b : Z) : Q :=
  let q := (a / inject_Z b)%Q in
  (a - inject_Z (b * (if Qle_bool 0 a then Qfloor q else - Qfloor (- q))))%Q.

Definition indexAt (l : Layout) (entries : list NodeEntry) (x y : Q) : option Z :=
  let pitch := cell l + GAP in
  let col := Qfloor (x / inject_Z pitch) in
  let row := Qfloor (y / inject_Z pitch) in
  let inCell := negb (Qle_bool (inject_Z (cell l)) (rem x pitch)) && negb (Qle_bool (inject_Z (cell l)) (rem y pitch)) in
  let i := row * cols l + col in
  if inCell && (col <? cols l) && (i <? Z.of_nat (length entries)) then Some i else None.

(** The numbers of the legend. *)
Definition totals (entries : list NodeEntry) : Z * Z * Z :=
  foldl (λ t e, let '(p, er, w) := t in (p + total (counts e), er + error (counts e), w + warn (counts e))) (0, 0, 0) entries.
Definition healthyPods (entries : list NodeEntry) : Z := let '(p, er, w) := totals entries in p - er - w.

(** ** Properties: the map *)

Definition inRect (r : Rect) (x y : Q) : Prop :=
  (inject_Z (rx r) <= x)%Q ∧ (x < inject_Z (rx r + side r))%Q ∧ (inject_Z (ry r) <= y)%Q ∧ (y < inject_Z (ry r + side r))%Q.
Definition within (a b : Rect) : Prop := rx b ≤ rx a ∧ rx a + side a ≤ rx b + side b ∧ ry b ≤ ry a ∧ ry a + side a ≤ ry b + side b.
Definition apart (a b : Rect) : Prop := rx a + side a ≤ rx b ∨ rx b + side b ≤ rx a ∨ ry a + side a ≤ ry b ∨ ry b + side b ≤ ry a.

Lemma Qfloor_div x p c : 0 < p → Qfloor (x / inject_Z p) = c ↔ (inject_Z (p * c) <= x)%Q ∧ (x < inject_Z (p * c + p))%Q.
Proof.
  intros Hp. assert (0 < inject_Z p)%Q as HpQ by (rewrite Zlt_Qlt in Hp; exact Hp).
  assert (∀ k, (inject_Z k <= x / inject_Z p)%Q ↔ (inject_Z (p * k) <= x)%Q) as Hle.
  { intros k. rewrite (Zmult_comm p k), inject_Z_mult. split; intros H.
    - apply (Qmult_le_compat_r _ _ (inject_Z p)) in H; [|by apply Qlt_le_weak]. rewrite <-(Qmult_div_r x (inject_Z p)) by (intros E; by rewrite E in HpQ).
      by rewrite (Qmult_comm (inject_Z p)).
    - apply Qle_shift_div_l; done. }
  split.
  - intros <-. split; [apply Hle, Qfloor_le|]. apply Qnot_le_lt. intros H. replace (p * Qfloor (x / inject_Z p) + p) with (p * (Qfloor (x / inject_Z p) + 1)) in H by lia.
    apply Hle in H. apply (Qlt_not_le _ _ (Qlt_floor (x / inject_Z p))). done.
  - intros [H1 H2]. apply Hle in H1. assert (¬ (inject_Z (c + 1) <= x / inject_Z p)%Q) as H3.
    { rewrite Hle. replace (p * (c + 1)) with (p * c + p) by lia. by apply Qlt_not_le. }
    pose proof (Qfloor_le (x / inject_Z p)) as H4. pose proof (Qlt_floor (x / inject_Z p)) as H5. apply Qnot_le_lt in H3.
    assert (c < Qfloor (x / inject_Z p) + 1) by (rewrite Zlt_Qlt; by eapply Qle_lt_trans).
    assert (Qfloor (x / inject_Z p) < c + 1) by (rewrite Zlt_Qlt; by eapply Qle_lt_trans). lia.
Qed.

(** One axis: the column, and being on the cell rather than on the gap after it. *)
Lemma axis x s c : 0 < s → (0 <= x)%Q →
  (Qfloor (x / inject_Z (s + GAP)) = c ∧ Qle_bool (inject_Z s) (rem x (s + GAP)) = false) ↔
  (inject_Z (c * (s + GAP)) <= x)%Q ∧ (x < inject_Z (c * (s + GAP) + s))%Q.
Proof.
  intros Hs Hx. unfold rem. assert (Qle_bool 0 x = true) as -> by by apply Qle_bool_iff.
  rewrite (Qfloor_div x (s + GAP) c) by (unfold GAP; lia). split.
  - intros [[H1 H2] H3]. rewrite (Zmult_comm c). split; [done|]. assert (Qfloor (x / inject_Z (s + GAP)) = c) as Ec by (by apply Qfloor_div; [unfold GAP; lia|]).
    rewrite Ec in H3. apply not_true_iff_false in H3. rewrite Qle_bool_iff in H3. apply Qnot_le_lt in H3. rewrite inject_Z_plus. lra.
  - rewrite (Zmult_comm c). intros [H1 H2]. assert (x < inject_Z ((s + GAP) * c + (s + GAP)))%Q as H3.
    { eapply Qlt_trans; [exact H2|]. rewrite <-Zlt_Qlt. unfold GAP. lia. }
    split; [done|]. assert (Qfloor (x / inject_Z (s + GAP)) = c) as -> by (by apply Qfloor_div; [unfold GAP; lia|]).
    apply not_true_iff_false. rewrite Qle_bool_iff. apply Qlt_not_le. rewrite inject_Z_plus in H2. lra.
Qed.

Lemma maxPods_pos entries : 1 ≤ maxPods entries.
Proof. unfold maxPods. induction entries as [|e l IH]; cbn [foldr]; lia. Qed.

Lemma layout_good width entries (l := layoutMap width entries) :
  0 < per l ∧ per l + 4 ≤ cell l ∧ 1 ≤ dot l ∧ per l * dot l ≤ cell l - 4 ∧ 1 ≤ cols l ∧ maxPods entries ≤ per l * per l.
Proof.
  pose proof (maxPods_pos entries) as Hm.
  pose proof (Z.sqrt_up_spec (maxPods entries) ltac:(lia)) as [_ Hs]. assert (0 < Z.sqrt_up (maxPods entries)) as Hp by (apply Z.sqrt_up_pos; lia).
  unfold l, layoutMap. cbn [per cell dot cols]. set (q := Z.sqrt_up (maxPods entries)) in *.
  set (c := Z.min _ _). assert (q + 4 ≤ c) as Hc by (unfold c; lia). assert (1 ≤ (c - 4) / q) by (apply Z.div_le_lower_bound; lia).
  pose proof (Z.mul_div_le (c - 4) q Hp). split_and!; [done..|lia|rewrite Z.max_r by done; lia|lia|lia].
Qed.

(** C39. A click opens the node whose cell is under the pointer, and between the cells
    nothing. *)
Theorem map_click width entries i x y :
  (0 <= x)%Q → (0 <= y)%Q →
  indexAt (layoutMap width entries) entries x y = Some (Z.of_nat i) ↔
  (i < length entries)%nat ∧ inRect (cellAt (layoutMap width entries) i) x y.
Proof.
  intros Hx Hy. pose proof (layout_good width entries) as (Hper & Hcell & _ & _ & Hcols & _). set (l := layoutMap width entries) in *. clearbody l.
  pose proof (axis x (cell l)) as Ax. pose proof (axis y (cell l)) as Ay. unfold indexAt, inRect, cellAt. cbn [rx ry side].
  set (cx := Qfloor (x / inject_Z (cell l + GAP))) in *. set (cy := Qfloor (y / inject_Z (cell l + GAP))) in *.
  assert (0 ≤ cx) as Hcx by (apply (Qfloor_resp_le 0), Qle_shift_div_l; [rewrite <-(Zlt_Qlt 0); unfold GAP; lia|by rewrite Qmult_0_l]).
  destruct (Qle_bool (inject_Z (cell l)) (rem x (cell l + GAP))) eqn:Ex; [|destruct (Qle_bool (inject_Z (cell l)) (rem y (cell l + GAP))) eqn:Ey]; cbn [negb andb].
  - split; [done|]. intros (_ & H1 & H2 & _). assert (0 < cell l) as Hs by lia. destruct (proj2 (Ax (Z.of_nat i `mod` cols l) Hs Hx)); [done|]. congruence.
  - split; [done|]. intros (_ & _ & _ & H1 & H2). assert (0 < cell l) as Hs by lia. destruct (proj2 (Ay (Z.of_nat i / cols l) Hs Hy)); [done|]. congruence.
  - pose proof (Z.mod_pos_bound (Z.of_nat i) (cols l) ltac:(lia)) as Hmod. pose proof (Z.div_mod (Z.of_nat i) (cols l) ltac:(lia)) as Hdiv. split.
    + destruct (cx <? cols l) eqn:Ec; [|done]. destruct (cy * cols l + cx <? _) eqn:Ei; [|done]. cbn [andb]. intros [= E]. split; [lia|].
      assert (Z.of_nat i / cols l = cy) as -> by (symmetry; apply (Z.div_unique_pos _ _ cy cx); lia).
      assert (Z.of_nat i `mod` cols l = cx) as -> by (symmetry; apply (Z.mod_unique_pos _ _ cy cx); lia).
      destruct (proj1 (Ax cx ltac:(lia) Hx) (conj eq_refl eq_refl)), (proj1 (Ay cy ltac:(lia) Hy) (conj eq_refl eq_refl)). done.
    + intros (Hi & H1 & H2 & H3 & H4). destruct (proj2 (Ax (Z.of_nat i `mod` cols l) ltac:(lia) Hx)) as [-> _]; [done|].
      destruct (proj2 (Ay (Z.of_nat i / cols l) ltac:(lia) Hy)) as [-> _]; [done|].
      assert (Z.of_nat i `mod` cols l <? cols l = true) as -> by lia. replace (Z.of_nat i / cols l * cols l + Z.of_nat i `mod` cols l) with (Z.of_nat i) by lia.
      by assert (Z.of_nat i <? Z.of_nat (length entries) = true) as -> by lia.
Qed.

(** What the server counts: each pod of a node in one colour. *)
Definition Counted (c : PodNodeCount) : Prop := 0 ≤ ok c ∧ 0 ≤ warn c ∧ 0 ≤ error c ∧ total c = ok c + warn c + error c.

Lemma maxPods_le entries e : e ∈ entries → total (counts e) ≤ maxPods entries.
Proof. unfold maxPods. induction entries as [|e' l IH]; [by intros ?%elem_of_nil|]. cbn [foldr]. intros [-> |H%IH]%elem_of_cons; lia. Qed.

Lemma dots_from l i a b :
  (λ k, dotAt l i (a + k)%nat) <$> seq 0 b = dotAt l i <$> seq a b.
Proof. trans (dotAt l i <$> (Nat.add a <$> seq 0 b)); [by rewrite <-list_fmap_compose|]. by rewrite fmap_add_seq, Nat.add_0_r. Qed.

(** A square of the grid of [p] columns, with squares of [d] pixels. *)
Lemma grid_within p d k n c : 0 < p → 1 ≤ d → p * d ≤ c → 0 ≤ k < n → n ≤ p * p →
  0 ≤ k `mod` p * d ∧ k `mod` p * d + d ≤ c ∧ 0 ≤ k / p * d ∧ k / p * d + d ≤ c.
Proof.
  intros Hp Hd Hc Hk Hn. pose proof (Z.mod_pos_bound k p Hp). assert (0 ≤ k / p) by (apply Z.div_pos; lia).
  assert (k / p < p) by (apply Z.div_lt_upper_bound; lia). split_and!; nia.
Qed.

Lemma grid_apart p d s k k' : 0 < p → s ≤ d → k ≠ k' →
  k `mod` p * d + s ≤ k' `mod` p * d ∨ k' `mod` p * d + s ≤ k `mod` p * d ∨ k / p * d + s ≤ k' / p * d ∨ k' / p * d + s ≤ k / p * d ∨ d ≤ 0.
Proof.
  intros Hp Hs Hk. pose proof (Z.div_mod k p ltac:(lia)). pose proof (Z.div_mod k' p ltac:(lia)).
  assert (d ≤ 0 ∨ 0 < d) as [|Hd] by lia; [tauto|].
  destruct (Z.lt_trichotomy (k `mod` p) (k' `mod` p)) as [|[E|]]; [left; nia| |right; left; nia].
  destruct (Z.lt_trichotomy (k / p) (k' / p)) as [|[E'|]]; [right; right; left; nia|congruence|right; right; right; left; nia].
Qed.

(** C22. Every pod of a node has its dot: errors, then warnings, then the rest, as many as
    the server counted, in the node's cell, none over another. *)
Theorem pods_have_dots width entries i e :
  entries !! i = Some e → Counted (counts e) →
  let l := layoutMap width entries in
  (dotsOf l Error i e ++ dotsOf l Warn i e ++ dotsOf l Ok i e)%list = dotAt l i <$> seq 0 (Z.to_nat (total (counts e))) ∧
  ∀ k, (k < Z.to_nat (total (counts e)))%nat →
    within (dotAt l i k) (cellAt l i) ∧ 1 ≤ side (dotAt l i k) ∧ ∀ k', k ≠ k' → apart (dotAt l i k) (dotAt l i k').
Proof.
  intros He (Hok & Hwarn & Herr & Ht) l. pose proof (layout_good width entries) as (Hper & Hcell & Hdot & Hfit & Hcols & Hmax). fold l in Hper, Hcell, Hdot, Hfit, Hcols, Hmax.
  pose proof (maxPods_le entries e (list_elem_of_lookup_2 _ _ _ He)) as Hle. split.
  - unfold dotsOf. rewrite !dots_from. cbn [firstDot countOf]. rewrite <-!fmap_app. f_equal.
    replace (Z.to_nat (total (counts e))) with (Z.to_nat (error (counts e)) + (Z.to_nat (warn (counts e)) + Z.to_nat (ok (counts e))))%nat by lia.
    rewrite !seq_app. by rewrite Z2Nat.inj_add by lia.
  - intros k Hk. pose proof (grid_within (per l) (dot l) (Z.of_nat k) (total (counts e)) (cell l - 4) Hper Hdot Hfit ltac:(lia) ltac:(lia)) as (G1 & G2 & G3 & G4).
    assert (side (dotAt l i k) ≤ dot l ∧ 1 ≤ side (dotAt l i k)) as [Hs Hs1] by (unfold dotAt; cbn [side]; destruct (2 <? dot l); lia).
    split_and!; [|done|].
    + unfold within, cellAt, dotAt in *. cbn [rx ry side] in *. split_and!; lia.
    + intros k' Hne. pose proof (grid_apart (per l) (dot l) (side (dotAt l i k)) (Z.of_nat k) (Z.of_nat k') Hper Hs ltac:(lia)) as H.
      unfold apart, dotAt in *. cbn [rx ry side] in *. lia.
Qed.

(** The cells are in the canvas, none over another. *)
Theorem cells_fit width entries i :
  (i < length entries)%nat → let l := layoutMap width entries in
  0 ≤ rx (cellAt l i) ∧ 0 ≤ ry (cellAt l i) ∧
  rx (cellAt l i) + cell l ≤ Z.max width (cell l) ∧ ry (cellAt l i) + cell l ≤ height l ∧
  ∀ j, i ≠ j → apart (cellAt l i) (cellAt l j).
Proof.
  intros Hi l. pose proof (layout_good width entries) as (Hper & Hcell & _ & _ & Hcols & _). fold l in Hper, Hcell, Hcols.
  assert (cols l = Z.max 1 ((width + GAP) / (cell l + GAP))) as Ec by done.
  assert (height l = ceilDiv (Z.max (Z.of_nat (length entries)) 1) (cols l) * (cell l + GAP) - GAP) as Eh by done.
  pose proof (ceilDiv_bounds (Z.max (Z.of_nat (length entries)) 1) (cols l) ltac:(lia)) as Hrows. set (rows := ceilDiv _ _) in *.
  pose proof (Z.mod_pos_bound (Z.of_nat i) (cols l) ltac:(lia)) as Hmod. pose proof (Z.div_mod (Z.of_nat i) (cols l) ltac:(lia)) as Hdiv.
  assert (0 ≤ Z.of_nat i / cols l < rows) as Hrow by (split; [apply Z.div_pos; lia|apply Z.div_lt_upper_bound; nia]).
  clearbody l rows. unfold cellAt, within, apart. cbn [rx ry side]. unfold GAP in *.
  assert (Z.of_nat i `mod` cols l * (cell l + 2) + cell l ≤ Z.max width (cell l)) as Hx.
  { destruct (Z.le_gt_cases ((width + 2) / (cell l + 2)) 1); [assert (Z.of_nat i `mod` cols l = 0) as -> by lia; lia|].
    pose proof (Z.mul_div_le (width + 2) (cell l + 2) ltac:(lia)). assert (cols l = (width + 2) / (cell l + 2)) as E by lia. rewrite <-E in *. nia. }
  assert (Z.of_nat i / cols l * (cell l + 2) + cell l ≤ height l) as Hy by nia.
  split_and!; [nia|nia|done|done|]. intros j Hne.
  pose proof (grid_apart (cols l) (cell l + 2) (cell l) (Z.of_nat i) (Z.of_nat j) ltac:(lia) ltac:(lia) ltac:(lia)). lia.
Qed.

(** The rank of a node: control planes, workers, the pods not scheduled. *)
Definition rank (cluster : list value) (n : string) : Z := if eqs n "" then 2 else if isControlPlane cluster n then 0 else 1.

Lemma compareEntries_rank localeCompare cluster a b :
  n_node a ≠ n_node b →
  compareEntries localeCompare cluster a b ≤ 0 ↔
  thenBy (λ a b, rank cluster (n_node a) - rank cluster (n_node b)) (λ a b, localeCompare (n_node a) (n_node b)) a b ≤ 0.
Proof.
  intros Hne. unfold compareEntries, thenBy, rank. destruct (eqs (n_node a) "") eqn:Ea, (eqs (n_node b) "") eqn:Eb.
  - apply eqs_true in Ea, Eb. congruence.
  - by destruct (isControlPlane cluster (n_node b)).
  - by destruct (isControlPlane cluster (n_node a)).
  - by destruct (isControlPlane cluster (n_node a)), (isControlPlane cluster (n_node b)).
Qed.

(** The map has each node counted once: control planes, then workers, by name, and the
    pods not scheduled last. *)
Theorem nodes_in_order localeCompare cluster summary :
  Consistent localeCompare → NoDup (node <$> nodes summary) →
  let entries := useClusterDerived localeCompare cluster (Some summary) in
  entries ≡ₚ entryOf <$> nodes summary ∧
  StronglySorted (λ a b, rank cluster (n_node a) < rank cluster (n_node b) ∨
    rank cluster (n_node a) = rank cluster (n_node b) ∧ localeCompare (n_node a) (n_node b) ≤ 0) entries.
Proof.
  intros Hc Hnd entries. split; [apply sortBy_permutation|].
  set (d := thenBy (λ a b, rank cluster (n_node a) - rank cluster (n_node b)) (λ a b, localeCompare (n_node a) (n_node b))).
  assert (NoDup (n_node <$> (entryOf <$> nodes summary))) as Hn by (by rewrite <-list_fmap_compose).
  assert (sortBy (compareEntries localeCompare cluster) (entryOf <$> nodes summary) = sortBy d (entryOf <$> nodes summary)) as Es.
  { apply sortBy_ext_on; [by apply NoDup_fmap_1 in Hn|]. intros a b Ha Hb Hne. apply compareEntries_rank. intros E. apply Hne.
    by apply (fmap_one n_node (entryOf <$> nodes summary)). }
  assert (entries = sortBy d (entryOf <$> nodes summary)) as -> by exact Es.
  apply (sorted_impl (λ a b, d a b ≤ 0)).
  - intros a b H. unfold d, thenBy in H. destruct (_ - _ =? 0) eqn:E; lia.
  - apply sortBy_sorted, thenBy_consistent; [apply (minus_consistent (λ a, rank cluster (n_node a)))|by apply on_consistent].
Qed.

(** ** Properties: health *)

Lemma written_truthy r : written r = true → truthy r = true.
Proof. destruct r as [| | | | |s| |]; try done. cbn [written truthy]. by destruct s. Qed.

Lemma reasons_truthy state cs r : r ∈ stateReasons state cs → truthy r = true.
Proof. intros [_ H]%elem_of_filterb. by apply written_truthy. Qed.

Lemma errorReasons_truthy pod r : r ∈ errorReasons pod → truthy r = true.
Proof.
  unfold errorReasons. intros [Hr _]%elem_of_filterb. rewrite !elem_of_app in Hr.
  destruct Hr as [Hr|[Hr|[[Hr _]%elem_of_filterb|[Hr|[Hr _]%elem_of_filterb]]]]; [|by eapply reasons_truthy..].
  match type of Hr with _ ∈ (if ?b then _ else _) => destruct b eqn:E end; [by apply list_elem_of_singleton in Hr as ->|by apply elem_of_nil in Hr].
Qed.

(** A picked reason is one of the reasons, and there is one as soon as they are some. *)
Lemma pickReason_spec reasons priority :
  (∀ r, r ∈ reasons → truthy r = true) → Forall (λ p, p ≠ "") priority →
  (reasons = [] → truthy (pickReason reasons priority) = false) ∧
  (reasons ≠ [] → truthy (pickReason reasons priority) = true ∧ pickReason reasons priority ∈ reasons).
Proof.
  intros Ht Hp. unfold pickReason. destruct (find (includesStr reasons) priority) as [p|] eqn:E.
  - apply find_Some in E as [Hin H]. apply some_true in H as (r & Hr & Hs). destruct r; try done. cbn [isStr] in Hs. apply eqs_true in Hs as ->.
    split; [intros ->; by apply elem_of_nil in Hr|]. intros _. split; [by apply Ht|done].
  - split; [by intros ->|]. destruct reasons as [|r l]; [done|]. intros _. assert (truthy r = true) as Hr by (apply Ht; left). unfold or_else. rewrite Hr. split; [done|left].
Qed.

Lemma priorities_written : Forall (λ p, p ≠ "") errorPriority ∧ Forall (λ p, p ≠ "") warnPriority.
Proof. split; by repeat constructor. Qed.

Lemma notReady_spec pod : notReady pod = false ↔ ∀ c, c ∈ countedContainers pod → truthy (c .@ "ready") = true.
Proof.
  unfold notReady. set (l := countedContainers pod). rewrite andb_false_iff, !Nat.ltb_ge. unfold filterb. induction l as [|c l IH]; cbn [List.filter length].
  - split; [by intros _ c ?%elem_of_nil|left; lia].
  - destruct (truthy (c .@ "ready")) eqn:E; cbn [length]; split.
    + intros [? | H] c' [->|Hc']%elem_of_cons; [lia|lia|done|]. apply IH; [right; lia|done].
    + intros H. right. destruct (proj2 IH) as [? | ?]; [intros c' Hc'; apply H; by right|destruct l; cbn in *; lia|lia].
    + intros [? | H]; [lia|]. pose proof (List.filter_length_le (λ c, truthy (c .@ "ready")) l). lia.
    + intros H. rewrite (H c) in E; [done|left].
Qed.

(** A pod's card is red exactly when it failed or shows a reason that is not one of
    starting, and green exactly when it completed, or nothing of it is held back,
    not ready or waiting; a pod being deleted is neither. *)
Theorem health_levels pod :
  let deleted := truthy (pod .@ "deletion_timestamp") = true in
  let failed := isStr (podPhase pod) "Failed" = true ∨ errorReasons pod ≠ [] in
  let starting := isStr (podPhase pod) "Pending" = true ∨ isStr (podPhase pod) "Unknown" = true in
  (level (getPodHealth pod) = Error ↔ ¬ deleted ∧ failed) ∧
  (level (getPodHealth pod) = Ok ↔ ¬ deleted ∧ ¬ failed ∧ ¬ starting ∧
    (isStr (podPhase pod) "Succeeded" = true ∨
     initNotReady pod = false ∧ (∀ c, c ∈ countedContainers pod → truthy (c .@ "ready") = true) ∧ waitingReasons (containersOf pod) = [])) ∧
  (level (getPodHealth pod) = Error → errorReasons pod ≠ [] → reason (getPodHealth pod) ∈ errorReasons pod).
Proof.
  cbv zeta. rewrite <-notReady_spec. unfold getPodHealth. destruct priorities_written as [P1 P2].
  destruct (pickReason_spec (errorReasons pod) errorPriority (errorReasons_truthy pod) P1) as [E0 E1].
  destruct (pickReason_spec (waitingReasons (containersOf pod)) warnPriority (reasons_truthy _ _) P2) as [W0 W1].
  set (er := pickReason (errorReasons pod) errorPriority) in *. set (wr := pickReason (waitingReasons (containersOf pod)) warnPriority) in *.
  destruct (truthy (pod .@ "deletion_timestamp")); [cbn; naive_solver|].
  assert (truthy er = true ↔ errorReasons pod ≠ []) as He.
  { destruct (errorReasons pod); [by rewrite E0|]. split; [done|]. intros H. by apply E1. }
  destruct (truthy er) eqn:Er; cbn [orb].
  { cbn [level reason]. assert (errorReasons pod ≠ []) as Hne by by apply He. split_and!; [naive_solver|naive_solver|].
    intros _ _. unfold or_else. rewrite Er. by apply E1. }
  assert (errorReasons pod = []) as Hnil by (destruct (errorReasons pod); [done|]; assert (false = true) by (by apply He); done). rewrite Hnil.
  destruct (isStr (podPhase pod) "Failed") eqn:Ef; [cbn; naive_solver|].
  destruct (isStr (podPhase pod) "Pending") eqn:Ep; [cbn; naive_solver|]. destruct (isStr (podPhase pod) "Unknown") eqn:Eu; [cbn; naive_solver|]. cbn [orb].
  destruct (isStr (podPhase pod) "Succeeded") eqn:Es; [cbn; naive_solver|]. destruct (initNotReady pod); [cbn; naive_solver|].
  destruct (notReady pod); [cbn; naive_solver|]. destruct (waitingReasons (containersOf pod)) as [|w ws].
  - rewrite W0 by done. cbn. naive_solver.
  - destruct W1 as [-> _]; [done|]. cbn. naive_solver.
Qed.

(** ** Concrete nodes *)

Definition sampleCount (n : string) (o w e : Z) : PodNodeCount := {| node := n; total := o + w + e; ok := o; warn := w; error := e |}.
Definition sampleSummary : PodNodeSummary :=
  {| nodes := [sampleCount "" 0 2 0; sampleCount "b" 30 1 2; sampleCount "cp" 12 0 0; sampleCount "a" 100 0 0]; s_total := 147; s_all := 147; revision := "7"; unchanged := false |}.
Definition sampleCluster : list value := [VObj [("name", VStr "cp"); ("roles", VArr [VStr "control-plane"])]; VObj [("name", VStr "a"); ("roles", VArr [VStr "worker"])]].
Definition sampleEntries : list NodeEntry := useClusterDerived byUnits sampleCluster (Some sampleSummary).

Lemma nodes_in_order_witness :
  (label <$> sampleEntries) = ["cp"; "a"; "b"; "Unscheduled"] ∧
  StronglySorted (λ a b, rank sampleCluster (n_node a) < rank sampleCluster (n_node b) ∨
    rank sampleCluster (n_node a) = rank sampleCluster (n_node b) ∧ byUnits (n_node a) (n_node b) ≤ 0) sampleEntries.
Proof.
  split; [by vm_compute|]. apply (nodes_in_order byUnits sampleCluster sampleSummary byUnits_consistent). by apply (bool_decide_unpack _); vm_compute.
Defined.

Lemma map_click_witness :
  let l := layoutMap 130 sampleEntries in
  (cell l, cols l, per l, dot l) = (48, 2, 10, 4) ∧ indexAt l sampleEntries (97 # 1) (73 # 2) = Some 1 ∧ indexAt l sampleEntries (49 # 1) (9 # 1) = None ∧
  ((1 < length sampleEntries)%nat ∧ inRect (cellAt l 1) (97 # 1) (73 # 2)).
Proof.
  split; [by vm_compute|]. split; [by vm_compute|]. split; [by vm_compute|].
  assert (0 <= 97 # 1)%Q as Hx by (unfold Qle; cbn; lia). assert (0 <= 73 # 2)%Q as Hy by (unfold Qle; cbn; lia).
  assert (indexAt (layoutMap 130 sampleEntries) sampleEntries (97 # 1) (73 # 2) = Some (Z.of_nat 1)) as Hi by by vm_compute.
  exact (proj1 (map_click 130 sampleEntries 1 (97 # 1) (73 # 2) Hx Hy) Hi).
Defined.

Lemma pods_have_dots_witness :
  let l := layoutMap 130 sampleEntries in
  length (dotsOf l Ok 2 {| n_node := "b"; label := "b"; counts := sampleCount "b" 30 1 2 |}) = 30%nat ∧ within (dotAt l 2 32) (cellAt l 2).
Proof.
  split; [by vm_compute|].
  set (e := {| n_node := "b"; label := "b"; counts := sampleCount "b" 30 1 2 |}).
  assert (sampleEntries !! 2%nat = Some e) as He by by vm_compute. assert (Counted (counts e)) as Hc by (unfold Counted; cbn; lia).
  exact (proj1 (proj2 (pods_have_dots 130 sampleEntries 2 e He Hc) 32%nat ltac:(cbn; lia))).
Defined.

Lemma cells_fit_witness :
  let l := layoutMap 130 sampleEntries in
  height l = 98 ∧ ry (cellAt l 3) + cell l ≤ height l.
Proof. split; [by vm_compute|]. exact (proj1 (proj2 (proj2 (proj2 (cells_fit 130 sampleEntries 3 ltac:(vm_compute; lia)))))). Defined.

Definition samplePod (phase : string) (ready : bool) (waiting : value) : value :=
  VObj [("phase", VStr phase); ("containers", VArr [VObj [("ready", VBool ready); ("state", VObj [("waiting", VObj [("reason", waiting)])])]])].

Example health_of_pods :
  ((λ h, (level h, reason h)) <$> (getPodHealth <$>
    [samplePod "Running" true VUndef; samplePod "Running" false (VStr "CrashLoopBackOff"); samplePod "Pending" false (VStr "ContainerCreating");
     samplePod "Running" false VUndef; samplePod "Succeeded" false VUndef; withField "deletion_timestamp" (VStr "now") (samplePod "Running" true VUndef)])) =
  [(Ok, VStr "Running"); (Error, VStr "CrashLoopBackOff"); (Warn, VStr "Pending"); (Warn, VStr "NotReady"); (Ok, VStr "Succeeded"); (Warn, VStr "Terminating")].
Proof. by vm_compute. Qed.
