(* ===== verification/ClusterView.v ===== *)
(** * Deleting a pod in the cluster view

    pages/cluster-view: ClusterViewProvider.tsx, useClusterEffects.ts, usePodDelete.ts,
    PodContextMenu.tsx, PodDeleteModal.tsx and the node boxes of PodNodeGrid.tsx; the
    container its window opens on (types.ts), and resource-detail/systemObject.ts, the
    objects whose name must be typed.

    A request keeps the values of the render it was asked in.  The node boxes are those
    on screen, each with the pods it listed last; the overlay of a dialog covers the
    cards, so a menu opens and a card is clicked only while there is none. *)

From S2P Require Import Prelude JsString OrderedMap Json.

#[local] Open Scope string_scope.
#[local] Open Scope Z_scope.

(** ** Objects whose name must be typed *)

Inductive SystemReason := immortalNamespace | systemNamespace | node | crd | helm | bootstrap | systemRbac.
#[global] Instance SystemReason_dec : EqDecision SystemReason.
Proof. solve_decision. Defined.

Record SystemCheck := { blocked : bool; reasons : list SystemReason }.

Definition IMMORTAL : list string := ["default"; "kube-system"; "kube-public"].
Definition SYSTEM_NAMESPACES : list string := ["kube-system"; "kube-public"; "kube-node-lease"].
Definition RBAC_KINDS : list string := ["ClusterRole"; "ClusterRoleBinding"; "Role"; "RoleBinding"].

Definition systemObject (kind ns name : string) (meta : value) : SystemCheck :=
  if eqs kind "Namespace" && bool_decide (name ∈ IMMORTAL) then {| blocked := true; reasons := [immortalNamespace] |} else
  let labels := meta .@ "labels" ?? VObj [] in
  let annotations := meta .@ "annotations" ?? VObj [] in
  let when (b : bool) (r : SystemReason) := if b then [r] else [] in
  {| blocked := false;
     reasons :=
       (when (eqs kind "Namespace" && bool_decide (name ∈ SYSTEM_NAMESPACES) || nonempty ns && bool_decide (ns ∈ SYSTEM_NAMESPACES)) systemNamespace ++
        when (eqs kind "Node") node ++
        when (eqs kind "CustomResourceDefinition") crd ++
        when (truthy (annotations .@ "meta.helm.sh/release-name") || isStr (labels .@ "app.kubernetes.io/managed-by") "Helm") helm ++
        when (truthy (labels .@ "kubernetes.io/bootstrapping")) bootstrap ++
        when (bool_decide (kind ∈ RBAC_KINDS) && (startsWith "system:" name || eqs name "cluster-admin")) systemRbac)%list |}.

(** ** The container a pod opens on *)

Definition SIDECAR_PATTERNS : list string := ["istio-proxy"; "istio-init"; "envoy"; "linkerd-proxy"; "vault-agent"].

Definition alnum (c : ascii) : bool :=
  let n := nat_of_ascii c in ((97 <=? n) && (n <=? 122) || (65 <=? n) && (n <=? 90) || (48 <=? n) && (n <=? 57))%nat.
Definition between (a b : nat) (s : string) : bool := sall alnum s && (a <=? String.length s)%nat && (String.length s <=? b)%nat.

(** [name.replace(/-[a-z0-9]{5,10}-[a-z0-9]{5}$/i, '')] and [.replace(/-[0-9]+$/i, '')]:
    the pieces between the dashes, from the last. *)
Definition withoutHash (name : string) : string :=
  match rev (split "-" name) with
  | b :: a :: ((_ :: _) as init) => if between 5 5 b && between 5 10 a then join "-" (rev init) else name
  | _ => name
  end.
Definition withoutIndex (name : string) : string :=
  match rev (split "-" name) with
  | n :: ((_ :: _) as init) => if nonempty n && sall is_digit n then join "-" (rev init) else name
  | _ => name
  end.

Definition isSidecarName (n : string) : bool := some (λ p, includes p n) SIDECAR_PATTERNS.

Definition pickMainContainer (name : string) (containers : list string) : string :=
  let podBaseName := withoutIndex (withoutHash name) in
  match containers with
  | [] => ""
  | first :: _ =>
      match find (λ c, eqs c podBaseName) containers with
      | Some c => c
      | None => default first (find (λ c, negb (isSidecarName c)) containers)
      end
  end.

(** ** The view *)

Record Pod := { namespace : string; name : string; labels : value }.
Definition podKey (p : Pod) : string := namespace p +:+ "/" +:+ name p.

Record Request := { target : Pod; force : bool; asSelected : option Pod }.

Record View := {
  podContextMenu : option Pod; deleteTargetPod : option Pod; deleteForce : bool; deleteError : option string; isDeletingPod : bool;
  deletingPods : list string; selectedPod : option Pod; typedFor : string * string;
  boxes : list (string * option (list string)); requests : list Request
}.

Definition newView : View :=
  {| podContextMenu := None; deleteTargetPod := None; deleteForce := false; deleteError := None; isDeletingPod := false;
     deletingPods := []; selectedPod := None; typedFor := ("", ""); boxes := []; requests := [] |}.

Definition withMenu (m : option Pod) (s : View) : View :=
  {| podContextMenu := m; deleteTargetPod := deleteTargetPod s; deleteForce := deleteForce s; deleteError := deleteError s; isDeletingPod := isDeletingPod s;
     deletingPods := deletingPods s; selectedPod := selectedPod s; typedFor := typedFor s; boxes := boxes s; requests := requests s |}.
Definition withDialog (t : option Pod) (f : bool) (e : option string) (d : bool) (s : View) : View :=
  {| podContextMenu := podContextMenu s; deleteTargetPod := t; deleteForce := f; deleteError := e; isDeletingPod := d;
     deletingPods := deletingPods s; selectedPod := selectedPod s; typedFor := typedFor s; boxes := boxes s; requests := requests s |}.
Definition withMarks (ks : list string) (s : View) : View :=
  {| podContextMenu := podContextMenu s; deleteTargetPod := deleteTargetPod s; deleteForce := deleteForce s; deleteError := deleteError s; isDeletingPod := isDeletingPod s;
     deletingPods := ks; selectedPod := selectedPod s; typedFor := typedFor s; boxes := boxes s; requests := requests s |}.
Definition withSelected (p : option Pod) (s : View) : View :=
  {| podContextMenu := podContextMenu s; deleteTargetPod := deleteTargetPod s; deleteForce := deleteForce s; deleteError := deleteError s; isDeletingPod := isDeletingPod s;
     deletingPods := deletingPods s; selectedPod := p; typedFor := typedFor s; boxes := boxes s; requests := requests s |}.
Definition withTyped (t : string * string) (s : View) : View :=
  {| podContextMenu := podContextMenu s; deleteTargetPod := deleteTargetPod s; deleteForce := deleteForce s; deleteError := deleteError s; isDeletingPod := isDeletingPod s;
     deletingPods := deletingPods s; selectedPod := selectedPod s; typedFor := t; boxes := boxes s; requests := requests s |}.
Definition withBoxes (b : list (string * option (list string))) (s : View) : View :=
  {| podContextMenu := podContextMenu s; deleteTargetPod := deleteTargetPod s; deleteForce := deleteForce s; deleteError := deleteError s; isDeletingPod := isDeletingPod s;
     deletingPods := deletingPods s; selectedPod := selectedPod s; typedFor := typedFor s; boxes := b; requests := requests s |}.
Definition withRequests (r : list Request) (s : View) : View :=
  {| podContextMenu := podContextMenu s; deleteTargetPod := deleteTargetPod s; deleteForce := deleteForce s; deleteError := deleteError s; isDeletingPod := isDeletingPod s;
     deletingPods := deletingPods s; selectedPod := selectedPod s; typedFor := typedFor s; boxes := boxes s; requests := r |}.

Definition closeContextMenu : View → View := withMenu None.
Definition openDeleteModal (p : Pod) (s : View) : View := withDialog (Some p) false None (isDeletingPod s) s.
Definition closeDeleteModal : View → View := withDialog None false None false.
Definition closeDetailModal : View → View := withSelected None.

(** What was typed for the pod of the dialog. *)
Definition typed (s : View) : string :=
  match deleteTargetPod s with Some p => if eqs (typedFor s).1 (name p) then (typedFor s).2 else "" | None => "" end.
Definition needsName (p : Pod) : bool :=
  negb (bool_decide (reasons (systemObject "Pod" (namespace p) (name p) (VObj [("labels", labels p)])) = [])).

(** The button of the dialog. *)
Definition confirmEnabled (s : View) : bool :=
  match deleteTargetPod s with Some p => negb (isDeletingPod s || needsName p && negb (eqs (typed s) (name p))) | None => false end.

Definition handleDeletePod (s : View) : View :=
  match deleteTargetPod s with
  | None => s
  | Some p =>
      if isDeletingPod s then s else
      withRequests (requests s ++ [{| target := p; force := deleteForce s; asSelected := selectedPod s |}])
        (withMarks (setAdd (podKey p) (deletingPods s)) (withDialog (Some p) (deleteForce s) None true s))
  end.

Definition samePod (a : Pod) (b : option Pod) : bool :=
  match b with Some b => eqs (name b) (name a) && eqs (namespace b) (namespace a) | None => false end.

(** The answer of a request, an error or not. *)
Definition answered (i : nat) (failure : option string) (s : View) : View :=
  match requests s !! i with
  | None => s
  | Some r =>
      let s := withRequests (delete i (requests s)) s in
      match failure with
      | None => let s := if samePod (target r) (asSelected r) then closeDetailModal s else s in closeDeleteModal s
      | Some e =>
          let s := withMarks (filterb (λ k, negb (eqs k (podKey (target r)))) (deletingPods s)) s in
          withDialog (deleteTargetPod s) (deleteForce s) (Some e) false s
      end
  end.

(** A box's pods: those gone since it listed last lose their mark. *)
Definition listed (n : string) (keys : list string) (s : View) : View :=
  match OrderedMap.assoc n (boxes s) with
  | None => s
  | Some prev =>
      let s' := withBoxes (upsert None n (λ _, Some keys) (boxes s)) s in
      match prev with
      | None => s'
      | Some old =>
          let gone := filterb (λ k, negb (bool_decide (k ∈ keys))) old in
          withMarks (filterb (λ k, negb (bool_decide (k ∈ gone))) (deletingPods s)) s'
      end
  end.

Inductive Event :=
  | BoxShown (n : string) | BoxHidden (n : string) | Listed (n : string) (keys : list string)
  | RightClicks (p : Pod) | ClicksCard (p : Pod) | MenuDeletes | MenuExecs | MenuCloses
  | ClosesDetail | Forces (b : bool) | Types (v : string) | Cancels | Confirms | Escapes
  | Answers (i : nat) (failure : option string).

Definition uncovered (s : View) : bool := bool_decide (deleteTargetPod s = None ∧ selectedPod s = None).
Definition marked (s : View) (p : Pod) : bool := bool_decide (podKey p ∈ deletingPods s).

#[local] Arguments needsName : simpl never.
#[local] Arguments podKey : simpl never.

Section view.
Context (canDeletePod isAdmin : bool).

Definition step (s : View) (e : Event) : View :=
  match e with
  | BoxShown n => withBoxes (upsert None n (λ p, p) (boxes s)) s
  | BoxHidden n => withBoxes (filterb (λ b, negb (eqs b.1 n)) (boxes s)) s
  | Listed n keys => listed n keys s
  | RightClicks p => if canDeletePod && uncovered s && negb (marked s p) then withMenu (Some p) s else s
  | ClicksCard p => if uncovered s && negb (marked s p) && bool_decide (podContextMenu s = None) then withSelected (Some p) s else s
  | MenuDeletes => match podContextMenu s with Some p => closeContextMenu (openDeleteModal p s) | None => s end
  | MenuExecs => match podContextMenu s with Some p => if isAdmin then closeContextMenu (withSelected (Some p) s) else s | None => s end
  | MenuCloses => closeContextMenu s
  | ClosesDetail => closeDetailModal s
  | Forces b => match deleteTargetPod s with Some p => withDialog (Some p) b (deleteError s) (isDeletingPod s) s | None => s end
  | Types v => match deleteTargetPod s with Some p => withTyped (name p, v) s | None => s end
  | Cancels => if isDeletingPod s then s else closeDeleteModal s
  | Confirms => if confirmEnabled s then handleDeletePod s else s
  | Escapes =>
      if bool_decide (podContextMenu s = None) then
        if bool_decide (deleteTargetPod s = None) then closeDetailModal s else closeDeleteModal s
      else closeContextMenu s
  | Answers i failure => answered i failure s
  end.

Definition run (es : list Event) : View := foldl step newView es.

(** ** Properties *)

Lemma viewRun_app es1 es2 : run (es1 ++ es2) = foldl step (run es1) es2.
Proof. apply foldl_app. Qed.

Definition asConfirmed (r : Request) (s : View) : Prop :=
  deleteTargetPod s = Some (target r) ∧ deleteForce s = force r ∧ isDeletingPod s = false ∧ (needsName (target r) = true → typed s = name (target r)).

Lemma step_requests s e r : r ∈ requests (step s e) → r ∈ requests s ∨ e = Confirms ∧ asConfirmed r s.
Proof.
  destruct e; cbn [step]; unfold listed, answered; intros H; repeat case_match; cbn in H; try (by left); try (left; by apply list_elem_of_delete_inv in H).
  unfold confirmEnabled, handleDeletePod in *. destruct (deleteTargetPod s) as [p|] eqn:Et; [|by left]. destruct (isDeletingPod s) eqn:Ed; [done|].
  cbn in H. apply elem_of_app in H as [H|H%list_elem_of_singleton]; [by left|]. right. subst r. split; [done|]. unfold asConfirmed. cbn. split_and!; [done..|].
  intros Hn. rewrite Hn in *. cbn in *. destruct (eqs (typed s) (name p)) eqn:E; [by apply eqs_true|done].
Qed.

(** A request that runs is of the pod that was in the dialog, forced or not as it said
    there, and of a system object whose name was typed. *)
Theorem delete_as_confirmed es r :
  r ∈ requests (run es) → ∃ es1 es2, es = (es1 ++ Confirms :: es2)%list ∧ asConfirmed r (run es1).
Proof.
  induction es as [|e es IH] using rev_ind; [by intros ?%elem_of_nil|]. rewrite viewRun_app. cbn [foldl]. intros [H|[-> H]]%step_requests.
  - destruct (IH H) as (es1 & es2 & -> & H1). exists es1, (es2 ++ [e])%list. by rewrite <-(assoc_L (++)%list).
  - by exists es, [].
Qed.

(** While Escape is not pressed on a dialog whose request runs, there is one request at
    most, and it is the one of the dialog: its answer closes that dialog, or shows its
    failure there. *)
Definition Quiet (es : list Event) : Prop := ∀ es1 es2, es = (es1 ++ Escapes :: es2)%list → isDeletingPod (run es1) = false.

Definition oneDialog (s : View) : Prop :=
  (podContextMenu s ≠ None → deleteTargetPod s = None) ∧
  (requests s = [] ∧ isDeletingPod s = false ∨ ∃ r, requests s = [r] ∧ isDeletingPod s = true ∧ deleteTargetPod s = Some (target r)).

Theorem dialog_of_its_request es : Quiet es → oneDialog (run es).
Proof.
  induction es as [|e es IH] using rev_ind; [intros _; split; [done|by left]|]. intros Hq. rewrite viewRun_app. cbn [foldl].
  assert (e = Escapes → isDeletingPod (run es) = false) as He by (intros ->; by apply (Hq es [])).
  assert (oneDialog (run es)) as Hi by (apply IH; intros es1 es2 ->; apply (Hq es1 (es2 ++ [e])%list); by rewrite <-(assoc_L (++)%list)).
  clear IH Hq. revert He Hi. generalize (run es). clear es. intros s He [H1 H2].
  destruct e; cbn [step]; unfold listed, uncovered, answered, handleDeletePod, confirmEnabled; try (by split).
  all: destruct H2 as [[Hr Hd]|(r & Hr & Hd & Ht)].
  all: try (specialize (He eq_refl); congruence).
  all: unfold oneDialog; rewrite ?Hr, ?Hd, ?Ht; cbn; try (destruct i as [|i]; cbn); repeat case_match; cbn; try naive_solver.
  all: apply andb_true_iff in H as [[_ H]%andb_true_iff _]; try done; apply bool_decide_eq_true in H as [H _]; naive_solver.
Qed.

(** The mark of a pod being deleted goes only when its request failed, or when it left
    the pods of a box on screen. *)
Theorem mark_until_gone s e k :
  k ∈ deletingPods s → k ∉ deletingPods (step s e) →
  (∃ i f r, e = Answers i (Some f) ∧ requests s !! i = Some r ∧ podKey (target r) = k) ∨
  (∃ n keys old, e = Listed n keys ∧ OrderedMap.assoc n (boxes s) = Some (Some old) ∧ k ∈ old ∧ k ∉ keys).
Proof.
  intros Hk Hn. destruct e; cbn [step] in Hn; try (unfold handleDeletePod in Hn; repeat case_match; cbn in Hn; try done; rewrite elem_setAdd in Hn; naive_solver).
  - right. unfold listed in Hn. destruct (OrderedMap.assoc n (boxes s)) as [[old|]|] eqn:E; [|done..]. cbn in Hn. exists n, keys, old.
    rewrite elem_of_filterb, negb_true_iff, bool_decide_eq_false in Hn. assert (k ∈ filterb (λ k, negb (bool_decide (k ∈ keys))) old) as [Ho Hk']%elem_of_filterb by (by apply dec_stable; tauto).
    rewrite negb_true_iff, bool_decide_eq_false in Hk'. done.
  - left. unfold answered in Hn. destruct (requests s !! i) as [r|] eqn:E; [|done]. destruct failure as [f|]; cbn in Hn; [|by destruct (samePod _ _)].
    exists i, f, r. split_and!; [done..|]. rewrite elem_of_filterb, negb_true_iff in Hn. destruct (eqs k (podKey (target r))) eqn:Ek; [|tauto]. by apply eqs_true in Ek.
Qed.

End view.

(** A pod deleted from its card's menu. *)
Lemma deletes isAdmin s p :
  uncovered s = true → marked s p = false → needsName p = false → isDeletingPod s = false →
  foldl (step true isAdmin) s [RightClicks p; MenuDeletes; Confirms] =
  withRequests (requests s ++ [{| target := p; force := false; asSelected := selectedPod s |}])
    (withMarks (setAdd (podKey p) (deletingPods s)) (withDialog (Some p) false None true (withMenu None s))).
Proof.
  intros Hu Hm Hn Hd. cbn [foldl step]. rewrite Hu, Hm. cbn. unfold confirmEnabled, handleDeletePod. cbn. rewrite Hd, Hn. done.
Qed.

(** Escape closes the dialog of a request that runs, and the answer comes to the dialog
    of another pod: it closes that one, or its failure is shown there. *)
Theorem escape_mixes_dialogs isAdmin a b f :
  podKey a ≠ podKey b → needsName a = false →
  let s := run true isAdmin [RightClicks a; MenuDeletes; Confirms; Escapes; RightClicks b; MenuDeletes] in
  deleteTargetPod s = Some b ∧ (target <$> requests s) = [a] ∧
  deleteTargetPod (step true isAdmin s (Answers 0 None)) = None ∧ requests (step true isAdmin s (Answers 0 None)) = [] ∧
  deleteTargetPod (step true isAdmin s (Answers 0 (Some f))) = Some b ∧ deleteError (step true isAdmin s (Answers 0 (Some f))) = Some f.
Proof.
  intros Hab Hn. cbv zeta. change [RightClicks a; MenuDeletes; Confirms; Escapes; RightClicks b; MenuDeletes]
    with ([RightClicks a; MenuDeletes; Confirms] ++ [Escapes; RightClicks b; MenuDeletes])%list.
  rewrite viewRun_app. unfold run. rewrite deletes by done. cbn [foldl step podContextMenu withMenu withDialog withMarks withRequests deleteTargetPod newView].
  rewrite bool_decide_true, bool_decide_false by done. unfold uncovered. cbn. unfold marked. cbn.
  by rewrite (bool_decide_false (podKey b ∈ [podKey a])) by (by intros ?%list_elem_of_singleton).
Qed.

(** The mark of a pod that leaves while its box is off the screen stays: the next pod of
    that name is drawn as being deleted, and can be neither opened nor deleted. *)
Theorem mark_outlives_pod isAdmin p n :
  needsName p = false →
  let s := run true isAdmin ([BoxShown n; Listed n [podKey p]] ++ [RightClicks p; MenuDeletes; Confirms] ++
                             [Answers 0 None; BoxHidden n; BoxShown n; Listed n [podKey p]]) in
  requests s = [] ∧ marked s p = true ∧ step true isAdmin s (RightClicks p) = s ∧ step true isAdmin s (ClicksCard p) = s.
Proof.
  intros Hn. cbv zeta. rewrite !viewRun_app. set (s0 := run true isAdmin _). assert (s0 = withBoxes [(n, Some [podKey p])] newView) as ->.
  { unfold s0, run. cbn. unfold listed. cbn. by rewrite eqs_refl. }
  rewrite foldl_app, deletes by done. cbn. unfold listed. cbn. rewrite eqs_refl. cbn. rewrite eqs_refl. unfold marked. cbn.
  rewrite (bool_decide_true (podKey p ∈ [podKey p])) by (by apply list_elem_of_singleton). done.
Qed.

(** What is typed for a pod counts for a pod of its name in another namespace, whose
    dialog opens with its button enabled. *)
Theorem typed_for_namesake isAdmin a b :
  name a = name b → needsName b = true →
  let s := run true isAdmin [RightClicks a; MenuDeletes; Types (name a); Cancels; RightClicks b; MenuDeletes] in
  deleteTargetPod s = Some b ∧ confirmEnabled s = true.
Proof.
  intros Hab Hn. cbv zeta. unfold run. cbn [foldl step]. assert (∀ k, bool_decide (k ∈ @nil string) = false) as Hk by (intros k; by apply bool_decide_false, not_elem_of_nil).
  unfold marked, uncovered. cbn. rewrite Hk. cbn. rewrite Hk. cbn. unfold confirmEnabled, typed. cbn. by rewrite Hab, !eqs_refl, andb_false_r.
Qed.

(** ** The container *)

Lemma join_single sep s : join sep [s] = s.
Proof. done. Qed.

(** The name of a Deployment's pod without what its ReplicaSet and the pod add. *)
Lemma withoutHash_spec d h x : between 5 10 h = true → between 5 5 x = true → withoutHash (d +:+ String "-" (h +:+ String "-" x)) = d.
Proof.
  intros Hh Hx. assert (∀ a b y, between a b y = true → free_of "-" y) as Hf.
  { intros a b y [[H _]%andb_true_iff _]%andb_true_iff. by apply (sall_free alnum). }
  unfold withoutHash. rewrite !split_app_any, (split_free "-" h), (split_free "-" x) by eauto. rewrite !rev_app_distr. cbn [rev app].
  destruct (rev (split "-" d)) as [|p l] eqn:E; [exfalso; apply (f_equal (@rev string)) in E; rewrite rev_involutive in E; by apply (split_ne "-" d)|].
  rewrite Hh, Hx. change (join "-" (rev (p :: l)) = d). rewrite <-E, rev_involutive. apply (join_split "-").
Qed.

(** A pod opens on one of its containers: of a Deployment's pod the one of the
    Deployment's name, else one that is not a sidecar if there is one. *)
Theorem main_container pod cs :
  cs ≠ [] →
  pickMainContainer pod cs ∈ cs ∧
  (pickMainContainer pod cs = withoutIndex (withoutHash pod) ∨ isSidecarName (pickMainContainer pod cs) = false ∨ Forall (λ c, isSidecarName c = true) cs) ∧
  ∀ d h x, pod = d +:+ String "-" (h +:+ String "-" x) → between 5 10 h = true → between 5 5 x = true → withoutIndex d = d → d ∈ cs → pickMainContainer pod cs = d.
Proof.
  intros Hne. split_and!.
  - unfold pickMainContainer. destruct cs as [|c cs]; [done|]. destruct (find _ _) eqn:E; [by apply find_Some in E as [? _]|].
    destruct (find (λ c, negb (isSidecarName c)) (c :: cs)) eqn:E2; [by apply find_Some in E2 as [? _]|left].
  - unfold pickMainContainer. destruct cs as [|c cs]; [done|]. destruct (find _ _) eqn:E; [apply find_Some in E as [_ H%eqs_true]; by left|]. right.
    destruct (find (λ c, negb (isSidecarName c)) (c :: cs)) eqn:E2; [apply find_Some in E2 as [_ H]; left; by apply negb_true_iff|right].
    apply find_None in E2. eapply Forall_impl; [exact E2|]. intros y H. by apply negb_false_iff.
  - intros d h x -> Hh Hx Hd Hin. unfold pickMainContainer. rewrite withoutHash_spec, Hd by done. destruct cs as [|c cs]; [done|].
    destruct (find (λ c, eqs c d) (c :: cs)) eqn:E; [by apply find_Some in E as [_ ?%eqs_true]|]. apply find_None in E.
    rewrite Forall_forall in E. specialize (E d Hin). by rewrite eqs_refl in E.
Qed.

(** ** Concrete pods *)

Definition samplePod (ns n : string) : Pod := {| namespace := ns; name := n; labels := VObj [] |}.

Lemma delete_as_confirmed_witness :
  let es := [RightClicks (samplePod "kube-system" "dns-0"); MenuDeletes; Forces true; Types "dns-0"; Confirms] in
  requests (run true false es) = [{| target := samplePod "kube-system" "dns-0"; force := true; asSelected := None |}] ∧
  ∃ es1 es2, es = (es1 ++ Confirms :: es2)%list ∧ asConfirmed {| target := samplePod "kube-system" "dns-0"; force := true; asSelected := None |} (run true false es1).
Proof.
  split; [by vm_compute|]. apply (delete_as_confirmed true false [RightClicks (samplePod "kube-system" "dns-0"); MenuDeletes; Forces true; Types "dns-0"; Confirms]).
  apply list_elem_of_In. left. by vm_compute.
Defined.

Lemma dialog_of_its_request_witness :
  let s := run true false [RightClicks (samplePod "shop" "web-0"); MenuDeletes; Confirms; RightClicks (samplePod "shop" "api-0"); Cancels] in
  deleteTargetPod s = Some (samplePod "shop" "web-0") ∧ oneDialog s.
Proof.
  split; [by vm_compute|]. apply (dialog_of_its_request true false).
  intros es1 es2 E. repeat (destruct es1 as [|e es1]; [done|]; injection E as <- E). by destruct es1.
Defined.

Lemma mark_until_gone_witness :
  let s := run true false ([BoxShown "n1"; Listed "n1" ["shop/web-0"; "shop/api-0"]] ++ [RightClicks (samplePod "shop" "web-0"); MenuDeletes; Confirms]) in
  "shop/web-0" ∈ deletingPods s ∧ deletingPods (step true false s (Listed "n1" ["shop/api-0"])) = [] ∧
  ((∃ i f r, Listed "n1" ["shop/api-0"] = Answers i (Some f) ∧ requests s !! i = Some r ∧ podKey (target r) = "shop/web-0") ∨
   (∃ n keys old, Listed "n1" ["shop/api-0"] = Listed n keys ∧ OrderedMap.assoc n (boxes s) = Some (Some old) ∧ "shop/web-0" ∈ old ∧ "shop/web-0" ∉ keys)).
Proof.
  split; [by apply (bool_decide_unpack _); vm_compute|]. split; [by vm_compute|].
  apply (mark_until_gone true false); by apply (bool_decide_unpack _); vm_compute.
Defined.

Lemma escape_mixes_dialogs_witness :
  let s := run true false [RightClicks (samplePod "shop" "web-0"); MenuDeletes; Confirms; Escapes; RightClicks (samplePod "shop" "db-0"); MenuDeletes] in
  deleteError (step true false s (Answers 0 (Some "pods web-0 is protected"))) = Some "pods web-0 is protected" ∧ deleteTargetPod s = Some (samplePod "shop" "db-0").
Proof.
  destruct (escape_mixes_dialogs false (samplePod "shop" "web-0") (samplePod "shop" "db-0") "pods web-0 is protected") as (H1 & _ & _ & _ & _ & H2); [done|done|].
  split; [exact H2|exact H1].
Defined.

Lemma mark_outlives_pod_witness :
  let s := run true false ([BoxShown "n1"; Listed "n1" ["shop/web-0"]] ++ [RightClicks (samplePod "shop" "web-0"); MenuDeletes; Confirms] ++
                           [Answers 0 None; BoxHidden "n1"; BoxShown "n1"; Listed "n1" ["shop/web-0"]]) in
  marked s (samplePod "shop" "web-0") = true.
Proof. apply (mark_outlives_pod false (samplePod "shop" "web-0") "n1"). by vm_compute. Defined.

Lemma typed_for_namesake_witness :
  let s := run true false [RightClicks (samplePod "kube-system" "dns-0"); MenuDeletes; Types "dns-0"; Cancels; RightClicks (samplePod "kube-public" "dns-0"); MenuDeletes] in
  confirmEnabled s = true.
Proof. apply (typed_for_namesake false (samplePod "kube-system" "dns-0") (samplePod "kube-public" "dns-0")); by vm_compute. Defined.

Lemma main_container_witness : pickMainContainer "shop-web-5d4f8c7b9-x7k2p" ["istio-proxy"; "logs"; "shop-web"] = "shop-web".
Proof.
  apply (proj2 (proj2 (main_container "shop-web-5d4f8c7b9-x7k2p" ["istio-proxy"; "logs"; "shop-web"] ltac:(done))) "shop-web" "5d4f8c7b9" "x7k2p"); [done..|].
  by apply (bool_decide_unpack _); vm_compute.
Defined.

(** The name of a DaemonSet's pod can look like a Deployment's, and an index is taken off
    a name that ends with a number. *)
Example base_names :
  ((λ n, withoutIndex (withoutHash n)) <$> ["web-5d4f8c7b9-x7k2p"; "redis-cluster-0"; "node-exporter-x7k2p"; "web-2-5d4f8c7b9-x7k2p"]) = ["web"; "redis-cluster"; "node"; "web"].
Proof. by vm_compute. Qed.
