(* ===== verification/Logs.v ===== *)
(** * The logs of a pod

    components/LogFilesView.tsx: the log files of a container, read or followed;
    pages/cluster-view/PodLogsTab.tsx: the output of a container as it is written;
    components/LogSearchView.tsx and utils/logSearch.ts: the search of the log store and
    what it marks in a line.

    React renders again after an event, and runs the effects of that render in their
    order: the one of the file list, the query of the content, the one that follows.
    An [EventSource] that was closed gives no event; one whose connection ends asks
    again by itself. *)

From S2P Require Import Prelude JsString ChatText.

#[local] Open Scope nat_scope.

(** ** The last lines of a text *)

Definition FOLLOW_KEEP_LINES : nat := 5000.

(** The loop of [keepLastLines], on the characters from the last ([kept] is
    [text.slice(i + 1)]). *)
Fixpoint keepFrom (most count : nat) (kept reversed : text) : text :=
  match reversed with
  | [] => kept
  | c :: r =>
      if (c =? newline)%N then if most <? S count then kept else keepFrom most (S count) (c :: kept) r
      else keepFrom most count (c :: kept) r
  end.
Definition keepLast (most : nat) (t : text) : text := keepFrom most 0 [] (rev t).
Definition keepLastLines (t : text) : text := keepLast FOLLOW_KEEP_LINES t.

(** ** The log files *)

Definition LINE_OPTIONS : list nat := [100; 500; 1000; 2000].
Definition lineOptions (maxLines : nat) : list nat :=
  match filterb (λ n, n <=? maxLines) LINE_OPTIONS with [] => [maxLines] | l => l end.

(** What a request reads: a file of a container, and how many of its lines. *)
Record Source := { of_container : string; of_path : string; of_lines : nat }.
#[global] Instance Source_dec : EqDecision Source.
Proof. solve_decision. Defined.
Inductive Asked := Read (s : Source) | Follow (s : Source).

Record Files := {
  container : string; listed : option (list string); path : string; lines : nat; follow : bool;
  streamText : text; streamNote : option string;
  stream : option Source;         (* the open EventSource *)
  watched : option Source;        (* what the stream's effect ran with *)
  content : option Source;        (* the key of the content's query, when it is enabled *)
  asked : list Asked              (* every request, from the first *)
}.

Definition withPath (p : string) (f : bool) (s : Files) : Files :=
  {| container := container s; listed := listed s; path := p; lines := lines s; follow := f; streamText := streamText s; streamNote := streamNote s;
     stream := stream s; watched := watched s; content := content s; asked := asked s |}.
Definition withStream (t : text) (n : option string) (e : option Source) (s : Files) : Files :=
  {| container := container s; listed := listed s; path := path s; lines := lines s; follow := follow s; streamText := t; streamNote := n;
     stream := e; watched := watched s; content := content s; asked := asked s |}.
Definition ended (n : string) (s : Files) : Files :=
  {| container := container s; listed := listed s; path := path s; lines := lines s; follow := false; streamText := streamText s; streamNote := Some n;
     stream := None; watched := watched s; content := content s; asked := asked s |}.

(** What is read, or followed, in a render. *)
Definition wanted (s : Files) : Source := {| of_container := container s; of_path := path s; of_lines := lines s |}.
Definition named (s : Files) : bool := nonempty (container s) && nonempty (path s).
Definition readKey (s : Files) : option Source := if named s && negb (follow s) then Some (wanted s) else None.
Definition followKey (s : Files) : option Source := if named s && follow s then Some (wanted s) else None.

(** The effect of the list keeps the file that is listed, or takes the first. *)
Definition chosen (before : option (list string)) (s : Files) : Files :=
  if bool_decide (before = listed s) then s else
  match default [] (listed s) with
  | [] => withPath "" false s
  | (first :: _) as files => if bool_decide (path s ∈ files) then s else withPath first (follow s) s
  end.

(** The query of the content asks when its key changes. *)
Definition queried (r : Files) (s : Files) : Files :=
  {| container := container s; listed := listed s; path := path s; lines := lines s; follow := follow s; streamText := streamText s; streamNote := streamNote s;
     stream := stream s; watched := watched s; content := readKey r;
     asked := asked s ++ match readKey r with Some k => if bool_decide (content s = Some k) then [] else [Read k] | None => [] end |}.

(** The effect that follows: it closes the stream and opens another. *)
Definition following (r : Files) (s : Files) : Files :=
  if bool_decide (watched s = followKey r) then s else
  {| container := container s; listed := listed s; path := path s; lines := lines s; follow := follow s;
     streamText := match followKey r with Some _ => [] | None => streamText s end;
     streamNote := match followKey r with Some _ => None | None => streamNote s end;
     stream := followKey r; watched := followKey r; content := content s;
     asked := asked s ++ match followKey r with Some k => [Follow k] | None => [] end |}.

(** The effects of the render [r], that ran last with the files [before], then those of
    the render they cause. *)
Definition effects (before : option (list string)) (r : Files) : Files := following r (queried r (chosen before r)).
Definition settle (before : option (list string)) (r : Files) : Files := let s := effects before r in effects (listed r) s.

Inductive FileEvent :=
  | ListAnswers (files : list string)
  | ContainerChanges (c : string) (cached : option (list string))
  | ChoosesPath (p : string) | ChoosesLines (n : nat) | TogglesFollow | Refreshes
  | Message (d : text) | Notice (d : text) | Ends (note : string).

Definition filesOf (s : Files) : list string := default [] (listed s).

(** The mark of a line of the view's own. *)
Definition said (d : text) : text := utf16 "» " ++ d ++ [newline].

(** What an event changes before the effects.  A stream's events end with the stream. *)
Definition changed (s : Files) (e : FileEvent) : Files :=
  match e with
  | ListAnswers files =>
      {| container := container s; listed := Some files; path := path s; lines := lines s; follow := follow s; streamText := streamText s; streamNote := streamNote s;
         stream := stream s; watched := watched s; content := content s; asked := asked s |}
  | ContainerChanges c cached =>
      {| container := c; listed := cached; path := path s; lines := lines s; follow := follow s; streamText := streamText s; streamNote := streamNote s;
         stream := stream s; watched := watched s; content := content s; asked := asked s |}
  | ChoosesPath p => if bool_decide (p ∈ filesOf s) then withPath p (follow s) s else s
  | ChoosesLines n =>
      {| container := container s; listed := listed s; path := path s; lines := n; follow := follow s; streamText := streamText s; streamNote := streamNote s;
         stream := stream s; watched := watched s; content := content s; asked := asked s |}
  | TogglesFollow => if nonempty (path s) then withStream (streamText s) None (stream s) (withPath (path s) (negb (follow s)) s) else s
  | Refreshes =>
      if nonempty (path s) && negb (follow s) then
        {| container := container s; listed := listed s; path := path s; lines := lines s; follow := follow s; streamText := streamText s; streamNote := None;
           stream := stream s; watched := watched s; content := content s; asked := asked s ++ match content s with Some k => [Read k] | None => [] end |}
      else s
  | Message d => match stream s with Some k => withStream (keepLastLines (streamText s ++ d ++ [newline])) (streamNote s) (Some k) s | None => s end
  | Notice d => match stream s with Some k => withStream (keepLastLines (streamText s ++ said d)) (streamNote s) (Some k) s | None => s end
  | Ends note => match stream s with Some _ => ended note s | None => s end
  end.

Definition fileStep (s : Files) (e : FileEvent) : Files := settle (listed s) (changed s e).

Definition newFiles (c : string) (maxLines : nat) : Files :=
  {| container := c; listed := None; path := ""; lines := hd 0 (lineOptions maxLines); follow := false; streamText := []; streamNote := None;
     stream := None; watched := None; content := None; asked := [] |}.
Definition fileRun (c : string) (maxLines : nat) (es : list FileEvent) : Files := foldl fileStep (newFiles c maxLines) es.

(** ** The output of a container *)

Inductive Ready := CONNECTING | OPEN | CLOSED.
#[global] Instance Ready_dec : EqDecision Ready.
Proof. solve_decision. Defined.

Record Tab := { selectedContainer : string; stdout : bool; logs : text; isStreamingLogs : bool; es : option Ready }.

(** The effect: it closes the stream before and opens one for the container shown. *)
Definition openLogs (c : string) (shown : bool) : Tab :=
  if nonempty c && shown then {| selectedContainer := c; stdout := shown; logs := []; isStreamingLogs := true; es := Some CONNECTING |}
  else {| selectedContainer := c; stdout := shown; logs := []; isStreamingLogs := false; es := None |}.

Inductive LogEvent :=
  | Selects (c : string) | ShowsSource (isStdout : bool)
  | Connects | Line (d : text) | Drops | Fails | SessionEnds (reason : text).

Definition streamError : text := utf16 "An error occurred while streaming logs.".

Definition withLogs (t : text) (b : bool) (r : Ready) (s : Tab) : Tab :=
  {| selectedContainer := selectedContainer s; stdout := stdout s; logs := t; isStreamingLogs := b; es := Some r |}.

Definition logStep (s : Tab) (e : LogEvent) : Tab :=
  match e with
  | Selects c => if eqs c (selectedContainer s) then s else openLogs c (stdout s)
  | ShowsSource b => if Bool.eqb b (stdout s) then s else openLogs (selectedContainer s) b
  | Connects => match es s with Some CONNECTING => withLogs (logs s) false OPEN s | _ => s end
  | Line d => match es s with Some OPEN => withLogs (logs s ++ d ++ [newline]) (isStreamingLogs s) OPEN s | _ => s end
  | Drops => match es s with Some OPEN => withLogs (logs s) (isStreamingLogs s) CONNECTING s | _ => s end
  | Fails =>
      match es s with
      | Some CONNECTING | Some OPEN => withLogs (match logs s with [] => said streamError | l => l end) false CLOSED s
      | _ => s
      end
  | SessionEnds reason => match es s with Some OPEN => withLogs (logs s ++ said reason) false CLOSED s | _ => s end
  end.

(** ** The search of the log store *)

Record Submitted := { q : string; regex : bool; ignoreCase : bool; start : Z; end_ : Z; logql : option string }.
Record Response := { r_lines : list text; r_truncated : bool; r_oldest : option Z; r_bytes : Z; effectiveQuery : option string }.

Record Search := {
  submitted : option Submitted; found : list text; truncated : bool; oldest : option Z; bytes : Z; busy : bool; error : option string; effective : option string;
  seq : nat; running : list (nat * Submitted * option Z)
}.

Definition newSearch : Search :=
  {| submitted := None; found := []; truncated := false; oldest := None; bytes := 0; busy := false; error := None; effective := None; seq := 0; running := [] |}.

(** [run(s, older)] up to its [await]. *)
Definition runSearch (sub : Submitted) (older : option Z) (s : Search) : Search :=
  {| submitted := submitted s; found := found s; truncated := truncated s; oldest := oldest s; bytes := bytes s; busy := true; error := None; effective := effective s;
     seq := S (seq s); running := running s ++ [(S (seq s), sub, older)] |}.

Definition search (sub : Submitted) (s : Search) : Search :=
  runSearch sub None
    {| submitted := Some sub; found := found s; truncated := truncated s; oldest := oldest s; bytes := bytes s; busy := busy s; error := error s;
       effective := effective s; seq := seq s; running := running s |}.

(** The button of older lines: shown, and enabled. *)
Definition olderShown (s : Search) : bool :=
  truncated s && bool_decide (error s = None) && bool_decide (is_Some (submitted s)) && bool_decide (is_Some (oldest s)) && negb (busy s).

Definition answeredWith (mine : nat) (older : option Z) (res : Response) (s : Search) : Search :=
  if bool_decide (mine = seq s) then
    {| submitted := submitted s; found := match older with Some _ => found s ++ r_lines res | None => r_lines res end; truncated := r_truncated res; oldest := r_oldest res;
       bytes := (match older with Some _ => bytes s + r_bytes res | None => r_bytes res end)%Z; busy := false; error := error s; effective := effectiveQuery res;
       seq := seq s; running := running s |}
  else s.
Definition failedWith (mine : nat) (e : string) (s : Search) : Search :=
  if bool_decide (mine = seq s) then
    {| submitted := submitted s; found := found s; truncated := truncated s; oldest := oldest s; bytes := bytes s; busy := false; error := Some e; effective := effective s;
       seq := seq s; running := running s |}
  else s.
Definition leaves (i : nat) (s : Search) : Search :=
  {| submitted := submitted s; found := found s; truncated := truncated s; oldest := oldest s; bytes := bytes s; busy := busy s; error := error s; effective := effective s;
     seq := seq s; running := delete i (running s) |}.

Inductive SearchEvent := Searches (sub : Submitted) | LoadsOlder | Answers (i : nat) (res : Response) | Refused (i : nat) (e : string).

Definition searchStep (s : Search) (e : SearchEvent) : Search :=
  match e with
  | Searches sub => search sub s
  | LoadsOlder => match submitted s, oldest s with Some sub, Some o => if olderShown s then runSearch sub (Some o) s else s | _, _ => s end
  | Answers i res => match running s !! i with Some (mine, _, older) => answeredWith mine older res (leaves i s) | None => s end
  | Refused i e => match running s !! i with Some (mine, _, _) => failedWith mine e (leaves i s) | None => s end
  end.
Definition searchRun (es : list SearchEvent) : Search := foldl searchStep newSearch es.

(** ** Properties: the last lines *)

Definition breaks (t : text) : nat := length (filterb (λ c, c =? newline)%N t).

Lemma breaks_app a b : breaks (a ++ b) = breaks a + breaks b.
Proof. unfold breaks, filterb. by rewrite List.filter_app, length_app. Qed.

Lemma breaks_cons c t : breaks (c :: t) = (if (c =? newline)%N then 1 else 0) + breaks t.
Proof. unfold breaks, filterb. cbn. by destruct (c =? newline)%N. Qed.

Lemma breaks_rev t : breaks (rev t) = breaks t.
Proof. induction t as [|c t IH]; [done|]. cbn [rev]. rewrite breaks_app, !breaks_cons, IH. cbn. lia. Qed.

Lemma keepFrom_cases most count kept r :
  count ≤ most →
  (count + breaks r ≤ most ∧ keepFrom most count kept r = rev r ++ kept) ∨
  ∃ r1 r2, r = r1 ++ newline :: r2 ∧ count + breaks r1 = most ∧ keepFrom most count kept r = rev r1 ++ kept.
Proof.
  revert count kept. induction r as [|c r IH]; intros count kept H; [left; cbn; split; [unfold breaks; cbn; lia|done]|].
  cbn [keepFrom]. rewrite breaks_cons. destruct (c =? newline)%N eqn:Ec.
  - apply N.eqb_eq in Ec as ->. destruct (most <? S count) eqn:E; [apply Nat.ltb_lt in E|apply Nat.ltb_ge in E].
    + right. exists [], r. split_and!; [done|unfold breaks; cbn; lia|done].
    + destruct (IH (S count) (newline :: kept) E) as [[H1 H2]|(r1 & r2 & -> & H1 & H2)]; [left|right].
      * split; [lia|]. rewrite H2. cbn [rev]. by rewrite <-app_assoc.
      * exists (newline :: r1), r2. rewrite breaks_cons, N.eqb_refl. split_and!; [done|lia|]. rewrite H2. cbn [rev]. by rewrite <-app_assoc.
  - destruct (IH count (c :: kept) H) as [[H1 H2]|(r1 & r2 & -> & H1 & H2)]; [left|right].
    + split; [lia|]. rewrite H2. cbn [rev]. by rewrite <-app_assoc.
    + exists (c :: r1), r2. rewrite breaks_cons, Ec. split_and!; [done|lia|]. rewrite H2. cbn [rev]. by rewrite <-app_assoc.
Qed.

(** The text, or what follows the line break before its last lines. *)
Lemma keepLast_cases most t :
  (breaks t ≤ most ∧ keepLast most t = t) ∨ ∃ p k, t = p ++ newline :: k ∧ breaks k = most ∧ keepLast most t = k.
Proof.
  unfold keepLast. destruct (keepFrom_cases most 0 [] (rev t) ltac:(lia)) as [[H1 H2]|(r1 & r2 & E & H1 & H2)]; [left|right].
  - rewrite breaks_rev in H1. rewrite H2, rev_involutive, app_nil_r. by split.
  - exists (rev r2), (rev r1). rewrite breaks_rev, H2, app_nil_r. split_and!; [|lia|done].
    rewrite <-(rev_involutive t), E, rev_app_distr. cbn [rev]. by rewrite <-app_assoc.
Qed.

Lemma keepFrom_app most count kept a b :
  count ≤ most →
  keepFrom most count kept (a ++ b) =
  if count + breaks a <=? most then keepFrom most (count + breaks a) (rev a ++ kept) b else keepFrom most count kept a.
Proof.
  revert count kept. induction a as [|c a IH]; intros count kept H.
  - cbn [app rev]. assert (breaks [] = 0) as -> by done. rewrite Nat.add_0_r. by destruct (Nat.leb_spec count most); [|lia].
  - cbn [app keepFrom rev]. rewrite breaks_cons, <-app_assoc. destruct (c =? newline)%N eqn:Ec.
    + destruct (most <? S count) eqn:E; [apply Nat.ltb_lt in E|apply Nat.ltb_ge in E].
      * by destruct (Nat.leb_spec (count + (1 + breaks a)) most); [lia|].
      * rewrite IH by done. by replace (count + (1 + breaks a)) with (S count + breaks a) by lia.
    + by rewrite IH.
Qed.

Lemma keepFrom_short most count kept r : count + breaks r ≤ most → keepFrom most count kept r = rev r ++ kept.
Proof.
  intros H. destruct (keepFrom_cases most count kept r ltac:(lia)) as [[_ E]|(r1 & r2 & -> & H1 & _)]; [done|]. rewrite breaks_app, breaks_cons, N.eqb_refl in H. lia.
Qed.

(** Keeping the last lines as they come keeps the last lines of all. *)
Lemma keepLast_app most a b : keepLast most (keepLast most a ++ b) = keepLast most (a ++ b).
Proof.
  destruct (keepLast_cases most a) as [[_ ->]|(p & k & -> & Hk & ->)]; [done|]. unfold keepLast. rewrite <-app_assoc, !rev_app_distr. cbn [app rev].
  rewrite <-?app_assoc, !keepFrom_app by lia. cbn [app]. rewrite !breaks_rev, Nat.add_0_l.
  destruct (Nat.leb_spec (breaks b) most); [|done]. rewrite keepFrom_app, breaks_rev, Hk by done.
  destruct (Nat.leb_spec (breaks b + most) most); [|done]. rewrite keepFrom_short by (rewrite breaks_rev; lia). cbn [keepFrom].
  rewrite N.eqb_refl. by destruct (Nat.ltb_spec most (S (breaks b + most))); [|lia].
Qed.

Lemma keepLast_bound most t : breaks (keepLast most t) ≤ most ∧ ∃ p, t = p ++ keepLast most t.
Proof.
  destruct (keepLast_cases most t) as [[H ->]|(p & k & -> & <- & ->)]; [split; [done|by exists []]|]. split; [done|]. exists (p ++ [newline]). by rewrite <-app_assoc.
Qed.

(** ** Properties: the log files *)

Definition Settled (s : Files) : Prop := content s = readKey s ∧ watched s = followKey s ∧ stream s = followKey s.

Lemma effects_again s : Settled s → effects (listed s) s = s.
Proof.
  intros (Hc & Hw & _). unfold effects, chosen. rewrite bool_decide_true by done. unfold following, queried. cbn [watched]. rewrite bool_decide_true by done.
  rewrite <-Hc. clear. destruct s as [c ls p n f t nt st w k a]. cbn. f_equal. destruct k; [|by rewrite app_nil_r]. by rewrite bool_decide_true, app_nil_r.
Qed.

(** What one render's effects leave: the keys of that render. *)
Lemma effects_keys before r :
  stream r = watched r ∨ stream r = None ∧ followKey r = None →
  let s := effects before r in content s = readKey r ∧ watched s = followKey r ∧ stream s = followKey r.
Proof.
  intros H. unfold effects, following. set (u := queried r (chosen before r)).
  assert (stream u = stream r ∧ watched u = watched r ∧ content u = readKey r) as (H1 & H2 & H3).
  { unfold u, queried. cbn. split_and!; [..|done]; unfold chosen; by repeat case_match. }
  clearbody u. case_bool_decide as E; cbn; [|done]. rewrite H1, H3, E. split_and!; [done..|]. destruct H as [->|[-> ->]]; congruence.
Qed.

Lemma effects_state before r :
  let s := effects before r in
  container s = container r ∧ listed s = listed r ∧ path s = path (chosen before r) ∧ lines s = lines r ∧ follow s = follow (chosen before r) ∧
  asked s = asked r ++ match readKey r with Some k => if bool_decide (content r = Some k) then [] else [Read k] | None => [] end ++
            match followKey r with Some k => if bool_decide (watched r = Some k) then [] else [Follow k] | None => [] end.
Proof.
  assert (let u := chosen before r in container u = container r ∧ listed u = listed r ∧ lines u = lines r ∧ content u = content r ∧ asked u = asked r ∧ watched u = watched r) as (H1 & H2 & H3 & H4 & H5 & H6)
    by (unfold chosen; by repeat case_match).
  unfold effects, following. cbn [watched queried]. rewrite H6. unfold queried. case_bool_decide as E; cbn; rewrite H1, H2, H3, H4, H5; split_and!; try done.
  - rewrite <-E. destruct (watched r); [rewrite bool_decide_true by done|]; by rewrite !app_nil_r.
  - rewrite <-app_assoc. do 2 f_equal. destruct (followKey r); [|done]. by rewrite bool_decide_false.
Qed.

Lemma settle_settled before r : stream r = watched r ∨ stream r = None ∧ followKey r = None → Settled (settle before r).
Proof.
  intros H. unfold settle. cbv zeta. destruct (effects_keys before r H) as (_ & Hw & Hs). destruct (effects_state before r) as (_ & Hl & _).
  set (s := effects before r) in *. destruct (effects_keys (listed r) s ltac:(left; congruence)) as (H1 & H2 & H3).
  destruct (effects_state (listed r) s) as (G1 & G2 & G3 & G4 & G5 & _). set (u := effects (listed r) s) in *.
  assert (chosen (listed r) s = s) as E by (unfold chosen; by rewrite bool_decide_true). rewrite E in *.
  assert (readKey u = readKey s ∧ followKey u = followKey s) as [E1 E2] by (unfold readKey, followKey, named, wanted; by rewrite G1, G3, G4, G5).
  unfold Settled. by rewrite E1, E2.
Qed.

Lemma changed_stream s e : Settled s → stream (changed s e) = watched (changed s e) ∨ stream (changed s e) = None ∧ followKey (changed s e) = None.
Proof.
  intros (_ & Hw & Hs). destruct e; cbn [changed]; repeat case_match; cbn; try (left; congruence). right. split; [done|]. unfold followKey. cbn. by rewrite andb_false_r.
Qed.

Lemma settled_run c m es : Settled (fileRun c m es).
Proof.
  induction es as [|e es IH] using rev_ind.
  - unfold Settled, readKey, followKey, named. cbn. by rewrite andb_false_r.
  - unfold fileRun. rewrite foldl_app. cbn [foldl]. apply settle_settled, changed_stream, IH.
Qed.

(** In every state of the view the stream that is open is the one of the file shown
    when it is followed, and the file that is read is the one shown when it is not. *)
Theorem one_stream c m es :
  let s := fileRun c m es in
  stream s = (if follow s && named s then Some (wanted s) else None) ∧ content s = (if negb (follow s) && named s then Some (wanted s) else None).
Proof. destruct (settled_run c m es) as (Hc & _ & Hs). cbv zeta. rewrite Hs, Hc. unfold readKey, followKey. by rewrite !(andb_comm (named _)). Qed.

(** What the stream said since the last one was opened. *)
Definition spoken (e : FileEvent) : text := match e with Message d => d ++ [newline] | Notice d => said d | _ => [] end.
Definition follows (s : Files) : nat := length (filterb (λ a, match a with Follow _ => true | Read _ => false end) (asked s)).
Definition hears (s : Files) (h : text) (e : FileEvent) : text :=
  if follows s <? follows (fileStep s e) then [] else match stream s with Some _ => h ++ spoken e | None => h end.
Definition heard (c : string) (m : nat) (es : list FileEvent) : text :=
  (foldl (λ sh e, (fileStep sh.1 e, hears sh.1 sh.2 e)) (newFiles c m, []) es).2.

Lemma heard_snoc c m es e : heard c m (es ++ [e]) = hears (fileRun c m es) (heard c m es) e.
Proof.
  unfold heard, fileRun. rewrite foldl_app. cbn [foldl snd]. f_equal. generalize (newFiles c m) as s, (@nil N) as h.
  induction es as [|e' es IH]; intros s h; [done|]. cbn [foldl]. apply IH.
Qed.

Lemma filter_count {A} (P : A → bool) l k : length (filterb P (l ++ k)) = length (filterb P l) + length (filterb P k).
Proof. unfold filterb. by rewrite List.filter_app, length_app. Qed.

Lemma effects_text before r :
  let s := effects before r in
  follows s = follows r ∧ streamText s = streamText r ∨ follows s = S (follows r) ∧ streamText s = [].
Proof.
  assert (let u := chosen before r in streamText u = streamText r ∧ asked u = asked r ∧ content u = content r) as (H1 & H2 & H3) by (unfold chosen; by repeat case_match).
  unfold effects, following. set (u := queried r (chosen before r)).
  assert (streamText u = streamText r ∧ follows u = follows r) as [G1 G2].
  { unfold u, queried, follows. cbn. rewrite H1, H2, H3, filter_count. split; [done|]. repeat case_match; cbn; lia. }
  clearbody u. case_bool_decide; [by left|]. unfold follows in *. cbn [streamText asked]. rewrite filter_count, G1, G2. destruct (followKey r); cbn; [right|left]; split; (lia || done).
Qed.

Lemma changed_text s e :
  follows (changed s e) = follows s ∧
  streamText (changed s e) = match stream s with Some _ => match e with Message _ | Notice _ => keepLastLines (streamText s ++ spoken e) | _ => streamText s end | None => streamText s end.
Proof.
  unfold follows. destruct e; cbn [changed]; repeat case_match; cbn [asked streamText withPath withStream ended]; rewrite ?filter_count; cbn; (split; [lia|done]).
Qed.

(** C37. What is shown of a file that is followed is the end of what its stream said since
    it was opened, in order: all of it while that has at most five thousand line
    breaks, and from then on what follows the line break that leaves exactly five
    thousand, so no line is cut and none is lost sooner. *)
Theorem follow_shows_last c m es :
  let shown := streamText (fileRun c m es) in
  (breaks (heard c m es) ≤ 5000 ∧ shown = heard c m es) ∨
  (∃ p, heard c m es = p ++ newline :: shown ∧ breaks shown = 5000).
Proof.
  cbv zeta. assert (streamText (fileRun c m es) = keepLastLines (heard c m es)) as ->.
  2: { unfold keepLastLines. change 5000 with FOLLOW_KEEP_LINES. destruct (keepLast_cases FOLLOW_KEEP_LINES (heard c m es)) as [[H ->]|(p & k & H1 & H2 & ->)];
         [left; by split|right; by exists p]. }
  induction es as [|e es IH] using rev_ind; [done|]. rewrite heard_snoc. unfold fileRun. rewrite foldl_app. cbn [foldl]. fold (fileRun c m es).
  set (s := fileRun c m es) in *. set (h := heard c m es) in *. unfold hears. destruct (changed_text s e) as [F0 T0].
  assert (follows (fileStep s e) = follows s ∧ streamText (fileStep s e) = streamText (changed s e) ∨ follows s < follows (fileStep s e) ∧ streamText (fileStep s e) = []) as [[F T]|[F T]].
  { unfold fileStep, settle. cbv zeta. destruct (effects_text (listed s) (changed s e)) as [[F1 T1]|[F1 T1]];
      destruct (effects_text (listed (changed s e)) (effects (listed s) (changed s e))) as [[F2 T2]|[F2 T2]]; [left|right..]; (split; [lia|congruence]). }
  - rewrite F, Nat.ltb_irrefl, T, T0, IH. destruct (stream s); [|done]. destruct e; cbn [spoken]; rewrite ?app_nil_r; try done; apply keepLast_app.
  - by apply Nat.ltb_lt in F as ->.
Qed.

(** ** Properties: what is asked *)

Definition sourceOf (a : Asked) : Source := match a with Read k | Follow k => k end.

Lemma path_listed c m es : let s := fileRun c m es in path s = "" ∨ path s ∈ filesOf s.
Proof.
  induction es as [|e es IH] using rev_ind; [by left|]. unfold fileRun. rewrite foldl_app. cbn [foldl]. fold (fileRun c m es).
  set (s := fileRun c m es) in *. clearbody s. cbv zeta in IH |- *. unfold fileStep, settle. cbv zeta.
  destruct (effects_state (listed s) (changed s e)) as (_ & Hl & Hp & _). set (s1 := effects (listed s) (changed s e)) in *. clearbody s1.
  destruct (effects_state (listed (changed s e)) s1) as (_ & Gl & Gp & _). unfold filesOf. rewrite Gp, Gl. rewrite <-Hl. clear Gp Gl.
  assert (chosen (listed s1) s1 = s1) as -> by (unfold chosen; by rewrite bool_decide_true). rewrite Hp, Hl. clear Hp Hl s1.
  unfold chosen. case_bool_decide as E.
  - unfold filesOf in IH. rewrite E in IH. destruct e; cbn [changed] in *; try exact IH.
    + destruct (bool_decide (p ∈ filesOf s)) eqn:Ep; [|exact IH]. right. by apply bool_decide_eq_true in Ep.
    + by destruct (nonempty (path s)).
    + by destruct (nonempty (path s) && negb (follow s)).
    + by destruct (stream s).
    + by destruct (stream s).
    + by destruct (stream s).
  - destruct (default [] (listed (changed s e))) as [|f l]; cbn; [by left|].  case_bool_decide; [by right|]. right. left.
Qed.

(** What the effects of a render ask. *)
Definition asks (r : Files) : list Asked :=
  match readKey r with Some k => if bool_decide (content r = Some k) then [] else [Read k] | None => [] end ++
  match followKey r with Some k => if bool_decide (watched r = Some k) then [] else [Follow k] | None => [] end.

Lemma asks_spec r : length (asks r) ≤ 1 ∧ ∀ a, a ∈ asks r → sourceOf a = wanted r ∧ path r ≠ "".
Proof.
  unfold asks, readKey, followKey, named. destruct (nonempty (container r)), (nonempty (path r)) eqn:Ep, (follow r); cbn;
    try (split; [lia|by intros a ?%elem_of_nil]); apply nonempty_true in Ep; case_bool_decide; cbn; (split; [lia|]); intros a Ha;
    [by apply elem_of_nil in Ha|by apply list_elem_of_singleton in Ha as ->|by apply elem_of_nil in Ha|by apply list_elem_of_singleton in Ha as ->].
Qed.

Lemma asks_none r : content r = readKey r → watched r = followKey r → asks r = [].
Proof. intros H1 H2. unfold asks. rewrite H1, H2. destruct (readKey r), (followKey r); by rewrite ?bool_decide_true. Qed.

Lemma same_keys r s : container s = container r → path s = path r → lines s = lines r → follow s = follow r → readKey s = readKey r ∧ followKey s = followKey r ∧ wanted s = wanted r.
Proof. intros H1 H2 H3 H4. unfold readKey, followKey, named, wanted. by rewrite H1, H2, H3, H4. Qed.

(** What an event makes the view ask: what its render does, then the one it causes. *)
Lemma step_asks s e : Settled s →
  asked (fileStep s e) = asked (changed s e) ++ asks (changed s e) ++ asks (effects (listed s) (changed s e)) ∧
  wanted (fileStep s e) = wanted (effects (listed s) (changed s e)) ∧ path (fileStep s e) = path (effects (listed s) (changed s e)).
Proof.
  intros Hs. unfold fileStep, settle. cbv zeta. destruct (effects_state (listed s) (changed s e)) as (_ & Hl & _ & _ & _ & Ha).
  set (s1 := effects (listed s) (changed s e)) in *. destruct (effects_state (listed (changed s e)) s1) as (G1 & _ & G3 & G4 & _ & Ga).
  assert (chosen (listed (changed s e)) s1 = s1) as E by (unfold chosen; by rewrite bool_decide_true). rewrite E in G3.
  unfold asks in *. rewrite Ga, Ha, <-app_assoc. split; [done|]. split; [|done]. unfold wanted. by rewrite G1, G3, G4.
Qed.

Lemma asked_changed s e :
  asked (changed s e) = asked s ∨
  asked (changed s e) = asked s ++ match content s with Some k => [Read k] | None => [] end ∧ asks (changed s e) = asks s ∧
  wanted (changed s e) = wanted s ∧ path (changed s e) = path s.
Proof. destruct e; cbn [changed]; try (left; by repeat case_match). destruct (nonempty (path s) && negb (follow s)); [right|by left]. by split_and!. Qed.

Lemma readKey_wanted s k : readKey s = Some k → k = wanted s ∧ path s ≠ "".
Proof. unfold readKey, named. destruct (nonempty (container s)), (nonempty (path s)) eqn:E, (follow s); cbn; try done. intros [= <-]. split; [done|]. by apply nonempty_true. Qed.

(** Beside a change of container, an event asks for one thing at most: the file shown
    after it, which is listed for the container. *)
Theorem reads_listed_files c m es e :
  (∀ c' cached, e ≠ ContainerChanges c' cached) →
  let s := fileRun c m es in
  ∃ new, asked (fileStep s e) = asked s ++ new ∧ length new ≤ 1 ∧ ∀ a, a ∈ new → sourceOf a = wanted (fileStep s e) ∧ path (fileStep s e) ∈ filesOf (fileStep s e).
Proof.
  intros Hne s. pose proof (settled_run c m es) as S. fold s in S. destruct (step_asks s e S) as (Ha & Hw & Hp).
  assert (path (fileStep s e) = "" ∨ path (fileStep s e) ∈ filesOf (fileStep s e)) as Hlisted.
  { pose proof (path_listed c m (es ++ [e])) as H. unfold fileRun in H. rewrite foldl_app in H. exact H. }
  destruct (effects_state (listed s) (changed s e)) as (E1 & E2 & E3 & E4 & E5 & _).
  destruct (effects_keys (listed s) (changed s e) (changed_stream s e S)) as (K1 & K2 & _). set (s1 := effects (listed s) (changed s e)) in *. clearbody s1.
  assert (∀ k, k = wanted s1 ∧ path s1 ≠ "" → k = wanted (fileStep s e) ∧ path (fileStep s e) ∈ filesOf (fileStep s e)) as H1.
  { intros k [-> H2]. rewrite Hw. split; [done|]. destruct Hlisted as [H|H]; [|done]. congruence. }
  destruct S as (Hc & Hwt & _). pose proof (asks_none s Hc Hwt) as H0.
  assert (asks (changed s e) = [] ∧ asked (changed s e) = asked s ∨ listed (changed s e) = listed s) as [[Hn Hs]|Hl].
  { destruct e; try (by right; cbn [changed]; repeat case_match); [by left|by destruct (Hne c0 cached)]. }
  { exists (asks s1). rewrite Ha, Hn, Hs. split; [done|]. split; [apply asks_spec|]. intros a Hin. by apply H1, asks_spec. }
  assert (chosen (listed s) (changed s e) = changed s e) as Ech by (unfold chosen; by rewrite bool_decide_true). rewrite Ech in *.
  destruct (same_keys (changed s e) s1 E1 E3 E4 E5) as (R1 & R2 & R3). rewrite (asks_none s1), app_nil_r in Ha by congruence.
  destruct (asked_changed s e) as [Hs|(Hs & Hn & G1 & G2)].
  - exists (asks (changed s e)). rewrite Ha, Hs. split; [done|]. split; [apply asks_spec|]. intros a Hin. apply H1. rewrite R3, E3. by apply asks_spec.
  - exists (match content s with Some k => [Read k] | None => [] end). rewrite Ha, Hs, Hn, H0, app_nil_r. split; [done|].
    destruct (content s) as [k|]; (split; [cbn; lia|]); intros a Hin; [|by apply elem_of_nil in Hin]. apply list_elem_of_singleton in Hin as ->. cbn [sourceOf].
    apply H1. rewrite R3, E3, G1, G2. by apply readKey_wanted.
Qed.

(** A change of container reads, or follows, the file shown before in the new
    container, whose files are not known yet. *)
Theorem container_reads_old_path c m es c' :
  let s := fileRun c m es in
  named s = true → c' ≠ "" → c' ≠ container s → is_Some (listed s) →
  let k := {| of_container := c'; of_path := path s; of_lines := lines s |} in
  asked (fileStep s (ContainerChanges c' None)) = asked s ++ [if follow s then Follow k else Read k] ∧ path (fileStep s (ContainerChanges c' None)) = "".
Proof.
  intros s Hn Hc' Hne Hl k. pose proof (settled_run c m es) as S. fold s in S. destruct (step_asks s (ContainerChanges c' None) S) as (Ha & _ & Hp).
  set (r := changed s (ContainerChanges c' None)) in *. destruct (effects_state (listed s) r) as (E1 & E2 & E3 & E4 & E5 & _).
  destruct (effects_keys (listed s) r (changed_stream s _ S)) as (K1 & K2 & _). set (s1 := effects (listed s) r) in *. clearbody s1.
  assert (chosen (listed s) r = withPath "" false r) as Ech.
  { unfold chosen. rewrite bool_decide_false; [done|]. destruct (listed s); [done|]. by destruct Hl. }
  rewrite Ech in *. cbn in E3, E5. split; [|by rewrite Hp].
  assert (asks s1 = []) as Hn1. { unfold asks, readKey, followKey, named. rewrite E3. cbn. by rewrite !andb_false_r. }
  rewrite Ha, Hn1, app_nil_r. change (asked r) with (asked s). f_equal. destruct S as (Hc & Hw & _).
  assert (path s ≠ "") as Hpath by (unfold named in Hn; apply andb_true_iff in Hn as [_ H]; by apply nonempty_true).
  assert (named r = true) as Hnr by (unfold named, r; cbn; apply andb_true_iff; split; by apply nonempty_true).
  unfold asks. change (content r) with (content s). change (watched r) with (watched s). rewrite Hc, Hw. unfold readKey, followKey. rewrite Hn, Hnr.
  change (follow r) with (follow s). change (wanted r) with k.
  assert (Some (wanted s) ≠ Some k) as Hd by (intros [= E]; unfold wanted in E; congruence).
  destruct (follow s); cbn; by rewrite bool_decide_false.
Qed.

(** ** Properties: the output of a container *)

Definition lineText (d : text) : text := d ++ [newline].

(** What was written since the container is shown. *)
Definition logHears (s : Tab) (h : list text) (e : LogEvent) : list text :=
  match e with
  | Selects c => if eqs c (selectedContainer s) then h else []
  | ShowsSource b => if Bool.eqb b (stdout s) then h else []
  | Line d => match es s with Some OPEN => h ++ [lineText d] | _ => h end
  | Fails => match es s, logs s with Some CONNECTING, [] | Some OPEN, [] => h ++ [said streamError] | _, _ => h end
  | SessionEnds reason => match es s with Some OPEN => h ++ [said reason] | _ => h end
  | _ => h
  end.

Definition logRun (c : string) (evs : list LogEvent) : Tab := foldl logStep (openLogs c true) evs.
Definition logHeard (c : string) (evs : list LogEvent) : list text :=
  (foldl (λ sh e, (logStep sh.1 e, logHears sh.1 sh.2 e)) (openLogs c true, []) evs).2.

Lemma logHeard_snoc c evs e : logHeard c (evs ++ [e]) = logHears (logRun c evs) (logHeard c evs) e.
Proof.
  unfold logHeard, logRun. rewrite foldl_app. cbn [foldl snd]. f_equal. generalize (openLogs c true) as s, (@nil text) as h.
  induction evs as [|e' evs IH]; intros s h; [done|]. cbn [foldl]. apply IH.
Qed.

(** The output on screen is what came since the container is shown, in order; a stream
    is open only for a container that is shown, and one that ended writes nothing more
    until another container or source is chosen. *)
Theorem output_of_container c evs :
  let s := logRun c evs in
  logs s = concat (logHeard c evs) ∧ (is_Some (es s) → selectedContainer s ≠ "" ∧ stdout s = true) ∧ (es s = Some CLOSED → isStreamingLogs s = false) ∧
  (es s = Some CLOSED ∨ es s = None → ∀ e, (∃ c', e = Selects c') ∨ (∃ b, e = ShowsSource b) ∨ logStep s e = s).
Proof.
  cbv zeta. split_and!.
  - induction evs as [|e evs IH] using rev_ind; [unfold logRun, logHeard, openLogs; cbn; by case_match|]. rewrite logHeard_snoc. unfold logRun. rewrite foldl_app. cbn [foldl].
    fold (logRun c evs). set (s := logRun c evs) in *. set (h := logHeard c evs) in *. clearbody s h.
    destruct e; cbn [logStep logHears]; unfold openLogs.
    + destruct (eqs c0 _); [done|]. by case_match.
    + destruct (Bool.eqb _ _); [done|]. by case_match.
    + by repeat case_match.
    + destruct (es s) as [[| |]|]; cbn; try done. rewrite concat_app, IH. cbn. by rewrite app_nil_r.
    + by repeat case_match.
    + generalize (said streamError) as err. intros err. destruct (es s) as [[| |]|]; cbn; try done; (destruct (logs s) as [|x l]; [rewrite concat_app, <-IH; cbn [concat]; by rewrite app_nil_r|done]).
    + destruct (es s) as [[| |]|]; cbn; try done. rewrite concat_app, IH. cbn. by rewrite app_nil_r.
  - induction evs as [|e evs IH] using rev_ind.
    { unfold logRun, openLogs. destruct (nonempty c && true) eqn:E; cbn; rewrite ?andb_true_r in E; [intros _; split; [by apply nonempty_true|done]|by intros []]. }
    unfold logRun. rewrite foldl_app. cbn [foldl]. fold (logRun c evs). set (s := logRun c evs) in *. clearbody s.
    assert (∀ c' b, is_Some (es (openLogs c' b)) → selectedContainer (openLogs c' b) ≠ "" ∧ stdout (openLogs c' b) = true) as Ho.
    { intros c' b. unfold openLogs. destruct (nonempty c') eqn:E, b; cbn; try (by intros []). intros _. split; [by apply nonempty_true|done]. }
    destruct e; cbn [logStep]; repeat case_match; try exact IH; try apply Ho; try (intros _; apply IH; by eexists); intros [? ?]; congruence.
  - induction evs as [|e evs IH] using rev_ind; [unfold logRun, openLogs; by destruct (nonempty c)|].
    unfold logRun. rewrite foldl_app. cbn [foldl]. fold (logRun c evs). set (s := logRun c evs) in *. clearbody s.
    destruct e; cbn [logStep]; unfold openLogs; repeat case_match; try exact IH; try done; intros H1; try (by apply IH); cbn in *; congruence.
  - intros H e. generalize dependent (logRun c evs). intros s H. destruct e; [left; by eexists|right; left; by eexists|..]; right; right; cbn [logStep]; destruct H as [-> | ->]; reflexivity.
Qed.

(** A connection that ends opens again by itself and the server sends its last lines
    once more: what it says again is written again under what is there.  So is the
    output of a container that ended, each time its stream comes to its end. *)
Theorem reconnect_repeats_lines c tails :
  c ≠ "" → tails ≠ [] →
  logs (logRun c (tails ≫= λ ls, Connects :: (Line <$> ls) ++ [Drops])) = concat (tails ≫= λ ls, lineText <$> ls).
Proof.
  intros Hc Hne. assert (openLogs c true = {| selectedContainer := c; stdout := true; logs := []; isStreamingLogs := true; es := Some CONNECTING |}) as E
    by (unfold openLogs; by apply nonempty_true in Hc as ->).
  unfold logRun. rewrite E. clear E. change (concat (tails ≫= λ ls, lineText <$> ls)) with ([] ++ concat (tails ≫= λ ls, lineText <$> ls)).
  generalize (@nil N) as t, true at 2 as b. clear Hne. induction tails as [|ls tails IH]; intros t b; [by rewrite app_nil_r|].
  rewrite !bind_cons, foldl_app. cbn [foldl logStep es withLogs logs selectedContainer stdout]. rewrite foldl_app.
  assert (∀ t, foldl logStep {| selectedContainer := c; stdout := true; logs := t; isStreamingLogs := false; es := Some OPEN |} (Line <$> ls) =
               {| selectedContainer := c; stdout := true; logs := t ++ concat (lineText <$> ls); isStreamingLogs := false; es := Some OPEN |}) as Hl.
  { clear. induction ls as [|d ls IH]; intros t; [cbn; by rewrite app_nil_r|]. cbn [fmap list_fmap foldl logStep es withLogs logs selectedContainer stdout isStreamingLogs concat].
    unfold withLogs. cbn. rewrite IH. unfold lineText. by rewrite <-!app_assoc. }
  unfold withLogs at 1. cbn [logs selectedContainer stdout isStreamingLogs es]. rewrite Hl. cbn [foldl logStep es withLogs logs selectedContainer stdout isStreamingLogs].
  unfold withLogs. cbn. rewrite IH. by rewrite concat_app, app_assoc.
Qed.

(** ** Properties: the search *)

Section search.
(** What the store answers the [n]th request. *)
Context (answer : nat → Submitted → option Z → Response).

(** Lines of a search: its first answer, then those of the requests for older lines,
    each from the oldest line of the answer before. *)
Inductive Shows (sub : Submitted) : list text → bool → option Z → Z → Prop :=
  | shows_first n : let r := answer n sub None in Shows sub (r_lines r) (r_truncated r) (r_oldest r) (r_bytes r)
  | shows_more n found o bytes :
      Shows sub found true (Some o) bytes → let r := answer n sub (Some o) in Shows sub (found ++ r_lines r) (r_truncated r) (r_oldest r) (bytes + r_bytes r)%Z.

(** The answers of a request are those of the store. *)
Definition fromStore (s : Search) (e : SearchEvent) : Prop :=
  match e with Answers i res => ∀ n sub older, running s !! i = Some (n, sub, older) → res = answer n sub older | _ => True end.
Fixpoint allFromStore (s : Search) (es : list SearchEvent) : Prop :=
  match es with [] => True | e :: es => fromStore s e ∧ allFromStore (searchStep s e) es end.

Definition shown (s : Search) : Prop := ∀ sub, submitted s = Some sub → Shows sub (found s) (truncated s) (oldest s) (bytes s).

(** The newest request, if it still runs: of the search submitted last, and for older
    lines only over lines of that search. *)
Definition newest (s : Search) : Prop :=
  (busy s = true → error s = None) ∧
  (∀ n sub older, (n, sub, older) ∈ running s → n ≤ seq s ∧
     (n = seq s → busy s = true ∧ submitted s = Some sub ∧ match older with Some o => oldest s = Some o ∧ truncated s = true ∧ shown s | None => True end)) ∧
  NoDup ((λ r, r.1.1) <$> running s).

Definition good (s : Search) : Prop := newest s ∧ (busy s = false → error s = None → shown s).

Lemma runSearch_newest sub older s :
  (∀ n sub older, (n, sub, older) ∈ running s → n ≤ seq s) → NoDup ((λ r, r.1.1) <$> running s) →
  submitted s = Some sub → match older with Some o => oldest s = Some o ∧ truncated s = true ∧ shown s | None => True end → newest (runSearch sub older s).
Proof.
  intros Hr Hn Hs Ho. unfold newest. cbn. split_and!; [done|..].
  - intros n sub' older' [H|H%list_elem_of_singleton]%elem_of_app.
    + pose proof (Hr n sub' older' H). split; [lia|]. intros ->. lia.
    + injection H as -> -> ->. split; [done|]. intros _. split_and!; [done..|]. by destruct older.
  - rewrite fmap_app. apply NoDup_app. split; [done|]. split; [|by apply NoDup_singleton]. intros n Hin. cbn. intros ->%list_elem_of_singleton.
    apply list_elem_of_fmap in Hin as ([[n sub'] older'] & E & H). cbn in E. subst. pose proof (Hr _ _ _ H). lia.
Qed.

(** A request that is answered is no longer among those that run. *)
Lemma leaves_newest i s n sub older :
  running s !! i = Some (n, sub, older) → newest s →
  (∀ m sub' older', (m, sub', older') ∈ delete i (running s) → (m, sub', older') ∈ running s ∧ m ≠ n) ∧ NoDup ((λ r, r.1.1) <$> delete i (running s)).
Proof.
  intros Hi (_ & _ & Hn). rewrite (delete_take_drop (running s) i). rewrite <-(take_drop_middle (running s) i _ Hi) in Hn. rewrite !fmap_app in Hn |- *. cbn [fmap list_fmap] in Hn.
  apply NoDup_app in Hn as (N1 & N2 & [N3 N4]%NoDup_cons). split; [|apply NoDup_app; split_and!; [done| |done]; intros x Hx Hx'; apply (N2 x Hx); by right].
  intros m sub' older' H. split.
  { rewrite <-(take_drop_middle (running s) i _ Hi). rewrite elem_of_app in H |- *. destruct H; [by left|right; by right]. }
  cbn in N2, N3. intros ->. apply elem_of_app in H as [H|H].
  - apply (list_elem_of_fmap_2 (λ r, r.1.1)) in H. apply (N2 _ H). left.
  - apply (list_elem_of_fmap_2 (λ r, r.1.1)) in H. done.
Qed.

Lemma searchStep_good s e : fromStore s e → good s → good (searchStep s e).
Proof.
  intros He [Hn Hs]. destruct Hn as (H1 & H2 & H3). assert (newest s) as Hn by done. assert (∀ n sub older, (n, sub, older) ∈ running s → n ≤ seq s) as H2' by (intros; by eapply H2).
  destruct e as [sub| |i res|i er]; cbn [searchStep].
  - split; [|done]. by apply runSearch_newest.
  - destruct (submitted s) as [sub|] eqn:Es; [|by split]. destruct (oldest s) as [o|] eqn:Eo; [|by split]. destruct (olderShown s) eqn:E; [|by split]. split; [|done].
    unfold olderShown in E. rewrite !andb_true_iff in E. destruct E as [[[[E1 E2] _] _] E3]. apply bool_decide_eq_true in E2. apply negb_true_iff in E3.
    apply runSearch_newest; [done..|]. split_and!; [done..|]. by apply Hs.
  - destruct (running s !! i) as [[[n sub] older]|] eqn:Ei; [|by split]. destruct (leaves_newest i s n sub older Ei Hn) as [L1 L2].
    specialize (He n sub older Ei). subst res. destruct (H2 n sub older (list_elem_of_lookup_2 _ _ _ Ei)) as [_ Hnew]. unfold answeredWith. cbn [leaves seq].
    case_bool_decide as E.
    + destruct (Hnew E) as (Hb & Hsub & Ho). split.
      * split_and!; [done| |done]. intros m sub' older' H. destruct (L1 _ _ _ H) as [G1 G2]. split; [by eapply H2'|]. cbn. intros ->. congruence.
      * intros _ _ sub' E'. cbn in E'. assert (sub' = sub) as -> by congruence. cbn. destruct older as [o|]; [|apply shows_first].
        destruct Ho as (Eo & Et & Hsh). specialize (Hsh sub Hsub). rewrite Eo, Et in Hsh. by apply shows_more.
    + split; [|exact Hs]. split_and!; [exact H1| |exact L2]. intros m sub' older' H. apply L1 in H as [H _]. by apply H2.
  - destruct (running s !! i) as [[[n sub] older]|] eqn:Ei; [|by split]. destruct (leaves_newest i s n sub older Ei Hn) as [L1 L2].
    unfold failedWith. cbn [leaves seq]. case_bool_decide as E.
    + split; [|done]. split_and!; [done| |done]. intros m sub' older' H. destruct (L1 _ _ _ H) as [G1 G2]. split; [by eapply H2'|]. cbn. intros ->. congruence.
    + split; [|exact Hs]. split_and!; [exact H1| |exact L2]. intros m sub' older' H. apply L1 in H as [H _]. by apply H2.
Qed.

(** C40. However the answers of searches and of older lines cross, once none is awaited and
    none failed the lines shown are those of the search submitted last: its first
    answer and the older lines after it, without a gap between them. *)
Theorem lines_of_last_search es :
  allFromStore newSearch es → let s := searchRun es in busy s = false → error s = None → ∀ sub, submitted s = Some sub → Shows sub (found s) (truncated s) (oldest s) (bytes s).
Proof.
  intros H. assert (good (searchRun es)) as [_ Hg]; [|exact Hg]. unfold searchRun. revert H. assert (good newSearch) as Hg.
  { split; [|done]. split_and!; [done|by intros n sub older ?%elem_of_nil|apply NoDup_nil_2]. }
  revert Hg. generalize newSearch as s. induction es as [|e es IH]; intros s Hg H; [done|]. cbn [foldl]. destruct H as [H1 H2]. apply IH; [|done]. by apply searchStep_good.
Qed.
End search.

(** ** The marks of a line *)

Record LinePart := { p_text : text; p_match : bool }.

Section highlight.
(** The characters the [i] flag takes for one, and the matches of a pattern in a line,
    if it compiles ([new RegExp], [matchAll]). *)
Context (canon : N → N) (compile : text → bool → option (text → list (nat * text))).

Definition same (ignoreCase : bool) (a b : N) : bool := if ignoreCase then (canon a =? canon b)%N else (a =? b)%N.
Fixpoint matchesAt (ignoreCase : bool) (query line : text) : bool :=
  match query, line with
  | [], _ => true
  | a :: q, b :: l => same ignoreCase a b && matchesAt ignoreCase q l
  | _ :: _, [] => false
  end.

(** The matches of an escaped query: the text itself, from the left, none over another. *)
Fixpoint literalFrom (ignoreCase : bool) (query : text) (at_ skip : nat) (line : text) : list (nat * text) :=
  match line with
  | [] => []
  | _ :: l =>
      match skip with
      | S k => literalFrom ignoreCase query (S at_) k l
      | O =>
          if matchesAt ignoreCase query line
          then (at_, take (length query) line) :: literalFrom ignoreCase query (S at_) (pred (length query)) l
          else literalFrom ignoreCase query (S at_) 0 l
      end
  end.

Fixpoint markLoop (line : text) (last : nat) (ms : list (nat * text)) (parts : list LinePart) : option (list LinePart * nat) :=
  match ms with
  | [] => Some (parts, last)
  | (at_, m) :: ms =>
      match m with
      | [] => None
      | _ => markLoop line (at_ + length m) ms
               (parts ++ (if last <? at_ then [{| p_text := slice line last at_; p_match := false |}] else []) ++ [{| p_text := m; p_match := true |}])
      end
  end.

Definition highlightParts (line query : text) (regex ignoreCase : bool) : list LinePart :=
  let plain := [{| p_text := line; p_match := false |}] in
  match query with
  | [] => plain
  | _ =>
      match (if regex then compile query ignoreCase else Some (literalFrom ignoreCase query 0 0)) with
      | None => plain
      | Some matchAll =>
          match markLoop line 0 (matchAll line) [] with
          | None => plain
          | Some (parts, last) =>
              match parts ++ (if last <? length line then [{| p_text := drop last line; p_match := false |}] else []) with
              | [] => plain
              | ps => ps
              end
          end
      end
  end.

(** Matches in their order, each a piece of the line, with no other start of a match
    ([P]) between them. *)
Inductive InOrder (P : text → bool) (line : text) : nat → list (nat * text) → Prop :=
  | in_order_nil last : (∀ j, last ≤ j < length line → P (drop j line) = false) → InOrder P line last []
  | in_order_cons last at_ m ms :
      last ≤ at_ → (∀ j, last ≤ j < at_ → P (drop j line) = false) → at_ + length m ≤ length line → m = take (length m) (drop at_ line) →
      InOrder P line (at_ + length m) ms → InOrder P line last ((at_, m) :: ms).

Lemma in_order_back P line last ms : P (drop last line) = false → InOrder P line (S last) ms → InOrder P line last ms.
Proof.
  intros H0. remember (S last) as n eqn:E. destruct 1 as [n H|n at_ m ms Ha H Hl Hm Hr]; subst n.
  - constructor. intros j Hj. destruct (Nat.eq_dec j last) as [->|]; [done|]. apply H. lia.
  - constructor; [lia| |done..]. intros j Hj. destruct (Nat.eq_dec j last) as [->|]; [done|]. apply H. lia.
Qed.

Lemma matchesAt_take ign q l : matchesAt ign q l = true → matchesAt ign q (take (length q) l) = true ∧ length (take (length q) l) = length q.
Proof.
  revert l. induction q as [|a q IH]; intros [|b l]; cbn; try done. intros [H1 H2]%andb_true_iff. destruct (IH l H2) as [I1 I2]. by rewrite H1, I1, I2.
Qed.

Lemma matchesAt_prefix ign q l k : matchesAt ign q l = true → matchesAt ign q (l ++ k) = true.
Proof. revert l. induction q as [|a q IH]; intros [|b l]; cbn; try done. intros [H1 H2]%andb_true_iff. by rewrite H1, IH. Qed.

Lemma literal_in_order ign query line at_ skip :
  query ≠ [] → at_ + skip ≤ length line →
  InOrder (matchesAt ign query) line (at_ + skip) (literalFrom ign query at_ skip (drop at_ line)) ∧
  ∀ k m, (k, m) ∈ literalFrom ign query at_ skip (drop at_ line) → matchesAt ign query m = true ∧ length m = length query.
Proof.
  intros Hq. remember (length line - at_) as n eqn:En. revert at_ skip En. induction n as [|n IH]; intros at_ skip En Hle.
  - rewrite drop_ge by lia. cbn. split; [constructor; intros; lia|by intros k m ?%elem_of_nil].
  - destruct (drop at_ line) as [|c l] eqn:Ed; [apply (f_equal length) in Ed; rewrite length_drop in Ed; cbn in Ed; lia|].
    assert (l = drop (S at_) line) as -> by (rewrite <-Nat.add_1_r, <-drop_drop, Ed; done). cbn [literalFrom]. destruct skip as [|k].
    + rewrite <-Ed. destruct (matchesAt ign query (drop at_ line)) eqn:Em; rewrite Nat.add_0_r.
      * destruct (matchesAt_take ign query _ Em) as [T1 T2]. assert (length query ≠ 0) as Hl by (by destruct query).
        assert (at_ + length query ≤ length line) as Hlen by (rewrite length_take, length_drop in T2; lia).
        destruct (IH (S at_) (pred (length query)) ltac:(lia) ltac:(lia)) as [I1 I2]. split.
        -- constructor; [lia|intros; lia|rewrite T2; lia|by rewrite T2|]. rewrite T2. by replace (at_ + length query) with (S at_ + pred (length query)) by lia.
        -- intros k m [[= -> ->]|H]%elem_of_cons; [by split|by eapply I2].
      * destruct (IH (S at_) 0 ltac:(lia) ltac:(lia)) as [I1 I2]. rewrite Nat.add_0_r in I1. split; [by apply in_order_back|done].
    + destruct (IH (S at_) k ltac:(lia) ltac:(lia)) as [I1 I2]. split; [|done]. by replace (at_ + S k) with (S at_ + k) by lia.
Qed.

(** What the loop leaves: the line up to where it is, in parts. *)
Lemma markLoop_spec P (G : LinePart → Prop) line last ms parts ps last' :
  (∀ at_ m, (at_, m) ∈ ms → G {| p_text := m; p_match := true |}) →
  (∀ a b, a ≤ b ≤ length line → (∀ j, a ≤ j < b → P (drop j line) = false) → G {| p_text := slice line a b; p_match := false |}) →
  InOrder P line last ms → last ≤ length line → concat (p_text <$> parts) = take last line → Forall G parts →
  markLoop line last ms parts = Some (ps, last') →
  last' ≤ length line ∧ concat (p_text <$> ps) = take last' line ∧ Forall G ps ∧ ∀ j, last' ≤ j < length line → P (drop j line) = false.
Proof.
  intros Hm Hu Ho. revert parts. induction Ho as [last H|last at_ m ms Ha H Hl Em Hr IH]; intros parts Hle Hp HG; cbn [markLoop]; [by intros [= <- <-]|].
  destruct m as [|c m]; [done|]. set (w := c :: m) in *. apply IH; [intros a' m' Hin; apply (Hm a'); by right|lia|..].
  - rewrite !fmap_app, !concat_app, Hp. assert (concat (p_text <$> (if last <? at_ then [{| p_text := slice line last at_; p_match := false |}] else [])) = slice line last at_) as ->.
    { destruct (Nat.ltb_spec last at_); cbn; [by rewrite app_nil_r|]. unfold slice. by replace (at_ - last) with 0 by lia. }
    cbn [fmap list_fmap concat p_text]. rewrite app_nil_r, Em at 1. unfold slice. rewrite app_assoc, take_take_drop.
    replace (last + (at_ - last)) with at_ by lia. apply take_take_drop.
  - apply Forall_app. split; [done|]. apply Forall_app. split; [|constructor; [apply (Hm at_); left|constructor]].
    destruct (Nat.ltb_spec last at_); [|constructor]. constructor; [apply Hu; [lia|done]|constructor].
Qed.

Lemma rest_makes_line line last ps :
  last ≤ length line → concat (p_text <$> ps) = take last line →
  concat (p_text <$> match ps ++ (if last <? length line then [{| p_text := drop last line; p_match := false |}] else []) with
                     | [] => [{| p_text := line; p_match := false |}] | ps => ps end) = line.
Proof.
  intros Hl Hp. destruct (ps ++ _) as [|p l] eqn:E; [apply app_nil_r|]. rewrite <-E, fmap_app, concat_app, Hp.
  destruct (Nat.ltb_spec last (length line)); cbn; rewrite ?app_nil_r; [apply take_drop|by apply take_ge].
Qed.

(** The texts of the parts make the line.  A literal search marks pieces that match the
    query, and none starts within what is left unmarked. *)
Theorem parts_make_line line query regex ign :
  (∀ q i f l, compile q i = Some f → InOrder (λ _, false) l 0 (f l)) →
  let parts := highlightParts line query regex ign in
  concat (p_text <$> parts) = line ∧
  (regex = false → query ≠ [] → Forall (λ p, if p_match p then matchesAt ign query (p_text p) = true ∧ length (p_text p) = length query
                                              else ∀ j, j < length (p_text p) → matchesAt ign query (drop j (p_text p)) = false) parts).
Proof.
  intros Hc. cbv zeta. unfold highlightParts. destruct query as [|c0 q0]; [split; [apply app_nil_r|done]|]. set (query := c0 :: q0). assert (query ≠ []) as Hq by done. clearbody query.
  destruct regex.
  - split; [|done]. destruct (compile query ign) as [f|] eqn:Ef; [|apply app_nil_r]. destruct (markLoop line 0 (f line) []) as [[ps last]|] eqn:Em; [|apply app_nil_r].
    destruct (markLoop_spec (λ _, false) (λ _, True) line 0 (f line) [] ps last) as (H1 & H2 & _); [done|done|by eapply Hc|lia|done|constructor|done|].
    by apply rest_makes_line.
  - destruct (literal_in_order ign query line 0 0 Hq ltac:(lia)) as [I1 I2]. rewrite drop_0 in I1, I2. cbn [Nat.add] in I1.
    set (ms := literalFrom ign query 0 0 line) in *.
    set (G := λ p, if p_match p then matchesAt ign query (p_text p) = true ∧ length (p_text p) = length query
                   else ∀ j, j < length (p_text p) → matchesAt ign query (drop j (p_text p)) = false).
    assert (∀ a b, a ≤ b ≤ length line → (∀ j, a ≤ j < b → matchesAt ign query (drop j line) = false) → G {| p_text := slice line a b; p_match := false |}) as Hu.
    { intros a b Hab H j Hj. unfold slice in *. cbn [p_text p_match] in *. rewrite length_take, length_drop in Hj. destruct (matchesAt _ _ _) eqn:E; [|done].
      assert (drop j (take (b - a) (drop a line)) ++ drop (b - a - j) (drop (a + j) line) = drop (a + j) line) as Hs.
      { replace (b - a) with (j + (b - a - j)) at 1 by lia. rewrite <-take_drop_commute, drop_drop. apply take_drop. }
      apply (matchesAt_prefix _ _ _ (drop (b - a - j) (drop (a + j) line))) in E. rewrite Hs, (H (a + j)) in E by lia. done. }
    assert (markLoop line 0 ms [] ≠ None) as Hn.
    { assert (∀ ms last parts, (∀ k m, (k, m) ∈ ms → m ≠ []) → markLoop line last ms parts ≠ None) as Hg.
      { clear. induction ms as [|[k m] ms IH]; intros last parts H; [done|]. cbn [markLoop]. assert (m ≠ []) by (apply (H k); left). destruct m; [done|]. apply IH. intros k' m' Hin. apply (H k'). by right. }
      apply Hg. intros k m Hin. destruct (I2 k m Hin) as [_ H]. intros ->. by destruct query. }
    destruct (markLoop line 0 ms []) as [[ps last]|] eqn:Em; [|done].
    destruct (markLoop_spec (matchesAt ign query) G line 0 ms [] ps last) as (H1 & H2 & H3 & H4); [intros k m Hin; by apply (I2 k)|done|done|lia|done|constructor|done|].
    split; [by apply rest_makes_line|]. intros _ _.
    assert (Forall G (ps ++ (if last <? length line then [{| p_text := drop last line; p_match := false |}] else []))) as Hall.
    { apply Forall_app. split; [done|]. destruct (Nat.ltb_spec last (length line)); [|constructor]. constructor; [|constructor].
      specialize (Hu last (length line) ltac:(lia) H4). unfold slice in Hu. by rewrite take_ge in Hu by (rewrite length_drop; lia). }
    destruct (ps ++ _) as [|p l] eqn:E; [|done]. apply app_nil in E as [-> E]. destruct (Nat.ltb_spec last (length line)); [done|].
    rewrite take_ge in H2 by done. cbn in H2. subst line. constructor; [|constructor]. intros j Hj. cbn in Hj. lia.
Qed.
End highlight.

(** ** Concrete logs *)

#[local] Open Scope string_scope.

Definition openedFiles : list FileEvent := [ListAnswers ["/var/log/app.log"; "/var/log/gc.log"]; ChoosesPath "/var/log/gc.log"].

Lemma reads_listed_files_witness :
  let s := fileRun "app" 2000 openedFiles in
  asked s = [Read {| of_container := "app"; of_path := "/var/log/app.log"; of_lines := 100 |}; Read {| of_container := "app"; of_path := "/var/log/gc.log"; of_lines := 100 |}] ∧
  ∃ new, asked (fileStep s TogglesFollow) = (asked s ++ new)%list ∧ (length new ≤ 1)%nat ∧
    ∀ a, a ∈ new → sourceOf a = wanted (fileStep s TogglesFollow) ∧ path (fileStep s TogglesFollow) ∈ filesOf (fileStep s TogglesFollow).
Proof. split; [by vm_compute|]. apply (reads_listed_files "app" 2000 openedFiles TogglesFollow). done. Defined.

Lemma container_reads_old_path_witness :
  let s := fileRun "app" 2000 (openedFiles ++ [TogglesFollow]) in
  asked (fileStep s (ContainerChanges "proxy" None)) = (asked s ++ [Follow {| of_container := "proxy"; of_path := "/var/log/gc.log"; of_lines := 100 |}])%list.
Proof.
  intros s. assert (named s = true ∧ container s = "app" ∧ listed s = Some ["/var/log/app.log"; "/var/log/gc.log"] ∧ follow s = true ∧ path s = "/var/log/gc.log" ∧ lines s = 100%nat)
    as (H1 & H2 & H3 & H4 & H5 & H6) by by vm_compute.
  destruct (container_reads_old_path "app" 2000 (openedFiles ++ [TogglesFollow]) "proxy") as [H _]; fold s; [done|done|by rewrite H2|by rewrite H3|]. fold s in H.
  by rewrite H4, H5, H6 in H.
Defined.

(** A file that is followed says five thousand and two line breaks. *)
Lemma follow_shows_last_witness :
  let es := (openedFiles ++ [TogglesFollow; Message (utf16 "a"); Message (replicate (5000 + 1) newline)])%list in
  let shown := streamText (fileRun "app" 2000 es) in
  breaks (heard "app" 2000 es) = (5000 + 3)%nat ∧ ∃ p, heard "app" 2000 es = (p ++ newline :: shown)%list ∧ breaks shown = 5000%nat.
Proof.
  intros es shown. assert (breaks (heard "app" 2000 es) = (5000 + 3)%nat) as Hb by (by vm_compute). split; [exact Hb|].
  destruct (follow_shows_last "app" 2000 es) as [[H _]|H]; [|exact H]. rewrite Hb in H. exfalso. revert H. apply Nat.lt_nge. apply Nat.lt_add_pos_r. lia.
Defined.

Lemma reconnect_repeats_lines_witness :
  logs (logRun "app" [Connects; Line (utf16 "done"); Drops; Connects; Line (utf16 "done"); Drops]) = (utf16 "done" ++ [newline] ++ utf16 "done" ++ [newline])%list.
Proof. exact (reconnect_repeats_lines "app" [[utf16 "done"]; [utf16 "done"]] ltac:(done) ltac:(done)). Defined.

Definition sampleSearch : Submitted := {| q := "error"; regex := false; ignoreCase := true; start := 0; end_ := 100; logql := None |}.
(** A store that answers with the end it is asked for, [older ?? s.end]. *)
Definition endOf (sub : Submitted) (older : option Z) : Z := default (end_ sub) older.
Definition sampleAnswer (n : nat) (sub : Submitted) (older : option Z) : Response :=
  {| r_lines := [utf16 (pretty (endOf sub older))]; r_truncated := true; r_oldest := Some (endOf sub older - 10)%Z; r_bytes := 3; effectiveQuery := None |}.
Definition sampleSearches : list SearchEvent :=
  [Searches sampleSearch; Searches {| q := "warn"; regex := false; ignoreCase := true; start := 0; end_ := 50; logql := None |};
   Answers 1 (sampleAnswer 2 {| q := "warn"; regex := false; ignoreCase := true; start := 0; end_ := 50; logql := None |} None); LoadsOlder;
   Answers 0 (sampleAnswer 1 sampleSearch None);
   Answers 0 (sampleAnswer 3 {| q := "warn"; regex := false; ignoreCase := true; start := 0; end_ := 50; logql := None |} (Some 40%Z))].

Lemma lines_of_last_search_witness :
  let s := searchRun sampleSearches in
  found s = [utf16 "50"; utf16 "40"] ∧ ∀ sub, submitted s = Some sub → Shows sampleAnswer sub (found s) (truncated s) (oldest s) (bytes s).
Proof.
  split; [by vm_compute|]. apply (lines_of_last_search sampleAnswer sampleSearches); [|done|done].
  cbn. split_and!; try done; by intros n sub older [= <- <- <-].
Defined.

Definition lowerUnit (c : N) : N := if ((65 <=? c) && (c <=? 90))%N then (c + 32)%N else c.

Lemma parts_make_line_witness :
  let parts := highlightParts lowerUnit (λ _ _, None) (utf16 "an Error, error") (utf16 "ERROR") false true in
  (p_match <$> parts) = [false; true; false; true] ∧ concat (p_text <$> parts) = utf16 "an Error, error".
Proof. split; [by vm_compute|]. apply (parts_make_line lowerUnit (λ _ _, None) (utf16 "an Error, error") (utf16 "ERROR") false true). done. Defined.

Example kept_lines : keepLast 1 (utf16 "a
b
c
") = utf16 "c
" ∧ lineOptions 50 = [50].
Proof. by vm_compute. Qed.
